(* ===== verification/_CoqProject ===== *)
-Q . S2P
Prelude.v
Param.v
Bytes.v
CString.v
Spinlock.v
Csr.v
Sleeplock.v
Kalloc.v
Vm.v
VmTree.v
UserSpec.v
VmMap.v
VmUser.v
VmCopy.v
KvmSpec.v
Proc.v
SleepWake.v
BufSpec.v
TxSpec.v
Bio.v
Log.v
Fs.v
FsWp.v
FsDemo.v
FsAlloc.v
FsInode.v
FsFile.v
FsContents.v
FsPath.v
Mkfs.v
MkfsSpec.v
Pipe.v
File.v
Syscall.v
ProcMem.v
ProcSpec.v
Exec.v
Sysfile.v
FdSpec.v
Sysproc.v
Trap.v
Plic.v
Printf.v
Console.v
Virtio.v
Ulib.v
Umalloc.v
Grep.v
Progs.v
Ls.v
UProg.v
Sh.v
ShGram.v
ShRun.v
PingPong.v
Init.v
Asm.v
TrapSpec.v
Boot.v
