(* ===== verification/Prelude.v ===== *)
(** * xv6 for RISC-V: a verification development

    ** The program

    A multiprocessor teaching kernel (src/kernel) with its user programs
    (src/user) and a file system builder (src/mkfs).  From the bottom up:
    spin locks and interrupt nesting; the page allocator; page tables and the
    copying of memory between kernel and user; the process table with the
    scheduler, [sleep] and [wakeup]; the disk driver; the buffer cache; the
    log, which makes a group of block writes atomic; inodes, files,
    directories and path names; pipes and open files; the console; traps and
    system calls; booting.  The user programs stand on a library of their own
    (strings, formatted output, an allocator) over the system calls.

    ** How the code is modelled

    Every function is a Rocq function of the same name.  C integers are [Z]
    with the wrap-around written out ([u8] .. [u64], [s32], [s64], this file).
    Memory is a function from addresses to bytes (Bytes.v, CString.v), and
    structures that the code lays out in memory (page tables, trap frames, the
    free list, directory entries, on-disk blocks) are bytes there.  Kernel
    tables are lists of records; a pointer to an entry is its index plus one,
    so that 0 is the null pointer.

    Stateful code is written in the monad [M S A := S → outcome S A] of this
    file.  An outcome is [Ok] with a result and a state, [Panic] (the kernel's
    panic), [Sleep] (the process gives up the CPU and the call is run again,
    or continued, once it is woken), [Spin] (a busy wait that another hart or
    a device has to end) or [OutOfFuel].  A component's functions run inside a
    larger state through a lens ([zoom]).  Loops that are not structural have
    fuel; the theorems that say a call returns prove the fuel is enough, and
    no theorem concludes anything from [OutOfFuel].

    Where several harts or processes run at once, a component has a step
    relation cut at every access to shared state (Spinlock.v, SleepWake.v,
    Kalloc.v, Virtio.v, PingPong.v); the theorems there are invariants over all
    interleavings.  Assembly runs on a hart with registers, control registers,
    memory and an address translation (Asm.v).

    User programs run over classes of system calls ([UserSys] of Ulib.v,
    [UserStat] of Ls.v, the allocator's of Umalloc.v) whose laws state what the
    kernel promises, or are trees of system calls (UProg.v) that a world runs.

    ** The files

    - Prelude.v: the monad, its rules ([for_up_inv], [awp]), lists indexed by
      [Z], machine integers, tactics.  Param.v: param.h, memlayout.h and the
      address arithmetic of riscv.h.  Bytes.v: little-endian words.
    - CString.v: string.c.
    - Spinlock.v: spinlock.c, per hart and as the step relation [SMP.lock_step]
      of all harts.  Sleeplock.v: sleeplock.c.
    - Csr.v: the registers of riscv.h, start.c.
    - Kalloc.v: kalloc.c, with the free list threaded through free pages.
    - Vm.v: vm.c.  VmTree.v: page tables as trees in memory, [walk].  VmMap.v:
      [mappages], [walkaddr].  VmUser.v: the memory a process sees, demand
      paging, [copyin], [copyout].  VmCopy.v: [uvmcopy].  KvmSpec.v: the page
      table of the kernel.
    - UserSpec.v: the interface [UserMem] and its laws [UserMemSpec], against
      which file system and pipes are proved; VmUser.v has the instance.
    - Proc.v: the process table and scheduling half of proc.c; a context
      switch ends a definition, and what follows it in the code is the
      definition with the suffix [_resume].  SleepWake.v: [sleep] and [wakeup]
      on many harts.  ProcMem.v: the half of proc.c that creates, clones, ends
      and reaps processes.  ProcSpec.v: a new process, and the first.
    - BufSpec.v, TxSpec.v: the interfaces [BufCacheSpec] and [TxSpec] of the
      buffer cache and the log.  Bio.v: bio.c and the first instance.  Log.v:
      log.c, crashes, and the second instance.
    - Fs.v: fs.c over [TxSpec] and [UserMem].  FsWp.v: its rules.  FsAlloc.v:
      the block bitmap.  FsInode.v: the inode table and [ialloc], [iput],
      [ilock], [iupdate].  FsFile.v, FsContents.v: [bmap], [readi], [writei].
      FsPath.v: directories and path names.  FsDemo.v: a small concrete file
      system.  Mkfs.v: mkfs.c.  MkfsSpec.v: the image it builds, against Fs.v.
    - Pipe.v: pipe.c.  File.v: file.c and the life of pipes.  FdSpec.v: the
      descriptors of all processes against the table of open files.
    - Syscall.v: syscall.c.  Exec.v: exec.c.  Sysfile.v: sysfile.c.
      Sysproc.v: sysproc.c and the table of system calls.  Trap.v: trap.c.
    - Plic.v: plic.c.  Printf.v: the formatting of printf.c.  Console.v:
      uart.c, console.c, [printf].  Virtio.v: virtio_disk.c.
    - Asm.v: entry.S, swtch.S, kernelvec.S, trampoline.S and the stubs that
      usys.pl generates.  TrapSpec.v: a system call, from the instruction in
      the user program through Asm.v and Trap.v and back.
    - Boot.v: main.c, over a state of which the components above are views.
    - Ulib.v: ulib.c, printf.c of the user.  Umalloc.v: umalloc.c.  Grep.v:
      grep.c.  Progs.v: cat.c, echo.c, wc.c, mkdir.c, rm.c, ln.c, kill.c, sleep.c.
      Ls.v: ls.c.  Sh.v: the parser of sh.c; ShGram.v: its grammar; ShRun.v:
      the execution of commands, and the shell.  PingPong.v: pingpong.c.
      Init.v: init.c.

    ** What is shown

    - Locks: mutual exclusion, interrupts off while a lock is held, no panic
      for bracketed use; sleep locks exclude; no wakeup is lost; [wakeup] and
      [kkill] do what they say; one round of the scheduler runs every process
      that stays runnable.
    - Memory: no page is handed out twice; [mappages] maps what it is asked to
      and nothing else; demand paging, for any faulting address, is invisible to
      a process; [copyin] and [copyout] read and write the memory a process
      sees, within its permissions, fail for no other reason than these or lack
      of memory, and are inverse.
    - Disk: the buffer cache shows the disk; a crash at any write of a commit
      leaves the old or the new contents after recovery; recovery is
      idempotent; reservations, in different blocks for each system call, keep
      the log from overflowing; the driver's descriptors are conserved.
    - Files: the bitmap, the inode table, [readi] and [writei] against the
      contents of a file as a list of bytes, for every branch.
      Directory entries that are linked are found.  The image of mkfs is a
      file system with an exact bitmap and every file that was put in, as the
      kernel wants it but for the size of a root directory whose entries fill
      its last block.
    - Pipes and console: the ring buffers implement queues; over any history of
      reads, writes and waits the bytes of a pipe come out in the order they
      went in; the console edits lines.  Printed numbers read back.
    - Descriptors: each names an open file, whose count is the number of
      references, across [dup], [close] and [fork].
    - Processes: [uvmcopy] gives a child its own copy of the parent's memory;
      [allocproc] makes an unused entry a process of its own; the kernel's page
      table has its mappings with their permissions, and no others.
    - Booting: [main] takes the state of the loader to one that satisfies the
      invariants above, with the first process ready to run.
    - Assembly: [swtch] resumes a thread where it left; an interrupt in the
      kernel is not seen by what it interrupts; a system call is a function
      call that passes [a0] to [a5] to the handler of its number, returns the
      handler's result and keeps the other registers (but for [a7], which the
      stub sets).
    - User space: [malloc] (for less than 2 GB) and [free] hand out memory
      from [sbrk] once; the shell accepts
      the lines of its grammar and starts the programs they name, connected as
      they say; [grep] prints the lines that match, [cat] copies, [wc] counts,
      [ls] lists; pingpong prints its lines in order and ends; init keeps one
      shell running.

    ** Bounds

    Page-table, buffer and table sizes are those of the code.  [io_fuel] and
    [copy_fuel] exceed the number of blocks or pages a request touches.
    [digit_fuel] is 64, the bits of the largest number.  The log theorems hold
    for every number of blocks up to [LOGBLOCKS].  [kvmmake] needs 167 free
    pages (64 stacks and at most 102 pages of tables), booting 176.  Paths have
    [MAXPATH] bytes, command lines 100, which bounds the scans for a NUL; the
    parser's fuel is nine times the length of a line, plus nine (ShGram.v).  The
    endless loops of the shell, of init and of the scheduler are as many rounds
    as one likes; the theorems hold for every number of them.

    ** Not modelled

    - The messages that traps and [syscall] print, and [procdump]'s locks (it
      takes none).
    - [wakeup] in the components that follow one call at a time (locks, log,
      pipes, console, disk driver), where it changes nothing; the loop over the
      processes is [Proc.wakeup], and SleepWake.v has it among many harts.
    - A [malloc] of the shell that returns 0; the entries of [devsw] that
      [consoleinit] sets, which are the parameter [devsw] of File.v; the contents
      of the queue pages of the disk driver as physical memory (they are fields
      of the driver's record).
    - Wrap-around at 2^64 of the address at which [readi] and [writei] copy.
    - Instruction and data fences: the step relations are sequentially
      consistent; of the barriers only the order of [sfence.vma] and the
      change of page table matters, in Asm.v.
    - The linker scripts, and the declarations of defs.h and user.h.
    - [start], [sbrk] and [sbrklazy] of the user library, which pass their
      arguments on; memdump.c, whose function has no body yet; zombie.c.
    - usertests.c, grind.c and the other programs under src/user that test the
      kernel, and the scripts that grade it.  *)

From stdpp Require Import base tactics list numbers strings gmap sets.
From Stdlib Require Import ZArith Lia.

#[global] Open Scope Z_scope.

(** * Outcomes of kernel code

    One kernel thread is followed through a call.  It returns a value, panics
    (the call to [panic] in the source never returns), goes to sleep on a wait
    channel, spins on a lock word that some other CPU holds, or (only in the
    definitions that carry a loop bound) exhausts that bound. *)

Inductive outcome (S A : Type) : Type :=
| Ok (a : A) (s : S)
| Panic (msg : string)
| Sleep (chan : Z) (s : S)
| Spin (s : S)
| OutOfFuel.

Arguments Ok {S A} _ _.
Arguments Panic {S A} _.
Arguments Sleep {S A} _ _.
Arguments Spin {S A} _.
Arguments OutOfFuel {S A}.

(** Kernel code with access to a state [S]. *)
Definition M (S A : Type) : Type := S → outcome S A.

Definition ret {S A} (a : A) : M S A := λ s, Ok a s.

Definition bind {S A B} (m : M S A) (k : A → M S B) : M S B := λ s,
  match m s with
  | Ok a s' => k a s'
  | Panic msg => Panic msg
  | Sleep c s' => Sleep c s'
  | Spin s' => Spin s'
  | OutOfFuel => OutOfFuel
  end.

Definition get {S} : M S S := λ s, Ok s s.
Definition gets {S T} (f : S → T) : M S T := λ s, Ok (f s) s.
Definition put {S} (s' : S) : M S unit := λ _, Ok tt s'.
Definition modify {S} (f : S → S) : M S unit := λ s, Ok tt (f s).
Definition panic {S A} (msg : string) : M S A := λ _, Panic msg.

Declare Scope kernel_scope.
Delimit Scope kernel_scope with kernel.

Notation "x <- m ;; k" := (bind m (λ x, k))
  (at level 20, m at level 99, k at level 200, only parsing) : kernel_scope.
Notation "' p <- m ;; k" := (bind m (λ x, match x with p => k end))
  (at level 20, p pattern, m at level 99, k at level 200, only parsing) : kernel_scope.
Notation "m ;; k" := (bind m (λ _, k))
  (at level 100, k at level 200, right associativity, only parsing) : kernel_scope.

(** ** A component's state inside a larger one *)

Record lens (S T : Type) := Lens { view : S → T; upd : T → S → S }.
Arguments Lens {S T} _ _.
Arguments view {S T} _ _.
Arguments upd {S T} _ _ _.

Definition zoom {S T A} (l : lens S T) (m : M T A) : M S A := λ s,
  match m (view l s) with
  | Ok a t => Ok a (upd l t s)
  | Panic msg => Panic msg
  | Sleep c t => Sleep c (upd l t s)
  | Spin t => Spin (upd l t s)
  | OutOfFuel => OutOfFuel
  end.

(** An array access [a\[i\]] with [i] outside the array is undefined in C; the
    model makes the access a visible error. *)
Definition in_bounds {S} (i n : Z) : M S unit :=
  if (0 <=? i) && (i <? n) then ret tt else panic "index out of bounds".

(** ** Counted loops

    [for_up n i body] is [for (; n more times; i++) body(i)], where the body
    either goes on ([Next]) or leaves the loop with a result ([Stop]): a C
    [break], [goto] or [return] from inside the loop. *)

Inductive ctl (R : Type) : Type :=
| Next
| Stop (r : R).
Arguments Next {R}.
Arguments Stop {R} _.

Fixpoint for_up {S R} (n : nat) (i : Z) (body : Z → M S (ctl R)) : M S (option R) :=
  match n with
  | O => ret None
  | Datatypes.S n' => λ s,
      match body i s with
      | Ok Next s' => for_up n' (i + 1) body s'
      | Ok (Stop r) s' => Ok (Some r) s'
      | Panic msg => Panic msg
      | Sleep c s' => Sleep c s'
      | Spin s' => Spin s'
      | OutOfFuel => OutOfFuel
      end
  end.

(** * C integers *)

Definition u8 (x : Z) : Z := x mod 256.
Definition u16 (x : Z) : Z := x mod 65536.
Definition u32 (x : Z) : Z := x mod 4294967296.
Definition u64 (x : Z) : Z := x mod 18446744073709551616.
Definition s8 (x : Z) : Z := (x + 128) mod 256 - 128.
Definition s16 (x : Z) : Z := (x + 32768) mod 65536 - 32768.
Definition s32 (x : Z) : Z := (x + 2147483648) mod 4294967296 - 2147483648.
Definition s64 (x : Z) : Z :=
  (x + 9223372036854775808) mod 18446744073709551616 - 9223372036854775808.

(** A C truth value. *)
Definition b2z (b : bool) : Z := if b then 1 else 0.

(** * Z-indexed lists *)

Definition len {A} (l : list A) : Z := Z.of_nat (length l).

Definition znth {A} (d : A) (l : list A) (i : Z) : A :=
  if i <? 0 then d else default d (l !! Z.to_nat i).

Definition zset {A} (l : list A) (i : Z) (x : A) : list A :=
  if i <? 0 then l else <[Z.to_nat i := x]> l.

(** [zseq i n] is [i; i+1; ...] of length [n]. *)
Fixpoint zseq (i : Z) (n : nat) : list Z :=
  match n with
  | O => []
  | S n' => i :: zseq (i + 1) n'
  end.

(** * Reasoning about outcomes *)

(** [returns m s Q]: run from [s], the code returns, with a value and a state
    that satisfy [Q]. *)
Definition returns {S A} (m : M S A) (s : S) (Q : A → S → Prop) : Prop :=
  match m s with
  | Ok a s' => Q a s'
  | _ => False
  end.

Create HintDb kernel discriminated.

Section outcomes.
  Context {S : Type}.

Lemma bind_ok {A B} (m : M S A) (k : A → M S B) s a s' :
  m s = Ok a s' → bind m k s = k a s'.
Proof. unfold bind. by intros ->. Qed.

Lemma bind_panic {A B} (m : M S A) (k : A → M S B) s msg :
  m s = Panic msg → bind m k s = Panic msg.
Proof. unfold bind. by intros ->. Qed.

Lemma bind_assoc {A B C} (m : M S A) (f : A → M S B) (g : B → M S C) s :
  bind (bind m f) g s = bind m (λ a, bind (f a) g) s.
Proof. unfold bind. by destruct (m s). Qed.

Lemma bind_inv_ok {A B} (m : M S A) (k : A → M S B) s b s' :
  bind m k s = Ok b s' → ∃ a s1, m s = Ok a s1 ∧ k a s1 = Ok b s'.
Proof. unfold bind. destruct (m s) as [a s1| | | |]; [|done..]. intros H. by exists a, s1. Qed.

Lemma bind_sleep {A B} (m : M S A) (k : A → M S B) s c s' :
  m s = Sleep c s' → bind m k s = Sleep c s'.
Proof. unfold bind. by intros ->. Qed.

Lemma bind_ret {A B} (a : A) (k : A → M S B) s : bind (ret a) k s = k a s.
Proof. done. Qed.

Lemma bind_get {B} (k : S → M S B) s : bind get k s = k s s.
Proof. done. Qed.

Lemma bind_gets {T B} (f : S → T) (k : T → M S B) s : bind (gets f) k s = k (f s) s.
Proof. done. Qed.

Lemma bind_put {B} (k : unit → M S B) s s' : bind (put s') k s = k tt s'.
Proof. done. Qed.

Lemma bind_modify {B} (f : S → S) (k : unit → M S B) s : bind (modify f) k s = k tt (f s).
Proof. done. Qed.

Lemma zoom_ok {T A} (l : lens S T) (m : M T A) s a t :
  m (view l s) = Ok a t → zoom l m s = Ok a (upd l t s).
Proof. unfold zoom. by intros ->. Qed.

Lemma zoom_panic {T A} (l : lens S T) (m : M T A) s msg :
  m (view l s) = Panic msg → zoom l m s = Panic msg.
Proof. unfold zoom. by intros ->. Qed.

Lemma in_bounds_ok i n (s : S) : 0 ≤ i < n → in_bounds i n s = Ok tt s.
Proof. intros H. unfold in_bounds. destruct (0 <=? i) eqn:?, (i <? n) eqn:?; done || lia. Qed.

Lemma returns_ok {A} (m : M S A) s (Q : A → S → Prop) :
  returns m s Q ↔ ∃ a s', m s = Ok a s' ∧ Q a s'.
Proof.
  unfold returns. split.
  - destruct (m s); naive_solver.
  - by intros (a & s' & -> & HQ).
Qed.

Lemma returns_ret {A} (a : A) s (Q : A → S → Prop) : Q a s → returns (ret a) s Q.
Proof. done. Qed.

Lemma returns_bind {A B} (m : M S A) (k : A → M S B) s (Q : B → S → Prop) :
  returns m s (λ a s', returns (k a) s' Q) → returns (bind m k) s Q.
Proof. unfold returns, bind. by destruct (m s). Qed.

Lemma returns_step {A B} (m : M S A) (k : A → M S B) s a s' (Q : B → S → Prop) :
  m s = Ok a s' → returns (k a) s' Q → returns (bind m k) s Q.
Proof. unfold returns, bind. by intros ->. Qed.

Lemma returns_conseq {A} (m : M S A) s (Q Q' : A → S → Prop) :
  returns m s Q → (∀ a s', Q a s' → Q' a s') → returns m s Q'.
Proof. unfold returns. destruct (m s); naive_solver. Qed.

Lemma returns_and {A} (m : M S A) s (Q Q' : A → S → Prop) :
  returns m s Q → returns m s Q' → returns m s (λ a s', Q a s' ∧ Q' a s').
Proof. unfold returns. destruct (m s); naive_solver. Qed.

(** The loop rule: an invariant indexed by the loop variable. *)
Lemma for_up_inv {R} (I : Z → S → Prop) (Q : option R → S → Prop) body n lo s :
  I lo s →
  (∀ i s, lo ≤ i < lo + Z.of_nat n → I i s →
    returns (body i) s (λ c s', match c with
                                | Next => I (i + 1) s'
                                | Stop r => Q (Some r) s'
                                end)) →
  (∀ s, I (lo + Z.of_nat n) s → Q None s) →
  returns (for_up n lo body) s Q.
Proof.
  revert lo s. induction n as [|n IH]; intros lo s HI Hbody Hend.
  - apply Hend. by rewrite Z.add_0_r.
  - pose proof (Hbody lo s ltac:(lia) HI) as Hstep.
    unfold returns in *. cbn [for_up].
    destruct (body lo s) as [[|r] s'| | | |]; try done.
    apply IH; [done | intros; apply Hbody; [lia|done] |].
    intros s'' HI'. apply Hend. by replace (lo + Z.of_nat (Datatypes.S n))
      with (lo + 1 + Z.of_nat n) by lia.
Qed.

Lemma for_up_app {R} (body : Z → M S (ctl R)) n1 n2 lo s :
  for_up (n1 + n2)%nat lo body s =
  bind (for_up n1 lo body) (λ r, match r with
    | None => for_up n2 (lo + Z.of_nat n1) body
    | Some x => ret (Some x)
    end) s.
Proof.
  revert lo s. induction n1 as [|n1 IH]; intros lo s.
  - cbn. by rewrite Z.add_0_r.
  - unfold bind. cbn [Nat.add for_up].
    destruct (body lo s) as [[|r] s'| | | |]; try done.
    rewrite IH. unfold bind.
    by replace (lo + Z.of_nat (Datatypes.S n1)) with (lo + 1 + Z.of_nat n1) by lia.
Qed.

(** A search loop: the body tests [i] and leaves the state alone. *)
Fixpoint zfind (f : Z → bool) (n : nat) (i : Z) : option Z :=
  match n with
  | O => None
  | Datatypes.S n' => if f i then Some i else zfind f n' (i + 1)
  end.

Lemma for_up_find (f : Z → bool) (body : Z → M S (ctl Z)) n lo s :
  (∀ i, lo ≤ i < lo + Z.of_nat n → body i s = Ok (if f i then Stop i else Next) s) →
  for_up n lo body s = Ok (zfind f n lo) s.
Proof.
  revert lo. induction n as [|n IH]; intros lo Hb; [done|]. cbn [for_up zfind].
  rewrite Hb by lia. destruct (f lo); [done|]. apply IH. intros i Hi. apply Hb. lia.
Qed.

Lemma zfind_Some f n lo i :
  zfind f n lo = Some i →
  lo ≤ i < lo + Z.of_nat n ∧ f i = true ∧ ∀ j, lo ≤ j < i → f j = false.
Proof.
  revert lo. induction n as [|n IH]; intros lo; cbn [zfind]; [done|].
  destruct (f lo) eqn:E.
  - intros [= ->]. split_and!; [lia|lia|done|]. intros j Hj. lia.
  - intros (H1 & H2 & H3)%IH. split_and!; [lia|lia|done|]. intros j Hj.
    destruct (decide (j = lo)) as [->|]; [done|]. apply H3. lia.
Qed.

Lemma zfind_None f n lo :
  zfind f n lo = None → ∀ j, lo ≤ j < lo + Z.of_nat n → f j = false.
Proof.
  revert lo. induction n as [|n IH]; intros lo; cbn [zfind]; [intros _ j Hj; lia|].
  destruct (f lo) eqn:E; [done|]. intros H j Hj.
  destruct (decide (j = lo)) as [->|]; [done|]. apply (IH _ H). lia.
Qed.
End outcomes.

#[export] Instance returns_proper {S A} (m : M S A) (s : S) :
  Proper (pointwise_relation A (pointwise_relation S impl) ==> impl) (returns m s).
Proof. intros Q Q' HQ H. eapply returns_conseq; [done|]. intros a s'. apply HQ. Qed.

(** * Reasoning over an abstract state

    [awp R m a Q]: from any state that represents [a], [m] returns, and its
    result and some abstract state that the new state represents satisfy [Q]. *)

Section awp.
  Context {S A : Type} (R : A → S → Prop).

Definition awp {T} (m : M S T) (a : A) (Q : T → A → Prop) : Prop :=
  ∀ s, R a s → returns m s (λ r s', ∃ a', R a' s' ∧ Q r a').

Lemma awp_run {T} (m : M S T) a Q s :
  awp m a Q → R a s → ∃ r s' a', m s = Ok r s' ∧ R a' s' ∧ Q r a'.
Proof.
  intros Hw HR. apply (Hw s) in HR. apply returns_ok in HR as (r & s' & Hm & a' & HR & HQ).
  by exists r, s', a'.
Qed.

Lemma awp_ret {T} (r : T) a (Q : T → A → Prop) : Q r a → awp (ret r) a Q.
Proof. intros HQ s HR. apply returns_ret. by exists a. Qed.

Lemma awp_bind {T U} (m : M S T) (k : T → M S U) a Q :
  awp m a (λ r a', awp (k r) a' Q) → awp (bind m k) a Q.
Proof.
  intros Hm s HR. apply returns_bind. eapply returns_conseq; [by apply Hm|].
  intros r s' (a' & HR' & Hk). by apply Hk.
Qed.

Lemma awp_assoc {T U V} (m : M S T) (f : T → M S U) (g : U → M S V) a Q :
  awp (bind m (λ x, bind (f x) g)) a Q → awp (bind (bind m f) g) a Q.
Proof. intros Hw s HR. specialize (Hw s HR). unfold returns in *. by rewrite bind_assoc. Qed.

Lemma awp_conseq {T} (m : M S T) a (Q Q' : T → A → Prop) :
  awp m a Q → (∀ r a', Q r a' → Q' r a') → awp m a Q'.
Proof.
  intros Hm HQ s HR. eapply returns_conseq; [by apply Hm|]. intros r s' (a' & HR' & HQ').
  exists a'. auto.
Qed.

Lemma awp_skip {T U} (r : T) (k : T → M S U) a Q : awp (k r) a Q → awp (bind (ret r) k) a Q.
Proof. intros Hk. exact Hk. Qed.

Lemma awp_tail {T} (m : M S T) a Q : awp (bind m ret) a Q → awp m a Q.
Proof.
  intros Hw s HR. specialize (Hw s HR). unfold returns, bind, ret in *. by destruct (m s).
Qed.

Lemma awp_get {T} (k : S → M S T) a Q :
  (∀ s, R a s → awp (k s) a Q) → awp (bind get k) a Q.
Proof. intros Hk s HR. eapply returns_step; [done|]. by apply (Hk s HR). Qed.

(** A call with a known result. *)
Lemma awp_call {T U} (m : M S T) (k : T → M S U) a Q :
  (∀ s, R a s → ∃ r s' a', m s = Ok r s' ∧ R a' s' ∧ awp (k r) a' Q) → awp (bind m k) a Q.
Proof.
  intros Hm s HR. destruct (Hm s HR) as (r & s' & a' & Hr & HR' & Hk).
  eapply returns_step; [done|]. by apply Hk.
Qed.

Lemma awp_in_bounds {T} i n (k : unit → M S T) a Q :
  0 ≤ i < n → awp (k tt) a Q → awp (bind (in_bounds i n) k) a Q.
Proof. intros Hi Hk s HR. eapply returns_step; [by apply in_bounds_ok|]. by apply Hk. Qed.

(** Loops: an invariant indexed by the loop variable, and the states in which
    the loop is left early. *)
Lemma awp_for {X T} (I : Z → A → Prop) (E : X → A → Prop) n lo body (k : option X → M S T) a Q :
  I lo a →
  (∀ i a, lo ≤ i < lo + Z.of_nat n → I i a →
     awp (body i) a (λ c a', match c with Next => I (i + 1) a' | Stop x => E x a' end)) →
  (∀ a, I (lo + Z.of_nat n) a → awp (k None) a Q) →
  (∀ x a, E x a → awp (k (Some x)) a Q) →
  awp (bind (for_up n lo body) k) a Q.
Proof.
  intros HI Hbody Hend Hexit. apply awp_bind. intros s HR.
  apply (for_up_inv (λ i s, ∃ a, R a s ∧ I i a)).
  - by exists a.
  - intros i s1 Hi (a1 & HR1 & HI1). eapply returns_conseq; [apply (Hbody i a1 Hi HI1 s1 HR1)|].
    intros [|x] s' (a' & HR' & HQ).
    + by exists a'.
    + exists a'. split; [done|]. by apply Hexit.
  - intros s1 (a1 & HR1 & HI1). exists a1. split; [done|]. by apply Hend.
Qed.
End awp.

(** * Automation *)

(** Split the conditionals of the goal, turning boolean tests into hypotheses
    that [lia] reads. *)
Ltac split_if :=
  match goal with
  | |- context [if ?b then _ else _] => destruct b eqn:?
  | H : context [if ?b then _ else _] |- _ => destruct b eqn:?
  end.

Ltac split_ifs := repeat (split_if; try lia; try done).

(** [lia] with division and modulo by constants. *)
Ltac dlia := Z.to_euclidean_division_equations; lia.

(** Kernel code is deterministic: identify two results of the same run. *)
Ltac det :=
  repeat match goal with
  | H1 : ?t = Ok _ _, H2 : ?t = Ok _ _ |- _ => rewrite H1 in H2; simplify_eq
  end.

(** Symbolic execution of a monadic definition whose state is a constructor. *)
Ltac kstep := cbn [bind ret get gets put modify panic zoom view upd].

(** One step of a run: the pure steps are rewritten away; [step_by H] uses the
    known result [H] of the call in front. *)
Ltac run :=
  repeat first [ rewrite bind_ret | rewrite bind_get | rewrite bind_gets | rewrite bind_put
               | rewrite bind_modify | rewrite bind_assoc ];
  cbv beta.
Ltac step_by H := first [ rewrite (bind_ok _ _ _ _ _ H) | rewrite bind_assoc, (bind_ok _ _ _ _ _ H) ]; run.

(** Inclusions between unions, from the inclusions in the context. *)
Ltac sub_tauto :=
  let z := fresh "z" in let Hz := fresh "Hz" in
  intros z Hz;
  repeat match goal with
  | H : _ ⊆ _ |- _ =>
      let H' := fresh in pose proof (H z) as H'; clear H; rewrite ?elem_of_union, ?elem_of_singleton in H'
  end;
  rewrite ?elem_of_union, ?elem_of_singleton in Hz; rewrite ?elem_of_union, ?elem_of_singleton; tauto.

(** * Lists indexed by Z *)

Section zlists.
  Context {A : Type}.
  Implicit Types (l : list A) (i j : Z) (x d : A).

Lemma len_nonneg l : 0 ≤ len l.
Proof. unfold len. lia. Qed.

Lemma len_app l1 l2 : len (l1 ++ l2) = len l1 + len l2.
Proof. unfold len. rewrite length_app. lia. Qed.

Lemma len_cons x l : len (x :: l) = 1 + len l.
Proof. unfold len. cbn. lia. Qed.

Lemma len_zset l i x : len (zset l i x) = len l.
Proof. unfold len, zset. case_match; [done|]. by rewrite length_insert. Qed.

Lemma znth_zset_eq d l i x : 0 ≤ i < len l → znth d (zset l i x) i = x.
Proof.
  intros Hi. unfold znth, zset, len in *. destruct (i <? 0) eqn:E; [lia|].
  rewrite list_lookup_insert_eq by lia. done.
Qed.

Lemma znth_zset_ne d l i j x : i ≠ j → znth d (zset l i x) j = znth d l j.
Proof.
  intros Hij. unfold znth, zset. destruct (j <? 0) eqn:?; [done|].
  destruct (i <? 0) eqn:?; [done|].
  by rewrite list_lookup_insert_ne by lia.
Qed.

Lemma znth_zset d l i j x :
  0 ≤ i < len l → znth d (zset l i x) j = if decide (i = j) then x else znth d l j.
Proof.
  intros Hi. case_decide; subst; [by apply znth_zset_eq | by apply znth_zset_ne].
Qed.

Lemma znth_lookup d l i x : 0 ≤ i → l !! Z.to_nat i = Some x → znth d l i = x.
Proof. intros Hi Hl. unfold znth. destruct (i <? 0) eqn:?; [lia|]. by rewrite Hl. Qed.

Lemma lookup_znth d l i : 0 ≤ i < len l → l !! Z.to_nat i = Some (znth d l i).
Proof.
  intros Hi. unfold znth, len in *. destruct (i <? 0) eqn:?; [lia|].
  destruct (lookup_lt_is_Some_2 l (Z.to_nat i)) as [x Hx]; [lia|]. by rewrite Hx.
Qed.

Lemma znth_In d l i : 0 ≤ i < len l → znth d l i ∈ l.
Proof. intros Hi. eapply list_elem_of_lookup_2. by apply (lookup_znth d). Qed.

Lemma znth_ext d l1 l2 :
  len l1 = len l2 → (∀ i, 0 ≤ i < len l1 → znth d l1 i = znth d l2 i) → l1 = l2.
Proof.
  unfold len. intros Hlen Hext. apply list_eq_same_length with (n := length l1); [lia|lia|].
  intros i x y Hi Hx Hy. specialize (Hext (Z.of_nat i)).
  unfold znth in Hext. destruct (Z.of_nat i <? 0) eqn:?; [lia|].
  rewrite Nat2Z.id, Hx, Hy in Hext. cbn in Hext. apply Hext. lia.
Qed.

Lemma znth_cons_0 d x l : znth d (x :: l) 0 = x.
Proof. done. Qed.

Lemma znth_cons_pos d x l i : 0 < i → znth d (x :: l) i = znth d l (i - 1).
Proof.
  intros Hi. unfold znth. destruct (i <? 0) eqn:?; [lia|].
  destruct (i - 1 <? 0) eqn:?; [lia|].
  replace (Z.to_nat i) with (S (Z.to_nat (i - 1))) by lia. done.
Qed.

Lemma elem_of_ztake d l n x :
  0 ≤ n ≤ len l → (x ∈ take (Z.to_nat n) l ↔ ∃ i, 0 ≤ i < n ∧ znth d l i = x).
Proof.
  intros Hn. rewrite list_elem_of_lookup. split.
  - intros [k Hk]. apply lookup_take_Some in Hk as [Hk Hlt]. exists (Z.of_nat k). split; [lia|].
    apply znth_lookup; [lia|]. by rewrite Nat2Z.id.
  - intros (i & Hi & Hb). exists (Z.to_nat i). rewrite lookup_take_lt by lia.
    rewrite (lookup_znth d) by lia. by rewrite Hb.
Qed.

Lemma ztake_inj d l n i j :
  NoDup (take (Z.to_nat n) l) → n ≤ len l → 0 ≤ i < n → 0 ≤ j < n →
  znth d l i = znth d l j → i = j.
Proof.
  intros Hnd Hn Hi Hj Heq. apply Z2Nat.inj; try lia.
  eapply (NoDup_lookup (take (Z.to_nat n) l)); [done| |]; rewrite lookup_take_lt by lia.
  - apply (lookup_znth d). lia.
  - rewrite Heq. apply (lookup_znth d). lia.
Qed.

Lemma zset_zset l i x1 x2 : zset (zset l i x1) i x2 = zset l i x2.
Proof. unfold zset. case_match; [done|]. apply list_insert_insert_eq. Qed.

Lemma zset_same d l i : 0 ≤ i < len l → zset l i (znth d l i) = l.
Proof.
  intros Hi. unfold zset. destruct (i <? 0) eqn:?; [lia|].
  apply list_insert_id. by apply lookup_znth.
Qed.
End zlists.

Lemma length_zseq i n : length (zseq i n) = n.
Proof. revert i. induction n as [|n IH]; intros i; cbn; [done|]. by rewrite IH. Qed.

Lemma elem_of_zseq i n x : x ∈ zseq i n ↔ i ≤ x < i + Z.of_nat n.
Proof.
  revert i. induction n as [|n IH]; intros i; cbn [zseq].
  - rewrite elem_of_nil. lia.
  - rewrite elem_of_cons, IH. lia.
Qed.

Lemma NoDup_zseq i n : NoDup (zseq i n).
Proof.
  revert i. induction n as [|n IH]; intros i; cbn; constructor; [|done].
  rewrite elem_of_zseq. lia.
Qed.

Lemma lookup_zseq i n k : (k < n)%nat → zseq i n !! k = Some (i + Z.of_nat k).
Proof.
  revert i k. induction n as [|n IH]; intros i k Hk; [lia|]. destruct k as [|k]; cbn.
  - f_equal. lia.
  - rewrite IH by lia. f_equal. lia.
Qed.

Lemma lookup_zseq_Some i n k x : zseq i n !! k = Some x → x = i + Z.of_nat k ∧ (k < n)%nat.
Proof.
  intros Hk. assert (Hlt : (k < n)%nat).
  { apply lookup_lt_Some in Hk. by rewrite length_zseq in Hk. }
  rewrite lookup_zseq in Hk by done. by simplify_eq.
Qed.

Lemma prefix_snoc_inv {A} (l k : list A) x :
  l `prefix_of` k ++ [x] → l `prefix_of` k ∨ l = k ++ [x].
Proof.
  intros [k' Hk]. destruct k' as [|y k' _] using rev_ind.
  - right. by rewrite app_nil_r in Hk.
  - left. rewrite app_assoc in Hk. apply app_inj_tail in Hk as [-> _]. by exists k'.
Qed.

Lemma zseq_snoc i n : zseq i (S n) = zseq i n ++ [i + Z.of_nat n].
Proof.
  revert i. induction n as [|n IH]; intros i.
  - cbn. by rewrite Z.add_0_r.
  - change (zseq i (S (S n))) with (i :: zseq (i + 1) (S n)). rewrite IH. cbn. do 3 f_equal. lia.
Qed.

Lemma znth_replicate {A} (d x : A) n i : 0 ≤ i < Z.of_nat n → znth d (replicate n x) i = x.
Proof. intros Hi. apply znth_lookup; [lia|]. apply lookup_replicate_2. lia. Qed.

Lemma znth_app_l (l k : list Z) j : j < len l → znth 0 (l ++ k) j = znth 0 l j.
Proof.
  intros Hj. unfold znth, len in *. destruct (j <? 0) eqn:?; [done|]. by rewrite lookup_app_l by lia.
Qed.

Lemma znth_app_r (l k : list Z) j : len l ≤ j → znth 0 (l ++ k) j = znth 0 k (j - len l).
Proof.
  intros Hj. unfold znth, len in *. destruct (j <? 0) eqn:?, (j - Z.of_nat (length l) <? 0) eqn:?; try lia.
  rewrite lookup_app_r by lia. do 2 f_equal. lia.
Qed.

Lemma size_add (b : Z) (X : gset Z) : (size ({[b]} ∪ X) ≤ 1 + size X)%nat.
Proof.
  rewrite size_union_alt, size_singleton.
  assert (size (X ∖ {[b]}) ≤ size X)%nat by (apply subseteq_size; set_solver). lia.
Qed.

(** The sum of a list. *)
Fixpoint zsum (l : list Z) : Z := match l with [] => 0 | x :: l' => x + zsum l' end.

Lemma zsum_app l1 l2 : zsum (l1 ++ l2) = zsum l1 + zsum l2.
Proof. induction l1 as [|x l1 IH]; cbn; [done|]. rewrite IH. lia. Qed.

Lemma zsum_bounds m (l : list Z) : Forall (λ k, 0 ≤ k ≤ m) l → 0 ≤ zsum l ≤ m * len l.
Proof.
  induction 1 as [|x l Hx Hl IH]; [unfold len; cbn; lia|]. rewrite len_cons. cbn [zsum]. lia.
Qed.

(** ** Pigeonhole: distinct indices below a bound *)

Section pigeonhole.
  Context (l : list Z) (n : Z).
  Context (Hn : 0 ≤ n) (Hnd : NoDup l) (Hin : ∀ x, x ∈ l → 0 ≤ x < n).

Lemma pigeon_sub : l ⊆+ zseq 0 (Z.to_nat n).
Proof.
  apply NoDup_submseteq; [done|]. intros x Hx. apply elem_of_zseq. specialize (Hin x Hx). lia.
Qed.

Lemma pigeon_le : len l ≤ n.
Proof.
  pose proof (submseteq_length _ _ pigeon_sub) as H. rewrite length_zseq in H.
  unfold len. lia.
Qed.

Lemma pigeon_full i : len l = n → 0 ≤ i < n → i ∈ l.
Proof.
  intros Hl Hi. unfold len in Hl. rewrite (submseteq_length_Permutation _ _ pigeon_sub).
  - apply elem_of_zseq. lia.
  - rewrite length_zseq. lia.
Qed.

Lemma pigeon_free : len l < n → ∃ i, 0 ≤ i < n ∧ i ∉ l.
Proof.
  intros Hl. destruct (decide (Forall (λ i, i ∈ l) (zseq 0 (Z.to_nat n)))) as [H|H].
  - exfalso. rewrite Forall_forall in H.
    pose proof (submseteq_length _ _ (NoDup_submseteq _ _ (NoDup_zseq 0 (Z.to_nat n)) H)) as H'.
    rewrite length_zseq in H'. unfold len in Hl. lia.
  - apply not_Forall_Exists in H; [|intros x; apply _].
    apply Exists_exists in H as (i & Hi & Hni). exists i.
    apply elem_of_zseq in Hi. split; [lia|done].
Qed.
End pigeonhole.

(** * Facts on C integers *)

Lemma u32_id x : 0 ≤ x < 4294967296 → u32 x = x.
Proof. apply Z.mod_small. Qed.

Lemma u64_id x : 0 ≤ x < 18446744073709551616 → u64 x = x.
Proof. apply Z.mod_small. Qed.

Lemma u8_range x : 0 ≤ u8 x < 256.
Proof. apply Z.mod_pos_bound. lia. Qed.

Lemma u32_range x : 0 ≤ u32 x < 4294967296.
Proof. apply Z.mod_pos_bound. lia. Qed.

Lemma u64_range x : 0 ≤ u64 x < 18446744073709551616.
Proof. apply Z.mod_pos_bound. lia. Qed.

Lemma s32_id x : -2147483648 ≤ x < 2147483648 → s32 x = x.
Proof. intros H. unfold s32. rewrite Z.mod_small; lia. Qed.

Lemma s32_range x : -2147483648 ≤ s32 x < 2147483648.
Proof. unfold s32. pose proof (Z.mod_pos_bound (x + 2147483648) 4294967296). lia. Qed.

#[export] Hint Resolve u8_range u32_range u64_range s32_range len_nonneg : kernel.
