(* ===== verification/Param.v ===== *)
(** Constants and address arithmetic: kernel/param.h, kernel/memlayout.h,
    kernel/riscv.h (page tables), kernel/fs.h (disk layout).

    The macros are written with the bit operations of the source; the lemmas
    give their arithmetic meaning (rounding, field extraction, the PTE/PA
    round trip). *)

From stdpp Require Import base tactics numbers.
From S2P Require Import Prelude.
From Stdlib Require Import ZArith Lia.

(** * kernel/param.h *)

Definition NPROC : Z := 64.
Definition NCPU : Z := 8.
Definition NOFILE : Z := 16.
Definition NFILE : Z := 100.
Definition NINODE : Z := 50.
Definition NDEV : Z := 10.
Definition ROOTDEV : Z := 1.
Definition MAXARG : Z := 32.
Definition MAXOPBLOCKS : Z := 10.
Definition LOGBLOCKS : Z := MAXOPBLOCKS * 3.
Definition NBUF : Z := MAXOPBLOCKS * 3.
Definition FSSIZE : Z := 2000.
Definition MAXPATH : Z := 128.
Definition USERSTACK : Z := 2.

(** * kernel/riscv.h *)

Definition PGSIZE : Z := 4096.
Definition PGSHIFT : Z := 12.

Definition PGROUNDUP (sz : Z) : Z := Z.land (u64 (sz + PGSIZE - 1)) (Z.lnot (PGSIZE - 1)).
Definition PGROUNDDOWN (a : Z) : Z := Z.land a (Z.lnot (PGSIZE - 1)).

Definition PTE_V : Z := Z.shiftl 1 0.
Definition PTE_R : Z := Z.shiftl 1 1.
Definition PTE_W : Z := Z.shiftl 1 2.
Definition PTE_X : Z := Z.shiftl 1 3.
Definition PTE_U : Z := Z.shiftl 1 4.

Definition PA2PTE (pa : Z) : Z := Z.shiftl (Z.shiftr pa 12) 10.
Definition PTE2PA (pte : Z) : Z := u64 (Z.shiftl (Z.shiftr pte 10) 12).
Definition PTE_FLAGS (pte : Z) : Z := Z.land pte 1023.

Definition PXMASK : Z := 511.
Definition PXSHIFT (level : Z) : Z := PGSHIFT + 9 * level.
Definition PX (level va : Z) : Z := Z.land (Z.shiftr va (PXSHIFT level)) PXMASK.

Definition MAXVA : Z := Z.shiftl 1 (9 + 9 + 9 + 12 - 1).

(** * kernel/memlayout.h *)

Definition UART0 : Z := 268435456.
Definition UART0_IRQ : Z := 10.
Definition VIRTIO0 : Z := 268439552.
Definition VIRTIO0_IRQ : Z := 1.
Definition PLIC : Z := 201326592.
Definition KERNBASE : Z := 2147483648.
Definition PHYSTOP : Z := KERNBASE + 128 * 1024 * 1024.
Definition TRAMPOLINE : Z := MAXVA - PGSIZE.
Definition KSTACK (p : Z) : Z := TRAMPOLINE - (p + 1) * 2 * PGSIZE.
Definition TRAPFRAME : Z := TRAMPOLINE - PGSIZE.

(** * kernel/fs.h *)

Definition ROOTINO : Z := 1.
Definition BSIZE : Z := 1024.
Definition FSMAGIC : Z := 270544960.
Definition NDIRECT : Z := 12.
Definition NINDIRECT : Z := BSIZE / 4.
Definition MAXFILE : Z := NDIRECT + NINDIRECT.
(** [sizeof(struct dinode)]: four shorts, a size and 13 block numbers. *)
Definition SIZEOF_DINODE : Z := 64.
Definition IPB : Z := BSIZE / SIZEOF_DINODE.
Definition BPB : Z := BSIZE * 8.
Definition DIRSIZ : Z := 14.
(** [sizeof(struct dirent)]: a [ushort] and the name. *)
Definition SIZEOF_DIRENT : Z := 16.

(** fcntl.h *)
Definition O_RDONLY : Z := 0.
Definition O_WRONLY : Z := 1.
Definition O_RDWR : Z := 2.
Definition O_CREATE : Z := 512.
Definition O_TRUNC : Z := 1024.

(** stat.h *)
Definition T_DIR : Z := 1.
Definition T_FILE : Z := 2.
Definition T_DEVICE : Z := 3.

(** * Rounding *)

Definition page_aligned (a : Z) : Prop := a mod PGSIZE = 0.

Lemma land_lnot_page a : Z.land a (Z.lnot 4095) = a - a mod 4096.
Proof.
  rewrite <-Z.ldiff_land. change 4095 with (Z.ones 12). rewrite Z.ldiff_ones_r by lia.
  rewrite Z.shiftl_mul_pow2, Z.shiftr_div_pow2 by lia. change (2 ^ 12) with 4096.
  pose proof (Z.div_mod a 4096). lia.
Qed.

Lemma PGROUNDDOWN_eq a : PGROUNDDOWN a = a - a mod PGSIZE.
Proof. apply land_lnot_page. Qed.

Lemma PGROUNDUP_eq sz :
  0 ≤ sz → sz + PGSIZE ≤ 18446744073709551616 →
  PGROUNDUP sz = (sz + PGSIZE - 1) / PGSIZE * PGSIZE.
Proof.
  unfold PGSIZE. intros H0 H1. unfold PGROUNDUP, PGSIZE.
  rewrite u64_id by lia. rewrite land_lnot_page.
  pose proof (Z.div_mod (sz + 4096 - 1) 4096). lia.
Qed.

Lemma PGROUNDDOWN_aligned a : page_aligned (PGROUNDDOWN a).
Proof. unfold page_aligned. rewrite PGROUNDDOWN_eq. unfold PGSIZE. dlia. Qed.

Lemma PGROUNDDOWN_le a : PGROUNDDOWN a ≤ a < PGROUNDDOWN a + PGSIZE.
Proof. rewrite PGROUNDDOWN_eq. unfold PGSIZE. dlia. Qed.

Lemma PGROUNDDOWN_id a : page_aligned a → PGROUNDDOWN a = a.
Proof. unfold page_aligned. rewrite PGROUNDDOWN_eq. lia. Qed.

Lemma PGROUNDUP_aligned sz : page_aligned (PGROUNDUP sz).
Proof. unfold page_aligned, PGROUNDUP, PGSIZE. rewrite land_lnot_page. dlia. Qed.

Lemma PGROUNDUP_le sz :
  0 ≤ sz → sz + PGSIZE ≤ 18446744073709551616 →
  sz ≤ PGROUNDUP sz < sz + PGSIZE.
Proof. intros H0 H1. rewrite PGROUNDUP_eq by done. unfold PGSIZE in *. dlia. Qed.

Lemma PGROUNDUP_id sz :
  0 ≤ sz → sz + PGSIZE ≤ 18446744073709551616 → page_aligned sz → PGROUNDUP sz = sz.
Proof.
  intros H0 H1 Ha. rewrite PGROUNDUP_eq by done. unfold page_aligned, PGSIZE in *. dlia.
Qed.

(** * Page-table entries *)

Lemma PX_eq level va :
  0 ≤ level → PX level va = va / 2 ^ (12 + 9 * level) mod 512.
Proof.
  intros H. unfold PX, PXMASK, PXSHIFT, PGSHIFT. change 511 with (Z.ones 9).
  rewrite Z.land_ones, Z.shiftr_div_pow2 by lia. done.
Qed.

Lemma PX_range level va : 0 ≤ level → 0 ≤ PX level va < 512.
Proof. intros H. rewrite PX_eq by done. apply Z.mod_pos_bound. lia. Qed.

Lemma PX0_eq va : PX 0 va = va / 4096 mod 512.
Proof. by rewrite PX_eq by lia. Qed.
Lemma PX1_eq va : PX 1 va = va / 2097152 mod 512.
Proof. by rewrite PX_eq by lia. Qed.
Lemma PX2_eq va : PX 2 va = va / 1073741824 mod 512.
Proof. by rewrite PX_eq by lia. Qed.

(** The three indices determine the page of an address below [MAXVA]. *)
Lemma PX_inj va va' :
  0 ≤ va < MAXVA → 0 ≤ va' < MAXVA →
  PX 2 va = PX 2 va' → PX 1 va = PX 1 va' → PX 0 va = PX 0 va' →
  va / PGSIZE = va' / PGSIZE.
Proof.
  rewrite !PX0_eq, !PX1_eq, !PX2_eq. unfold MAXVA, PGSIZE. change (Z.shiftl 1 _) with 274877906944.
  intros H H' H2 H1 H0. dlia.
Qed.

Lemma lor_disjoint_add a b : Z.land a b = 0 → Z.lor a b = a + b.
Proof. intros H. symmetry. rewrite Z.add_nocarry_lxor by done. by apply Z.lxor_lor. Qed.

Lemma land_shiftl_small a b n : 0 ≤ n → 0 ≤ b < 2 ^ n → Z.land (Z.shiftl a n) b = 0.
Proof.
  intros Hn Hb. apply Z.bits_inj'. intros i Hi. rewrite Z.land_spec, Z.bits_0.
  destruct (decide (i < n)).
  - by rewrite Z.shiftl_spec_low by lia.
  - rewrite <-(Z.mod_small b (2 ^ n)) by done. rewrite Z.mod_pow2_bits_high by lia.
    by rewrite andb_false_r.
Qed.

Lemma PA2PTE_eq pa : page_aligned pa → 0 ≤ pa → PA2PTE pa = pa / 4.
Proof.
  unfold page_aligned, PGSIZE. intros Ha H0. unfold PA2PTE.
  rewrite Z.shiftl_mul_pow2, Z.shiftr_div_pow2 by lia.
  change (2 ^ 12) with 4096. change (2 ^ 10) with 1024. dlia.
Qed.

Lemma PA2PTE_lor pa flags :
  0 ≤ flags < 1024 → Z.lor (PA2PTE pa) flags = PA2PTE pa + flags.
Proof. intros H. apply lor_disjoint_add, land_shiftl_small; [lia|]. exact H. Qed.

Lemma PTE2PA_PA2PTE pa flags :
  page_aligned pa → 0 ≤ pa < 72057594037927936 → 0 ≤ flags < 1024 →
  PTE2PA (PA2PTE pa + flags) = pa.
Proof.
  intros Ha Hp Hf. rewrite PA2PTE_eq by (done || lia). unfold PTE2PA, page_aligned, PGSIZE in *.
  rewrite Z.shiftl_mul_pow2, Z.shiftr_div_pow2 by lia.
  change (2 ^ 12) with 4096. change (2 ^ 10) with 1024. rewrite u64_id; dlia.
Qed.

Lemma PTE_FLAGS_PA2PTE pa flags :
  0 ≤ flags < 1024 → PTE_FLAGS (PA2PTE pa + flags) = flags.
Proof.
  intros Hf. unfold PTE_FLAGS, PA2PTE. change 1023 with (Z.ones 10).
  rewrite Z.land_ones, Z.shiftl_mul_pow2 by lia. change (2 ^ 10) with 1024. dlia.
Qed.

Lemma PTE2PA_aligned pte : page_aligned (PTE2PA pte).
Proof.
  unfold page_aligned, PTE2PA, PGSIZE, u64.
  rewrite Z.shiftl_mul_pow2 by lia. change (2 ^ 12) with 4096. dlia.
Qed.

Lemma IPB_eq : IPB = 16.
Proof. done. Qed.

Lemma BPB_eq : BPB = 8192.
Proof. done. Qed.

Lemma NINDIRECT_eq : NINDIRECT = 256.
Proof. done. Qed.

Lemma MAXFILE_eq : MAXFILE = 268.
Proof. done. Qed.
