(* ===== verification/Bytes.v ===== *)
(** Byte-addressed memory and little-endian encodings.

    RISC-V is little-endian; every multi-byte field of the kernel's data
    structures (page-table entries, free-list links, on-disk structures) is
    read and written through the definitions of this file.  A byte memory is a
    total function from addresses to bytes; a disk block is a list of bytes. *)

From stdpp Require Import base tactics list numbers.
From S2P Require Import Prelude.
From Stdlib Require Import ZArith Lia.

(** * Little-endian numbers *)

Fixpoint le_dec (bs : list Z) : Z :=
  match bs with
  | [] => 0
  | b :: bs' => u8 b + 256 * le_dec bs'
  end.

Fixpoint le_enc (n : nat) (v : Z) : list Z :=
  match n with
  | O => []
  | S n' => u8 v :: le_enc n' (v / 256)
  end.

(** * Memory *)

Definition mem : Type := Z → Z.

(** The byte at an address. *)
Definition ldb (m : mem) (a : Z) : Z := u8 (m a).

Definition stb (m : mem) (a v : Z) : mem := λ x, if x =? a then u8 v else m x.

Fixpoint mem_read (m : mem) (a : Z) (n : nat) : list Z :=
  match n with
  | O => []
  | S n' => ldb m a :: mem_read m (a + 1) n'
  end.

Definition mem_write (m : mem) (a : Z) (bs : list Z) : mem := λ x,
  if (a <=? x) && (x <? a + len bs) then u8 (znth 0 bs (x - a)) else m x.

Definition load (n : nat) (m : mem) (a : Z) : Z := le_dec (mem_read m a n).
Definition store (n : nat) (m : mem) (a v : Z) : mem := mem_write m a (le_enc n v).

Definition load32 := load 4.
Definition store32 := store 4.
Definition load64 := load 8.
Definition store64 := store 8.

(** * Blocks: the same operations on a list of bytes *)

Definition blk_read (l : list Z) (off n : nat) : list Z := take n (drop off l).

Definition blk_write (l : list Z) (off : nat) (bs : list Z) : list Z :=
  take off l ++ bs ++ drop (off + length bs)%nat l.

Definition blk_load (n : nat) (l : list Z) (off : nat) : Z := le_dec (blk_read l off n).
Definition blk_store (n : nat) (l : list Z) (off : nat) (v : Z) : list Z :=
  blk_write l off (le_enc n v).

(** Every element is a byte. *)
Definition is_bytes (l : list Z) : Prop := Forall (λ b, 0 ≤ b < 256) l.

(** Two byte ranges do not meet. *)
Definition disjoint_ranges (a n b k : Z) : Prop := a + n ≤ b ∨ b + k ≤ a.

(** * Encodings *)

Lemma length_le_enc n v : length (le_enc n v) = n.
Proof. revert v. induction n as [|n IH]; intros v; cbn; [done|]. by rewrite IH. Qed.

Lemma is_bytes_le_enc n v : is_bytes (le_enc n v).
Proof.
  revert v. induction n as [|n IH]; intros v; cbn; constructor; [apply u8_range|apply IH].
Qed.

Lemma u8_u8 x : u8 (u8 x) = u8 x.
Proof. apply Z.mod_mod. lia. Qed.

Lemma u8_byte x : 0 ≤ x < 256 → u8 x = x.
Proof. apply Z.mod_small. Qed.

Lemma le_dec_enc n v : le_dec (le_enc n v) = v mod 256 ^ Z.of_nat n.
Proof.
  revert v. induction n as [|n IH]; intros v; cbn [le_enc le_dec].
  - by rewrite Z.mod_1_r.
  - rewrite IH, u8_u8. unfold u8.
    rewrite Nat2Z.inj_succ, Z.pow_succ_r by lia.
    pose proof (Z.pow_pos_nonneg 256 (Z.of_nat n)).
    rewrite Z.rem_mul_r by lia. lia.
Qed.

Lemma le_dec_bound bs : 0 ≤ le_dec bs < 256 ^ len bs.
Proof.
  induction bs as [|b bs IH]; cbn [le_dec]; [unfold len; cbn; lia|].
  pose proof (u8_range b). rewrite len_cons.
  rewrite Z.pow_add_r by (pose proof (len_nonneg bs); lia).
  change (256 ^ 1) with 256. lia.
Qed.

Lemma le_enc_dec bs : is_bytes bs → le_enc (length bs) (le_dec bs) = bs.
Proof.
  induction 1 as [|b bs Hb Hbs IH]; cbn [length le_dec le_enc]; [done|].
  rewrite (u8_byte b) by done. f_equal.
  - unfold u8. rewrite (Z.mul_comm 256), Z_mod_plus_full, Z.mod_small by lia. done.
  - rewrite (Z.mul_comm 256), Z.div_add, Z.div_small by lia. done.
Qed.

Lemma le_dec_enc_small n v : 0 ≤ v < 256 ^ Z.of_nat n → le_dec (le_enc n v) = v.
Proof. intros H. by rewrite le_dec_enc, Z.mod_small. Qed.

(** * Memory *)

Lemma ldb_range m a : 0 ≤ ldb m a < 256.
Proof. apply u8_range. Qed.

Lemma length_mem_read m a n : length (mem_read m a n) = n.
Proof. revert a. induction n as [|n IH]; intros a; cbn; [done|]. by rewrite IH. Qed.

Lemma is_bytes_mem_read m a n : is_bytes (mem_read m a n).
Proof.
  revert a. induction n as [|n IH]; intros a; cbn; constructor; [apply ldb_range|apply IH].
Qed.

Lemma lookup_mem_read m a n i :
  (i < n)%nat → mem_read m a n !! i = Some (ldb m (a + Z.of_nat i)).
Proof.
  revert a i. induction n as [|n IH]; intros a i Hi; [lia|]. destruct i as [|i]; cbn.
  - by rewrite Z.add_0_r.
  - rewrite IH by lia. do 2 f_equal. lia.
Qed.

Lemma mem_read_ext m1 m2 a1 a2 n :
  (∀ i, 0 ≤ i < Z.of_nat n → ldb m1 (a1 + i) = ldb m2 (a2 + i)) →
  mem_read m1 a1 n = mem_read m2 a2 n.
Proof.
  intros H. apply list_eq_same_length with (n := n); rewrite ?length_mem_read; [done|done|].
  intros i x y Hi. rewrite !lookup_mem_read by done. intros [= <-] [= <-]. apply H. lia.
Qed.

Lemma mem_read_app m a n1 n2 :
  mem_read m a (n1 + n2) = mem_read m a n1 ++ mem_read m (a + Z.of_nat n1) n2.
Proof.
  revert a. induction n1 as [|n1 IH]; intros a; cbn.
  - by rewrite Z.add_0_r.
  - rewrite IH. do 3 f_equal. lia.
Qed.

Lemma ldb_write m a bs x :
  ldb (mem_write m a bs) x =
  if decide (a ≤ x < a + len bs) then u8 (znth 0 bs (x - a)) else ldb m x.
Proof.
  unfold ldb, mem_write. case_decide as H; split_if; try lia; by rewrite u8_u8.
Qed.

Lemma ldb_write_in m a bs x i :
  x = a + Z.of_nat i → (i < length bs)%nat → ldb (mem_write m a bs) x = u8 (default 0 (bs !! i)).
Proof.
  intros -> Hi. rewrite ldb_write. unfold len. rewrite decide_True by lia.
  unfold znth. destruct (a + Z.of_nat i - a <? 0) eqn:?; [lia|].
  by replace (Z.to_nat (a + Z.of_nat i - a)) with i by lia.
Qed.

Lemma ldb_write_out m a bs x :
  x < a ∨ a + len bs ≤ x → ldb (mem_write m a bs) x = ldb m x.
Proof. intros H. rewrite ldb_write, decide_False by lia. done. Qed.

Lemma ldb_stb m a v x : ldb (stb m a v) x = if decide (x = a) then u8 v else ldb m x.
Proof. unfold ldb, stb. case_decide; split_if; try lia; by rewrite u8_u8. Qed.

Lemma mem_read_write_eq m a bs :
  is_bytes bs → mem_read (mem_write m a bs) a (length bs) = bs.
Proof.
  intros Hb. apply list_eq_same_length with (n := length bs); rewrite ?length_mem_read;
    [done|done|]. intros i x y Hi. rewrite lookup_mem_read by done.
  rewrite (ldb_write_in _ _ _ _ i) by done. intros [= <-] Hy. rewrite Hy. cbn.
  apply u8_byte. by apply (Forall_lookup_1 _ _ _ _ Hb Hy).
Qed.

Lemma mem_read_write_ne m a bs b n :
  disjoint_ranges a (len bs) b (Z.of_nat n) →
  mem_read (mem_write m a bs) b n = mem_read m b n.
Proof.
  intros H. apply mem_read_ext. intros i Hi. apply ldb_write_out.
  unfold disjoint_ranges in H. lia.
Qed.

Lemma load_store_eq n m a v : load n (store n m a v) a = v mod 256 ^ Z.of_nat n.
Proof.
  unfold load, store.
  pose proof (mem_read_write_eq m a (le_enc n v) (is_bytes_le_enc n v)) as H.
  rewrite length_le_enc in H. rewrite H. apply le_dec_enc.
Qed.

Lemma load_store_ne n k m a b v :
  disjoint_ranges a (Z.of_nat k) b (Z.of_nat n) →
  load n (store k m a v) b = load n m b.
Proof.
  intros H. unfold load, store. rewrite mem_read_write_ne; [done|].
  unfold len. by rewrite length_le_enc.
Qed.

Lemma load_ext n m1 m2 a :
  (∀ x, a ≤ x < a + Z.of_nat n → ldb m1 x = ldb m2 x) → load n m1 a = load n m2 a.
Proof. intros H. unfold load. f_equal. apply mem_read_ext. intros i Hi. apply H. lia. Qed.

Lemma load_bound n m a : 0 ≤ load n m a < 256 ^ Z.of_nat n.
Proof.
  unfold load. pose proof (le_dec_bound (mem_read m a n)) as H.
  unfold len in H. by rewrite length_mem_read in H.
Qed.

Lemma load64_store64_eq m a v : load64 (store64 m a v) a = u64 v.
Proof. apply (load_store_eq 8). Qed.

Lemma load64_store64_ne m a b v :
  disjoint_ranges a 8 b 8 → load64 (store64 m a v) b = load64 m b.
Proof. apply (load_store_ne 8 8). Qed.

Lemma load64_bound m a : 0 ≤ load64 m a < 18446744073709551616.
Proof. apply (load_bound 8). Qed.

Lemma ldb_store n m a v x :
  x < a ∨ a + Z.of_nat n ≤ x → ldb (store n m a v) x = ldb m x.
Proof. intros H. apply ldb_write_out. unfold len. by rewrite length_le_enc. Qed.

(** * Blocks *)

Lemma length_blk_write l off bs :
  (off + length bs ≤ length l)%nat → length (blk_write l off bs) = length l.
Proof. intros H. unfold blk_write. rewrite !length_app, length_take, length_drop. lia. Qed.

Lemma length_blk_read l off n : (off + n ≤ length l)%nat → length (blk_read l off n) = n.
Proof. intros H. unfold blk_read. rewrite length_take, length_drop. lia. Qed.

Lemma lookup_blk_write l off bs i :
  (off + length bs ≤ length l)%nat →
  blk_write l off bs !! i =
  if decide (off ≤ i < off + length bs)%nat then bs !! (i - off)%nat else l !! i.
Proof.
  intros H. unfold blk_write. case_decide as Hi.
  - rewrite lookup_app_r by (rewrite length_take; lia).
    rewrite length_take, lookup_app_l by lia. f_equal. lia.
  - destruct (decide (i < off)%nat).
    + rewrite lookup_app_l by (rewrite length_take; lia). by apply lookup_take_lt.
    + rewrite !lookup_app_r by (rewrite ?length_take; lia).
      rewrite length_take, lookup_drop. f_equal. lia.
Qed.

Lemma blk_read_write_eq l off bs :
  (off + length bs ≤ length l)%nat → blk_read (blk_write l off bs) off (length bs) = bs.
Proof.
  intros H. unfold blk_read, blk_write.
  rewrite drop_app_length' by (rewrite length_take; lia).
  by rewrite take_app_length.
Qed.

Lemma lookup_blk_read l off n i :
  (i < n)%nat → blk_read l off n !! i = l !! (off + i)%nat.
Proof. intros H. unfold blk_read. by rewrite lookup_take_lt, lookup_drop. Qed.

Lemma blk_read_write_ne l off bs off' n :
  (off + length bs ≤ length l)%nat →
  (off + length bs ≤ off' ∨ off' + n ≤ off)%nat →
  blk_read (blk_write l off bs) off' n = blk_read l off' n.
Proof.
  intros Hl Hd. apply list_eq. intros i. destruct (decide (i < n)%nat).
  - rewrite !lookup_blk_read, lookup_blk_write by lia. by rewrite decide_False by lia.
  - rewrite !lookup_ge_None_2; [done| |]; unfold blk_read; rewrite length_take; lia.
Qed.

Lemma blk_load_store_eq n l off v :
  (off + n ≤ length l)%nat → blk_load n (blk_store n l off v) off = v mod 256 ^ Z.of_nat n.
Proof.
  intros Hl. unfold blk_load, blk_store.
  pose proof (blk_read_write_eq l off (le_enc n v)) as H.
  rewrite length_le_enc in H. rewrite H by done. apply le_dec_enc.
Qed.

Lemma blk_load_store_ne n k l off off' v :
  (off + k ≤ length l)%nat →
  (off + k ≤ off' ∨ off' + n ≤ off)%nat →
  blk_load n (blk_store k l off v) off' = blk_load n l off'.
Proof.
  intros Hl Hd. unfold blk_load, blk_store. by rewrite blk_read_write_ne; rewrite ?length_le_enc.
Qed.

Lemma length_blk_store n l off v :
  (off + n ≤ length l)%nat → length (blk_store n l off v) = length l.
Proof. intros H. apply length_blk_write. by rewrite length_le_enc. Qed.

Lemma is_bytes_blk_write l off bs : is_bytes l → is_bytes bs → is_bytes (blk_write l off bs).
Proof.
  intros Hl Hbs. unfold is_bytes, blk_write. rewrite !Forall_app.
  split_and!; [by apply Forall_take | done | by apply Forall_drop].
Qed.

#[export] Hint Resolve ldb_range is_bytes_le_enc is_bytes_mem_read load64_bound : kernel.

#[global] Arguments load : simpl never.
#[global] Arguments store : simpl never.
#[global] Arguments load32 : simpl never.
#[global] Arguments store32 : simpl never.
#[global] Arguments load64 : simpl never.
#[global] Arguments store64 : simpl never.
#[global] Arguments ldb : simpl never.
#[global] Arguments blk_load : simpl never.
#[global] Arguments blk_store : simpl never.

Lemma le_dec_zeros n : le_dec (replicate n 0) = 0.
Proof. induction n as [|n IH]; cbn [replicate le_dec]; [done|]. by rewrite IH. Qed.

(** Loads from a zeroed range. *)
Lemma blk_load_write_zeros n l o m off :
  (o + m ≤ length l)%nat → (o ≤ off ∧ off + n ≤ o + m)%nat → blk_load n (blk_write l o (replicate m 0)) off = 0.
Proof.
  intros Hl Hoff. unfold blk_load. transitivity (le_dec (replicate n 0)); [|apply le_dec_zeros]. f_equal.
  apply list_eq_same_length with (n := n); rewrite ?length_replicate; [done| |].
  - rewrite length_blk_read; [done|]. rewrite length_blk_write; rewrite ?length_replicate; lia.
  - intros i x y Hi Hx Hy. apply lookup_replicate_1 in Hy as [-> _].
    rewrite lookup_blk_read, lookup_blk_write, decide_True in Hx by (rewrite ?length_replicate; lia).
    by apply lookup_replicate_1 in Hx as [-> _].
Qed.
