(* ===== verification/CString.v ===== *)
(** kernel/string.c: memory and string routines.

    Each routine is the loop of the source over a byte memory, with explicit
    pointers.  [char] is unsigned on RISC-V.  The routines that return their
    destination pointer return it unchanged, so only the memory is modelled.

    The theorems give the closed form of each loop: [memmove] is right for
    overlapping ranges in both directions, [strncmp] decides equality of the
    names its arguments denote, [strncpy] pads, [safestrcpy] terminates. *)

From stdpp Require Import base tactics list numbers.
From S2P Require Import Prelude Bytes.
From Stdlib Require Import ZArith Lia.

(** * Definitions *)

Fixpoint memset_loop (k : nat) (m : mem) (cdst i c : Z) : mem :=
  match k with
  | O => m
  | S k' => memset_loop k' (stb m (cdst + i) c) cdst (i + 1) c
  end.

Definition memset (m : mem) (dst c n : Z) : mem :=
  memset_loop (Z.to_nat (u32 n)) m dst 0 c.

(** [while(n-- > 0){ if( *s1 != *s2) return *s1 - *s2; s1++, s2++; }] *)
Fixpoint memcmp_loop (k : nat) (m : mem) (s1 s2 : Z) : Z :=
  match k with
  | O => 0
  | S k' => if ldb m s1 =? ldb m s2 then memcmp_loop k' m (s1 + 1) (s2 + 1)
            else ldb m s1 - ldb m s2
  end.

Definition memcmp (m : mem) (v1 v2 n : Z) : Z :=
  memcmp_loop (Z.to_nat (u32 n)) m v1 v2.

(** [while(n-- > 0) *d++ = *s++;] *)
Fixpoint move_up (k : nat) (m : mem) (d s : Z) : mem :=
  match k with
  | O => m
  | S k' => move_up k' (stb m d (ldb m s)) (d + 1) (s + 1)
  end.

(** [while(n-- > 0) *--d = *--s;] *)
Fixpoint move_down (k : nat) (m : mem) (d s : Z) : mem :=
  match k with
  | O => m
  | S k' => move_down k' (stb m (d - 1) (ldb m (s - 1))) (d - 1) (s - 1)
  end.

Definition memmove (m : mem) (dst src n : Z) : mem :=
  let n := u32 n in
  if n =? 0 then m
  else if (src <? dst) && (dst <? src + n)
  then move_down (Z.to_nat n) m (dst + n) (src + n)
  else move_up (Z.to_nat n) m dst src.

Definition memcpy (m : mem) (dst src n : Z) : mem := memmove m dst src n.

Fixpoint strncmp_loop (k : nat) (m : mem) (p q : Z) : Z :=
  match k with
  | O => 0
  | S k' =>
      if negb (ldb m p =? 0) && (ldb m p =? ldb m q)
      then strncmp_loop k' m (p + 1) (q + 1)
      else ldb m p - ldb m q
  end.

Definition strncmp (m : mem) (p q n : Z) : Z :=
  strncmp_loop (Z.to_nat (u32 n)) m p q.

(** [while(n-- > 0) *s++ = 0;] *)
Fixpoint pad_loop (k : nat) (m : mem) (s : Z) : mem :=
  match k with
  | O => m
  | S k' => pad_loop k' (stb m s 0) (s + 1)
  end.

(** [while(n-- > 0 && ( *s++ = *t++) != 0) ;], then the padding loop with the
    count that is left. *)
Fixpoint strncpy_loop (k : nat) (m : mem) (s t : Z) : mem :=
  match k with
  | O => m
  | S k' =>
      let c := ldb m t in
      if c =? 0 then pad_loop k' (stb m s c) (s + 1)
      else strncpy_loop k' (stb m s c) (s + 1) (t + 1)
  end.

Definition strncpy (m : mem) (s t n : Z) : mem := strncpy_loop (Z.to_nat n) m s t.

(** [while(--n > 0 && ( *s++ = *t++) != 0) ; *s = 0;], with [k] the value that
    [n] has after the decrement. *)
Fixpoint safestrcpy_loop (k : nat) (m : mem) (s t : Z) : mem :=
  match k with
  | O => stb m s 0
  | S k' =>
      let c := ldb m t in
      if c =? 0 then stb (stb m s c) (s + 1) 0
      else safestrcpy_loop k' (stb m s c) (s + 1) (t + 1)
  end.

Definition safestrcpy (m : mem) (s t n : Z) : mem :=
  if n <=? 0 then m else safestrcpy_loop (Z.to_nat (n - 1)) m s t.

(** [strlen] scans for the NUL; [fuel] bounds the scan ([None]: not found). *)
Fixpoint strlen_loop (fuel : nat) (m : mem) (s n : Z) : option Z :=
  match fuel with
  | O => None
  | S fuel' => if ldb m (s + n) =? 0 then Some n else strlen_loop fuel' m s (n + 1)
  end.

Definition strlen (fuel : nat) (m : mem) (s : Z) : option Z := strlen_loop fuel m s 0.

(** ** What a pointer denotes *)

(** The bytes before the first NUL, at most [n] of them. *)
Fixpoint cstrn (n : nat) (m : mem) (p : Z) : list Z :=
  match n with
  | O => []
  | S n' => if ldb m p =? 0 then [] else ldb m p :: cstrn n' m (p + 1)
  end.

(** * Closed forms *)

Lemma memset_loop_spec k m cdst i c x :
  ldb (memset_loop k m cdst i c) x =
  if decide (cdst + i ≤ x < cdst + i + Z.of_nat k) then u8 c else ldb m x.
Proof.
  revert m i. induction k as [|k IH]; intros m i; cbn [memset_loop].
  - by rewrite decide_False by lia.
  - rewrite IH, ldb_stb. repeat case_decide; (done || lia).
Qed.

Lemma memset_spec m dst c n x :
  0 ≤ n < 4294967296 →
  ldb (memset m dst c n) x = if decide (dst ≤ x < dst + n) then u8 c else ldb m x.
Proof.
  intros Hn. unfold memset. rewrite memset_loop_spec, u32_id by done.
  repeat case_decide; (done || lia).
Qed.

Lemma move_up_spec k m d s x :
  d ≤ s ∨ s + Z.of_nat k ≤ d →
  ldb (move_up k m d s) x =
  if decide (d ≤ x < d + Z.of_nat k) then ldb m (x - d + s) else ldb m x.
Proof.
  revert m d s. induction k as [|k IH]; intros m d s Hds; cbn [move_up].
  - by rewrite decide_False by lia.
  - rewrite IH, !ldb_stb by lia.
    repeat case_decide; subst; try lia; rewrite ?u8_byte by apply ldb_range;
      try done; f_equal; lia.
Qed.

Lemma move_down_spec k m d s x :
  s ≤ d ∨ d + Z.of_nat k ≤ s →
  ldb (move_down k m d s) x =
  if decide (d - Z.of_nat k ≤ x < d) then ldb m (x - d + s) else ldb m x.
Proof.
  revert m d s. induction k as [|k IH]; intros m d s Hds; cbn [move_down].
  - by rewrite decide_False by lia.
  - rewrite IH, !ldb_stb by lia.
    repeat case_decide; subst; try lia; rewrite ?u8_byte by apply ldb_range;
      try done; f_equal; lia.
Qed.

Lemma memmove_ldb m dst src n x :
  0 ≤ n < 4294967296 →
  ldb (memmove m dst src n) x =
  if decide (dst ≤ x < dst + n) then ldb m (x - dst + src) else ldb m x.
Proof.
  intros Hn. unfold memmove. rewrite u32_id by done. split_if.
  - by rewrite decide_False by lia.
  - split_if; [rewrite move_down_spec by lia | rewrite move_up_spec by lia];
      repeat case_decide; try lia; f_equal; lia.
Qed.

Lemma memmove_read m dst src n :
  0 ≤ n < 4294967296 →
  mem_read (memmove m dst src n) dst (Z.to_nat n) = mem_read m src (Z.to_nat n).
Proof.
  intros Hn. apply mem_read_ext. intros i Hi.
  rewrite memmove_ldb by done.
  rewrite decide_True by lia. f_equal. lia.
Qed.

Lemma memcmp_loop_zero k m s1 s2 :
  memcmp_loop k m s1 s2 = 0 ↔ mem_read m s1 k = mem_read m s2 k.
Proof.
  revert s1 s2. induction k as [|k IH]; intros s1 s2; cbn [memcmp_loop mem_read]; [done|].
  destruct (ldb m s1 =? ldb m s2) eqn:E.
  - rewrite IH. apply Z.eqb_eq in E. rewrite E. split; [by intros ->|by intros [=]].
  - split; [intros; lia|]. intros [= H]. lia.
Qed.

(** The sign of [memcmp] is that of the first difference. *)
Lemma memcmp_loop_first k m s1 s2 i :
  (i < k)%nat →
  mem_read m s1 i = mem_read m s2 i →
  ldb m (s1 + Z.of_nat i) ≠ ldb m (s2 + Z.of_nat i) →
  memcmp_loop k m s1 s2 = ldb m (s1 + Z.of_nat i) - ldb m (s2 + Z.of_nat i).
Proof.
  revert k s1 s2. induction i as [|i IH]; intros [|k] s1 s2 Hi Heq Hne; try lia;
    cbn [memcmp_loop].
  - rewrite !Z.add_0_r in *. by destruct (ldb m s1 =? ldb m s2) eqn:?; [lia|].
  - cbn in Heq. injection Heq as H1 H2. rewrite H1, Z.eqb_refl.
    rewrite (IH k) by (try done; try lia; intros E; apply Hne;
      replace (s1 + Z.of_nat (S i)) with (s1 + 1 + Z.of_nat i) by lia;
      replace (s2 + Z.of_nat (S i)) with (s2 + 1 + Z.of_nat i) by lia; done).
    f_equal; f_equal; lia.
Qed.

(** * Strings *)

Lemma strncmp_loop_zero k m p q :
  strncmp_loop k m p q = 0 ↔ cstrn k m p = cstrn k m q.
Proof.
  revert p q. induction k as [|k IH]; intros p q; cbn [strncmp_loop cstrn]; [done|].
  destruct (ldb m p =? 0) eqn:Ep; cbn.
  - destruct (ldb m q =? 0) eqn:Eq; [split; [done|lia]|]. split; [lia|done].
  - destruct (ldb m p =? ldb m q) eqn:E.
    + apply Z.eqb_eq in E. rewrite <-E, Ep, IH. split; [by intros ->|by intros [=]].
    + split; [lia|]. destruct (ldb m q =? 0); [done|]. intros [=]. lia.
Qed.

Lemma cstrn_S n m p :
  cstrn (S n) m p = if ldb m p =? 0 then [] else ldb m p :: cstrn n m (p + 1).
Proof. done. Qed.

Lemma length_cstrn n m p : (length (cstrn n m p) ≤ n)%nat.
Proof.
  revert p. induction n as [|n IH]; intros p; cbn; [lia|].
  destruct (ldb m p =? 0); cbn; [lia|]. specialize (IH (p + 1)). lia.
Qed.

Lemma cstrn_ext n m1 m2 p1 p2 :
  (∀ i, 0 ≤ i < Z.of_nat n → ldb m1 (p1 + i) = ldb m2 (p2 + i)) →
  cstrn n m1 p1 = cstrn n m2 p2.
Proof.
  revert p1 p2. induction n as [|n IH]; intros p1 p2 H; cbn; [done|].
  pose proof (H 0 ltac:(lia)) as H0. rewrite !Z.add_0_r in H0. rewrite H0.
  destruct (ldb m2 p2 =? 0); [done|]. f_equal. apply IH. intros i Hi.
  replace (p1 + 1 + i) with (p1 + (i + 1)) by lia.
  replace (p2 + 1 + i) with (p2 + (i + 1)) by lia. apply H. lia.
Qed.

Lemma pad_loop_spec k m s x :
  ldb (pad_loop k m s) x = if decide (s ≤ x < s + Z.of_nat k) then 0 else ldb m x.
Proof.
  revert m s. induction k as [|k IH]; intros m s; cbn [pad_loop].
  - by rewrite decide_False by lia.
  - rewrite IH, ldb_stb. repeat case_decide; (done || lia).
Qed.

Lemma strncpy_loop_outside k m s t x :
  x < s ∨ s + Z.of_nat k ≤ x → ldb (strncpy_loop k m s t) x = ldb m x.
Proof.
  revert m s t. induction k as [|k IH]; intros m s t H; cbn [strncpy_loop]; [done|].
  split_if; [rewrite pad_loop_spec, decide_False by lia | rewrite IH by lia];
    rewrite ldb_stb, decide_False by lia; done.
Qed.

Lemma strncpy_loop_inside k m s t :
  disjoint_ranges s (Z.of_nat k) t (Z.of_nat k) →
  mem_read (strncpy_loop k m s t) s k =
  cstrn k m t ++ replicate (k - length (cstrn k m t)) 0.
Proof.
  unfold disjoint_ranges. revert m s t. induction k as [|k IH]; intros m s t Hd; [done|].
  cbn [strncpy_loop mem_read cstrn]. destruct (ldb m t =? 0) eqn:E; cbn.
  - rewrite pad_loop_spec, decide_False, ldb_stb, decide_True by lia.
    apply Z.eqb_eq in E. rewrite E. f_equal.
    apply list_eq_same_length with (n := k); rewrite ?length_mem_read, ?length_replicate;
      [done|done|]. intros i x y Hi. rewrite lookup_mem_read, lookup_replicate_2 by done.
    rewrite pad_loop_spec, decide_True by lia. congruence.
  - rewrite strncpy_loop_outside, ldb_stb, decide_True by lia.
    rewrite (u8_byte _ (ldb_range _ _)). f_equal.
    assert (cstrn k (stb m s (ldb m t)) (t + 1) = cstrn k m (t + 1)) as Hc.
    { apply cstrn_ext. intros i Hi. rewrite ldb_stb, decide_False by lia. done. }
    rewrite IH, Hc by lia. done.
Qed.

Lemma safestrcpy_loop_outside k m s t x :
  x < s ∨ s + Z.of_nat k < x → ldb (safestrcpy_loop k m s t) x = ldb m x.
Proof.
  revert m s t. induction k as [|k IH]; intros m s t H; cbn [safestrcpy_loop].
  - by rewrite ldb_stb, decide_False by lia.
  - split_if; [|rewrite IH by lia]; rewrite !ldb_stb, ?decide_False by lia; done.
Qed.

Lemma safestrcpy_loop_inside k m s t :
  disjoint_ranges s (Z.of_nat k + 1) t (Z.of_nat k) →
  cstrn (S k) (safestrcpy_loop k m s t) s = cstrn k m t ∧
  ldb (safestrcpy_loop k m s t) (s + len (cstrn k m t)) = 0.
Proof.
  unfold disjoint_ranges, len. revert m s t. induction k as [|k IH]; intros m s t Hd.
  - cbn [safestrcpy_loop cstrn length]. by rewrite !ldb_stb, !decide_True by lia.
  - rewrite (cstrn_S (S k)), (cstrn_S k m t). cbn [safestrcpy_loop]. destruct (ldb m t =? 0) eqn:E.
    + rewrite !ldb_stb, decide_False, decide_True by lia. apply Z.eqb_eq in E.
      rewrite E. cbn [length]. by rewrite decide_False, decide_True by lia.
    + destruct (IH (stb m s (ldb m t)) (s + 1) (t + 1)) as [IH1 IH2]; [lia|].
      assert (cstrn k (stb m s (ldb m t)) (t + 1) = cstrn k m (t + 1)) as Hc.
      { apply cstrn_ext. intros i Hi. rewrite ldb_stb, decide_False by lia. done. }
      rewrite Hc in IH1, IH2.
      rewrite safestrcpy_loop_outside, ldb_stb, decide_True by lia.
      rewrite (u8_byte _ (ldb_range _ _)), E. split.
      * f_equal. exact IH1.
      * rewrite <-IH2. f_equal. cbn [length]. lia.
Qed.

Lemma strlen_loop_spec fuel m s n k :
  (k < fuel)%nat →
  (∀ j, 0 ≤ j < Z.of_nat k → ldb m (s + n + j) ≠ 0) →
  ldb m (s + n + Z.of_nat k) = 0 →
  strlen_loop fuel m s n = Some (n + Z.of_nat k).
Proof.
  revert fuel n. induction k as [|k IH]; intros [|fuel] n Hk Hnz Hz; try lia;
    cbn [strlen_loop].
  - rewrite Z.add_0_r in *. by rewrite Hz.
  - destruct (ldb m (s + n) =? 0) eqn:E.
    + exfalso. apply (Hnz 0); [lia|]. rewrite Z.add_0_r. lia.
    + rewrite IH.
      * f_equal. lia.
      * lia.
      * intros j Hj. replace (s + (n + 1) + j) with (s + n + (j + 1)) by lia. apply Hnz. lia.
      * rewrite <-Hz. f_equal. lia.
Qed.

(** * Theorems *)

(** [memmove] copies as if through a temporary: every byte of the
    destination range becomes the byte the source range held before the call,
    whichever way the two ranges overlap, and no other byte changes. *)
Theorem memmove_spec m dst src n x :
  0 ≤ n < 4294967296 →
  ldb (memmove m dst src n) x =
  if decide (dst ≤ x < dst + n) then ldb m (x - dst + src) else ldb m x.
Proof. apply memmove_ldb. Qed.

Lemma memmove_spec_witness :
  ldb (memmove (λ a, a) 12 10 5) 14 = ldb (λ a, a) 12.
Proof.
  rewrite (memmove_spec (λ a, a) 12 10 5 14) by lia. vm_compute. reflexivity.
Defined.

(** [strncmp] decides equality of names: it returns 0 exactly when its two
    arguments denote the same string, read up to the first NUL or [n] bytes. *)
Theorem strncmp_zero m p q n :
  0 ≤ n < 4294967296 →
  strncmp m p q n = 0 ↔ cstrn (Z.to_nat n) m p = cstrn (Z.to_nat n) m q.
Proof. intros Hn. unfold strncmp. rewrite u32_id by done. apply strncmp_loop_zero. Qed.

Lemma strncmp_zero_witness :
  cstrn (Z.to_nat 14) (λ a, a) 300 = cstrn (Z.to_nat 14) (λ a, a) 44.
Proof.
  apply (strncmp_zero (λ a, a) 300 44 14); [lia|]. vm_compute. reflexivity.
Defined.

(** [strncpy] fills exactly [n] bytes: the source string, cut at [n],
    followed by NULs; bytes outside the destination are untouched. *)
Theorem strncpy_spec m s t n :
  0 ≤ n → disjoint_ranges s n t n →
  let src := cstrn (Z.to_nat n) m t in
  mem_read (strncpy m s t n) s (Z.to_nat n) =
    src ++ replicate (Z.to_nat n - length src) 0 ∧
  ∀ x, x < s ∨ s + n ≤ x → ldb (strncpy m s t n) x = ldb m x.
Proof.
  intros Hn Hd src. unfold strncpy, src, disjoint_ranges in *. split.
  - apply strncpy_loop_inside. unfold disjoint_ranges. lia.
  - intros x Hx. apply strncpy_loop_outside. lia.
Qed.

Lemma strncpy_spec_witness :
  mem_read (strncpy (λ a, if a =? 103 then 0 else a) 0 100 6) 0 6 = [100; 101; 102; 0; 0; 0].
Proof.
  destruct (strncpy_spec (λ a, if a =? 103 then 0 else a) 0 100 6) as [H _].
  - lia.
  - unfold disjoint_ranges. lia.
  - exact H.
Defined.

(** [safestrcpy] with [n > 0] leaves a NUL-terminated string of at most
    [n - 1] bytes, the longest such prefix of the source, and writes nothing
    outside the [n] bytes of the destination. *)
Theorem safestrcpy_spec m s t n :
  0 < n → disjoint_ranges s n t (n - 1) →
  let m' := safestrcpy m s t n in
  let src := cstrn (Z.to_nat (n - 1)) m t in
  cstrn (Z.to_nat n) m' s = src ∧
  len src < n ∧ ldb m' (s + len src) = 0 ∧
  ∀ x, x < s ∨ s + n ≤ x → ldb m' x = ldb m x.
Proof.
  intros Hn Hd m' src. unfold m', safestrcpy. destruct (n <=? 0) eqn:?; [lia|].
  destruct (safestrcpy_loop_inside (Z.to_nat (n - 1)) m s t) as [H1 H2].
  { unfold disjoint_ranges in *. lia. }
  replace (S (Z.to_nat (n - 1))) with (Z.to_nat n) in H1 by lia.
  split_and!; [done| |done|].
  - unfold src, len. pose proof (length_cstrn (Z.to_nat (n - 1)) m t). lia.
  - intros x Hx. apply safestrcpy_loop_outside. lia.
Qed.

Lemma safestrcpy_spec_witness :
  cstrn 4 (safestrcpy (λ a, a) 0 100 4) 0 = [100; 101; 102].
Proof.
  destruct (safestrcpy_spec (λ a, a) 0 100 4) as [H _].
  - lia.
  - unfold disjoint_ranges. lia.
  - exact H.
Defined.

#[global] Arguments memset : simpl never.
#[global] Arguments memmove : simpl never.
