(* ===== verification/Spinlock.v ===== *)
(** kernel/spinlock.c: spin locks and interrupt nesting.

    Two views.  [push_off], [pop_off], [holding], [acquire] and [release] are
    the functions of the source, run by hart [me] on one lock and on its own
    [struct cpu].  [Module SMP] interleaves the harts: each call is cut at the
    points where another hart can observe the lock (the atomic swap, the store
    to [lk->cpu], the releasing swap), and the theorems are about every
    reachable interleaving: mutual exclusion, interrupts disabled while any
    lock is held or being taken, and absence of the panics of the file.

    The components of the kernel guard their state with the lock part alone
    ([acquire_lk], [release_lk]); the interrupt counter of the hart is local to
    it and is treated here once and for all. *)

From stdpp Require Import base tactics list numbers strings functions relations sets.
From S2P Require Import Prelude.
From Stdlib Require Import ZArith Lia.

Open Scope kernel_scope.

(** * Data *)

(** [struct spinlock]; [lk->cpu] is a hart number or null. *)
Record spinlock := mkspinlock {
  locked : Z;
  lk_name : string;
  lk_cpu : option Z;
}.

(** The part of [struct cpu] that concerns locking, with the interrupt-enable
    bit (SIE) of the hart's [sstatus]. *)
Record cpu := mkcpu {
  noff : Z;
  intena : Z;
  sie : bool;
}.

Definition set_noff (v : Z) (c : cpu) : cpu := mkcpu v (intena c) (sie c).
Definition set_intena (v : Z) (c : cpu) : cpu := mkcpu (noff c) v (sie c).
Definition set_sie (b : bool) (c : cpu) : cpu := mkcpu (noff c) (intena c) b.

(** * Operations *)

Definition initlock (name : string) : spinlock := mkspinlock 0 name None.

Definition intr_get (c : cpu) : Z := b2z (sie c).
Definition intr_on : M cpu unit := modify (set_sie true).
Definition intr_off : M cpu unit := modify (set_sie false).

Definition push_off : M cpu unit :=
  old <- gets intr_get ;;
  intr_off ;;
  c <- get ;;
  (if noff c =? 0 then modify (set_intena old) else ret tt) ;;
  modify (λ c, set_noff (noff c + 1) c).

Definition pop_off : M cpu unit :=
  c <- get ;;
  if negb (intr_get c =? 0) then panic "pop_off - interruptible"
  else if noff c <? 1 then panic "pop_off"
  else
    modify (λ c, set_noff (noff c - 1) c) ;;
    c <- get ;;
    if (noff c =? 0) && negb (intena c =? 0) then intr_on else ret tt.

Definition holding (me : Z) (lk : spinlock) : bool :=
  negb (locked lk =? 0) && bool_decide (lk_cpu lk = Some me).

(** The lock part of [acquire]: the double-acquire check, the atomic swap
    (which spins while the word is set) and the recording of the owner. *)
Definition acquire_lk (me : Z) : M spinlock unit := λ lk,
  if holding me lk then Panic "acquire"
  else if negb (locked lk =? 0) then Spin lk
  else Ok tt (mkspinlock 1 (lk_name lk) (Some me)).

(** The lock part of [release]. *)
Definition release_lk (me : Z) : M spinlock unit := λ lk,
  if negb (holding me lk) then Panic "release"
  else Ok tt (mkspinlock 0 (lk_name lk) None).

Definition cpu_part : lens (cpu * spinlock) cpu := Lens fst (λ c s, (c, s.2)).
Definition lock_part : lens (cpu * spinlock) spinlock := Lens snd (λ l s, (s.1, l)).

Definition acquire (me : Z) : M (cpu * spinlock) unit :=
  zoom cpu_part push_off ;;
  zoom lock_part (acquire_lk me).

Definition release (me : Z) : M (cpu * spinlock) unit :=
  zoom lock_part (release_lk me) ;;
  zoom cpu_part pop_off.

(** ** Locks inside a component

    A component keeps its lock in its state.  [wakeup] makes other processes
    runnable (Proc.v) and changes nothing a component owns; [sleep_on] is
    [sleep(chan, lk)]: it gives up the lock and leaves the CPU.  Every [sleep]
    of the kernel is the body of a loop that tests its condition again with the
    lock held, so the wait ends by running the call again. *)

Definition wakeup {S} (chan : Z) : M S unit := ret tt.

Definition sleep_on {S A} (L : lens S spinlock) (me chan : Z) : M S A :=
  zoom L (release_lk me) ;;
  λ s, Sleep chan s.

(** The lock is free: nobody holds it and no owner is recorded. *)
Definition unlocked (lk : spinlock) : Prop := locked lk = 0 ∧ lk_cpu lk = None.

(** * Harts running side by side *)

Module SMP.

(** Where a hart is inside [acquire] or [release] of lock [l]:
    spinning on the swap; swap won, owner not yet recorded; owner cleared,
    lock word still set; lock word cleared, [pop_off] still to come. *)
Inductive pc :=
| Run
| AcqSpin (l : Z)
| AcqGot (l : Z)
| RelClear (l : Z)
| RelStore (l : Z).

(** [held h] lists the locks whose [acquire] has returned on hart [h] and
    whose [release] has not yet stored; [bare h] counts the [push_off] calls
    outside [acquire] that still wait for their [pop_off]. *)
Record smp := mksmp {
  cpus : Z → cpu;
  locks : Z → spinlock;
  pcs : Z → pc;
  held : Z → list Z;
  bare : Z → Z;
}.

Definition set_cpu (h : Z) (c : cpu) (s : smp) : smp :=
  mksmp (<[h := c]> (cpus s)) (locks s) (pcs s) (held s) (bare s).
Definition set_lock (l : Z) (lk : spinlock) (s : smp) : smp :=
  mksmp (cpus s) (<[l := lk]> (locks s)) (pcs s) (held s) (bare s).
Definition set_pc (h : Z) (p : pc) (s : smp) : smp :=
  mksmp (cpus s) (locks s) (<[h := p]> (pcs s)) (held s) (bare s).
Definition set_held (h : Z) (ls : list Z) (s : smp) : smp :=
  mksmp (cpus s) (locks s) (pcs s) (<[h := ls]> (held s)) (bare s).
Definition set_bare (h n : Z) (s : smp) : smp :=
  mksmp (cpus s) (locks s) (pcs s) (held s) (<[h := n]> (bare s)).

(** One step of some hart. *)
Inductive lock_step (s : smp) : smp → Prop :=
| step_acquire h l c' :
    pcs s h = Run → l ∉ held s h →
    push_off (cpus s h) = Ok tt c' →
    holding h (locks s l) = false →
    lock_step s (set_pc h (AcqSpin l) (set_cpu h c' s))
| step_swap_busy h l :
    pcs s h = AcqSpin l → locked (locks s l) ≠ 0 →
    lock_step s s
| step_swap_won h l :
    pcs s h = AcqSpin l → locked (locks s l) = 0 →
    lock_step s (set_pc h (AcqGot l)
             (set_lock l (mkspinlock 1 (lk_name (locks s l)) (lk_cpu (locks s l))) s))
| step_set_owner h l :
    pcs s h = AcqGot l →
    lock_step s (set_pc h Run (set_held h (l :: held s h)
             (set_lock l (mkspinlock (locked (locks s l)) (lk_name (locks s l)) (Some h)) s)))
| step_release h l :
    pcs s h = Run → l ∈ held s h →
    holding h (locks s l) = true →
    lock_step s (set_pc h (RelClear l)
             (set_lock l (mkspinlock (locked (locks s l)) (lk_name (locks s l)) None) s))
| step_store h l :
    pcs s h = RelClear l →
    lock_step s (set_pc h (RelStore l) (set_held h (filter (λ x, x ≠ l) (held s h))
             (set_lock l (mkspinlock 0 (lk_name (locks s l)) (lk_cpu (locks s l))) s)))
| step_pop h l c' :
    pcs s h = RelStore l →
    pop_off (cpus s h) = Ok tt c' →
    lock_step s (set_pc h Run (set_cpu h c' s))
| step_bare_push h c' :
    pcs s h = Run →
    push_off (cpus s h) = Ok tt c' →
    lock_step s (set_bare h (bare s h + 1) (set_cpu h c' s))
| step_bare_pop h c' :
    pcs s h = Run → 0 < bare s h →
    pop_off (cpus s h) = Ok tt c' →
    lock_step s (set_bare h (bare s h - 1) (set_cpu h c' s))
| step_intr_on h :
    pcs s h = Run → noff (cpus s h) = 0 →
    lock_step s (set_cpu h (set_sie true (cpus s h)) s)
| step_intr_off h :
    pcs s h = Run → noff (cpus s h) = 0 →
    lock_step s (set_cpu h (set_sie false (cpus s h)) s).

(** Boot: all locks initialised and free, no hart in a critical section. *)
Definition initial (names : Z → string) : smp :=
  mksmp (λ _, mkcpu 0 0 false) (λ l, initlock (names l)) (λ _, Run) (λ _, []) (λ _, 0).

Definition reachable (names : Z → string) : smp → Prop := rtc lock_step (initial names).

(** Hart [h] is inside the critical section of [l], or about to enter or
    leave it with the lock word set on its behalf. *)
Definition owns (s : smp) (h l : Z) : Prop :=
  l ∈ held s h ∨ pcs s h = AcqGot l.

(** The [push_off] calls that are pending on behalf of the lock being
    acquired or released. *)
Definition in_flight (p : pc) : Z :=
  match p with
  | AcqSpin _ | AcqGot _ | RelStore _ => 1
  | Run | RelClear _ => 0
  end.

Record inv (s : smp) : Prop := {
  inv_nodup : ∀ h, NoDup (held s h);
  inv_got : ∀ h l, pcs s h = AcqGot l → l ∉ held s h;
  inv_spin : ∀ h l, pcs s h = AcqSpin l → l ∉ held s h;
  inv_clear : ∀ h l, pcs s h = RelClear l → l ∈ held s h;
  inv_owner : ∀ h1 h2 l, owns s h1 l → owns s h2 l → h1 = h2;
  inv_locked : ∀ h l, owns s h l → locked (locks s l) = 1;
  inv_free : ∀ l, locked (locks s l) = 0 ∨ ∃ h, owns s h l;
  inv_cpu : ∀ h l, lk_cpu (locks s l) = Some h ↔ l ∈ held s h ∧ pcs s h ≠ RelClear l;
  inv_bare : ∀ h, 0 ≤ bare s h;
  inv_noff : ∀ h, noff (cpus s h) = len (held s h) + bare s h + in_flight (pcs s h);
  inv_sie : ∀ h, 0 < noff (cpus s h) → sie (cpus s h) = false;
}.

(** ** Effect of the interrupt counter *)

Lemma push_off_ok c :
  push_off c = Ok tt (mkcpu (noff c + 1)
                       (if noff c =? 0 then intr_get c else intena c) false).
Proof. destruct c as [n i b]. unfold push_off. cbn. by destruct (n =? 0). Qed.

Lemma pop_off_ok c :
  sie c = false → 0 < noff c →
  pop_off c = Ok tt (mkcpu (noff c - 1) (intena c)
                      ((noff c - 1 =? 0) && negb (intena c =? 0))).
Proof.
  destruct c as [n i b]. cbn. intros -> Hn. unfold pop_off. cbn.
  destruct (n <? 1) eqn:?; [lia|]. cbn. by destruct ((n - 1 =? 0) && negb (i =? 0)).
Qed.

Lemma fn_insert_dec {T} (f : Z → T) a t b :
  <[a := t]> f b = if decide (a = b) then t else f b.
Proof. reflexivity. Qed.

Lemma len_filter_ne (l : Z) ls :
  NoDup ls → l ∈ ls → len (filter (λ x, x ≠ l) ls) = len ls - 1.
Proof.
  unfold len. induction 1 as [|x ls Hx Hnd IH]; intros Hl; [set_solver|].
  rewrite filter_cons. case_decide as E.
  - cbn. apply elem_of_cons in Hl as [->|Hl]; [done|]. specialize (IH Hl). lia.
  - assert (x = l) as -> by (destruct (decide (x = l)); [done|contradiction]).
    assert (filter (λ x, x ≠ l) ls = ls) as ->; [|cbn; lia].
    clear -Hx. induction ls as [|y ls IH]; [done|]. rewrite filter_cons_True by set_solver.
    f_equal. apply IH. set_solver.
Qed.

(** Reads of updated functions and memberships. *)
Ltac smp_simpl :=
  unfold owns in *; cbn in *; rewrite ?fn_insert_dec in *;
  repeat case_decide; simplify_eq/=;
  rewrite ?elem_of_cons, ?list_elem_of_filter in *; destruct_or?; destruct_and?; simplify_eq/=.

Lemma inv_initial names : inv (initial names).
Proof.
  split; cbn; unfold owns; cbn; try (set_solver + lia); try (by intros; constructor);
    try naive_solver; try (intros; left; done); set_solver.
Qed.

Lemma inv_step s s' : inv s → lock_step s s' → inv s'.
Proof.
  intros [Hnd Hgot Hspin Hclear Hown Hlk Hfree Hcpu Hbare Hnoff Hsie] Hstep.
  assert (∀ h1 h2 l, l ∈ held s h1 → l ∈ held s h2 → h1 = h2) as O1
    by (intros; eapply Hown; by left).
  assert (∀ h1 h2 l, l ∈ held s h1 → pcs s h2 = AcqGot l → False) as O2.
  { intros h1 h2 l H1 H2. assert (h1 = h2) as -> by (eapply Hown; [by left|by right]).
    by eapply Hgot. }
  assert (∀ h1 h2 l, pcs s h1 = AcqGot l → pcs s h2 = AcqGot l → h1 = h2) as O3
    by (intros; eapply Hown; by right).
  assert (∀ h l, l ∈ held s h → locked (locks s l) = 1) as L1
    by (intros; eapply Hlk; by left).
  assert (∀ h l, pcs s h = AcqGot l → locked (locks s l) = 1) as L2
    by (intros; eapply Hlk; by right).
  destruct Hstep as
    [h l c' Hpc Hl Hpush Hh | h l Hpc Hb | h l Hpc Hz | h l Hpc | h l Hpc Hl Hh
    | h l Hpc | h l c' Hpc Hpop | h c' Hpc Hpush | h c' Hpc Hb Hpop | h Hpc Hn | h Hpc Hn].
  all: try rewrite push_off_ok in Hpush.
  all: try (rewrite pop_off_ok in Hpop;
    [| apply Hsie | ]; rewrite ?Hnoff, ?Hpc; cbn;
      pose proof (len_nonneg (held s h)); pose proof (Hbare h); try lia).
  all: split; intros; smp_simpl; try by eauto.
  all: try (rewrite Hnoff, Hpc; cbn; rewrite ?len_cons, ?len_filter_ne by eauto; lia).
  all: try (rewrite Hcpu, Hpc; clear; intuition congruence).
  all: try (exfalso; by eauto).
  all: try (match goal with H : locked (locks ?s ?l) = 0 |- _ =>
              exfalso; assert (locked (locks s l) = 1) by eauto; lia end).
  all: try (match goal with H : ?a ≠ ?b |- ?c = ?d => exfalso; apply H; by eauto end).
  all: try (match goal with |- _ ∨ ∃ _, _ =>
              destruct (Hfree l0) as [?|[h' Ho]]; [by left|];
              right; exists h'; rewrite !fn_insert_dec; repeat case_decide; subst;
              destruct Ho; rewrite ?elem_of_cons, ?list_elem_of_filter;
              first [by left; eauto | by right; eauto | congruence] end).
  all: try lia.
  all: try (match goal with |- context [bare ?s ?h] => pose proof (Hbare h); lia end).
  - right. exists h. right. by rewrite fn_insert_dec, decide_True.
  - constructor; [by apply Hgot | done].
  - by intuition.
  - split; [congruence|]. intros [Hin _]. exfalso. by eauto.
  - rewrite Hcpu, Hpc. clear -H. intuition congruence.
  - by intuition.
  - split; [done|]. intros [Hin _]. exfalso. by eauto.
  - rewrite Hcpu, Hpc. clear -H. intuition congruence.
  - by apply NoDup_filter.
Qed.

Lemma inv_reachable names s : reachable names s → inv s.
Proof.
  intros Hr. unfold reachable in Hr. remember (initial names) as s0 eqn:E.
  assert (inv s0) as H0 by (subst; apply inv_initial). clear E.
  induction Hr as [|s1 s2 s3 H12 _ IH]; [done|]. eauto using inv_step.
Qed.

Lemma held_noff s h : inv s → held s h ≠ [] ∨ pcs s h ≠ Run → 0 < noff (cpus s h).
Proof.
  intros Hi H. rewrite (inv_noff _ Hi). pose proof (inv_bare _ Hi h).
  assert (0 < len (held s h) ∨ len (held s h) = 0 ∧ held s h = []) as Hlen.
  { destruct (held s h); [by right|left]. rewrite len_cons.
    pose proof (len_nonneg l). lia. }
  destruct (pcs s h) as [| | |l|] eqn:E; cbn; try lia; destruct H as [H|H]; try lia; try done.
  - destruct Hlen as [|[_ ?]]; [lia|contradiction].
  - destruct Hlen as [|[_ ?]]; [lia|contradiction].
  - pose proof (inv_clear _ Hi h l E). destruct Hlen as [|[_ He]]; [lia|].
    rewrite He in *. set_solver.
Qed.

(** The steps of a hart that runs alone are those of [acquire] and [release]. *)
Lemma acquire_steps s h l c' lk' :
  pcs s h = Run → l ∉ held s h →
  acquire h (cpus s h, locks s l) = Ok tt (c', lk') →
  ∃ s', rtc lock_step s s' ∧ cpus s' h = c' ∧ locks s' l = lk' ∧ pcs s' h = Run ∧ held s' h = l :: held s h.
Proof.
  intros Hpc Hl E. unfold acquire in E. apply bind_inv_ok in E as ([] & s1 & E1 & E). unfold zoom in E1, E. cbn [view upd cpu_part lock_part fst snd] in E1, E.
  destruct (push_off (cpus s h)) as [[] c1| | | |] eqn:Ep; try done. injection E1 as <-. cbn [fst snd] in E. unfold acquire_lk in E.
  destruct (holding h (locks s l)) eqn:Eh; [done|]. destruct (Z.eqb_spec (locked (locks s l)) 0) as [E0|]; [|done]. injection E as <- <-.
  eexists. split.
  - eapply rtc_l; [by apply (step_acquire _ h l c1)|]. eapply rtc_l; [apply (step_swap_won _ h l); [apply fn_lookup_insert|exact E0]|].
    eapply rtc_l; [apply (step_set_owner _ h l), fn_lookup_insert|apply rtc_refl].
  - cbn. by rewrite !fn_lookup_insert.
Qed.

Lemma release_steps s h l c' lk' :
  pcs s h = Run → l ∈ held s h →
  release h (cpus s h, locks s l) = Ok tt (c', lk') →
  ∃ s', rtc lock_step s s' ∧ cpus s' h = c' ∧ locks s' l = lk' ∧ pcs s' h = Run ∧ held s' h = filter (λ x, x ≠ l) (held s h).
Proof.
  intros Hpc Hl E. unfold release in E. apply bind_inv_ok in E as ([] & s1 & E1 & E). unfold zoom in E1, E. cbn [view upd cpu_part lock_part fst snd] in E1, E.
  unfold release_lk in E1. destruct (holding h (locks s l)) eqn:Eh; [|done]. injection E1 as <-. cbn [fst snd] in E.
  destruct (pop_off (cpus s h)) as [[] c1| | | |] eqn:Ep; try done. injection E as <- <-.
  eexists. split.
  - eapply rtc_l; [by apply (step_release _ h l)|]. eapply rtc_l; [apply (step_store _ h l), fn_lookup_insert|].
    eapply rtc_l; [apply (step_pop _ h l c1); [apply fn_lookup_insert|exact Ep]|apply rtc_refl].
  - cbn. by rewrite !fn_lookup_insert.
Qed.

(** A hart that has taken lock 5. *)
Definition demo : smp :=
  let s1 := set_pc 1 (AcqSpin 5)
              (set_cpu 1 (mkcpu 1 0 false) (initial (λ _, "demo"%string))) in
  let s2 := set_pc 1 (AcqGot 5) (set_lock 5 (mkspinlock 1 "demo" None) s1) in
  set_pc 1 Run (set_held 1 [5] (set_lock 5 (mkspinlock 1 "demo" (Some 1)) s2)).

Lemma demo_reachable : reachable (λ _, "demo"%string) demo.
Proof.
  eapply rtc_l; [apply (step_acquire _ 1 5 (mkcpu 1 0 false)); try done; set_solver|].
  eapply rtc_l; [by apply (step_swap_won _ 1 5)|].
  eapply rtc_l; [by apply (step_set_owner _ 1 5)|].
  apply rtc_refl.
Qed.

(** ** Theorems *)

(** C11: Mutual exclusion.  In every interleaving of the harts' calls to
    [acquire] and [release], at most one hart is in the critical section of a
    lock, and the lock word is 1 as long as it is there. *)
Theorem mutual_exclusion names s h1 h2 l :
  reachable names s → owns s h1 l → owns s h2 l →
  h1 = h2 ∧ locked (locks s l) = 1.
Proof.
  intros Hr%inv_reachable H1 H2. split.
  - by eapply (inv_owner _ Hr).
  - by eapply (inv_locked _ Hr).
Qed.

Lemma mutual_exclusion_witness : 1 = 1 ∧ locked (locks demo 5) = 1.
Proof.
  apply (mutual_exclusion (λ _, "demo"%string) demo 1 1 5).
  - apply demo_reachable.
  - left. cbn. set_solver.
  - left. cbn. set_solver.
Defined.

(** C36: Interrupts are disabled on a hart from the moment it starts to acquire
    a lock until it has finished releasing its last one. *)
Theorem interrupts_off_while_locked names s h :
  reachable names s → held s h ≠ [] ∨ pcs s h ≠ Run →
  sie (cpus s h) = false ∧ 0 < noff (cpus s h).
Proof.
  intros Hr%inv_reachable H. pose proof (held_noff s h Hr H) as Hn.
  split; [by apply (inv_sie _ Hr) | done].
Qed.

Lemma interrupts_off_while_locked_witness :
  sie (cpus demo 1) = false ∧ 0 < noff (cpus demo 1).
Proof.
  apply (interrupts_off_while_locked (λ _, "demo"%string) demo 1).
  - apply demo_reachable.
  - left. done.
Defined.

(** Lock discipline excludes the panics of spinlock.c: a hart that does not
    hold a lock can start acquiring it (it returns or spins), a hart that holds
    it can release it, and the [pop_off] at the end of a release returns. *)
Theorem no_lock_panic names s h :
  reachable names s →
  (∀ l, pcs s h = Run → l ∉ held s h → holding h (locks s l) = false) ∧
  (∀ l, pcs s h = Run → l ∈ held s h → ∃ lk', release_lk h (locks s l) = Ok tt lk') ∧
  (∀ l, pcs s h = RelStore l → ∃ c', pop_off (cpus s h) = Ok tt c').
Proof.
  intros Hr%inv_reachable. split_and!.
  - intros l Hpc Hl. unfold holding. apply andb_false_iff. right.
    apply bool_decide_eq_false_2. rewrite (inv_cpu _ Hr). naive_solver.
  - intros l Hpc Hl. unfold release_lk, holding.
    rewrite (inv_locked _ Hr h l) by (by left). rewrite bool_decide_eq_true_2; [by eexists|].
    apply (inv_cpu _ Hr). by rewrite Hpc.
  - intros l Hpc. assert (0 < noff (cpus s h)) as Hn by (apply held_noff; [done|right; congruence]).
    rewrite pop_off_ok; [by eexists | by apply (inv_sie _ Hr) | done].
Qed.

Lemma no_lock_panic_witness : ∃ lk', release_lk 1 (locks demo 5) = Ok tt lk'.
Proof.
  apply (proj1 (proj2 (no_lock_panic (λ _, "demo"%string) demo 1 demo_reachable)) 5).
  - reflexivity.
  - cbn. set_solver.
Defined.

End SMP.

(** * Nesting of [push_off] and [pop_off] *)

Fixpoint times (n : nat) (m : M cpu unit) : M cpu unit :=
  match n with
  | O => ret tt
  | S n' => m ;; times n' m
  end.

Lemma times_push n c :
  0 ≤ noff c → (0 < noff c → sie c = false) →
  times (S n) push_off c =
  Ok tt (mkcpu (noff c + Z.of_nat (S n)) (if noff c =? 0 then intr_get c else intena c) false).
Proof.
  revert c. induction n as [|n IH]; intros c H0 Hs.
  - cbn [times]. by rewrite (bind_ok _ _ _ _ _ (SMP.push_off_ok c)).
  - cbn [times]. rewrite (bind_ok _ _ _ _ _ (SMP.push_off_ok c)).
    change (push_off ;; times n push_off) with (times (S n) push_off).
    rewrite IH by (cbn; lia). cbn [noff intena sie].
    destruct (noff c + 1 =? 0) eqn:?; [lia|].
    do 2 f_equal. lia.
Qed.

Lemma times_pop n c :
  Z.of_nat n < noff c → sie c = false →
  times n pop_off c = Ok tt (mkcpu (noff c - Z.of_nat n) (intena c) false).
Proof.
  revert c. induction n as [|n IH]; intros c H0 Hs.
  - destruct c as [no ie si]. cbn in *. rewrite Z.sub_0_r. by subst.
  - cbn [times]. rewrite (bind_ok _ _ _ _ _ (SMP.pop_off_ok c Hs ltac:(lia))).
    destruct (noff c - 1 =? 0) eqn:?; [lia|]. cbn [andb].
    rewrite IH by (cbn; lia). cbn. do 2 f_equal. lia.
Qed.

Lemma times_snoc n m s : times (S n) m s = bind (times n m) (λ _, m) s.
Proof.
  revert s. induction n as [|n IH]; intros s.
  - cbn. unfold bind, ret. by destruct (m s) as [[]| | | |].
  - change (times (S (S n)) m s) with (bind m (λ _, times (S n) m) s).
    change (times (S n) m) with (bind m (λ _, times n m)) at 2. rewrite bind_assoc.
    unfold bind at 1 2. destruct (m s) as [[] s'| | | |]; done.
Qed.

(** [push_off] and [pop_off] are matched: after [n] of each, the nesting
    depth and the interrupt-enable bit are those of the start, for any [n]; in
    particular interrupts that were off stay off. *)
Theorem push_pop_matched n c :
  0 ≤ noff c → (0 < noff c → sie c = false) →
  ∃ c', bind (times n push_off) (λ _, times n pop_off) c = Ok tt c' ∧
        noff c' = noff c ∧ sie c' = sie c.
Proof.
  intros H0 Hs. destruct n as [|n]; [by exists c|].
  rewrite (bind_ok _ _ _ _ _ (times_push n c H0 Hs)).
  rewrite times_snoc.
  erewrite bind_ok; [|apply times_pop; cbn; [lia|done]].
  cbn [noff intena]. rewrite SMP.pop_off_ok by (cbn; lia || done). cbn [noff intena].
  eexists. split; [done|]. cbn. split; [lia|].
  replace (noff c + Z.of_nat (S n) - Z.of_nat n - 1) with (noff c) by lia.
  destruct (noff c =? 0) eqn:E; cbn.
  - unfold intr_get. by destruct (sie c).
  - rewrite Hs by lia. done.
Qed.

Lemma push_pop_matched_witness :
  ∃ c', bind (times 3 push_off) (λ _, times 3 pop_off) (mkcpu 0 0 true) = Ok tt c' ∧
        noff c' = 0 ∧ sie c' = true.
Proof.
  apply (push_pop_matched 3 (mkcpu 0 0 true)); cbn; lia.
Defined.

(** * Locks inside a component *)

Lemma acquire_lk_ok me lk :
  unlocked lk → acquire_lk me lk = Ok tt (mkspinlock 1 (lk_name lk) (Some me)).
Proof. destruct lk as [l n c]. intros [H1 H2]. cbn in *. subst. done. Qed.

Lemma release_lk_ok me n : release_lk me (mkspinlock 1 n (Some me)) = Ok tt (mkspinlock 0 n None).
Proof. unfold release_lk, holding. cbn. by rewrite bool_decide_eq_true_2. Qed.

Lemma unlocked_eq lk : unlocked lk → lk = mkspinlock 0 (lk_name lk) None.
Proof. destruct lk. intros [H1 H2]. cbn in *. by subst. Qed.

Lemma unlocked_initlock n : unlocked (initlock n).
Proof. done. Qed.

#[export] Hint Resolve unlocked_initlock : kernel.
