(* ===== verification/Csr.v ===== *)
(** kernel/riscv.h, kernel/start.c: control and status registers, and the
    machine-mode start of a hart.

    A register is a 64-bit word that reads as it was last written; fields that
    the hardware forces are left out.  [start] runs in machine mode and ends with
    [mret], which enters the mode of the MPP field at [mepc].  The interrupt
    functions on the SIE bit are the ones that Spinlock.v uses with the bit as
    a boolean. *)

From stdpp Require Import base tactics numbers.
From S2P Require Import Prelude Param Spinlock.
From Stdlib Require Import ZArith Lia.

Open Scope kernel_scope.

(** * Registers *)

Record csrs := mkcsrs {
  c_mhartid : Z;
  c_mstatus : Z;
  c_mepc : Z;
  c_sstatus : Z;
  c_sip : Z;
  c_sie : Z;
  c_mie : Z;
  c_sepc : Z;
  c_medeleg : Z;
  c_mideleg : Z;
  c_stvec : Z;
  c_stimecmp : Z;
  c_menvcfg : Z;
  c_pmpcfg0 : Z;
  c_pmpaddr0 : Z;
  c_satp : Z;
  c_scause : Z;
  c_stval : Z;
  c_mcounteren : Z;
  c_time : Z;
  c_tp : Z;
}.

Definition set_mstatus (v : Z) (c : csrs) : csrs :=
  mkcsrs (c_mhartid c) v (c_mepc c) (c_sstatus c) (c_sip c) (c_sie c) (c_mie c) (c_sepc c) (c_medeleg c) (c_mideleg c) (c_stvec c) (c_stimecmp c) (c_menvcfg c) (c_pmpcfg0 c) (c_pmpaddr0 c) (c_satp c) (c_scause c) (c_stval c) (c_mcounteren c) (c_time c) (c_tp c).
Definition set_mepc (v : Z) (c : csrs) : csrs :=
  mkcsrs (c_mhartid c) (c_mstatus c) v (c_sstatus c) (c_sip c) (c_sie c) (c_mie c) (c_sepc c) (c_medeleg c) (c_mideleg c) (c_stvec c) (c_stimecmp c) (c_menvcfg c) (c_pmpcfg0 c) (c_pmpaddr0 c) (c_satp c) (c_scause c) (c_stval c) (c_mcounteren c) (c_time c) (c_tp c).
Definition set_sstatus (v : Z) (c : csrs) : csrs :=
  mkcsrs (c_mhartid c) (c_mstatus c) (c_mepc c) v (c_sip c) (c_sie c) (c_mie c) (c_sepc c) (c_medeleg c) (c_mideleg c) (c_stvec c) (c_stimecmp c) (c_menvcfg c) (c_pmpcfg0 c) (c_pmpaddr0 c) (c_satp c) (c_scause c) (c_stval c) (c_mcounteren c) (c_time c) (c_tp c).
Definition set_sip (v : Z) (c : csrs) : csrs :=
  mkcsrs (c_mhartid c) (c_mstatus c) (c_mepc c) (c_sstatus c) v (c_sie c) (c_mie c) (c_sepc c) (c_medeleg c) (c_mideleg c) (c_stvec c) (c_stimecmp c) (c_menvcfg c) (c_pmpcfg0 c) (c_pmpaddr0 c) (c_satp c) (c_scause c) (c_stval c) (c_mcounteren c) (c_time c) (c_tp c).
Definition set_sie (v : Z) (c : csrs) : csrs :=
  mkcsrs (c_mhartid c) (c_mstatus c) (c_mepc c) (c_sstatus c) (c_sip c) v (c_mie c) (c_sepc c) (c_medeleg c) (c_mideleg c) (c_stvec c) (c_stimecmp c) (c_menvcfg c) (c_pmpcfg0 c) (c_pmpaddr0 c) (c_satp c) (c_scause c) (c_stval c) (c_mcounteren c) (c_time c) (c_tp c).
Definition set_mie (v : Z) (c : csrs) : csrs :=
  mkcsrs (c_mhartid c) (c_mstatus c) (c_mepc c) (c_sstatus c) (c_sip c) (c_sie c) v (c_sepc c) (c_medeleg c) (c_mideleg c) (c_stvec c) (c_stimecmp c) (c_menvcfg c) (c_pmpcfg0 c) (c_pmpaddr0 c) (c_satp c) (c_scause c) (c_stval c) (c_mcounteren c) (c_time c) (c_tp c).
Definition set_sepc (v : Z) (c : csrs) : csrs :=
  mkcsrs (c_mhartid c) (c_mstatus c) (c_mepc c) (c_sstatus c) (c_sip c) (c_sie c) (c_mie c) v (c_medeleg c) (c_mideleg c) (c_stvec c) (c_stimecmp c) (c_menvcfg c) (c_pmpcfg0 c) (c_pmpaddr0 c) (c_satp c) (c_scause c) (c_stval c) (c_mcounteren c) (c_time c) (c_tp c).
Definition set_medeleg (v : Z) (c : csrs) : csrs :=
  mkcsrs (c_mhartid c) (c_mstatus c) (c_mepc c) (c_sstatus c) (c_sip c) (c_sie c) (c_mie c) (c_sepc c) v (c_mideleg c) (c_stvec c) (c_stimecmp c) (c_menvcfg c) (c_pmpcfg0 c) (c_pmpaddr0 c) (c_satp c) (c_scause c) (c_stval c) (c_mcounteren c) (c_time c) (c_tp c).
Definition set_mideleg (v : Z) (c : csrs) : csrs :=
  mkcsrs (c_mhartid c) (c_mstatus c) (c_mepc c) (c_sstatus c) (c_sip c) (c_sie c) (c_mie c) (c_sepc c) (c_medeleg c) v (c_stvec c) (c_stimecmp c) (c_menvcfg c) (c_pmpcfg0 c) (c_pmpaddr0 c) (c_satp c) (c_scause c) (c_stval c) (c_mcounteren c) (c_time c) (c_tp c).
Definition set_stvec (v : Z) (c : csrs) : csrs :=
  mkcsrs (c_mhartid c) (c_mstatus c) (c_mepc c) (c_sstatus c) (c_sip c) (c_sie c) (c_mie c) (c_sepc c) (c_medeleg c) (c_mideleg c) v (c_stimecmp c) (c_menvcfg c) (c_pmpcfg0 c) (c_pmpaddr0 c) (c_satp c) (c_scause c) (c_stval c) (c_mcounteren c) (c_time c) (c_tp c).
Definition set_stimecmp (v : Z) (c : csrs) : csrs :=
  mkcsrs (c_mhartid c) (c_mstatus c) (c_mepc c) (c_sstatus c) (c_sip c) (c_sie c) (c_mie c) (c_sepc c) (c_medeleg c) (c_mideleg c) (c_stvec c) v (c_menvcfg c) (c_pmpcfg0 c) (c_pmpaddr0 c) (c_satp c) (c_scause c) (c_stval c) (c_mcounteren c) (c_time c) (c_tp c).
Definition set_menvcfg (v : Z) (c : csrs) : csrs :=
  mkcsrs (c_mhartid c) (c_mstatus c) (c_mepc c) (c_sstatus c) (c_sip c) (c_sie c) (c_mie c) (c_sepc c) (c_medeleg c) (c_mideleg c) (c_stvec c) (c_stimecmp c) v (c_pmpcfg0 c) (c_pmpaddr0 c) (c_satp c) (c_scause c) (c_stval c) (c_mcounteren c) (c_time c) (c_tp c).
Definition set_pmpcfg0 (v : Z) (c : csrs) : csrs :=
  mkcsrs (c_mhartid c) (c_mstatus c) (c_mepc c) (c_sstatus c) (c_sip c) (c_sie c) (c_mie c) (c_sepc c) (c_medeleg c) (c_mideleg c) (c_stvec c) (c_stimecmp c) (c_menvcfg c) v (c_pmpaddr0 c) (c_satp c) (c_scause c) (c_stval c) (c_mcounteren c) (c_time c) (c_tp c).
Definition set_pmpaddr0 (v : Z) (c : csrs) : csrs :=
  mkcsrs (c_mhartid c) (c_mstatus c) (c_mepc c) (c_sstatus c) (c_sip c) (c_sie c) (c_mie c) (c_sepc c) (c_medeleg c) (c_mideleg c) (c_stvec c) (c_stimecmp c) (c_menvcfg c) (c_pmpcfg0 c) v (c_satp c) (c_scause c) (c_stval c) (c_mcounteren c) (c_time c) (c_tp c).
Definition set_satp (v : Z) (c : csrs) : csrs :=
  mkcsrs (c_mhartid c) (c_mstatus c) (c_mepc c) (c_sstatus c) (c_sip c) (c_sie c) (c_mie c) (c_sepc c) (c_medeleg c) (c_mideleg c) (c_stvec c) (c_stimecmp c) (c_menvcfg c) (c_pmpcfg0 c) (c_pmpaddr0 c) v (c_scause c) (c_stval c) (c_mcounteren c) (c_time c) (c_tp c).
Definition set_mcounteren (v : Z) (c : csrs) : csrs :=
  mkcsrs (c_mhartid c) (c_mstatus c) (c_mepc c) (c_sstatus c) (c_sip c) (c_sie c) (c_mie c) (c_sepc c) (c_medeleg c) (c_mideleg c) (c_stvec c) (c_stimecmp c) (c_menvcfg c) (c_pmpcfg0 c) (c_pmpaddr0 c) (c_satp c) (c_scause c) (c_stval c) v (c_time c) (c_tp c).
Definition set_tp (v : Z) (c : csrs) : csrs :=
  mkcsrs (c_mhartid c) (c_mstatus c) (c_mepc c) (c_sstatus c) (c_sip c) (c_sie c) (c_mie c) (c_sepc c) (c_medeleg c) (c_mideleg c) (c_stvec c) (c_stimecmp c) (c_menvcfg c) (c_pmpcfg0 c) (c_pmpaddr0 c) (c_satp c) (c_scause c) (c_stval c) (c_mcounteren c) (c_time c) v.

Definition r_mhartid : M csrs Z := gets c_mhartid.
Definition r_mstatus : M csrs Z := gets c_mstatus.
Definition r_sstatus : M csrs Z := gets c_sstatus.
Definition r_sip : M csrs Z := gets c_sip.
Definition r_sie : M csrs Z := gets c_sie.
Definition r_mie : M csrs Z := gets c_mie.
Definition r_sepc : M csrs Z := gets c_sepc.
Definition r_medeleg : M csrs Z := gets c_medeleg.
Definition r_mideleg : M csrs Z := gets c_mideleg.
Definition r_stvec : M csrs Z := gets c_stvec.
Definition r_stimecmp : M csrs Z := gets c_stimecmp.
Definition r_menvcfg : M csrs Z := gets c_menvcfg.
Definition r_satp : M csrs Z := gets c_satp.
Definition r_scause : M csrs Z := gets c_scause.
Definition r_stval : M csrs Z := gets c_stval.
Definition r_mcounteren : M csrs Z := gets c_mcounteren.
Definition r_time : M csrs Z := gets c_time.
Definition r_tp : M csrs Z := gets c_tp.

Definition w_mstatus (x : Z) : M csrs unit := modify (set_mstatus (u64 x)).
Definition w_mepc (x : Z) : M csrs unit := modify (set_mepc (u64 x)).
Definition w_sstatus (x : Z) : M csrs unit := modify (set_sstatus (u64 x)).
Definition w_sip (x : Z) : M csrs unit := modify (set_sip (u64 x)).
Definition w_sie (x : Z) : M csrs unit := modify (set_sie (u64 x)).
Definition w_mie (x : Z) : M csrs unit := modify (set_mie (u64 x)).
Definition w_sepc (x : Z) : M csrs unit := modify (set_sepc (u64 x)).
Definition w_medeleg (x : Z) : M csrs unit := modify (set_medeleg (u64 x)).
Definition w_mideleg (x : Z) : M csrs unit := modify (set_mideleg (u64 x)).
Definition w_stvec (x : Z) : M csrs unit := modify (set_stvec (u64 x)).
Definition w_stimecmp (x : Z) : M csrs unit := modify (set_stimecmp (u64 x)).
Definition w_menvcfg (x : Z) : M csrs unit := modify (set_menvcfg (u64 x)).
Definition w_pmpcfg0 (x : Z) : M csrs unit := modify (set_pmpcfg0 (u64 x)).
Definition w_pmpaddr0 (x : Z) : M csrs unit := modify (set_pmpaddr0 (u64 x)).
Definition w_satp (x : Z) : M csrs unit := modify (set_satp (u64 x)).
Definition w_mcounteren (x : Z) : M csrs unit := modify (set_mcounteren (u64 x)).
Definition w_tp (x : Z) : M csrs unit := modify (set_tp (u64 x)).

(** Fields. *)
Definition MSTATUS_MPP_MASK : Z := Z.shiftl 3 11.
Definition MSTATUS_MPP_S : Z := Z.shiftl 1 11.
Definition SSTATUS_SPP : Z := Z.shiftl 1 8.
Definition SSTATUS_SPIE : Z := Z.shiftl 1 5.
Definition SSTATUS_SIE : Z := Z.shiftl 1 1.
Definition SIE_SEIE : Z := Z.shiftl 1 9.
Definition SIE_STIE : Z := Z.shiftl 1 5.
Definition MIE_STIE : Z := Z.shiftl 1 5.
Definition SATP_SV39 : Z := Z.shiftl 8 60.
Definition MAKE_SATP (pagetable : Z) : Z := Z.lor SATP_SV39 (Z.shiftr pagetable 12).

(** vm.c: the fences around the write of [satp] have no effect on the registers. *)
Definition kvminithart (kernel_pagetable : Z) : M csrs unit := w_satp (MAKE_SATP kernel_pagetable).

Module Intr.
Definition intr_on : M csrs unit := x <- r_sstatus ;; w_sstatus (Z.lor x SSTATUS_SIE).
Definition intr_off : M csrs unit := x <- r_sstatus ;; w_sstatus (Z.land x (Z.lnot SSTATUS_SIE)).
Definition intr_get : M csrs Z := x <- r_sstatus ;; ret (b2z (negb (Z.land x SSTATUS_SIE =? 0))).
End Intr.

(** * start.c *)

Definition timerinit : M csrs unit :=
  x <- r_mie ;;
  w_mie (Z.lor x MIE_STIE) ;;
  x <- r_menvcfg ;;
  w_menvcfg (Z.lor x (Z.shiftl 1 63)) ;;
  x <- r_mcounteren ;;
  w_mcounteren (Z.lor x 2) ;;
  x <- r_time ;;
  w_stimecmp (x + 1000000).

(** [main_] is the address of [main]; [mret] is the state the hart leaves
    machine mode with. *)
Definition start (main_ : Z) : M csrs unit :=
  x <- r_mstatus ;;
  let x := Z.land x (Z.lnot MSTATUS_MPP_MASK) in
  let x := Z.lor x MSTATUS_MPP_S in
  w_mstatus x ;;
  w_mepc main_ ;;
  w_satp 0 ;;
  w_medeleg 65535 ;;
  w_mideleg 65535 ;;
  x <- r_sie ;;
  w_sie (Z.lor (Z.lor x SIE_SEIE) SIE_STIE) ;;
  w_pmpaddr0 18014398509481983 ;;
  w_pmpcfg0 15 ;;
  timerinit ;;
  id <- r_mhartid ;;
  w_tp (s32 id).

(** * Lemmas *)

Lemma u64_testbit x k : 0 ≤ k → Z.testbit (u64 x) k = (k <? 64) && Z.testbit x k.
Proof.
  intros Hk. unfold u64. change 18446744073709551616 with (2 ^ 64). destruct (k <? 64) eqn:E.
  - rewrite Z.mod_pow2_bits_low by lia. done.
  - rewrite Z.mod_pow2_bits_high by lia. done.
Qed.

Lemma testbit_shift k j : 0 ≤ k → 0 ≤ j → Z.testbit (Z.shiftl 1 k) j = (j =? k).
Proof.
  intros Hk Hj. rewrite Z.shiftl_spec by done. destruct (Z.eqb_spec j k) as [->|Hne]; [by rewrite Z.sub_diag|].
  destruct (Z.ltb_spec j k); [by rewrite Z.testbit_neg_r by lia|]. change 1 with (2 ^ 0). apply Z.pow2_bits_false. lia.
Qed.

(** The SIE bit as the boolean of Spinlock.v. *)
Definition sie_bit (c : csrs) : bool := Z.testbit (c_sstatus c) 1.

Lemma land_bit_zero x k : 0 ≤ k → (Z.land x (Z.shiftl 1 k) =? 0) = negb (Z.testbit x k).
Proof.
  intros Hk. destruct (Z.testbit x k) eqn:E; cbn.
  - apply Z.eqb_neq. intros H0. assert (Z.testbit (Z.land x (Z.shiftl 1 k)) k = true) as Ht.
    { rewrite Z.land_spec, E, testbit_shift by lia. by rewrite Z.eqb_refl. }
    by rewrite H0, Z.bits_0 in Ht.
  - apply Z.eqb_eq. apply Z.bits_inj'. intros j Hj. rewrite Z.land_spec, testbit_shift, Z.bits_0 by lia.
    destruct (Z.eqb_spec j k) as [->|]; [by rewrite E|by rewrite andb_false_r].
Qed.

(** The interrupt functions of riscv.h, which work on the SIE bit of
    [sstatus], do to that bit what the functions used by the lock code do to
    the boolean, and leave the other bits of the register alone. *)
Theorem intr_refines (c : csrs) (k : cpu) :
  sie k = sie_bit c →
  (∃ c' k', Intr.intr_on c = Ok tt c' ∧ intr_on k = Ok tt k' ∧ sie k' = sie_bit c' ∧ ∀ j, 0 ≤ j < 64 → j ≠ 1 → Z.testbit (c_sstatus c') j = Z.testbit (c_sstatus c) j) ∧
  (∃ c' k', Intr.intr_off c = Ok tt c' ∧ intr_off k = Ok tt k' ∧ sie k' = sie_bit c' ∧ ∀ j, 0 ≤ j < 64 → j ≠ 1 → Z.testbit (c_sstatus c') j = Z.testbit (c_sstatus c) j) ∧
  Intr.intr_get c = Ok (intr_get k) c.
Proof.
  intros Hk. unfold sie_bit in *. split_and!.
  - eexists _, _. split_and!; [reflexivity|reflexivity| |]; cbn [c_sstatus set_sstatus sie set_sie].
    + rewrite u64_testbit by lia. rewrite Z.lor_spec. unfold SSTATUS_SIE. rewrite testbit_shift by lia. by rewrite orb_true_r.
    + intros j Hj Hne. rewrite u64_testbit, Z.lor_spec by lia. unfold SSTATUS_SIE. rewrite testbit_shift by lia.
      destruct (j <? 64) eqn:?, (j =? 1) eqn:?; try lia. by rewrite orb_false_r.
  - eexists _, _. split_and!; [reflexivity|reflexivity| |]; cbn [c_sstatus set_sstatus sie set_sie].
    + rewrite u64_testbit by lia. rewrite Z.land_spec, Z.lnot_spec by lia. unfold SSTATUS_SIE. rewrite testbit_shift by lia. by rewrite andb_false_r.
    + intros j Hj Hne. rewrite u64_testbit, Z.land_spec, Z.lnot_spec by lia. unfold SSTATUS_SIE. rewrite testbit_shift by lia.
      destruct (j <? 64) eqn:?, (j =? 1) eqn:?; try lia. by rewrite andb_true_r.
  - unfold Intr.intr_get, r_sstatus. rewrite bind_gets. unfold ret, SSTATUS_SIE. rewrite land_bit_zero by lia.
    unfold intr_get. rewrite Hk. by rewrite negb_involutive.
Qed.
