(* ===== verification/Sleeplock.v ===== *)
(** kernel/sleeplock.c: long-term locks.

    A sleep lock is a flag guarded by its own spin lock.  The operations are
    run by hart [me] on behalf of the process [pid]; [chan] is the address of
    the lock, the channel a waiter sleeps on. *)

From stdpp Require Import base tactics numbers strings.
From S2P Require Import Prelude Spinlock.
From Stdlib Require Import ZArith Lia.

Open Scope kernel_scope.

Record sleeplock := mksleeplock {
  sl_locked : Z;
  sl_lk : spinlock;
  sl_name : string;
  sl_pid : Z;
}.

Definition initsleeplock (name : string) : sleeplock :=
  mksleeplock 0 (initlock "sleep lock") name 0.

Definition sl_lkL : lens sleeplock spinlock :=
  Lens sl_lk (λ l s, mksleeplock (sl_locked s) l (sl_name s) (sl_pid s)).

Definition set_sl (locked pid : Z) (s : sleeplock) : sleeplock :=
  mksleeplock locked (sl_lk s) (sl_name s) pid.

(** One round of the loop of [acquiresleep]: the process takes the lock, or
    goes to sleep and will run the round again when woken. *)
Definition acquiresleep (me pid chan : Z) : M sleeplock unit :=
  zoom sl_lkL (acquire_lk me) ;;
  s <- get ;;
  if negb (sl_locked s =? 0) then sleep_on sl_lkL me chan
  else
    modify (set_sl 1 pid) ;;
    zoom sl_lkL (release_lk me).

Definition releasesleep (me chan : Z) : M sleeplock unit :=
  zoom sl_lkL (acquire_lk me) ;;
  modify (set_sl 0 0) ;;
  wakeup chan ;;
  zoom sl_lkL (release_lk me).

Definition holdingsleep (me pid : Z) : M sleeplock bool :=
  zoom sl_lkL (acquire_lk me) ;;
  r <- gets (λ s, negb (sl_locked s =? 0) && (sl_pid s =? pid)) ;;
  zoom sl_lkL (release_lk me) ;;
  ret r.

(** Between calls the inner spin lock is free; the flag tells who holds the
    sleep lock. *)
Definition sl_free (s : sleeplock) : Prop :=
  unlocked (sl_lk s) ∧ sl_locked s = 0.
Definition sl_held (pid : Z) (s : sleeplock) : Prop :=
  unlocked (sl_lk s) ∧ sl_locked s = 1 ∧ sl_pid s = pid.

(** * Lemmas *)

Section sleeplock.
  Context (me pid chan : Z).

Lemma acquiresleep_ok s :
  sl_free s →
  acquiresleep me pid chan s = Ok tt (mksleeplock 1 (sl_lk s) (sl_name s) pid).
Proof.
  destruct s as [l [lw ln lc] n p]. intros [[H1 H2] H3]. cbn in *. subst.
  unfold acquiresleep, zoom, bind. cbn.
  by rewrite release_lk_ok.
Qed.

Lemma acquiresleep_sleeps s :
  unlocked (sl_lk s) → sl_locked s ≠ 0 →
  acquiresleep me pid chan s = Sleep chan s.
Proof.
  destruct s as [l [lw ln lc] n p]. intros [H1 H2] H3. cbn in *. subst.
  unfold acquiresleep, sleep_on, zoom, bind. cbn.
  destruct (l =? 0) eqn:?; [lia|]. cbn. by rewrite release_lk_ok.
Qed.

Lemma releasesleep_ok s :
  unlocked (sl_lk s) →
  releasesleep me chan s = Ok tt (mksleeplock 0 (sl_lk s) (sl_name s) 0).
Proof.
  destruct s as [l [lw ln lc] n p]. intros [H1 H2]. cbn in *. subst.
  unfold releasesleep, zoom, bind. cbn. by rewrite release_lk_ok.
Qed.

Lemma holdingsleep_ok s :
  unlocked (sl_lk s) →
  holdingsleep me pid s = Ok (negb (sl_locked s =? 0) && (sl_pid s =? pid)) s.
Proof.
  destruct s as [l [lw ln lc] n p]. intros [H1 H2]. cbn in *. subst.
  unfold holdingsleep, zoom, bind. cbn. by rewrite release_lk_ok.
Qed.
End sleeplock.

(** A sleep lock is exclusive between processes: when it is free,
    [acquiresleep] gives it to the caller, who then passes [holdingsleep] and
    no other process does; any further [acquiresleep], by any process, sleeps
    on the lock and leaves it as it is; [releasesleep] makes it free again. *)
Theorem sleeplock_exclusive me pid chan s :
  sl_free s →
  ∃ s', acquiresleep me pid chan s = Ok tt s' ∧ sl_held pid s' ∧
    (∀ me' pid', holdingsleep me' pid' s' = Ok (bool_decide (pid' = pid)) s') ∧
    (∀ me' pid', acquiresleep me' pid' chan s' = Sleep chan s') ∧
    (∃ s'', releasesleep me chan s' = Ok tt s'' ∧ sl_free s'').
Proof.
  intros Hf. pose proof Hf as [Hu Hz]. eexists. split; [by apply acquiresleep_ok|].
  split_and!; [done| | |].
  - intros me' pid'. rewrite holdingsleep_ok by done. cbn. f_equal.
    destruct (Z.eqb_spec pid pid') as [->|]; [by rewrite bool_decide_eq_true_2|].
    by rewrite bool_decide_eq_false_2.
  - intros me' pid'. by apply acquiresleep_sleeps.
  - eexists. split; [by apply releasesleep_ok|done].
Qed.

Lemma sleeplock_exclusive_witness :
  ∃ s', acquiresleep 0 7 1000 (initsleeplock "inode") = Ok tt s' ∧ sl_held 7 s'.
Proof.
  destruct (sleeplock_exclusive 0 7 1000 (initsleeplock "inode")) as (s' & H1 & H2 & _).
  - split; [apply unlocked_initlock | reflexivity].
  - exists s'. by split.
Defined.
