(* ===== verification/Kalloc.v ===== *)
(** kernel/kalloc.c: the physical page allocator.

    The free list is the linked list of the source: each free page holds the
    address of the next one in its first eight bytes, [kmem.freelist] points to
    the first, 0 ends it.  [end], the first address after the kernel, comes from
    the linker script and is the parameter [kend].

    [flist m p l] says that the chain starting at [p] in memory [m] visits
    exactly the pages [l].  The theorems show that [kalloc] and [kfree] are pop
    and push of that list whatever the memory holds, that [kinit] puts every
    page between [end] and [PHYSTOP] on it once, and that in every sequence of
    allocations and frees the pages in use and the free pages partition the
    managed memory: no page is handed out twice. *)

From stdpp Require Import base tactics list numbers strings relations sets.
From S2P Require Import Prelude Param Bytes CString Spinlock.
From Stdlib Require Import ZArith Lia.

Open Scope kernel_scope.

Record kmem := mkkmem {
  kmem_lock : spinlock;
  freelist : Z;
  pmem : mem;
}.

Definition kmem_lockL : lens kmem spinlock :=
  Lens kmem_lock (λ l s, mkkmem l (freelist s) (pmem s)).
Definition set_freelist (p : Z) (s : kmem) : kmem := mkkmem (kmem_lock s) p (pmem s).
Definition set_pmem (m : mem) (s : kmem) : kmem := mkkmem (kmem_lock s) (freelist s) m.

Section kalloc.
  Context (me kend : Z).

(** Free the page at [pa]. *)
Definition kfree (pa : Z) : M kmem unit :=
  if negb (pa mod PGSIZE =? 0) || (pa <? kend) || (PHYSTOP <=? pa) then panic "kfree"
  else
    modify (λ s, set_pmem (memset (pmem s) pa 1 PGSIZE) s) ;;
    zoom kmem_lockL (acquire_lk me) ;;
    modify (λ s, set_pmem (store64 (pmem s) pa (freelist s)) s) ;;
    modify (set_freelist pa) ;;
    zoom kmem_lockL (release_lk me).

(** Allocate one page; 0 when there is none. *)
Definition kalloc : M kmem Z :=
  zoom kmem_lockL (acquire_lk me) ;;
  r <- gets freelist ;;
  (if negb (r =? 0) then modify (λ s, set_freelist (load64 (pmem s) r) s) else ret tt) ;;
  zoom kmem_lockL (release_lk me) ;;
  (if negb (r =? 0) then modify (λ s, set_pmem (memset (pmem s) r 5 PGSIZE) s) else ret tt) ;;
  ret r.

(** [for(; p + PGSIZE <= pa_end; p += PGSIZE) kfree(p);] *)
Fixpoint freerange_loop (fuel : nat) (p pa_end : Z) : M kmem unit :=
  match fuel with
  | O => λ _, OutOfFuel
  | S fuel' =>
      if p + PGSIZE <=? pa_end
      then kfree p ;; freerange_loop fuel' (p + PGSIZE) pa_end
      else ret tt
  end.

Definition freerange (pa_start pa_end : Z) : M kmem unit :=
  let p := PGROUNDUP pa_start in
  freerange_loop (Z.to_nat ((pa_end - p) / PGSIZE + 2)) p pa_end.

Definition kinit : M kmem unit :=
  modify (upd kmem_lockL (initlock "kmem")) ;;
  freerange kend PHYSTOP.

(** ** Clients *)

(** Clients of the allocator: [A] lists the pages they own.  They allocate,
    free pages they own, and write whatever they like into pages they own. *)
Inductive kstep : list Z * kmem → list Z * kmem → Prop :=
| kstep_alloc A s p s' :
    kalloc s = Ok p s' → p ≠ 0 → kstep (A, s) (p :: A, s')
| kstep_none A s s' :
    kalloc s = Ok 0 s' → kstep (A, s) (A, s')
| kstep_free A1 A2 p s s' :
    kfree p s = Ok tt s' → kstep (A1 ++ p :: A2, s) (A1 ++ A2, s')
| kstep_write A s m' :
    (∀ x, (∀ p, p ∈ A → x < p ∨ p + PGSIZE ≤ x) → ldb m' x = ldb (pmem s) x) →
    kstep (A, s) (A, set_pmem m' s).

(** * The free list *)

(** An address [kalloc] may return. *)
Definition page_ok (p : Z) : Prop := page_aligned p ∧ kend ≤ p < PHYSTOP.

Fixpoint flist (m : mem) (p : Z) (l : list Z) : Prop :=
  match l with
  | [] => p = 0
  | q :: l' => p = q ∧ flist m (load64 m q) l'
  end.

Record kmem_inv (l : list Z) (s : kmem) : Prop := {
  ki_lock : unlocked (kmem_lock s);
  ki_list : flist (pmem s) (freelist s) l;
  ki_nodup : NoDup l;
  ki_pages : Forall page_ok l;
}.

(** Two memories agree outside a page. *)
Definition same_outside (p : Z) (m m' : mem) : Prop :=
  ∀ x, x < p ∨ p + PGSIZE ≤ x → ldb m' x = ldb m x.

Lemma flist_frame m m' p l :
  (∀ q, q ∈ l → load64 m' q = load64 m q) → flist m p l → flist m' p l.
Proof.
  revert p. induction l as [|q l IH]; intros p Hq; cbn; [done|].
  intros [-> Hl]. split; [done|]. rewrite Hq by set_solver.
  apply IH; [|done]. intros; apply Hq; set_solver.
Qed.

Lemma pages_disjoint p q :
  page_aligned p → page_aligned q → p ≠ q → disjoint_ranges p PGSIZE q PGSIZE.
Proof. unfold page_aligned, disjoint_ranges, PGSIZE. intros. dlia. Qed.

Lemma load64_outside p q m m' :
  page_aligned p → page_aligned q → p ≠ q → same_outside p m m' →
  load64 m' q = load64 m q.
Proof.
  intros Hp Hq Hne Hs. apply (load_ext 8). intros x Hx. apply Hs.
  pose proof (pages_disjoint p q Hp Hq Hne) as Hd. unfold disjoint_ranges, PGSIZE in *. lia.
Qed.

Lemma same_outside_memset p m c : same_outside p m (memset m p c PGSIZE).
Proof.
  intros x Hx. rewrite memset_spec by (unfold PGSIZE; lia). by rewrite decide_False by lia.
Qed.

Lemma same_outside_store64 p m v : same_outside p m (store64 m p v).
Proof. intros x Hx. apply (ldb_store 8). unfold PGSIZE in *. lia. Qed.

Lemma same_outside_trans p m1 m2 m3 :
  same_outside p m1 m2 → same_outside p m2 m3 → same_outside p m1 m3.
Proof. intros H1 H2 x Hx. rewrite H2, H1 by done. done. Qed.

Lemma flist_outside p m m' q l :
  page_aligned p → p ∉ l → Forall page_ok l → same_outside p m m' →
  flist m q l → flist m' q l.
Proof.
  intros Hp Hnin Hall Hs. apply flist_frame. intros r Hr. eapply load64_outside; [done| |set_solver|done].
  rewrite Forall_forall in Hall. by apply Hall.
Qed.

Context (Hend : 0 < kend).

Lemma page_ok_pos p : page_ok p → 0 < p < 18446744073709551616.
Proof. unfold page_ok, PHYSTOP, KERNBASE. lia. Qed.

Lemma kfree_ok p l s :
  kmem_inv l s → page_ok p → p ∉ l →
  ∃ s', kfree p s = Ok tt s' ∧ kmem_inv (p :: l) s' ∧ same_outside p (pmem s) (pmem s').
Proof.
  intros [Hlk Hl Hnd Hall] Hp Hnin. destruct s as [lk fl m]. cbn in *.
  apply unlocked_eq in Hlk. unfold kfree. destruct Hp as [Hpa Hpr].
  unfold page_aligned in Hpa. rewrite Hpa.
  destruct (p <? kend) eqn:?; [lia|]. destruct (PHYSTOP <=? p) eqn:?; [lia|]. cbn.
  unfold bind, zoom, modify. cbn. rewrite Hlk. cbn.
  rewrite release_lk_ok. eexists. split; [done|].
  assert (same_outside p m (store64 (memset m p 1 PGSIZE) p fl)) as Hs.
  { eapply same_outside_trans; [apply same_outside_memset | apply same_outside_store64]. }
  split; [|done]. split; cbn.
  - done.
  - split; [done|]. rewrite load64_store64_eq.
    assert (u64 fl = fl) as ->.
    { apply u64_id. destruct l as [|q l]; cbn in Hl; [subst; lia|].
      destruct Hl as [-> _]. inversion Hall as [|? ? Hq]; subst.
      pose proof (page_ok_pos q Hq). lia. }
    eapply flist_outside; eauto.
  - by constructor.
  - constructor; [done|]. done.
Qed.

Lemma kfree_panics p s : ¬ page_ok p → kfree p s = Panic "kfree".
Proof.
  intros Hp. unfold kfree.
  destruct (p mod PGSIZE =? 0) eqn:?, (p <? kend) eqn:?, (PHYSTOP <=? p) eqn:?; try done.
  exfalso. apply Hp. unfold page_ok, page_aligned. lia.
Qed.

Lemma kalloc_nil s : kmem_inv [] s → kalloc s = Ok 0 s.
Proof.
  intros [Hlk Hl Hnd Hall]. destruct s as [lk fl m]. cbn in *. subst.
  apply unlocked_eq in Hlk. unfold kalloc, bind, zoom, gets, ret. cbn. rewrite Hlk. cbn.
  by rewrite release_lk_ok.
Qed.

Lemma kalloc_cons p l s :
  kmem_inv (p :: l) s →
  ∃ s', kalloc s = Ok p s' ∧ kmem_inv l s' ∧ same_outside p (pmem s) (pmem s') ∧
        (∀ x, p ≤ x < p + PGSIZE → ldb (pmem s') x = 5).
Proof.
  intros [Hlk Hl Hnd Hall]. destruct s as [lk fl m]. cbn in *. destruct Hl as [-> Hl].
  inversion Hall as [|? ? Hp Hall']; subst. inversion Hnd as [|? ? Hnin Hnd']; subst.
  pose proof (page_ok_pos p Hp).
  apply unlocked_eq in Hlk. unfold kalloc, bind, zoom, gets, ret. cbn.
  rewrite Hlk. cbn.
  destruct (p =? 0) eqn:?; [lia|]. cbn. rewrite release_lk_ok.
  eexists. split; [done|]. split_and!; cbn.
  - split; cbn; try done.
    eapply flist_outside; eauto using same_outside_memset. apply Hp.
  - apply same_outside_memset.
  - intros x Hx. rewrite memset_spec by (unfold PGSIZE; lia). by rewrite decide_True.
Qed.

(** * Initialisation *)

(** The pages [freerange] visits from [p] on, [n] of them, as they end up on
    the list: the last one first. *)
Fixpoint pages_from (p : Z) (n : nat) (l : list Z) : list Z :=
  match n with
  | O => l
  | S n' => pages_from (p + PGSIZE) n' (p :: l)
  end.

Lemma elem_of_pages_from n p l q :
  q ∈ pages_from p n l ↔ q ∈ l ∨ ∃ i, 0 ≤ i < Z.of_nat n ∧ q = p + i * PGSIZE.
Proof.
  revert p l. induction n as [|n IH]; intros p l; cbn [pages_from].
  - split; [by left|]. intros [|(i & Hi & _)]; [done|lia].
  - rewrite IH, elem_of_cons. split.
    + intros [[->|H]|(i & Hi & ->)]; [right; exists 0; lia | by left | right; exists (i + 1); lia].
    + intros [H|(i & Hi & ->)]; [by auto|]. destruct (decide (i = 0)) as [->|].
      * left. left. lia.
      * right. exists (i - 1). lia.
Qed.

Lemma freerange_loop_ok n p l s pa_end :
  kmem_inv l s → page_aligned p → kend ≤ p → pa_end ≤ PHYSTOP →
  p + Z.of_nat n * PGSIZE ≤ pa_end < p + (Z.of_nat n + 1) * PGSIZE →
  Forall (λ q, q < p) l →
  ∀ fuel, (n < fuel)%nat →
  ∃ s', freerange_loop fuel p pa_end s = Ok tt s' ∧ kmem_inv (pages_from p n l) s'.
Proof.
  revert p l s. induction n as [|n IH]; intros p l s Hi Hpa Hkp Hend' Hn Hlt [|fuel] Hf;
    try lia; cbn [freerange_loop pages_from].
  - destruct (p + PGSIZE <=? pa_end) eqn:?; [unfold PGSIZE in *; lia|]. by exists s.
  - destruct (p + PGSIZE <=? pa_end) eqn:?; [|unfold PGSIZE in *; lia].
    destruct (kfree_ok p l s Hi) as (s1 & H1 & Hi1 & _).
    { split; [done|]. unfold PGSIZE in *. lia. }
    { rewrite Forall_forall in Hlt. intros Hin. specialize (Hlt p Hin). lia. }
    rewrite (bind_ok _ _ _ _ _ H1). apply IH; try done.
    + unfold page_aligned, PGSIZE in *. dlia.
    + unfold PGSIZE. lia.
    + lia.
    + constructor; [unfold PGSIZE; lia|]. eapply Forall_impl; [done|]. cbn. unfold PGSIZE. lia.
    + lia.
Qed.

(** The pages between [end] and [PHYSTOP]. *)
Definition managed : list Z :=
  pages_from (PGROUNDUP kend) (Z.to_nat ((PHYSTOP - PGROUNDUP kend) / PGSIZE)) [].

Context (Hstop : kend ≤ PHYSTOP).

Lemma kend_roundup :
  page_aligned (PGROUNDUP kend) ∧ kend ≤ PGROUNDUP kend < kend + PGSIZE ∧
  PGROUNDUP kend ≤ PHYSTOP.
Proof.
  assert (kend ≤ PGROUNDUP kend < kend + PGSIZE) as Hle.
  { apply PGROUNDUP_le; [lia|]. unfold PHYSTOP, KERNBASE, PGSIZE in *. lia. }
  pose proof (PGROUNDUP_aligned kend) as Ha. split; [done|]. split; [done|].
  unfold page_aligned, PHYSTOP, KERNBASE, PGSIZE in *. dlia.
Qed.

Lemma elem_of_managed p : p ∈ managed ↔ page_ok p.
Proof.
  destruct kend_roundup as (Ha & Hr & Hs). unfold managed, page_ok.
  rewrite elem_of_pages_from. unfold page_aligned, PHYSTOP, KERNBASE, PGSIZE in *. split.
  - intros [H|(i & Hi & ->)]; [by apply elem_of_nil in H|]. dlia.
  - intros [H1 H2]. right. exists ((p - PGROUNDUP kend) / 4096). dlia.
Qed.

Lemma kinit_ok s :
  freelist s = 0 → ∃ s', kinit s = Ok tt s' ∧ kmem_inv managed s'.
Proof.
  intros Hz. destruct kend_roundup as (Ha & Hr & Hs). unfold kinit, freerange, managed, bind, modify.
  apply freerange_loop_ok; try done.
  - split; cbn; try done; constructor.
  - lia.
  - unfold PGSIZE in *. dlia.
  - unfold PGSIZE in *. dlia.
Qed.

Definition kinv (st : list Z * kmem) : Prop :=
  ∃ l, kmem_inv l st.2 ∧ NoDup (st.1 ++ l) ∧ ∀ p, p ∈ st.1 ++ l ↔ page_ok p.

Lemma kinv_step st st' : kinv st → kstep st st' → kinv st'.
Proof.
  intros (l & Hi & Hnd & Hall) Hst. destruct Hst as [A s p s' Hk Hp|A s s' Hk|A1 A2 p s s' Hk|A s m' Hm].
  - destruct l as [|q l]; cbn in *.
    { rewrite kalloc_nil in Hk by done. congruence. }
    destruct (kalloc_cons q l s Hi) as (s1 & Hk1 & Hi1 & _). det.
    exists l. cbn. assert (A ++ q :: l ≡ₚ q :: A ++ l) as HP by (by rewrite Permutation_middle).
    split_and!; [done | by rewrite <-HP |]. intros r. by rewrite <-Hall, HP.
  - destruct l as [|q l]; cbn in *.
    { rewrite kalloc_nil in Hk by done. simplify_eq. exists []. by split_and!. }
    destruct (kalloc_cons q l s Hi) as (s1 & Hk1 & Hi1 & _). det.
    inversion Hi as [? ? ? Hpg]. inversion Hpg as [|? ? Hq]; subst.
    pose proof (page_ok_pos 0 Hq). lia.
  - cbn in *. assert (((A1 ++ p :: A2) ++ l) ≡ₚ (A1 ++ A2) ++ p :: l) as HP.
    { rewrite <-!app_assoc. cbn. by rewrite <-Permutation_middle, <-!Permutation_middle. }
    rewrite HP in Hnd. assert (page_ok p) as Hp by (apply Hall; set_solver).
    apply NoDup_app in Hnd as Hnd'. destruct Hnd' as (_ & _ & Hnd2).
    apply NoDup_cons in Hnd2 as [Hnin _].
    destruct (kfree_ok p l s Hi Hp Hnin) as (s1 & Hk1 & Hi1 & _). det.
    exists (p :: l). cbn. split_and!; [done|done|]. intros r. by rewrite <-Hall, HP.
  - exists l. cbn in *. split_and!; [|done|done]. destruct Hi as [Hlk Hl Hnd1 Hpg].
    split; cbn; try done. eapply flist_frame; [|done]. intros q Hq.
    apply (load_ext 8). intros x Hx. apply Hm. intros r Hr.
    assert (page_aligned q ∧ page_aligned r) as [Hqa Hra].
    { split; apply Hall; set_solver. }
    assert (q ≠ r) as Hne. { apply NoDup_app in Hnd as (_ & Hd & _). set_solver. }
    pose proof (pages_disjoint q r Hqa Hra Hne) as Hd. unfold disjoint_ranges, PGSIZE in *. lia.
Qed.

Lemma kinv_reachable s0 st :
  kmem_inv managed s0 → rtc kstep ([], s0) st → kinv st.
Proof.
  intros Hi Hr.
  assert (kinv ([], s0)) as H0.
  { exists managed. cbn. split_and!; [done|apply Hi|apply elem_of_managed]. }
  remember ([], s0) as st0 eqn:E. clear E. induction Hr; eauto using kinv_step.
Qed.

End kalloc.

Arguments flist _ _ !_ /.

(** * Theorems *)

(** [kinit] builds a free list that holds every page between [end] and
    [PHYSTOP] exactly once and nothing else, whatever memory contained. *)
Theorem kinit_spec me kend s :
  0 < kend ≤ PHYSTOP → freelist s = 0 →
  ∃ s' l, kinit me kend s = Ok tt s' ∧ kmem_inv kend l s' ∧
          ∀ p, p ∈ l ↔ page_aligned p ∧ kend ≤ p < PHYSTOP.
Proof.
  intros [H0 H1] Hf. destruct (kinit_ok me kend H0 H1 s Hf) as (s' & Hk & Hi).
  exists s', (managed kend). split_and!; [done..|]. by apply elem_of_managed.
Qed.

Definition demo_mem : kmem := mkkmem (initlock "kmem") 0 (λ a, a).

Lemma kinit_spec_witness :
  ∃ s' l, kinit 0 (PHYSTOP - 8000) demo_mem = Ok tt s' ∧ kmem_inv (PHYSTOP - 8000) l s'.
Proof.
  destruct (kinit_spec 0 (PHYSTOP - 8000) demo_mem) as (s' & l & H1 & H2 & _).
  - unfold PHYSTOP, KERNBASE. lia.
  - reflexivity.
  - by exists s', l.
Defined.

(** [kalloc] pops the free list: it returns 0 and changes nothing when the
    list is empty, and otherwise returns its first page, which is removed from
    the list, filled with 5s, and the only memory that changes.  [kfree] of a
    page that is not on the list pushes it, and any address that is not a
    managed page makes it panic. *)
Theorem kalloc_kfree_spec me kend s l :
  0 < kend → kmem_inv kend l s →
  (match l with
   | [] => kalloc me s = Ok 0 s
   | p :: l' => ∃ s', kalloc me s = Ok p s' ∧ kmem_inv kend l' s' ∧ (p ∉ l') ∧
       same_outside p (pmem s) (pmem s') ∧
       (∀ x, p ≤ x < p + PGSIZE → ldb (pmem s') x = 5)
   end) ∧
  (∀ p, page_ok kend p → p ∉ l →
     ∃ s', kfree me kend p s = Ok tt s' ∧ kmem_inv kend (p :: l) s' ∧
           same_outside p (pmem s) (pmem s')) ∧
  (∀ p, ¬ page_ok kend p → kfree me kend p s = Panic "kfree").
Proof.
  intros H0 Hi. split_and!.
  - destruct l as [|p l]; [by eapply kalloc_nil|].
    destruct (kalloc_cons me kend H0 p l s Hi) as (s' & H1 & H2 & H3 & H4).
    exists s'. split_and!; try done.
    pose proof (ki_nodup _ _ _ Hi) as Hnd. by apply NoDup_cons in Hnd as [? _].
  - intros p Hp Hn. by apply kfree_ok.
  - intros p Hp. by apply kfree_panics.
Qed.

Lemma kalloc_kfree_spec_witness :
  kalloc 0 demo_mem = Ok 0 demo_mem.
Proof.
  apply (kalloc_kfree_spec 0 KERNBASE demo_mem []).
  - unfold KERNBASE. lia.
  - split; cbn; try done; constructor.
Defined.

(** C4: No page is ever handed out twice.  After [kinit], in every sequence of
    allocations, frees of owned pages and arbitrary writes into owned pages,
    the owned pages and the free list partition the pages between [end] and
    [PHYSTOP]; hence [kalloc] returns a managed page that nobody owns, and
    returns 0 only when every page is owned. *)
Theorem kalloc_never_aliases me kend s0 A s :
  0 < kend ≤ PHYSTOP → kmem_inv kend (managed kend) s0 →
  rtc (kstep me kend) ([], s0) (A, s) →
  NoDup A ∧ Forall (page_ok kend) A ∧
  ∃ p s', kalloc me s = Ok p s' ∧
    (p = 0 ∧ (∀ q, page_ok kend q → q ∈ A) ∨ page_ok kend p ∧ p ∉ A).
Proof.
  intros [H0 H1] Hi Hr.
  destruct (kinv_reachable me kend H0 H1 s0 (A, s) Hi Hr) as (l & Hl & Hnd & Hall). cbn in *.
  apply NoDup_app in Hnd as (HA & Hd & _). split_and!; [done| |].
  - rewrite Forall_forall. intros p Hp. apply Hall. set_solver.
  - destruct l as [|p l].
    + exists 0, s. split; [by eapply kalloc_nil|]. left. split; [done|].
      intros q Hq. apply Hall in Hq. set_solver.
    + destruct (kalloc_cons me kend H0 p l s Hl) as (s' & Hk & _).
      exists p, s'. split; [done|]. right. split; [apply Hall; set_solver|set_solver].
Qed.

Lemma kalloc_never_aliases_witness :
  ∃ s0 p s', kalloc 0 s0 = Ok p s' ∧ page_ok (PHYSTOP - 8192) p.
Proof.
  destruct (kinit_ok 0 (PHYSTOP - 8192)) with (s := demo_mem) as (s0 & _ & Hi);
    [unfold PHYSTOP, KERNBASE; lia..|reflexivity|].
  destruct (kalloc_never_aliases 0 (PHYSTOP - 8192) s0 [] s0) as (_ & _ & p & s' & H & H').
  - unfold PHYSTOP, KERNBASE. lia.
  - exact Hi.
  - apply rtc_refl.
  - exists s0, p, s'. split; [exact H|]. destruct H' as [[_ H']|[H' _]]; [|exact H'].
    exfalso. apply (not_elem_of_nil (PHYSTOP - 4096)). apply H'. split; [reflexivity|].
    unfold PHYSTOP, KERNBASE. lia.
Defined.
