(* ===== verification/Vm.v ===== *)
(** kernel/vm.c: page tables and copies between the kernel and user memory.

    A page table is what it is in the source: a tree of pages in physical
    memory, reached from the address of its root.  The state is that of the
    page allocator, [kmem], whose memory holds the tables and the user's pages.
    [psz] and [ppt] are [myproc()->sz] and [myproc()->pagetable].

    The kernel side of a copy is a list of bytes: what [copyout] takes from
    [src] and what [copyin] and [copyinstr] put at [dst], which the caller
    places in the part of the kernel's state that [dst] points to. *)

From stdpp Require Import base tactics list numbers strings.
From S2P Require Import Prelude Param Bytes CString Spinlock Kalloc.
From Stdlib Require Import ZArith Lia.

Open Scope kernel_scope.

(** [x & flag] as a condition. *)
Definition has (x flag : Z) : bool := negb (Z.land x flag =? 0).

Section vm.
  Context (me kend : Z).

Abbreviation VM := (M kmem).

Definition kalloc_ : VM Z := kalloc me.
Definition kfree_ (pa : Z) : VM unit := kfree me kend pa.

(** Loads and stores of page table entries, and [memset]. *)
Definition ldpte (pte : Z) : VM Z := gets (λ s, load64 (pmem s) pte).
Definition stpte (pte v : Z) : VM unit := modify (λ s, set_pmem (store64 (pmem s) pte v) s).
Definition memset_ (dst c n : Z) : VM unit := modify (λ s, set_pmem (memset (pmem s) dst c n) s).

(** One turn of the loop of [walk]: the table of the next level. *)
Definition walk_level (level pagetable va alloc : Z) : VM (option Z) :=
  let pte := pagetable + 8 * PX level va in
  v <- ldpte pte ;;
  if has v PTE_V then ret (Some (PTE2PA v))
  else if alloc =? 0 then ret None
  else
    pagetable <- kalloc_ ;;
    if pagetable =? 0 then ret None
    else
      memset_ pagetable 0 PGSIZE ;;
      stpte pte (Z.lor (PA2PTE pagetable) PTE_V) ;;
      ret (Some pagetable).

(** The address of the entry of [va], or 0. *)
Definition walk (pagetable va alloc : Z) : VM Z :=
  if MAXVA <=? va then panic "walk"
  else
    r <- walk_level 2 pagetable va alloc ;;
    match r with
    | None => ret 0
    | Some pagetable =>
        r <- walk_level 1 pagetable va alloc ;;
        match r with
        | None => ret 0
        | Some pagetable => ret (pagetable + 8 * PX 0 va)
        end
    end.

Definition walkaddr (pagetable va : Z) : VM Z :=
  if MAXVA <=? va then ret 0
  else
    pte <- walk pagetable va 0 ;;
    if pte =? 0 then ret 0
    else
      v <- ldpte pte ;;
      if negb (has v PTE_V) then ret 0
      else if negb (has v PTE_U) then ret 0
      else ret (PTE2PA v).

Fixpoint mappages_loop (fuel : nat) (pagetable a last pa perm : Z) : VM Z :=
  match fuel with
  | O => λ _, OutOfFuel
  | S fuel' =>
      pte <- walk pagetable a 1 ;;
      if pte =? 0 then ret (-1)
      else
        v <- ldpte pte ;;
        if has v PTE_V then panic "mappages: remap"
        else
          stpte pte (Z.lor (Z.lor (PA2PTE pa) perm) PTE_V) ;;
          if a =? last then ret 0
          else mappages_loop fuel' pagetable (u64 (a + PGSIZE)) last (u64 (pa + PGSIZE)) perm
  end.

Definition mappages (pagetable va size pa perm : Z) : VM Z :=
  if negb (va mod PGSIZE =? 0) then panic "mappages: va not aligned"
  else if negb (size mod PGSIZE =? 0) then panic "mappages: size not aligned"
  else if size =? 0 then panic "mappages: size"
  else mappages_loop (Z.to_nat (size / PGSIZE)) pagetable va (u64 (va + size - PGSIZE)) pa perm.

Definition kvmmap (kpgtbl va pa sz perm : Z) : VM unit :=
  r <- mappages kpgtbl va sz pa perm ;;
  if negb (r =? 0) then panic "kvmmap" else ret tt.

(** kernel/proc.c: a page for the kernel stack of each process, with an unmapped
    page below it. *)
Definition proc_mapstacks (kpgtbl : Z) : VM unit :=
  for_up (R := unit) (Z.to_nat NPROC) 0 (λ p,
    pa <- kalloc_ ;;
    if pa =? 0 then panic "kalloc"
    else
      kvmmap kpgtbl (KSTACK p) pa PGSIZE (Z.lor PTE_R PTE_W) ;;
      ret Next) ;;
  ret tt.

(** [etext] and [trampoline] come from the linker script. *)
Definition kvmmake (etext trampoline : Z) : VM Z :=
  kpgtbl <- kalloc_ ;;
  memset_ kpgtbl 0 PGSIZE ;;
  kvmmap kpgtbl UART0 UART0 PGSIZE (Z.lor PTE_R PTE_W) ;;
  kvmmap kpgtbl VIRTIO0 VIRTIO0 PGSIZE (Z.lor PTE_R PTE_W) ;;
  kvmmap kpgtbl PLIC PLIC 67108864 (Z.lor PTE_R PTE_W) ;;
  kvmmap kpgtbl KERNBASE KERNBASE (etext - KERNBASE) (Z.lor PTE_R PTE_X) ;;
  kvmmap kpgtbl etext etext (PHYSTOP - etext) (Z.lor PTE_R PTE_W) ;;
  kvmmap kpgtbl TRAMPOLINE trampoline PGSIZE (Z.lor PTE_R PTE_X) ;;
  proc_mapstacks kpgtbl ;;
  ret kpgtbl.

(** The new value of [kernel_pagetable]. *)
Definition kvminit (etext trampoline : Z) : VM Z := kvmmake etext trampoline.

Definition uvmcreate : VM Z :=
  pagetable <- kalloc_ ;;
  if pagetable =? 0 then ret 0
  else memset_ pagetable 0 PGSIZE ;; ret pagetable.

Fixpoint uvmunmap_loop (fuel : nat) (pagetable a last do_free : Z) : VM unit :=
  match fuel with
  | O => λ _, OutOfFuel
  | S fuel' =>
      if negb (a <? last) then ret tt
      else
        pte <- walk pagetable a 0 ;;
        (if pte =? 0 then ret tt
         else
           v <- ldpte pte ;;
           if negb (has v PTE_V) then ret tt
           else
             (if negb (do_free =? 0) then kfree_ (PTE2PA v) else ret tt) ;;
             stpte pte 0) ;;
        uvmunmap_loop fuel' pagetable (u64 (a + PGSIZE)) last do_free
  end.

Definition uvmunmap (pagetable va npages do_free : Z) : VM unit :=
  if negb (va mod PGSIZE =? 0) then panic "uvmunmap: not aligned"
  else uvmunmap_loop (Z.to_nat (npages + 1)) pagetable va (u64 (va + npages * PGSIZE)) do_free.

Definition uvmdealloc (pagetable oldsz newsz : Z) : VM Z :=
  if oldsz <=? newsz then ret oldsz
  else
    (if PGROUNDUP newsz <? PGROUNDUP oldsz
     then uvmunmap pagetable (PGROUNDUP newsz) (u64 (s32 ((PGROUNDUP oldsz - PGROUNDUP newsz) / PGSIZE))) 1
     else ret tt) ;;
    ret newsz.

Fixpoint uvmalloc_loop (fuel : nat) (pagetable a oldsz newsz xperm : Z) : VM Z :=
  match fuel with
  | O => λ _, OutOfFuel
  | S fuel' =>
      if negb (a <? newsz) then ret newsz
      else
        mem <- kalloc_ ;;
        if mem =? 0 then uvmdealloc pagetable a oldsz ;; ret 0
        else
          memset_ mem 0 PGSIZE ;;
          r <- mappages pagetable a PGSIZE mem (Z.lor (Z.lor PTE_R PTE_U) xperm) ;;
          if negb (r =? 0)
          then kfree_ mem ;; uvmdealloc pagetable a oldsz ;; ret 0
          else uvmalloc_loop fuel' pagetable (u64 (a + PGSIZE)) oldsz newsz xperm
  end.

Definition uvmalloc (pagetable oldsz newsz xperm : Z) : VM Z :=
  if newsz <? oldsz then ret oldsz
  else
    let oldsz := PGROUNDUP oldsz in
    uvmalloc_loop (Z.to_nat ((newsz - oldsz) / PGSIZE + 2)) pagetable oldsz oldsz newsz xperm.

(** [depth] bounds the recursion: a table has three levels. *)
Fixpoint freewalk (depth : nat) (pagetable : Z) : VM unit :=
  match depth with
  | O => λ _, OutOfFuel
  | S depth' =>
      for_up (R := unit) 512 0 (λ i,
        pte <- ldpte (pagetable + 8 * i) ;;
        if has pte PTE_V && (Z.land pte (Z.lor (Z.lor PTE_R PTE_W) PTE_X) =? 0)
        then
          freewalk depth' (PTE2PA pte) ;;
          stpte (pagetable + 8 * i) 0 ;;
          ret Next
        else if has pte PTE_V then panic "freewalk: leaf"
        else ret Next) ;;
      kfree_ pagetable
  end.

Definition uvmfree (pagetable sz : Z) : VM unit :=
  (if 0 <? sz then uvmunmap pagetable 0 (PGROUNDUP sz / PGSIZE) 1 else ret tt) ;;
  freewalk 3 pagetable.

Fixpoint uvmcopy_loop (fuel : nat) (old new i sz : Z) : VM Z :=
  match fuel with
  | O => λ _, OutOfFuel
  | S fuel' =>
      if negb (i <? sz) then ret 0
      else
        pte <- walk old i 0 ;;
        if pte =? 0 then uvmcopy_loop fuel' old new (u64 (i + PGSIZE)) sz
        else
          v <- ldpte pte ;;
          if negb (has v PTE_V) then uvmcopy_loop fuel' old new (u64 (i + PGSIZE)) sz
          else
            mem <- kalloc_ ;;
            if mem =? 0 then uvmunmap new 0 (i / PGSIZE) 1 ;; ret (-1)
            else
              modify (λ s, set_pmem (memmove (pmem s) mem (PTE2PA v) PGSIZE) s) ;;
              r <- mappages new i PGSIZE mem (PTE_FLAGS v) ;;
              if negb (r =? 0)
              then kfree_ mem ;; uvmunmap new 0 (i / PGSIZE) 1 ;; ret (-1)
              else uvmcopy_loop fuel' old new (u64 (i + PGSIZE)) sz
  end.

Definition uvmcopy (old new sz : Z) : VM Z :=
  uvmcopy_loop (Z.to_nat (sz / PGSIZE + 2)) old new 0 sz.

Definition uvmclear (pagetable va : Z) : VM unit :=
  pte <- walk pagetable va 0 ;;
  if pte =? 0 then panic "uvmclear"
  else
    v <- ldpte pte ;;
    stpte pte (Z.land v (Z.lnot PTE_U)).

Definition ismapped (pagetable va : Z) : VM Z :=
  pte <- walk pagetable va 0 ;;
  if pte =? 0 then ret 0
  else
    v <- ldpte pte ;;
    if has v PTE_V then ret 1 else ret 0.

(** ** Copies *)

Context (psz ppt : Z).

Definition vmfault (pagetable va read : Z) : VM Z :=
  if psz <=? va then ret 0
  else
    let va := PGROUNDDOWN va in
    r <- ismapped pagetable va ;;
    if negb (r =? 0) then ret 0
    else
      mem <- kalloc_ ;;
      if mem =? 0 then ret 0
      else
        memset_ mem 0 PGSIZE ;;
        r <- mappages ppt va PGSIZE mem (Z.lor (Z.lor PTE_W PTE_U) PTE_R) ;;
        if negb (r =? 0) then kfree_ mem ;; ret 0 else ret mem.

(** The page at [va0], faulted in when it is missing; 0 when that fails. *)
Definition user_page (pagetable va0 : Z) : VM Z :=
  pa0 <- walkaddr pagetable va0 ;;
  if pa0 =? 0 then vmfault pagetable va0 0 else ret pa0.

Fixpoint copyout_loop (fuel : nat) (pagetable dstva : Z) (src : list Z) : VM Z :=
  match fuel with
  | O => λ _, OutOfFuel
  | S fuel' =>
      if len src =? 0 then ret 0
      else
        let va0 := PGROUNDDOWN dstva in
        if MAXVA <=? va0 then ret (-1)
        else
          pa0 <- user_page pagetable va0 ;;
          if pa0 =? 0 then ret (-1)
          else
            pte <- walk pagetable va0 0 ;;
            v <- ldpte pte ;;
            if negb (has v PTE_W) then ret (-1)
            else
              let n := Z.min (len src) (PGSIZE - (dstva - va0)) in
              modify (λ s, set_pmem (mem_write (pmem s) (pa0 + (dstva - va0)) (take (Z.to_nat n) src)) s) ;;
              copyout_loop fuel' pagetable (u64 (va0 + PGSIZE)) (drop (Z.to_nat n) src)
  end.

(** Enough rounds for [n] bytes: a whole page each, but the first and the last. *)
Definition copy_fuel (n : Z) : nat := Z.to_nat (n / PGSIZE + 3).

Definition copyout (pagetable dstva : Z) (src : list Z) : VM Z :=
  copyout_loop (copy_fuel (len src)) pagetable dstva src.

(** [acc] has been copied so far. *)
Fixpoint copyin_loop (fuel : nat) (pagetable srcva n : Z) (acc : list Z) : VM (Z * list Z) :=
  match fuel with
  | O => λ _, OutOfFuel
  | S fuel' =>
      if n =? 0 then ret (0, acc)
      else
        let va0 := PGROUNDDOWN srcva in
        pa0 <- user_page pagetable va0 ;;
        if pa0 =? 0 then ret (-1, acc)
        else
          let k := Z.min n (PGSIZE - (srcva - va0)) in
          bs <- gets (λ s, mem_read (pmem s) (pa0 + (srcva - va0)) (Z.to_nat k)) ;;
          copyin_loop fuel' pagetable (u64 (va0 + PGSIZE)) (n - k) (acc ++ bs)
  end.

Definition copyin (pagetable srcva n : Z) : VM (Z * list Z) :=
  copyin_loop (copy_fuel n) pagetable srcva n [].

(** The inner loop of [copyinstr]: the bytes copied and whether a NUL was met. *)
Fixpoint copy_str (n : nat) (m : mem) (p : Z) : list Z * bool :=
  match n with
  | O => ([], false)
  | S n' =>
      if ldb m p =? 0 then ([0], true)
      else let (bs, got) := copy_str n' m (p + 1) in (ldb m p :: bs, got)
  end.

Fixpoint copyinstr_loop (fuel : nat) (pagetable srcva max : Z) (acc : list Z) : VM (Z * list Z) :=
  match fuel with
  | O => λ _, OutOfFuel
  | S fuel' =>
      if max =? 0 then ret (-1, acc)
      else
        let va0 := PGROUNDDOWN srcva in
        pa0 <- walkaddr pagetable va0 ;;
        if pa0 =? 0 then ret (-1, acc)
        else
          let n := Z.min max (PGSIZE - (srcva - va0)) in
          ' (bs, got_null) <- gets (λ s, copy_str (Z.to_nat n) (pmem s) (pa0 + (srcva - va0))) ;;
          if (got_null : bool) then ret (0, acc ++ bs)
          else copyinstr_loop fuel' pagetable (u64 (va0 + PGSIZE)) (max - n) (acc ++ bs)
  end.

Definition copyinstr (pagetable srcva max : Z) : VM (Z * list Z) :=
  copyinstr_loop (copy_fuel max) pagetable srcva max [].
End vm.
