(* ===== verification/VmTree.v ===== *)
(** kernel/vm.c: the page table as a tree.

    [ptree] names the pages of a table: the root, the second level and the
    third.  [pt_inv m T] says that the memory [m] holds the tree [T]; [entry m T v]
    is the entry of virtual page [v].  [walk] is shown to find entries and to
    add missing table pages from the free list without changing any entry,
    [mappages] to set the entries of its range and no others. *)

From stdpp Require Import base tactics list numbers strings gmap.
From S2P Require Import Prelude Param Bytes CString Spinlock Kalloc Vm.
From Stdlib Require Import ZArith Lia.

Open Scope kernel_scope.

(** * Entries *)

Lemma has_bit x k : 0 ≤ k → has x (Z.shiftl 1 k) = Z.testbit x k.
Proof.
  intros Hk. unfold has. destruct (Z.testbit x k) eqn:E.
  - apply negb_true_iff, Z.eqb_neq. intros H. apply (f_equal (λ y, Z.testbit y k)) in H.
    rewrite Z.land_spec, E, Z.shiftl_spec, Z.sub_diag, Z.bits_0 in H by lia. done.
  - apply negb_false_iff, Z.eqb_eq, Z.bits_inj'. intros j Hj.
    rewrite Z.land_spec, Z.bits_0, Z.shiftl_spec by lia. destruct (decide (j = k)) as [->|]; [by rewrite E|].
    destruct (decide (j < k)); [by rewrite (Z.testbit_neg_r 1) by lia; apply andb_false_r|].
    rewrite (Z.bits_above_log2 1 (j - k)) by (cbn; lia). apply andb_false_r.
Qed.

Lemma lor_low x f : 0 ≤ x → 0 ≤ f < 1024 → Z.lor (Z.shiftl x 10) f = x * 1024 + f.
Proof.
  intros Hx Hf. assert (Hz : Z.land (Z.shiftl x 10) f = 0).
  { apply Z.bits_inj'. intros j Hj. rewrite Z.land_spec, Z.bits_0, Z.shiftl_spec by lia.
    destruct (decide (j < 10)); [by rewrite Z.testbit_neg_r by lia|].
    rewrite (Z.bits_above_log2 f j); [apply andb_false_r|lia|].
    destruct (decide (f = 0)) as [->|]; [cbn; lia|]. apply Z.log2_lt_pow2; [lia|].
    assert (2 ^ 10 ≤ 2 ^ j) by (apply Z.pow_le_mono_r; lia). lia. }
  rewrite <-Z.lxor_lor by done. rewrite <-Z.add_nocarry_lxor by done. rewrite Z.shiftl_mul_pow2 by lia. done.
Qed.

Lemma lor_flags f g : 0 ≤ f < 1024 → 0 ≤ g < 1024 → 0 ≤ Z.lor f g < 1024.
Proof.
  intros Hf Hg. split; [by apply Z.lor_nonneg; lia|]. destruct (decide (Z.lor f g = 0)) as [->|]; [lia|].
  assert (0 ≤ Z.lor f g) by (apply Z.lor_nonneg; lia).
  apply (Z.log2_lt_pow2 _ 10); [lia|]. rewrite Z.log2_lor by lia.
  assert (∀ x, 0 ≤ x < 1024 → Z.log2 x < 10) as Hl.
  { intros x Hx. destruct (decide (x = 0)) as [->|]; [done|]. apply Z.log2_lt_pow2; lia. }
  pose proof (Hl f Hf). pose proof (Hl g Hg). lia.
Qed.

(** The entry for the page at [pa] with the flags [f] (the valid bit added). *)
Definition mkpte (pa f : Z) : Z := Z.lor (Z.lor (PA2PTE pa) f) PTE_V.

Definition pa_ok (pa : Z) : Prop := page_aligned pa ∧ 0 ≤ pa < 72057594037927936.

Lemma mkpte_eq pa f : pa_ok pa → 0 ≤ f < 1024 → mkpte pa f = pa / 4096 * 1024 + Z.lor f 1.
Proof.
  intros [Ha Hr] Hf. unfold mkpte, PA2PTE, PTE_V. rewrite <-Z.lor_assoc. change (Z.shiftl 1 0) with 1.
  rewrite lor_low; [|apply Z.shiftr_nonneg; lia|apply lor_flags; lia].
  rewrite Z.shiftr_div_pow2 by lia. done.
Qed.

Lemma mkpte_range pa f : pa_ok pa → 0 ≤ f < 1024 → 0 ≤ mkpte pa f < 18446744073709551616.
Proof.
  intros Hp Hf. rewrite mkpte_eq by done. pose proof (lor_flags f 1 Hf ltac:(lia)). destruct Hp as [_ Hr]. dlia.
Qed.

Lemma PTE2PA_mkpte pa f : pa_ok pa → 0 ≤ f < 1024 → PTE2PA (mkpte pa f) = pa.
Proof.
  intros Hp Hf. unfold PTE2PA. rewrite mkpte_eq by done. pose proof (lor_flags f 1 Hf ltac:(lia)).
  rewrite Z.shiftr_div_pow2, Z.shiftl_mul_pow2 by lia. change (2 ^ 10) with 1024. change (2 ^ 12) with 4096.
  destruct Hp as [Ha Hr]. unfold page_aligned, PGSIZE in Ha.
  replace ((pa / 4096 * 1024 + Z.lor f 1) / 1024) with (pa / 4096) by dlia.
  replace (pa / 4096 * 4096) with pa by dlia. apply u64_id. lia.
Qed.

Lemma testbit_mkpte pa f k : 0 ≤ k < 10 → Z.testbit (mkpte pa f) k = Z.testbit f k || (k =? 0).
Proof.
  intros Hk. unfold mkpte, PA2PTE, PTE_V. rewrite !Z.lor_spec, Z.shiftl_spec by lia.
  rewrite (Z.testbit_neg_r _ (k - 10)) by lia. cbn [orb]. by f_equal.
Qed.

Lemma has_V_mkpte pa f : has (mkpte pa f) PTE_V = true.
Proof. unfold PTE_V. rewrite has_bit by lia. rewrite testbit_mkpte by lia. apply orb_true_r. Qed.

(** Indices. *)
Lemma PX_2 va : 0 ≤ va < MAXVA → PX 2 va = va / 4096 / 512 / 512 ∧ 0 ≤ PX 2 va < 512.
Proof.
  unfold PX, PXSHIFT, PGSHIFT, MAXVA, PXMASK. change (Z.shiftl 1 _) with 274877906944. intros Hva.
  change 511 with (Z.ones 9). rewrite Z.land_ones, Z.shiftr_div_pow2 by lia.
  change (2 ^ (12 + 9 * 2)) with (4096 * 512 * 512). change (2 ^ 9) with 512. dlia.
Qed.

Lemma PX_1 va : 0 ≤ va → PX 1 va = va / 4096 / 512 mod 512.
Proof.
  unfold PX, PXSHIFT, PGSHIFT, PXMASK. intros Hva. change 511 with (Z.ones 9). rewrite Z.land_ones, Z.shiftr_div_pow2 by lia.
  change (2 ^ (12 + 9 * 1)) with (4096 * 512). change (2 ^ 9) with 512. by rewrite <-Z.div_div by lia.
Qed.

Lemma PX_0 va : 0 ≤ va → PX 0 va = va / 4096 mod 512.
Proof.
  unfold PX, PXSHIFT, PGSHIFT, PXMASK. intros Hva. change 511 with (Z.ones 9). rewrite Z.land_ones, Z.shiftr_div_pow2 by lia. done.
Qed.

(** * Trees *)

Record ptree := mkptree {
  pt_root : Z;
  pt_l1 : gmap Z Z;
  pt_l0 : gmap Z Z;
}.

(** The pages of the table itself. *)
Definition tpages (T : ptree) : list Z :=
  pt_root T :: (map_to_list (pt_l1 T)).*2 ++ (map_to_list (pt_l0 T)).*2.

(** The page at [p] is a directory whose entries are given by [sub]. *)
Definition pdir (m : mem) (p : Z) (sub : Z → option Z) : Prop :=
  ∀ i, 0 ≤ i < 512 →
    match sub i with
    | Some q => load64 m (p + 8 * i) = mkpte q 0
    | None => has (load64 m (p + 8 * i)) PTE_V = false
    end.

(** The entry of virtual page [v]: 0 when there is no table page for it. *)
Definition entry (m : mem) (T : ptree) (v : Z) : Z :=
  match pt_l0 T !! (v / 512) with
  | Some q => load64 m (q + 8 * (v mod 512))
  | None => 0
  end.

Section tree.
  Context (me kend : Z) (Hend : 0 < kend).

Record pt_inv (m : mem) (T : ptree) : Prop := {
  pi_root : pdir m (pt_root T) (λ i, pt_l1 T !! i);
  pi_l1 : ∀ i p, pt_l1 T !! i = Some p → 0 ≤ i < 512 ∧ pdir m p (λ j, pt_l0 T !! (i * 512 + j));
  pi_l0 : ∀ k q, pt_l0 T !! k = Some q → is_Some (pt_l1 T !! (k / 512));
}.

(** The table [T] and the free list [l], side by side. *)
Record vm_inv (T : ptree) (l : list Z) (s : kmem) : Prop := {
  vi_pt : pt_inv (pmem s) T;
  vi_free : kmem_inv kend l s;
  vi_nodup : NoDup (tpages T ++ l);
  vi_pages : Forall (page_ok kend) (tpages T);
}.

Lemma page_ok_pa p : page_ok kend p → pa_ok p ∧ p ≠ 0.
Proof. unfold page_ok, pa_ok, PHYSTOP, KERNBASE. intros [H1 H2]. split; [split; [done|]|]; lia. Qed.

Lemma l1_page T i p : pt_l1 T !! i = Some p → p ∈ tpages T.
Proof.
  intros H. unfold tpages. apply elem_of_cons. right. apply elem_of_app. left.
  apply list_elem_of_fmap. exists (i, p). split; [done|]. by apply elem_of_map_to_list.
Qed.

Lemma l0_page T i p : pt_l0 T !! i = Some p → p ∈ tpages T.
Proof.
  intros H. unfold tpages. apply elem_of_cons. right. apply elem_of_app. right.
  apply list_elem_of_fmap. exists (i, p). split; [done|]. by apply elem_of_map_to_list.
Qed.

Lemma root_page T : pt_root T ∈ tpages T.
Proof. by left. Qed.

(** The pages of a tree are all different. *)
Lemma snd_inj (M : gmap Z Z) i j p :
  NoDup (map_to_list M).*2 → M !! i = Some p → M !! j = Some p → i = j.
Proof.
  intros Hnd Hi Hj. apply elem_of_map_to_list, list_elem_of_lookup in Hi as [a Ha].
  apply elem_of_map_to_list, list_elem_of_lookup in Hj as [b Hb].
  assert (a = b) as ->; [|congruence].
  eapply NoDup_lookup; [exact Hnd| |]; rewrite list_lookup_fmap; [by rewrite Ha|by rewrite Hb].
Qed.

Lemma elem_of_values (M : gmap Z Z) i p : M !! i = Some p → p ∈ (map_to_list M).*2.
Proof. intros H. apply list_elem_of_fmap. exists (i, p). split; [done|]. by apply elem_of_map_to_list. Qed.

Record distinct (T : ptree) : Prop := {
  ds_root1 : ∀ i p, pt_l1 T !! i = Some p → p ≠ pt_root T;
  ds_root0 : ∀ k p, pt_l0 T !! k = Some p → p ≠ pt_root T;
  ds_l1 : ∀ i j p, pt_l1 T !! i = Some p → pt_l1 T !! j = Some p → i = j;
  ds_l0 : ∀ i j p, pt_l0 T !! i = Some p → pt_l0 T !! j = Some p → i = j;
  ds_l10 : ∀ i k p q, pt_l1 T !! i = Some p → pt_l0 T !! k = Some q → p ≠ q;
}.

Lemma nodup_distinct T : NoDup (tpages T) → distinct T.
Proof.
  unfold tpages. intros [Hr (H1 & H10 & H0)%NoDup_app]%NoDup_cons. constructor.
  - intros i p Hi ->. apply Hr, elem_of_app. left. by eapply elem_of_values.
  - intros i p Hi ->. apply Hr, elem_of_app. right. by eapply elem_of_values.
  - intros i j p. by apply snd_inj.
  - intros i j p. by apply snd_inj.
  - intros i k p q Hi Hk ->. apply (H10 q); by eapply elem_of_values.
Qed.

(** Memory that agrees on a page. *)
Definition same_page (p : Z) (m m' : mem) : Prop := ∀ x, p ≤ x < p + 4096 → ldb m' x = ldb m x.

Lemma load64_same p i m m' : same_page p m m' → 0 ≤ i < 512 → load64 m' (p + 8 * i) = load64 m (p + 8 * i).
Proof. intros Hs Hi. apply (load_ext 8). intros x Hx. apply Hs. lia. Qed.

Lemma pdir_same p m m' sub : same_page p m m' → pdir m p sub → pdir m' p sub.
Proof. intros Hs Hd i Hi. rewrite (load64_same p i m m') by done. by apply Hd. Qed.

Lemma same_outside_page p q m m' :
  page_aligned p → page_aligned q → p ≠ q → same_outside q m m' → same_page p m m'.
Proof.
  intros Hp Hq Hne Hs x Hx. apply Hs. pose proof (pages_disjoint p q Hp Hq Hne) as Hd.
  unfold disjoint_ranges, PGSIZE in *. lia.
Qed.

(** Writes elsewhere keep the table. *)
Lemma pt_inv_frame m m' T : (∀ p, p ∈ tpages T → same_page p m m') → pt_inv m T → pt_inv m' T.
Proof.
  intros Hs [H1 H2 H3]. constructor; [|intros i p Hi; split|done].
  - eapply pdir_same; [|done]. apply Hs, root_page.
  - by apply (H2 i p).
  - eapply pdir_same; [apply Hs; by eapply l1_page|]. by apply H2.
Qed.

Lemma entry_frame m m' T v : (∀ p, p ∈ tpages T → same_page p m m') → entry m' T v = entry m T v.
Proof.
  intros Hs. unfold entry. destruct (pt_l0 T !! (v / 512)) as [q|] eqn:E; [|done].
  apply load64_same; [apply Hs; by eapply l0_page|]. apply Z.mod_pos_bound. lia.
Qed.

(** ** One level *)

Lemma walk_level_hit level p va alloc s sub q :
  pdir (pmem s) p sub → 0 ≤ PX level va < 512 → sub (PX level va) = Some q → pa_ok q →
  walk_level me level p va alloc s = Ok (Some q) s.
Proof.
  intros Hd Hi Hs Hq. unfold walk_level, ldpte. rewrite bind_gets. specialize (Hd _ Hi). rewrite Hs in Hd.
  rewrite Hd, has_V_mkpte. by rewrite PTE2PA_mkpte by (done || lia).
Qed.

Lemma walk_level_miss level p va s sub :
  pdir (pmem s) p sub → 0 ≤ PX level va < 512 → sub (PX level va) = None → walk_level me level p va 0 s = Ok None s.
Proof.
  intros Hd Hi Hs. unfold walk_level, ldpte. rewrite bind_gets. specialize (Hd _ Hi). rewrite Hs in Hd. by rewrite Hd.
Qed.

(** The directory at [p] after the page [q] was added at [i]. *)
Record added (m m' : mem) (p i q : Z) : Prop := {
  ad_entry : load64 m' (p + 8 * i) = mkpte q 0;
  ad_zero : ∀ x, q ≤ x < q + 4096 → ldb m' x = 0;
  ad_dir : ∀ x, p ≤ x < p + 4096 → x < p + 8 * i ∨ p + 8 * i + 8 ≤ x → ldb m' x = ldb m x;
  ad_out : ∀ x, (x < q ∨ q + 4096 ≤ x) → (x < p ∨ p + 4096 ≤ x) → ldb m' x = ldb m x;
}.

Lemma walk_level_add level p va s sub l (i := PX level va) :
  pdir (pmem s) p sub → 0 ≤ i < 512 → sub i = None → page_ok kend p → p ∉ l → kmem_inv kend l s →
  match l with
  | [] => walk_level me level p va 1 s = Ok None s
  | q :: l' => ∃ s', walk_level me level p va 1 s = Ok (Some q) s' ∧ kmem_inv kend l' s' ∧ added (pmem s) (pmem s') p i q
  end.
Proof.
  intros Hd Hi Hs Hp Hnin Hk. unfold walk_level, ldpte, kalloc_. specialize (Hd _ Hi). rewrite Hs in Hd.
  destruct l as [|q l'].
  - rewrite bind_gets. fold i. rewrite Hd. cbn [Z.eqb]. by rewrite (bind_ok _ _ _ _ _ (kalloc_nil me kend s Hk)).
  - destruct (kalloc_cons me kend Hend q l' s Hk) as (s1 & E1 & Hk1 & Hout & _).
    pose proof Hk as [_ _ Hnd Hall]. inversion Hall as [|? ? Hq Hall']; subst. inversion Hnd as [|? ? Hqn Hnd']; subst.
    assert (Hpq : p ≠ q) by set_solver. destruct (page_ok_pa q Hq) as [Hqa Hq0].
    rewrite bind_gets. fold i. rewrite Hd. cbn [Z.eqb]. rewrite (bind_ok _ _ _ _ _ E1).
    destruct (q =? 0) eqn:?; [lia|]. unfold memset_, stpte. run.
    eexists. split; [done|]. cbn [pmem set_pmem].
    set (m1 := memset (pmem s1) q 0 PGSIZE). set (m2 := store64 m1 (p + 8 * i) _).
    pose proof (pages_disjoint p q (proj1 Hp) (proj1 Hq) Hpq) as Hdj. unfold disjoint_ranges, PGSIZE in Hdj.
    assert (Hm2 : ∀ x, x < p + 8 * i ∨ p + 8 * i + 8 ≤ x → ldb m2 x = ldb m1 x) by (intros; apply (ldb_store 8); lia).
    assert (Hm1 : ∀ x, x < q ∨ q + 4096 ≤ x → ldb m1 x = ldb (pmem s) x).
    { intros x Hx. rewrite <-(Hout x) by (unfold PGSIZE; lia). apply same_outside_memset. unfold PGSIZE. lia. }
    split; [|constructor].
    + destruct Hk1 as [K1 K2 K3 K4]. constructor; cbn [kmem_lock freelist pmem set_pmem]; try done.
      eapply flist_frame; [|exact K2]. intros r Hr. rewrite Forall_forall in K4. specialize (K4 r Hr).
      assert (r ≠ p ∧ r ≠ q) as [Hrp Hrq] by (split; intros ->; [set_solver|done]).
      pose proof (pages_disjoint r p (proj1 K4) (proj1 Hp) Hrp) as D1. pose proof (pages_disjoint r q (proj1 K4) (proj1 Hq) Hrq) as D2.
      unfold disjoint_ranges, PGSIZE in D1, D2. apply (load_ext 8). intros x Hx. rewrite Hm2 by lia.
      apply same_outside_memset. unfold PGSIZE. lia.
    + unfold m2. rewrite load64_store64_eq. unfold mkpte. rewrite Z.lor_0_r. apply u64_id.
      pose proof (mkpte_range q 0 Hqa ltac:(lia)) as Hr. unfold mkpte in Hr. by rewrite Z.lor_0_r in Hr.
    + intros x Hx. rewrite Hm2 by lia. unfold m1. rewrite memset_spec by (unfold PGSIZE; lia). by rewrite decide_True by (unfold PGSIZE; lia).
    + intros x Hx Hx'. rewrite Hm2, Hm1 by lia. done.
    + intros x Hx Hx'. rewrite Hm2, Hm1 by lia. done.
Qed.

(** ** Growing the tree *)

(** [T'] is [T] with table pages added from the free list: no entry changes. *)
Record ext (T : ptree) (l : list Z) (s : kmem) (T' : ptree) (l' : list Z) (s' : kmem) : Prop := {
  ex_inv : vm_inv T' l' s';
  ex_root : pt_root T' = pt_root T;
  ex_perm : tpages T' ++ l' ≡ₚ tpages T ++ l;
  ex_entry : ∀ v, entry (pmem s') T' v = entry (pmem s) T v;
  ex_out : ∀ x, (∀ p, p ∈ tpages T ++ l → x < p ∨ p + 4096 ≤ x) → ldb (pmem s') x = ldb (pmem s) x;
}.

(** The table pages of [T'] that [T] does not have are those of the virtual
    pages from [v] to [v + n]. *)
Definition tables_for (T T' : ptree) (v n : Z) : Prop :=
  (∀ i, is_Some (pt_l1 T' !! i) → is_Some (pt_l1 T !! i) ∨ ∃ w, v ≤ w < v + n ∧ i = w / 512 / 512) ∧
  (∀ k, is_Some (pt_l0 T' !! k) → is_Some (pt_l0 T !! k) ∨ ∃ w, v ≤ w < v + n ∧ k = w / 512).

Lemma tables_for_refl T v n : tables_for T T v n.
Proof. split; by left. Qed.

Lemma tables_for_mono T T' v n v' n' : tables_for T T' v n → v' ≤ v → v + n ≤ v' + n' → tables_for T T' v' n'.
Proof.
  intros [H1 H0] Hv Hn. split; [intros i Hi; destruct (H1 i Hi) as [|(w & Hw & ->)]|intros i Hi; destruct (H0 i Hi) as [|(w & Hw & ->)]];
    (by left) || (right; exists w; split; [lia|done]).
Qed.

Lemma tables_for_trans T T1 T2 v n : tables_for T T1 v n → tables_for T1 T2 v n → tables_for T T2 v n.
Proof. intros [A1 A0] [B1 B0]. split; [intros i [Hi|Hi]%B1|intros i [Hi|Hi]%B0]; auto. Qed.

Lemma ext_refl T l s : vm_inv T l s → ext T l s T l s.
Proof. by constructor. Qed.

Lemma ext_trans T l s T1 l1 s1 T2 l2 s2 : ext T l s T1 l1 s1 → ext T1 l1 s1 T2 l2 s2 → ext T l s T2 l2 s2.
Proof.
  intros [A1 A2 A3 A4 A5] [B1 B2 B3 B4 B5]. constructor; [done|congruence|by rewrite B3|intros; by rewrite B4|].
  intros x Hx. rewrite B5, A5; [done|done|]. intros p Hp. apply Hx. by rewrite <-A3.
Qed.

Lemma zero_entry m p : (∀ x, p ≤ x < p + 4096 → ldb m x = 0) → ∀ i, 0 ≤ i < 512 → load64 m (p + 8 * i) = 0.
Proof.
  intros Hz i Hi. unfold load64, load. replace (mem_read m (p + 8 * i) 8) with (replicate 8 0); [apply le_dec_zeros|].
  apply list_eq_same_length with (n := 8%nat); rewrite ?length_mem_read; [done..|].
  intros k x y Hk Hx Hy. rewrite lookup_mem_read in Hy by done. apply lookup_replicate_1 in Hx as [-> _].
  injection Hy as <-. symmetry. apply Hz. lia.
Qed.

Lemma pdir_zero m p sub : (∀ x, p ≤ x < p + 4096 → ldb m x = 0) → (∀ i, 0 ≤ i < 512 → sub i = None) → pdir m p sub.
Proof. intros Hz Hs i Hi. rewrite Hs by done. by rewrite zero_entry. Qed.

Lemma pdir_added m m' p i q sub :
  added m m' p i q → 0 ≤ i < 512 → pdir m p sub →
  ∀ sub', (∀ j, 0 ≤ j < 512 → sub' j = if decide (j = i) then Some q else sub j) → pdir m' p sub'.
Proof.
  intros [A1 A2 A3 A4] Hi Hd sub' Hs j Hj. rewrite Hs by done. case_decide as E; [by subst|].
  assert (load64 m' (p + 8 * j) = load64 m (p + 8 * j)) as ->; [|by apply Hd].
  apply (load_ext 8). intros x Hx. apply A3; lia.
Qed.

(** Pages other than the directory and the new page are as before. *)
Lemma added_same m m' p i q r :
  added m m' p i q → page_aligned p → page_aligned q → page_aligned r → r ≠ p → r ≠ q → same_page r m m'.
Proof.
  intros [A1 A2 A3 A4] Hp Hq Hr Hrp Hrq x Hx.
  pose proof (pages_disjoint r p Hr Hp Hrp) as D1. pose proof (pages_disjoint r q Hr Hq Hrq) as D2.
  unfold disjoint_ranges, PGSIZE in *. apply A4; lia.
Qed.

Lemma added_out m m' p i q x (P : list Z) :
  added m m' p i q → p ∈ P → q ∈ P → (∀ p, p ∈ P → x < p ∨ p + 4096 ≤ x) → ldb m' x = ldb m x.
Proof. intros Ha Hp Hq HP. apply (ad_out _ _ _ _ _ Ha); auto. Qed.

Section grow.
  Context (T : ptree) (l : list Z) (s s' : kmem) (q : Z).
  Context (Hv : vm_inv T (q :: l) s) (Hk' : kmem_inv kend l s').

Lemma grow_facts : (q ∉ tpages T) ∧ page_ok kend q ∧ (∀ p, p ∈ tpages T → page_ok kend p) ∧ NoDup (tpages T).
Proof.
  destruct Hv as [_ [_ _ _ Ha] Hnd Hp]. apply NoDup_app in Hnd as (Hn & Hd & _).
  rewrite Forall_forall in Hp. inversion Ha; subst. split_and!; [|done|done|done].
  intros Hq. apply (Hd q Hq). by left.
Qed.

Lemma grow_l1 i :
  0 ≤ i < 512 → pt_l1 T !! i = None → added (pmem s) (pmem s') (pt_root T) i q →
  ext T (q :: l) s (mkptree (pt_root T) (<[i := q]> (pt_l1 T)) (pt_l0 T)) l s'.
Proof.
  intros Hi Hnone Ha. destruct grow_facts as (Hqn & Hq & Hok & Hnd). pose proof (vi_pt _ _ _ Hv) as [P1 P2 P3].
  set (T' := mkptree _ _ _).
  assert (Hperm : tpages T' ++ l ≡ₚ tpages T ++ q :: l).
  { unfold tpages, T'. cbn. rewrite map_to_list_insert by done. cbn. rewrite <-!Permutation_middle. by rewrite <-app_assoc. }
  assert (Hsame : ∀ r, r ∈ tpages T → r ≠ pt_root T → same_page r (pmem s) (pmem s')).
  { intros r Hr Hne. eapply added_same; [done|apply Hok, root_page|apply Hq|by apply Hok|done|]. by intros ->. }
  destruct (nodup_distinct T Hnd) as [Hl1ne Hl0ne _ _ _].
  constructor; [constructor; [constructor|done| |]|done|done| |].
  - eapply pdir_added; [done|done|exact P1|]. intros j Hj. unfold T'. cbn [pt_l1]. case_decide as E; [subst; by rewrite lookup_insert_eq|].
    by rewrite lookup_insert_ne.
  - intros j p Hj. cbn [T' pt_l1 pt_l0] in *. apply lookup_insert_Some in Hj as [[<- <-]|[Hne Hj]].
    + split; [done|]. apply pdir_zero; [apply Ha|]. intros k Hk. destruct (pt_l0 T !! (i * 512 + k)) as [r|] eqn:E; [|done].
      apply P3 in E as [p' E]. replace ((i * 512 + k) / 512) with i in E by dlia. congruence.
    + destruct (P2 j p Hj) as [Hj' Hd]. split; [done|]. eapply pdir_same; [|exact Hd].
      apply Hsame; [by eapply l1_page|by eapply Hl1ne].
  - intros k r Hk. cbn [T' pt_l1 pt_l0] in *. apply P3 in Hk as [p Hp].
    destruct (decide (i = k / 512)) as [->|]; [by rewrite lookup_insert_eq|]. rewrite lookup_insert_ne by done. by exists p.
  - rewrite Hperm. apply Hv.
  - apply Forall_forall. intros r Hr. assert (Hr' : r ∈ tpages T ++ q :: l) by (rewrite <-Hperm; apply elem_of_app; by left).
    apply elem_of_app in Hr' as [Hr'|Hr']; [by apply Hok|]. pose proof (vi_free _ _ _ Hv) as [_ _ _ Hall].
    rewrite Forall_forall in Hall. by apply Hall.
  - intros v. unfold entry. cbn [T' pt_l0]. destruct (pt_l0 T !! (v / 512)) as [r|] eqn:E; [|done].
    apply load64_same; [|apply Z.mod_pos_bound; lia]. apply Hsame; [by eapply l0_page|by eapply Hl0ne].
  - intros x Hx. eapply added_out; [done| | |exact Hx]; apply elem_of_app; [left; apply root_page|right; by left].
Qed.

Lemma grow_l0 i j p1 :
  pt_l1 T !! i = Some p1 → 0 ≤ j < 512 → pt_l0 T !! (i * 512 + j) = None → added (pmem s) (pmem s') p1 j q →
  ext T (q :: l) s (mkptree (pt_root T) (pt_l1 T) (<[i * 512 + j := q]> (pt_l0 T))) l s'.
Proof.
  intros Hi Hj Hnone Ha. destruct grow_facts as (Hqn & Hq & Hok & Hnd). pose proof (vi_pt _ _ _ Hv) as [P1 P2 P3].
  destruct (nodup_distinct T Hnd) as [Hr1 Hr0 Hd1 Hd0 Hd10]. destruct (P2 i p1 Hi) as [Hi' Hdir].
  set (T' := mkptree _ _ _).
  assert (Hperm : tpages T' ++ l ≡ₚ tpages T ++ q :: l).
  { unfold tpages, T'. cbn. rewrite map_to_list_insert by done. cbn.
    rewrite <-!app_assoc. cbn. apply Permutation_skip, Permutation_app_head, Permutation_middle. }
  assert (Hp1 : p1 ∈ tpages T) by (by eapply l1_page).
  assert (Hsame : ∀ r, r ∈ tpages T → r ≠ p1 → same_page r (pmem s) (pmem s')).
  { intros r Hr Hne. eapply added_same; [done|by apply Hok|apply Hq|by apply Hok|done|]. by intros ->. }
  constructor; [constructor; [constructor|done| |]|done|done| |].
  - change (pt_root T') with (pt_root T). eapply pdir_same; [|exact P1]. apply Hsame; [apply root_page|]. symmetry. by eapply Hr1.
  - intros k p Hk. cbn [T' pt_l1 pt_l0] in *. destruct (P2 k p Hk) as [Hkr Hd]. split; [done|].
    destruct (decide (k = i)) as [->|].
    + assert (p = p1) as -> by congruence. eapply pdir_added; [done|done|exact Hd|]. intros x Hx.
      case_decide as E; [subst; by rewrite lookup_insert_eq|]. by rewrite lookup_insert_ne by lia.
    + eapply pdir_same; [apply (Hsame p); [by eapply l1_page|]; intros ->; assert (k = i) by (by eapply Hd1); done|].
      intros x Hx. specialize (Hd x Hx). rewrite lookup_insert_ne by lia. exact Hd.
  - intros k r Hk. cbn [T' pt_l1 pt_l0] in *. apply lookup_insert_Some in Hk as [[<- <-]|[_ Hk]]; [|by eapply P3].
    replace ((i * 512 + j) / 512) with i by dlia. by exists p1.
  - rewrite Hperm. apply Hv.
  - apply Forall_forall. intros r Hr. assert (Hr' : r ∈ tpages T ++ q :: l) by (rewrite <-Hperm; apply elem_of_app; by left).
    apply elem_of_app in Hr' as [Hr'|Hr']; [by apply Hok|]. pose proof (vi_free _ _ _ Hv) as [_ _ _ Hall].
    rewrite Forall_forall in Hall. by apply Hall.
  - intros v. unfold entry. cbn [T' pt_l0]. pose proof (Z.mod_pos_bound v 512 ltac:(lia)).
    destruct (decide (v / 512 = i * 512 + j)) as [->|].
    + rewrite lookup_insert_eq, Hnone. apply zero_entry; [apply Ha|done].
    + rewrite lookup_insert_ne by done. destruct (pt_l0 T !! (v / 512)) as [r|] eqn:E; [|done].
      apply load64_same; [|done]. apply Hsame; [by eapply l0_page|]. intros ->. by eapply Hd10.
  - intros x Hx. eapply added_out; [done| | |exact Hx]; apply elem_of_app; [by left|right; by left].
Qed.
End grow.

(** ** walk *)

(** Without [alloc]: the address of the entry, if there is a table page. *)
Lemma walk_find T l s va :
  vm_inv T l s → 0 ≤ va < MAXVA →
  walk me (pt_root T) va 0 s =
  Ok (match pt_l0 T !! (va / 4096 / 512) with Some q => q + 8 * (va / 4096 mod 512) | None => 0 end) s.
Proof.
  intros [[P1 P2 P3] _ _ Hpg] Hva. unfold walk. destruct (MAXVA <=? va) eqn:?; [lia|].
  destruct (PX_2 va Hva) as [E2 H2]. pose proof (PX_1 va ltac:(lia)) as E1. pose proof (PX_0 va ltac:(lia)) as E0.
  rewrite Forall_forall in Hpg. set (k := va / 4096 / 512) in *.
  assert (Hk : PX 2 va * 512 + PX 1 va = k) by (rewrite E2, E1; dlia).
  assert (H1 : 0 ≤ PX 1 va < 512) by (rewrite E1; apply Z.mod_pos_bound; lia).
  destruct (pt_l1 T !! PX 2 va) as [p1|] eqn:L1.
  - destruct (P2 _ _ L1) as [_ Hd]. destruct (page_ok_pa p1) as [Hp1 _]; [apply Hpg; by eapply l1_page|].
    rewrite (bind_ok _ _ _ _ _ (walk_level_hit 2 _ va 0 s _ p1 P1 H2 L1 Hp1)).
    rewrite <-Hk. destruct (pt_l0 T !! (PX 2 va * 512 + PX 1 va)) as [q|] eqn:L0.
    + destruct (page_ok_pa q) as [Hq _]; [apply Hpg; by eapply l0_page|].
      rewrite (bind_ok _ _ _ _ _ (walk_level_hit 1 p1 va 0 s _ q Hd H1 L0 Hq)). by rewrite E0.
    + by rewrite (bind_ok _ _ _ _ _ (walk_level_miss 1 p1 va s _ Hd H1 L0)).
  - rewrite (bind_ok _ _ _ _ _ (walk_level_miss 2 _ va s _ P1 H2 L1)).
    destruct (pt_l0 T !! k) as [q|] eqn:L0; [|done]. apply P3 in L0 as [p L0].
    replace (k / 512) with (PX 2 va) in L0 by (rewrite E2; dlia). congruence.
Qed.

(** The level below the root: found, or added. *)
Lemma walk_alloc_2 T l s va (i := PX 2 va) :
  vm_inv T l s → 0 ≤ va < MAXVA →
  (walk_level me 2 (pt_root T) va 1 s = Ok None s ∧ l = []) ∨
  ∃ p1 s' T' l', walk_level me 2 (pt_root T) va 1 s = Ok (Some p1) s' ∧ ext T l s T' l' s' ∧
    pt_l1 T' !! i = Some p1 ∧ (len l ≤ len l' + 1 ∧ tables_for T T' (va / 4096) 1).
Proof.
  intros Hv Hva. destruct (PX_2 va Hva) as [_ H2]. fold i in H2. pose proof Hv as [[P1 _ _] Hk Hnd Hpg].
  rewrite Forall_forall in Hpg. apply NoDup_app in Hnd as (_ & Hd & _). destruct (pt_l1 T !! i) as [p1|] eqn:L1.
  - right. exists p1, s, T, l. split_and!; [|by apply ext_refl|done|lia|apply tables_for_refl].
    apply (walk_level_hit 2 _ va 1 s (λ i, pt_l1 T !! i)); try done. apply page_ok_pa, Hpg. by eapply l1_page.
  - pose proof (walk_level_add 2 (pt_root T) va s (λ i, pt_l1 T !! i) l P1 H2 L1 (Hpg _ (root_page T)) (Hd _ (root_page T)) Hk) as Ha.
    destruct l as [|q l']; [by left|]. right. destruct Ha as (s' & E & Hk' & Ha).
    eexists q, s', _, l'. split_and!; [done|by apply grow_l1|apply lookup_insert_eq|unfold len; rewrite length_cons; lia|]. split; [|by left].
    cbn [pt_l1]. intros i' Hi'. destruct (decide (i = i')) as [<- |]; [|rewrite lookup_insert_ne in Hi' by done; by left].
    right. exists (va / 4096). split; [lia|]. unfold i. apply (PX_2 va Hva).
Qed.

Lemma walk_alloc_1 T l s va p1 (i := PX 2 va) (j := PX 1 va) :
  vm_inv T l s → 0 ≤ va < MAXVA → pt_l1 T !! i = Some p1 →
  (walk_level me 1 p1 va 1 s = Ok None s ∧ l = []) ∨
  ∃ q s' T' l', walk_level me 1 p1 va 1 s = Ok (Some q) s' ∧ ext T l s T' l' s' ∧
    pt_l0 T' !! (i * 512 + j) = Some q ∧ (len l ≤ len l' + 1 ∧ tables_for T T' (va / 4096) 1).
Proof.
  intros Hv Hva L1. pose proof Hv as [[_ P2 _] Hk Hnd Hpg]. destruct (P2 _ _ L1) as [_ Hdir].
  assert (H1 : 0 ≤ j < 512) by (unfold j; rewrite PX_1 by lia; apply Z.mod_pos_bound; lia).
  rewrite Forall_forall in Hpg. apply NoDup_app in Hnd as (_ & Hd & _). pose proof (l1_page _ _ _ L1) as Hp1.
  destruct (pt_l0 T !! (i * 512 + j)) as [q|] eqn:L0.
  - right. exists q, s, T, l. split_and!; [|by apply ext_refl|done|lia|apply tables_for_refl].
    apply (walk_level_hit 1 p1 va 1 s (λ j, pt_l0 T !! (i * 512 + j))); try done. apply page_ok_pa, Hpg. by eapply l0_page.
  - pose proof (walk_level_add 1 p1 va s (λ j, pt_l0 T !! (i * 512 + j)) l Hdir H1 L0 (Hpg _ Hp1) (Hd _ Hp1) Hk) as Ha.
    destruct l as [|q l']; [by left|]. right. destruct Ha as (s' & E & Hk' & Ha).
    eexists q, s', _, l'. split_and!; [done|by eapply grow_l0|apply lookup_insert_eq|unfold len; rewrite length_cons; lia|]. split; [by left|].
    cbn [pt_l0]. intros k Hkey. destruct (decide (i * 512 + j = k)) as [<- |]; [|rewrite lookup_insert_ne in Hkey by done; by left].
    right. exists (va / 4096). split; [lia|]. unfold i, j. rewrite (proj1 (PX_2 va Hva)), (PX_1 va) by lia. dlia.
Qed.

Lemma walk_alloc T l s va :
  vm_inv T l s → 0 ≤ va < MAXVA →
  ∃ r s' T' l', walk me (pt_root T) va 1 s = Ok r s' ∧ ext T l s T' l' s' ∧ (len l ≤ len l' + 2 ∧ tables_for T T' (va / 4096) 1) ∧
    ((r = 0 ∧ l' = []) ∨ ∃ q, pt_l0 T' !! (va / 4096 / 512) = Some q ∧ r = q + 8 * (va / 4096 mod 512)).
Proof.
  intros Hv Hva. unfold walk. destruct (MAXVA <=? va) eqn:?; [lia|].
  destruct (PX_2 va Hva) as [E2 _]. pose proof (PX_1 va ltac:(lia)) as E1. pose proof (PX_0 va ltac:(lia)) as E0.
  destruct (walk_alloc_2 T l s va Hv Hva) as [[E ->]|(p1 & s1 & T1 & l1 & E & Hx & L1 & Hl1 & Ht1)].
  { exists 0, s, T, []. rewrite (bind_ok _ _ _ _ _ E). split_and!; [done|by apply ext_refl|lia|apply tables_for_refl|by left]. }
  rewrite (bind_ok _ _ _ _ _ E).
  destruct (walk_alloc_1 T1 l1 s1 va p1 (ex_inv _ _ _ _ _ _ Hx) Hva L1) as [[E' ->]|(q & s2 & T2 & l2 & E' & Hx2 & L0 & Hl2 & Ht2)].
  { exists 0, s1, T1, []. rewrite (bind_ok _ _ _ _ _ E'). split_and!; [done|done|lia|done|by left]. }
  eexists _, s2, T2, l2. rewrite (bind_ok _ _ _ _ _ E'). split; [done|]. split; [by eapply ext_trans|]. split; [split; [lia|by eapply tables_for_trans]|]. right. exists q.
  rewrite <-E0. split; [|done]. rewrite <-L0. f_equal. rewrite E2, E1. dlia.
Qed.

(** ** Setting an entry *)

Lemma set_entry T l s v q e (s' := set_pmem (store64 (pmem s) (q + 8 * (v mod 512)) e) s) :
  vm_inv T l s → pt_l0 T !! (v / 512) = Some q → 0 ≤ e < 18446744073709551616 →
  vm_inv T l s' ∧ (∀ w, entry (pmem s') T w = if decide (w = v) then e else entry (pmem s) T w) ∧
  same_outside q (pmem s) (pmem s').
Proof.
  intros [[P1 P2 P3] [K1 K2 K3 K4] Hnd Hpg] L0 He. pose proof (Z.mod_pos_bound v 512 ltac:(lia)) as Hm.
  pose proof Hnd as Hnd'. apply NoDup_app in Hnd' as (HndT & Hd & _). destruct (nodup_distinct T HndT) as [Hr1 Hr0 Hd1 Hd0 Hd10].
  assert (Hout : same_outside q (pmem s) (pmem s')) by (intros x Hx; apply (ldb_store 8); unfold PGSIZE in *; lia).
  rewrite Forall_forall in Hpg. pose proof (l0_page _ _ _ L0) as Hq.
  assert (Hsame : ∀ p, p ∈ tpages T → p ≠ q → same_page p (pmem s) (pmem s')).
  { intros p Hp Hne. apply (same_outside_page p q); [by apply Hpg|by apply Hpg|done|done]. }
  split_and!; [|intros w|done].
  - constructor; [constructor|constructor| |]; try done; [| | |by apply Forall_forall].
    + eapply pdir_same; [|exact P1]. apply Hsame; [apply root_page|]. symmetry. by eapply Hr0.
    + intros i p Hi. destruct (P2 i p Hi) as [Hi' Hdir]. split; [done|]. eapply pdir_same; [|exact Hdir].
      apply Hsame; [by eapply l1_page|]. by eapply Hd10.
    + eapply flist_outside; [apply Hpg; exact Hq|by apply Hd|done|exact Hout|done].
  - unfold entry. destruct (decide (w / 512 = v / 512)) as [E|E].
    + rewrite E, L0. case_decide as Ew; [subst w; unfold s'; cbn [pmem set_pmem]; rewrite load64_store64_eq; by apply u64_id|].
      apply load64_store64_ne. unfold disjoint_ranges. dlia.
    + rewrite decide_False by congruence. destruct (pt_l0 T !! (w / 512)) as [r|] eqn:Lw; [|done].
      apply load64_same; [|apply Z.mod_pos_bound; lia]. apply Hsame; [by eapply l0_page|]. intros ->. apply E. by eapply Hd0.
Qed.
End tree.
