(* ===== verification/UserSpec.v ===== *)
(** The memory of the current process, as the code above kernel/vm.c sees it.

    [UserMem] has the two copy routines, with the process and its page table
    inside the state [U]; [UserMemSpec] is what their comments promise.
    [either_copyout] and [either_copyin] of kernel/proc.c choose between the
    user's memory and the kernel's own. *)

From stdpp Require Import base tactics list numbers strings.
From S2P Require Import Prelude Bytes.
From Stdlib Require Import ZArith Lia.

Open Scope kernel_scope.

(** [u_copyout dst bytes] is [copyout(p->pagetable, dst, bytes, len)];
    [u_copyin src len] is [copyin(p->pagetable, ..., src, len)]: its result and
    the bytes that reached the destination. *)
Class UserMem (U : Type) := {
  u_copyout : Z → list Z → M U Z;
  u_copyin : Z → Z → M U (Z * list Z);
}.

(** [view] is the memory the process sees: a byte at each address it may use. *)
Definition view_write (view : Z → option Z) (dst : Z) (bs : list Z) : Z → option Z := λ a,
  if decide (dst ≤ a < dst + len bs) then bs !! Z.to_nat (a - dst) else view a.

Definition view_reads (view : Z → option Z) (src : Z) (bs : list Z) : Prop :=
  ∀ i x, bs !! i = Some x → view (src + Z.of_nat i) = Some x.

(** [u_rep u view]: the process sees [view].  A copy that fails has copied the
    bytes before the first address the process may not use. *)
Class UserMemSpec (U : Type) `{UM : UserMem U} := {
  u_rep : U → (Z → option Z) → Prop;
  u_rep_ext u v v' : u_rep u v → (∀ a, v a = v' a) → u_rep u v';
  u_copyout_spec dst bs u view :
    u_rep u view → 0 ≤ dst < 18446744073709551616 → is_bytes bs →
    ∃ r k u', u_copyout dst bs u = Ok r u' ∧ u_rep u' (view_write view dst (take k bs)) ∧
      (r = 0 ∧ k = length bs ∨ r = -1 ∧ (k < length bs)%nat);
  u_copyin_spec src n u view :
    u_rep u view → 0 ≤ src < 18446744073709551616 → 0 ≤ n →
    ∃ r bs u', u_copyin src n u = Ok (r, bs) u' ∧ u_rep u' view ∧ view_reads view src bs ∧ is_bytes bs ∧
      (r = 0 ∧ len bs = n ∨ r = -1 ∧ len bs < n);
}.

(** Kernel memory and the user's, side by side. *)
Record kustate (U : Type) := mkku {
  ku_kmem : mem;
  ku_user : U;
}.
Arguments mkku {U} _ _.
Arguments ku_kmem {U} _ _.
Arguments ku_user {U} _.

Definition ku_userL {U} : lens (kustate U) U := Lens ku_user (λ u s, mkku (ku_kmem s) u).

Definition either_copyout {U} `{UM : UserMem U} (user_dst dst : Z) (src : list Z) : M (kustate U) Z :=
  if negb (user_dst =? 0) then zoom ku_userL (u_copyout dst src)
  else
    modify (λ s, mkku (mem_write (ku_kmem s) dst src) (ku_user s)) ;;
    ret 0.

Definition either_copyin {U} `{UM : UserMem U} (user_src src n : Z) : M (kustate U) (Z * list Z) :=
  if negb (user_src =? 0) then zoom ku_userL (u_copyin src n)
  else
    s <- get ;;
    ret (0, mem_read (ku_kmem s) src (Z.to_nat n)).
