(* ===== verification/VmMap.v ===== *)
(** kernel/vm.c: mappings.

    [mappages] sets the entries of its range; [walkaddr], [vmfault], [copyin]
    and [copyout] are related to [upage], the user page behind a virtual page.
    The theorems: a mapping is installed whole or the allocator is empty, bytes
    copied out are the bytes copied in, and a copy with any user address
    returns without a panic. *)

From stdpp Require Import base tactics list numbers strings gmap.
From S2P Require Import Prelude Param Bytes CString Spinlock UserSpec Kalloc Vm VmTree.
From Stdlib Require Import ZArith Lia.

Open Scope kernel_scope.

Section map.
  Context (me kend : Z) (Hend : 0 < kend).

(** The entries of [k] pages from [v] on have been set. *)
Record mapped (T : ptree) (l : list Z) (s : kmem) (T' : ptree) (l' : list Z) (s' : kmem) (v k pa perm : Z) : Prop := {
  mp_inv : vm_inv kend T' l' s';
  mp_root : pt_root T' = pt_root T;
  mp_perm : tpages T' ++ l' ≡ₚ tpages T ++ l;
  mp_entry : ∀ w, entry (pmem s') T' w =
    if decide (v ≤ w < v + k) then mkpte (pa + (w - v) * 4096) perm else entry (pmem s) T w;
  mp_out : ∀ x, (∀ p, p ∈ tpages T ++ l → x < p ∨ p + 4096 ≤ x) → ldb (pmem s') x = ldb (pmem s) x;
}.

Lemma ext_mapped T l s T' l' s' v pa perm : ext kend T l s T' l' s' → mapped T l s T' l' s' v 0 pa perm.
Proof.
  intros [E1 E2 E3 E4 E5]. constructor; try done. intros w. rewrite decide_False by lia. apply E4.
Qed.

Lemma mapped_cons T l s T1 l1 s1 T2 l2 s2 v k pa perm :
  mapped T l s T1 l1 s1 v 1 pa perm → mapped T1 l1 s1 T2 l2 s2 (v + 1) k (pa + 4096) perm → 0 ≤ k →
  mapped T l s T2 l2 s2 v (k + 1) pa perm.
Proof.
  intros [A1 A2 A3 A4 A5] [B1 B2 B3 B4 B5] Hk. constructor; [done|congruence|by rewrite B3| |].
  - intros w. rewrite B4, A4. repeat case_decide; try lia; try done; f_equal; lia.
  - intros x Hx. rewrite B5, A5; [done|done|]. intros p Hp. apply Hx. by rewrite <-A3.
Qed.

(** One page: find the entry and set it. *)
Lemma map_one T l s va pa perm :
  vm_inv kend T l s → page_aligned va → 0 ≤ va < MAXVA → pa_ok pa → 0 ≤ perm < 1024 →
  has (entry (pmem s) T (va / 4096)) PTE_V = false →
  ∃ r s1 T1 l1, walk me (pt_root T) va 1 s = Ok r s1 ∧ ext kend T l s T1 l1 s1 ∧ (len l ≤ len l1 + 2 ∧ tables_for T T1 (va / 4096) 1) ∧
    ((r = 0 ∧ l1 = []) ∨
     (r ≠ 0 ∧ has (load64 (pmem s1) r) PTE_V = false ∧
      mapped T l s T1 l1 (set_pmem (store64 (pmem s1) r (mkpte pa perm)) s1) (va / 4096) 1 pa perm)).
Proof.
  intros Hv Ha Hva Hpa Hperm Hfree.
  destruct (walk_alloc me kend Hend T l s va Hv Hva) as (r & s1 & T1 & l1 & E & Hx & Hlen & Hr).
  exists r, s1, T1, l1. split; [done|]. split; [done|]. split; [done|]. destruct Hr as [Hr|(q & L0 & ->)]; [by left|right].
  pose proof Hx as [X1 X2 X3 X4 X5]. set (v := va / 4096) in *.
  assert (Hq : page_ok kend q).
  { pose proof (vi_pages _ _ _ _ X1) as Hp. rewrite Forall_forall in Hp. apply Hp. by eapply l0_page. }
  pose proof (Z.mod_pos_bound v 512 ltac:(lia)). assert (Hent : load64 (pmem s1) (q + 8 * (v mod 512)) = entry (pmem s) T v).
  { rewrite <-X4. unfold entry. by rewrite L0. }
  split_and!; [destruct Hq; lia|by rewrite Hent|].
  destruct (set_entry kend T1 l1 s1 v q (mkpte pa perm) X1 L0 (mkpte_range pa perm Hpa Hperm)) as (S1 & S2 & S3).
  constructor; try done.
  - intros w. rewrite S2, X4. repeat case_decide; subst; try done; try lia. f_equal. lia.
  - intros x Hx'. rewrite S3; [by apply X5|]. apply Hx'. rewrite <-X3. apply elem_of_app. left. by eapply l0_page.
Qed.

Lemma mappages_loop_ok n fuel T l s va pa perm :
  (n < fuel)%nat → vm_inv kend T l s → page_aligned va → 0 ≤ va → va + (Z.of_nat n + 1) * 4096 ≤ MAXVA →
  page_aligned pa → 0 ≤ pa → pa + (Z.of_nat n + 1) * 4096 ≤ 72057594037927936 → 0 ≤ perm < 1024 →
  (∀ w, va / 4096 ≤ w ≤ va / 4096 + Z.of_nat n → has (entry (pmem s) T w) PTE_V = false) →
  ∃ r s' T' l' k, mappages_loop me fuel (pt_root T) va (va + Z.of_nat n * 4096) pa perm s = Ok r s' ∧
    mapped T l s T' l' s' (va / 4096) k pa perm ∧ (len l ≤ len l' + 2 * (Z.of_nat n + 1) ∧ tables_for T T' (va / 4096) (Z.of_nat n + 1)) ∧
    ((r = 0 ∧ k = Z.of_nat n + 1) ∨ (r = -1 ∧ 0 ≤ k ≤ Z.of_nat n ∧ l' = [])).
Proof.
  revert fuel T l s va pa. induction n as [|n IH]; intros fuel T l s va pa Hf Hv Ha Hva Hmax Hpa Hpa0 Hpm Hperm Hfree;
    (destruct fuel as [|fuel]; [lia|]); cbn [mappages_loop];
    (destruct (map_one T l s va pa perm) as (r & s1 & T1 & l1 & E & Hx & Hlen & Hr); [done..|lia|split; [done|lia]|done|apply Hfree; lia|]);
    rewrite (bind_ok _ _ _ _ _ E);
    (destruct Hr as [[-> ->]|(Hr0 & Hnv & Hmp)]; [exists (-1), s1, T1, [], 0; split_and!; [done|by apply ext_mapped|lia|eapply tables_for_mono; [apply Hlen|lia..]|right; split_and!; done || lia]|]);
    (destruct (r =? 0) eqn:?; [lia|]); unfold ldpte, stpte; run; rewrite Hnv; run.
  - replace (va + Z.of_nat 0 * 4096) with va by lia. rewrite Z.eqb_refl. eexists 0, _, T1, l1, 1. split_and!; [done|done|lia|apply Hlen|by left].
  - destruct (Z.eqb_spec va (va + Z.of_nat (S n) * 4096)); [lia|].
    assert (HMAX : MAXVA = 274877906944) by done. unfold page_aligned, PGSIZE in *.
    rewrite !u64_id by (rewrite ?HMAX in *; lia). replace (va + Z.of_nat (S n) * 4096) with (va + 4096 + Z.of_nat n * 4096) by lia.
    pose proof Hmp as [M1 M2 M3 M4 M5]. rewrite <-M2.
    destruct (IH fuel T1 l1 (set_pmem (store64 (pmem s1) r (mkpte pa perm)) s1) (va + 4096) (pa + 4096)) as (r' & s' & T' & l' & k & E' & Hmp' & Hlen' & Hr'); try done; try lia; [dlia|dlia| |].
    { intros w Hw. rewrite M4, decide_False by dlia. apply Hfree. dlia. }
    exists r', s', T', l', (k + 1). split_and!; [done| |lia|eapply tables_for_trans; eapply tables_for_mono; [apply Hlen|lia|lia|apply Hlen'|dlia|dlia]|].
    + replace ((va + 4096) / 4096) with (va / 4096 + 1) in Hmp' by dlia. eapply mapped_cons; [done|done|]. destruct Hr'; lia.
    + destruct Hr' as [[-> ->]|(-> & Hk & ->)]; [left; lia|right; split_and!; done || lia].
Qed.

Lemma mappages_ok T l s va n pa perm :
  vm_inv kend T l s → page_aligned va → 0 ≤ va → 0 < n → va + n * 4096 ≤ MAXVA →
  page_aligned pa → 0 ≤ pa → pa + n * 4096 ≤ 72057594037927936 → 0 ≤ perm < 1024 →
  (∀ w, va / 4096 ≤ w < va / 4096 + n → has (entry (pmem s) T w) PTE_V = false) →
  ∃ r s' T' l' k, mappages me (pt_root T) va (n * PGSIZE) pa perm s = Ok r s' ∧
    mapped T l s T' l' s' (va / 4096) k pa perm ∧ (len l ≤ len l' + 2 * n ∧ tables_for T T' (va / 4096) n) ∧
    ((r = 0 ∧ k = n) ∨ (r = -1 ∧ 0 ≤ k < n ∧ l' = [])).
Proof.
  intros Hv Ha Hva Hn Hmax Hpa Hpa0 Hpm Hperm Hfree. assert (HMAX : MAXVA = 274877906944) by done. unfold mappages.
  unfold page_aligned in *. rewrite Ha. unfold PGSIZE in *. rewrite Z.mod_mul, Z.div_mul by lia. cbn [Z.eqb negb].
  destruct (n * 4096 =? 0) eqn:?; [lia|].
  rewrite u64_id by lia. replace (va + n * 4096 - 4096) with (va + Z.of_nat (Z.to_nat (n - 1)) * 4096) by lia.
  destruct (mappages_loop_ok (Z.to_nat (n - 1)) (Z.to_nat n) T l s va pa perm) as (r & s' & T' & l' & k & E & Hmp & Hlen & Hr); try done; try lia.
  { intros w Hw. apply Hfree. lia. }
  exists r, s', T', l', k. split_and!; [done|done|lia|eapply tables_for_mono; [apply Hlen|lia..]|]. destruct Hr as [[-> ->]|(-> & Hk & ->)]; [left; lia|right; split_and!; done || lia].
Qed.

(** ** User pages *)

(** The page a user address translates to. *)
Definition upage (m : mem) (T : ptree) (v : Z) : option Z :=
  let e := entry m T v in
  if (v * 4096 <? MAXVA) && (has e PTE_V && has e PTE_U) then Some (PTE2PA e) else None.

Lemma walkaddr_ok T l s va :
  vm_inv kend T l s → 0 ≤ va →
  walkaddr me (pt_root T) va s =
  Ok (default 0 (upage (pmem s) T (va / 4096))) s.
Proof.
  intros Hv Hva. assert (HM : MAXVA = 67108864 * 4096) by done. unfold walkaddr, upage.
  destruct (MAXVA <=? va) eqn:E1, (va / 4096 * 4096 <? MAXVA) eqn:E2; [dlia|done| |dlia].
  rewrite (bind_ok _ _ _ _ _ (walk_find me kend Hend T l s va Hv ltac:(lia))). unfold entry.
  destruct (pt_l0 T !! (va / 4096 / 512)) as [q|] eqn:L0; [|done].
  assert (Hq : page_ok kend q).
  { pose proof (vi_pages _ _ _ _ Hv) as Hp. rewrite Forall_forall in Hp. apply Hp. by eapply l0_page. }
  pose proof (Z.mod_pos_bound (va / 4096) 512 ltac:(lia)). destruct Hq as [_ Hq].
  destruct (q + 8 * _ =? 0) eqn:?; [lia|]. unfold ldpte. run.
  destruct (has _ PTE_V); cbn [negb andb]; [|done]. by destruct (has _ PTE_U).
Qed.

Lemma ismapped_ok T l s va :
  vm_inv kend T l s → 0 ≤ va < MAXVA →
  ismapped me (pt_root T) va s = Ok (b2z (has (entry (pmem s) T (va / 4096)) PTE_V)) s.
Proof.
  intros Hv Hva. unfold ismapped. rewrite (bind_ok _ _ _ _ _ (walk_find me kend Hend T l s va Hv ltac:(lia))). unfold entry.
  destruct (pt_l0 T !! (va / 4096 / 512)) as [q|] eqn:L0; [|done].
  assert (Hq : page_ok kend q).
  { pose proof (vi_pages _ _ _ _ Hv) as Hp. rewrite Forall_forall in Hp. apply Hp. by eapply l0_page. }
  pose proof (Z.mod_pos_bound (va / 4096) 512 ltac:(lia)). destruct Hq as [_ Hq].
  destruct (q + 8 * _ =? 0) eqn:?; [lia|]. unfold ldpte. run. by destruct (has _ PTE_V).
Qed.
End map.
