(* ===== verification/VmUser.v ===== *)
(** kernel/vm.c: the memory of a user process.

    [uview] is the memory a process of size [psz] sees: the bytes of its pages,
    zeros where a page below [psz] has yet to be allocated, nothing elsewhere.
    [vmfault] leaves this view as it is; [copyin] reads it and [copyout] writes
    it.  The last section is the implementation of [UserMem]. *)

From stdpp Require Import base tactics list numbers strings gmap.
From S2P Require Import Prelude Param Bytes CString Spinlock UserSpec Kalloc Vm VmTree VmMap.
From Stdlib Require Import ZArith Lia.

Open Scope kernel_scope.

Section user.
  Context (me kend : Z) (Hend : 0 < kend).
  Context (psz : Z) (Hpsz : psz ≤ MAXVA).

(** ** The view *)

(** Page [v] is below the size of the process and still without a page. *)
Definition lazy (m : mem) (T : ptree) (v : Z) : bool :=
  (v * 4096 <? psz) && negb (has (entry m T v) PTE_V).

Definition uview (m : mem) (T : ptree) (a : Z) : option Z :=
  match upage m T (a / 4096) with
  | Some p => Some (ldb m (p + a mod 4096))
  | None => if lazy m T (a / 4096) then Some 0 else None
  end.

(** May the process write to page [v]? *)
Definition uwritable (m : mem) (T : ptree) (v : Z) : bool :=
  match upage m T v with
  | Some _ => has (entry m T v) PTE_W
  | None => lazy m T v
  end.

(** User pages are pages of the allocator that it does not have, that no table
    uses and that are mapped once. *)
Record uinv (T : ptree) (l : list Z) (s : kmem) : Prop := {
  ui_vm : vm_inv kend T l s;
  ui_page : ∀ v p, upage (pmem s) T v = Some p → page_ok kend p ∧ (p ∉ tpages T ++ l);
  ui_inj : ∀ v w p, upage (pmem s) T v = Some p → upage (pmem s) T w = Some p → v = w;
}.

(** The process sees the same memory in both states. *)
Record same_user (T : ptree) (s : kmem) (T' : ptree) (l' : list Z) (s' : kmem) : Prop := {
  su_inv : uinv T' l' s';
  su_root : pt_root T' = pt_root T;
  su_view : ∀ a, uview (pmem s') T' a = uview (pmem s) T a;
  su_wr : ∀ v, uwritable (pmem s') T' v = uwritable (pmem s) T v;
}.

Lemma same_user_refl T l s : uinv T l s → same_user T s T l s.
Proof. by constructor. Qed.

Lemma vm_frame T l s m' :
  (∀ p, p ∈ tpages T ++ l → same_page p (pmem s) m') → vm_inv kend T l s → vm_inv kend T l (set_pmem m' s).
Proof.
  intros Hs [V1 [K1 K2 K3 K4] V3 V4]. constructor; [|constructor|done|done]; cbn [pmem set_pmem kmem_lock freelist]; try done.
  - eapply pt_inv_frame; [|done]. intros p Hp. apply Hs, elem_of_app. by left.
  - eapply flist_frame; [|done]. intros q Hq. replace q with (q + 8 * 0) by lia. apply load64_same; [|lia].
    apply Hs, elem_of_app. by right.
Qed.

Lemma upage_frame m m' T v : (∀ p, p ∈ tpages T → same_page p m m') → upage m' T v = upage m T v.
Proof. intros Hs. unfold upage. by rewrite (entry_frame m m'). Qed.

Lemma lazy_frame m m' T v : (∀ p, p ∈ tpages T → same_page p m m') → lazy m' T v = lazy m T v.
Proof. intros Hs. unfold lazy. by rewrite (entry_frame m m'). Qed.

(** The process sees nothing from [MAXVA] on. *)
Lemma uview_high m T a : MAXVA ≤ a → uview m T a = None.
Proof.
  clear Hend. intros Ha. assert (HM : MAXVA = 67108864 * 4096) by done. unfold uview, upage, lazy.
  destruct (a / 4096 * 4096 <? MAXVA) eqn:?, (a / 4096 * 4096 <? psz) eqn:?; try dlia; done.
Qed.

(** ** Faults *)

Lemma in_page a v : a / 4096 = v ↔ v * 4096 ≤ a < v * 4096 + 4096.
Proof. clear Hend Hpsz. dlia. Qed.

Lemma free_same_user T l s T' l' s' v pa perm :
  uinv T l s → mapped kend T l s T' l' s' v 0 pa perm → same_user T s T' l' s'.
Proof.
  intros [U1 U2 U3] [M1 M2 M3 M4 M5].
  assert (He : ∀ w, entry (pmem s') T' w = entry (pmem s) T w) by (intros w; by rewrite M4, decide_False by lia).
  assert (Hu : ∀ w, upage (pmem s') T' w = upage (pmem s) T w) by (intros w; unfold upage; by rewrite He).
  assert (Hlz : ∀ w, lazy (pmem s') T' w = lazy (pmem s) T w) by (intros w; unfold lazy; by rewrite He).
  constructor; [constructor|done| |].
  - done.
  - intros w p. rewrite Hu, M3. apply U2.
  - intros w w' p. rewrite !Hu. apply U3.
  - intros a. unfold uview. rewrite Hu, Hlz. destruct (upage (pmem s) T (a / 4096)) as [p|] eqn:E; [|done].
    f_equal. apply M5. intros q Hq. destruct (U2 _ _ E) as [Hp Hn].
    assert (Hne : p ≠ q) by (intros ->; done). assert (Hqa : page_ok kend q).
    { destruct U1 as [_ [_ _ _ K4] _ V4]. rewrite Forall_forall in K4, V4. apply elem_of_app in Hq as [Hq|Hq]; auto. }
    pose proof (pages_disjoint p q (proj1 Hp) (proj1 Hqa) Hne) as Hd. unfold disjoint_ranges, PGSIZE in Hd.
    pose proof (Z.mod_pos_bound a 4096 ltac:(lia)). lia.
  - intros w. unfold uwritable. by rewrite Hu, Hlz, He.
Qed.

(** A fresh zeroed page for page [v]: nothing the process sees changes. *)
Lemma fault_same_user T q l s s1 T' l' s' v :
  uinv T (q :: l) s → lazy (pmem s) T v = true → upage (pmem s) T v = None →
  vm_inv kend T l s1 → same_outside q (pmem s) (pmem s1) → (∀ x, q ≤ x < q + 4096 → ldb (pmem s1) x = 0) →
  mapped kend T l s1 T' l' s' v 1 q (Z.lor (Z.lor PTE_W PTE_U) PTE_R) →
  same_user T s T' l' s' ∧ upage (pmem s') T' v = Some q.
Proof.
  intros [U1 U2 U3] Hlz Hnone Hv1 Hout Hz [M1 M2 M3 M4 M5].
  pose proof U1 as [V1 [K1 K2 K3 K4] V3 V4]. inversion K4 as [|? ? Hq K4']; subst.
  assert (Hqn : q ∉ tpages T ++ l). { rewrite <-Permutation_middle in V3. by inversion V3. }
  assert (Hpq : ∀ p, p ∈ tpages T ++ l → page_ok kend p ∧ p ≠ q).
  { rewrite Forall_forall in V4, K4'. intros p Hp. split; [|by intros ->]. apply elem_of_app in Hp as [|]; auto. }
  assert (Hs1 : ∀ p, p ∈ tpages T → same_page p (pmem s) (pmem s1)).
  { intros p Hp. destruct (Hpq p) as [? ?]; [apply elem_of_app; by left|]. apply (same_outside_page p q); [by destruct H|by destruct Hq|done|done]. }
  assert (Hqpa : pa_ok q) by (by destruct (page_ok_pa kend Hend q Hq)).
  assert (Hfl : 0 ≤ Z.lor (Z.lor PTE_W PTE_U) PTE_R < 1024) by done.
  assert (Hv : entry (pmem s') T' v = mkpte q (Z.lor (Z.lor PTE_W PTE_U) PTE_R)).
  { rewrite M4, decide_True by lia. f_equal. lia. }
  assert (Hw : ∀ w, w ≠ v → entry (pmem s') T' w = entry (pmem s) T w).
  { intros w Hw. rewrite M4, decide_False by lia. by apply entry_frame. }
  assert (Huv : upage (pmem s') T' v = Some q).
  { unfold upage. replace (v * 4096 <? MAXVA) with true by (unfold lazy in Hlz; lia). rewrite Hv, has_V_mkpte. rewrite PTE2PA_mkpte by done. unfold PTE_U. rewrite has_bit, testbit_mkpte by lia. done. }
  assert (Huw : ∀ w, w ≠ v → upage (pmem s') T' w = upage (pmem s) T w) by (intros w ?; unfold upage; by rewrite Hw).
  assert (Hub : ∀ x, (∀ p, p ∈ tpages T ++ l → x < p ∨ p + 4096 ≤ x) → ldb (pmem s') x = ldb (pmem s1) x) by exact M5.
  split; [|done]. constructor; [constructor|done| |].
  - done.
  - intros w p. rewrite M3. destruct (decide (w = v)) as [->|Hne]; [rewrite Huv; intros [= <-]; done|].
    rewrite Huw by done. intros Hp. destruct (U2 _ _ Hp) as [? Hn]. split; [done|]. rewrite <-Permutation_middle in Hn. set_solver.
  - intros w w' p. destruct (decide (w = v)) as [->|Hne], (decide (w' = v)) as [->|Hne']; rewrite ?Huv, ?Huw by done; try done.
    + intros [= ->] Hp. destruct (U2 _ _ Hp) as [_ []]. apply elem_of_app. right. by left.
    + intros Hp [= ->]. destruct (U2 _ _ Hp) as [_ []]. apply elem_of_app. right. by left.
    + apply U3.
  - intros a. pose proof (Z.mod_pos_bound a 4096 ltac:(lia)). unfold uview. destruct (decide (a / 4096 = v)) as [->|Hne].
    + rewrite Huv, Hnone, Hlz. f_equal. rewrite Hub; [apply Hz; lia|]. intros p Hp. destruct (Hpq p Hp) as [Hpo Hpn].
      pose proof (pages_disjoint p q (proj1 Hpo) (proj1 Hq) Hpn) as Hd. unfold disjoint_ranges, PGSIZE in Hd. lia.
    + rewrite Huw by done. unfold lazy. rewrite Hw by done. destruct (upage (pmem s) T (a / 4096)) as [p|] eqn:E; [|done].
      f_equal. destruct (U2 _ _ E) as [Hp Hn]. rewrite <-Permutation_middle in Hn. apply not_elem_of_cons in Hn as [Hne1 Hn].
      rewrite Hub. { apply Hout. pose proof (pages_disjoint p q (proj1 Hp) (proj1 Hq) Hne1) as Hd. unfold disjoint_ranges, PGSIZE in *. lia. }
      intros r Hr. destruct (Hpq r Hr) as [Hro _]. assert (p ≠ r) as Hpr by (intros ->; done).
      pose proof (pages_disjoint p r (proj1 Hp) (proj1 Hro) Hpr) as Hd. unfold disjoint_ranges, PGSIZE in Hd. lia.
  - intros w. unfold uwritable. destruct (decide (w = v)) as [->|Hne].
    + rewrite Huv, Hnone, Hlz, Hv. unfold PTE_W. rewrite has_bit, testbit_mkpte by lia. done.
    + rewrite Huw by done. unfold lazy. by rewrite Hw.
Qed.

(** A page from the allocator, whatever is then written to it. *)
Lemma alloc_page T q l s :
  vm_inv kend T (q :: l) s →
  ∃ s0, kalloc_ me s = Ok q s0 ∧ q ≠ 0 ∧ same_outside q (pmem s) (pmem s0) ∧
    ∀ m', same_outside q (pmem s0) m' → vm_inv kend T l (set_pmem m' s0) ∧ same_outside q (pmem s) m'.
Proof.
  clear Hpsz. intros [V1 V2 V3 V4]. destruct (kalloc_cons me kend Hend q l s V2) as (s0 & E & Hk & Hout & _).
  pose proof V2 as [_ _ _ K4]. inversion K4 as [|? ? Hq K4']; subst. rewrite <-Permutation_middle in V3. apply NoDup_cons in V3 as [Hqn V3'].
  rewrite not_elem_of_app in Hqn. destruct Hqn as [Hq1 Hq2]. exists s0. split_and!; [done|destruct Hq; lia|done|]. intros m' Hm.
  assert (Ho : same_outside q (pmem s) m') by (by eapply same_outside_trans).
  split; [|done]. constructor; cbn [pmem set_pmem]; [|destruct Hk as [H1 H2 H3 H4]; constructor; try done; cbn [pmem set_pmem freelist]|done|done].
  - eapply pt_inv_frame; [|done]. intros p Hp. rewrite Forall_forall in V4. specialize (V4 p Hp).
    apply (same_outside_page p q); [by destruct V4|by destruct Hq|by intros ->|done].
  - eapply flist_outside; [by destruct Hq|done|done|exact Hm|done].
Qed.

(** A page from the allocator, zeroed. *)
Lemma alloc_zeroed T q l s :
  vm_inv kend T (q :: l) s →
  ∃ s0, kalloc_ me s = Ok q s0 ∧ q ≠ 0 ∧
    let s1 := set_pmem (memset (pmem s0) q 0 PGSIZE) s0 in
    vm_inv kend T l s1 ∧ same_outside q (pmem s) (pmem s1) ∧ (∀ x, q ≤ x < q + 4096 → ldb (pmem s1) x = 0).
Proof.
  intros Hv. destruct (alloc_page T q l s Hv) as (s0 & E & Hq & _ & H). exists s0. split_and!; [done|done|].
  destruct (H _ (same_outside_memset q (pmem s0) 0)) as [H1 H2]. cbv zeta. split_and!; [done|done|].
  intros x Hx. cbn [pmem set_pmem]. rewrite memset_spec by (unfold PGSIZE; lia). by rewrite decide_True by (unfold PGSIZE; lia).
Qed.

(** A page that could not be mapped goes back to the allocator. *)
Lemma refree T q l s s1 T' s2 v pa perm :
  vm_inv kend T (q :: l) s → vm_inv kend T l s1 → same_outside q (pmem s) (pmem s1) →
  mapped kend T l s1 T' [] s2 v 0 pa perm →
  ∃ s3, kfree_ me kend q s2 = Ok tt s3 ∧ mapped kend T (q :: l) s T' [q] s3 v 0 pa perm.
Proof.
  clear Hpsz. intros [V1 V2 V3 V4] Hv1 Hout [M1 M2 M3 M4 M5].
  pose proof V2 as [_ _ _ K4]. inversion K4 as [|? ? Hq K4']; subst. rewrite <-Permutation_middle in V3. inversion V3 as [|? ? Hqn V3']; subst.
  pose proof M1 as [W1 W2 W3 W4].
  destruct (kfree_ok me kend Hend q [] s2 W2 Hq ltac:(set_solver)) as (s3 & E & Hk3 & Hout3).
  rewrite app_nil_r in M3. assert (Hqn' : q ∉ tpages T') by (rewrite M3; done).
  assert (Hf : ∀ p, p ∈ tpages T' → same_page p (pmem s2) (pmem s3)).
  { intros p Hp. rewrite Forall_forall in W4. specialize (W4 p Hp).
    apply (same_outside_page p q); [by destruct W4|by destruct Hq|intros ->; done|done]. }
  exists s3. split; [done|]. constructor.
  - constructor; [by eapply pt_inv_frame|done| |done]. rewrite M3, <-Permutation_cons_append. by constructor.
  - done.
  - rewrite M3, <-!Permutation_middle, app_nil_r. done.
  - intros w. rewrite decide_False by lia. rewrite (entry_frame (pmem s2)) by done. rewrite M4, decide_False by lia.
    apply entry_frame. intros p Hp. rewrite Forall_forall in V4. specialize (V4 p Hp).
    apply (same_outside_page p q); [by destruct V4|by destruct Hq|intros ->; set_solver|done].
  - intros x Hx. assert (x < q ∨ q + 4096 ≤ x) as Hxq by (apply Hx; set_solver).
    rewrite Hout3 by done. rewrite M5; [by apply Hout|]. intros p Hp. apply Hx. rewrite <-Permutation_middle. by right.
Qed.

Lemma vmfault_ok T l s va rd :
  uinv T l s → 0 ≤ va < 18446744073709551616 →
  ∃ r s' T' l', vmfault me kend psz (pt_root T) (pt_root T) va rd s = Ok r s' ∧ same_user T s T' l' s' ∧
    (r ≠ 0 ∧ va < psz ∧ lazy (pmem s) T (va / 4096) = true ∧ upage (pmem s') T' (va / 4096) = Some r ∨
     r = 0 ∧ (psz ≤ va ∨ lazy (pmem s) T (va / 4096) = false ∨ len l' ≤ 1)).
Proof.
  intros HU Hva. assert (HM : MAXVA = 67108864 * 4096) by done.
  unfold Vm.vmfault. destruct (Z.leb_spec psz va) as [Hlt|Hlt].
  { exists 0, s, T, l. split_and!; [done|by apply same_user_refl|]. right. by split; [|left]. }
  cbv zeta. set (va0 := PGROUNDDOWN va). assert (Hva0 : va0 = va / 4096 * 4096) by (unfold va0; rewrite PGROUNDDOWN_eq; unfold PGSIZE; dlia).
  assert (Hv : va0 / 4096 = va / 4096) by (rewrite Hva0; apply Z.div_mul; lia). assert (Ha : page_aligned va0) by apply PGROUNDDOWN_aligned.
  pose proof HU as [U1 U2 U3]. rewrite (bind_ok _ _ _ _ _ (ismapped_ok me kend Hend T l s va0 U1 ltac:(dlia))). rewrite Hv.
  assert (Hlz : lazy (pmem s) T (va / 4096) = negb (has (entry (pmem s) T (va / 4096)) PTE_V)).
  { unfold lazy. rewrite (proj2 (Z.ltb_lt _ psz)) by dlia. done. }
  destruct (has (entry (pmem s) T (va / 4096)) PTE_V) eqn:Hhas; cbn [b2z Z.eqb negb] in *.
  { exists 0, s, T, l. split_and!; [done|by apply same_user_refl|]. right. split; [done|]. right. by left. }
  assert (Hnone : upage (pmem s) T (va / 4096) = None) by (unfold upage; rewrite Hhas; by destruct (_ <? MAXVA)).
  destruct l as [|q l].
  { unfold kalloc_. rewrite (bind_ok _ _ _ _ _ (kalloc_nil me kend s (vi_free _ _ _ _ U1))).
    exists 0, s, T, []. split_and!; [done|by apply same_user_refl|]. right. split; [done|]. by do 2 right. }
  destruct (alloc_zeroed T q l s U1) as (s0 & E0 & Hq0 & Hv1 & Hout & Hz). rewrite (bind_ok _ _ _ _ _ E0).
  destruct (Z.eqb_spec q 0) as [|_]; [done|]. unfold memset_. run.
  set (s1 := set_pmem (memset (pmem s0) q 0 PGSIZE) s0) in *.
  assert (Hq : page_ok kend q) by (destruct U1 as [_ [_ _ _ K4] _ _]; by inversion K4).
  assert (Hqpa : pa_ok q) by (by destruct (page_ok_pa kend Hend q Hq)).
  destruct (mappages_ok me kend Hend T l s1 va0 1 q (Z.lor (Z.lor PTE_W PTE_U) PTE_R)) as (r & s2 & T' & l' & k & E & Hmp & _ & Hr); try done; try dlia.
  { by destruct Hq. }
  { destruct Hqpa; lia. }
  { destruct Hq as [_ Hq]. unfold PHYSTOP, KERNBASE in Hq. lia. }
  { intros w Hw. replace w with (va / 4096) by lia. rewrite <-Hhas. f_equal. apply entry_frame. intros p Hp.
    destruct U1 as [_ _ V3 V4]. rewrite Forall_forall in V4. specialize (V4 p Hp). apply (same_outside_page p q); [by destruct V4|by destruct Hq| |done].
    intros ->. rewrite <-Permutation_middle in V3. inversion V3. set_solver. }
  rewrite Z.mul_1_l in E. rewrite (bind_ok _ _ _ _ _ E). rewrite Hv in Hmp. destruct Hr as [[-> ->]|(-> & Hk & ->)]; cbn [Z.eqb negb].
  - destruct (fault_same_user T q l s s1 T' l' s2 (va / 4096)) as [Hsu Hup]; try done.
    exists q, s2, T', l'. split_and!; [done|done|by left].
  - assert (k = 0) as -> by lia. destruct (refree T q l s s1 T' s2 (va / 4096) q (Z.lor (Z.lor PTE_W PTE_U) PTE_R)) as (s3 & E3 & Hm3); try done.
    rewrite (bind_ok _ _ _ _ _ E3). exists 0, s3, T', [q]. split_and!; [done|by eapply free_same_user|]. right. split; [done|]. by do 2 right.
Qed.

(** ** Copies *)

Lemma user_page_ok T l s va :
  uinv T l s → 0 ≤ va < 18446744073709551616 → page_aligned va →
  ∃ r s' T' l', user_page me kend psz (pt_root T) (pt_root T) va s = Ok r s' ∧ same_user T s T' l' s' ∧
    (r ≠ 0 ∧ upage (pmem s') T' (va / 4096) = Some r ∨
     r = 0 ∧ (upage (pmem s) T (va / 4096) = None ∧ lazy (pmem s) T (va / 4096) = false ∨ len l' ≤ 1)).
Proof.
  intros HU Hva Ha. unfold user_page. rewrite (bind_ok _ _ _ _ _ (walkaddr_ok me kend Hend T l s va (ui_vm _ _ _ HU) ltac:(lia))).
  destruct (upage (pmem s) T (va / 4096)) as [p|] eqn:E; cbn [default from_option id].
  - assert (p ≠ 0) by (destruct (ui_page _ _ _ HU _ _ E) as [[_ ?] _]; lia). destruct (Z.eqb_spec p 0) as [|_]; [done|].
    exists p, s, T, l. split_and!; [done|by apply same_user_refl|by left].
  - destruct (vmfault_ok T l s va 0 HU Hva) as (r & s' & T' & l' & E' & Hsu & Hr).
    exists r, s', T', l'. split_and!; [done|done|]. destruct Hr as [(? & _ & _ & ?)|(-> & Hr)]; [by left|right]. split; [done|].
    destruct Hr as [Hge|[?|?]]; [left|by left|by right]. split; [done|]. unfold lazy.
    unfold page_aligned, PGSIZE in Ha. by rewrite (proj2 (Z.ltb_ge _ psz)) by dlia.
Qed.

(** The bytes the process has from [a] on begin with [bs]. *)
Definition reads (m : mem) (T : ptree) (a : Z) (bs : list Z) : Prop := view_reads (uview m T) a bs.

Lemma reads_app m T a bs1 bs2 : reads m T a bs1 → reads m T (a + len bs1) bs2 → reads m T a (bs1 ++ bs2).
Proof.
  clear Hend Hpsz. intros H1 H2 i x Hx. apply lookup_app_Some in Hx as [Hx|[Hl Hx]]; [by apply H1|].
  apply H2 in Hx. rewrite <-Hx. f_equal. unfold len. lia.
Qed.

Lemma reads_page T m v p off n :
  upage m T v = Some p → 0 ≤ off → 0 ≤ n → off + n ≤ 4096 → reads m T (v * 4096 + off) (mem_read m (p + off) (Z.to_nat n)).
Proof.
  clear Hend Hpsz. intros Hp Ho Hn Hle i x Hx. assert (Hi : (i < Z.to_nat n)%nat).
  { apply lookup_lt_Some in Hx. by rewrite length_mem_read in Hx. }
  rewrite lookup_mem_read in Hx by done. injection Hx as <-. unfold uview.
  replace ((v * 4096 + off + Z.of_nat i) / 4096) with v by dlia. rewrite Hp. do 2 f_equal. dlia.
Qed.

Lemma reads_same m T m' T' a bs : (∀ x, uview m' T' x = uview m T x) → reads m' T' a bs → reads m T a bs.
Proof. clear Hend Hpsz. intros Hs Hr i x Hx. rewrite <-Hs. by apply Hr. Qed.

Lemma uview_none m T a : upage m T (a / 4096) = None → lazy m T (a / 4096) = false → uview m T a = None.
Proof. clear Hend Hpsz. intros H1 H2. unfold uview. by rewrite H1, H2. Qed.

Lemma same_user_trans T s T1 l1 s1 T2 l2 s2 : same_user T s T1 l1 s1 → same_user T1 s1 T2 l2 s2 → same_user T s T2 l2 s2.
Proof. intros [A1 A2 A3 A4] [B1 B2 B3 B4]. constructor; [done|congruence|..]; intros; [by rewrite B3|by rewrite B4]. Qed.

Lemma copyin_loop_ok fuel T l s va n acc :
  uinv T l s → 0 ≤ va < 18446744073709551616 → 0 ≤ n → va mod 4096 + n ≤ (Z.of_nat fuel - 1) * 4096 →
  ∃ r bs s' T' l', copyin_loop me kend psz (pt_root T) fuel (pt_root T) va n acc s = Ok (r, acc ++ bs) s' ∧
    same_user T s T' l' s' ∧ reads (pmem s) T va bs ∧ is_bytes bs ∧
    (r = 0 ∧ len bs = n ∨ r = -1 ∧ len bs < n ∧ (uview (pmem s) T (va + len bs) = None ∨ len l' ≤ 1)).
Proof.
  assert (HM : MAXVA = 67108864 * 4096) by done.
  revert T l s va n acc. induction fuel as [|fuel IH]; intros T l s va n acc HU Hva Hn Hf; [dlia|]. cbn [copyin_loop].
  destruct (Z.eqb_spec n 0) as [->|Hn0].
  { exists 0, [], s, T, l. rewrite app_nil_r. split_and!; [done|by apply same_user_refl|done|constructor|by left]. }
  cbv zeta. set (va0 := PGROUNDDOWN va). assert (Hva0 : va0 = va / 4096 * 4096) by (unfold va0; rewrite PGROUNDDOWN_eq; unfold PGSIZE; dlia).
  assert (Hv : va0 / 4096 = va / 4096) by (rewrite Hva0; apply Z.div_mul; lia).
  destruct (user_page_ok T l s va0 HU) as (p & s1 & T1 & l1 & E & Hsu & Hr); [dlia|apply PGROUNDDOWN_aligned|].
  rewrite (bind_ok _ _ _ _ _ E). rewrite Hv in Hr. destruct Hr as [[Hp0 Hp]|[-> Hr]].
  2:{ exists (-1), [], s1, T1, l1. rewrite app_nil_r. split_and!; [done|done|done|constructor|]. right. split_and!; [done|unfold len; cbn; lia|].
      destruct Hr as [[H1 H2]|H1]; [left|by right]. apply uview_none; unfold len; cbn; by rewrite Z.add_0_r. }
  destruct (Z.eqb_spec p 0) as [|_]; [done|]. assert (Hlt : va / 4096 * 4096 < MAXVA).
  { unfold upage in Hp. destruct (va / 4096 * 4096 <? MAXVA) eqn:?; [lia|done]. }
  rewrite bind_gets. unfold PGSIZE. rewrite u64_id by dlia. pose proof (Z.mod_pos_bound va 4096 ltac:(lia)).
  assert (Hoff : va - va0 = va mod 4096) by dlia. rewrite Hoff.
  set (k := Z.min n (4096 - va mod 4096)). set (bs1 := mem_read (pmem s1) (p + va mod 4096) (Z.to_nat k)).
  assert (Hb1 : len bs1 = k) by (unfold len, bs1; rewrite length_mem_read; lia).
  destruct Hsu as [S1 S2 S3 S4]. assert (Hr1 : reads (pmem s) T va bs1).
  { eapply reads_same; [exact S3|]. replace va with (va / 4096 * 4096 + va mod 4096) at 1 by dlia. apply reads_page; [done|lia..]. }
  assert (Hib : is_bytes bs1) by apply is_bytes_mem_read. rewrite <-S2.
  destruct (IH T1 l1 s1 (va0 + 4096) (n - k) (acc ++ bs1)) as (r & bs2 & s2 & T2 & l2 & E2 & Hsu2 & Hr2 & Hib2 & Hres); [done|dlia|lia| |].
  { replace ((va0 + 4096) mod 4096) with 0 by dlia. lia. }
  rewrite E2. exists r, (bs1 ++ bs2), s2, T2, l2. rewrite app_assoc. rewrite len_app, Hb1.
  assert (Hsu' : same_user T s T2 l2 s2) by (eapply same_user_trans; [by constructor|done]).
  destruct (decide (k = n)) as [Hkn|Hkn].
  - assert (bs2 = []) as -> by (destruct bs2; [done|unfold len in Hres; cbn in Hres; lia]).
    rewrite !app_nil_r. split_and!; try done. unfold len in Hres |- *; cbn in Hres |- *. destruct Hres as [[-> _]|(-> & ? & _)]; [left; lia|lia].
  - assert (Hnext : va + k = va0 + 4096) by dlia. rewrite !Z.add_assoc, Hnext.
    split_and!; [done|done| |by apply Forall_app|].
    + apply reads_app; [done|]. rewrite Hb1, Hnext. eapply reads_same; [exact S3|done].
    + rewrite <-S3. destruct Hres as [[-> ?]|(-> & ? & ?)]; [left; lia|right; split_and!; done || lia].
Qed.

(** The process sees [bs] at [va] and the rest as it was. *)
Record copied (T : ptree) (s : kmem) (T' : ptree) (l' : list Z) (s' : kmem) (va : Z) (bs : list Z) : Prop := {
  co_inv : uinv T' l' s';
  co_root : pt_root T' = pt_root T;
  co_view : ∀ a, uview (pmem s') T' a =
    view_write (uview (pmem s) T) va bs a;
  co_wr : ∀ v, uwritable (pmem s') T' v = uwritable (pmem s) T v;
}.

Lemma copied_nil T s T' l' s' va : same_user T s T' l' s' → copied T s T' l' s' va [].
Proof. intros [S1 S2 S3 S4]. constructor; try done. intros a. unfold view_write. rewrite decide_False by (unfold len; cbn; lia). apply S3. Qed.

Lemma copied_app T s T1 l1 s1 T2 l2 s2 va bs1 bs2 :
  copied T s T1 l1 s1 va bs1 → copied T1 s1 T2 l2 s2 (va + len bs1) bs2 → copied T s T2 l2 s2 va (bs1 ++ bs2).
Proof.
  intros [A1 A2 A3 A4] [B1 B2 B3 B4]. constructor; [done|congruence| |intros v; by rewrite B4].
  intros a. unfold view_write in *. rewrite B3, A3, len_app. unfold len. repeat case_decide; try lia; try done.
  - rewrite lookup_app_r by lia. f_equal. lia.
  - rewrite lookup_app_l by lia. done.
Qed.

Lemma same_user_copied T s T1 l1 s1 T2 l2 s2 va bs :
  same_user T s T1 l1 s1 → copied T1 s1 T2 l2 s2 va bs → copied T s T2 l2 s2 va bs.
Proof.
  intros [A1 A2 A3 A4] [B1 B2 B3 B4]. constructor; [done|congruence| |intros v; by rewrite B4]. intros a. unfold view_write in *. by rewrite B3, A3.
Qed.

(** A write inside one user page. *)
Lemma copied_page T l s v p off bs :
  uinv T l s → upage (pmem s) T v = Some p → 0 ≤ off → off + len bs ≤ 4096 → is_bytes bs →
  copied T s T l (set_pmem (mem_write (pmem s) (p + off) bs) s) (v * 4096 + off) bs.
Proof.
  intros HU Hp Ho Hle Hb. pose proof HU as [U1 U2 U3]. destruct (U2 _ _ Hp) as [Hpo Hpn].
  assert (Hs : ∀ q, page_ok kend q → q ≠ p → same_page q (pmem s) (mem_write (pmem s) (p + off) bs)).
  { intros q Hq Hne x Hx. apply ldb_write_out. pose proof (pages_disjoint q p (proj1 Hq) (proj1 Hpo) Hne) as Hd.
    unfold disjoint_ranges, PGSIZE in Hd. lia. }
  assert (Ha : ∀ q, q ∈ tpages T ++ l → same_page q (pmem s) (mem_write (pmem s) (p + off) bs)).
  { intros q Hq. apply Hs; [|by intros ->]. destruct U1 as [_ [_ _ _ K4] _ V4]. rewrite Forall_forall in K4, V4.
    apply elem_of_app in Hq as [|]; auto. }
  assert (Ht : ∀ q, q ∈ tpages T → same_page q (pmem s) (mem_write (pmem s) (p + off) bs)).
  { intros q Hq. apply Ha, elem_of_app. by left. }
  constructor; [constructor; cbn [pmem set_pmem]|done| |]; cbn [pmem set_pmem].
  - by apply vm_frame.
  - intros w q. rewrite (upage_frame (pmem s)) by done. apply U2.
  - intros w w' q. rewrite (upage_frame (pmem s) _ T w), (upage_frame (pmem s) _ T w') by done. apply U3.
  - intros a. unfold view_write, uview. rewrite (upage_frame (pmem s)), (lazy_frame (pmem s)) by done.
    pose proof (Z.mod_pos_bound a 4096 ltac:(lia)). pose proof (Z.div_mod a 4096 ltac:(lia)).
    destruct (decide (a / 4096 = v)) as [Hav|Hav].
    + rewrite Hav, Hp, ldb_write. repeat case_decide; try lia; [|done].
      replace (p + a mod 4096 - (p + off)) with (a - (v * 4096 + off)) by lia. unfold znth. destruct (_ <? 0) eqn:?; [lia|].
      destruct (lookup_lt_is_Some_2 bs (Z.to_nat (a - (v * 4096 + off)))) as [x Hx]; [unfold len in *; lia|].
      rewrite Hx. cbn. f_equal. apply u8_byte. unfold is_bytes in Hb. by apply (Forall_lookup_1 _ _ _ _ Hb Hx).
    + rewrite decide_False by dlia. destruct (upage (pmem s) T (a / 4096)) as [q|] eqn:E; [|done].
      f_equal. apply (Hs q); [by apply (U2 _ _ E)| |lia]. intros ->. apply Hav. by eapply U3.
  - intros w. unfold uwritable. by rewrite (upage_frame (pmem s)), (lazy_frame (pmem s)), (entry_frame (pmem s)) by done.
Qed.

(** The entry [copyout] looks at before it writes. *)
Lemma walk_writable T l s va p :
  vm_inv kend T l s → 0 ≤ va < MAXVA → upage (pmem s) T (va / 4096) = Some p →
  ∃ e, walk me (pt_root T) va 0 s = Ok e s ∧ has (load64 (pmem s) e) PTE_W = uwritable (pmem s) T (va / 4096).
Proof.
  intros Hv Hva Hp. rewrite (walk_find me kend Hend T l s va Hv Hva). eexists. split; [done|].
  unfold uwritable. rewrite Hp. unfold entry. unfold upage, entry in Hp.
  destruct (pt_l0 T !! (va / 4096 / 512)); [done|]. by destruct (_ <? MAXVA).
Qed.

Lemma copyout_loop_ok fuel T l s va src :
  uinv T l s → 0 ≤ va < 18446744073709551616 → is_bytes src → va mod 4096 + len src ≤ (Z.of_nat fuel - 1) * 4096 →
  ∃ r k s' T' l', copyout_loop me kend psz (pt_root T) fuel (pt_root T) va src s = Ok r s' ∧
    copied T s T' l' s' va (take k src) ∧ (∀ i, 0 ≤ i < Z.of_nat k → uwritable (pmem s) T ((va + i) / 4096) = true) ∧
    (r = 0 ∧ k = length src ∨
     r = -1 ∧ (k < length src)%nat ∧ (uwritable (pmem s) T ((va + Z.of_nat k) / 4096) = false ∨ len l' ≤ 1)).
Proof.
  assert (HM : MAXVA = 67108864 * 4096) by done.
  revert T l s va src. induction fuel as [|fuel IH]; intros T l s va src HU Hva Hb Hf; [unfold len in *; dlia|]. cbn [copyout_loop].
  destruct (Z.eqb_spec (len src) 0) as [Hn0|Hn0].
  { exists 0, (length src), s, T, l. destruct src; [|done]. split_and!; [done|by apply copied_nil, same_user_refl|cbn; lia|by left]. }
  cbv zeta. set (va0 := PGROUNDDOWN va). assert (Hva0 : va0 = va / 4096 * 4096) by (unfold va0; rewrite PGROUNDDOWN_eq; unfold PGSIZE; dlia).
  assert (Hv : va0 / 4096 = va / 4096) by (rewrite Hva0; apply Z.div_mul; lia).
  assert (Hpos : (0 < length src)%nat) by (unfold len in Hn0; lia).
  destruct (Z.leb_spec MAXVA va0) as [Hbig|Hlt].
  { exists (-1), 0%nat, s, T, l. split_and!; [done|by apply copied_nil, same_user_refl|lia|]. right. split_and!; [done|done|left].
    rewrite Z.add_0_r. unfold uwritable, upage, lazy. rewrite <-Hva0.
    destruct (va0 <? MAXVA) eqn:?; [lia|]. cbn. destruct (va0 <? psz) eqn:?; [lia|done]. }
  destruct (user_page_ok T l s va0 HU) as (p & s1 & T1 & l1 & E & Hsu & Hr); [dlia|apply PGROUNDDOWN_aligned|].
  rewrite (bind_ok _ _ _ _ _ E). rewrite Hv in Hr. destruct Hr as [[Hp0 Hp]|[-> Hr]].
  2:{ exists (-1), 0%nat, s1, T1, l1. split_and!; [done|by apply copied_nil|lia|]. right. split_and!; [done|done|].
      destruct Hr as [[H1 H2]|H1]; [left|by right]. rewrite Z.add_0_r. unfold uwritable. by rewrite H1. }
  destruct (Z.eqb_spec p 0) as [|_]; [done|]. pose proof Hsu as [S1 S2 S3 S4].
  destruct (walk_writable T1 l1 s1 va0 p) as (e & Ew & Hw); [by destruct S1|dlia|by rewrite Hv|]. rewrite S2 in Ew.
  rewrite (bind_ok _ _ _ _ _ Ew). unfold ldpte. rewrite bind_gets, Hw, Hv, S4.
  destruct (uwritable (pmem s) T (va / 4096)) eqn:Hwr; cbn [negb].
  2:{ exists (-1), 0%nat, s1, T1, l1. split_and!; [done|by apply copied_nil|lia|]. right. split_and!; [done|done|left]. by rewrite Z.add_0_r. }
  run. unfold PGSIZE. rewrite u64_id by dlia. pose proof (Z.mod_pos_bound va 4096 ltac:(lia)).
  assert (Hoff : va - va0 = va mod 4096) by dlia. rewrite Hoff. set (k := Z.to_nat (Z.min (len src) (4096 - va mod 4096))).
  assert (Hk : (k ≤ length src)%nat) by (unfold k, len; lia). assert (Hlk : len (take k src) = Z.of_nat k) by (unfold len; rewrite length_take; lia).
  pose proof (copied_page T1 l1 s1 (va / 4096) p (va mod 4096) (take k src) S1 Hp ltac:(lia) ltac:(rewrite Hlk; unfold k; lia) ltac:(by apply Forall_take)) as Hc.
  replace (va / 4096 * 4096 + va mod 4096) with va in Hc by dlia.
  pose proof (same_user_copied _ _ _ _ _ _ _ _ _ _ Hsu Hc) as Hc'. rewrite <-S2.
  destruct (IH T1 l1 (set_pmem (mem_write (pmem s1) (p + va mod 4096) (take k src)) s1) (va0 + 4096) (drop k src)) as (r & k' & s2 & T2 & l2 & E2 & Hc2 & Hwr2 & Hres);
    [by destruct Hc|dlia|by apply Forall_drop| |].
  { replace ((va0 + 4096) mod 4096) with 0 by dlia. unfold len. rewrite length_drop. unfold len in *. lia. }
  rewrite length_drop in Hres. exists r, (k + k')%nat, s2, T2, l2. rewrite <-take_take_drop. split; [exact E2|].
  assert (Hwk : ∀ i, 0 ≤ i < Z.of_nat k → uwritable (pmem s) T ((va + i) / 4096) = true).
  { intros i Hi. replace ((va + i) / 4096) with (va / 4096); [done|]. unfold k in Hi. dlia. }
  destruct (decide (k = length src)) as [Hkn|Hkn].
  - assert (k' = 0%nat) as -> by lia. rewrite take_0, app_nil_r, Nat.add_0_r. split_and!; [|done|destruct Hres as [[-> _]|(-> & ? & _)]; [left; lia|lia]].
    rewrite <-(app_nil_r (take k src)). eapply copied_app; [exact Hc'|]. destruct Hc2 as [C1 C2 C3 C4].
    apply copied_nil. constructor; try done. intros a. rewrite C3. unfold view_write. rewrite decide_False; [done|]. rewrite take_0. unfold len. cbn. lia.
  - assert (Hnext : va + Z.of_nat k = va0 + 4096) by (unfold k, len in *; dlia). split_and!.
    + eapply copied_app; [exact Hc'|]. by rewrite Hlk, Hnext.
    + intros i Hi. destruct (decide (i < Z.of_nat k)) as [|Hge]; [apply Hwk; lia|].
      replace (va + i) with (va0 + 4096 + (i - Z.of_nat k)) by lia. destruct Hc' as [C1 C2 C3 C4]. rewrite <-C4. apply Hwr2. lia.
    + replace (va + Z.of_nat (k + k')) with (va0 + 4096 + Z.of_nat k') by lia. destruct Hc' as [C1 C2 C3 C4]. rewrite <-C4.
      destruct Hres as [[-> ?]|(-> & ? & ?)]; [left; lia|right; split_and!; done || lia].
Qed.

(** ** The routines *)

Lemma copy_fuel_enough va n : 0 ≤ n → va mod 4096 + n ≤ (Z.of_nat (copy_fuel n) - 1) * 4096.
Proof. clear Hend Hpsz. intros Hn. unfold copy_fuel, PGSIZE. dlia. Qed.

Lemma copyin_ok T l s va n :
  uinv T l s → 0 ≤ va < 18446744073709551616 → 0 ≤ n →
  ∃ r bs s' T' l', copyin me kend psz (pt_root T) (pt_root T) va n s = Ok (r, bs) s' ∧
    same_user T s T' l' s' ∧ reads (pmem s) T va bs ∧ is_bytes bs ∧
    (r = 0 ∧ len bs = n ∨ r = -1 ∧ len bs < n ∧ (uview (pmem s) T (va + len bs) = None ∨ len l' ≤ 1)).
Proof. intros HU Hva Hn. apply (copyin_loop_ok _ T l s va n []); [done|done|done|by apply copy_fuel_enough]. Qed.

Lemma copyout_ok T l s va src :
  uinv T l s → 0 ≤ va < 18446744073709551616 → is_bytes src →
  ∃ r k s' T' l', copyout me kend psz (pt_root T) (pt_root T) va src s = Ok r s' ∧
    copied T s T' l' s' va (take k src) ∧ (∀ i, 0 ≤ i < Z.of_nat k → uwritable (pmem s) T ((va + i) / 4096) = true) ∧
    (r = 0 ∧ k = length src ∨
     r = -1 ∧ (k < length src)%nat ∧ (uwritable (pmem s) T ((va + Z.of_nat k) / 4096) = false ∨ len l' ≤ 1)).
Proof. intros HU Hva Hb. apply (copyout_loop_ok _ T l); [done|done|done|]. apply copy_fuel_enough. unfold len. lia. Qed.

(** The process of size [psz] with its page table at [root]. *)
Definition vm_rep (root : Z) (s : kmem) (view : Z → option Z) : Prop :=
  ∃ T l, uinv T l s ∧ pt_root T = root ∧ ∀ a, uview (pmem s) T a = view a.

Definition vm_user_mem (root : Z) : UserMem kmem := {|
  u_copyout := copyout me kend psz root root;
  u_copyin := copyin me kend psz root root;
|}.

(** kernel/vm.c keeps the promises of [UserMemSpec]. *)
Program Definition vm_user_mem_spec (root : Z) : UserMemSpec kmem (UM := vm_user_mem root) := {|
  u_rep := vm_rep root;
|}.
Next Obligation. intros root u v v' (T & l & H1 & H2 & H3) Hv. exists T, l. split_and!; [done|done|]. intros a. by rewrite H3. Qed.
Next Obligation.
  intros root dst bs s view (T & l & HU & <- & Hview) Hd Hb.
  destruct (copyout_ok T l s dst bs HU Hd Hb) as (r & k & s' & T' & l' & E & [C1 C2 C3 C4] & _ & Hr).
  exists r, k, s'. split_and!; [done| |naive_solver]. exists T', l'. split_and!; [done|done|].
  intros a. rewrite C3. unfold view_write. by rewrite Hview.
Qed.
Next Obligation.
  intros root src n s view (T & l & HU & <- & Hview) Hd Hn.
  destruct (copyin_ok T l s src n HU Hd Hn) as (r & bs & s' & T' & l' & E & [S1 S2 S3 S4] & Hrd & Hb & Hr).
  exists r, bs, s'. split_and!; [done| | |done|naive_solver].
  - exists T', l'. split_and!; [done|done|]. intros a. by rewrite S3.
  - intros i x Hx. rewrite <-Hview. by apply Hrd.
Qed.
End user.

(** ** Theorems *)

Section theorems.
  Context (me kend : Z) (Hend : 0 < kend).

(** C28: [mappages] maps the whole range or reports that the allocator is empty.
    The page table stays well formed, every entry of the range that was set
    points to its physical page with the permissions asked for, and no other
    entry changes. *)
Theorem mappages_spec T l s va n pa perm :
  vm_inv kend T l s → page_aligned va → 0 ≤ va → 0 < n → va + n * 4096 ≤ MAXVA →
  page_aligned pa → 0 ≤ pa → pa + n * 4096 ≤ 72057594037927936 → 0 ≤ perm < 1024 →
  (∀ w, va / 4096 ≤ w < va / 4096 + n → has (entry (pmem s) T w) PTE_V = false) →
  ∃ r s' T' l' k, mappages me (pt_root T) va (n * PGSIZE) pa perm s = Ok r s' ∧
    vm_inv kend T' l' s' ∧ pt_root T' = pt_root T ∧
    (∀ w, entry (pmem s') T' w =
      if decide (va / 4096 ≤ w < va / 4096 + k) then mkpte (pa + (w - va / 4096) * 4096) perm else entry (pmem s) T w) ∧
    ((r = 0 ∧ k = n) ∨ (r = -1 ∧ 0 ≤ k < n ∧ l' = [])).
Proof.
  intros. destruct (mappages_ok me kend Hend T l s va n pa perm) as (r & s' & T' & l' & k & E & [M1 M2 M3 M4 M5] & _ & Hr); try done.
  by exists r, s', T', l', k.
Qed.

(** C29: demand paging is invisible.  For every faulting address, as the
    hardware reports it, [vmfault] returns without a panic.  It returns a page
    only for an address below the size of the process on a page that is not
    there yet, and then that page, readable and writable, is mapped around the
    address.  It returns 0 only when the address is beyond the size, the page
    is there already or the allocator is down to its last page.  In every case
    the process sees the same memory, with the same write permissions. *)
Theorem vmfault_invisible psz T l s va rd :
  psz ≤ MAXVA → uinv kend T l s → 0 ≤ va < 18446744073709551616 →
  ∃ r s' T' l', vmfault me kend psz (pt_root T) (pt_root T) va rd s = Ok r s' ∧ same_user kend psz T s T' l' s' ∧
    (r ≠ 0 ∧ va < psz ∧ lazy psz (pmem s) T (va / 4096) = true ∧ upage (pmem s') T' (va / 4096) = Some r ∧
       uwritable psz (pmem s') T' (va / 4096) = true ∨
     r = 0 ∧ (psz ≤ va ∨ lazy psz (pmem s) T (va / 4096) = false ∨ len l' ≤ 1)).
Proof.
  intros Hp HU Hva. destruct (vmfault_ok me kend Hend psz Hp T l s va rd HU Hva) as (r & s' & T' & l' & E & Hsu & Hr).
  exists r, s', T', l'. split_and!; [done|done|]. destruct Hr as [(? & ? & Hlz & ?)|?]; [left|by right]. split_and!; try done.
  rewrite (su_wr _ _ _ _ _ _ _ Hsu). unfold uwritable. destruct (upage (pmem s) T (va / 4096)) as [p|] eqn:Eu; [|done].
  unfold upage in Eu. unfold lazy in Hlz. destruct (has (entry (pmem s) T (va / 4096)) PTE_V); [by rewrite andb_false_r in Hlz|]. by destruct (_ <? MAXVA).
Qed.

(** what [copyout] copies to the user, [copyin] copies back.  [copyout]
    returns whatever the address and the length; if it returns 0, [copyin] of
    the same range fails for want of memory alone, and otherwise delivers the
    same bytes. *)
Theorem copyout_copyin psz T l s va bs s1 :
  psz ≤ MAXVA → uinv kend T l s → 0 ≤ va < 18446744073709551616 → is_bytes bs →
  copyout me kend psz (pt_root T) (pt_root T) va bs s = Ok 0 s1 →
  ∃ s2, copyin me kend psz (pt_root T) (pt_root T) va (len bs) s1 = Ok (0, bs) s2 ∨
    ∃ T' l', uinv kend T' l' s2 ∧ len l' ≤ 1.
Proof.
  intros Hp HU Hva Hb E. destruct (copyout_ok me kend Hend psz Hp T l s va bs HU Hva Hb) as (r & k & s' & T' & l' & E' & [C1 C2 C3 C4] & _ & Hr).
  rewrite E in E'. injection E' as <- <-. destruct Hr as [[_ ->]|[? _]]; [|done]. rewrite firstn_all in C3. rewrite <-C2.
  destruct (copyin_ok me kend Hend psz Hp T' l' s1 va (len bs) C1 Hva ltac:(unfold len; lia)) as (r & bs' & s2 & T2 & l2 & E2 & Hsu & Hrd & _ & Hr).
  assert (Hin : ∀ i, 0 ≤ i < len bs → uview psz (pmem s1) T' (va + i) = bs !! Z.to_nat i).
  { intros i Hi. rewrite C3. unfold view_write. rewrite decide_True by lia. f_equal. lia. }
  exists s2. destruct Hr as [[-> Hl]|(-> & Hlt & [Hn|Hl])].
  - left. rewrite E2. do 2 f_equal. apply list_eq_same_length with (n := length bs); [done|unfold len in Hl; lia|].
    intros i x y Hi Hx Hy. specialize (Hrd i x Hx). rewrite Hin in Hrd by (unfold len; lia). rewrite Nat2Z.id in Hrd. congruence.
  - rewrite Hin in Hn by (unfold len in *; lia). apply lookup_ge_None in Hn. unfold len in *. lia.
  - right. exists T2, l2. by destruct Hsu.
Qed.

(** C3: [copyin] and [copyout] work on the memory the process sees, for every
    user address and length.  [copyout] writes a prefix of the bytes, changes
    nothing else that the process sees and writes to pages the process may
    write to only; it returns 0 when it has written all of them, and -1 only
    when the next byte lies on a page that the process may not write to (it has
    none there, or a read-only one) or the allocator is down to its last page.
    [copyin] reads a prefix of what the process has at the address and changes
    nothing; it returns 0 when it has all [n] bytes, and -1 only when the
    process has no byte at the next address or the allocator is down to its
    last page. *)
Theorem vm_copy_refines psz T l s va n bs :
  psz ≤ MAXVA → uinv kend T l s → 0 ≤ va < 18446744073709551616 → 0 ≤ n → is_bytes bs →
  (∃ r k s' T' l', copyout me kend psz (pt_root T) (pt_root T) va bs s = Ok r s' ∧ copied kend psz T s T' l' s' va (take k bs) ∧
     (∀ i, 0 ≤ i < Z.of_nat k → uwritable psz (pmem s) T ((va + i) / 4096) = true) ∧
     (r = 0 ∧ k = length bs ∨
      r = -1 ∧ (k < length bs)%nat ∧ (uwritable psz (pmem s) T ((va + Z.of_nat k) / 4096) = false ∨ len l' ≤ 1))) ∧
  (∃ r bs' s' T' l', copyin me kend psz (pt_root T) (pt_root T) va n s = Ok (r, bs') s' ∧ same_user kend psz T s T' l' s' ∧
     view_reads (uview psz (pmem s) T) va bs' ∧
     (r = 0 ∧ len bs' = n ∨
      r = -1 ∧ len bs' < n ∧ (uview psz (pmem s) T (va + len bs') = None ∨ len l' ≤ 1))).
Proof.
  intros Hp HU Hva Hn Hb. split; [by apply (copyout_ok me kend Hend psz Hp T l)|].
  destruct (copyin_ok me kend Hend psz Hp T l s va n HU Hva Hn) as (r & bs' & s' & T' & l' & ? & ? & ? & _ & ?). by exists r, bs', s', T', l'.
Qed.

(** C40: the size of a process has to stay below [MAXVA]: once it is larger,
    as [sys_sbrk] with lazy allocation lets it become, an address between
    [MAXVA] and the size makes [copyin] panic. *)
Theorem copyin_beyond_maxva_panics psz T l s va n :
  vm_inv kend T l s → MAXVA ≤ PGROUNDDOWN va → PGROUNDDOWN va < psz → 0 < n →
  copyin me kend psz (pt_root T) (pt_root T) va n s = Panic "walk".
Proof.
  intros Hv Hva Hp Hn. assert (HM : 0 < MAXVA) by done. unfold copyin. pose proof (copy_fuel_enough 0 n ltac:(lia)) as Hf.
  destruct (copy_fuel n) as [|fuel]; [rewrite Zmod_0_l in Hf; lia|]. cbn [copyin_loop]. destruct (Z.eqb_spec n 0); [lia|]. cbv zeta.
  set (va0 := PGROUNDDOWN va) in *. unfold user_page. rewrite bind_assoc.
  rewrite (bind_ok _ _ _ _ _ (walkaddr_ok me kend Hend T l s va0 Hv ltac:(lia))).
  assert (Hup : upage (pmem s) T (va0 / 4096) = None).
  { unfold upage. replace (va0 / 4096 * 4096) with va0; [destruct (va0 <? MAXVA) eqn:?; [lia|done]|].
    pose proof (PGROUNDDOWN_aligned va) as Ha. fold va0 in Ha. unfold page_aligned, PGSIZE in Ha. dlia. }
  rewrite Hup. cbn [default from_option id Z.eqb]. unfold vmfault. destruct (Z.leb_spec psz va0); [lia|].
  rewrite (PGROUNDDOWN_id va0) by apply PGROUNDDOWN_aligned. cbv zeta. unfold ismapped, walk.
  destruct (Z.leb_spec MAXVA va0); [done|lia].
Qed.
End theorems.

(** ** An instance *)

(** A process with an empty page table and three free pages. *)
Definition dend : Z := 2147483648.
Definition dtree : ptree := mkptree 2147483648 ∅ ∅.
Definition dfree : list Z := [2147487744; 2147491840; 2147495936; 2147500032].
Definition dkmem : kmem :=
  mkkmem (initlock "kmem") 2147487744
    (store64 (store64 (store64 (λ _, 0) 2147487744 2147491840) 2147491840 2147495936) 2147495936 2147500032).

Lemma dkmem_uinv : uinv dend dtree dfree dkmem.
Proof.
  assert (Hroot : ∀ v, entry (pmem dkmem) dtree v = 0) by done.
  constructor; [constructor|..].
  - constructor; [|done..]. intros i Hi. cbn [pt_l1 dtree]. rewrite lookup_empty. cbn [pmem dkmem pt_root dtree].
    unfold store64. rewrite !(load_store_ne 8 8) by (unfold disjoint_ranges; lia). by vm_compute.
  - constructor; [done| | |].
    + cbn. split_and!; by vm_compute.
    + unfold dfree. repeat constructor; set_solver.
    + unfold dfree, page_ok, page_aligned, dend, PHYSTOP, KERNBASE, PGSIZE. rewrite !Forall_cons, Forall_nil. split_and!; done || lia.
  - unfold dfree, tpages, dtree. cbn. repeat constructor; set_solver.
  - unfold tpages, dtree, page_ok, page_aligned, dend, PHYSTOP, KERNBASE, PGSIZE. cbn. rewrite Forall_cons, Forall_nil. split_and!; done || lia.
  - intros v p. unfold upage. rewrite Hroot. by destruct (_ <? MAXVA).
  - intros v w p. unfold upage. rewrite Hroot. by destruct (_ <? MAXVA).
Qed.

Lemma vmfault_invisible_witness :
  ∃ r s' T' l', vmfault 0 dend 8192 (pt_root dtree) (pt_root dtree) 5003 0 dkmem = Ok r s' ∧ same_user dend 8192 dtree dkmem T' l' s' ∧
    (r ≠ 0 ∧ 5003 < 8192 ∧ lazy 8192 (pmem dkmem) dtree (5003 / 4096) = true ∧ upage (pmem s') T' (5003 / 4096) = Some r ∧
       uwritable 8192 (pmem s') T' (5003 / 4096) = true ∨
     r = 0 ∧ (8192 ≤ 5003 ∨ lazy 8192 (pmem dkmem) dtree (5003 / 4096) = false ∨ len l' ≤ 1)).
Proof. apply (vmfault_invisible 0 dend eq_refl 8192 dtree dfree dkmem 5003 0); [done|exact dkmem_uinv|lia]. Defined.

Definition dcopied : kmem := match copyout 0 dend 8192 2147483648 2147483648 5000 [1; 2; 3] dkmem with Ok _ s => s | _ => dkmem end.

Lemma copyout_copyin_witness :
  ∃ s2, copyin 0 dend 8192 2147483648 2147483648 5000 3 dcopied = Ok (0, [1; 2; 3]) s2 ∨
    ∃ T' l', uinv dend T' l' s2 ∧ len l' ≤ 1.
Proof.
  apply (copyout_copyin 0 dend eq_refl 8192 dtree dfree dkmem 5000 [1; 2; 3] dcopied); [done|exact dkmem_uinv|lia|repeat constructor; lia|].
  unfold dcopied. destruct (copyout_ok 0 dend eq_refl 8192 ltac:(done) dtree dfree dkmem 5000 [1; 2; 3] dkmem_uinv ltac:(lia) ltac:(repeat constructor; lia))
    as (r & k & s' & T' & l' & E & _). cbn [pt_root dtree] in *.
  assert (Hr : match copyout 0 dend 8192 2147483648 2147483648 5000 [1; 2; 3] dkmem with Ok r _ => r | _ => 1 end = 0) by (vm_compute; reflexivity).
  rewrite E in *. by rewrite Hr.
Defined.

Lemma vm_copy_refines_witness :
  (∃ r k s' T' l', copyout 0 dend 8192 2147483648 2147483648 5000 [7] dkmem = Ok r s' ∧ copied dend 8192 dtree dkmem T' l' s' 5000 (take k [7]) ∧
     (∀ i, 0 ≤ i < Z.of_nat k → uwritable 8192 (pmem dkmem) dtree ((5000 + i) / 4096) = true) ∧
     (r = 0 ∧ k = length [7] ∨
      r = -1 ∧ (k < length [7])%nat ∧ (uwritable 8192 (pmem dkmem) dtree ((5000 + Z.of_nat k) / 4096) = false ∨ len l' ≤ 1))) ∧
  (∃ r bs' s' T' l', copyin 0 dend 8192 2147483648 2147483648 5000 1 dkmem = Ok (r, bs') s' ∧ same_user dend 8192 dtree dkmem T' l' s' ∧
     view_reads (uview 8192 (pmem dkmem) dtree) 5000 bs' ∧
     (r = 0 ∧ len bs' = 1 ∨
      r = -1 ∧ len bs' < 1 ∧ (uview 8192 (pmem dkmem) dtree (5000 + len bs') = None ∨ len l' ≤ 1))).
Proof. apply (vm_copy_refines 0 dend eq_refl 8192 dtree dfree dkmem 5000 1 [7]); [done|exact dkmem_uinv|lia|lia|repeat constructor; lia]. Defined.

Lemma copyin_beyond_maxva_panics_witness : copyin 0 dend (MAXVA + 8192) 2147483648 2147483648 (MAXVA + 5) 1 dkmem = Panic "walk".
Proof. apply (copyin_beyond_maxva_panics 0 dend eq_refl (MAXVA + 8192) dtree dfree dkmem); [exact (ui_vm _ _ _ _ dkmem_uinv)|done|done|lia]. Defined.

Lemma mappages_spec_witness :
  ∃ r s' T' l' k, mappages 0 2147483648 4096 (2 * PGSIZE) KERNBASE PTE_R dkmem = Ok r s' ∧
    vm_inv dend T' l' s' ∧ pt_root T' = 2147483648 ∧
    (∀ w, entry (pmem s') T' w =
      if decide (4096 / 4096 ≤ w < 4096 / 4096 + k) then mkpte (KERNBASE + (w - 4096 / 4096) * 4096) PTE_R else entry (pmem dkmem) dtree w) ∧
    ((r = 0 ∧ k = 2) ∨ (r = -1 ∧ 0 ≤ k < 2 ∧ l' = [])).
Proof.
  apply (mappages_spec 0 dend eq_refl dtree dfree dkmem 4096 2 KERNBASE PTE_R);
    [exact (ui_vm _ _ _ _ dkmem_uinv)|done|lia|lia|done|done|done|done|done|done].
Defined.
