(* ===== verification/VmCopy.v ===== *)
(** kernel/vm.c: the memory of a child process.

    [uvmcopy] gives the child of [fork] pages of its own with the contents and
    the permissions of the pages of the parent, or, when memory runs out, takes
    every page back with [uvmunmap].  The pages of a process are a map from page
    numbers to physical pages; [moves] says that the pages of a process, its
    page table and the free list only exchange pages. *)

From stdpp Require Import base tactics list numbers strings gmap sets.
From S2P Require Import Prelude Param Bytes CString Spinlock UserSpec Kalloc Vm VmTree VmMap VmUser.
From Stdlib Require Import ZArith Lia.

Open Scope kernel_scope.

(** The physical pages of a map. *)
Definition vals (c : gmap Z Z) : list Z := (map_to_list c).*2.

Lemma vals_insert c w q : c !! w = None → vals (<[w:=q]> c) ≡ₚ q :: vals c.
Proof. intros H. unfold vals. by rewrite map_to_list_insert. Qed.

Lemma vals_delete c w q : c !! w = Some q → vals c ≡ₚ q :: vals (delete w c).
Proof. intros H. unfold vals. by rewrite <-(map_to_list_delete c w q). Qed.

Lemma vals_inj c w w' q : NoDup (vals c) → c !! w = Some q → c !! w' = Some q → w = w'.
Proof.
  intros Hn H H'. destruct (decide (w = w')) as [|Hne]; [done|exfalso]. rewrite (vals_delete c w q) in Hn by done.
  inversion Hn as [|? ? Hq _]; subst. apply Hq, (elem_of_values _ w'). by rewrite lookup_delete_ne.
Qed.

Section copy.
  Context (me kend : Z) (Hend : 0 < kend).
  Context (n : Z) (Hn : 0 ≤ n) (Hmax : n * 4096 ≤ MAXVA).

(** ** The pages of a process *)

(** The valid entries of the first [n] pages of [T] are those of the pages [c]. *)
Record owns (T : ptree) (c : gmap Z Z) (l : list Z) (s : kmem) : Prop := {
  ow_inv : vm_inv kend T l s;
  ow_nodup : NoDup (vals c ++ tpages T ++ l);
  ow_pages : Forall (page_ok kend) (vals c);
  ow_some : ∀ w q, c !! w = Some q → 0 ≤ w < n ∧ has (entry (pmem s) T w) PTE_V = true ∧ PTE2PA (entry (pmem s) T w) = q;
  ow_none : ∀ w, 0 ≤ w < n → c !! w = None → has (entry (pmem s) T w) PTE_V = false;
}.

Record moves (T : ptree) (c : gmap Z Z) (l : list Z) (s : kmem) (T' : ptree) (c' : gmap Z Z) (l' : list Z) (s' : kmem) : Prop := {
  mv_owns : owns T' c' l' s';
  mv_root : pt_root T' = pt_root T;
  mv_perm : vals c' ++ tpages T' ++ l' ≡ₚ vals c ++ tpages T ++ l;
  mv_entry : ∀ w, ¬ 0 ≤ w < n → entry (pmem s') T' w = entry (pmem s) T w;
  mv_out : ∀ x, (∀ p, p ∈ vals c ++ tpages T ++ l → x < p ∨ p + 4096 ≤ x) → ldb (pmem s') x = ldb (pmem s) x;
}.

Lemma moves_refl T c l s : owns T c l s → moves T c l s T c l s.
Proof. by constructor. Qed.

Lemma moves_trans T c l s T1 c1 l1 s1 T2 c2 l2 s2 :
  moves T c l s T1 c1 l1 s1 → moves T1 c1 l1 s1 T2 c2 l2 s2 → moves T c l s T2 c2 l2 s2.
Proof.
  intros [A1 A2 A3 A4 A5] [B1 B2 B3 B4 B5]. constructor; [done|congruence|by rewrite B3| |].
  - intros w Hw. by rewrite B4, A4.
  - intros x Hx. rewrite B5, A5; [done|done|]. intros p Hp. apply Hx. by rewrite <-A3.
Qed.

Lemma pages_of_owns T c l s p : owns T c l s → p ∈ vals c ++ tpages T ++ l → page_ok kend p.
Proof.
  intros [[_ [_ _ _ O1] _ O2] _ O3 _ _]. rewrite Forall_forall in O1, O2, O3. rewrite !elem_of_app. naive_solver.
Qed.

(** ** Unmapping *)

(** A page of the process goes back to the free list. *)
Lemma free_one T c l s w q :
  owns T c l s → c !! w = Some q →
  ∃ q0 s1, pt_l0 T !! (w / 512) = Some q0 ∧ kfree_ me kend q s = Ok tt s1 ∧
    load64 (pmem s) (q0 + 8 * (w mod 512)) = entry (pmem s) T w ∧ q0 ≠ 0 ∧
    moves T c l s T (delete w c) (q :: l) (set_pmem (store64 (pmem s1) (q0 + 8 * (w mod 512)) 0) s1).
Proof.
  intros HO Hw. pose proof HO as [O1 O2 O3 O4 O5]. destruct (O4 w q Hw) as (Hr & Hv & Hpa).
  assert (Hq : page_ok kend q). { apply (pages_of_owns T c l s q HO), elem_of_app. left. by eapply elem_of_values. }
  pose proof (vals_delete c w q Hw) as Hvd. rewrite Hvd in O2, O3. rewrite <-app_comm_cons in O2. apply NoDup_cons in O2 as [Hqn O2']. subst q. rewrite !not_elem_of_app in Hqn.  destruct Hqn as (Hq1 & Hq2 & Hq3).
  inversion O3 as [|? ? _ O3']; subst. set (q := PTE2PA (entry (pmem s) T w)) in *.
  destruct (kfree_ok me kend Hend q l s (vi_free _ _ _ _ O1) Hq Hq3) as (s1 & E & Hk & Hout).
  assert (Hs : ∀ p, p ∈ tpages T → same_page p (pmem s) (pmem s1)).
  { intros p Hp. pose proof (pages_of_owns T c l s p HO ltac:(rewrite !elem_of_app; tauto)) as [? _].
    apply (same_outside_page p q); [done|by destruct Hq|intros ->; done|done]. }
  assert (Hv1 : vm_inv kend T (q :: l) s1).
  { destruct O1 as [V1 V2 V3 V4]. constructor; [by eapply pt_inv_frame|done| |done]. rewrite <-Permutation_middle. constructor; [by rewrite not_elem_of_app|done]. }
  destruct (pt_l0 T !! (w / 512)) as [q0|] eqn:L0; [|unfold entry in Hv; by rewrite L0 in Hv].
  destruct (set_entry kend T (q :: l) s1 w q0 0 Hv1 L0 ltac:(lia)) as (S1 & S2 & S3).
  assert (Hq0 : q0 ∈ tpages T) by (by eapply l0_page).
  exists q0, s1. split_and!; [done|done|unfold entry; by rewrite L0|pose proof (pages_of_owns T c l s q0 HO ltac:(rewrite !elem_of_app; tauto)) as [_ ?]; lia|].
  assert (Hpm : vals (delete w c) ++ tpages T ++ q :: l ≡ₚ vals c ++ tpages T ++ l) by (rewrite Hvd; solve_Permutation).
  constructor; [constructor|done|done| |].
  - done.
  - rewrite Hpm, Hvd, <-app_comm_cons. apply NoDup_cons. by rewrite !not_elem_of_app.
  - done.
  - intros w' q' Hw'. apply lookup_delete_Some in Hw' as [Hne Hw']. rewrite S2, decide_False, (entry_frame (pmem s)) by done. by apply O4.
  - intros w' Hw' Hc. rewrite S2. destruct (decide (w' = w)) as [->|Hne]; [done|]. rewrite (entry_frame (pmem s)) by done.
    rewrite lookup_delete_ne in Hc by done. by apply O5.
  - intros w' Hw'. rewrite S2, decide_False by (intros ->; lia). by apply entry_frame.
  - intros x Hx. rewrite S3, Hout; [done|apply Hx|apply Hx].
    + rewrite Hvd. by left.
    + rewrite !elem_of_app. tauto.
Qed.

Lemma uvmunmap_loop_ok k fuel T c l s u :
  (k < fuel)%nat → owns T c l s → 0 ≤ u → u + Z.of_nat k ≤ n →
  ∃ s' c' l', uvmunmap_loop me kend fuel (pt_root T) (u * 4096) ((u + Z.of_nat k) * 4096) 1 s = Ok tt s' ∧
    moves T c l s T c' l' s' ∧ ∀ w, c' !! w = if decide (u ≤ w < u + Z.of_nat k) then None else c !! w.
Proof.
  assert (HM : MAXVA = 67108864 * 4096) by done.
  revert fuel c l s u. induction k as [|k IH]; intros fuel c l s u Hf HO Hu Hk; (destruct fuel as [|fuel]; [lia|]); cbn [uvmunmap_loop].
  { rewrite Nat2Z.inj_0, Z.add_0_r, Z.ltb_irrefl. exists s, c, l. split_and!; [done|by apply moves_refl|]. intros w. by rewrite decide_False by lia. }
  rewrite (proj2 (Z.ltb_lt (u * 4096) ((u + Z.of_nat (S k)) * 4096))) by lia. cbn [negb]. pose proof HO as [O1 O2 O3 O4 O5].
  rewrite (bind_ok _ _ _ _ _ (walk_find me kend Hend T l s (u * 4096) O1 ltac:(lia))). rewrite Z.div_mul by lia.
  assert (Hlast : (u + Z.of_nat (S k)) * 4096 = (u + 1 + Z.of_nat k) * 4096) by lia. rewrite Hlast. clear Hlast.
  unfold PGSIZE. rewrite u64_id by lia. replace (u * 4096 + 4096) with ((u + 1) * 4096) by lia.
  destruct (c !! u) as [q|] eqn:Hc.
  - destruct (free_one T c l s u q HO Hc) as (q0 & s1 & L0 & E & El & Hq0 & Hmv). destruct (O4 u q Hc) as (_ & Hv & Hpa).
    assert (Hz : (q0 + 8 * (u mod 512) =? 0) = false).
    { pose proof (pages_of_owns T c l s q0 HO) as Hp. destruct Hp as [_ Hp]; [|dlia]. rewrite !elem_of_app. right. left. by eapply l0_page. }
    rewrite L0, Hz. unfold ldpte, stpte. run. rewrite El, Hv. cbn [negb Z.eqb]. rewrite Hpa. run. rewrite (bind_ok _ _ _ _ _ E). run.
    destruct (IH fuel _ _ _ (u + 1) ltac:(lia) (mv_owns _ _ _ _ _ _ _ _ Hmv) ltac:(lia) ltac:(lia)) as (s' & c' & l' & E' & Hmv' & Hc').
    exists s', c', l'. split_and!; [done|by eapply moves_trans|]. intros w. rewrite Hc'.
    repeat case_decide; try lia; try done; [assert (w = u) as -> by lia; apply lookup_delete_eq|by rewrite lookup_delete_ne by lia].
  - pose proof (O5 u ltac:(lia) Hc) as Hv.
    rewrite (bind_ok _ _ s tt s).
    2: { unfold entry in Hv. destruct (pt_l0 T !! (u / 512)) as [q0|]; [|done]. unfold ldpte. destruct (_ =? 0); [done|]. run. by rewrite Hv. }
    destruct (IH fuel _ _ _ (u + 1) ltac:(lia) HO ltac:(lia) ltac:(lia)) as (s' & c' & l' & E' & Hmv' & Hc').
    exists s', c', l'. split_and!; [done|done|]. intros w. rewrite Hc'. repeat case_decide; try lia; try done. by assert (w = u) as -> by lia.
Qed.

(** ** One page of the child *)

Lemma same_outside_memmove p m src : same_outside p m (memmove m p src PGSIZE).
Proof. intros x Hx. rewrite memmove_ldb by (unfold PGSIZE; lia). by rewrite decide_False by lia. Qed.

(** A page [q] of the free list, filled, becomes page [v] of the process. *)
Lemma map_page T c q l s s1 v f :
  owns T c (q :: l) s → c !! v = None → 0 ≤ v < n → 0 ≤ f < 1024 →
  vm_inv kend T l s1 → same_outside q (pmem s) (pmem s1) →
  ∃ r s2 T' l', mappages me (pt_root T) (v * 4096) PGSIZE q f s1 = Ok r s2 ∧ len l ≤ len l' + 2 ∧
    ((r = 0 ∧ moves T c (q :: l) s T' (<[v := q]> c) l' s2 ∧
      (∀ w, entry (pmem s2) T' w = if decide (w = v) then mkpte q f else entry (pmem s) T w) ∧
      (∀ x, (∀ p, p ∈ tpages T ++ l → x < p ∨ p + 4096 ≤ x) → ldb (pmem s2) x = ldb (pmem s1) x)) ∨
     (r = -1 ∧ l' = [] ∧ ∃ s3, kfree_ me kend q s2 = Ok tt s3 ∧ moves T c (q :: l) s T' c [q] s3)).
Proof.
  intros HO Hc Hv Hf Hv1 Hout. pose proof HO as [O1 O2 O3 O4 O5].
  assert (Hq : page_ok kend q) by (apply (pages_of_owns T c (q :: l) s q HO); rewrite !elem_of_app, elem_of_cons; tauto).
  assert (Hqpa : pa_ok q) by (by destruct (page_ok_pa kend Hend q Hq)).
  assert (Hpm : vals c ++ tpages T ++ q :: l ≡ₚ q :: vals c ++ tpages T ++ l) by solve_Permutation.
  pose proof O2 as Hnd. rewrite Hpm in Hnd. apply NoDup_cons in Hnd as [Hqn Hnd]. rewrite !not_elem_of_app in Hqn.
  assert (He1 : ∀ w, entry (pmem s1) T w = entry (pmem s) T w).
  { intros w. apply entry_frame. intros p Hp. pose proof (pages_of_owns T c (q :: l) s p HO ltac:(rewrite !elem_of_app; tauto)) as [? _].
    apply (same_outside_page p q); [done|by destruct Hq|intros ->; by destruct Hqn as (_ & ? & _)|done]. }
  destruct (mappages_ok me kend Hend T l s1 (v * 4096) 1 q f) as (r & s2 & T' & l' & k & E & Hmp & Hlen & Hr);
    rewrite ?Z.div_mul by lia; try done; try lia.
  { apply Z.mod_mul. done. }
  { by destruct Hq. }
  { destruct Hqpa; lia. }
  { destruct Hq as [_ Hq]. unfold PHYSTOP, KERNBASE in Hq. lia. }
  { intros w Hw. assert (w = v) as -> by lia. rewrite He1. by apply O5. }
  rewrite Z.mul_1_l in E. rewrite Z.div_mul in Hmp by lia. exists r, s2, T', l'. split_and!; [done|lia|].
  destruct Hr as [[-> ->]|(-> & Hk & ->)]; [left|right].
  - pose proof Hmp as [M1 M2 M3 M4 M5].
    assert (He : ∀ w, entry (pmem s2) T' w = if decide (w = v) then mkpte q f else entry (pmem s) T w).
    { intros w. rewrite M4, He1. repeat case_decide; try lia; try done. f_equal. lia. }
    assert (Hp2 : vals (<[v := q]> c) ++ tpages T' ++ l' ≡ₚ vals c ++ tpages T ++ q :: l).
    { rewrite vals_insert, M3, Hpm by done. by rewrite app_comm_cons. }
    split_and!; [done| |done|done]. constructor; [constructor|done|done| |].
    + done.
    + by rewrite Hp2.
    + rewrite vals_insert by done. by constructor.
    + intros w p Hw. rewrite He. apply lookup_insert_Some in Hw as [[<- <-]|[Hne Hw]].
      * rewrite decide_True by done. by rewrite has_V_mkpte, PTE2PA_mkpte.
      * rewrite decide_False by done. by apply O4.
    + intros w Hw Hcw. apply lookup_insert_None in Hcw as [Hcw Hne]. rewrite He, decide_False by done. by apply O5.
    + intros w Hw. by rewrite He, decide_False by lia.
    + intros x Hx. rewrite M5, Hout; [done|apply Hx|intros p Hp; apply Hx]; rewrite Hpm; [by left|].
      rewrite elem_of_cons, !elem_of_app. rewrite elem_of_app in Hp. tauto.
  - assert (k = 0) as -> by lia. destruct (refree me kend Hend T q l s s1 T' s2 v q f O1 Hv1 Hout Hmp) as (s3 & E3 & [M1 M2 M3 M4 M5]).
    split_and!; [done|done|]. exists s3. split; [done|].
    assert (He : ∀ w, entry (pmem s3) T' w = entry (pmem s) T w) by (intros w; by rewrite M4, decide_False by lia).
    constructor; [constructor|done|by rewrite M3|intros w _; apply He|].
    + done.
    + by rewrite M3.
    + done.
    + intros w p. rewrite He. apply O4.
    + intros w. rewrite He. apply O5.
    + intros x Hx. apply M5. intros p Hp. apply Hx, elem_of_app. by right.
Qed.

(** ** The copy *)

Section child.
  Context (P C0 : ptree) (l0 : list Z) (s0 : kmem).
  Context (HP : vm_inv kend P l0 s0) (HPC : ∀ p, p ∈ tpages P → p ∉ tpages C0 ++ l0).

(** The entry of the parent. *)
Definition pe (w : Z) : Z := entry (pmem s0) P w.

(** The child has its copies of the pages below [v], and no others. *)
Definition copies (v : Z) (C : ptree) (c : gmap Z Z) (s : kmem) : Prop :=
  ∀ w, 0 ≤ w < n →
    if decide (w < v ∧ has (pe w) PTE_V = true)
    then ∃ q, c !! w = Some q ∧ entry (pmem s) C w = mkpte q (PTE_FLAGS (pe w)) ∧
              (PTE2PA (pe w) ∉ tpages C0 ++ l0 → ∀ x, 0 ≤ x < 4096 → ldb (pmem s) (q + x) = ldb (pmem s0) (PTE2PA (pe w) + x))
    else c !! w = None.

(** What is not a page of the child or of the free list stays as it is. *)
Lemma moves_same C c l s p :
  vm_inv kend C0 l0 s0 → moves C0 ∅ l0 s0 C c l s → page_aligned p → p ∉ tpages C0 ++ l0 → same_page p (pmem s0) (pmem s).
Proof.
  intros HC0 Hmv Hp Hpn x Hx. apply (mv_out _ _ _ _ _ _ _ _ Hmv). intros q Hq. change (vals ∅ ++ tpages C0 ++ l0) with (tpages C0 ++ l0) in Hq.
  assert (Hqo : page_ok kend q).
  { destruct HC0 as [_ [_ _ _ K] _ V]. rewrite Forall_forall in K, V. apply elem_of_app in Hq as [|]; auto. }
  assert (p ≠ q) as Hne by (by intros ->). pose proof (pages_disjoint p q Hp (proj1 Hqo) Hne) as Hd.
  unfold disjoint_ranges, PGSIZE in Hd. lia.
Qed.

Lemma parent_inv C c l s :
  vm_inv kend C0 l0 s0 → moves C0 ∅ l0 s0 C c l s → vm_inv kend P l s ∧ ∀ w, entry (pmem s) P w = pe w.
Proof.
  intros HC0 Hmv. pose proof HP as [V1 V2 V3 V4]. rewrite Forall_forall in V4.
  assert (Hs : ∀ p, p ∈ tpages P → same_page p (pmem s0) (pmem s)).
  { intros p Hp. eapply moves_same; [done|done|by apply V4|by apply HPC]. }
  split; [|intros w; by apply entry_frame]. pose proof Hmv as [[O1 O2 _ _ _] _ M3 _ _].
  constructor; [by eapply pt_inv_frame|apply O1| |by apply Forall_forall].
  apply NoDup_app in V3 as (V3 & _ & _). rewrite app_assoc in O2. apply NoDup_app in O2 as (_ & _ & O2).
  apply NoDup_app. split_and!; [done| |done]. intros p Hp Hl. apply (HPC p Hp).
  change (tpages C0 ++ l0) with (vals ∅ ++ tpages C0 ++ l0). rewrite <-M3, !elem_of_app. tauto.
Qed.

(** A further copy keeps those that are there. *)
Lemma copies_insert v C c q l s s1 s2 C' :
  0 ≤ v < n → has (pe v) PTE_V = true → owns C c (q :: l) s → copies v C c s → same_outside q (pmem s) (pmem s1) →
  (PTE2PA (pe v) ∉ tpages C0 ++ l0 → ∀ x, 0 ≤ x < 4096 → ldb (pmem s1) (q + x) = ldb (pmem s0) (PTE2PA (pe v) + x)) →
  (∀ w, entry (pmem s2) C' w = if decide (w = v) then mkpte q (PTE_FLAGS (pe v)) else entry (pmem s) C w) →
  (∀ x, (∀ p, p ∈ tpages C ++ l → x < p ∨ p + 4096 ≤ x) → ldb (pmem s2) x = ldb (pmem s1) x) →
  copies (v + 1) C' (<[v := q]> c) s2.
Proof.
  intros Hv HV HO Hcp Hout Hcont He Hx w Hw.
  assert (Hfar : ∀ p r x, page_aligned p → page_aligned r → p ≠ r → 0 ≤ x < 4096 → r + x < p ∨ p + 4096 ≤ r + x).
  { intros p r x Hp Hr Hne Hx'. pose proof (pages_disjoint r p Hr Hp ltac:(done)) as Hd. unfold disjoint_ranges, PGSIZE in Hd. lia. }
  pose proof HO as [_ O2 _ _ _].
  assert (Hpm : vals c ++ tpages C ++ q :: l ≡ₚ q :: vals c ++ tpages C ++ l) by solve_Permutation.
  assert (Hal : ∀ p, p ∈ q :: vals c ++ tpages C ++ l → page_aligned p).
  { intros p Hp. rewrite <-Hpm in Hp. by destruct (pages_of_owns C c (q :: l) s p HO Hp). }
  rewrite Hpm in O2. apply NoDup_cons in O2 as [Hqn O2]. apply NoDup_app in O2 as (_ & Hdis & _).
  destruct (decide (w = v)) as [->|Hne].
  - rewrite decide_True by (split; [lia|done]). exists q. rewrite lookup_insert_eq, He, decide_True by done. split_and!; [done|done|].
    intros Hs x Hx'. rewrite Hx; [by apply Hcont|]. intros p Hp. apply Hfar; [apply Hal; rewrite elem_of_cons, elem_of_app; tauto|apply Hal; by left| |done].
    intros ->. apply Hqn, elem_of_app. by right.
  - specialize (Hcp w Hw). rewrite lookup_insert_ne, He, (decide_False (P := w = v)) by done.
    destruct (decide (w < v ∧ has (pe w) PTE_V = true)) as [Hd|Hd]; [rewrite decide_True by (split; [lia|tauto])|rewrite decide_False by (intros [? ?]; apply Hd; split; [lia|done]); done].
    destruct Hcp as (p & Hp & Ep & Hc). exists p. split_and!; [done|done|]. intros Hs x Hx'.
    assert (Hpv : p ∈ vals c) by (by eapply elem_of_values).
    rewrite Hx, Hout; [by apply Hc| |].
    + apply Hfar; [apply Hal; by left|apply Hal; rewrite elem_of_cons, elem_of_app; tauto| |done]. intros ->. apply Hqn, elem_of_app. by left.
    + intros p' Hp'. apply Hfar; [apply Hal; rewrite elem_of_cons, elem_of_app; tauto|apply Hal; rewrite elem_of_cons, elem_of_app; tauto| |done].
      intros ->. by apply (Hdis p Hpv).
Qed.

Lemma copies_below v C c l s w q : owns C c l s → copies v C c s → c !! w = Some q → 0 ≤ w < v.
Proof.
  intros HO Hcp Hc. destruct (ow_some _ _ _ _ HO w q Hc) as (Hw & _). specialize (Hcp w Hw).
  case_decide; [lia|congruence].
Qed.

(** The way out: the child gives every page back. *)
Lemma undo v C c l s :
  0 ≤ v ≤ n → moves C0 ∅ l0 s0 C c l s → (∀ w q, c !! w = Some q → 0 ≤ w < v) →
  ∃ s' l', (uvmunmap me kend (pt_root C0) 0 v 1 ;; ret (-1)) s = Ok (-1) s' ∧ moves C0 ∅ l0 s0 C ∅ l' s'.
Proof.
  intros Hv Hmv Hb. assert (HM : MAXVA = 67108864 * 4096) by done. unfold uvmunmap. cbn [Z.modulo Z.eqb negb]. unfold PGSIZE. rewrite u64_id by lia.
  destruct (uvmunmap_loop_ok (Z.to_nat v) (Z.to_nat (v + 1)) C c l s 0 ltac:(lia) (mv_owns _ _ _ _ _ _ _ _ Hmv) ltac:(lia) ltac:(lia))
    as (s' & c' & l' & E & Hmv' & Hc'). rewrite (mv_root _ _ _ _ _ _ _ _ Hmv), Z2Nat.id, !Z.add_0_l in E by lia. cbn [Z.mul] in E.
  assert (c' = ∅) as ->.
  { apply map_eq. intros w. rewrite Hc', lookup_empty. case_decide; [done|]. destruct (c !! w) as [q|] eqn:Ec; [|done]. specialize (Hb w q Ec). lia. }
  exists s', l'. split; [|by eapply moves_trans]. rewrite Z.add_0_l. replace (0 mod 4096) with 0 by done. cbn [Z.eqb negb].
  by rewrite (bind_ok _ _ _ _ _ E).
Qed.

Context (sz : Z) (Hnsz : n = (sz + 4095) / 4096) (HC0 : vm_inv kend C0 l0 s0).

Lemma flags_range e : 0 ≤ PTE_FLAGS e < 1024.
Proof. unfold PTE_FLAGS. change 1023 with (Z.ones 10). rewrite Z.land_ones by lia. apply Z.mod_pos_bound. lia. Qed.

Lemma valid_bits C c l s q : moves C0 ∅ l0 s0 C c (q :: l) s → q ∈ tpages C0 ++ l0.
Proof.
  intros [_ _ M _ _]. change (tpages C0 ++ l0) with (vals ∅ ++ tpages C0 ++ l0). rewrite <-M, !elem_of_app, elem_of_cons. tauto.
Qed.

(** A valid page of the parent: copied, or memory has run out. *)
Lemma copy_page v C c l s (K : M kmem Z) :
  0 ≤ v < n → has (pe v) PTE_V = true → moves C0 ∅ l0 s0 C c l s → copies v C c s →
  let body :=
    (mem <- kalloc_ me ;;
     if mem =? 0 then uvmunmap me kend (pt_root C0) 0 v 1 ;; ret (-1)
     else
       modify (λ s, set_pmem (memmove (pmem s) mem (PTE2PA (pe v)) PGSIZE) s) ;;
       r <- mappages me (pt_root C0) (v * 4096) PGSIZE mem (PTE_FLAGS (pe v)) ;;
       if negb (r =? 0) then kfree_ me kend mem ;; uvmunmap me kend (pt_root C0) 0 v 1 ;; ret (-1)
       else K) in
  ∃ s' C' c' l', moves C0 ∅ l0 s0 C' c' l' s' ∧
    (body s = K s' ∧ copies (v + 1) C' c' s' ∧ len l ≤ len l' + 3 ∨ body s = Ok (-1) s' ∧ c' = ∅ ∧ len l ≤ 3).
Proof.
  intros Hv HV Hmv Hcp body. pose proof (mv_owns _ _ _ _ _ _ _ _ Hmv) as HO. unfold body. clear body.
  assert (Hb : ∀ w q, c !! w = Some q → 0 ≤ w < v) by (intros w q; by eapply copies_below).
  assert (Hc : c !! v = None). { destruct (c !! v) as [q|] eqn:Ec; [|done]. specialize (Hb v q Ec). lia. }
  destruct l as [|q l].
  { unfold kalloc_. rewrite (bind_ok _ _ _ _ _ (kalloc_nil me kend s (vi_free _ _ _ _ (ow_inv _ _ _ _ HO)))). cbn [Z.eqb].
    destruct (undo v C c [] s ltac:(lia) Hmv Hb) as (s' & l' & E & Hmv'). exists s', C, ∅, l'. split; [done|]. right. by rewrite E. }
  destruct (alloc_page me kend Hend C q l s (ow_inv _ _ _ _ HO)) as (s1 & E1 & Hq0 & Ho1 & Hal). rewrite (bind_ok _ _ _ _ _ E1).
  destruct (Z.eqb_spec q 0) as [|_]; [done|]. run.
  destruct (Hal _ (same_outside_memmove q (pmem s1) (PTE2PA (pe v)))) as [Hv2 Ho2].
  set (s2 := set_pmem (memmove (pmem s1) q (PTE2PA (pe v)) PGSIZE) s1) in *.
  destruct (map_page C c q l s s2 v (PTE_FLAGS (pe v)) HO Hc Hv (flags_range _) Hv2 Ho2) as (r & s3 & C' & l' & E3 & Hlen & Hr).
  rewrite (mv_root _ _ _ _ _ _ _ _ Hmv) in E3. rewrite (bind_ok _ _ _ _ _ E3), len_cons. destruct Hr as [(-> & Hmv3 & He & Hx)|(-> & -> & s4 & E4 & Hmv4)]; cbn [Z.eqb negb].
  - exists s3, C', (<[v := q]> c), l'. split; [by eapply moves_trans|]. left. split_and!; [done| |lia].
    apply (copies_insert v C c q l s s2 s3 C'); try done. intros Hs x Hx'. unfold s2. cbn [pmem set_pmem].
    rewrite memmove_ldb, decide_True by (unfold PGSIZE; lia). replace (q + x - q + PTE2PA (pe v)) with (PTE2PA (pe v) + x) by lia.
    assert (PTE2PA (pe v) ≠ q) as Hne by (intros Heq; apply Hs; rewrite Heq; by eapply valid_bits).
    assert (Hqa : page_aligned q) by (destruct (vi_free _ _ _ _ (ow_inv _ _ _ _ HO)) as [_ _ _ K4]; inversion K4 as [|? ? [Hqa _] _]; done).
    rewrite (same_outside_page _ q _ _ (PTE2PA_aligned (pe v)) Hqa Hne Ho1) by lia.
    by rewrite (moves_same C c (q :: l) s _ HC0 Hmv (PTE2PA_aligned (pe v)) Hs) by lia.
  - rewrite (bind_ok _ _ _ _ _ E4). pose proof (moves_trans _ _ _ _ _ _ _ _ _ _ _ _ Hmv Hmv4) as Hmv5.
    destruct (undo v C' c [q] s4 ltac:(lia) Hmv5 Hb) as (s' & l'' & E & Hmv'). exists s', C', ∅, l''. split; [done|]. right.
    split_and!; [by rewrite E|done|]. unfold len in *. cbn [length] in *. lia.
Qed.

Lemma uvmcopy_loop_ok k fuel C c l s v :
  (k < fuel)%nat → v + Z.of_nat k = n → 0 ≤ v → moves C0 ∅ l0 s0 C c l s → copies v C c s → len l0 ≤ len l + 3 * v →
  ∃ r s' C' c' l', uvmcopy_loop me kend fuel (pt_root P) (pt_root C0) (v * 4096) sz s = Ok r s' ∧
    moves C0 ∅ l0 s0 C' c' l' s' ∧ (r = 0 ∧ copies n C' c' s' ∨ r = -1 ∧ c' = ∅ ∧ len l0 ≤ 3 * n).
Proof.
  assert (HM : MAXVA = 67108864 * 4096) by done.
  revert fuel C c l s v. induction k as [|k IH]; intros fuel C c l s v Hf Hk Hv Hmv Hcp Hlen; (destruct fuel as [|fuel]; [lia|]); cbn [uvmcopy_loop].
  { rewrite (proj2 (Z.ltb_ge (v * 4096) sz)) by dlia. cbn [negb]. exists 0, s, C, c, l. split_and!; [done|done|left].
    split; [done|]. by replace n with v by lia. }
  rewrite (proj2 (Z.ltb_lt (v * 4096) sz)) by dlia. cbn [negb].
  destruct (parent_inv C c l s HC0 Hmv) as [HPl HPe]. pose proof (mv_owns _ _ _ _ _ _ _ _ Hmv) as HO.
  rewrite (bind_ok _ _ _ _ _ (walk_find me kend Hend P l s (v * 4096) HPl ltac:(lia))). rewrite Z.div_mul by lia.
  assert (Hu : u64 (v * 4096 + PGSIZE) = (v + 1) * 4096) by (unfold PGSIZE; rewrite u64_id; lia). rewrite !Hu. clear Hu.
  rewrite Z.div_mul by (by unfold PGSIZE). pose proof (HPe v) as Hent. unfold entry in Hent.
  destruct (has (pe v) PTE_V) eqn:HV.
  - destruct (pt_l0 P !! (v / 512)) as [q|] eqn:L0; [|by rewrite <-Hent in HV].
    assert (Hq : page_ok kend q) by (pose proof (vi_pages _ _ _ _ HPl) as Hp; rewrite Forall_forall in Hp; apply Hp; by eapply l0_page).
    destruct (Z.eqb_spec (q + 8 * (v mod 512)) 0) as [Hz|_]; [destruct Hq; dlia|]. unfold ldpte. run. rewrite Hent, HV. cbn [negb].
    destruct (copy_page v C c l s (uvmcopy_loop me kend fuel (pt_root P) (pt_root C0) ((v + 1) * 4096) sz) ltac:(lia) HV Hmv Hcp)
      as (s1 & C1 & c1 & l1 & Hmv1 & [(E & Hcp1 & Hl)|(E & -> & Hl)]); rewrite E.
    + apply (IH fuel C1 c1 l1 s1 (v + 1)); try done; lia.
    + exists (-1), s1, C1, ∅, l1. split_and!; [done|done|right]. split_and!; [done|done|lia].
  - assert (Hcp1 : copies (v + 1) C c s).
    { intros w Hw. specialize (Hcp w Hw). destruct (decide (w = v)) as [->|]; [rewrite decide_False by (rewrite HV; by intros [_ ?]); by rewrite decide_False in Hcp by lia|].
      repeat case_decide; try done; exfalso; naive_solver lia. }
    destruct (IH fuel C c l s (v + 1) ltac:(lia) ltac:(lia) ltac:(lia) Hmv Hcp1 ltac:(lia)) as (r & s' & C' & c' & l' & E & H).
    exists r, s', C', c', l'. split; [|done]. rewrite <-E. destruct (pt_l0 P !! (v / 512)) as [q|]; [|done].
    destruct (_ =? 0); [done|]. unfold ldpte. run. by rewrite Hent, HV.
Qed.

(** ** What the two processes see *)

Context (HP2 : ∀ v p, upage (pmem s0) P v = Some p → page_ok kend p ∧ p ∉ tpages P ++ tpages C0 ++ l0).
Context (HP3 : ∀ v w p, upage (pmem s0) P v = Some p → upage (pmem s0) P w = Some p → v = w).
Context (HC1 : ∀ v, upage (pmem s0) C0 v = None).

Lemma moved_page C c l s p : moves C0 ∅ l0 s0 C c l s → p ∈ vals c ++ tpages C ++ l → p ∈ tpages C0 ++ l0.
Proof. intros [_ _ M _ _] Hp. by rewrite M in Hp. Qed.

Lemma parent_kept C c l s :
  moves C0 ∅ l0 s0 C c l s →
  uinv kend P l s ∧ (∀ w, upage (pmem s) P w = upage (pmem s0) P w) ∧ (∀ a, uview sz (pmem s) P a = uview sz (pmem s0) P a).
Proof.
  intros Hmv. destruct (parent_inv C c l s HC0 Hmv) as [HPl HPe].
  assert (Hu : ∀ w, upage (pmem s) P w = upage (pmem s0) P w) by (intros w; unfold upage; by rewrite HPe).
  split_and!; [constructor|done|].
  - done.
  - intros v p. rewrite Hu. intros Hp. destruct (HP2 v p Hp) as [Hok Hn']. split; [done|]. rewrite not_elem_of_app in Hn' |- *.
    destruct Hn' as [Hn1 Hn2]. split; [done|]. intros Hl. apply Hn2, (moved_page C c l s p Hmv). rewrite !elem_of_app. tauto.
  - intros v w p. rewrite !Hu. apply HP3.
  - intros a. unfold uview, lazy. rewrite Hu, HPe. destruct (upage (pmem s0) P (a / 4096)) as [p|] eqn:Hp; [|done].
    destruct (HP2 _ _ Hp) as [[Hok _] Hn']. rewrite not_elem_of_app in Hn'. pose proof (Z.mod_pos_bound a 4096 ltac:(lia)).
    f_equal. apply (moves_same C c l s p HC0 Hmv Hok (proj2 Hn')). lia.
Qed.

Lemma child_page C c l s w p : moves C0 ∅ l0 s0 C c l s → upage (pmem s) C w = Some p → c !! w = Some p.
Proof.
  intros [[O1 O2 O3 O4 O5] _ _ M4 _] Hp. pose proof (HC1 w) as Hno. unfold upage in *.
  destruct (decide (0 ≤ w < n)) as [Hw|Hw]; [|rewrite M4 in Hp by done; congruence].
  destruct (c !! w) as [q|] eqn:Ec.
  - destruct (O4 w q Ec) as (_ & _ & <-). by destruct (_ && _).
  - rewrite (O5 w Hw Ec), andb_false_r in Hp. done.
Qed.

Lemma child_uinv C c l s : moves C0 ∅ l0 s0 C c l s → uinv kend C l s.
Proof.
  intros Hmv. pose proof Hmv as [[O1 O2 O3 O4 O5] _ _ _ _]. apply NoDup_app in O2 as (O2 & Hd & _). constructor; [done| |].
  - intros v p Hp. apply (child_page C c l s) in Hp; [|done]. apply (elem_of_values c) in Hp. split; [|by apply Hd].
    rewrite Forall_forall in O3. by apply O3.
  - intros v w p Hv Hw. eapply (vals_inj c); [done|by eapply child_page|by eapply child_page].
Qed.

Lemma disjoint_pages C c l s v w p :
  moves C0 ∅ l0 s0 C c l s → upage (pmem s) P v = Some p → upage (pmem s) C w ≠ Some p.
Proof.
  intros Hmv Hv Hw. destruct (parent_kept C c l s Hmv) as (_ & Hu & _). rewrite Hu in Hv. apply HP2 in Hv as [_ Hv].
  rewrite not_elem_of_app in Hv. apply (proj2 Hv), (moved_page C c l s p Hmv), elem_of_app. left.
  apply (child_page C c l s) in Hw; [|done]. by eapply elem_of_values.
Qed.

Lemma flags_mkpte q e k : 0 ≤ k < 10 → Z.testbit e 0 = true → Z.testbit (mkpte q (PTE_FLAGS e)) k = Z.testbit e k.
Proof.
  intros Hk He. rewrite testbit_mkpte by done. unfold PTE_FLAGS. rewrite Z.land_spec. change 1023 with (Z.ones 10).
  rewrite Z.ones_spec_low, andb_true_r by lia. destruct (Z.eqb_spec k 0) as [->|]; [by rewrite He|]. by rewrite orb_false_r.
Qed.

Lemma child_entry C c l s v :
  moves C0 ∅ l0 s0 C c l s → copies n C c s → 0 ≤ v < n →
  has (entry (pmem s) C v) PTE_V = has (pe v) PTE_V ∧
  (has (pe v) PTE_V = true → Z.testbit (entry (pmem s) C v) 2 = Z.testbit (pe v) 2) ∧
  match upage (pmem s0) P v with
  | Some p => ∃ q, upage (pmem s) C v = Some q ∧ ∀ x, 0 ≤ x < 4096 → ldb (pmem s) (q + x) = ldb (pmem s0) (p + x)
  | None => upage (pmem s) C v = None
  end.
Proof.
  intros Hmv Hcp Hv. specialize (Hcp v Hv). pose proof (HP2 v) as Hp2. unfold upage in *. fold (pe v) in *.
  pose proof (mv_owns _ _ _ _ _ _ _ _ Hmv) as HO. replace (v * 4096 <? MAXVA) with true in * by (symmetry; apply Z.ltb_lt; lia). cbn [andb] in *.
  destruct (has (pe v) PTE_V) eqn:HV; cbn [andb] in *.
  - rewrite decide_True in Hcp by lia. destruct Hcp as (q & Hq & -> & Hx).
    assert (Hqpa : pa_ok q).
    { apply (page_ok_pa kend Hend). apply (pages_of_owns C c l s q HO), elem_of_app. left. by eapply elem_of_values. }
    assert (H0 : Z.testbit (pe v) 0 = true) by (rewrite <-HV; symmetry; by apply (has_bit _ 0)).
    rewrite has_V_mkpte, PTE2PA_mkpte by (done || apply flags_range). cbn [andb]. unfold PTE_U in *. rewrite !has_bit, !flags_mkpte by (done || lia).
    rewrite has_bit in Hp2 by lia. split_and!; [done|done|].
    destruct (Z.testbit (pe v) 4); [|done]. exists q. split; [done|]. apply Hx.
    destruct (Hp2 _ eq_refl) as [_ Hn']. rewrite not_elem_of_app in Hn'. tauto.
  - rewrite decide_False in Hcp by (by intros [_ ?]). by rewrite (ow_none _ _ _ _ HO v Hv Hcp).
Qed.

Lemma child_view C c l s :
  moves C0 ∅ l0 s0 C c l s → copies n C c s →
  (∀ a, 0 ≤ a < n * 4096 → uview sz (pmem s) C a = uview sz (pmem s0) P a) ∧
  (∀ v, 0 ≤ v < n → uwritable sz (pmem s) C v = uwritable sz (pmem s0) P v).
Proof.
  intros Hmv Hcp.
  split.
  - intros a Ha. assert (Hv : 0 ≤ a / 4096 < n) by dlia. destruct (child_entry C c l s _ Hmv Hcp Hv) as (HV & _ & Hm).
    unfold uview, lazy. fold (pe (a / 4096)). rewrite HV. destruct (upage (pmem s0) P (a / 4096)) as [p|]; [|by rewrite Hm].
    destruct Hm as (q & -> & Hx). f_equal. apply Hx. apply Z.mod_pos_bound. lia.
  - intros v Hv. destruct (child_entry C c l s v Hmv Hcp Hv) as (HV & HW & Hm). unfold uwritable, lazy. fold (pe v). rewrite HV.
    destruct (upage (pmem s0) P v) as [p|] eqn:Hp; [|by rewrite Hm]. destruct Hm as (q & -> & _). unfold PTE_W. rewrite !has_bit by lia.
    apply HW. unfold upage in Hp. fold (pe v) in Hp. destruct (has (pe v) PTE_V); [done|]. by rewrite andb_false_r in Hp.
Qed.
End child.
End copy.

(** C16: [fork] gives the child a memory of its own that starts as a copy of its
    parent's.  [uvmcopy] always returns, keeps the allocator and both page
    tables intact, leaves what the parent sees as it is, and never lets the two
    processes share a page.  When it returns 0 the child sees at every address
    below [sz] what its parent sees, pages still to be allocated included, and
    may write where its parent may; otherwise it returns -1, which needs fewer
    than three free pages for each page of the parent, the child has no page
    and all that was taken is back on the free list or part of its table. *)
Theorem uvmcopy_spec me kend sz P C l s (n := (sz + 4095) / 4096) :
  0 < kend → 0 ≤ sz ≤ MAXVA → uinv kend P l s → vm_inv kend C l s →
  (∀ p, p ∈ tpages P → p ∉ tpages C) → (∀ v p, upage (pmem s) P v = Some p → p ∉ tpages C) →
  (∀ v, upage (pmem s) C v = None) → (∀ v, 0 ≤ v < n → has (entry (pmem s) C v) PTE_V = false) →
  ∃ r s' C' l', uvmcopy me kend (pt_root P) (pt_root C) sz s = Ok r s' ∧ pt_root C' = pt_root C ∧
    uinv kend P l' s' ∧ uinv kend C' l' s' ∧
    (∀ a, uview sz (pmem s') P a = uview sz (pmem s) P a) ∧
    (∀ v w p, upage (pmem s') P v = Some p → upage (pmem s') C' w ≠ Some p) ∧
    (r = 0 ∧ (∀ a, 0 ≤ a < sz → uview sz (pmem s') C' a = uview sz (pmem s) P a) ∧
             (∀ v, 0 ≤ v < n → uwritable sz (pmem s') C' v = uwritable sz (pmem s) P v) ∨
     r = -1 ∧ len l ≤ 3 * n ∧ (∀ v, upage (pmem s') C' v = None) ∧ tpages C' ++ l' ≡ₚ tpages C ++ l).
Proof.
  intros Hend Hsz [U1 U2 U3] HC0 Hd1 Hd2 HC1 Hfree. assert (HM : MAXVA = 67108864 * 4096) by done.
  assert (Hn : 0 ≤ n) by (unfold n; dlia). assert (Hmax : n * 4096 ≤ MAXVA) by (unfold n; dlia).
  assert (HPC : ∀ p, p ∈ tpages P → p ∉ tpages C ++ l).
  { intros p Hp. rewrite not_elem_of_app. split; [by apply Hd1|]. destruct U1 as [_ _ V3 _]. apply NoDup_app in V3 as (_ & V3 & _). by apply V3. }
  assert (HP2 : ∀ v p, upage (pmem s) P v = Some p → page_ok kend p ∧ p ∉ tpages P ++ tpages C ++ l).
  { intros v p Hp. destruct (U2 v p Hp) as [Hok Hn']. split; [done|]. specialize (Hd2 v p Hp). rewrite not_elem_of_app in Hn'. rewrite !not_elem_of_app. tauto. }
  assert (HO : owns kend n C ∅ l s).
  { constructor; [done|apply HC0|constructor|done|]. intros w Hw _. by apply Hfree. }
  unfold uvmcopy. unfold PGSIZE.
  destruct (uvmcopy_loop_ok me kend Hend n Hn Hmax P C l s U1 HPC sz eq_refl HC0 (Z.to_nat n) (Z.to_nat (sz / 4096 + 2)) C ∅ l s 0)
    as (r & s' & C' & c' & l' & E & Hmv & Hr).
  { unfold n. dlia. }
  { lia. }
  { lia. }
  { by apply moves_refl. }
  { intros w Hw. rewrite decide_False by lia. done. }
  { lia. }
  exists r, s', C', l'. destruct (parent_kept kend n P C l s U1 HPC sz HC0 HP2 U3 C' c' l' s' Hmv) as (K1 & _ & K2).
  split_and!; [exact E|apply Hmv|done|by eapply child_uinv|done|intros v w p; by eapply disjoint_pages|].
  destruct Hr as [[-> Hcp]|(-> & -> & Hlen)]; [left|right]; (split; [done|]).
  - destruct (child_view kend Hend n Hmax P C l s sz eq_refl HP2 C' c' l' s' Hmv Hcp) as [H1 H2]. split; [|exact H2]. intros a Ha. apply H1. unfold n. dlia.
  - split_and!; [done| |apply Hmv]. intros v. destruct (upage (pmem s') C' v) as [p|] eqn:Hp; [|done].
    by apply (child_page kend n C l s HC1 C' ∅ l' s' v p Hmv) in Hp.
Qed.

(** ** Example: a parent with one page, a child without any *)

Definition fparent : ptree := mkptree 2147483648 ∅ ∅.
Definition fchild : ptree := mkptree 2147487744 ∅ ∅.
Definition fpage : Z := 2147491840.
Definition ffree : list Z := (λ i, 2147495936 + 4096 * Z.of_nat i) <$> seq 0 9.
Definition fkmem : kmem :=
  mkkmem (initlock "kmem") 2147495936
    (store64 (foldr (λ p m, store64 m p (p + 4096)) (λ a, if decide (fpage ≤ a < fpage + 4096) then 7 else 0) (take 8 ffree)) 2147528704 0).

Lemma fkmem_inv T : T = fparent ∨ T = fchild → vm_inv dend T ffree fkmem.
Proof.
  intros HT. assert (Hl1 : pt_l1 T = ∅) by (by destruct HT as [-> | ->]). assert (Hl0 : pt_l0 T = ∅) by (by destruct HT as [-> | ->]).
  assert (Htp : tpages T = [pt_root T]) by (by destruct HT as [-> | ->]).
  assert (Hr : pt_root T = 2147483648 ∨ pt_root T = 2147487744) by (destruct HT as [-> | ->]; [by left|by right]).
  constructor; rewrite ?Htp.
  - constructor; rewrite Hl1, ?Hl0; [|done..]. intros i Hi. rewrite lookup_empty. cbn [pmem fkmem]. cbn [ffree seq fmap list_fmap take foldr].
    unfold store64. rewrite !(load_store_ne 8 8) by (unfold disjoint_ranges; lia).
    replace (load64 _ _) with 0; [done|]. unfold load64, load. symmetry. replace (mem_read _ _ 8) with (replicate 8 0); [done|].
    apply list_eq_same_length with (n := 8%nat); rewrite ?length_mem_read; [done..|].
    intros k x y Hk Hx Hy. rewrite lookup_mem_read in Hy by done. apply lookup_replicate_1 in Hx as [-> _].
    injection Hy as <-. unfold ldb. rewrite decide_False by (unfold fpage; lia). done.
  - constructor; [done| | |].
    + cbn. split_and!; by vm_compute.
    + apply (bool_decide_unpack (NoDup ffree)). by vm_compute.
    + unfold page_ok, page_aligned, dend, PHYSTOP, KERNBASE, PGSIZE. apply Forall_forall. intros p Hp.
      unfold ffree in Hp. apply list_elem_of_fmap in Hp as (i & -> & Hi). apply elem_of_seq in Hi. dlia.
  - apply NoDup_app. split_and!; [apply NoDup_singleton| |by apply (bool_decide_unpack (NoDup ffree)); vm_compute].
    intros p Hp%list_elem_of_singleton Hq. apply list_elem_of_fmap in Hq as (i & -> & _). lia.
  - apply Forall_singleton. unfold page_ok, page_aligned, dend, PHYSTOP, KERNBASE, PGSIZE. by destruct Hr as [-> | ->].
Qed.

Lemma ffree_pages p : p ∈ 2147483648 :: ffree → page_aligned p ∧ p ≠ pt_root fchild ∧ p ≠ fpage.
Proof.
  intros Hp. apply elem_of_cons in Hp as [->|Hp]; [by split_and!|]. apply list_elem_of_fmap in Hp as (i & -> & _). unfold fpage. cbn [fchild pt_root].
  split_and!; [unfold page_aligned, PGSIZE; dlia|lia|lia].
Qed.

Definition fperm : Z := Z.lor (Z.lor PTE_W PTE_U) PTE_R.

(** The parent after its page 1 has been mapped. *)
Lemma fork_mapped s T l :
  mapped dend fparent ffree fkmem T l s 1 1 fpage fperm →
  uinv dend T l s ∧ vm_inv dend fchild l s ∧ (∀ p, p ∈ tpages T → p ≠ pt_root fchild) ∧
  uview 8192 (pmem s) T 5000 = Some 7 ∧ (∀ v p, upage (pmem s) T v = Some p → p = fpage).
Proof.
  intros [M1 M2 M3 M4 M5]. pose proof (fkmem_inv fchild ltac:(by right)) as HC.
  change (tpages fparent ++ ffree) with (2147483648 :: ffree) in M3, M5.
  assert (Hsame : ∀ q, page_aligned q → q = pt_root fchild ∨ q = fpage → same_page q (pmem fkmem) (pmem s)).
  { intros q Hq Hqq x Hx. apply M5. intros p Hp. destruct (ffree_pages p Hp) as (Ha & H1 & H2). pose proof (pages_disjoint q p Hq Ha ltac:(intros ->; tauto)) as Hd.
    unfold disjoint_ranges, PGSIZE in Hd. lia. }
  assert (Hu : ∀ v, upage (pmem s) T v = if decide (v = 1) then Some fpage else None).
  { intros v. unfold upage. rewrite M4. change (entry (pmem fkmem) fparent v) with 0. repeat case_decide; try lia; [|by destruct (_ <? MAXVA)].
    subst v. by vm_compute. }
  assert (Hu' : ∀ v p, upage (pmem s) T v = Some p → v = 1 ∧ p = fpage) by (intros v p; rewrite Hu; case_decide; naive_solver).
  assert (Hfp : fpage ∉ tpages T ++ l) by (rewrite M3; intros Hf; by destruct (ffree_pages _ Hf) as (_ & _ & ?)).
  split_and!; [constructor; [exact M1| |]| | | |].
  - intros v p Hp. apply Hu' in Hp as [_ ->]. by split.
  - intros v w p Hp Hq. apply Hu' in Hp as [-> _], Hq as [-> _]. done.
  - destruct HC as [V1 _ _ V4]. pose proof M1 as [_ K K3 _]. constructor; [|exact K| |exact V4].
    + eapply pt_inv_frame; [|exact V1]. intros p Hp. apply list_elem_of_singleton in Hp as ->. by apply Hsame; [|left].
    + apply NoDup_app in K3 as (_ & _ & K3). apply NoDup_cons. split; [|done]. intros Hl.
      destruct (ffree_pages (pt_root fchild)) as (_ & ? & _); [|done]. rewrite <-M3. apply elem_of_app. by right.
  - intros p Hp. apply (ffree_pages p). rewrite <-M3. apply elem_of_app. by left.
  - unfold uview. rewrite Hu, decide_True by done. rewrite (Hsame fpage); [by vm_compute|done|by right|by vm_compute].
  - intros v p Hp. by destruct (Hu' v p Hp).
Qed.

Lemma uvmcopy_spec_witness :
  ∃ s P, mappages 0 (pt_root fparent) 4096 PGSIZE fpage fperm fkmem = Ok 0 s ∧ uview 8192 (pmem s) P 5000 = Some 7 ∧
    ∃ s' C', uvmcopy 0 dend (pt_root P) (pt_root fchild) 8192 s = Ok 0 s' ∧ uview 8192 (pmem s') C' 5000 = Some 7.
Proof.
  destruct (mappages_ok 0 dend eq_refl fparent ffree fkmem 4096 1 fpage fperm) as (r & s & P & l & k & E & Hmp & Hl & Hr);
    [exact (fkmem_inv fparent (or_introl eq_refl))|reflexivity|lia|lia|done|done|done|done|done|intros w _; reflexivity|].
  change (4096 / 4096) with 1 in Hmp. change (len ffree) with 9 in Hl. destruct Hr as [[-> ->]|(_ & Hk & ->)]; [|change (len []) with 0 in Hl; lia].
  destruct (fork_mapped s P l Hmp) as (HU & HC & Hd & Hv & Hp).
  destruct (uvmcopy_spec 0 dend 8192 P fchild l s eq_refl) as (r & s' & C' & l' & E' & _ & _ & _ & _ & _ & [(-> & H & _)|(_ & H & _)]).
  - split; apply Z.leb_le; reflexivity.
  - exact HU.
  - exact HC.
  - intros p H Hq. apply list_elem_of_singleton in Hq as ->. exact (Hd (pt_root fchild) H eq_refl).
  - intros v p H Hq. apply list_elem_of_singleton in Hq. rewrite (Hp v p H) in Hq. discriminate Hq.
  - intros v. unfold upage. change (entry (pmem s) fchild v) with 0. destruct (v * 4096 <? MAXVA); reflexivity.
  - intros v _. reflexivity.
  - exists s, P. split; [exact E|]. split; [exact Hv|]. exists s', C'. split; [exact E'|]. rewrite H; [exact Hv|lia].
  - change ((8192 + 4095) / 4096) with 2 in H. lia.
Defined.
