(* ===== verification/KvmSpec.v ===== *)
(** The kernel's own page table: [kvmmake] of kernel/vm.c with
    [proc_mapstacks] of kernel/proc.c.

    The theorem gives every entry of the table that boot builds, counts the
    pages it takes (so that boot never runs out of memory), and says that the
    kernel stacks are pages of their own. *)

From stdpp Require Import base tactics list numbers strings gmap sets.
From S2P Require Import Prelude Param Bytes CString Spinlock UserSpec Kalloc Vm VmTree VmMap VmUser.
From Stdlib Require Import ZArith Lia.

Open Scope kernel_scope.

(** * The address space *)

Definition RW : Z := Z.lor PTE_R PTE_W.
Definition RX : Z := Z.lor PTE_R PTE_X.

(** The kernel stack on virtual page [w], when [st] are the pages of the stacks:
    every other page below the trampoline. *)
Definition stack_at (st : list Z) (w : Z) : option Z :=
  let d := TRAMPOLINE / 4096 - w in
  if (2 <=? d) && (d mod 2 =? 0) then st !! Z.to_nat (d / 2 - 1) else None.

(** The entry of virtual page [w] before the stacks are mapped. *)
Definition kernel_entry (etext trampoline w : Z) : Z :=
  if decide (w = TRAMPOLINE / 4096) then mkpte trampoline RX
  else if decide (etext / 4096 ≤ w < PHYSTOP / 4096) then mkpte (w * 4096) RW
  else if decide (KERNBASE / 4096 ≤ w < etext / 4096) then mkpte (w * 4096) RX
  else if decide (PLIC / 4096 ≤ w < PLIC / 4096 + 16384) then mkpte (w * 4096) RW
  else if decide (w = VIRTIO0 / 4096) then mkpte (w * 4096) RW
  else if decide (w = UART0 / 4096) then mkpte (w * 4096) RW
  else 0.

Definition kernel_map (etext trampoline : Z) (st : list Z) (w : Z) : Z :=
  match stack_at st w with
  | Some q => mkpte q RW
  | None => kernel_entry etext trampoline w
  end.

(** The table pages it takes: the indices of level 1 and level 0. *)
Definition key1 (i : Z) : bool := (i =? 0) || (i =? 2) || (i =? 255).
Definition key0 (k : Z) : bool := ((96 <=? k) && (k <=? 128)) || ((1024 <=? k) && (k <=? 1087)) || (k =? 131071).

Definition keys1 : gset Z := {[0; 2; 255]}.
Definition keys0 : gset Z := list_to_set (seqZ 96 33 ++ seqZ 1024 64 ++ [131071]).

Lemma key1_in i : key1 i = true → i ∈ keys1.
Proof. unfold key1, keys1. intros H. repeat (apply orb_prop in H as [H|H]); apply Z.eqb_eq in H; set_solver. Qed.

Lemma key0_in k : key0 k = true → k ∈ keys0.
Proof.
  unfold key0, keys0. intros H. rewrite elem_of_list_to_set, !elem_of_app, !elem_of_seqZ, list_elem_of_singleton.
  repeat (apply orb_prop in H as [H|H]); lia.
Qed.

Lemma dom_bound (M : gmap Z Z) (X : gset Z) : (∀ i, is_Some (M !! i) → i ∈ X) → (length (map_to_list M).*2 ≤ size X)%nat.
Proof.
  intros H. rewrite length_fmap, length_map_to_list, <-(size_dom (D := gset Z)). apply subseteq_size. intros i Hi. apply H. by apply elem_of_dom.
Qed.

(** * The construction *)

(** A zeroed page from the allocator is a page table without entries. *)
Lemma empty_table me kend q l s : 0 < kend → kmem_inv kend (q :: l) s → ∃ s0, kalloc_ me s = Ok q s0 ∧ q ≠ 0 ∧
  let s1 := set_pmem (memset (pmem s0) q 0 PGSIZE) s0 in vm_inv kend (mkptree q ∅ ∅) l s1 ∧ same_outside q (pmem s) (pmem s1).
Proof.
  intros Hend Hk. destruct (kalloc_cons me kend Hend q l s Hk) as (s0 & E & [K1 K2 K3 K4] & Hout & _).
  destruct Hk as [_ _ Hnd Hpg]. apply NoDup_cons in Hnd as [Hq Hnd]. pose proof (Forall_inv Hpg) as Hqp.
  exists s0. split_and!; [done|destruct Hqp; lia|]. cbv zeta. set (s1 := set_pmem _ s0).
  assert (Hz : ∀ x, q ≤ x < q + 4096 → ldb (pmem s1) x = 0).
  { intros x Hx. cbn [s1 pmem set_pmem]. rewrite memset_spec by (unfold PGSIZE; lia). by rewrite decide_True by (unfold PGSIZE; lia). }
  split; [constructor; [constructor; [by apply pdir_zero|done|done]| | |by constructor]|].
  - constructor; try done. eapply flist_outside; [apply Hqp|exact Hq|done|apply same_outside_memset|done].
  - cbn. by constructor.
  - eapply same_outside_trans; [exact Hout|apply same_outside_memset].
Qed.

Section kvm.
  Context (me kend : Z) (Hend : 0 < kend).
  Context (L : list Z) (HL : 167 ≤ len L).

(** The pages of [L] are the stacks [st], the pages of the table, and the free
    list; the table has the entries [E], and only pages for the keys above. *)
Record built (st : list Z) (T : ptree) (l : list Z) (s : kmem) (E : Z → Z) : Prop := {
  bt_inv : vm_inv kend T l s;
  bt_entry : ∀ w, entry (pmem s) T w = E w;
  bt_perm : st ++ tpages T ++ l ≡ₚ L;
  bt_key1 : ∀ i, is_Some (pt_l1 T !! i) → key1 i = true;
  bt_key0 : ∀ k, is_Some (pt_l0 T !! k) → key0 k = true;
}.

Lemma built_size st T l s E : built st T l s E → len (tpages T) ≤ 102.
Proof.
  intros [_ _ _ B1 B0]. unfold tpages, len. rewrite length_cons, length_app.
  pose proof (dom_bound (pt_l1 T) keys1 (λ i Hi, key1_in i (B1 i Hi))) as H1. pose proof (dom_bound (pt_l0 T) keys0 (λ i Hi, key0_in i (B0 i Hi))) as H0.
  change (size keys1) with 3%nat in H1. assert (size keys0 = 98%nat) as E0 by (vm_compute; reflexivity). rewrite E0 in H0. lia.
Qed.

Lemma built_ext st T l s E E' : built st T l s E → (∀ w, E w = E' w) → built st T l s E'.
Proof. intros [B1 B2 B3 B4 B5] HE. constructor; try done. intros w. by rewrite B2. Qed.

(** There is memory left. *)
Lemma built_free st T l s E : built st T l s E → len st ≤ 64 → l ≠ [].
Proof.
  intros HB Hst ->. pose proof (built_size _ _ _ _ _ HB) as Hs. pose proof (Permutation_length (bt_perm _ _ _ _ _ HB)) as Hp.
  rewrite app_nil_r, length_app in Hp. unfold len in *. lia.
Qed.

Lemma kvmmap_ok st T l s E va n pa perm : built st T l s E → len st ≤ 64 →
  page_aligned va → 0 ≤ va → 0 < n → va + n * 4096 ≤ MAXVA → page_aligned pa → 0 ≤ pa → pa + n * 4096 ≤ 72057594037927936 → 0 ≤ perm < 1024 →
  (∀ w, va / 4096 ≤ w < va / 4096 + n → has (E w) PTE_V = false ∧ key1 (w / 512 / 512) = true ∧ key0 (w / 512) = true) →
  ∃ s' T' l', kvmmap me (pt_root T) va pa (n * PGSIZE) perm s = Ok tt s' ∧ pt_root T' = pt_root T ∧
    built st T' l' s' (λ w, if decide (va / 4096 ≤ w < va / 4096 + n) then mkpte (pa + (w - va / 4096) * 4096) perm else E w).
Proof.
  intros HB Hst Ha Hva Hn Hmax Hpa Hpa0 Hpm Hperm Hw. pose proof HB as [B1 B2 B3 B4 B5].
  destruct (mappages_ok me kend Hend T l s va n pa perm) as (r & s' & T' & l' & k & E1 & [M1 M2 M3 M4 M5] & [_ [K1 K0]] & Hr); try done.
  { intros w Hw'. rewrite B2. by apply Hw. }
  assert (HB' : built st T' l' s' (λ w, if decide (va / 4096 ≤ w < va / 4096 + k) then mkpte (pa + (w - va / 4096) * 4096) perm else E w)).
  { constructor; [done|intros w; by rewrite M4, B2|by rewrite M3| |].
    - intros i Hi. destruct (K1 i Hi) as [Hi'|(w & Hw' & ->)]; [by apply B4|by apply Hw].
    - intros i Hi. destruct (K0 i Hi) as [Hi'|(w & Hw' & ->)]; [by apply B5|by apply Hw]. }
  destruct Hr as [[-> ->]|(-> & _ & ->)]; [|by destruct (built_free _ _ _ _ _ HB' Hst)].
  exists s', T', l'. split_and!; [|done|done]. unfold kvmmap. by rewrite (bind_ok _ _ _ _ _ E1).
Qed.

(** A page for a stack. *)
Lemma stack_page st T q l s E : built st T (q :: l) s E →
  ∃ s0, kalloc_ me s = Ok q s0 ∧ q ≠ 0 ∧ built (st ++ [q]) T l s0 E.
Proof.
  intros [B1 B2 B3 B4 B5]. destruct (alloc_page me kend Hend T q l s B1) as (s0 & E0 & Hq & Hout & Hm). exists s0. split_and!; [done|done|].
  destruct (Hm (pmem s0) ltac:(done)) as [Hv _]. replace (set_pmem (pmem s0) s0) with s0 in Hv by (by destruct s0).
  constructor; try done.
  - intros w. rewrite <-B2. apply entry_frame. intros p Hp. destruct B1 as [_ [_ _ _ V2] V3 V4].
    rewrite Forall_forall in V4. apply Forall_inv in V2. apply (same_outside_page p q); [by apply V4|apply V2| |done].
    intros ->. rewrite <-Permutation_middle in V3. apply NoDup_cons in V3 as [V3 _]. set_solver.
  - rewrite <-B3, <-!app_assoc. apply Permutation_app_head. apply (Permutation_middle (tpages T) l q).
Qed.

Lemma stack_at_snoc st q w : stack_at (st ++ [q]) w = if decide (w = KSTACK (len st) / 4096) then Some q else stack_at st w.
Proof.
  unfold stack_at, KSTACK. change (TRAMPOLINE / 4096) with 67108863. change TRAMPOLINE with 274877902848. unfold PGSIZE, len.
  assert (HK : (274877902848 - (Z.of_nat (length st) + 1) * 2 * 4096) / 4096 = 67108863 - (Z.of_nat (length st) + 1) * 2) by dlia. rewrite HK.
  case_decide as E.
  - subst w. replace (67108863 - (67108863 - (Z.of_nat (length st) + 1) * 2)) with ((Z.of_nat (length st) + 1) * 2) by lia.
    rewrite Z.mod_mul, Z.div_mul by lia. rewrite (proj2 (Z.leb_le 2 _)) by lia. cbn [andb Z.eqb].
    replace (Z.to_nat (Z.of_nat (length st) + 1 - 1)) with (length st) by lia. by apply list_lookup_middle.
  - destruct ((2 <=? 67108863 - w) && ((67108863 - w) mod 2 =? 0)) eqn:Ed; [|done]. apply andb_prop in Ed as [E1 E2].
    apply Z.leb_le in E1. apply Z.eqb_eq in E2. destruct (decide (Z.to_nat ((67108863 - w) / 2 - 1) < length st)%nat); [by rewrite lookup_app_l|].
    rewrite lookup_app_r, (lookup_ge_None_2 st) by lia. destruct (Z.to_nat _ - length st)%nat as [|k] eqn:Ek; [exfalso; apply E; dlia|done].
Qed.

(** One stack: the page below it stays unmapped. *)
Lemma one_stack etext trampoline T l s st : page_aligned etext → KERNBASE < etext < PHYSTOP → len st < NPROC →
  built st T l s (kernel_map etext trampoline st) →
  ∃ q s1 s' T' l', kalloc_ me s = Ok q s1 ∧ q ≠ 0 ∧ kvmmap me (pt_root T) (KSTACK (len st)) q PGSIZE RW s1 = Ok tt s' ∧
    pt_root T' = pt_root T ∧ built (st ++ [q]) T' l' s' (kernel_map etext trampoline (st ++ [q])).
Proof.
  intros Ha He Hlen HB. unfold NPROC in Hlen. destruct l as [|q l]; [by destruct (built_free _ _ _ _ _ HB ltac:(lia))|].
  destruct (stack_page st T q l s _ HB) as (s1 & E1 & Hq & HB1). exists q, s1. set (i := len st) in *. assert (Hi : 0 ≤ i) by apply len_nonneg.
  assert (Hqp : page_ok kend q) by (destruct (bt_inv _ _ _ _ _ HB) as [_ [_ _ _ V] _ _]; by apply Forall_inv in V).
  assert (HK : KSTACK i / 4096 = 67108863 - (i + 1) * 2) by (unfold KSTACK; change TRAMPOLINE with 274877902848; unfold PGSIZE; dlia).
  destruct (kvmmap_ok (st ++ [q]) T l s1 _ (KSTACK i) 1 q RW HB1) as (s' & T' & l' & E2 & HT & HB2); try done.
  - unfold len in *. rewrite length_app. cbn. lia.
  - unfold page_aligned, KSTACK. change TRAMPOLINE with (67108863 * 4096). unfold PGSIZE. replace (67108863 * 4096 - (i + 1) * 2 * 4096) with ((67108863 - (i + 1) * 2) * 4096) by lia. by apply Z.mod_mul.
  - unfold KSTACK. change TRAMPOLINE with 274877902848. unfold PGSIZE. lia.
  - unfold KSTACK. change TRAMPOLINE with 274877902848. change MAXVA with 274877906944. unfold PGSIZE. lia.
  - apply Hqp.
  - destruct Hqp. lia.
  - destruct Hqp as [_ Hqp]. unfold PHYSTOP, KERNBASE in Hqp. lia.
  - intros w Hw. assert (w = 67108863 - (i + 1) * 2) as -> by lia. split_and!; [|unfold key1; apply orb_true_iff; right; apply Z.eqb_eq; dlia|unfold key0; apply orb_true_iff; right; apply Z.eqb_eq; dlia].
    unfold kernel_map. assert (stack_at st (67108863 - (i + 1) * 2) = None) as ->.
    { unfold stack_at. change (TRAMPOLINE / 4096) with 67108863. destruct (_ && _); [|done]. apply lookup_ge_None_2. unfold i, len. dlia. }
    unfold kernel_entry. change (TRAMPOLINE / 4096) with 67108863. change (PHYSTOP / 4096) with 557056. change (KERNBASE / 4096) with 524288.
    change (PLIC / 4096) with 49152. change (VIRTIO0 / 4096) with 65537. change (UART0 / 4096) with 65536.
    assert (etext / 4096 < 557056) by (unfold PHYSTOP, KERNBASE in He; dlia). by rewrite !decide_False by lia.
  - exists s', T', l'. split_and!; [done|done|by rewrite Z.mul_1_l in E2|done|]. eapply built_ext; [exact HB2|]. intros w. unfold kernel_map. rewrite stack_at_snoc. fold i.
    destruct (decide (w = KSTACK i / 4096)) as [-> |]; [rewrite decide_True by lia; f_equal; lia|by rewrite decide_False by lia].
Qed.

(** The stacks, one by one. *)
Lemma mapstacks_ok etext trampoline T l s : page_aligned etext → KERNBASE < etext < PHYSTOP →
  built [] T l s (kernel_entry etext trampoline) →
  ∃ s' T' l' st, proc_mapstacks me (pt_root T) s = Ok tt s' ∧ pt_root T' = pt_root T ∧ len st = NPROC ∧ built st T' l' s' (kernel_map etext trampoline st).
Proof.
  intros Ha He HB. unfold proc_mapstacks.
  set (I := λ i s, ∃ T' l' st, pt_root T' = pt_root T ∧ len st = i ∧ built st T' l' s (kernel_map etext trampoline st)).
  match goal with |- context [for_up _ _ ?b] => set (body := b) end. assert (HF : returns (for_up (R := unit) (Z.to_nat NPROC) 0 body) s (λ _ s', I NPROC s')).
  { apply (for_up_inv I).
    - exists T, l, []. split_and!; [done|done|]. eapply built_ext; [exact HB|]. intros w. unfold kernel_map, stack_at. by destruct (_ && _).
    - intros i s1 Hi (T1 & l1 & st & HT & Hlen & HB1).
      destruct (one_stack etext trampoline T1 l1 s1 st Ha He ltac:(lia) HB1) as (q & s2 & s3 & T3 & l3 & E1 & Hq & E2 & HT3 & HB3).
      unfold returns, body. rewrite (bind_ok _ _ _ _ _ E1), (proj2 (Z.eqb_neq q 0) Hq), <-HT, <-Hlen, (bind_ok _ _ _ _ _ E2).
      exists T3, l3, (st ++ [q]). split_and!; [congruence|unfold len; rewrite length_app; cbn; lia|done].
    - done. }
  unfold returns in HF. destruct (for_up _ _ _ s) as [r s'| | | |] eqn:Ef; try done. destruct HF as (T' & l' & st & HT & Hlen & HB').
  exists s', T', l', st. split_and!; [by rewrite (bind_ok _ _ _ _ _ Ef)|done|done|done].
Qed.

(** The root page. *)
Lemma fresh_root q l s : L = q :: l → kmem_inv kend L s → ∃ s0, kalloc_ me s = Ok q s0 ∧ q ≠ 0 ∧
  built [] (mkptree q ∅ ∅) l (set_pmem (memset (pmem s0) q 0 PGSIZE) s0) (λ _, 0).
Proof.
  intros HLq Hk. rewrite HLq in Hk. destruct (empty_table me kend q l s Hend Hk) as (s0 & E & Hq & Hv & _). exists s0. split_and!; [done|done|].
  constructor; [done|done|by rewrite HLq|by intros i [x Hx]|by intros i [x Hx]].
Qed.

(** A range of pages, in page numbers. *)
Lemma area_ok T l s E v p n perm : built [] T l s E → 0 < n → 0 ≤ perm < 1024 → 0 ≤ p ≤ 67108864 → n ≤ 67108864 →
  49152 ≤ v ∧ v + n ≤ 66048 ∨ 524288 ≤ v ∧ v + n ≤ 557056 ∨ 67108352 ≤ v ∧ v + n ≤ 67108864 →
  (∀ w, v ≤ w < v + n → has (E w) PTE_V = false) →
  ∃ s' T' l', kvmmap me (pt_root T) (v * 4096) (p * 4096) (n * 4096) perm s = Ok tt s' ∧ pt_root T' = pt_root T ∧
    built [] T' l' s' (λ w, if decide (v ≤ w < v + n) then mkpte ((p + (w - v)) * 4096) perm else E w).
Proof.
  intros HB Hn Hperm Hp Hn' Hv HE. change (n * 4096) with (n * PGSIZE).
  destruct (kvmmap_ok [] T l s E (v * 4096) n (p * 4096) perm HB) as (s' & T' & l' & E' & HT & HB');
    [done|by apply Z.mod_mul|lia|done|change MAXVA with 274877906944; lia|by apply Z.mod_mul|lia|lia|done| |].
  - rewrite Z.div_mul by lia. intros w Hw. split; [by apply HE|]. unfold key1, key0.
    destruct Hv as [Hv|[Hv|Hv]]; split; repeat rewrite orb_true_iff; rewrite ?andb_true_iff, ?Z.leb_le, ?Z.eqb_eq; dlia.
  - exists s', T', l'. split_and!; [done|done|]. eapply built_ext; [exact HB'|]. intros w. cbn beta. rewrite !Z.div_mul by lia. case_decide; [|done]. f_equal. lia.
Qed.

(** Every area in turn, then the stacks. *)
Lemma kvmmake_ok etext trampoline s : kmem_inv kend L s → page_aligned etext → KERNBASE < etext < PHYSTOP → page_aligned trampoline → 0 ≤ trampoline < PHYSTOP →
  ∃ s' T l st, kvmmake me etext trampoline s = Ok (pt_root T) s' ∧ len st = NPROC ∧ built st T l s' (kernel_map etext trampoline st).
Proof.
  intros Hk Ha He Hta Htr. assert (HLq : ∃ q l, L = q :: l) by (destruct L as [|q l]; [unfold len in HL; cbn in HL; lia|by exists q, l]). destruct HLq as (q & l0 & HLq).
  destruct (fresh_root q l0 s HLq Hk) as (s0 & E0 & Hq & HB0). unfold kvmmake. rewrite (bind_ok _ _ _ _ _ E0). unfold memset_. rewrite bind_modify.
  set (T0 := mkptree q ∅ ∅) in HB0. change q with (pt_root T0). set (te := etext / 4096). set (tp := trampoline / 4096).
  assert (Hte : etext = te * 4096) by (unfold page_aligned, PGSIZE in Ha; unfold te; dlia). assert (Htp : trampoline = tp * 4096) by (unfold page_aligned, PGSIZE in Hta; unfold tp; dlia).
  assert (Hter : 524288 < te < 557056) by (unfold PHYSTOP, KERNBASE in He; lia). assert (Htpr : 0 ≤ tp < 557056) by (unfold PHYSTOP, KERNBASE in Htr; lia).
  assert (Hrw : 0 ≤ RW < 1024) by (change RW with 6; lia). assert (Hrx : 0 ≤ RX < 1024) by (change RX with 10; lia).
  destruct (area_ok _ _ _ _ 65536 65536 1 RW HB0) as (s1 & T1 & l1 & E1 & R1 & HB1); [lia|done|lia|lia|lia|done|].
  change (kvmmap me (pt_root T0) UART0 UART0 PGSIZE (Z.lor PTE_R PTE_W)) with (kvmmap me (pt_root T0) (65536 * 4096) (65536 * 4096) (1 * 4096) RW).
  rewrite (bind_ok _ _ _ _ _ E1), <-R1.
  destruct (area_ok _ _ _ _ 65537 65537 1 RW HB1) as (s2 & T2 & l2 & E2 & R2 & HB2); [lia|done|lia|lia|lia|intros w Hw; by rewrite !decide_False by lia|].
  change (kvmmap me (pt_root T1) VIRTIO0 VIRTIO0 PGSIZE (Z.lor PTE_R PTE_W)) with (kvmmap me (pt_root T1) (65537 * 4096) (65537 * 4096) (1 * 4096) RW).
  rewrite (bind_ok _ _ _ _ _ E2), <-R2.
  destruct (area_ok _ _ _ _ 49152 49152 16384 RW HB2) as (s3 & T3 & l3 & E3 & R3 & HB3); [lia|done|lia|lia|lia|intros w Hw; by rewrite !decide_False by lia|].
  change (kvmmap me (pt_root T2) PLIC PLIC 67108864 (Z.lor PTE_R PTE_W)) with (kvmmap me (pt_root T2) (49152 * 4096) (49152 * 4096) (16384 * 4096) RW).
  rewrite (bind_ok _ _ _ _ _ E3), <-R3.
  destruct (area_ok _ _ _ _ 524288 524288 (te - 524288) RX HB3) as (s4 & T4 & l4 & E4 & R4 & HB4); [lia|done|lia|lia|lia|intros w Hw; by rewrite !decide_False by lia|].
  assert (kvmmap me (pt_root T3) KERNBASE KERNBASE (etext - KERNBASE) (Z.lor PTE_R PTE_X) = kvmmap me (pt_root T3) (524288 * 4096) (524288 * 4096) ((te - 524288) * 4096) RX) as ->
    by (rewrite Hte; f_equal; unfold KERNBASE; lia).
  rewrite (bind_ok _ _ _ _ _ E4), <-R4.
  destruct (area_ok _ _ _ _ te te (557056 - te) RW HB4) as (s5 & T5 & l5 & E5 & R5 & HB5); [lia|done|lia|lia|lia|intros w Hw; by rewrite !decide_False by lia|].
  assert (kvmmap me (pt_root T4) etext etext (PHYSTOP - etext) (Z.lor PTE_R PTE_W) = kvmmap me (pt_root T4) (te * 4096) (te * 4096) ((557056 - te) * 4096) RW) as ->
    by (rewrite Hte; f_equal; unfold PHYSTOP, KERNBASE; lia).
  rewrite (bind_ok _ _ _ _ _ E5), <-R5.
  destruct (area_ok _ _ _ _ 67108863 tp 1 RX HB5) as (s6 & T6 & l6 & E6 & R6 & HB6); [lia|done|lia|lia|lia|intros w Hw; by rewrite !decide_False by lia|].
  assert (kvmmap me (pt_root T5) TRAMPOLINE trampoline PGSIZE (Z.lor PTE_R PTE_X) = kvmmap me (pt_root T5) (67108863 * 4096) (tp * 4096) (1 * 4096) RX) as -> by (by rewrite Htp).
  rewrite (bind_ok _ _ _ _ _ E6), <-R6.
  destruct (mapstacks_ok etext trampoline T6 l6 s6 Ha He) as (s7 & T7 & l7 & st & E7 & R7 & Hst & HB7).
  { eapply built_ext; [exact HB6|]. intros w. unfold kernel_entry. fold te. change (TRAMPOLINE / 4096) with 67108863. change (PHYSTOP / 4096) with 557056. change (KERNBASE / 4096) with 524288.
    change (PLIC / 4096) with 49152. change (VIRTIO0 / 4096) with 65537. change (UART0 / 4096) with 65536.
    destruct (decide (w = 67108863)); [rewrite decide_True by lia; f_equal; lia|rewrite decide_False by lia].
    destruct (decide (te ≤ w < 557056)); [rewrite decide_True by lia; f_equal; lia|rewrite decide_False by lia].
    destruct (decide (524288 ≤ w < te)); [rewrite decide_True by lia; f_equal; lia|rewrite decide_False by lia].
    destruct (decide (49152 ≤ w < 49152 + 16384)); [f_equal; lia|].
    destruct (decide (w = 65537)); [rewrite decide_True by lia; f_equal; lia|rewrite decide_False by lia].
    destruct (decide (w = 65536)); [rewrite decide_True by lia; f_equal; lia|by rewrite decide_False by lia]. }
  rewrite (bind_ok _ _ _ _ _ E7), <-R7. exists s7, T7, l7, st. split_and!; [reflexivity|exact Hst|exact HB7].
Qed.
End kvm.

(** Below every kernel stack is a page that is not mapped. *)
Lemma kernel_map_stack etext trampoline st p : KERNBASE < etext < PHYSTOP → 0 ≤ p < len st → len st ≤ NPROC →
  kernel_map etext trampoline st (KSTACK p / 4096) = mkpte (znth 0 st p) RW ∧ kernel_map etext trampoline st (KSTACK p / 4096 - 1) = 0.
Proof.
  intros He Hp Hst. unfold NPROC in Hst.
  assert (HK : KSTACK p / 4096 = 67108863 - (p + 1) * 2) by (unfold KSTACK; change TRAMPOLINE with 274877902848; unfold PGSIZE; dlia).
  unfold kernel_map, stack_at. rewrite HK. change (TRAMPOLINE / 4096) with 67108863. split.
  - replace (67108863 - (67108863 - (p + 1) * 2)) with ((p + 1) * 2) by lia. rewrite Z.mod_mul, Z.div_mul by lia. rewrite (proj2 (Z.leb_le 2 _)) by lia. cbn [andb Z.eqb].
    replace (p + 1 - 1) with p by lia. unfold znth, len in *. destruct (lookup_lt_is_Some_2 st (Z.to_nat p) ltac:(lia)) as [q Eq]. rewrite Eq.
    by rewrite (proj2 (Z.ltb_ge p 0)) by lia.
  - assert (((67108863 - (67108863 - (p + 1) * 2 - 1)) mod 2 =? 0) = false) as -> by (apply Z.eqb_neq; dlia). rewrite andb_false_r.
    unfold kernel_entry. change (TRAMPOLINE / 4096) with 67108863. change (PHYSTOP / 4096) with 557056. change (KERNBASE / 4096) with 524288.
    change (PLIC / 4096) with 49152. change (VIRTIO0 / 4096) with 65537. change (UART0 / 4096) with 65536.
    assert (etext / 4096 < 557056) by (unfold PHYSTOP, KERNBASE in He; dlia). by rewrite !decide_False by lia.
Qed.

(** C9: the kernel's page table.  With 167 free pages, [kvmmake] does not run out
    of memory and does not panic, and takes at most 166 of them: at most 102
    for the table and [NPROC] for the stacks.  The table it returns is well formed and has
    exactly the entries of [kernel_map]: the UART, the disk and the interrupt
    controller, the kernel's text read-only and executable, the rest of
    memory writable and not executable, all at their own addresses, the
    trampoline at the top, and nothing else but the stacks.  Every process has
    a kernel stack of its own, one page that is neither free nor part of the
    table nor the stack of another, with an unmapped page below it. *)
Theorem kvmmake_spec me kend etext trampoline l s : 0 < kend → kmem_inv kend l s → 167 ≤ len l →
  page_aligned etext → KERNBASE < etext < PHYSTOP → page_aligned trampoline → 0 ≤ trampoline < PHYSTOP →
  ∃ s' T l' st, kvmmake me etext trampoline s = Ok (pt_root T) s' ∧ vm_inv kend T l' s' ∧
    (∀ w, entry (pmem s') T w = kernel_map etext trampoline st w) ∧ len st = NPROC ∧ st ++ tpages T ++ l' ≡ₚ l ∧ NoDup (st ++ tpages T ++ l') ∧
    len (tpages T) ≤ 102 ∧ len l - len l' ≤ 166 ∧
    ∀ p, 0 ≤ p < NPROC → entry (pmem s') T (KSTACK p / 4096) = mkpte (znth 0 st p) RW ∧ entry (pmem s') T (KSTACK p / 4096 - 1) = 0.
Proof.
  intros Hend Hk Hl Ha He Hta Htr. destruct (kvmmake_ok me kend Hend l Hl etext trampoline s Hk Ha He Hta Htr) as (s' & T & l' & st & E & Hst & HB).
  pose proof (built_size _ _ _ _ _ _ _ HB) as Hsz. destruct HB as [B1 B2 B3 _ _].
  assert (Hlen : len st + (len (tpages T) + len l') = len l) by (rewrite <-!len_app; unfold len; by rewrite B3).
  exists s', T, l', st. split_and!; [done|done|done|done|done|rewrite B3; apply Hk|done|unfold NPROC in Hst; lia|]. intros p Hp. rewrite !B2. apply kernel_map_stack; [done|lia|lia].
Qed.

Lemma kvmmake_spec_witness : ∃ s s' T, kinit 0 (PHYSTOP - 819200) demo_mem = Ok tt s ∧ kvmmake 0 2147516416 2147512320 s = Ok (pt_root T) s' ∧
  entry (pmem s') T 524288 = mkpte KERNBASE RX.
Proof.
  destruct (kinit_ok 0 (PHYSTOP - 819200) ltac:(reflexivity) ltac:(unfold PHYSTOP, KERNBASE; lia) demo_mem eq_refl) as (s & E & Hk).
  destruct (kvmmake_spec 0 (PHYSTOP - 819200) 2147516416 2147512320 (managed (PHYSTOP - 819200)) s ltac:(reflexivity) Hk
    ltac:(apply Z.leb_le; vm_compute; reflexivity) eq_refl ltac:(unfold PHYSTOP, KERNBASE; lia) eq_refl ltac:(unfold PHYSTOP, KERNBASE; lia))
    as (s' & T & l' & st & E' & _ & He & _).
  exists s, s', T. split_and!; [exact E|exact E'|]. rewrite He. vm_compute. reflexivity.
Defined.
