(* ===== verification/Proc.v ===== *)
(** kernel/proc.c: the process table and scheduling.

    The state is the process table with the locks and counters of the file and
    the [struct cpu] of the hart that runs.  A process pointer is the index of
    its table entry plus one, so that 0 is the null pointer.  [acquire] and
    [release] here include the interrupt counter of the hart, which [sched]
    inspects.

    A call to [swtch] leaves the process ([Sleep]); what follows it in the
    source runs when the scheduler comes back and is a definition of its own
    ([sched_resume], [sleep_resume], [yield_resume]).  Seen from [scheduler],
    [swtch] runs the process until it switches back: a parameter.

    The operations that need memory or files are in ProcMem.v. *)

From stdpp Require Import base tactics list numbers strings.
From S2P Require Import Prelude Param Bytes Spinlock.
From Stdlib Require Import ZArith Lia.

Open Scope kernel_scope.

(** * Data *)

Inductive procstate := UNUSED | USED | SLEEPING | RUNNABLE | RUNNING | ZOMBIE.

#[export] Instance procstate_eq_dec : EqDecision procstate.
Proof. solve_decision. Defined.

(** [struct context]: [s0] to [s11] as a list. *)
Record context := mkcontext {
  c_ra : Z;
  c_sp : Z;
  c_s : list Z;
}.

(** [struct proc].  [p_intena] is the local variable [intena] of a pending call
    of [sched], on the kernel stack of the process. *)
Record proc := mkproc {
  p_lock : spinlock;
  p_state : procstate;
  p_chan : Z;
  p_killed : Z;
  p_xstate : Z;
  p_pid : Z;
  p_parent : Z;
  p_kstack : Z;
  p_sz : Z;
  p_pagetable : Z;
  p_trapframe : Z;
  p_context : context;
  p_ofile : list Z;
  p_cwd : Z;
  p_name : list Z;
  p_intena : Z;
}.

(** Static memory starts zeroed. *)
Definition proc0 : proc :=
  mkproc (mkspinlock 0 "" None) UNUSED 0 0 0 0 0 0 0 0 0 (mkcontext 0 0 (replicate 12 0))
    (replicate (Z.to_nat NOFILE) 0) 0 (replicate 16 0) 0.

Definition set_p_lock (v : spinlock) (p : proc) : proc :=
  mkproc v (p_state p) (p_chan p) (p_killed p) (p_xstate p) (p_pid p) (p_parent p) (p_kstack p) (p_sz p) (p_pagetable p) (p_trapframe p) (p_context p) (p_ofile p) (p_cwd p) (p_name p) (p_intena p).
Definition set_p_state (v : procstate) (p : proc) : proc :=
  mkproc (p_lock p) v (p_chan p) (p_killed p) (p_xstate p) (p_pid p) (p_parent p) (p_kstack p) (p_sz p) (p_pagetable p) (p_trapframe p) (p_context p) (p_ofile p) (p_cwd p) (p_name p) (p_intena p).
Definition set_p_chan (v : Z) (p : proc) : proc :=
  mkproc (p_lock p) (p_state p) v (p_killed p) (p_xstate p) (p_pid p) (p_parent p) (p_kstack p) (p_sz p) (p_pagetable p) (p_trapframe p) (p_context p) (p_ofile p) (p_cwd p) (p_name p) (p_intena p).
Definition set_p_killed (v : Z) (p : proc) : proc :=
  mkproc (p_lock p) (p_state p) (p_chan p) v (p_xstate p) (p_pid p) (p_parent p) (p_kstack p) (p_sz p) (p_pagetable p) (p_trapframe p) (p_context p) (p_ofile p) (p_cwd p) (p_name p) (p_intena p).
Definition set_p_xstate (v : Z) (p : proc) : proc :=
  mkproc (p_lock p) (p_state p) (p_chan p) (p_killed p) v (p_pid p) (p_parent p) (p_kstack p) (p_sz p) (p_pagetable p) (p_trapframe p) (p_context p) (p_ofile p) (p_cwd p) (p_name p) (p_intena p).
Definition set_p_pid (v : Z) (p : proc) : proc :=
  mkproc (p_lock p) (p_state p) (p_chan p) (p_killed p) (p_xstate p) v (p_parent p) (p_kstack p) (p_sz p) (p_pagetable p) (p_trapframe p) (p_context p) (p_ofile p) (p_cwd p) (p_name p) (p_intena p).
Definition set_p_parent (v : Z) (p : proc) : proc :=
  mkproc (p_lock p) (p_state p) (p_chan p) (p_killed p) (p_xstate p) (p_pid p) v (p_kstack p) (p_sz p) (p_pagetable p) (p_trapframe p) (p_context p) (p_ofile p) (p_cwd p) (p_name p) (p_intena p).
Definition set_p_kstack (v : Z) (p : proc) : proc :=
  mkproc (p_lock p) (p_state p) (p_chan p) (p_killed p) (p_xstate p) (p_pid p) (p_parent p) v (p_sz p) (p_pagetable p) (p_trapframe p) (p_context p) (p_ofile p) (p_cwd p) (p_name p) (p_intena p).
Definition set_p_sz (v : Z) (p : proc) : proc :=
  mkproc (p_lock p) (p_state p) (p_chan p) (p_killed p) (p_xstate p) (p_pid p) (p_parent p) (p_kstack p) v (p_pagetable p) (p_trapframe p) (p_context p) (p_ofile p) (p_cwd p) (p_name p) (p_intena p).
Definition set_p_pagetable (v : Z) (p : proc) : proc :=
  mkproc (p_lock p) (p_state p) (p_chan p) (p_killed p) (p_xstate p) (p_pid p) (p_parent p) (p_kstack p) (p_sz p) v (p_trapframe p) (p_context p) (p_ofile p) (p_cwd p) (p_name p) (p_intena p).
Definition set_p_trapframe (v : Z) (p : proc) : proc :=
  mkproc (p_lock p) (p_state p) (p_chan p) (p_killed p) (p_xstate p) (p_pid p) (p_parent p) (p_kstack p) (p_sz p) (p_pagetable p) v (p_context p) (p_ofile p) (p_cwd p) (p_name p) (p_intena p).
Definition set_p_context (v : context) (p : proc) : proc :=
  mkproc (p_lock p) (p_state p) (p_chan p) (p_killed p) (p_xstate p) (p_pid p) (p_parent p) (p_kstack p) (p_sz p) (p_pagetable p) (p_trapframe p) v (p_ofile p) (p_cwd p) (p_name p) (p_intena p).
Definition set_p_ofile (v : list Z) (p : proc) : proc :=
  mkproc (p_lock p) (p_state p) (p_chan p) (p_killed p) (p_xstate p) (p_pid p) (p_parent p) (p_kstack p) (p_sz p) (p_pagetable p) (p_trapframe p) (p_context p) v (p_cwd p) (p_name p) (p_intena p).
Definition set_p_cwd (v : Z) (p : proc) : proc :=
  mkproc (p_lock p) (p_state p) (p_chan p) (p_killed p) (p_xstate p) (p_pid p) (p_parent p) (p_kstack p) (p_sz p) (p_pagetable p) (p_trapframe p) (p_context p) (p_ofile p) v (p_name p) (p_intena p).
Definition set_p_name (v : list Z) (p : proc) : proc :=
  mkproc (p_lock p) (p_state p) (p_chan p) (p_killed p) (p_xstate p) (p_pid p) (p_parent p) (p_kstack p) (p_sz p) (p_pagetable p) (p_trapframe p) (p_context p) (p_ofile p) (p_cwd p) v (p_intena p).
Definition set_p_intena (v : Z) (p : proc) : proc :=
  mkproc (p_lock p) (p_state p) (p_chan p) (p_killed p) (p_xstate p) (p_pid p) (p_parent p) (p_kstack p) (p_sz p) (p_pagetable p) (p_trapframe p) (p_context p) (p_ofile p) (p_cwd p) (p_name p) v.

(** The globals of the file and the hart's [struct cpu]. *)
Record ptable := mkptable {
  procs : list proc;
  nextpid : Z;
  pid_lock : spinlock;
  wait_lock : spinlock;
  initproc : Z;
  pcpu : cpu;
  cpu_proc : Z;
}.

Definition set_procs (v : list proc) (t : ptable) : ptable :=
  mkptable v (nextpid t) (pid_lock t) (wait_lock t) (initproc t) (pcpu t) (cpu_proc t).
Definition set_nextpid (v : Z) (t : ptable) : ptable :=
  mkptable (procs t) v (pid_lock t) (wait_lock t) (initproc t) (pcpu t) (cpu_proc t).
Definition set_initproc (v : Z) (t : ptable) : ptable :=
  mkptable (procs t) (nextpid t) (pid_lock t) (wait_lock t) v (pcpu t) (cpu_proc t).
Definition set_pcpu (v : cpu) (t : ptable) : ptable :=
  mkptable (procs t) (nextpid t) (pid_lock t) (wait_lock t) (initproc t) v (cpu_proc t).
Definition set_cpu_proc (v : Z) (t : ptable) : ptable :=
  mkptable (procs t) (nextpid t) (pid_lock t) (wait_lock t) (initproc t) (pcpu t) v.

Definition pcpuL : lens ptable cpu := Lens pcpu set_pcpu.
Definition pid_lockL : lens ptable spinlock :=
  Lens pid_lock (λ l t, mkptable (procs t) (nextpid t) l (wait_lock t) (initproc t) (pcpu t) (cpu_proc t)).
Definition wait_lockL : lens ptable spinlock :=
  Lens wait_lock (λ l t, mkptable (procs t) (nextpid t) (pid_lock t) l (initproc t) (pcpu t) (cpu_proc t)).

(** [*p] and its update. *)
Definition getp (t : ptable) (p : Z) : proc := znth proc0 (procs t) (p - 1).
Definition setp (p : Z) (x : proc) (t : ptable) : ptable := set_procs (zset (procs t) (p - 1) x) t.
Definition upd_p (p : Z) (f : proc → proc) (t : ptable) : ptable := setp p (f (getp t p)) t.
Definition plockL (p : Z) : lens ptable spinlock :=
  Lens (λ t, p_lock (getp t p)) (λ l t, upd_p p (set_p_lock l) t).

(** Wait channels: the address of a process, and that of [wait_lock]'s owner. *)
Definition proc_chan (p : Z) : Z := 3000 + p.

Section proc.
  Context (me : Z).

Abbreviation PM := (M ptable).

(** [acquire(lk)] and [release(lk)] *)
Definition acq (L : lens ptable spinlock) : PM unit := zoom pcpuL push_off ;; zoom L (acquire_lk me).
Definition rel (L : lens ptable spinlock) : PM unit := zoom L (release_lk me) ;; zoom pcpuL pop_off.

(** The loop over the table, with the pointer of each process. *)
Definition for_proc {R} (body : Z → PM (ctl R)) : PM (option R) := for_up (Z.to_nat NPROC) 1 body.

Definition procinit : PM unit :=
  modify (upd pid_lockL (initlock "nextpid")) ;;
  modify (upd wait_lockL (initlock "wait_lock")) ;;
  for_proc (R := unit) (λ p,
    modify (upd_p p (λ x, set_p_kstack (KSTACK (p - 1)) (set_p_state UNUSED (set_p_lock (initlock "proc") x)))) ;;
    ret Next) ;;
  ret tt.

Definition myproc : PM Z :=
  zoom pcpuL push_off ;;
  p <- gets cpu_proc ;;
  zoom pcpuL pop_off ;;
  ret p.

(** [nextpid] is an [int]. *)
Definition allocpid : PM Z :=
  acq pid_lockL ;;
  pid <- gets nextpid ;;
  modify (set_nextpid (s32 (pid + 1))) ;;
  rel pid_lockL ;;
  ret pid.

(** * Switching *)

Definition swtch : PM unit := λ t, Sleep 0 t.

Definition sched : PM unit :=
  p <- myproc ;;
  t <- get ;;
  if negb (holding me (p_lock (getp t p))) then panic "sched p->lock"
  else if negb (noff (pcpu t) =? 1) then panic "sched locks"
  else if decide (p_state (getp t p) = RUNNING) then panic "sched RUNNING"
  else if negb (intr_get (pcpu t) =? 0) then panic "sched interruptible"
  else
    modify (upd_p p (set_p_intena (intena (pcpu t)))) ;;
    swtch.

(** After [swtch] has returned in [sched]. *)
Definition sched_resume : PM unit :=
  p <- gets cpu_proc ;;
  modify (λ t, set_pcpu (set_intena (p_intena (getp t p)) (pcpu t)) t).

Definition yield : PM unit :=
  p <- myproc ;;
  acq (plockL p) ;;
  modify (upd_p p (set_p_state RUNNABLE)) ;;
  sched.

Definition yield_resume : PM unit :=
  sched_resume ;;
  p <- gets cpu_proc ;;
  rel (plockL p).

(** [lk] is the condition lock, a lock of this state. *)
Definition sleep (chan : Z) (lk : lens ptable spinlock) : PM unit :=
  p <- myproc ;;
  acq (plockL p) ;;
  rel lk ;;
  modify (upd_p p (λ x, set_p_state SLEEPING (set_p_chan chan x))) ;;
  sched.

Definition sleep_resume (lk : lens ptable spinlock) : PM unit :=
  sched_resume ;;
  p <- gets cpu_proc ;;
  modify (upd_p p (set_p_chan 0)) ;;
  rel (plockL p) ;;
  acq lk.

Definition wakeup (chan : Z) : PM unit :=
  for_proc (R := unit) (λ p,
    q <- myproc ;;
    if p =? q then ret Next
    else
      acq (plockL p) ;;
      t <- get ;;
      (if bool_decide (p_state (getp t p) = SLEEPING) && (p_chan (getp t p) =? chan)
       then modify (upd_p p (set_p_state RUNNABLE)) else ret tt) ;;
      rel (plockL p) ;;
      ret Next) ;;
  ret tt.

Definition kkill (pid : Z) : PM Z :=
  r <- for_proc (λ p,
    acq (plockL p) ;;
    t <- get ;;
    if p_pid (getp t p) =? pid then
      modify (upd_p p (set_p_killed 1)) ;;
      (if decide (p_state (getp t p) = SLEEPING) then modify (upd_p p (set_p_state RUNNABLE)) else ret tt) ;;
      rel (plockL p) ;;
      ret (Stop 0)
    else
      rel (plockL p) ;;
      ret Next) ;;
  match r with Some r => ret r | None => ret (-1) end.

Definition setkilled (p : Z) : PM unit :=
  acq (plockL p) ;;
  modify (upd_p p (set_p_killed 1)) ;;
  rel (plockL p).

Definition killed (p : Z) : PM Z :=
  acq (plockL p) ;;
  k <- gets (λ t, p_killed (getp t p)) ;;
  rel (plockL p) ;;
  ret k.

(** The caller holds [wait_lock]. *)
Definition reparent (p : Z) : PM unit :=
  for_proc (R := unit) (λ pp,
    t <- get ;;
    (if p_parent (getp t pp) =? p then
       modify (upd_p pp (set_p_parent (initproc t))) ;;
       wakeup (proc_chan (initproc t))
     else ret tt) ;;
    ret Next) ;;
  ret tt.

(** [run p] is [swtch(&c->context, &p->context)]: process [p] runs until it
    switches back.  The inner loop of [scheduler], from process [p] on, and one
    turn of the outer one; the result is [found]. *)
Fixpoint scheduler_scan (run : Z → PM unit) (n : nat) (p found : Z) : PM Z :=
  match n with
  | O => ret found
  | S n' =>
      acq (plockL p) ;;
      t <- get ;;
      if decide (p_state (getp t p) = RUNNABLE) then
        modify (upd_p p (set_p_state RUNNING)) ;;
        modify (set_cpu_proc p) ;;
        run p ;;
        modify (set_cpu_proc 0) ;;
        rel (plockL p) ;;
        scheduler_scan run n' (p + 1) 1
      else
        rel (plockL p) ;;
        scheduler_scan run n' (p + 1) found
  end.

Definition scheduler (run : Z → PM unit) : PM Z :=
  modify (set_cpu_proc 0) ;;
  zoom pcpuL intr_on ;;
  zoom pcpuL intr_off ;;
  scheduler_scan run (Z.to_nat NPROC) 1 0.

(** * Lemmas *)

(** The hart's counter after [push_off] and after [pop_off]. *)
Definition pushed (c : cpu) : cpu := mkcpu (noff c + 1) (if noff c =? 0 then intr_get c else intena c) false.
Definition popped (c : cpu) : cpu :=
  mkcpu (noff c - 1) (intena c) ((noff c - 1 =? 0) && negb (intena c =? 0)).

(** Interrupts are off in every critical section. *)
Definition cpu_ok (c : cpu) : Prop := 0 ≤ noff c ∧ (0 < noff c → sie c = false).

(** The same nesting and interrupt state: [intena] means nothing at depth 0. *)
Definition cpu_same (c c' : cpu) : Prop := noff c' = noff c ∧ sie c' = sie c ∧ (0 < noff c → intena c' = intena c).

Lemma popped_pushed c : cpu_ok c → cpu_same c (popped (pushed c)).
Proof.
  intros [Hn Hs]. destruct c as [n i b]. unfold cpu_same, popped, pushed. cbn in *.
  replace (n + 1 - 1) with n by lia. destruct (Z.eqb_spec n 0) as [->|]; cbn.
  - split_and!; [done|by destruct b|lia].
  - split_and!; [done| |done]. rewrite Hs by lia. done.
Qed.

Lemma cpu_ok_pushed c : cpu_ok c → cpu_ok (pushed c) ∧ 0 < noff (pushed c) ∧ sie (pushed c) = false.
Proof. intros [Hn Hs]. unfold cpu_ok, pushed. cbn. split_and!; [lia|done|lia|done]. Qed.

Lemma cpu_same_ok c c' : cpu_same c c' → cpu_ok c → cpu_ok c'.
Proof. intros (H1 & H2 & H3) [Hn Hs]. unfold cpu_ok. rewrite H1, H2. done. Qed.

Lemma cpu_same_refl c : cpu_same c c.
Proof. done. Qed.

Lemma cpu_same_trans c1 c2 c3 : cpu_same c1 c2 → cpu_same c2 c3 → cpu_same c1 c3.
Proof.
  intros (A1 & A2 & A3) (B1 & B2 & B3). unfold cpu_same. rewrite B1, B2, A1, A2. split_and!; [done|done|].
  intros. rewrite B3, A3 by (rewrite ?A1; done). done.
Qed.

(** Process [p] is in the table. *)
Definition pvalid (t : ptable) (p : Z) : Prop := 1 ≤ p ≤ len (procs t).

Lemma getp_upd t p q f : pvalid t p → getp (upd_p p f t) q = if decide (p = q) then f (getp t p) else getp t q.
Proof.
  intros Hp. unfold getp, upd_p, setp, set_procs. cbn. unfold pvalid in Hp.
  rewrite znth_zset by lia. repeat case_decide; try lia; subst; done.
Qed.

Lemma upd_upd t p f g : pvalid t p → upd_p p f (upd_p p g t) = upd_p p (λ x, f (g x)) t.
Proof.
  intros Hp. unfold upd_p at 1. rewrite getp_upd, decide_True by done. unfold upd_p, setp, set_procs. cbn. f_equal. apply zset_zset.
Qed.

Lemma upd_p_ext t p f g : f (getp t p) = g (getp t p) → upd_p p f t = upd_p p g t.
Proof. intros H. unfold upd_p. by rewrite H. Qed.

Lemma upd_p_id t p f : pvalid t p → f (getp t p) = getp t p → upd_p p f t = t.
Proof.
  intros Hp H. unfold upd_p. rewrite H. unfold setp, getp, pvalid in *. destruct t as [ps ? ? ? ? ? ?]. unfold set_procs. cbn in *.
  f_equal. apply zset_same. lia.
Qed.

Lemma len_upd t p f : len (procs (upd_p p f t)) = len (procs t).
Proof. unfold upd_p, setp, set_procs. cbn. apply len_zset. Qed.

Lemma acq_p t p :
  pvalid t p → unlocked (p_lock (getp t p)) →
  acq (plockL p) t =
  Ok tt (upd_p p (set_p_lock (mkspinlock 1 (lk_name (p_lock (getp t p))) (Some me))) (set_pcpu (pushed (pcpu t)) t)).
Proof.
  intros Hp [H1 H2]. unfold acq, bind, zoom. cbn [view pcpuL]. rewrite SMP.push_off_ok. fold (pushed (pcpu t)). cbn [upd pcpuL].
  change (view (plockL p) (set_pcpu (pushed (pcpu t)) t)) with (p_lock (getp t p)). unfold acquire_lk, holding. rewrite H1. done.
Qed.

Lemma rel_p t p :
  pvalid t p → holding me (p_lock (getp t p)) = true → sie (pcpu t) = false → 0 < noff (pcpu t) →
  rel (plockL p) t =
  Ok tt (upd_p p (set_p_lock (mkspinlock 0 (lk_name (p_lock (getp t p))) None)) (set_pcpu (popped (pcpu t)) t)).
Proof.
  intros Hp H1 H2 H3. unfold rel, bind, zoom. cbn [view plockL]. unfold release_lk. rewrite H1. cbn [negb].
  rewrite SMP.pop_off_ok by done. done.
Qed.

Lemma myproc_ok t : cpu_ok (pcpu t) → myproc t = Ok (cpu_proc t) (set_pcpu (popped (pushed (pcpu t))) t).
Proof.
  intros Hc. destruct (cpu_ok_pushed _ Hc) as (_ & H1 & H2). unfold myproc, bind, zoom. cbn [view pcpuL]. rewrite SMP.push_off_ok.
  fold (pushed (pcpu t)). cbn [upd pcpuL gets]. change (view pcpuL (set_pcpu (pushed (pcpu t)) t)) with (pushed (pcpu t)).
  rewrite SMP.pop_off_ok by done. done.
Qed.

(** No lock of the table is held. *)
Record tok (t : ptable) : Prop := {
  tok_len : len (procs t) = NPROC;
  tok_cpu : cpu_ok (pcpu t);
  tok_locks : ∀ p, pvalid t p → unlocked (p_lock (getp t p));
}.

(** Only processes may differ. *)
Record trel (t t' : ptable) : Prop := {
  tr_len : len (procs t') = len (procs t);
  tr_cpu : cpu_same (pcpu t) (pcpu t');
  tr_nextpid : nextpid t' = nextpid t;
  tr_pid_lock : pid_lock t' = pid_lock t;
  tr_wait_lock : wait_lock t' = wait_lock t;
  tr_initproc : initproc t' = initproc t;
  tr_proc : cpu_proc t' = cpu_proc t;
}.

Lemma trel_refl t : trel t t.
Proof. by constructor. Qed.

Lemma trel_trans t1 t2 t3 : trel t1 t2 → trel t2 t3 → trel t1 t3.
Proof. intros [] []. constructor; try congruence. by eapply cpu_same_trans. Qed.

Lemma trel_upd t p f c : cpu_same (pcpu t) c → trel t (upd_p p f (set_pcpu c t)).
Proof. intros Hc. constructor; try done. rewrite len_upd. done. Qed.

(** An update that leaves the lock alone. *)
Definition keeps_lock (f : proc → proc) : Prop := ∀ l x, f (set_p_lock l x) = set_p_lock l (f x).

(** The state inside the critical section of [p]. *)
Definition locked_by (t : ptable) (p : Z) : ptable :=
  upd_p p (set_p_lock (mkspinlock 1 (lk_name (p_lock (getp t p))) (Some me))) (set_pcpu (pushed (pcpu t)) t).

(** The state after it. *)
Definition unlocked_by (t : ptable) : ptable := set_pcpu (popped (pushed (pcpu t))) t.

Lemma set_p_lock_id x : set_p_lock (p_lock x) x = x.
Proof. by destruct x. Qed.

Lemma crit_acq t p : tok t → pvalid t p → acq (plockL p) t = Ok tt (locked_by t p).
Proof. intros [H1 H2 H3] Hp. by apply acq_p, H3. Qed.

Lemma crit_get t p : pvalid t p → getp (locked_by t p) p = set_p_lock (mkspinlock 1 (lk_name (p_lock (getp t p))) (Some me)) (getp t p).
Proof. intros Hp. unfold locked_by. rewrite getp_upd by done. by rewrite decide_True. Qed.

Lemma crit_rel t p f :
  tok t → pvalid t p → keeps_lock f → rel (plockL p) (upd_p p f (locked_by t p)) = Ok tt (upd_p p f (unlocked_by t)).
Proof.
  intros [H1 H2 H3] Hp Hf. destruct (cpu_ok_pushed _ H2) as (_ & C1 & C2). specialize (H3 p Hp).
  assert (Hp1 : pvalid (locked_by t p) p) by (unfold pvalid, locked_by; by rewrite len_upd).
  assert (Hg : getp (upd_p p f (locked_by t p)) p = set_p_lock (mkspinlock 1 (lk_name (p_lock (getp t p))) (Some me)) (f (getp t p))).
  { rewrite getp_upd, decide_True by done. rewrite crit_get by done. apply Hf. }
  rewrite rel_p; [|unfold pvalid; by rewrite len_upd|rewrite Hg; unfold holding; cbn; by rewrite bool_decide_true|done|done].
  f_equal. rewrite Hg. cbn [p_lock set_p_lock lk_name]. unfold locked_by.
  change (set_pcpu ?c (upd_p p ?f (upd_p p ?g ?x))) with (upd_p p f (upd_p p g (set_pcpu c x))).
  rewrite !upd_upd by done. apply upd_p_ext. rewrite Hf.
  apply unlocked_eq in H3. change (getp (set_pcpu ?c ?x) p) with (getp x p). rewrite <-H3.
  unfold unlocked_by. change (getp (set_pcpu ?c t) p) with (getp t p).
  change (set_p_lock ?a (set_p_lock ?b ?x)) with (set_p_lock a x). by rewrite <-Hf, set_p_lock_id.
Qed.

Lemma crit_rel_id t p : tok t → pvalid t p → rel (plockL p) (locked_by t p) = Ok tt (unlocked_by t).
Proof.
  intros Ht Hp. pose proof (crit_rel t p (λ x, x) Ht Hp ltac:(done)) as H.
  rewrite upd_p_id in H by (done || (unfold pvalid, locked_by; by rewrite len_upd)). by rewrite upd_p_id in H.
Qed.

Lemma tok_after t p f : tok t → pvalid t p → keeps_lock f → tok (upd_p p f (unlocked_by t)) ∧ trel t (upd_p p f (unlocked_by t)).
Proof.
  intros [H1 H2 H3] Hp Hf. pose proof (popped_pushed _ H2) as Hc. split; [|by apply trel_upd]. constructor.
  - rewrite len_upd. done.
  - eapply cpu_same_ok; done.
  - intros q Hq. unfold pvalid in Hq. rewrite len_upd in Hq. rewrite getp_upd by done. case_decide; subst; [|by apply H3].
    assert (p_lock (f (getp (unlocked_by t) q)) = p_lock (getp t q)) as ->; [|by apply H3].
    change (getp (unlocked_by t) q) with (getp t q). transitivity (p_lock (f (set_p_lock (p_lock (getp t q)) (getp t q)))).
    + by rewrite set_p_lock_id.
    + by rewrite Hf.
Qed.

Lemma tok_unlocked t : tok t → tok (unlocked_by t) ∧ trel t (unlocked_by t).
Proof.
  intros [H1 H2 H3]. pose proof (popped_pushed _ H2) as Hc. split; [constructor; [done|by eapply cpu_same_ok|done]|by constructor].
Qed.

(** ** Waking *)

(** What [wakeup(chan)], called by process [q], does to process [p]. *)
Definition woken (chan q p : Z) (x : proc) : proc :=
  if negb (p =? q) && (bool_decide (p_state x = SLEEPING) && (p_chan x =? chan)) then set_p_state RUNNABLE x else x.

Lemma wakeup_ok chan t :
  tok t → ∃ t', wakeup chan t = Ok tt t' ∧ tok t' ∧ trel t t' ∧
    ∀ p, pvalid t p → getp t' p = woken chan (cpu_proc t) p (getp t p).
Proof.
  intros Ht. assert (Hr : returns (wakeup chan) t (λ _ t', tok t' ∧ trel t t' ∧ ∀ p, pvalid t p → getp t' p = woken chan (cpu_proc t) p (getp t p))).
  2:{ apply returns_ok in Hr as ([] & t' & E & H1 & H2 & H3). by exists t'. }
  apply returns_bind. eapply (for_up_inv (λ i t', tok t' ∧ trel t t' ∧ ∀ p, pvalid t p →
    getp t' p = if p <? i then woken chan (cpu_proc t) p (getp t p) else getp t p)).
  - split_and!; [done|apply trel_refl|]. intros p Hp. unfold pvalid in Hp. destruct (p <? 1) eqn:?; [lia|done].
  - intros i t1 Hi (Ht1 & Hr1 & Hg). assert (Hv : pvalid t i) by (unfold pvalid; rewrite (tok_len _ Ht); unfold NPROC in *; lia).
    eapply returns_step; [by apply myproc_ok, tok_cpu|]. fold (unlocked_by t1). rewrite (tr_proc _ _ Hr1).
    destruct (tok_unlocked t1 Ht1) as [Ht2 Hr2]. pose proof (trel_trans _ _ _ Hr1 Hr2) as Hr12.
    assert (Hv2 : pvalid (unlocked_by t1) i) by (unfold pvalid; by rewrite (tr_len _ _ Hr12)).
    assert (Hgi : getp t1 i = getp t i) by (rewrite Hg by done; by rewrite Z.ltb_irrefl).
    assert (Hnext : ∀ t3 f, tok t3 → trel t t3 → (∀ p, pvalid t p → getp t3 p = if decide (i = p) then f (getp t p) else getp t1 p) →
      f (getp t i) = woken chan (cpu_proc t) i (getp t i) →
      tok t3 ∧ trel t t3 ∧ ∀ p, pvalid t p → getp t3 p = if p <? i + 1 then woken chan (cpu_proc t) p (getp t p) else getp t p).
    { intros t3 f H1 H2 H3 H4. split_and!; [done|done|]. intros p Hp. rewrite H3 by done. case_decide; subst.
      - rewrite H4. destruct (p <? p + 1) eqn:?; [done|lia].
      - rewrite Hg by done. destruct (p <? i) eqn:?, (p <? i + 1) eqn:?; lia || done. }
    destruct (Z.eqb_spec i (cpu_proc t)) as [Hiq|Hiq].
    { apply returns_ret. apply (Hnext _ (λ x, x)); [done|done| |].
      - intros p Hp. destruct (decide (i = p)) as [<-|]; [by rewrite <-Hgi|done].
      - unfold woken. by rewrite Hiq, Z.eqb_refl. }
    eapply returns_step; [by apply crit_acq|]. eapply returns_step; [reflexivity|]. cbv beta. rewrite crit_get by done. cbn [p_state p_chan set_p_lock].
    change (getp (unlocked_by t1) i) with (getp t1 i). rewrite Hgi.
    assert (Hw : woken chan (cpu_proc t) i (getp t i) =
      if bool_decide (p_state (getp t i) = SLEEPING) && (p_chan (getp t i) =? chan) then set_p_state RUNNABLE (getp t i) else getp t i).
    { unfold woken. destruct (Z.eqb_spec i (cpu_proc t)); [done|]. done. }
    destruct (bool_decide (p_state (getp t i) = SLEEPING) && (p_chan (getp t i) =? chan)) eqn:Hc.
    + eapply returns_step; [reflexivity|]. cbv beta. eapply returns_step; [by apply crit_rel|]. apply returns_ret.
      destruct (tok_after (unlocked_by t1) i (set_p_state RUNNABLE) Ht2 Hv2 ltac:(done)) as [Ht3 Hr3].
      apply (Hnext _ (set_p_state RUNNABLE)); [done|by eapply trel_trans| |done].
      intros p Hp. rewrite getp_upd by done. destruct (decide (i = p)) as [<-|]; [|done]. f_equal. exact Hgi.
    + eapply returns_step; [reflexivity|]. cbv beta. eapply returns_step; [by apply crit_rel_id|]. apply returns_ret.
      destruct (tok_unlocked _ Ht2) as [Ht3 Hr3]. apply (Hnext _ (λ x, x)); [done|by eapply trel_trans| |done].
      intros p Hp. destruct (decide (i = p)) as [<-|]; [by rewrite <-Hgi|done].
  - intros t1 (H1 & H2 & H3). apply returns_ret. split_and!; [done|done|]. intros p Hp. rewrite H3 by done.
    unfold pvalid in Hp. rewrite (tok_len _ Ht) in Hp. unfold NPROC in *. destruct (Z.ltb_spec p (1 + Z.of_nat (Z.to_nat 64))); [done|lia].
Qed.

(** ** Killing *)

(** What [kkill] does to its victim. *)
Definition kill_proc (x : proc) : proc :=
  let x := set_p_killed 1 x in
  if decide (p_state x = SLEEPING) then set_p_state RUNNABLE x else x.

Lemma kkill_ok pid t :
  tok t → ∃ r t', kkill pid t = Ok r t' ∧ tok t' ∧ trel t t' ∧
    ((∃ v, r = 0 ∧ pvalid t v ∧ p_pid (getp t v) = pid ∧ (∀ q, 1 ≤ q < v → p_pid (getp t q) ≠ pid) ∧
        ∀ p, pvalid t p → getp t' p = if decide (v = p) then kill_proc (getp t p) else getp t p) ∨
     (r = -1 ∧ (∀ q, pvalid t q → p_pid (getp t q) ≠ pid) ∧ ∀ p, pvalid t p → getp t' p = getp t p)).
Proof.
  intros Ht. apply returns_ok. apply returns_bind.
  eapply (for_up_inv (λ i t', tok t' ∧ trel t t' ∧ (∀ q, 1 ≤ q < i → p_pid (getp t q) ≠ pid) ∧ ∀ p, pvalid t p → getp t' p = getp t p)).
  - split_and!; [done|apply trel_refl|intros q Hq; lia|done].
  - intros i t1 Hi (Ht1 & Hr1 & Hno & Hg). assert (Hv : pvalid t i) by (unfold pvalid; rewrite (tok_len _ Ht); unfold NPROC in *; lia).
    assert (Hv1 : pvalid t1 i) by (unfold pvalid; by rewrite (tr_len _ _ Hr1)).
    eapply returns_step; [by apply crit_acq|]. eapply returns_step; [reflexivity|]. cbv beta. rewrite crit_get by done.
    cbn [p_pid p_state set_p_lock]. rewrite Hg by done. destruct (Z.eqb_spec (p_pid (getp t i)) pid) as [Hpid|Hpid].
    + eapply returns_step; [reflexivity|]. cbv beta. apply (returns_step _ _ _ tt (upd_p i kill_proc (locked_by t1 i))).
      { assert (Hp1 : pvalid (locked_by t1 i) i) by (unfold pvalid, locked_by; by rewrite len_upd).
        assert (Hst : p_state (getp (locked_by t1 i) i) = p_state (getp t i)) by (rewrite crit_get by done; cbn; by rewrite Hg).
        destruct (decide (p_state (getp t i) = SLEEPING)) as [E|E].
        - unfold modify. rewrite upd_upd by done. f_equal. apply upd_p_ext. unfold kill_proc. cbn [p_state set_p_killed]. by rewrite Hst, decide_True.
        - unfold ret. f_equal. apply upd_p_ext. unfold kill_proc. cbn [p_state set_p_killed]. by rewrite Hst, decide_False. }
      assert (Hk : keeps_lock kill_proc) by (intros l x; unfold kill_proc; cbn; by case_decide).
      eapply returns_step; [by apply crit_rel|]. apply returns_ret.
      destruct (tok_after t1 i kill_proc Ht1 Hv1 Hk) as [Ht2 Hr2]. cbv beta iota. apply returns_ret. split_and!; [done|by eapply trel_trans|].
      left. exists i. split_and!; [done|done|done|done|]. intros p Hp. rewrite getp_upd by done.
      change (getp (unlocked_by t1) i) with (getp t1 i). change (getp (unlocked_by t1) p) with (getp t1 p). rewrite !Hg by done. by case_decide; subst.
    + eapply returns_step; [by apply crit_rel_id|]. apply returns_ret. destruct (tok_unlocked t1 Ht1) as [Ht2 Hr2].
      split_and!; [done|by eapply trel_trans| |done]. intros q Hq. destruct (decide (q = i)) as [->|]; [done|]. apply Hno. lia.
  - intros t1 (Ht1 & Hr1 & Hno & Hg). apply returns_ret. split_and!; [done|done|]. right. split_and!; [done| |done].
    intros q Hq. apply Hno. unfold pvalid in Hq. rewrite (tok_len _ Ht) in Hq. unfold NPROC in *. lia.
Qed.

(** ** Orphans *)

(** [wakeup] in the loop of [reparent], with the parent of each process set by it. *)
Definition adopted (p init q : Z) (x : proc) : proc :=
  set_p_parent (if p_parent x =? p then init else p_parent x) x.

Lemma woken_twice chan q p x : woken chan q p (woken chan q p x) = woken chan q p x.
Proof.
  unfold woken. destruct (negb (p =? q)); cbn; [|done]. destruct (bool_decide (p_state x = SLEEPING)) eqn:E1; cbn; [|by rewrite E1].
  destruct (p_chan x =? chan) eqn:E2; cbn; [done|by rewrite E1, E2].
Qed.

Lemma woken_parent chan q p v x : woken chan q p (set_p_parent v x) = set_p_parent v (woken chan q p x).
Proof. unfold woken. cbn. by destruct (_ && _). Qed.

Lemma woken_p_parent chan q p x : p_parent (woken chan q p x) = p_parent x.
Proof. unfold woken. by destruct (_ && _). Qed.

(** [init] is woken ([b]) when there is an orphan. *)
Definition after_wakeup (b : bool) (chan q p : Z) (x : proc) : proc := if b then woken chan q p x else x.

Lemma reparent_ok p t (init := initproc t) :
  tok t → ∃ t' b, reparent p t = Ok tt t' ∧ tok t' ∧ trel t t' ∧
    (∀ q, pvalid t q → p_parent (getp t q) = p → b = true) ∧
    ∀ q, pvalid t q → getp t' q = adopted p init q (after_wakeup b (proc_chan init) (cpu_proc t) q (getp t q)).
Proof.
  intros Ht. set (ch := proc_chan init). set (cp := cpu_proc t).
  assert (Hr : returns (reparent p) t (λ _ t', ∃ b, tok t' ∧ trel t t' ∧ (∀ q, pvalid t q → p_parent (getp t q) = p → b = true) ∧
    ∀ q, pvalid t q → getp t' q = adopted p init q (after_wakeup b ch cp q (getp t q)))).
  2:{ apply returns_ok in Hr as ([] & t' & E & b & H). by exists t', b. }
  apply returns_bind. eapply (for_up_inv (λ i t', ∃ b, tok t' ∧ trel t t' ∧
    (∀ q, 1 ≤ q < i → p_parent (getp t q) = p → b = true) ∧
    ∀ q, pvalid t q → getp t' q = (if q <? i then adopted p init q else id) (after_wakeup b ch cp q (getp t q)))).
  - exists false. split_and!; [done|apply trel_refl|intros; lia|]. intros q Hq. unfold pvalid in Hq. destruct (q <? 1) eqn:?; [lia|done].
  - intros i t1 Hi (b & Ht1 & Hr1 & Hb & Hg). assert (Hv : pvalid t i) by (unfold pvalid; rewrite (tok_len _ Ht); unfold NPROC in *; lia).
    assert (Hv1 : pvalid t1 i) by (unfold pvalid; by rewrite (tr_len _ _ Hr1)).
    assert (Hpar : p_parent (getp t1 i) = p_parent (getp t i)).
    { rewrite Hg by done. rewrite Z.ltb_irrefl. cbn. destruct b; cbn; [apply woken_p_parent|done]. }
    eapply returns_step; [reflexivity|]. cbv beta. rewrite Hpar, (tr_initproc _ _ Hr1).
    destruct (Z.eqb_spec (p_parent (getp t i)) p) as [Hp|Hp].
    + set (t2 := upd_p i (set_p_parent init) t1).
      assert (Ht2 : tok t2).
      { destruct Ht1 as [L1 L2 L3]. constructor; [unfold t2; by rewrite len_upd|done|]. intros q Hq. unfold t2, pvalid in *. rewrite len_upd in Hq.
        rewrite getp_upd by done. case_decide; subst; cbn; by apply L3. }
      assert (Hr2 : trel t t2). { eapply trel_trans; [done|]. constructor; try done. unfold t2. by rewrite len_upd. }
      destruct (wakeup_ok ch t2 Ht2) as (t3 & E3 & Ht3 & Hr3 & Hg3).
      apply (returns_step _ _ _ tt t3); [unfold bind, modify; fold init; fold ch; exact E3|]. apply returns_ret.
      exists true. split_and!; [done|by eapply trel_trans|done|]. intros q Hq.
      rewrite Hg3 by (unfold pvalid; by rewrite (tr_len _ _ Hr2)). rewrite (tr_proc _ _ Hr2). fold cp.
      assert (Hw : woken ch cp q (after_wakeup b ch cp q (getp t q)) = woken ch cp q (getp t q)).
      { destruct b; cbn; [apply woken_twice|done]. }
      unfold t2. rewrite getp_upd by done. destruct (decide (i = q)) as [<-|Hne].
      * rewrite woken_parent, Hg, Z.ltb_irrefl by done. cbn [id after_wakeup]. destruct (i <? i + 1) eqn:?; [|lia].
        rewrite Hw. unfold adopted. rewrite woken_p_parent. destruct (Z.eqb_spec (p_parent (getp t i)) p); done.
      * rewrite Hg by done. destruct (q <? i) eqn:?, (q <? i + 1) eqn:?; try lia; cbn [id after_wakeup]; [|done].
        unfold adopted. rewrite woken_parent, Hw. f_equal. rewrite woken_p_parent. destruct b; cbn; by rewrite ?woken_p_parent.
    + apply (returns_step _ _ _ tt t1); [done|]. apply returns_ret. exists b. split_and!; [done|done| |].
      * intros q Hq Hqp. destruct (decide (q = i)) as [->|]; [done|]. apply (Hb q); [lia|done].
      * intros q Hq. rewrite Hg by done. destruct (q <? i) eqn:?, (q <? i + 1) eqn:?; try lia; try done. assert (q = i) as -> by lia.
        cbn [id]. unfold adopted. rewrite Hg, Z.ltb_irrefl in Hpar by done. cbn [id] in Hpar. rewrite Hpar.
        destruct (Z.eqb_spec (p_parent (getp t i)) p); [done|]. rewrite <-Hpar. by destruct (after_wakeup _ _ _ _ _).
  - intros t1 (b & Ht1 & Hr1 & Hb & Hg). apply returns_ret. exists b. split_and!; [done|done| |].
    + intros q Hq. apply Hb. unfold pvalid in Hq. rewrite (tok_len _ Ht) in Hq. unfold NPROC in *. lia.
    + intros q Hq. rewrite Hg by done. unfold pvalid in Hq. rewrite (tok_len _ Ht) in Hq. unfold NPROC in *.
      destruct (Z.ltb_spec q (1 + Z.of_nat (Z.to_nat 64))); [done|lia].
Qed.

(** ** Scheduling *)

(** What the scheduler expects of the process it switches to: it comes back
    holding its own lock and no other, no longer RUNNING, and has not stopped a
    process that could run. *)
Definition switches_back (run : Z → PM unit) : Prop :=
  ∀ p t, tok t → pvalid t p →
  ∃ t1, run p (set_cpu_proc p (upd_p p (set_p_state RUNNING) (locked_by t p))) = Ok tt (locked_by t1 p) ∧
    tok t1 ∧ p_state (getp t1 p) ≠ RUNNING ∧
    ∀ q, q ≠ p → p_state (getp t q) = RUNNABLE → p_state (getp t1 q) = RUNNABLE.

(** [run] with a stop at process [q]. *)
Definition until (q : Z) (run : Z → PM unit) : Z → PM unit := λ p, if p =? q then panic "its turn" else run p.

Lemma tok_set_cpu_proc t v : tok t → tok (set_cpu_proc v t).
Proof. by intros [H1 H2 H3]. Qed.

Lemma scheduler_scan_runs run q n p found t :
  switches_back run → tok t → pvalid t q → p ≤ q < p + Z.of_nat n → 1 ≤ p → p + Z.of_nat n = NPROC + 1 →
  p_state (getp t q) = RUNNABLE → scheduler_scan (until q run) n p found t = Panic "its turn".
Proof.
  intros Hrun. revert p found t. induction n as [|n IH]; intros p found t Ht Hq Hpq Hp1 Hn Hst; [lia|]. cbn [scheduler_scan].
  assert (Hp : pvalid t p) by (unfold pvalid; rewrite (tok_len _ Ht); lia).
  assert (Hq' : ∀ t', tok t' → pvalid t' q) by (intros t' Ht'; unfold pvalid in *; rewrite (tok_len _ Ht'), <-(tok_len _ Ht); done).
  rewrite (bind_ok _ _ _ _ _ (crit_acq t p Ht Hp)). rewrite bind_get, crit_get by done. cbn [p_state set_p_lock].
  destruct (Z.eqb_spec p q) as [->|Hne].
  - rewrite decide_True by done. rewrite !bind_modify. unfold until. rewrite Z.eqb_refl. done.
  - destruct (decide (p_state (getp t p) = RUNNABLE)) as [Hr|Hr].
    + rewrite !bind_modify. destruct (Hrun p t Ht Hp) as (t1 & E1 & Ht1 & _ & Hk).
      assert (Hun : until q run p = run p) by (unfold until; destruct (Z.eqb_spec p q); done). rewrite Hun.
      rewrite (bind_ok _ _ _ _ _ E1), bind_modify.
      assert (Hp1' : pvalid (set_cpu_proc 0 t1) p) by (unfold pvalid; cbn; rewrite (tok_len _ Ht1); unfold pvalid in Hp; rewrite (tok_len _ Ht) in Hp; done).
      change (set_cpu_proc 0 (locked_by t1 p)) with (locked_by (set_cpu_proc 0 t1) p).
      rewrite (bind_ok _ _ _ _ _ (crit_rel_id (set_cpu_proc 0 t1) p (tok_set_cpu_proc _ _ Ht1) Hp1')).
      destruct (tok_unlocked _ (tok_set_cpu_proc _ 0 Ht1)) as [Ht2 _]. apply IH; [done|by apply Hq'|lia|lia|lia|]. by apply Hk.
    + rewrite (bind_ok _ _ _ _ _ (crit_rel_id t p Ht Hp)). destruct (tok_unlocked _ Ht) as [Ht2 _]. apply IH; [done|by apply Hq'|lia|lia|lia|done].
Qed.
End proc.

(** * Theorems *)

Section theorems.
  Context (me : Z).

(** C22: no process that can run is passed over.  In one turn of the outer loop
    of [scheduler] every process that is RUNNABLE at the start gets the CPU,
    whatever the processes before it do, as long as they come back to the
    scheduler and do not stop it. *)
Theorem scheduler_fair run t q :
  switches_back me run → tok t → pvalid t q → p_state (getp t q) = RUNNABLE →
  scheduler me (until q run) t = Panic "its turn".
Proof.
  intros Hrun Ht Hq Hst. unfold scheduler. rewrite bind_modify. unfold bind at 1 2. unfold zoom. cbn [view pcpuL upd].
  unfold intr_on, intr_off, modify. cbn [pcpu set_pcpu]. apply scheduler_scan_runs.
  - done.
  - destruct Ht as [H1 H2 H3]. constructor; [done| |done]. destruct H2 as [H2 _]. by split.
  - done.
  - unfold pvalid in Hq. rewrite (tok_len _ Ht) in Hq. unfold NPROC in *. lia.
  - lia.
  - unfold NPROC. lia.
  - done.
Qed.

(** [wakeup(chan)] makes exactly the processes RUNNABLE that sleep on
    [chan], the caller excepted, and changes nothing else. *)
Theorem wakeup_spec chan t :
  tok t → ∃ t', wakeup me chan t = Ok tt t' ∧ trel t t' ∧
    ∀ p, pvalid t p →
      getp t' p = if decide (p ≠ cpu_proc t ∧ p_state (getp t p) = SLEEPING ∧ p_chan (getp t p) = chan)
                  then set_p_state RUNNABLE (getp t p) else getp t p.
Proof.
  intros Ht. destruct (wakeup_ok me chan t Ht) as (t' & E & _ & Hr & Hg). exists t'. split_and!; [done|done|].
  intros p Hp. rewrite Hg by done. unfold woken.
  destruct (Z.eqb_spec p (cpu_proc t)), (bool_decide_reflect (p_state (getp t p) = SLEEPING)), (Z.eqb_spec (p_chan (getp t p)) chan);
    cbn; first [rewrite decide_True by (split_and!; assumption)|rewrite decide_False by tauto]; done.
Qed.

(** [kkill(pid)] marks the first process of that pid as killed, waking it
    if it sleeps, and returns 0; without such a process it returns -1 and
    changes nothing. *)
Theorem kkill_spec pid t :
  tok t → ∃ r t', kkill me pid t = Ok r t' ∧ trel t t' ∧
    ((∃ v, r = 0 ∧ pvalid t v ∧ p_pid (getp t v) = pid ∧ (∀ q, 1 ≤ q < v → p_pid (getp t q) ≠ pid) ∧
        p_killed (getp t' v) = 1 ∧ p_state (getp t' v) ≠ SLEEPING ∧ ∀ p, pvalid t p → p ≠ v → getp t' p = getp t p) ∨
     (r = -1 ∧ (∀ q, pvalid t q → p_pid (getp t q) ≠ pid) ∧ ∀ p, pvalid t p → getp t' p = getp t p)).
Proof.
  intros Ht. destruct (kkill_ok me pid t Ht) as (r & t' & E & _ & Hr & [(v & -> & Hv & Hpid & Hno & Hg)|H]).
  - exists 0, t'. split_and!; [done|done|]. left. exists v. split_and!; [done|done|done|done| | |].
    + rewrite Hg, decide_True by done. unfold kill_proc. by case_decide.
    + rewrite Hg, decide_True by done. unfold kill_proc. by case_decide.
    + intros p Hp Hne. rewrite Hg by done. by rewrite decide_False.
  - exists r, t'. split_and!; [done|done|by right].
Qed.
End theorems.

(** ** An instance *)

(** Processes 1 and 2 can run, process 3 sleeps on channel 7. *)
Definition dproc (st : procstate) (pid chan : Z) : proc :=
  set_p_lock (initlock "proc") (set_p_state st (set_p_pid pid (set_p_chan chan proc0))).
Definition dtable : ptable :=
  mkptable ([dproc RUNNABLE 1 0; dproc RUNNABLE 2 0; dproc SLEEPING 3 7] ++ replicate 61 (dproc UNUSED 0 0))
    4 (initlock "nextpid") (initlock "wait_lock") 1 (mkcpu 0 0 false) 0.

Lemma dtable_tok : tok dtable.
Proof.
  constructor; [done|done|]. intros p Hp. unfold pvalid in Hp. unfold getp.
  assert (Hall : Forall (λ x, unlocked (p_lock x)) (procs dtable)) by (repeat constructor).
  rewrite Forall_forall in Hall. apply Hall. apply znth_In. lia.
Qed.

(** Every process yields at once. *)
Definition drun (p : Z) : M ptable unit := modify (λ t, set_cpu_proc 0 (upd_p p (set_p_state RUNNABLE) t)).

Lemma drun_switches_back : switches_back 0 drun.
Proof.
  intros p t Ht Hp. exists (set_cpu_proc 0 (upd_p p (set_p_state RUNNABLE) t)).
  assert (Hp' : pvalid (upd_p p (set_p_state RUNNABLE) t) p) by (unfold pvalid; by rewrite len_upd).
  split_and!.
  - unfold drun, modify. f_equal. unfold locked_by.
    change (getp (set_cpu_proc 0 ?x) p) with (getp x p).
    change (set_cpu_proc 0 (upd_p p ?f (set_cpu_proc p ?x))) with (set_cpu_proc 0 (upd_p p f x)).
    rewrite !upd_upd by (unfold pvalid; rewrite ?len_upd; exact Hp). rewrite getp_upd, decide_True by done. cbn [p_lock set_p_state].
    change (set_pcpu ?c (set_cpu_proc 0 (upd_p p ?f ?x))) with (set_cpu_proc 0 (upd_p p f (set_pcpu c x))).
    change (upd_p p ?f (set_cpu_proc 0 ?x)) with (set_cpu_proc 0 (upd_p p f x)). by rewrite !upd_upd by exact Hp.
  - destruct Ht as [H1 H2 H3]. constructor; [change (len (procs (upd_p p (set_p_state RUNNABLE) t)) = NPROC); by rewrite len_upd|done|].
    intros q Hq. unfold pvalid in Hq. cbn in Hq. change (getp (set_cpu_proc 0 ?x) q) with (getp x q).
    rewrite getp_upd by done. case_decide; subst; cbn; apply H3; [done|]. unfold pvalid. unfold upd_p, setp, set_procs in Hq. cbn in Hq. by rewrite len_zset in Hq.
  - change (getp (set_cpu_proc 0 ?x) p) with (getp x p). by rewrite getp_upd, decide_True.
  - intros q Hq Hst. change (getp (set_cpu_proc 0 ?x) q) with (getp x q). rewrite getp_upd by done. by rewrite decide_False.
Qed.

Lemma scheduler_fair_witness : scheduler 0 (until 2 drun) dtable = Panic "its turn".
Proof. apply (scheduler_fair 0 drun dtable 2); [exact drun_switches_back|exact dtable_tok|done|done]. Defined.

Lemma wakeup_spec_witness :
  ∃ t', wakeup 0 7 dtable = Ok tt t' ∧ trel dtable t' ∧
    ∀ p, pvalid dtable p →
      getp t' p = if decide (p ≠ cpu_proc dtable ∧ p_state (getp dtable p) = SLEEPING ∧ p_chan (getp dtable p) = 7)
                  then set_p_state RUNNABLE (getp dtable p) else getp dtable p.
Proof. apply (wakeup_spec 0 7 dtable). exact dtable_tok. Defined.

Lemma kkill_spec_witness :
  ∃ r t', kkill 0 3 dtable = Ok r t' ∧ trel dtable t' ∧
    ((∃ v, r = 0 ∧ pvalid dtable v ∧ p_pid (getp dtable v) = 3 ∧ (∀ q, 1 ≤ q < v → p_pid (getp dtable q) ≠ 3) ∧
        p_killed (getp t' v) = 1 ∧ p_state (getp t' v) ≠ SLEEPING ∧ ∀ p, pvalid dtable p → p ≠ v → getp t' p = getp dtable p) ∨
     (r = -1 ∧ (∀ q, pvalid dtable q → p_pid (getp dtable q) ≠ 3) ∧ ∀ p, pvalid dtable p → getp t' p = getp dtable p)).
Proof. apply (kkill_spec 0 3 dtable). exact dtable_tok. Defined.
