(* ===== verification/SleepWake.v ===== *)
(** kernel/proc.c: [sleep] and [wakeup] side by side.

    Any number of processes wait for one condition with

      acquire(lk); while(!cond) sleep(chan, lk); ... release(lk);

    and any number make it true with

      acquire(lk); cond = 1; wakeup(chan); release(lk);

    [sleep] and [wakeup] are cut at every lock operation, so that every
    interleaving of harts is a sequence of steps.  The theorem is what the
    comment in [sleep] says: no wakeup is missed. *)

From stdpp Require Import base tactics list numbers functions relations.
From S2P Require Import Prelude Param Spinlock Proc.
From Stdlib Require Import ZArith Lia.

(** Where a process is. *)
Inductive pc :=
| Out                (* other code, off the condition lock *)
| Test               (* holds [lk], about to test the condition *)
| SlAcq              (* in [sleep], about to acquire its own lock *)
| SlRel              (* about to release [lk] *)
| SlSet              (* about to set [p->chan] and [p->state] *)
| SlSched            (* about to switch to the scheduler, which releases its lock *)
| Off                (* off the CPU *)
| Resumed            (* switched back to by the scheduler, which took its lock *)
| SlReacq            (* about to acquire [lk] again *)
| WkSet              (* holds [lk], about to make the condition true *)
| WkScan (i : Z)     (* in [wakeup], about to look at process [i] *)
| WkHold (i : Z).    (* in [wakeup], holding the lock of process [i] *)

(** The condition, the condition lock, the lock, state and channel of each
    process.  A lock is held by a process, or by the scheduler on its behalf. *)
Record wst := mkwst {
  cond : bool;
  lk : option Z;
  plk : Z → option Z;
  st : Z → procstate;
  ch : Z → Z;
  pcs : Z → pc;
}.

Definition set_cond (v : bool) (s : wst) : wst := mkwst v (lk s) (plk s) (st s) (ch s) (pcs s).
Definition set_lk (v : option Z) (s : wst) : wst := mkwst (cond s) v (plk s) (st s) (ch s) (pcs s).
Definition set_plk (p : Z) (v : option Z) (s : wst) : wst := mkwst (cond s) (lk s) (<[p := v]> (plk s)) (st s) (ch s) (pcs s).
Definition set_st (p : Z) (v : procstate) (s : wst) : wst := mkwst (cond s) (lk s) (plk s) (<[p := v]> (st s)) (ch s) (pcs s).
Definition set_ch (p : Z) (v : Z) (s : wst) : wst := mkwst (cond s) (lk s) (plk s) (st s) (<[p := v]> (ch s)) (pcs s).
Definition set_pc (p : Z) (v : pc) (s : wst) : wst := mkwst (cond s) (lk s) (plk s) (st s) (ch s) (<[p := v]> (pcs s)).

Section sleepwake.
  Context (chan : Z).

(** What [wakeup] does to a process whose lock it holds. *)
Definition wake_one (i : Z) (s : wst) : wst :=
  if decide (st s i = SLEEPING ∧ ch s i = chan) then set_st i RUNNABLE s else s.

Inductive sw_step (s : wst) : wst → Prop :=
| step_wait p :
    1 ≤ p ≤ NPROC → pcs s p = Out → lk s = None →
    sw_step s (set_pc p Test (set_lk (Some p) s))
| step_pass p b :
    pcs s p = Test → cond s = true →
    sw_step s (set_pc p Out (set_lk None (set_cond b s)))
| step_block p :
    pcs s p = Test → cond s = false →
    sw_step s (set_pc p SlAcq s)
| step_sl_acq p :
    pcs s p = SlAcq → plk s p = None →
    sw_step s (set_pc p SlRel (set_plk p (Some p) s))
| step_sl_rel p :
    pcs s p = SlRel →
    sw_step s (set_pc p SlSet (set_lk None s))
| step_sl_set p :
    pcs s p = SlSet →
    sw_step s (set_pc p SlSched (set_st p SLEEPING (set_ch p chan s)))
| step_sl_sched p :
    pcs s p = SlSched →
    sw_step s (set_pc p Off (set_plk p None s))
| step_schedule p :
    pcs s p = Off → st s p = RUNNABLE → plk s p = None →
    sw_step s (set_pc p Resumed (set_st p RUNNING (set_plk p (Some p) s)))
| step_resume p :
    pcs s p = Resumed →
    sw_step s (set_pc p SlReacq (set_plk p None (set_ch p 0 s)))
| step_reacq p :
    pcs s p = SlReacq → lk s = None →
    sw_step s (set_pc p Test (set_lk (Some p) s))
| step_wake p :
    1 ≤ p ≤ NPROC → pcs s p = Out → lk s = None →
    sw_step s (set_pc p WkSet (set_lk (Some p) s))
| step_wk_set p :
    pcs s p = WkSet →
    sw_step s (set_pc p (WkScan 1) (set_cond true s))
| step_wk_self p :
    pcs s p = WkScan p →
    sw_step s (set_pc p (WkScan (p + 1)) s)
| step_wk_acq p i :
    pcs s p = WkScan i → i ≠ p → i ≤ NPROC → plk s i = None →
    sw_step s (set_pc p (WkHold i) (set_plk i (Some p) s))
| step_wk_rel p i :
    pcs s p = WkHold i →
    sw_step s (set_pc p (WkScan (i + 1)) (set_plk i None (wake_one i s)))
| step_wk_done p i :
    pcs s p = WkScan i → NPROC < i →
    sw_step s (set_pc p Out (set_lk None s))
| step_kill p :
    plk s p = None → st s p = SLEEPING →
    sw_step s (set_st p RUNNABLE s).

(** Nobody waits and no lock is held. *)
Definition initial : wst := mkwst false None (λ _, None) (λ _, RUNNING) (λ _, 0) (λ _, Out).

Definition reachable : wst → Prop := rtc sw_step initial.

(** ** The invariant *)

Definition holds_lk (c : pc) : bool :=
  match c with Test | SlAcq | SlRel | WkSet | WkScan _ | WkHold _ => true | _ => false end.
Definition holds_own (c : pc) : bool :=
  match c with SlRel | SlSet | SlSched | Resumed => true | _ => false end.

(** A waker that has yet to look at process [p]. *)
Definition coming (s : wst) (p : Z) : Prop := ∃ k i, i ≤ p ∧ (pcs s k = WkScan i ∨ pcs s k = WkHold i).

Record inv (s : wst) : Prop := {
  inv_lk : ∀ p, holds_lk (pcs s p) = true → lk s = Some p;
  inv_own : ∀ p, holds_own (pcs s p) = true → plk s p = Some p;
  inv_hold : ∀ k i, pcs s k = WkHold i → plk s i = Some k ∧ k ≠ i;
  inv_cond : ∀ p, pcs s p = SlAcq ∨ pcs s p = SlRel → cond s = false;
  inv_wake : ∀ p, pcs s p = SlSet ∨ pcs s p = SlSched ∨ pcs s p = Off ∧ st s p = SLEEPING → cond s = true → coming s p;
  inv_sleep : ∀ p, st s p = SLEEPING → ch s p = chan ∧ (pcs s p = SlSched ∨ pcs s p = Off);
  inv_range : ∀ p, pcs s p ≠ Out → 1 ≤ p ≤ NPROC;
}.

Ltac wsimpl := repeat (progress (cbn in *; rewrite ?SMP.fn_insert_dec in *; repeat case_decide; simplify_eq/=)).

Lemma sw_inv_initial : inv initial.
Proof. constructor; cbn; naive_solver. Qed.

Lemma lk_unique s p q : inv s → holds_lk (pcs s p) = true → holds_lk (pcs s q) = true → p = q.
Proof. intros Hi Hp Hq. apply (inv_lk _ Hi) in Hp. apply (inv_lk _ Hi) in Hq. congruence. Qed.

(** A waker stays a waker in steps of others, and of its own unless it passes [p]. *)
Lemma coming_frame s s' p : coming s p → (∀ k i, i ≤ p → pcs s k = WkScan i ∨ pcs s k = WkHold i → pcs s' k = pcs s k) → coming s' p.
Proof. intros (k & i & Hi & Hk) Hf. exists k, i. split; [done|]. by rewrite (Hf k i). Qed.

Section preservation.
  Context (s s' : wst) (Hi : inv s) (Hstep : sw_step s s').

Lemma step_lk p : holds_lk (pcs s' p) = true → lk s' = Some p.
Proof.
  pose proof (inv_lk _ Hi) as HL. destruct Hstep; unfold wake_one; intros Hp; wsimpl; try by eauto; try by (apply HL in Hp; congruence).
  all: try (apply HL; match goal with H : pcs s _ = _ |- _ => by rewrite H end).
  all: match goal with H : pcs s ?k = _, Hp : holds_lk _ = true |- _ =>
         assert (lk s = Some k) by (apply HL; by rewrite H); apply HL in Hp; congruence end.
Qed.

Lemma step_own p : holds_own (pcs s' p) = true → plk s' p = Some p.
Proof.
  pose proof (inv_own _ Hi) as HO. pose proof (inv_hold _ Hi) as HH.
  destruct Hstep; unfold wake_one; intros Hp; wsimpl; try by eauto; try by (apply HO in Hp; congruence).
  all: try (apply HO; match goal with H : pcs s _ = _ |- _ => by rewrite H end).
  all: apply HO in Hp; match goal with H : pcs s ?k = WkHold ?i |- _ => destruct (HH _ _ H) end; congruence.
Qed.

Lemma step_hold k i : pcs s' k = WkHold i → plk s' i = Some k ∧ k ≠ i.
Proof.
  pose proof (inv_own _ Hi) as HO. pose proof (inv_hold _ Hi) as HH.
  destruct Hstep; unfold wake_one; intros Hp; wsimpl; try by eauto.
  all: try (destruct (HH _ _ Hp); split; congruence).
  all: try (match goal with Hp : pcs s ?k = WkHold ?i, H : pcs s ?i = _ |- _ =>
              assert (plk s i = Some i) by (apply HO; by rewrite H); destruct (HH _ _ Hp); congruence end).
  all: match goal with H : pcs s ?k = WkHold ?i, H' : pcs s ?k' = WkHold ?i |- _ => destruct (HH _ _ H); destruct (HH _ _ H'); congruence end.
Qed.

Lemma step_sleep p : st s' p = SLEEPING → ch s' p = chan ∧ (pcs s' p = SlSched ∨ pcs s' p = Off).
Proof.
  pose proof (inv_sleep _ Hi) as HS. destruct Hstep; unfold wake_one; intros Hp; wsimpl; try by eauto.
  all: destruct (HS _ Hp) as [? [?|?]]; try congruence; split; auto.
Qed.

Lemma step_range p : pcs s' p ≠ Out → 1 ≤ p ≤ NPROC.
Proof.
  pose proof (inv_range _ Hi) as HR. destruct Hstep; unfold wake_one; intros Hp; wsimpl; try by eauto.
  all: try (apply HR; match goal with H : pcs s _ = _ |- _ => by rewrite H end).
Qed.

Lemma step_cond p : pcs s' p = SlAcq ∨ pcs s' p = SlRel → cond s' = false.
Proof.
  pose proof (inv_cond _ Hi) as HC. pose proof (lk_unique s) as HU.
  assert (HL : pcs s p = SlAcq ∨ pcs s p = SlRel → holds_lk (pcs s p) = true) by (by intros [->| ->]).
  destruct Hstep; unfold wake_one; intros Hp; wsimpl; try by eauto; try (destruct Hp; congruence).
  all: match goal with H : pcs s ?k = _, H' : ?k ≠ ?p |- _ => destruct H'; apply HU; [done|by rewrite H|by apply HL] end.
Qed.

(** A waker that is coming still is, or has just looked at [p]. *)
Lemma step_coming p :
  coming s p → p ≤ NPROC → (∀ i, pcs s p ≠ WkScan i) →
  coming s' p ∨ (∃ k, pcs s k = WkHold p ∧ st s' p ≠ SLEEPING ∧ pcs s' p = pcs s p).
Proof.
  intros (k & i & Hle & Hk) Hp Hns.
  assert (Hkeep : pcs s' k = pcs s k → coming s' p) by (intros E; exists k, i; by rewrite E).
  destruct Hstep; try (left; apply Hkeep; cbn; rewrite ?SMP.fn_insert_dec; case_decide; subst; [destruct Hk; congruence|done]); try by left; apply Hkeep.
  - left. destruct (decide (p0 = k)) as [->|]; [|apply Hkeep; cbn; by rewrite SMP.fn_insert_dec, decide_False].
    exists k, (k + 1). cbn. rewrite SMP.fn_insert_dec, decide_True by done. split; [|by left].
    assert (i = k) as -> by (destruct Hk; congruence). assert (p ≠ k) by (intros ->; by eapply Hns). lia.
  - left. destruct (decide (p0 = k)) as [->|]; [|apply Hkeep; cbn; by rewrite SMP.fn_insert_dec, decide_False].
    exists k, i. cbn. rewrite SMP.fn_insert_dec, decide_True by done. split; [done|right]. destruct Hk; congruence.
  - destruct (decide (p0 = k)) as [->|].
    2:{ left. apply Hkeep. unfold wake_one. case_decide; cbn; by rewrite SMP.fn_insert_dec, decide_False. }
    assert (i0 = i) as -> by (destruct Hk; congruence). destruct (decide (i = p)) as [->|].
    + right. exists k. split; [done|]. destruct (inv_hold _ Hi _ _ H) as [_ Hne]. unfold wake_one. case_decide as Hd; cbn; rewrite !SMP.fn_insert_dec.
      * rewrite decide_True by done. by rewrite decide_False by congruence.
      * rewrite decide_False by congruence. split; [|done]. intros Hs. apply Hd. split; [done|]. by destruct (inv_sleep _ Hi _ Hs).
    + left. exists k, (i + 1). split; [lia|left]. unfold wake_one. case_decide; cbn; by rewrite SMP.fn_insert_dec, decide_True.
  - left. destruct (decide (p0 = k)) as [->|]; [|apply Hkeep; cbn; by rewrite SMP.fn_insert_dec, decide_False].
    assert (i0 = i) as -> by (destruct Hk; congruence). lia.
Qed.

(** Process [p] sleeps or is past its last look at the condition. *)
Definition committed (w : wst) (p : Z) : Prop := pcs w p = SlSet ∨ pcs w p = SlSched ∨ pcs w p = Off ∧ st w p = SLEEPING.

Lemma step_committed p : committed s' p → committed s p ∨ pcs s p = SlRel ∧ cond s' = cond s.
Proof.
  unfold committed. pose proof (inv_sleep _ Hi) as HS.
  destruct Hstep; unfold wake_one; intros Hp; wsimpl; try by auto; try (destruct_or!; destruct_and?; congruence).
  all: destruct Hp as [?|[?|[? ?]]]; auto; congruence.
Qed.

Lemma step_cond_true : cond s' = true → cond s = true ∨ ∃ k, pcs s' k = WkScan 1.
Proof.
  destruct Hstep; unfold wake_one; intros Hp; wsimpl; try by auto. right. exists p. by rewrite SMP.fn_insert_dec, decide_True.
Qed.

Lemma step_wake_inv p : committed s' p → cond s' = true → coming s' p.
Proof.
  intros Hp Hc. assert (Hr : 1 ≤ p ≤ NPROC).
  { apply step_range. destruct Hp as [->|[->|[-> _]]]; done. }
  destruct (step_cond_true Hc) as [Hc0|[k Hk]]; [|exists k, 1; split; [lia|by left]].
  destruct (step_committed p Hp) as [Hp0|[Hp0 E]].
  - assert (coming s p) as Hco by (by apply (inv_wake _ Hi)).
    destruct (step_coming p Hco) as [|(k & Hk & Hst & Hpc)]; [lia|intros i; destruct Hp0 as [->|[->|[-> _]]]; done|done|].
    destruct (inv_hold _ Hi _ _ Hk) as [Hh Hne].
    assert (holds_own (pcs s p) = true) as Ho.
    { rewrite <-Hpc. destruct Hp as [->|[->|[_ ?]]]; done. }
    apply (inv_own _ Hi) in Ho. congruence.
  - rewrite E in Hc. rewrite (inv_cond _ Hi p) in Hc by auto. done.
Qed.

Lemma sw_inv_step : inv s'.
Proof.
  constructor; [exact step_lk|exact step_own|exact step_hold|exact step_cond|exact step_wake_inv|exact step_sleep|exact step_range].
Qed.
End preservation.

Lemma sw_inv_reachable s : reachable s → inv s.
Proof.
  intros Hr. unfold reachable in Hr. remember initial as s0 eqn:E. assert (inv s0) as H0 by (subst; apply sw_inv_initial). clear E.
  induction Hr as [|s1 s2 s3 H12 _ IH]; [done|]. apply IH. by eapply sw_inv_step.
Qed.

(** C10: no wakeup is missed.  If a process sleeps although the condition it waits
    for is true, then some process is inside its call of [wakeup], holding the
    condition lock, and has yet to look at the sleeper.  So whenever the
    condition lock is free and the condition true, nobody sleeps. *)
Theorem no_lost_wakeup s p :
  reachable s → st s p = SLEEPING → cond s = true →
  ∃ k i, lk s = Some k ∧ (pcs s k = WkScan i ∨ pcs s k = WkHold i) ∧ i ≤ p.
Proof.
  intros Hr Hst Hc. pose proof (sw_inv_reachable s Hr) as Hi.
  destruct (inv_wake _ Hi p) as (k & i & Hle & Hk); [|done|].
  - destruct (inv_sleep _ Hi _ Hst) as [_ [?|?]]; auto.
  - exists k, i. split_and!; [|done|done]. apply (inv_lk _ Hi). by destruct Hk as [->| ->].
Qed.
End sleepwake.

(** ** An instance: process 2 sleeps, process 1 makes the condition true and is
    about to wake it. *)
Definition dscan : wst :=
  set_pc 1 (WkScan 1) (set_cond true (set_pc 1 WkSet (set_lk (Some 1)
    (set_pc 2 Off (set_plk 2 None (set_pc 2 SlSched (set_st 2 SLEEPING (set_ch 2 7 (set_pc 2 SlSet (set_lk None
      (set_pc 2 SlRel (set_plk 2 (Some 2) (set_pc 2 SlAcq (set_pc 2 Test (set_lk (Some 2) initial))))))))))))))).

Lemma dscan_reachable : reachable 7 dscan.
Proof.
  unfold reachable, dscan. unfold NPROC.
  eapply rtc_l; [apply (step_wait 7 _ 2); [done|done|done]|].
  eapply rtc_l; [apply (step_block 7 _ 2); done|].
  eapply rtc_l; [apply (step_sl_acq 7 _ 2); done|].
  eapply rtc_l; [apply (step_sl_rel 7 _ 2); done|].
  eapply rtc_l; [apply (step_sl_set 7 _ 2); done|].
  eapply rtc_l; [apply (step_sl_sched 7 _ 2); done|].
  eapply rtc_l; [apply (step_wake 7 _ 1); [done|done|done]|].
  eapply rtc_l; [apply (step_wk_set 7 _ 1); done|]. apply rtc_refl.
Qed.

Lemma no_lost_wakeup_witness : ∃ k i, lk dscan = Some k ∧ (pcs dscan k = WkScan i ∨ pcs dscan k = WkHold i) ∧ i ≤ 2.
Proof. apply (no_lost_wakeup 7 dscan 2); [exact dscan_reachable|done|done]. Defined.
