(* ===== verification/BufSpec.v ===== *)
(** What the buffer cache promises to the layers above it.

    The abstract state [abuf] lists the blocks in use: for each, the number of
    references, the process that holds it, its contents and the buffer that
    carries it; and the disk below.  Blocks that are not in use are on the disk.

    [BufCache] is the set of operations, [BufCacheSpec] their laws over
    [abuf].  The log and the file system are verified against these classes;
    Bio.v shows that kernel/bio.c meets them. *)

From stdpp Require Import base tactics list numbers strings gmap functions.
From S2P Require Import Prelude Param Bytes.
From Stdlib Require Import ZArith Lia.

(** A disk block: 1024 bytes. *)
Definition wf_block (d : list Z) : Prop := length d = 1024%nat ∧ is_bytes d.

Lemma wf_zero_block : wf_block (replicate 1024 0).
Proof. split; [done|]. apply Forall_replicate. lia. Qed.

Record aent (H : Type) := mkaent {
  ae_rc : Z;
  ae_owner : option Z;
  ae_data : list Z;
  ae_h : H;
}.
Arguments mkaent {H} _ _ _ _.
Arguments ae_rc {H} _.
Arguments ae_owner {H} _.
Arguments ae_data {H} _.
Arguments ae_h {H} _.

Record abuf (H : Type) := mkabuf {
  a_act : gmap Z (aent H);
  a_disk : Z → list Z;
  a_writes : list (Z * list Z);
}.
Arguments mkabuf {H} _ _ _.
Arguments a_act {H} _.
Arguments a_disk {H} _ _.
Arguments a_writes {H} _.

(** Changes to the abstract state. *)
Definition a_set {H} (b : Z) (e : aent H) (A : abuf H) : abuf H :=
  mkabuf (<[b := e]> (a_act A)) (a_disk A) (a_writes A).
Definition a_del {H} (b : Z) (A : abuf H) : abuf H :=
  mkabuf (delete b (a_act A)) (a_disk A) (a_writes A).
Definition a_wr {H} (b : Z) (d : list Z) (A : abuf H) : abuf H :=
  mkabuf (a_act A) (<[b := d]> (a_disk A)) (a_writes A ++ [(b, d)]).

(** The contents of block [b] as seen through the cache. *)
Definition a_view {H} (A : abuf H) (b : Z) : list Z :=
  match a_act A !! b with
  | Some e => ae_data e
  | None => a_disk A b
  end.

(** The largest value of the [uint] reference count. *)
Definition rc_max : Z := 4294967295.

(** The operations of bio.c. *)
Class BufCache (S H : Type) := {
  c_bread : Z → Z → M S H;
  c_bwrite : H → M S unit;
  c_brelse : H → M S unit;
  c_bpin : H → M S unit;
  c_bunpin : H → M S unit;
  c_data : H → S → list Z;
  c_setdata : H → list Z → M S unit;
  c_blockno : H → S → Z;
}.

(** Their laws, for the device [dev] and the calling process [pid]. *)
Class BufCacheSpec (S H : Type) `{BC : BufCache S H} (dev pid : Z) := {
  c_rep : abuf H → S → Prop;
  rep_size A s : c_rep A s → Z.of_nat (size (a_act A)) ≤ NBUF;
  rep_rc A s b e : c_rep A s → a_act A !! b = Some e → 0 < ae_rc e;
  rep_wf A s b : c_rep A s → wf_block (a_disk A b);
  rep_wf_data A s b e : c_rep A s → a_act A !! b = Some e → wf_block (ae_data e);
  rep_data A s b e :
    c_rep A s → a_act A !! b = Some e →
    c_data (ae_h e) s = ae_data e ∧ c_blockno (ae_h e) s = b;
  (** [bread] of a block in use that nobody holds. *)
  bread_hit A s b e :
    c_rep A s → a_act A !! b = Some e → ae_owner e = None → ae_rc e < rc_max →
    ∃ s', c_bread dev b s = Ok (ae_h e) s' ∧
          c_rep (a_set b (mkaent (ae_rc e + 1) (Some pid) (ae_data e) (ae_h e)) A) s';
  (** [bread] of a block not in use, while fewer than [NBUF] blocks are. *)
  bread_miss A s b :
    c_rep A s → a_act A !! b = None → Z.of_nat (size (a_act A)) < NBUF →
    ∃ h s', c_bread dev b s = Ok h s' ∧
            c_rep (a_set b (mkaent 1 (Some pid) (a_disk A b) h) A) s';
  (** [bread] when every buffer is in use by other blocks. *)
  bread_full A s b :
    c_rep A s → a_act A !! b = None → Z.of_nat (size (a_act A)) = NBUF →
    c_bread dev b s = Panic "bget: no buffers";
  (** [bread] of a block that is held. *)
  bread_held A s b e :
    c_rep A s → a_act A !! b = Some e → ae_owner e ≠ None → ae_rc e < rc_max →
    ∃ chan s', c_bread dev b s = Sleep chan s' ∧
      c_rep (a_set b (mkaent (ae_rc e + 1) (ae_owner e) (ae_data e) (ae_h e)) A) s';
  setdata_ok A s b e d :
    c_rep A s → a_act A !! b = Some e → ae_owner e = Some pid → wf_block d →
    ∃ s', c_setdata (ae_h e) d s = Ok tt s' ∧
          c_rep (a_set b (mkaent (ae_rc e) (ae_owner e) d (ae_h e)) A) s';
  bwrite_ok A s b e :
    c_rep A s → a_act A !! b = Some e → ae_owner e = Some pid →
    ∃ s', c_bwrite (ae_h e) s = Ok tt s' ∧ c_rep (a_wr b (ae_data e) A) s';
  (** [brelse] of a block that stays in use. *)
  brelse_more A s b e :
    c_rep A s → a_act A !! b = Some e → ae_owner e = Some pid → 1 < ae_rc e →
    ∃ s', c_brelse (ae_h e) s = Ok tt s' ∧
          c_rep (a_set b (mkaent (ae_rc e - 1) None (ae_data e) (ae_h e)) A) s';
  (** [brelse] of the last reference; the disk must have the contents. *)
  brelse_last A s b e :
    c_rep A s → a_act A !! b = Some e → ae_owner e = Some pid → ae_rc e = 1 →
    ae_data e = a_disk A b →
    ∃ s', c_brelse (ae_h e) s = Ok tt s' ∧ c_rep (a_del b A) s';
  bpin_ok A s b e :
    c_rep A s → a_act A !! b = Some e → ae_rc e < rc_max →
    ∃ s', c_bpin (ae_h e) s = Ok tt s' ∧
          c_rep (a_set b (mkaent (ae_rc e + 1) (ae_owner e) (ae_data e) (ae_h e)) A) s';
  bunpin_ok A s b e :
    c_rep A s → a_act A !! b = Some e → 1 < ae_rc e →
    ∃ s', c_bunpin (ae_h e) s = Ok tt s' ∧
          c_rep (a_set b (mkaent (ae_rc e - 1) (ae_owner e) (ae_data e) (ae_h e)) A) s';
}.
