(* ===== verification/TxSpec.v ===== *)
(** What the log promises to the file system.

    Inside a transaction (between [begin_op] and [end_op]) the file system sees
    a disk of blocks [D].  It reads a block into a buffer that it then holds,
    changes the buffer, logs the buffer, which changes [D], and releases it.
    [lg] is the set of blocks logged since the last commit: it bounds the room
    left in the log and in the buffer cache.

    [Txn] is the set of operations, [TxnSpec] their laws.  kernel/fs.c is
    verified against these classes; Log.v shows that kernel/log.c over any
    buffer cache meets them. *)

From stdpp Require Import base tactics list numbers strings gmap functions.
From S2P Require Import Prelude Param Bytes BufSpec.
From Stdlib Require Import ZArith Lia.

Class Txn (F H : Type) := {
  t_bread : Z → Z → M F H;
  t_brelse : H → M F unit;
  t_log_write : H → M F unit;
  t_data : H → F → list Z;
  t_setdata : H → list Z → M F unit;
  t_begin_op : M F unit;
  t_end_op : M F unit;
  t_initlog : Z → Z → M F unit;
}.

(** [t_home b]: block [b] belongs to the file system, not to the log.
    [t_rep D held lg s]: a transaction is open, the disk reads [D], the caller
    holds the buffers [held], the blocks [lg] have been logged. *)
Class TxnSpec (F H : Type) `{TX : Txn F H} (dev : Z) := {
  t_home : Z → Prop;
  t_rep : (Z → list Z) → gmap Z (H * list Z) → gset Z → F → Prop;
  t_rep_wf D held lg s b : t_rep D held lg s → t_home b → wf_block (D b);
  t_rep_data D held lg s b h d :
    t_rep D held lg s → held !! b = Some (h, d) → t_data h s = d;
  t_bread_ok D held lg s b :
    t_rep D held lg s → t_home b → held !! b = None →
    Z.of_nat (size held) + Z.of_nat (size lg) < NBUF →
    ∃ h s', t_bread dev b s = Ok h s' ∧ t_rep D (<[b := (h, D b)]> held) lg s';
  t_setdata_ok D held lg s b h d d' :
    t_rep D held lg s → held !! b = Some (h, d) → wf_block d' →
    ∃ s', t_setdata h d' s = Ok tt s' ∧ t_rep D (<[b := (h, d')]> held) lg s';
  t_log_write_ok D held lg s b h d :
    t_rep D held lg s → held !! b = Some (h, d) →
    Z.of_nat (size lg) < LOGBLOCKS →
    ∃ s', t_log_write h s = Ok tt s' ∧ t_rep (<[b := d]> D) held ({[b]} ∪ lg) s';
  t_brelse_ok D held lg s b h d :
    t_rep D held lg s → held !! b = Some (h, d) → d = D b →
    ∃ s', t_brelse h s = Ok tt s' ∧ t_rep D (delete b held) lg s';
}.
