(* ===== verification/Bio.v ===== *)
(** kernel/bio.c: the buffer cache.

    The cache is an array of [NBUF] buffers threaded on a circular doubly
    linked list through [prev]/[next], most recently released first.  Buffers
    are named by their index; [HEAD] is [bcache.head].  The disk transfer
    [virtio_disk_rw] appears through what the driver promises: it moves one
    whole block between the buffer and the disk.  The list of transfers made is
    kept with the disk, so that a crash can be placed between any two of them.

    [rep] relates a cache to the abstract state of BufSpec.v (the blocks in
    use, their holders and contents); the instance [bio_spec] at the end shows
    that the linked-list implementation meets the laws of [BufCacheSpec].  The
    other theorems are about the list itself: it stays a well-formed circular
    list of all the buffers, and replacement is least recently used. *)

From stdpp Require Import base tactics list numbers strings gmap functions sets.
From S2P Require Import Prelude Param Bytes Spinlock Sleeplock BufSpec.
From Stdlib Require Import ZArith Lia.

Open Scope kernel_scope.

(** * Data *)

Definition block : Type := list Z.

(** [struct buf], without the list pointers. *)
Record buf := mkbuf {
  b_valid : Z;
  b_dev : Z;
  b_blockno : Z;
  b_lock : sleeplock;
  b_refcnt : Z;
  b_data : block;
}.

Definition HEAD : Z := NBUF.

Record bcache := mkbcache {
  bc_lock : spinlock;
  bc_buf : list buf;
  bc_prev : Z → Z;
  bc_next : Z → Z;
}.

(** The disk: its blocks, and the block writes made so far, in order. *)
Record disk := mkdisk {
  d_blocks : Z → block;
  d_writes : list (Z * block);
}.

Record bstate := mkbstate {
  bs_cache : bcache;
  bs_disk : disk;
}.

Definition buf0 : buf := mkbuf 0 0 0 (initsleeplock "buffer") 0 (replicate 1024 0).

Definition getbuf (s : bstate) (i : Z) : buf := znth buf0 (bc_buf (bs_cache s)) i.

Definition set_cache (c : bcache) (s : bstate) : bstate := mkbstate c (bs_disk s).
Definition set_disk (d : disk) (s : bstate) : bstate := mkbstate (bs_cache s) d.

Definition set_buf (i : Z) (b : buf) (s : bstate) : bstate :=
  let c := bs_cache s in
  set_cache (mkbcache (bc_lock c) (zset (bc_buf c) i b) (bc_prev c) (bc_next c)) s.

Definition set_links (p n : Z → Z) (s : bstate) : bstate :=
  let c := bs_cache s in
  set_cache (mkbcache (bc_lock c) (bc_buf c) p n) s.

Definition bc_lockL : lens bstate spinlock :=
  Lens (λ s, bc_lock (bs_cache s))
       (λ l s, let c := bs_cache s in
               set_cache (mkbcache l (bc_buf c) (bc_prev c) (bc_next c)) s).

Definition with_refcnt (n : Z) (b : buf) : buf :=
  mkbuf (b_valid b) (b_dev b) (b_blockno b) (b_lock b) n (b_data b).
Definition with_lock (l : sleeplock) (b : buf) : buf :=
  mkbuf (b_valid b) (b_dev b) (b_blockno b) l (b_refcnt b) (b_data b).
Definition with_data (d : block) (b : buf) : buf :=
  mkbuf (b_valid b) (b_dev b) (b_blockno b) (b_lock b) (b_refcnt b) d.
Definition with_valid (v : Z) (b : buf) : buf :=
  mkbuf v (b_dev b) (b_blockno b) (b_lock b) (b_refcnt b) (b_data b).

Definition buf_lockL (i : Z) : lens bstate sleeplock :=
  Lens (λ s, b_lock (getbuf s i))
       (λ l s, set_buf i (with_lock l (getbuf s i)) s).

(** The wait channel of buffer [i]'s lock. *)
Definition buf_chan (i : Z) : Z := i.

(** * The disk *)

(** [virtio_disk_rw(b, write)], as the driver promises it. *)
Definition virtio_disk_rw (i : Z) (write : bool) : M bstate unit :=
  s <- get ;;
  let b := getbuf s i in
  let d := bs_disk s in
  if write
  then put (set_disk (mkdisk (<[b_blockno b := b_data b]> (d_blocks d))
                             (d_writes d ++ [(b_blockno b, b_data b)])) s)
  else put (set_buf i (with_data (d_blocks d (b_blockno b)) b) s).

Section bio.
  Context (me pid : Z).

(** * Operations *)

(** [b->next = head.next; b->prev = &head; head.next->prev = b; head.next = b;] *)
Definition link_front (b : Z) : M bstate unit :=
  modify (λ s, set_links (bc_prev (bs_cache s))
                 (<[b := bc_next (bs_cache s) HEAD]> (bc_next (bs_cache s))) s) ;;
  modify (λ s, set_links (<[b := HEAD]> (bc_prev (bs_cache s))) (bc_next (bs_cache s)) s) ;;
  modify (λ s, set_links (<[bc_next (bs_cache s) HEAD := b]> (bc_prev (bs_cache s)))
                 (bc_next (bs_cache s)) s) ;;
  modify (λ s, set_links (bc_prev (bs_cache s)) (<[HEAD := b]> (bc_next (bs_cache s))) s).

(** [b->next->prev = b->prev; b->prev->next = b->next;] *)
Definition unlink (b : Z) : M bstate unit :=
  modify (λ s, set_links (<[bc_next (bs_cache s) b := bc_prev (bs_cache s) b]> (bc_prev (bs_cache s)))
                 (bc_next (bs_cache s)) s) ;;
  modify (λ s, set_links (bc_prev (bs_cache s))
                 (<[bc_prev (bs_cache s) b := bc_next (bs_cache s) b]> (bc_next (bs_cache s))) s).

Definition binit : M bstate unit :=
  modify (upd bc_lockL (initlock "bcache")) ;;
  modify (λ s, set_links (<[HEAD := HEAD]> (bc_prev (bs_cache s)))
                 (<[HEAD := HEAD]> (bc_next (bs_cache s))) s) ;;
  for_up (R := unit) (Z.to_nat NBUF) 0 (λ b,
    modify (λ s, set_links (bc_prev (bs_cache s))
                   (<[b := bc_next (bs_cache s) HEAD]> (bc_next (bs_cache s))) s) ;;
    modify (λ s, set_links (<[b := HEAD]> (bc_prev (bs_cache s))) (bc_next (bs_cache s)) s) ;;
    modify (λ s, set_buf b (with_lock (initsleeplock "buffer") (getbuf s b)) s) ;;
    modify (λ s, set_links (<[bc_next (bs_cache s) HEAD := b]> (bc_prev (bs_cache s)))
                   (bc_next (bs_cache s)) s) ;;
    modify (λ s, set_links (bc_prev (bs_cache s)) (<[HEAD := b]> (bc_next (bs_cache s))) s) ;;
    ret Next) ;;
  ret tt.

(** [for(b = ...; b != &bcache.head; b = step(b)) if(test(b)) found] *)
Fixpoint bscan (fuel : nat) (step : bcache → Z → Z) (test : buf → bool) (b : Z) : M bstate (option Z) :=
  match fuel with
  | O => λ _, OutOfFuel
  | S fuel' =>
      if b =? HEAD then ret None
      else
        s <- get ;;
        if test (getbuf s b) then ret (Some b)
        else bscan fuel' step test (step (bs_cache s) b)
  end.

(** More rounds than the list has elements, the head included. *)
Definition scan_fuel : nat := Z.to_nat (NBUF + 1).

Definition bget (dev blockno : Z) : M bstate Z :=
  zoom bc_lockL (acquire_lk me) ;;
  s <- get ;;
  r <- bscan scan_fuel bc_next (λ b, (b_dev b =? dev) && (b_blockno b =? blockno))
         (bc_next (bs_cache s) HEAD) ;;
  match r with
  | Some b =>
      modify (λ s, set_buf b (with_refcnt (u32 (b_refcnt (getbuf s b) + 1)) (getbuf s b)) s) ;;
      zoom bc_lockL (release_lk me) ;;
      zoom (buf_lockL b) (acquiresleep me pid (buf_chan b)) ;;
      ret b
  | None =>
      s <- get ;;
      r <- bscan scan_fuel bc_prev (λ b, b_refcnt b =? 0) (bc_prev (bs_cache s) HEAD) ;;
      match r with
      | Some b =>
          modify (λ s, set_buf b (mkbuf 0 dev blockno (b_lock (getbuf s b)) 1
                                        (b_data (getbuf s b))) s) ;;
          zoom bc_lockL (release_lk me) ;;
          zoom (buf_lockL b) (acquiresleep me pid (buf_chan b)) ;;
          ret b
      | None => panic "bget: no buffers"
      end
  end.

Definition bread (dev blockno : Z) : M bstate Z :=
  b <- bget dev blockno ;;
  s <- get ;;
  (if b_valid (getbuf s b) =? 0
   then
     virtio_disk_rw b false ;;
     modify (λ s, set_buf b (with_valid 1 (getbuf s b)) s)
   else ret tt) ;;
  ret b.

Definition bwrite (b : Z) : M bstate unit :=
  h <- zoom (buf_lockL b) (holdingsleep me pid) ;;
  if negb h then panic "bwrite"
  else virtio_disk_rw b true.

Definition brelse (b : Z) : M bstate unit :=
  h <- zoom (buf_lockL b) (holdingsleep me pid) ;;
  if negb h then panic "brelse"
  else
    zoom (buf_lockL b) (releasesleep me (buf_chan b)) ;;
    zoom bc_lockL (acquire_lk me) ;;
    modify (λ s, set_buf b (with_refcnt (u32 (b_refcnt (getbuf s b) - 1)) (getbuf s b)) s) ;;
    s <- get ;;
    (if b_refcnt (getbuf s b) =? 0 then unlink b ;; link_front b else ret tt) ;;
    zoom bc_lockL (release_lk me).

Definition bpin (b : Z) : M bstate unit :=
  zoom bc_lockL (acquire_lk me) ;;
  modify (λ s, set_buf b (with_refcnt (u32 (b_refcnt (getbuf s b) + 1)) (getbuf s b)) s) ;;
  zoom bc_lockL (release_lk me).

Definition bunpin (b : Z) : M bstate unit :=
  zoom bc_lockL (acquire_lk me) ;;
  modify (λ s, set_buf b (with_refcnt (u32 (b_refcnt (getbuf s b) - 1)) (getbuf s b)) s) ;;
  zoom bc_lockL (release_lk me).

(** The caller's access to [b->data] of a buffer it holds. *)
Definition bdata (b : Z) (s : bstate) : block := b_data (getbuf s b).
Definition bsetdata (b : Z) (d : block) : M bstate unit :=
  modify (λ s, set_buf b (with_data d (getbuf s b)) s).

End bio.

#[export] Instance bio_cache (me pid : Z) : BufCache bstate Z := {
  c_bread := bread me pid;
  c_bwrite := bwrite me pid;
  c_brelse := brelse me pid;
  c_bpin := bpin me;
  c_bunpin := bunpin me;
  c_data := bdata;
  c_setdata := bsetdata;
  c_blockno b s := b_blockno (getbuf s b);
}.

(** * The linked list *)

(** [chain nx pv a l z]: following [nx] from [a] visits [l] and then reaches
    [z]; following [pv] from [z] goes back the same way. *)
Fixpoint chain (nx pv : Z → Z) (a : Z) (l : list Z) (z : Z) : Prop :=
  match l with
  | [] => nx a = z ∧ pv z = a
  | x :: l' => nx a = x ∧ pv x = a ∧ chain nx pv x l' z
  end.

(** The LRU list of a cache: all buffers, once each, most recent first. *)
Record lru (nx pv : Z → Z) (order : list Z) : Prop := {
  lru_chain : chain nx pv HEAD order HEAD;
  lru_perm : order ≡ₚ zseq 0 (Z.to_nat NBUF);
}.

(** The first element that passes a test. *)
Fixpoint first_ok (test : Z → bool) (l : list Z) : option Z :=
  match l with
  | [] => None
  | x :: l' => if test x then Some x else first_ok test l'
  end.

Lemma chain_app nx pv a l1 x l2 z :
  chain nx pv a (l1 ++ x :: l2) z ↔ chain nx pv a l1 x ∧ chain nx pv x l2 z.
Proof.
  revert a. induction l1 as [|y l1 IH]; intros a; cbn; [tauto|]. rewrite IH. tauto.
Qed.

Lemma chain_rev nx pv a l z : chain nx pv a l z ↔ chain pv nx z (reverse l) a.
Proof.
  revert a z. induction l as [|x l IH]; intros a z; [cbn; tauto|].
  rewrite reverse_cons, chain_app, <-IH. cbn. tauto.
Qed.

Lemma chain_frame nx pv nx' pv' a l z :
  (∀ x, x ∈ a :: l → nx' x = nx x) → (∀ x, x ∈ z :: l → pv' x = pv x) →
  chain nx pv a l z → chain nx' pv' a l z.
Proof.
  revert a. induction l as [|x l IH]; intros a Hn Hp; cbn.
  - rewrite Hn, Hp by set_solver. done.
  - rewrite Hn, Hp by set_solver. intros (H1 & H2 & H3). split_and!; [done|done|].
    apply IH; [set_solver|set_solver|done].
Qed.

(** Redirect the end of a chain: its last element now leads to [n]. *)
Lemma chain_retarget nx pv a l b n :
  NoDup (a :: l) → n ∉ l → chain nx pv a l b →
  chain (<[pv b := n]> nx) (<[n := pv b]> pv) a l n ∧ pv b ∈ a :: l.
Proof.
  revert a. induction l as [|x l IH]; intros a Hnd Hn; cbn.
  - intros [H1 H2]. rewrite H2, !fn_lookup_insert. set_solver.
  - intros (H1 & H2 & H3). apply NoDup_cons in Hnd as [Ha Hnd].
    destruct (IH x Hnd ltac:(set_solver) H3) as [IH1 IH2].
    rewrite fn_lookup_insert_ne by congruence. rewrite fn_lookup_insert_ne by set_solver.
    split_and!; [done..|by right].
Qed.

Lemma chain_unlink nx pv h l1 b l2 :
  NoDup (h :: l1 ++ b :: l2) → chain nx pv h (l1 ++ b :: l2) h →
  chain (<[pv b := nx b]> nx) (<[nx b := pv b]> pv) h (l1 ++ l2) h.
Proof.
  intros Hnd. rewrite chain_app. intros [H1 H2].
  apply NoDup_cons in Hnd as [Hh Hnd]. apply NoDup_app in Hnd as (Hnd1 & Hd & Hnd2).
  apply NoDup_cons in Hnd2 as [Hb Hnd2].
  assert (NoDup (h :: l1)) as Hnd1' by (constructor; set_solver).
  destruct l2 as [|n l2]; cbn in H2.
  - destruct H2 as [-> H2]. rewrite app_nil_r. apply chain_retarget; set_solver.
  - destruct H2 as (-> & Hp & H2). apply NoDup_cons in Hnd2 as [Hn Hnd2].
    destruct (chain_retarget nx pv h l1 b n Hnd1' ltac:(set_solver) H1) as [H3 Hin].
    rewrite chain_app. split; [done|]. eapply chain_frame; [| |exact H2].
    + intros x Hx. rewrite fn_lookup_insert_ne; [done|]. set_solver.
    + intros x Hx. rewrite fn_lookup_insert_ne; [done|]. set_solver.
Qed.

Lemma chain_link_front nx pv h l b :
  NoDup (h :: l) → b ∉ h :: l → chain nx pv h l h →
  chain (<[h := b]> (<[b := nx h]> nx))
        (<[nx h := b]> (<[b := h]> pv)) h (b :: l) h.
Proof.
  intros Hnd Hb Hc. apply NoDup_cons in Hnd as [Hh Hnd]. cbn.
  rewrite fn_lookup_insert. split; [done|]. destruct l as [|x l]; cbn in Hc.
  - destruct Hc as [-> Hc]. rewrite fn_lookup_insert_ne by set_solver.
    rewrite fn_lookup_insert. split; [done|]. cbn.
    rewrite fn_lookup_insert_ne by set_solver. by rewrite !fn_lookup_insert.
  - destruct Hc as (-> & Hp & Hc). apply NoDup_cons in Hnd as [Hx Hnd].
    rewrite fn_lookup_insert_ne by set_solver. rewrite fn_lookup_insert. split; [done|].
    cbn. rewrite fn_lookup_insert_ne by set_solver. rewrite !fn_lookup_insert.
    split_and!; [done|done|]. eapply chain_frame; [| |exact Hc].
    + intros y Hy. rewrite !fn_lookup_insert_ne by set_solver. done.
    + intros y Hy. rewrite !fn_lookup_insert_ne by set_solver. done.
Qed.

Lemma bscan_chain fuel step nx pv test a l s :
  step (bs_cache s) = nx →
  chain nx pv a l HEAD → HEAD ∉ l → (length l < fuel)%nat →
  bscan fuel step test (nx a) s = Ok (first_ok (λ i, test (getbuf s i)) l) s.
Proof.
  intros Hs. revert fuel a. induction l as [|x l IH]; intros [|fuel] a Hc Hh Hf; try (cbn in Hf; lia);
    cbn [bscan]; cbn in Hc.
  - destruct Hc as [-> _]. by rewrite Z.eqb_refl.
  - destruct Hc as (-> & _ & Hc). destruct (x =? HEAD) eqn:E; [set_solver by lia|].
    unfold bind, get. cbn [first_ok]. destruct (test (getbuf s x)); [done|].
    rewrite Hs. apply IH; [done|set_solver|cbn in Hf; lia].
Qed.

Lemma first_ok_Some test l x : first_ok test l = Some x → x ∈ l ∧ test x = true.
Proof.
  induction l as [|y l IH]; cbn; [done|]. destruct (test y) eqn:E.
  - intros [= ->]. set_solver.
  - intros H. destruct (IH H). set_solver.
Qed.

Lemma first_ok_None test l : first_ok test l = None ↔ ∀ x, x ∈ l → test x = false.
Proof.
  induction l as [|y l IH]; cbn; [set_solver|]. destruct (test y) eqn:E.
  - split; [done|]. intros H. rewrite H in E by set_solver. done.
  - rewrite IH. split; [|set_solver]. intros H x [->|Hx]%elem_of_cons; auto.
Qed.

(** * The abstraction *)

(** Who holds a sleep lock. *)
Definition owner_of (l : sleeplock) : option Z :=
  if sl_locked l =? 0 then None else Some (sl_pid l).

(** A buffer in use carries its block's entry; one not in use is unlocked and,
    if valid, a copy of the disk. *)
Definition buf_ok (dev : Z) (A : abuf Z) (i : Z) (b : buf) : Prop :=
  unlocked (sl_lk (b_lock b)) ∧ 0 ≤ b_refcnt b ≤ rc_max ∧ wf_block (b_data b) ∧
  (b_refcnt b = 0 → sl_locked (b_lock b) = 0 ∧
     (b_dev b = dev → b_valid b ≠ 0 → b_data b = a_disk A (b_blockno b))) ∧
  (b_refcnt b ≠ 0 → b_dev b = dev ∧ b_valid b ≠ 0 ∧
     a_act A !! b_blockno b = Some (mkaent (b_refcnt b) (owner_of (b_lock b)) (b_data b) i)).

Record rep (dev : Z) (A : abuf Z) (s : bstate) : Prop := {
  r_lock : unlocked (bc_lock (bs_cache s));
  r_lru : ∃ order, lru (bc_next (bs_cache s)) (bc_prev (bs_cache s)) order;
  r_len : len (bc_buf (bs_cache s)) = NBUF;
  r_buf : ∀ i, 0 ≤ i < NBUF → buf_ok dev A i (getbuf s i);
  r_act : ∀ b e, a_act A !! b = Some e →
            0 ≤ ae_h e < NBUF ∧ b_blockno (getbuf s (ae_h e)) = b ∧
            b_refcnt (getbuf s (ae_h e)) ≠ 0;
  r_uniq : ∀ i j, 0 ≤ i < NBUF → 0 ≤ j < NBUF →
             b_dev (getbuf s i) = dev → b_dev (getbuf s j) = dev →
             b_blockno (getbuf s i) = b_blockno (getbuf s j) → i = j;
  r_disk : d_blocks (bs_disk s) = a_disk A ∧ d_writes (bs_disk s) = a_writes A;
  r_wf : ∀ b, wf_block (a_disk A b);
}.

Lemma getbuf_set_buf s i j b :
  0 ≤ i < len (bc_buf (bs_cache s)) →
  getbuf (set_buf i b s) j = if decide (i = j) then b else getbuf s j.
Proof. intros Hi. unfold getbuf, set_buf. cbn. by apply znth_zset. Qed.

Section rep.
  Context (dev : Z) (A : abuf Z) (s : bstate) (HR : rep dev A s).

Lemma rep_ent b e :
  a_act A !! b = Some e →
  let x := getbuf s (ae_h e) in
  0 ≤ ae_h e < NBUF ∧ b_blockno x = b ∧ b_dev x = dev ∧ b_valid x ≠ 0 ∧
  unlocked (sl_lk (b_lock x)) ∧ wf_block (b_data x) ∧ 0 < b_refcnt x ≤ rc_max ∧
  ae_rc e = b_refcnt x ∧ ae_owner e = owner_of (b_lock x) ∧ ae_data e = b_data x.
Proof.
  intros Hb x. destruct (r_act _ _ _ HR _ _ Hb) as (Hi & Hbl & Hrc).
  destruct (r_buf _ _ _ HR _ Hi) as (Hl & H0 & Hw & _ & Ha). fold x in Hbl, Hrc, Hl, H0, Hw, Ha.
  specialize (Ha Hrc) as (Hd & Hv & Ha). rewrite Hbl, Hb in Ha. injection Ha as Ha.
  rewrite Ha. split_and!; try done; rewrite <-?Ha; try done; lia.
Qed.

(** A buffer of the device with [b]'s number carries [b]'s entry. *)
Lemma rep_find b e i :
  a_act A !! b = Some e → 0 ≤ i < NBUF →
  b_dev (getbuf s i) = dev → b_blockno (getbuf s i) = b → i = ae_h e.
Proof.
  intros Hb Hi Hd Hn. destruct (rep_ent b e Hb) as (Hh & Hbl & Hd' & _).
  apply (r_uniq _ _ _ HR); congruence.
Qed.

Lemma rep_none b i :
  a_act A !! b = None → 0 ≤ i < NBUF →
  b_dev (getbuf s i) = dev → b_blockno (getbuf s i) = b → b_refcnt (getbuf s i) = 0.
Proof.
  intros Hb Hi Hd Hn. destruct (decide (b_refcnt (getbuf s i) = 0)) as [|Hne]; [done|].
  destruct (r_buf _ _ _ HR i Hi) as (_ & _ & _ & _ & Ha). specialize (Ha Hne) as (_ & _ & Ha).
  congruence.
Qed.

(** Give buffer [i] a new value that is in use. *)
Lemma rep_set i b' bn rc ow d :
  0 ≤ i < NBUF →
  b_dev b' = dev → b_valid b' ≠ 0 → 0 < b_refcnt b' ≤ rc_max →
  unlocked (sl_lk (b_lock b')) → wf_block (b_data b') →
  (∀ j, 0 ≤ j < NBUF → j ≠ i → b_dev (getbuf s j) = dev → b_blockno (getbuf s j) ≠ b_blockno b') →
  b_refcnt (getbuf s i) = 0 ∨ b_blockno (getbuf s i) = b_blockno b' →
  bn = b_blockno b' → rc = b_refcnt b' → ow = owner_of (b_lock b') → d = b_data b' →
  rep dev (a_set bn (mkaent rc ow d i) A) (set_buf i b' s).
Proof.
  intros Hi Hd Hv Hrc Hl Hw Hu Hold -> -> -> ->. destruct HR as [HRl HRo HRn HRb HRa HRu HRd HRw].
  assert (Hg : ∀ j, getbuf (set_buf i b' s) j = if decide (i = j) then b' else getbuf s j)
    by (intros; apply getbuf_set_buf; lia).
  constructor; try done.
  - cbn. by rewrite len_zset.
  - intros j Hj. rewrite Hg. case_decide as E; [subst j|].
    + unfold buf_ok. cbn. rewrite lookup_insert_eq. split_and!; try done; try lia. 
    + destruct (HRb j Hj) as (H1 & H2 & H3 & H4 & H5).
      refine (conj H1 (conj H2 (conj H3 (conj H4 _)))). intros Hrcj.
      destruct (H5 Hrcj) as (Hdj & Hvj & Haj). split_and!; [done..|].
      cbn. rewrite lookup_insert_ne; [done|]. intros Heq. by apply (Hu j Hj ltac:(lia) Hdj).
  - cbn. intros b e. rewrite lookup_insert_Some. intros [[<- <-]|[Hne Hb]]; cbn.
    + rewrite Hg, decide_True by done. split_and!; try done; lia.
    + destruct (HRa _ _ Hb) as (H1 & H2 & H3). rewrite Hg. case_decide as E; [|done].
      subst i. destruct Hold; congruence.
  - intros j k Hj Hk. rewrite !Hg. repeat case_decide; subst; try done; intros.
    + exfalso. eapply (Hu k); [done|lia|done|congruence].
    + exfalso. eapply (Hu j); [done|lia|done|congruence].
    + by apply HRu.
Qed.

(** Buffer [i] goes out of use. *)
Lemma rep_clear i b' :
  0 ≤ i < NBUF → b_refcnt (getbuf s i) ≠ 0 →
  b_dev b' = dev → b_refcnt b' = 0 → b_blockno b' = b_blockno (getbuf s i) →
  unlocked (sl_lk (b_lock b')) → sl_locked (b_lock b') = 0 → wf_block (b_data b') →
  b_data b' = a_disk A (b_blockno b') →
  rep dev (a_del (b_blockno b') A) (set_buf i b' s).
Proof.
  intros Hi Hrc Hd Hrc' Hbl Hl Hf Hw Hc. destruct HR as [HRl HRo HRn HRb HRa HRu HRd HRw].
  assert (Hg : ∀ j, getbuf (set_buf i b' s) j = if decide (i = j) then b' else getbuf s j)
    by (intros; apply getbuf_set_buf; lia).
  assert (Hdi : b_dev (getbuf s i) = dev) by (destruct (HRb i Hi) as (_&_&_&_&Ha); by apply Ha).
  constructor; try done.
  - cbn. by rewrite len_zset.
  - intros j Hj. rewrite Hg. case_decide as E; [subst j|].
    + unfold buf_ok. rewrite Hrc'. split_and!; try done.
    + destruct (HRb j Hj) as (H1 & H2 & H3 & H4 & H5).
      refine (conj H1 (conj H2 (conj H3 (conj H4 _)))). intros Hrcj.
      destruct (H5 Hrcj) as (Hdj & Hvj & Haj). split_and!; [done..|].
      cbn. rewrite lookup_delete_ne; [done|]. rewrite Hbl. intros Heq. by apply E, HRu.
  - cbn. intros b e. rewrite lookup_delete_Some. intros [Hne Hb].
    destruct (HRa _ _ Hb) as (H1 & H2 & H3). rewrite Hg. case_decide as E; [|done]. congruence.
  - intros j k Hj Hk. rewrite !Hg. repeat case_decide; subst; try done; intros.
    + apply HRu; congruence.
    + apply HRu; congruence.
    + by apply HRu.
Qed.

Lemma rep_set_links p n order :
  lru n p order →
  rep dev A (set_links p n s).
Proof.
  intros Hl. destruct HR as [HRl HRo HRn HRb HRa HRu HRd HRw]. constructor; try done.
  by exists order.
Qed.

(** A disk write of a block in use. *)
Lemma rep_write b e :
  a_act A !! b = Some e →
  rep dev (a_wr b (ae_data e) A)
      (set_disk (mkdisk (<[b := ae_data e]> (d_blocks (bs_disk s)))
                        (d_writes (bs_disk s) ++ [(b, ae_data e)])) s).
Proof.
  intros Hb. destruct (rep_ent b e Hb) as (Hi & Hbl & Hd & _ & _ & Hw & Hrc & _ & _ & He).
  assert (Hwe : wf_block (ae_data e)) by (by rewrite He).
  pose proof HR as [HRl HRo HRn HRb HRa HRu HRd HRw]. constructor; try done.
  - intros j Hj. destruct (HRb j Hj) as (H1 & H2 & H3 & H4 & H5).
    refine (conj H1 (conj H2 (conj H3 (conj _ H5)))). intros H0.
    specialize (H4 H0) as [H4 H6]. split; [exact H4|]. intros Hdj Hvj. cbn [a_disk a_wr].
    change (getbuf _ j) with (getbuf s j) in *.
    rewrite fn_lookup_insert_ne; [by apply H6|]. intros Heq.
    assert (ae_h e = j) as <- by (apply HRu; congruence). lia.
  - cbn. destruct HRd as [-> ->]. done.
  - intros b'. cbn. destruct (decide (b = b')) as [->|]; [by rewrite fn_lookup_insert|].
    by rewrite fn_lookup_insert_ne.
Qed.

(** ** Counting the buffers in use *)

Definition handles : list Z := (λ p, ae_h p.2) <$> map_to_list (a_act A).

Lemma handles_elem i : i ∈ handles ↔ 0 ≤ i < NBUF ∧ b_refcnt (getbuf s i) ≠ 0.
Proof.
  unfold handles. rewrite list_elem_of_fmap. split.
  - intros ([b e] & -> & Hb%elem_of_map_to_list). cbn.
    destruct (rep_ent b e Hb) as (Hi & _ & _ & _ & _ & _ & Hrc & _). lia.
  - intros [Hi Hrc]. destruct (r_buf _ _ _ HR i Hi) as (_ & _ & _ & _ & Ha).
    specialize (Ha Hrc) as (_ & _ & Ha). eexists (_, _). split; [|by apply elem_of_map_to_list].
    done.
Qed.

Lemma handles_NoDup : NoDup handles.
Proof.
  unfold handles. apply NoDup_fmap_2_strong; [|apply NoDup_map_to_list].
  intros [b e] [b' e'] Hb%elem_of_map_to_list Hb'%elem_of_map_to_list Heq. cbn in Heq.
  destruct (rep_ent _ _ Hb) as (_ & <- & _). destruct (rep_ent _ _ Hb') as (_ & <- & _).
  rewrite Heq in *. f_equal. destruct (rep_ent _ _ Hb) as (_ & H1 & _).
  destruct (rep_ent _ _ Hb') as (_ & H2 & _). congruence.
Qed.

Lemma handles_len : len handles = Z.of_nat (size (a_act A)).
Proof. unfold handles, len. rewrite length_fmap. by rewrite length_map_to_list. Qed.
End rep.

(** * Running the operations *)

Lemma lru_no_head nx pv order : lru nx pv order → (HEAD ∉ order) ∧ NoDup order ∧ length order = 30%nat.
Proof.
  intros [_ Hp]. split_and!.
  - rewrite Hp, elem_of_zseq. unfold HEAD, NBUF, MAXOPBLOCKS. lia.
  - rewrite Hp. apply NoDup_zseq.
  - rewrite Hp. apply length_zseq.
Qed.

Lemma lru_elem nx pv order i : lru nx pv order → (i ∈ order ↔ 0 ≤ i < NBUF).
Proof. intros [_ Hp]. rewrite Hp, elem_of_zseq. unfold NBUF, MAXOPBLOCKS. lia. Qed.

(** Moving an element to the front keeps the list well formed. *)
Lemma lru_touch nx pv l1 b l2 :
  lru nx pv (l1 ++ b :: l2) →
  let nx1 := <[pv b := nx b]> nx in
  let pv1 := <[nx b := pv b]> pv in
  lru (<[HEAD := b]> (<[b := nx1 HEAD]> nx1)) (<[nx1 HEAD := b]> (<[b := HEAD]> pv1))
      (b :: l1 ++ l2).
Proof.
  intros Hl nx1 pv1. destruct (lru_no_head _ _ _ Hl) as (Hh & Hnd & _). destruct Hl as [Hc Hp].
  assert (NoDup (HEAD :: l1 ++ b :: l2)) as Hnd' by (by constructor).
  pose proof (chain_unlink _ _ _ _ _ _ Hnd' Hc) as Hu.
  assert (NoDup (b :: HEAD :: l1 ++ l2)) as Hnd2.
  { rewrite <-Permutation_middle in Hnd'. by rewrite (Permutation_swap HEAD b). }
  apply NoDup_cons in Hnd2 as [Hb Hnd2]. constructor.
  - by apply chain_link_front.
  - rewrite <-Hp. by rewrite Permutation_middle.
Qed.

Definition hit (dev blockno : Z) (b : buf) : bool := (b_dev b =? dev) && (b_blockno b =? blockno).
Definition unused (b : buf) : bool := b_refcnt b =? 0.

Section run.
  Context (me pid : Z).

Definition taken (s : bstate) : bstate :=
  upd bc_lockL (mkspinlock 1 (lk_name (bc_lock (bs_cache s))) (Some me)) s.

Lemma bc_acquire s :
  unlocked (bc_lock (bs_cache s)) → zoom bc_lockL (acquire_lk me) s = Ok tt (taken s).
Proof. intros Hl. unfold zoom. cbn. by rewrite acquire_lk_ok. Qed.

Lemma bc_release s :
  unlocked (bc_lock (bs_cache s)) → zoom bc_lockL (release_lk me) (taken s) = Ok tt s.
Proof.
  destruct s as [[lk bufs pv nx] dk]. cbn. intros ->%unlocked_eq.
  unfold zoom. cbn. by rewrite release_lk_ok.
Qed.

Lemma bget_eq s order dev b :
  unlocked (bc_lock (bs_cache s)) → lru (bc_next (bs_cache s)) (bc_prev (bs_cache s)) order →
  bget me pid dev b s =
    match first_ok (λ i, hit dev b (getbuf s i)) order with
    | Some i =>
        bind (zoom (buf_lockL i) (acquiresleep me pid (buf_chan i))) (λ _, ret i)
          (set_buf i (with_refcnt (u32 (b_refcnt (getbuf s i) + 1)) (getbuf s i)) s)
    | None =>
        match first_ok (λ i, unused (getbuf s i)) (reverse order) with
        | Some i =>
            bind (zoom (buf_lockL i) (acquiresleep me pid (buf_chan i))) (λ _, ret i)
              (set_buf i (mkbuf 0 dev b (b_lock (getbuf s i)) 1 (b_data (getbuf s i))) s)
        | None => Panic "bget: no buffers"
        end
    end.
Proof.
  intros Hl Ho. destruct (lru_no_head _ _ _ Ho) as (Hh & Hnd & Hlen).
  assert (length order < scan_fuel)%nat as Hf by (rewrite Hlen; apply Nat.ltb_lt; reflexivity).
  destruct Ho as [Hc Hp]. unfold bget. step_by (bc_acquire s Hl).
  set (s1 := taken s).
  step_by (bscan_chain scan_fuel bc_next _ _ (hit dev b) HEAD order s1 eq_refl Hc Hh Hf).
  change (first_ok (λ i, hit dev b (getbuf s1 i)) order)
    with (first_ok (λ i, hit dev b (getbuf s i)) order).
  destruct (first_ok _ order) as [i|].
  - run. step_by (bc_release (set_buf i (with_refcnt (u32 (b_refcnt (getbuf s i) + 1)) (getbuf s i)) s) Hl).
    done.
  - assert (HEAD ∉ reverse order) as Hh' by (by rewrite elem_of_reverse).
    assert (length (reverse order) < scan_fuel)%nat as Hf' by (by rewrite length_reverse).
    apply chain_rev in Hc. run.
    step_by (bscan_chain scan_fuel bc_prev _ _ unused HEAD (reverse order) s1 eq_refl Hc Hh' Hf').
    change (first_ok (λ i, unused (getbuf s1 i)) (reverse order))
      with (first_ok (λ i, unused (getbuf s i)) (reverse order)).
    destruct (first_ok _ (reverse order)) as [i|]; [|done].
    run. by step_by (bc_release (set_buf i (mkbuf 0 dev b (b_lock (getbuf s i)) 1 (b_data (getbuf s i))) s) Hl).
Qed.

Lemma holdingsleep_run s i :
  unlocked (sl_lk (b_lock (getbuf s i))) → 0 ≤ i < len (bc_buf (bs_cache s)) →
  zoom (buf_lockL i) (holdingsleep me pid) s =
    Ok (bool_decide (owner_of (b_lock (getbuf s i)) = Some pid)) s.
Proof.
  intros Hu Hi. unfold zoom. cbn [view upd buf_lockL]. rewrite holdingsleep_ok by done.
  f_equal.
  - unfold owner_of. destruct (Z.eqb_spec (sl_locked (b_lock (getbuf s i))) 0) as [H|H]; cbn.
    + by rewrite bool_decide_eq_false_2.
    + destruct (Z.eqb_spec (sl_pid (b_lock (getbuf s i))) pid) as [->|]; cbn.
      * by rewrite bool_decide_eq_true_2.
      * rewrite bool_decide_eq_false_2; congruence.
  - destruct s as [[lk bufs pv nx] dk]. unfold set_buf, getbuf, set_cache. cbn in *. repeat f_equal.
    transitivity (zset bufs i (znth buf0 bufs i)); [|by apply zset_same].
    f_equal. by destruct (znth buf0 bufs i).
Qed.

Lemma bpin_run i s :
  unlocked (bc_lock (bs_cache s)) →
  bpin me i s = Ok tt (set_buf i (with_refcnt (u32 (b_refcnt (getbuf s i) + 1)) (getbuf s i)) s).
Proof.
  intros Hl. unfold bpin. step_by (bc_acquire s Hl).
  apply (bc_release (set_buf i _ s) Hl).
Qed.

Lemma bunpin_run i s :
  unlocked (bc_lock (bs_cache s)) →
  bunpin me i s = Ok tt (set_buf i (with_refcnt (u32 (b_refcnt (getbuf s i) - 1)) (getbuf s i)) s).
Proof.
  intros Hl. unfold bunpin. step_by (bc_acquire s Hl).
  apply (bc_release (set_buf i _ s) Hl).
Qed.

Lemma getbuf_taken s i : getbuf (taken s) i = getbuf s i.
Proof. done. Qed.

Lemma set_taken i b s : set_buf i b (taken s) = taken (set_buf i b s).
Proof. done. Qed.

Lemma set_buf_set_buf i b1 b2 s : set_buf i b2 (set_buf i b1 s) = set_buf i b2 s.
Proof. unfold set_buf, set_cache. cbn. by rewrite zset_zset. Qed.

(** The list operations of [brelse] when the last reference goes away. *)
Definition touch (b : Z) (s : bstate) : bstate :=
  let nx := bc_next (bs_cache s) in
  let pv := bc_prev (bs_cache s) in
  let nx1 := <[pv b := nx b]> nx in
  let pv1 := <[nx b := pv b]> pv in
  set_links (<[nx1 HEAD := b]> (<[b := HEAD]> pv1)) (<[HEAD := b]> (<[b := nx1 HEAD]> nx1)) s.

Lemma unlink_link_front b s :
  bc_next (bs_cache s) b ≠ b → b ≠ HEAD →
  bind (unlink b) (λ _, link_front b) s = Ok tt (touch b s).
Proof.
  intros H1 H2. destruct s as [[lk bufs pv nx] dk]. cbn in *.
  unfold unlink, link_front, bind, modify, touch, set_links, set_cache. cbn.
  rewrite (fn_lookup_insert_ne pv (nx b) b) by done.
  by rewrite (fn_lookup_insert_ne (<[pv b:=nx b]> nx) b HEAD) by done.
Qed.

Lemma brelse_run i s :
  unlocked (bc_lock (bs_cache s)) → unlocked (sl_lk (b_lock (getbuf s i))) →
  0 ≤ i < len (bc_buf (bs_cache s)) → bc_next (bs_cache s) i ≠ i → i ≠ HEAD →
  owner_of (b_lock (getbuf s i)) = Some pid →
  let b := getbuf s i in
  let rc := u32 (b_refcnt b - 1) in
  let s1 := set_buf i (with_refcnt rc (with_lock (set_sl 0 0 (b_lock b)) b)) s in
  brelse me pid i s = Ok tt (if rc =? 0 then touch i s1 else s1).
Proof.
  intros Hl Hu Hi Hn Hh Ho b rc s1. unfold brelse.
  erewrite bind_ok by (by apply holdingsleep_run). rewrite bool_decide_eq_true_2 by done. cbn [negb].
  assert (Hrel : zoom (buf_lockL i) (releasesleep me (buf_chan i)) s =
    Ok tt (set_buf i (with_lock (set_sl 0 0 (b_lock b)) b) s)).
  { unfold zoom. cbn. by rewrite releasesleep_ok. }
  step_by Hrel. step_by (bc_acquire (set_buf i (with_lock (set_sl 0 0 (b_lock b)) b) s) Hl).
  rewrite !set_taken, !getbuf_taken, !set_buf_set_buf, !getbuf_set_buf, !decide_True by done.
  fold s1. cbn [b_refcnt with_refcnt with_lock]. fold rc. destruct (rc =? 0).
  - assert (Ht : bind (unlink i) (λ _, link_front i) (taken s1) = Ok tt (taken (touch i s1)))
      by (by rewrite unlink_link_front).
    step_by Ht. by apply bc_release.
  - run. by apply bc_release.
Qed.

(** What [bread] leaves in a buffer it has locked. *)
Definition filled (s : bstate) (x : buf) : buf :=
  if b_valid x =? 0
  then with_valid 1 (with_data (d_blocks (bs_disk s) (b_blockno x)) x) else x.

Definition grabbed (l : sleeplock) : sleeplock := mksleeplock 1 (sl_lk l) (sl_name l) pid.

(** [bread] once [bget] has chosen buffer [i], which is free. *)
Lemma bread_tail dev b s i x :
  0 ≤ i < len (bc_buf (bs_cache s)) → sl_free (b_lock x) →
  bget me pid dev b s =
    bind (zoom (buf_lockL i) (acquiresleep me pid (buf_chan i))) (λ _, ret i) (set_buf i x s) →
  bread me pid dev b s = Ok i (set_buf i (filled s (with_lock (grabbed (b_lock x)) x)) s).
Proof.
  intros Hi Hf Hg. set (x1 := with_lock (grabbed (b_lock x)) x).
  assert (Ha : zoom (buf_lockL i) (acquiresleep me pid (buf_chan i)) (set_buf i x s) =
               Ok tt (set_buf i x1 s)).
  { unfold zoom. cbn [view upd buf_lockL]. rewrite getbuf_set_buf, decide_True by done.
    rewrite acquiresleep_ok by done. by rewrite set_buf_set_buf. }
  rewrite (bind_ok _ _ _ _ _ Ha) in Hg. unfold bread. step_by Hg.
  rewrite getbuf_set_buf, decide_True by done. unfold filled. destruct (b_valid x1 =? 0) eqn:E; [|done].
  unfold virtio_disk_rw. run.
  rewrite !set_buf_set_buf, !getbuf_set_buf, !decide_True by done. done.
Qed.

(** [bread] once [bget] has chosen buffer [i], which is held. *)
Lemma bread_tail_held dev b s i x :
  0 ≤ i < len (bc_buf (bs_cache s)) → unlocked (sl_lk (b_lock x)) → sl_locked (b_lock x) ≠ 0 →
  bget me pid dev b s =
    bind (zoom (buf_lockL i) (acquiresleep me pid (buf_chan i))) (λ _, ret i) (set_buf i x s) →
  bread me pid dev b s = Sleep (buf_chan i) (set_buf i x s).
Proof.
  intros Hi Hu Hl Hg.
  assert (Ha : zoom (buf_lockL i) (acquiresleep me pid (buf_chan i)) (set_buf i x s) =
               Sleep (buf_chan i) (set_buf i x s)).
  { unfold zoom. cbn [view upd buf_lockL]. rewrite getbuf_set_buf, decide_True by done.
    rewrite acquiresleep_sleeps by done. rewrite set_buf_set_buf. by destruct x. }
  rewrite (bind_sleep _ _ _ _ _ Ha) in Hg. unfold bread. by rewrite (bind_sleep _ _ _ _ _ Hg).
Qed.
End run.

(** * The cache meets its specification *)

Section laws.
  Context (me pid dev : Z) (A : abuf Z) (s : bstate) (HR : rep dev A s).

Lemma scan_hit order b e :
  lru (bc_next (bs_cache s)) (bc_prev (bs_cache s)) order → a_act A !! b = Some e →
  first_ok (λ i, hit dev b (getbuf s i)) order = Some (ae_h e).
Proof.
  intros Ho Hb. destruct (rep_ent _ _ _ HR _ _ Hb) as (Hi & Hbl & Hd & _).
  destruct (first_ok _ order) as [i|] eqn:E.
  - apply first_ok_Some in E as [Hin Ht]. unfold hit in Ht. apply andb_true_iff in Ht as [H1 H2].
    f_equal. eapply rep_find; [done|done|by eapply lru_elem|lia|lia].
  - rewrite first_ok_None in E. specialize (E (ae_h e) ltac:(by eapply lru_elem)).
    unfold hit in E. by rewrite Hbl, Hd, !Z.eqb_refl in E.
Qed.

(** A change of a buffer in use that keeps its identity. *)
Lemma rep_change b e x' rc ow d :
  a_act A !! b = Some e →
  b_dev x' = dev → b_blockno x' = b → b_valid x' ≠ 0 → 0 < b_refcnt x' ≤ rc_max →
  unlocked (sl_lk (b_lock x')) → wf_block (b_data x') →
  rc = b_refcnt x' → ow = owner_of (b_lock x') → d = b_data x' →
  rep dev (a_set b (mkaent rc ow d (ae_h e)) A) (set_buf (ae_h e) x' s).
Proof.
  intros Hb Hd Hbl Hv Hrc Hu Hw -> -> ->. destruct (rep_ent _ _ _ HR _ _ Hb) as (Hi & Hbl' & _).
  apply rep_set; try done.
  - intros j Hj Hne Hdj. rewrite Hbl. intros Hbj. apply Hne. by eapply rep_find.
  - right. congruence.
Qed.

Lemma rc_up b e :
  a_act A !! b = Some e → ae_rc e < rc_max →
  u32 (b_refcnt (getbuf s (ae_h e)) + 1) = ae_rc e + 1 ∧ 0 < ae_rc e.
Proof.
  intros Hb Hrc. destruct (rep_ent _ _ _ HR _ _ Hb) as (_ & _ & _ & _ & _ & _ & H & He & _).
  rewrite He in *. rewrite u32_id; unfold rc_max in *; lia.
Qed.

Lemma rc_down b e :
  a_act A !! b = Some e → u32 (b_refcnt (getbuf s (ae_h e)) - 1) = ae_rc e - 1 ∧ ae_rc e ≤ rc_max.
Proof.
  intros Hb. destruct (rep_ent _ _ _ HR _ _ Hb) as (_ & _ & _ & _ & _ & _ & H & He & _).
  rewrite He in *. rewrite u32_id; unfold rc_max in *; lia.
Qed.

Lemma owner_none l : owner_of l = None → sl_locked l = 0.
Proof. unfold owner_of. by destruct (Z.eqb_spec (sl_locked l) 0). Qed.

Lemma owner_held l : owner_of l ≠ None → sl_locked l ≠ 0.
Proof. unfold owner_of. by destruct (Z.eqb_spec (sl_locked l) 0). Qed.

Lemma law_bread_hit b e :
  a_act A !! b = Some e → ae_owner e = None → ae_rc e < rc_max →
  ∃ s', bread me pid dev b s = Ok (ae_h e) s' ∧
        rep dev (a_set b (mkaent (ae_rc e + 1) (Some pid) (ae_data e) (ae_h e)) A) s'.
Proof.
  intros Hb Ho Hrc. destruct (r_lru _ _ _ HR) as [order Hl]. destruct (rc_up _ _ Hb Hrc) as [Hr H0].
  destruct (rep_ent _ _ _ HR _ _ Hb) as (Hi & Hbl & Hd & Hv & Hu & Hw & _ & _ & Ho' & He).
  rewrite Ho' in Ho. apply owner_none in Ho.
  set (x := getbuf s (ae_h e)) in *. eexists. split.
  - apply (bread_tail me pid dev b s (ae_h e) (with_refcnt (u32 (b_refcnt x + 1)) x)).
    + by rewrite (r_len _ _ _ HR).
    + done.
    + rewrite (bget_eq _ _ _ order) by (done || apply HR). by rewrite (scan_hit order b e).
  - unfold filled. cbn [b_valid with_lock with_refcnt]. destruct (b_valid x =? 0) eqn:E; [lia|].
    rewrite Hr. apply rep_change; cbn; try done; lia.
Qed.

Lemma law_bread_held b e :
  a_act A !! b = Some e → ae_owner e ≠ None → ae_rc e < rc_max →
  ∃ chan s', bread me pid dev b s = Sleep chan s' ∧
    rep dev (a_set b (mkaent (ae_rc e + 1) (ae_owner e) (ae_data e) (ae_h e)) A) s'.
Proof.
  intros Hb Ho Hrc. destruct (r_lru _ _ _ HR) as [order Hl]. destruct (rc_up _ _ Hb Hrc) as [Hr H0].
  destruct (rep_ent _ _ _ HR _ _ Hb) as (Hi & Hbl & Hd & Hv & Hu & Hw & _ & _ & Ho' & He).
  rewrite Ho' in Ho. apply owner_held in Ho.
  set (x := getbuf s (ae_h e)) in *. eexists _, _. split.
  - apply (bread_tail_held me pid dev b s (ae_h e) (with_refcnt (u32 (b_refcnt x + 1)) x)).
    + by rewrite (r_len _ _ _ HR).
    + done.
    + done.
    + rewrite (bget_eq _ _ _ order) by (done || apply HR). by rewrite (scan_hit order b e).
  - rewrite Hr. apply rep_change; cbn; try done; lia.
Qed.

(** An unused buffer [i] is given to block [b] and filled. *)
Lemma rep_fill i b x :
  0 ≤ i < NBUF → b_refcnt (getbuf s i) = 0 →
  b_dev x = dev → b_blockno x = b → b_refcnt x = 1 → unlocked (sl_lk (b_lock x)) →
  (b_valid x ≠ 0 → b_data x = a_disk A b) →
  (∀ j, 0 ≤ j < NBUF → j ≠ i → b_dev (getbuf s j) = dev → b_blockno (getbuf s j) ≠ b) →
  rep dev (a_set b (mkaent 1 (Some pid) (a_disk A b) i) A)
      (set_buf i (filled s (with_lock (grabbed pid (b_lock x)) x)) s).
Proof.
  intros Hi Hrc Hd <- Hr Hu Hv Hj. destruct (r_disk _ _ _ HR) as [Hdk _].
  unfold filled. destruct (b_valid _ =? 0) eqn:E; cbn in E.
  - apply (rep_set dev A s HR); cbn; rewrite ?Hdk, ?Hr; try done; try apply HR. by left.
  - apply (rep_set dev A s HR); cbn; rewrite ?Hdk, ?Hr; try done; try lia.
    + rewrite Hv by lia. apply HR.
    + by rewrite Hv by lia.
Qed.

(** A block not in use: a stale copy is taken over, or a buffer recycled. *)
Lemma law_bread_miss b :
  a_act A !! b = None → Z.of_nat (size (a_act A)) < NBUF →
  ∃ h s', bread me pid dev b s = Ok h s' ∧
          rep dev (a_set b (mkaent 1 (Some pid) (a_disk A b) h) A) s'.
Proof.
  intros Hb Hsz. destruct (r_lru _ _ _ HR) as [order Hl].
  assert (Hbg := bget_eq me pid s order dev b (r_lock _ _ _ HR) Hl).
  assert (Hin : ∀ i, i ∈ order ↔ 0 ≤ i < NBUF) by (intros; by eapply lru_elem).
  destruct (first_ok (λ i, hit dev b (getbuf s i)) order) as [i|] eqn:E1.
  - apply first_ok_Some in E1 as [Hi Ht]. apply andb_true_iff in Ht as [Hd Hbl].
    apply Hin in Hi.
    assert (Hrc : b_refcnt (getbuf s i) = 0) by (eapply rep_none; try done; lia).
    destruct (r_buf _ _ _ HR i Hi) as (Hu & _ & Hw & H0 & _). destruct (H0 Hrc) as [Hf Hc].
    rewrite Hrc in Hbg. exists i. eexists. split.
    + by apply (bread_tail me pid dev b s i _ ltac:(by rewrite (r_len _ _ _ HR))) in Hbg.
    + apply rep_fill; cbn; try done; try lia.
      * intros Hv. rewrite Hc by (done || lia). f_equal. lia.
      * intros j Hj Hne Hdj Hbj. apply Hne. apply (r_uniq _ _ _ HR); try done; lia.
  - destruct (first_ok (λ i, unused (getbuf s i)) (reverse order)) as [i|] eqn:E2.
    + apply first_ok_Some in E2 as [Hi Ht]. unfold unused in Ht.
      rewrite elem_of_reverse in Hi. apply Hin in Hi.
      destruct (r_buf _ _ _ HR i Hi) as (Hu & _ & Hw & H0 & _). destruct (H0 ltac:(lia)) as [Hf _].
      exists i. eexists. split.
      * by apply (bread_tail me pid dev b s i _ ltac:(by rewrite (r_len _ _ _ HR))) in Hbg.
      * apply rep_fill; cbn; try done; try lia.
        intros j Hj Hne Hdj Hbj. rewrite first_ok_None in E1.
        specialize (E1 j ltac:(by apply Hin)). unfold hit in E1. lia.
    + exfalso. rewrite first_ok_None in E2. rewrite <-(handles_len A) in Hsz.
      apply pigeon_free in Hsz as (i & Hi & Hni). apply Hni, (handles_elem _ _ _ HR).
      split; [done|]. specialize (E2 i ltac:(by rewrite elem_of_reverse, Hin)).
      unfold unused in E2. lia.
Qed.

Lemma law_bread_full b :
  a_act A !! b = None → Z.of_nat (size (a_act A)) = NBUF →
  bread me pid dev b s = Panic "bget: no buffers".
Proof.
  intros Hb Hsz. destruct (r_lru _ _ _ HR) as [order Hl].
  assert (Hin : ∀ i, i ∈ order ↔ 0 ≤ i < NBUF) by (intros; by eapply lru_elem).
  assert (Hall : ∀ i, 0 ≤ i < NBUF → b_refcnt (getbuf s i) ≠ 0).
  { intros i Hi. rewrite <-(handles_len A) in Hsz.
    eapply (handles_elem _ _ _ HR). eapply pigeon_full; try done.
    - by eapply handles_NoDup.
    - intros x Hx. by eapply (handles_elem _ _ _ HR). }
  unfold bread. erewrite bind_panic; [done|].
  rewrite (bget_eq me pid s order dev b (r_lock _ _ _ HR) Hl).
  destruct (first_ok (λ i, hit dev b (getbuf s i)) order) as [i|] eqn:E1.
  - apply first_ok_Some in E1 as [Hi Ht]. apply andb_true_iff in Ht as [Hd Hbl]. apply Hin in Hi.
    exfalso. apply (Hall i Hi). eapply rep_none; try done; lia.
  - destruct (first_ok (λ i, unused (getbuf s i)) (reverse order)) as [i|] eqn:E2; [|done].
    apply first_ok_Some in E2 as [Hi Ht]. rewrite elem_of_reverse in Hi.
    exfalso. apply (Hall i); [by apply Hin|]. unfold unused in Ht. lia.
Qed.

Lemma law_bwrite b e :
  a_act A !! b = Some e → ae_owner e = Some pid →
  ∃ s', bwrite me pid (ae_h e) s = Ok tt s' ∧ rep dev (a_wr b (ae_data e) A) s'.
Proof.
  intros Hb Ho. destruct (rep_ent _ _ _ HR _ _ Hb) as (Hi & Hbl & Hd & Hv & Hu & Hw & _ & _ & Ho' & He).
  eexists. split; [|by apply rep_write].
  unfold bwrite. step_by (holdingsleep_run me pid s (ae_h e) Hu ltac:(by rewrite (r_len _ _ _ HR))).
  rewrite <-Ho', bool_decide_eq_true_2 by done. cbn [negb]. unfold virtio_disk_rw. run.
  by rewrite Hbl, He.
Qed.

Lemma lru_self b order : 
  lru (bc_next (bs_cache s)) (bc_prev (bs_cache s)) order → 0 ≤ b < NBUF → bc_next (bs_cache s) b ≠ b.
Proof.
  intros Hl Hb Heq. destruct (lru_no_head _ _ _ Hl) as (Hh & Hnd & Hlen).
  assert (Hin : b ∈ order) by (by eapply lru_elem).
  apply list_elem_of_split in Hin as (l1 & l2 & ->). destruct Hl as [Hc _].
  apply chain_app in Hc as [_ Hc]. apply NoDup_app in Hnd as (_ & _ & Hnd).
  apply NoDup_cons in Hnd as [Hnd _]. destruct l2 as [|y l2]; cbn in Hc.
  - unfold HEAD, NBUF, MAXOPBLOCKS in *. lia.
  - destruct Hc as (<- & _). rewrite Heq in Hnd. apply Hnd. left.
Qed.
End laws.

Section release.
  Context (me pid dev : Z) (A : abuf Z) (s : bstate) (HR : rep dev A s).

Lemma brelse_state b e :
  a_act A !! b = Some e → ae_owner e = Some pid →
  let x := getbuf s (ae_h e) in
  let s1 := set_buf (ae_h e) (with_refcnt (ae_rc e - 1) (with_lock (set_sl 0 0 (b_lock x)) x)) s in
  brelse me pid (ae_h e) s = Ok tt (if ae_rc e =? 1 then touch (ae_h e) s1 else s1).
Proof.
  intros Hb Ho x s1. destruct (rep_ent _ _ _ HR _ _ Hb) as (Hi & _ & _ & _ & Hu & _ & _ & _ & Ho' & _).
  destruct (r_lru _ _ _ HR) as [order Hl]. destruct (rc_down _ _ _ HR _ _ Hb) as [Hr _].
  pose proof (brelse_run me pid (ae_h e) s (r_lock _ _ _ HR) Hu) as H.
  cbv zeta in H. rewrite Hr in H. fold x in H. fold s1 in H. rewrite H.
  - f_equal. destruct (Z.eqb_spec (ae_rc e - 1) 0), (Z.eqb_spec (ae_rc e) 1); done || lia.
  - by rewrite (r_len _ _ _ HR).
  - by eapply lru_self.
  - unfold HEAD, NBUF, MAXOPBLOCKS in *. lia.
  - subst x. congruence.
Qed.

Lemma law_brelse_more b e :
  a_act A !! b = Some e → ae_owner e = Some pid → 1 < ae_rc e →
  ∃ s', brelse me pid (ae_h e) s = Ok tt s' ∧
        rep dev (a_set b (mkaent (ae_rc e - 1) None (ae_data e) (ae_h e)) A) s'.
Proof.
  intros Hb Ho Hrc. rewrite (brelse_state b e Hb Ho). eexists. split; [done|].
  destruct (Z.eqb_spec (ae_rc e) 1); [lia|].
  destruct (rep_ent _ _ _ HR _ _ Hb) as (Hi & Hbl & Hd & Hv & Hu & Hw & Hr & Hr' & Ho' & He).
  apply rep_change; cbn; try done; lia.
Qed.

Lemma rep_touch A' s1 b : rep dev A' s1 → 0 ≤ b < NBUF → rep dev A' (touch b s1).
Proof.
  intros HR' Hb. destruct (r_lru _ _ _ HR') as [order Hl].
  assert (Hin : b ∈ order) by (by eapply lru_elem).
  apply list_elem_of_split in Hin as (l1 & l2 & ->).
  eapply rep_set_links; [done|]. by apply lru_touch.
Qed.

Lemma law_brelse_last b e :
  a_act A !! b = Some e → ae_owner e = Some pid → ae_rc e = 1 → ae_data e = a_disk A b →
  ∃ s', brelse me pid (ae_h e) s = Ok tt s' ∧ rep dev (a_del b A) s'.
Proof.
  intros Hb Ho Hrc Hc. rewrite (brelse_state b e Hb Ho). eexists. split; [done|].
  rewrite Hrc. cbn [Z.eqb Pos.eqb Z.sub Z.add Z.opp Z.pos_sub].
  destruct (rep_ent _ _ _ HR _ _ Hb) as (Hi & Hbl & Hd & Hv & Hu & Hw & Hr & Hr' & Ho' & He).
  apply rep_touch; [|done]. rewrite <-Hbl. 
  apply (rep_clear dev A s HR (ae_h e) (with_refcnt 0 (with_lock _ _))); cbn; try done; try lia. congruence.
Qed.
End release.

#[export] Program Instance bio_spec (me pid dev : Z) :
    BufCacheSpec bstate Z (BC := bio_cache me pid) dev pid := {
  c_rep := rep dev;
}.
Next Obligation.
  intros me pid dev A s HR. rewrite <-(handles_len A). apply pigeon_le; [done| |].
  - by eapply handles_NoDup.
  - intros x Hx. by eapply (handles_elem _ _ _ HR).
Qed.
Next Obligation. intros me pid dev A s b e HR Hb. destruct (rep_ent _ _ _ HR _ _ Hb) as (_&_&_&_&_&_&?&?&_). lia. Qed.
Next Obligation. intros me pid dev A s b HR. apply HR. Qed.
Next Obligation.
  intros me pid dev A s b e HR Hb. destruct (rep_ent _ _ _ HR _ _ Hb) as (_&_&_&_&_&?&_&_&_&?). congruence.
Qed.
Next Obligation.
  intros me pid dev A s b e HR Hb. destruct (rep_ent _ _ _ HR _ _ Hb) as (_&?&_&_&_&_&_&_&_&?). done.
Qed.
Next Obligation. intros me pid dev A s b e HR. apply (law_bread_hit me pid dev A s HR). Qed.
Next Obligation. intros me pid dev A s b HR. apply (law_bread_miss me pid dev A s HR). Qed.
Next Obligation. intros me pid dev A s b HR. apply (law_bread_full me pid dev A s HR). Qed.
Next Obligation. intros me pid dev A s b e HR. apply (law_bread_held me pid dev A s HR). Qed.
Next Obligation.
  intros me pid dev A s b e d HR Hb Ho Hw. eexists. split; [done|].
  destruct (rep_ent _ _ _ HR _ _ Hb) as (Hi & Hbl & Hd & Hv & Hu & _ & Hr & Hr' & Ho' & He).
  by apply (rep_change dev A s HR).
Qed.
Next Obligation. intros me pid dev A s b e HR. apply (law_bwrite me pid dev A s HR). Qed.
Next Obligation. intros me pid dev A s b e HR. apply (law_brelse_more me pid dev A s HR). Qed.
Next Obligation. intros me pid dev A s b e HR. apply (law_brelse_last me pid dev A s HR). Qed.
Next Obligation.
  intros me pid dev A s b e HR Hb Hrc. eexists. split; [by apply bpin_run, HR|].
  destruct (rc_up dev A s HR b e Hb Hrc) as [-> ?].
  destruct (rep_ent _ _ _ HR _ _ Hb) as (Hi & Hbl & Hd & Hv & Hu & Hw & Hr & Hr' & Ho' & He).
  apply (rep_change dev A s HR); cbn; try done; lia.
Qed.
Next Obligation.
  intros me pid dev A s b e HR Hb Hrc. eexists. split; [by apply bunpin_run, HR|].
  destruct (rc_down dev A s HR b e Hb) as [-> ?].
  destruct (rep_ent _ _ _ HR _ _ Hb) as (Hi & Hbl & Hd & Hv & Hu & Hw & Hr & Hr' & Ho' & He).
  apply (rep_change dev A s HR); cbn; try done; lia.
Qed.

(** * Initialisation *)

(** The cache as the loader leaves it: no buffer has been used. *)
Definition blank (s : bstate) : Prop :=
  len (bc_buf (bs_cache s)) = NBUF ∧
  (∀ i, 0 ≤ i < NBUF → b_refcnt (getbuf s i) = 0 ∧ b_dev (getbuf s i) = 0 ∧ wf_block (b_data (getbuf s i))) ∧
  (∀ b, wf_block (d_blocks (bs_disk s) b)).

Definition binit_inv (dk : disk) (i : Z) (s : bstate) : Prop :=
  blank s ∧ bs_disk s = dk ∧ unlocked (bc_lock (bs_cache s)) ∧
  chain (bc_next (bs_cache s)) (bc_prev (bs_cache s)) HEAD (reverse (zseq 0 (Z.to_nat i))) HEAD ∧
  (∀ j, 0 ≤ j < i → b_lock (getbuf s j) = initsleeplock "buffer").

Lemma binit_inv_step dk i s :
  binit_inv dk i s → 0 ≤ i < NBUF →
  let nx := bc_next (bs_cache s) in
  let pv := bc_prev (bs_cache s) in
  binit_inv dk (i + 1)
    (set_buf i (with_lock (initsleeplock "buffer") (getbuf s i))
       (set_links (<[nx HEAD := i]> (<[i := HEAD]> pv)) (<[HEAD := i]> (<[i := nx HEAD]> nx)) s)).
Proof.
  intros ((Hlen & Hb & Hw) & Hdk & Hl & Hc & Hi) Hr nx pv. set (s1 := set_links _ _ s).
  assert (Hg : ∀ j x, getbuf (set_buf i x s1) j = if decide (i = j) then x else getbuf s j)
    by (intros; apply (getbuf_set_buf s1); cbn; lia).
  unfold binit_inv, blank. split_and!; try done.
  - cbn. by rewrite len_zset.
  - intros j Hj. rewrite Hg. case_decide; [subst; by apply Hb|by apply Hb].
  - replace (Z.to_nat (i + 1)) with (S (Z.to_nat i)) by lia. rewrite zseq_snoc, reverse_snoc.
    rewrite Z2Nat.id, Z.add_0_l by lia. apply chain_link_front; [| |done].
    + constructor; [|rewrite (reverse_Permutation (zseq _ _)); apply NoDup_zseq].
      rewrite elem_of_reverse, elem_of_zseq. unfold HEAD. lia.
    + rewrite elem_of_cons, elem_of_reverse, elem_of_zseq. unfold HEAD. lia.
  - intros j Hj. rewrite Hg. case_decide; [done|]. apply Hi. lia.
Qed.

Lemma binit_run s :
  blank s → returns binit s (λ _ s', binit_inv (bs_disk s) NBUF s').
Proof.
  intros Hb. unfold binit. eapply returns_step; [done|]. eapply returns_step; [done|].
  apply returns_bind. apply (for_up_inv (binit_inv (bs_disk s))).
  - unfold binit_inv. split_and!; try done. intros j Hj. lia.
  - intros i s1 Hi HI. repeat (eapply returns_step; [done|]). apply returns_ret.
    apply (binit_inv_step _ i s1) in HI; [|done].
    destruct s1 as [[lk bufs pv nx] dk1]. unfold set_buf, set_links, set_cache, getbuf in *.
    cbn [bs_cache bs_disk bc_lock bc_buf bc_prev bc_next] in *.
    rewrite (fn_lookup_insert_ne nx i HEAD) by (unfold HEAD; lia). exact HI.
  - done.
Qed.

Lemma binit_inv_rep dev dk s :
  dev ≠ 0 → binit_inv dk NBUF s →
  rep dev (mkabuf ∅ (d_blocks dk) (d_writes dk)) s ∧
  lru (bc_next (bs_cache s)) (bc_prev (bs_cache s)) (reverse (zseq 0 (Z.to_nat NBUF))).
Proof.
  intros Hdev ((Hlen & Hz & Hw) & <- & Hl & Hc & Hlk).
  assert (Ho : lru (bc_next (bs_cache s)) (bc_prev (bs_cache s)) (reverse (zseq 0 (Z.to_nat NBUF))))
    by (split; [done|apply reverse_Permutation]).
  split; [|done]. constructor; cbn; try done.
  - eauto.
  - intros i Hi. destruct (Hz i Hi) as (H1 & H2 & H3). unfold buf_ok.
    rewrite H1, H2, Hlk by done. split_and!; try done.
  - intros i j Hi Hj H. destruct (Hz i Hi) as (_ & H2 & _). lia.
Qed.

(** [binit] turns the blank cache into one that represents the empty set of
    blocks in use over the disk as it is, with all the buffers on the list in
    the order the loop leaves them. *)
Theorem binit_spec dev s :
  dev ≠ 0 → blank s →
  ∃ s', binit s = Ok tt s' ∧
    rep dev (mkabuf ∅ (d_blocks (bs_disk s)) (d_writes (bs_disk s))) s' ∧
    lru (bc_next (bs_cache s')) (bc_prev (bs_cache s')) (reverse (zseq 0 (Z.to_nat NBUF))).
Proof.
  intros Hdev Hb. pose proof (binit_run s Hb) as H.
  apply returns_ok in H as ([] & s' & Hrun & HI). exists s'. split; [done|].
  by apply binit_inv_rep.
Qed.

(** The machine at power-on, over a given disk. *)
Definition boot_bufs (dk : Z → block) : bstate :=
  mkbstate (mkbcache (initlock "") (replicate 30 buf0) (λ _, 0) (λ _, 0)) (mkdisk dk []).

Definition zero_disk : Z → block := λ _, replicate 1024 0.

Lemma blank_boot dk : (∀ b, wf_block (dk b)) → blank (boot_bufs dk).
Proof.
  intros Hdk. pose proof wf_zero_block as Hw. split_and!; [done| |done]. intros i Hi. unfold getbuf. cbn [bs_cache boot_bufs bc_buf].
  assert (znth buf0 (replicate 30 buf0) i = buf0) as ->; [|done].
  apply znth_lookup; [lia|]. apply lookup_replicate_2.
  unfold NBUF, MAXOPBLOCKS in Hi. lia.
Qed.

Lemma binit_spec_witness :
  ∃ s', binit (boot_bufs zero_disk) = Ok tt s' ∧ rep 1 (mkabuf ∅ zero_disk []) s'.
Proof.
  destruct (binit_spec 1 (boot_bufs zero_disk)) as (s' & H1 & H2 & _);
    [lia|apply blank_boot; intros; apply wf_zero_block|].
  exists s'. split; [exact H1|exact H2].
Defined.

(** * Theorems *)

(** C35: What [bread] does, in every case.  A block in use that nobody holds
    comes back in its one buffer, with its contents, held by the caller, one
    reference more; a block in use that is held puts the caller to sleep with a
    reference taken; a block not in use is read from the disk as long as a
    buffer is free; when none is, [bget] panics. *)
Theorem bread_spec me pid dev A s b :
  rep dev A s →
  (∀ e, a_act A !! b = Some e → ae_rc e < rc_max) →
  match a_act A !! b with
  | Some e =>
      match ae_owner e with
      | None => ∃ s', bread me pid dev b s = Ok (ae_h e) s' ∧
          bdata (ae_h e) s' = ae_data e ∧
          rep dev (a_set b (mkaent (ae_rc e + 1) (Some pid) (ae_data e) (ae_h e)) A) s'
      | Some _ => ∃ chan s', bread me pid dev b s = Sleep chan s' ∧
          rep dev (a_set b (mkaent (ae_rc e + 1) (ae_owner e) (ae_data e) (ae_h e)) A) s'
      end
  | None =>
      if Z.of_nat (size (a_act A)) <? NBUF
      then ∃ h s', bread me pid dev b s = Ok h s' ∧ bdata h s' = a_disk A b ∧
             rep dev (a_set b (mkaent 1 (Some pid) (a_disk A b) h) A) s'
      else bread me pid dev b s = Panic "bget: no buffers"
  end.
Proof.
  intros HR Hrc.
  assert (Hdata : ∀ A' s' e, rep dev A' s' → a_act A' !! b = Some e → bdata (ae_h e) s' = ae_data e).
  { intros A' s' e HR' Hb. by apply (rep_data (BufCacheSpec := bio_spec me pid dev) A' s' b e HR'). }
  destruct (a_act A !! b) as [e|] eqn:Hb.
  - specialize (Hrc e eq_refl). destruct (ae_owner e) as [p|] eqn:Ho.
    + rewrite <-Ho. apply (law_bread_held me pid dev A s HR); congruence.
    + destruct (law_bread_hit me pid dev A s HR b e Hb Ho Hrc) as (s' & Hs & HR').
      exists s'. split_and!; [done| |done].
      apply (Hdata _ _ (mkaent (ae_rc e + 1) (Some pid) (ae_data e) (ae_h e)) HR').
      apply lookup_insert_eq.
  - destruct (Z.ltb_spec (Z.of_nat (size (a_act A))) NBUF) as [Hsz|Hsz].
    + destruct (law_bread_miss me pid dev A s HR b Hb Hsz) as (h & s' & Hs & HR').
      exists h, s'. split_and!; [done| |done].
      apply (Hdata _ _ (mkaent 1 (Some pid) (a_disk A b) h) HR'). apply lookup_insert_eq.
    + apply (law_bread_full me pid dev A s HR); [done|].
      pose proof (rep_size (BufCacheSpec := bio_spec me pid dev) A s HR). lia.
Qed.

Lemma bread_spec_witness :
  ∃ s0 h s', binit (boot_bufs zero_disk) = Ok tt s0 ∧
    bread 0 7 1 46 s0 = Ok h s' ∧ bdata h s' = replicate 1024 0.
Proof.
  pose proof (binit_run (boot_bufs zero_disk) (blank_boot _ (λ _, wf_zero_block))) as H.
  apply returns_ok in H as ([] & s0 & Hrun & HI).
  destruct (binit_inv_rep 1 _ s0 ltac:(lia) HI) as [HR _].
  destruct (bread_spec 0 7 1 _ s0 46 HR) as (h & s' & H1 & H2 & _); [done|].
  exists s0, h, s'. split_and!; [exact Hrun|exact H1|exact H2].
Defined.

(** Replacement is least recently used.  A block with no buffer gets the
    unused buffer nearest the tail of the list, the one released longest ago;
    releasing the last reference of a block moves its buffer to the head and
    leaves the order of the others unchanged. *)
Theorem lru_replacement me pid dev A s order :
  rep dev A s → lru (bc_next (bs_cache s)) (bc_prev (bs_cache s)) order →
  (∀ b, (∀ i, 0 ≤ i < NBUF → hit dev b (getbuf s i) = false) →
     match first_ok (λ i, unused (getbuf s i)) (reverse order) with
     | Some i => ∃ s', bread me pid dev b s = Ok i s'
     | None => bread me pid dev b s = Panic "bget: no buffers"
     end) ∧
  (∀ b e l1 l2, a_act A !! b = Some e → ae_owner e = Some pid → ae_rc e = 1 →
     order = l1 ++ ae_h e :: l2 →
     ∃ s', brelse me pid (ae_h e) s = Ok tt s' ∧
       lru (bc_next (bs_cache s')) (bc_prev (bs_cache s')) (ae_h e :: l1 ++ l2)).
Proof.
  intros HR Hl. split.
  - intros b Hno. assert (Hbg := bget_eq me pid s order dev b (r_lock _ _ _ HR) Hl).
    rewrite (proj2 (first_ok_None _ order)) in Hbg
      by (intros i Hi; apply Hno; by eapply lru_elem).
    destruct (first_ok _ (reverse order)) as [i|] eqn:E2.
    + apply first_ok_Some in E2 as [Hi Ht]. rewrite elem_of_reverse in Hi.
      apply (lru_elem _ _ _ _ Hl) in Hi. unfold unused in Ht.
      destruct (r_buf _ _ _ HR i Hi) as (Hu & _ & _ & H0 & _). destruct (H0 ltac:(lia)) as [Hf _].
      apply (bread_tail me pid dev b s i _ ltac:(by rewrite (r_len _ _ _ HR))) in Hbg; eauto.
      done.
    + unfold bread. by rewrite (bind_panic _ _ _ _ Hbg).
  - intros b e l1 l2 Hb Ho Hrc ->. rewrite (brelse_state me pid dev A s HR b e Hb Ho).
    rewrite Hrc. eexists. split; [done|]. by apply lru_touch.
Qed.

Lemma lru_replacement_witness :
  ∃ s0 s', binit (boot_bufs zero_disk) = Ok tt s0 ∧ bread 0 7 1 46 s0 = Ok 0 s'.
Proof.
  pose proof (binit_run (boot_bufs zero_disk) (blank_boot _ (λ _, wf_zero_block))) as H.
  apply returns_ok in H as ([] & s0 & Hrun & HI).
  destruct (binit_inv_rep 1 _ s0 ltac:(lia) HI) as [HR Ho].
  destruct (lru_replacement 0 7 1 _ s0 _ HR Ho) as [H _].
  destruct HI as ((_ & Hz & _) & _).
  specialize (H 46). rewrite reverse_involutive in H.
  change (zseq 0 (Z.to_nat NBUF)) with (0 :: zseq 1 29) in H. cbn [first_ok] in H.
  unfold unused in H at 1. destruct (Hz 0) as (Hz0 & _); [done|]. rewrite Hz0 in H. cbn in H.
  destruct H as [s' Hs'].
  - intros i Hi. unfold hit. by destruct (Hz i Hi) as (_ & -> & _).
  - by exists s0, s'.
Defined.
