(* ===== verification/Log.v ===== *)
(** kernel/log.c: the write-ahead log.

    The operations are written against the buffer-cache interface of BufSpec.v:
    a state is a cache state and the in-memory [struct log].  The theorems hold
    for any implementation of the interface, in particular for kernel/bio.c
    (instance [bio_spec] of Bio.v), with which the witnesses are run.

    [durable] describes the disks from which recovery produces given contents:
    either the header is empty and the home locations have them, or the header
    and the log blocks describe the rest of them.  The crash theorems say that
    after any prefix of the disk writes of [commit] the disk is durable for the
    contents before the transaction or for those after it, and that after any
    prefix of the disk writes of a recovery it is still durable for the same
    contents; recovery of a durable disk succeeds and installs them. *)

From stdpp Require Import base tactics list numbers strings gmap functions sets relations.
From S2P Require Import Prelude Param Bytes Spinlock BufSpec TxSpec Bio.
From Stdlib Require Import ZArith Lia.

Open Scope kernel_scope.

(** * Data *)

(** [struct log], with the fields of [struct logheader] in line. *)
Record log := mklog {
  l_lock : spinlock;
  l_start : Z;
  l_outstanding : Z;
  l_committing : Z;
  l_dev : Z;
  l_n : Z;
  l_block : list Z;
}.

Definition set_l_lock (k : spinlock) (l : log) : log :=
  mklog k (l_start l) (l_outstanding l) (l_committing l) (l_dev l) (l_n l) (l_block l).
Definition set_l_start (z : Z) (l : log) : log :=
  mklog (l_lock l) z (l_outstanding l) (l_committing l) (l_dev l) (l_n l) (l_block l).
Definition set_l_outstanding (z : Z) (l : log) : log :=
  mklog (l_lock l) (l_start l) z (l_committing l) (l_dev l) (l_n l) (l_block l).
Definition set_l_committing (z : Z) (l : log) : log :=
  mklog (l_lock l) (l_start l) (l_outstanding l) z (l_dev l) (l_n l) (l_block l).
Definition set_l_dev (z : Z) (l : log) : log :=
  mklog (l_lock l) (l_start l) (l_outstanding l) (l_committing l) z (l_n l) (l_block l).
Definition set_l_n (z : Z) (l : log) : log :=
  mklog (l_lock l) (l_start l) (l_outstanding l) (l_committing l) (l_dev l) z (l_block l).
Definition set_l_block (bs : list Z) (l : log) : log :=
  mklog (l_lock l) (l_start l) (l_outstanding l) (l_committing l) (l_dev l) (l_n l) bs.

Record lstate (C : Type) := mklstate {
  ls_cache : C;
  ls_log : log;
}.
Arguments mklstate {C} _ _.
Arguments ls_cache {C} _.
Arguments ls_log {C} _.

Definition cacheL {C} : lens (lstate C) C :=
  Lens ls_cache (λ c s, mklstate c (ls_log s)).
Definition logL {C} : lens (lstate C) log :=
  Lens ls_log (λ l s, mklstate (ls_cache s) l).
Definition log_lockL {C} : lens (lstate C) spinlock :=
  Lens (λ s, l_lock (ls_log s)) (λ k s, mklstate (ls_cache s) (set_l_lock k (ls_log s))).

(** The wait channel [&log]. *)
Definition log_chan : Z := 1000.

(** [struct logheader] inside a block: [n], then [block[]], 4 bytes each. *)
Definition hdr_n (d : list Z) : Z := s32 (blk_load 4 d 0).
Definition hdr_block (d : list Z) (i : Z) : Z := s32 (blk_load 4 d (Z.to_nat (4 + 4 * i))).
Definition hdr_set_n (d : list Z) (v : Z) : list Z := blk_store 4 d 0 v.
Definition hdr_set_block (d : list Z) (i v : Z) : list Z :=
  blk_store 4 d (Z.to_nat (4 + 4 * i)) v.

Definition SIZEOF_LOGHEADER : Z := 4 + 4 * LOGBLOCKS.

Section log.
  Context {C H : Type} `{BC : BufCache C H}.
  Context (me : Z).

(** * Operations *)

(** [bread(log.dev, blockno)]; both arguments become [uint]. *)
Definition log_bread (blockno : Z) : M (lstate C) H :=
  s <- get ;;
  zoom cacheL (c_bread (u32 (l_dev (ls_log s))) (u32 blockno)).

Definition install_trans (recovering : bool) : M (lstate C) unit :=
  s <- get ;;
  for_up (R := unit) (Z.to_nat (l_n (ls_log s))) 0 (λ tail,
    s <- get ;;
    lbuf <- log_bread (s32 (l_start (ls_log s) + tail + 1)) ;;
    in_bounds tail LOGBLOCKS ;;
    dbuf <- log_bread (znth 0 (l_block (ls_log s)) tail) ;;
    s <- get ;;
    zoom cacheL (c_setdata dbuf (c_data lbuf (ls_cache s))) ;;
    zoom cacheL (c_bwrite dbuf) ;;
    (if recovering then ret tt else zoom cacheL (c_bunpin dbuf)) ;;
    zoom cacheL (c_brelse lbuf) ;;
    zoom cacheL (c_brelse dbuf) ;;
    ret Next) ;;
  ret tt.

Definition read_head : M (lstate C) unit :=
  s <- get ;;
  buf <- log_bread (l_start (ls_log s)) ;;
  s <- get ;;
  let lh := c_data buf (ls_cache s) in
  zoom logL (modify (set_l_n (hdr_n lh))) ;;
  for_up (R := unit) (Z.to_nat (hdr_n lh)) 0 (λ i,
    in_bounds i LOGBLOCKS ;;
    zoom logL (modify (λ l, set_l_block (zset (l_block l) i (hdr_block lh i)) l)) ;;
    ret Next) ;;
  zoom cacheL (c_brelse buf).

Definition write_head : M (lstate C) unit :=
  s <- get ;;
  buf <- log_bread (l_start (ls_log s)) ;;
  s <- get ;;
  zoom cacheL (c_setdata buf (hdr_set_n (c_data buf (ls_cache s)) (l_n (ls_log s)))) ;;
  for_up (R := unit) (Z.to_nat (l_n (ls_log s))) 0 (λ i,
    in_bounds i LOGBLOCKS ;;
    s <- get ;;
    zoom cacheL (c_setdata buf (hdr_set_block (c_data buf (ls_cache s)) i
                                  (znth 0 (l_block (ls_log s)) i))) ;;
    ret Next) ;;
  zoom cacheL (c_bwrite buf) ;;
  zoom cacheL (c_brelse buf).

Definition recover_from_log : M (lstate C) unit :=
  read_head ;;
  install_trans true ;;
  zoom logL (modify (set_l_n 0)) ;;
  write_head.

Definition initlog (dev logstart : Z) : M (lstate C) unit :=
  if BSIZE <=? SIZEOF_LOGHEADER then panic "initlog: too big logheader"
  else
    zoom logL (modify (set_l_lock (initlock "log"))) ;;
    zoom logL (modify (set_l_start (s32 logstart))) ;;
    zoom logL (modify (set_l_dev dev)) ;;
    recover_from_log.

(** One round of the loop of [begin_op]; a process that sleeps runs it again. *)
Definition begin_op : M (lstate C) unit :=
  zoom log_lockL (acquire_lk me) ;;
  s <- get ;;
  let l := ls_log s in
  if negb (l_committing l =? 0) then sleep_on log_lockL me log_chan
  else if LOGBLOCKS <? l_n l + (l_outstanding l + 1) * MAXOPBLOCKS
  then sleep_on log_lockL me log_chan
  else
    zoom logL (modify (λ l, set_l_outstanding (l_outstanding l + 1) l)) ;;
    zoom log_lockL (release_lk me).

Definition write_log : M (lstate C) unit :=
  s <- get ;;
  for_up (R := unit) (Z.to_nat (l_n (ls_log s))) 0 (λ tail,
    s <- get ;;
    to <- log_bread (s32 (l_start (ls_log s) + tail + 1)) ;;
    in_bounds tail LOGBLOCKS ;;
    from <- log_bread (znth 0 (l_block (ls_log s)) tail) ;;
    s <- get ;;
    zoom cacheL (c_setdata to (c_data from (ls_cache s))) ;;
    zoom cacheL (c_bwrite to) ;;
    zoom cacheL (c_brelse from) ;;
    zoom cacheL (c_brelse to) ;;
    ret Next) ;;
  ret tt.

Definition commit : M (lstate C) unit :=
  s <- get ;;
  if 0 <? l_n (ls_log s)
  then
    write_log ;;
    write_head ;;
    install_trans false ;;
    zoom logL (modify (set_l_n 0)) ;;
    write_head
  else ret tt.

Definition end_op : M (lstate C) unit :=
  zoom log_lockL (acquire_lk me) ;;
  zoom logL (modify (λ l, set_l_outstanding (l_outstanding l - 1) l)) ;;
  s <- get ;;
  if negb (l_committing (ls_log s) =? 0) then panic "log.committing"
  else
    do_commit <- (if l_outstanding (ls_log s) =? 0
                  then zoom logL (modify (set_l_committing 1)) ;; ret true
                  else wakeup log_chan ;; ret false) ;;
    zoom log_lockL (release_lk me) ;;
    if (do_commit : bool)
    then
      commit ;;
      zoom log_lockL (acquire_lk me) ;;
      zoom logL (modify (set_l_committing 0)) ;;
      wakeup log_chan ;;
      zoom log_lockL (release_lk me)
    else ret tt.

Definition log_write (b : H) : M (lstate C) unit :=
  zoom log_lockL (acquire_lk me) ;;
  s <- get ;;
  if LOGBLOCKS <=? l_n (ls_log s) then panic "too big a transaction"
  else if l_outstanding (ls_log s) <? 1 then panic "log_write outside of trans"
  else
    let blockno := c_blockno b (ls_cache s) in
    r <- for_up (Z.to_nat (l_n (ls_log s))) 0 (λ i,
           s <- get ;;
           in_bounds i LOGBLOCKS ;;
           if u32 (znth 0 (l_block (ls_log s)) i) =? blockno then ret (Stop i) else ret Next) ;;
    let i := match r with Some i => i | None => l_n (ls_log s) end in
    in_bounds i LOGBLOCKS ;;
    zoom logL (modify (λ l, set_l_block (zset (l_block l) i (s32 blockno)) l)) ;;
    (if i =? l_n (ls_log s)
     then
       zoom cacheL (c_bpin b) ;;
       zoom logL (modify (λ l, set_l_n (l_n l + 1) l))
     else ret tt) ;;
    zoom log_lockL (release_lk me).

End log.

(** * Reasoning over the abstract cache

    [wp m A l Q]: from any cache that represents [A], with the log record [l],
    [m] returns, and its result, the new abstract cache and the new log record
    satisfy [Q].  The rules below are the laws of [BufCacheSpec] in this form. *)

Section wp.
  Context {C H : Type} `{BC : BufCache C H} (dev pid : Z) `{BCS : !BufCacheSpec C H dev pid}.
  Implicit Types (A : abuf H) (c : C) (l : log).

Definition wp {R} (m : M (lstate C) R) A l (Q : R → abuf H → log → Prop) : Prop :=
  ∀ c, c_rep A c →
    returns m (mklstate c l) (λ r s', ∃ A', c_rep A' (ls_cache s') ∧ Q r A' (ls_log s')).

Lemma wp_run {R} (m : M (lstate C) R) A l Q c :
  wp m A l Q → c_rep A c →
  ∃ r c' A' l', m (mklstate c l) = Ok r (mklstate c' l') ∧ c_rep A' c' ∧ Q r A' l'.
Proof.
  intros Hw HR. apply (Hw c) in HR. apply returns_ok in HR as (r & [c' l'] & Hm & A' & HR & HQ).
  by exists r, c', A', l'.
Qed.

Lemma wp_ret {R} (r : R) A l (Q : R → abuf H → log → Prop) : Q r A l → wp (ret r) A l Q.
Proof. intros HQ c HR. apply returns_ret. by exists A. Qed.

Lemma wp_bind {R T} (m : M (lstate C) R) (k : R → M (lstate C) T) A l Q :
  wp m A l (λ r A' l', wp (k r) A' l' Q) → wp (bind m k) A l Q.
Proof.
  intros Hm c HR. apply returns_bind. eapply returns_conseq; [by apply Hm|].
  intros r [c' l'] (A' & HR' & Hk). by apply Hk.
Qed.

Lemma wp_assoc {R T U} (m : M (lstate C) R) (f : R → M (lstate C) T) (g : T → M (lstate C) U) A l Q :
  wp (bind m (λ a, bind (f a) g)) A l Q → wp (bind (bind m f) g) A l Q.
Proof. intros Hw c HR. specialize (Hw c HR). unfold returns in *. by rewrite bind_assoc. Qed.

Lemma wp_conseq {R} (m : M (lstate C) R) A l (Q Q' : R → abuf H → log → Prop) :
  wp m A l Q → (∀ r A' l', Q r A' l' → Q' r A' l') → wp m A l Q'.
Proof.
  intros Hm HQ c HR. eapply returns_conseq; [by apply Hm|]. intros r s' (A' & HR' & HQ').
  exists A'. auto.
Qed.

Lemma wp_wf {R} (m : M (lstate C) R) A l (Q : R → abuf H → log → Prop) :
  wp m A l (λ r A' l', (∀ b, wf_block (a_disk A' b)) → Q r A' l') → wp m A l Q.
Proof.
  intros Hm c HR. eapply returns_conseq; [by apply Hm|]. intros r s' (A' & HR' & HQ).
  exists A'. split; [done|]. apply HQ. intros b. by eapply rep_wf.
Qed.

Lemma wp_get {T} (k : lstate C → M (lstate C) T) A l Q :
  (∀ c, c_rep A c → wp (k (mklstate c l)) A l Q) → wp (bind get k) A l Q.
Proof. intros Hk c HR. eapply returns_step; [done|]. by apply (Hk c HR). Qed.

Lemma wp_skip {R T} (r : R) (k : R → M (lstate C) T) A l Q : wp (k r) A l Q → wp (bind (ret r) k) A l Q.
Proof. intros Hk. exact Hk. Qed.

Lemma wp_log {T} (f : log → log) (k : unit → M (lstate C) T) A l Q :
  wp (k tt) A (f l) Q → wp (bind (zoom logL (modify f)) k) A l Q.
Proof. intros Hk c HR. eapply returns_step; [done|]. by apply (Hk c HR). Qed.

Lemma wp_in_bounds {T} i n (k : unit → M (lstate C) T) A l Q :
  0 ≤ i < n → wp (k tt) A l Q → wp (bind (in_bounds i n) k) A l Q.
Proof. intros Hi Hk c HR. eapply returns_step; [by apply in_bounds_ok|]. by apply (Hk c HR). Qed.

Lemma wp_acquire {T} me (k : unit → M (lstate C) T) A l Q :
  unlocked (l_lock l) →
  wp (k tt) A (set_l_lock (mkspinlock 1 (lk_name (l_lock l)) (Some me)) l) Q →
  wp (bind (zoom log_lockL (acquire_lk me)) k) A l Q.
Proof.
  intros Hl Hk c HR. eapply returns_step; [|by apply (Hk c HR)].
  unfold zoom. cbn. by rewrite acquire_lk_ok.
Qed.

Lemma wp_release me n A l (Q : unit → abuf H → log → Prop) :
  l_lock l = mkspinlock 1 n (Some me) → Q tt A (set_l_lock (mkspinlock 0 n None) l) →
  wp (zoom log_lockL (release_lk me)) A l Q.
Proof.
  intros Hl HQ c HR. unfold returns, zoom. cbn. rewrite Hl, release_lk_ok. by exists A.
Qed.

(** A cache operation with a law, followed by more code. *)
Lemma wp_cache {R T} (m : M C R) (k : R → M (lstate C) T) A l Q :
  (∀ c, c_rep A c → ∃ r c' A', m c = Ok r c' ∧ c_rep A' c' ∧ wp (k r) A' l Q) →
  wp (bind (zoom cacheL m) k) A l Q.
Proof.
  intros Hm c HR. destruct (Hm c HR) as (r & c' & A' & Hr & HR' & Hk).
  eapply returns_step; [by apply zoom_ok|]. by apply (Hk c' HR').
Qed.

Lemma wp_tail (m : M (lstate C) unit) A l Q :
  wp (bind m (λ _, ret tt)) A l Q → wp m A l Q.
Proof.
  intros Hw c HR. specialize (Hw c HR). unfold returns, bind, ret in *. by destruct (m _) as [[]| | | |].
Qed.

Section rules.
  Context {T : Type} (A : abuf H) (l : log) (Q : T → abuf H → log → Prop).

Lemma wp_bread_miss b (k : H → M (lstate C) T) :
  l_dev l = dev → 0 ≤ dev < 4294967296 → 0 ≤ b < 4294967296 →
  a_act A !! b = None → Z.of_nat (size (a_act A)) < NBUF →
  (∀ h, wp (k h) (a_set b (mkaent 1 (Some pid) (a_disk A b) h) A) l Q) →
  wp (bind (log_bread b) k) A l Q.
Proof.
  intros Hd Hdr Hb Ha Hsz Hk. apply wp_assoc, wp_get. intros c0 _.
  cbn [ls_log]. rewrite Hd, !u32_id by done. apply wp_cache. intros c HR.
  destruct (bread_miss A c b HR Ha Hsz) as (h & c' & Hr & HR'). eauto 10.
Qed.

Lemma wp_bread_hit b e (k : H → M (lstate C) T) :
  l_dev l = dev → 0 ≤ dev < 4294967296 → 0 ≤ b < 4294967296 →
  a_act A !! b = Some e → ae_owner e = None → ae_rc e < rc_max →
  wp (k (ae_h e)) (a_set b (mkaent (ae_rc e + 1) (Some pid) (ae_data e) (ae_h e)) A) l Q →
  wp (bind (log_bread b) k) A l Q.
Proof.
  intros Hd Hdr Hb Ha Ho Hrc Hk. apply wp_assoc, wp_get. intros c0 _.
  cbn [ls_log]. rewrite Hd, !u32_id by done. apply wp_cache. intros c HR.
  destruct (bread_hit A c b e HR Ha Ho Hrc) as (c' & Hr & HR'). eauto 10.
Qed.

Context (k : unit → M (lstate C) T).

Lemma wp_setdata b e h d :
  a_act A !! b = Some e → h = ae_h e → ae_owner e = Some pid → wf_block d →
  wp (k tt) (a_set b (mkaent (ae_rc e) (ae_owner e) d (ae_h e)) A) l Q →
  wp (bind (zoom cacheL (c_setdata h d)) k) A l Q.
Proof.
  intros Ha -> Ho Hd Hk. apply wp_cache. intros c HR.
  destruct (setdata_ok A c b e d HR Ha Ho Hd) as (c' & Hr & HR'). eauto 10.
Qed.

Lemma wp_bwrite b e h :
  a_act A !! b = Some e → h = ae_h e → ae_owner e = Some pid →
  wp (k tt) (a_wr b (ae_data e) A) l Q → wp (bind (zoom cacheL (c_bwrite h)) k) A l Q.
Proof.
  intros Ha -> Ho Hk. apply wp_cache. intros c HR.
  destruct (bwrite_ok A c b e HR Ha Ho) as (c' & Hr & HR'). eauto 10.
Qed.

Lemma wp_brelse_more b e h :
  a_act A !! b = Some e → h = ae_h e → ae_owner e = Some pid → 1 < ae_rc e →
  wp (k tt) (a_set b (mkaent (ae_rc e - 1) None (ae_data e) (ae_h e)) A) l Q →
  wp (bind (zoom cacheL (c_brelse h)) k) A l Q.
Proof.
  intros Ha -> Ho Hrc Hk. apply wp_cache. intros c HR.
  destruct (brelse_more A c b e HR Ha Ho Hrc) as (c' & Hr & HR'). eauto 10.
Qed.

Lemma wp_brelse_last b e h :
  a_act A !! b = Some e → h = ae_h e → ae_owner e = Some pid → ae_rc e = 1 →
  ae_data e = a_disk A b → wp (k tt) (a_del b A) l Q →
  wp (bind (zoom cacheL (c_brelse h)) k) A l Q.
Proof.
  intros Ha -> Ho Hrc Hd Hk. apply wp_cache. intros c HR.
  destruct (brelse_last A c b e HR Ha Ho Hrc Hd) as (c' & Hr & HR'). eauto 10.
Qed.

Lemma wp_bpin b e h :
  a_act A !! b = Some e → h = ae_h e → ae_rc e < rc_max →
  wp (k tt) (a_set b (mkaent (ae_rc e + 1) (ae_owner e) (ae_data e) (ae_h e)) A) l Q →
  wp (bind (zoom cacheL (c_bpin h)) k) A l Q.
Proof.
  intros Ha -> Hrc Hk. apply wp_cache. intros c HR.
  destruct (bpin_ok A c b e HR Ha Hrc) as (c' & Hr & HR'). eauto 10.
Qed.

Lemma wp_bunpin b e h :
  a_act A !! b = Some e → h = ae_h e → 1 < ae_rc e →
  wp (k tt) (a_set b (mkaent (ae_rc e - 1) (ae_owner e) (ae_data e) (ae_h e)) A) l Q →
  wp (bind (zoom cacheL (c_bunpin h)) k) A l Q.
Proof.
  intros Ha -> Hrc Hk. apply wp_cache. intros c HR.
  destruct (bunpin_ok A c b e HR Ha Hrc) as (c' & Hr & HR'). eauto 10.
Qed.
End rules.

(** The rule for a search loop. *)
Lemma wp_find {T} (f : Z → bool) (body : Z → M (lstate C) (ctl Z)) n (k : option Z → M (lstate C) T) A l Q :
  (∀ i c, 0 ≤ i < n → c_rep A c →
     body i (mklstate c l) = Ok (if f i then Stop i else Next) (mklstate c l)) →
  wp (k (zfind f (Z.to_nat n) 0)) A l Q →
  wp (bind (for_up (Z.to_nat n) 0 body) k) A l Q.
Proof.
  intros Hb Hk c HR. eapply returns_step; [apply for_up_find; intros; apply Hb; [lia|done]|].
  by apply Hk.
Qed.

(** The loop rule, for loops without [break]. *)
Lemma wp_for {R T} (I : Z → abuf H → log → Prop) n body (k : option R → M (lstate C) T) A l Q :
  0 ≤ n → I 0 A l →
  (∀ i A l, 0 ≤ i < n → I i A l →
     wp (body i) A l (λ r A' l', r = Next ∧ I (i + 1) A' l')) →
  (∀ A l, I n A l → wp (k None) A l Q) →
  wp (bind (for_up (Z.to_nat n) 0 body) k) A l Q.
Proof.
  intros Hn HI Hbody Hk. apply wp_bind. intros c HR.
  apply (for_up_inv (λ i s, ∃ A, c_rep A (ls_cache s) ∧ I i A (ls_log s))).
  - by exists A.
  - intros i [c1 l1] Hi (A1 & HR1 & HI1). cbn in *.
    eapply returns_conseq; [apply (Hbody i A1 l1 ltac:(lia) HI1 c1 HR1)|].
    intros r s' (A' & HR' & -> & HI'). by exists A'.
  - intros [c1 l1] (A1 & HR1 & HI1). exists A1. split; [done|]. apply Hk.
    rewrite Z2Nat.id in HI1 by done. exact HI1.
Qed.
End wp.

Lemma abuf_eq {H} (A A' : abuf H) :
  a_act A = a_act A' → a_disk A = a_disk A' → a_writes A = a_writes A' → A = A'.
Proof. destruct A, A'. cbn. by intros -> -> ->. Qed.

(** Equality of the finite maps that the operations build. *)
Ltac map_lookups :=
  repeat match goal with
  | |- context [<[?x := _]> _ !! ?x] => rewrite lookup_insert_eq
  | |- context [delete ?x _ !! ?x] => rewrite lookup_delete_eq
  | H : ?x ≠ ?k |- context [<[?x := _]> _ !! ?k] => rewrite (lookup_insert_ne _ _ _ _ H)
  | H : ?x ≠ ?k |- context [delete ?x _ !! ?k] => rewrite (lookup_delete_ne _ _ _ H)
  | |- context [<[?x := _]> _ !! ?k] => destruct (decide (x = k)); [subst k|]
  | |- context [delete ?x _ !! ?k] => destruct (decide (x = k)); [subst k|]
  end.
Ltac map_cases := apply map_eq; intros ?k; map_lookups; try first [done | congruence].

(** * The log area *)

Section area.
  Context (dev start : Z).

(** The log at rest, of device [dev] at block [start]. *)
Record log_ok (l : log) : Prop := {
  lo_lock : unlocked (l_lock l);
  lo_start : l_start l = start;
  lo_dev : l_dev l = dev;
  lo_len : len (l_block l) = LOGBLOCKS;
  lo_n : 0 ≤ l_n l ≤ LOGBLOCKS;
}.

(** The log area and the device number fit the C types. *)
Definition area_ok : Prop := 0 ≤ start ∧ start + LOGBLOCKS < 2147483648 ∧ 0 ≤ dev < 4294967296.

(** A block that can be logged: not one of the log itself. *)
Definition home (b : Z) : Prop := 0 ≤ b < 2147483648 ∧ (b < start ∨ start + LOGBLOCKS < b).

(** The block numbers of a log record, and of a header on disk. *)
Definition logged (l : log) : list Z := take (Z.to_nat (l_n l)) (l_block l).
Definition hdr_list (d : list Z) : list Z := hdr_block d <$> zseq 0 (Z.to_nat (hdr_n d)).

(** The disk after some writes. *)
Definition apply_writes (ws : list (Z * list Z)) (dk : Z → list Z) : Z → list Z :=
  foldl (λ d w, <[w.1 := w.2]> d) dk ws.

(** Recovery of the disk [dk] gives the home blocks the contents [D]. *)
Definition durable (dk D : Z → list Z) : Prop :=
  0 ≤ hdr_n (dk start) ≤ LOGBLOCKS ∧
  (∀ i, 0 ≤ i < hdr_n (dk start) →
     home (hdr_block (dk start) i) ∧ dk (start + i + 1) = D (hdr_block (dk start) i)) ∧
  (∀ b, home b → b ∉ hdr_list (dk start) → dk b = D b).

(** The header is empty: nothing is waiting to be installed. *)
Definition clean (dk D : Z → list Z) : Prop :=
  hdr_n (dk start) = 0 ∧ ∀ b, home b → dk b = D b.

Lemma elem_of_hdr_list d b : b ∈ hdr_list d ↔ ∃ i, 0 ≤ i < hdr_n d ∧ b = hdr_block d i.
Proof.
  unfold hdr_list. rewrite list_elem_of_fmap. split.
  - intros (i & -> & Hi%elem_of_zseq). exists i. split; [lia|done].
  - intros (i & Hi & ->). exists i. rewrite elem_of_zseq. split; [done|lia].
Qed.

Lemma clean_durable dk D : clean dk D → durable dk D.
Proof.
  intros [Hn Hh]. unfold durable. rewrite Hn. split_and!; try (unfold LOGBLOCKS, MAXOPBLOCKS; lia).
  auto.
Qed.

Lemma apply_writes_snoc ws w dk : apply_writes (ws ++ [w]) dk = <[w.1 := w.2]> (apply_writes ws dk).
Proof. unfold apply_writes. by rewrite foldl_app. Qed.

(** The writes made since the disk was [dk0], after each of which [P] held. *)
Definition traced {H} (dk0 : Z → list Z) (ws0 : list (Z * list Z)) (P : (Z → list Z) → Prop)
    (A : abuf H) : Prop :=
  ∃ W, a_writes A = ws0 ++ W ∧ a_disk A = apply_writes W dk0 ∧
    ∀ W', W' `prefix_of` W → P (apply_writes W' dk0).

Lemma traced_nil {H} P (A : abuf H) : P (a_disk A) → traced (a_disk A) (a_writes A) P A.
Proof.
  intros HP. exists []. rewrite app_nil_r. split_and!; [done..|].
  intros W' ->%prefix_nil_inv. done.
Qed.

Lemma traced_wr {H} dk0 ws0 P (A : abuf H) b d :
  traced dk0 ws0 P A → P (<[b := d]> (a_disk A)) → traced dk0 ws0 P (a_wr b d A).
Proof.
  intros (W & H1 & H2 & H3) HP. exists (W ++ [(b, d)]).
  rewrite apply_writes_snoc, <-H2. cbn. rewrite H1, app_assoc. split_and!; [done..|].
  intros W' [HW'| ->]%prefix_snoc_inv; [by apply H3|]. by rewrite apply_writes_snoc, <-H2.
Qed.

Lemma traced_eq {H H'} dk0 ws0 P (A : abuf H) (A' : abuf H') :
  a_disk A' = a_disk A → a_writes A' = a_writes A → traced dk0 ws0 P A → traced dk0 ws0 P A'.
Proof. intros H1 H2 (W & H3 & H4 & H5). exists W. by rewrite H1, H2. Qed.

(** ** The header block *)

Lemma wf_block_store d off v : wf_block d → (off + 4 ≤ 1024)%nat → wf_block (blk_store 4 d off v).
Proof.
  intros [Hl Hb] Ho. split.
  - rewrite length_blk_store; lia.
  - apply is_bytes_blk_write; [done|apply is_bytes_le_enc].
Qed.

Lemma s32_mod v : -2147483648 ≤ v < 2147483648 → s32 (v mod 256 ^ Z.of_nat 4) = v.
Proof. intros Hv. change (256 ^ Z.of_nat 4) with 4294967296. unfold s32. dlia. Qed.

Lemma hdr_n_set_n d v : wf_block d → -2147483648 ≤ v < 2147483648 → hdr_n (hdr_set_n d v) = v.
Proof.
  intros [Hl _] Hv. unfold hdr_n, hdr_set_n. rewrite blk_load_store_eq by lia. by apply s32_mod.
Qed.

Lemma hdr_n_set_block d i v :
  wf_block d → 0 ≤ i < LOGBLOCKS → hdr_n (hdr_set_block d i v) = hdr_n d.
Proof.
  intros [Hl _] Hi. unfold hdr_n, hdr_set_block, LOGBLOCKS, MAXOPBLOCKS in *.
  by rewrite blk_load_store_ne by lia.
Qed.

Lemma hdr_block_set_n d i v : wf_block d → 0 ≤ i < LOGBLOCKS → hdr_block (hdr_set_n d v) i = hdr_block d i.
Proof.
  intros [Hl _] Hi. unfold hdr_block, hdr_set_n, LOGBLOCKS, MAXOPBLOCKS in *.
  by rewrite blk_load_store_ne by lia.
Qed.

Lemma hdr_block_set_block d i j v :
  wf_block d → 0 ≤ i < LOGBLOCKS → 0 ≤ j < LOGBLOCKS → -2147483648 ≤ v < 2147483648 →
  hdr_block (hdr_set_block d i v) j = if decide (i = j) then v else hdr_block d j.
Proof.
  intros [Hl _] Hi Hj Hv. unfold hdr_block, hdr_set_block, LOGBLOCKS, MAXOPBLOCKS in *.
  case_decide; subst.
  - rewrite blk_load_store_eq by lia. by apply s32_mod.
  - by rewrite blk_load_store_ne by lia.
Qed.

Lemma wf_set_n d v : wf_block d → wf_block (hdr_set_n d v).
Proof. intros Hd. apply wf_block_store; [done|lia]. Qed.

Lemma wf_set_block d i v : wf_block d → 0 ≤ i < LOGBLOCKS → wf_block (hdr_set_block d i v).
Proof. intros Hd Hi. apply wf_block_store; [done|]. unfold LOGBLOCKS, MAXOPBLOCKS in *. lia. Qed.
End area.

(** * The operations over the abstract cache *)

Section ops.
  Context {C H : Type} `{BC : BufCache C H} (dev pid start : Z) `{BCS : !BufCacheSpec C H dev pid}.
  Context (Harea : area_ok dev start).
  Implicit Types (A : abuf H) (c : C) (l : log).

(** One buffer is free, and the log area is not in use. *)
Definition area_free A : Prop :=
  Z.of_nat (size (a_act A)) < NBUF ∧
  ∀ b, start ≤ b ≤ start + LOGBLOCKS → a_act A !! b = None.

Lemma LOGBLOCKS_30 : LOGBLOCKS = 30.
Proof. done. Qed.

Lemma NBUF_30 : NBUF = 30.
Proof. done. Qed.

Lemma a_del_set A b e : a_act A !! b = None → a_del b (a_set b e A) = A.
Proof.
  intros Hb. apply abuf_eq; [|done|done]. cbn. by rewrite delete_insert_id.
Qed.

Lemma a_set_set A b e e' : a_set b e (a_set b e' A) = a_set b e A.
Proof. apply abuf_eq; [|done|done]. cbn. by rewrite insert_insert_eq. Qed.

Lemma a_act_set A b e : a_act (a_set b e A) !! b = Some e.
Proof. apply lookup_insert_eq. Qed.

Lemma rep_data_set A b e c : c_rep (a_set b e A) c → c_data (ae_h e) c = ae_data e.
Proof. intros HR. eapply (rep_data (BufCacheSpec := BCS)); [done|apply a_act_set]. Qed.

Lemma rep_data_at A c b e h d :
  c_rep A c → a_act A !! b = Some e → h = ae_h e → ae_data e = d → c_data h c = d.
Proof. intros HR Hb -> <-. by eapply (rep_data (BufCacheSpec := BCS)). Qed.

(** [write_head] makes one disk write: a header with the block numbers of [l]. *)
Lemma wp_write_head A l (Q : unit → abuf H → log → Prop) :
  log_ok dev start l → area_free A →
  (∀ i, 0 ≤ i < l_n l → home start (znth 0 (l_block l) i)) →
  (∀ d, wf_block d → hdr_n d = l_n l →
     (∀ i, 0 ≤ i < l_n l → hdr_block d i = znth 0 (l_block l) i) → Q tt (a_wr start d A) l) →
  wp dev pid write_head A l Q.
Proof.
  intros Hl [Hsz Hfree] Hhome HQ. pose proof Harea as (Hs0 & Hs1 & Hdv).
  pose proof (lo_n _ _ _ Hl) as Hn. pose proof LOGBLOCKS_30 as HL. pose proof NBUF_30 as HN.
  unfold write_head. apply wp_get. intros c0 HR0. cbn [ls_log].
  pose proof (rep_wf A c0 start HR0) as Hwf.
  assert (Hfs : a_act A !! start = None) by (apply Hfree; lia).
  rewrite (lo_start _ _ _ Hl). apply wp_bread_miss; try done; try apply Hl; try lia.
  intros h. apply wp_get. intros c1 HR1. cbn [ls_log ls_cache].
  apply rep_data_set in HR1 as Hd. cbn [ae_h ae_data] in Hd. rewrite Hd.
  eapply wp_setdata; [apply a_act_set|done|done|by apply wf_set_n|]. rewrite a_set_set.
  apply (wp_for dev pid (λ i A' l', l' = l ∧ ∃ d, wf_block d ∧ hdr_n d = l_n l ∧
    (∀ j, 0 ≤ j < i → hdr_block d j = znth 0 (l_block l) j) ∧
    A' = a_set start (mkaent 1 (Some pid) d h) A)).
  - lia.
  - split; [done|]. exists (hdr_set_n (a_disk A start) (l_n l)). split_and!; [by apply wf_set_n| | |done].
    + apply hdr_n_set_n; [done|lia].
    + lia.
  - intros i A' l' Hi (-> & d & Hwd & Hnd & Hbd & ->). apply wp_in_bounds; [lia|].
    apply wp_get. intros c2 HR2. cbn [ls_cache ls_log].
    apply rep_data_set in HR2 as Hd2. cbn [ae_h ae_data] in Hd2. rewrite Hd2.
    eapply wp_setdata; [apply a_act_set|done|done|apply wf_set_block; [done|lia]|].
    rewrite a_set_set. apply wp_ret. split; [done|]. split; [done|].
    destruct (Hhome i Hi) as [Hb _].
    eexists. split_and!; [|  | |done].
    + apply wf_set_block; [done|lia].
    + rewrite hdr_n_set_block; [done|done|lia].
    + intros j Hj. rewrite hdr_block_set_block; [|done|lia..|lia].
      case_decide; [by subst|]. apply Hbd. lia.
  - intros A' l' (-> & d & Hwd & Hnd & Hbd & ->).
    eapply wp_bwrite; [apply a_act_set|done|done|]. apply wp_tail. cbn [ae_data].
    eapply wp_brelse_last; [apply a_act_set|done|done|done|cbn; by rewrite fn_lookup_insert|].
    apply wp_ret. replace (a_del start _) with (a_wr start d A); [by apply HQ|].
    apply abuf_eq; [|done|done]. cbn. by rewrite delete_insert_id.
Qed.

Lemma area_free_sub A A' :
  area_free A → (∀ b e, a_act A' !! b = Some e → a_act A !! b = Some e) → area_free A'.
Proof.
  intros [Hsz Hf] Hsub. split.
  - assert (Hle : a_act A' ⊆ a_act A) by (by apply map_subseteq_spec).
    apply map_subseteq_size in Hle. lia.
  - intros b Hb. destruct (a_act A' !! b) as [e|] eqn:E; [|done].
    apply Hsub in E. by rewrite Hf in E.
Qed.

(** The log area block that holds entry [i]. *)
Definition slot (i : Z) : Z := start + i + 1.

Lemma slot_not_home i : 0 ≤ i < LOGBLOCKS → ¬ home start (slot i).
Proof. unfold slot, home. lia. Qed.

(** Every logged block is pinned in the cache, held by nobody, with the contents [D]. *)
Definition pinned A l (D : Z → list Z) (lo : Z) : Prop :=
  ∀ i, lo ≤ i < l_n l → home start (znth 0 (l_block l) i) ∧
    ∃ h, a_act A !! znth 0 (l_block l) i = Some (mkaent 1 None (D (znth 0 (l_block l) i)) h).

(** One round of [write_log]: the block goes to its slot. *)
Lemma wp_write_log_round A l D i h (b := znth 0 (l_block l) i) (k : unit → M (lstate C) (ctl unit)) Q :
  log_ok dev start l → area_free A → 0 ≤ i < l_n l → home start b →
  a_act A !! b = Some (mkaent 1 None (D b) h) → wf_block (D b) →
  wp dev pid (k tt) (a_wr (slot i) (D b) A) l Q →
  wp dev pid (
    s <- get ;;
    to <- log_bread (s32 (l_start (ls_log s) + i + 1)) ;;
    in_bounds i LOGBLOCKS ;;
    from <- log_bread (znth 0 (l_block (ls_log s)) i) ;;
    s <- get ;;
    zoom cacheL (c_setdata to (c_data from (ls_cache s))) ;;
    zoom cacheL (c_bwrite to) ;;
    zoom cacheL (c_brelse from) ;;
    zoom cacheL (c_brelse to) ;;
    k tt) A l Q.
Proof.
  intros Hl [Hsz Hfree] Hi [Hb1 Hb2] Hact Hwf HQ. pose proof Harea as (Hs0 & Hs1 & Hdv).
  pose proof (lo_n _ _ _ Hl) as Hn. pose proof LOGBLOCKS_30 as HL. pose proof NBUF_30 as HN.
  assert (Hne : slot i ≠ b) by (unfold slot; lia).
  assert (Hsl : a_act A !! slot i = None) by (apply Hfree; unfold slot; lia).
  apply wp_get. intros c0 HR0. cbn [ls_log]. rewrite (lo_start _ _ _ Hl).
  rewrite s32_id by lia. fold (slot i) b.
  apply wp_bread_miss; [apply Hl|done|unfold slot; lia|done|done|]. intros hl.
  apply wp_in_bounds; [lia|].
  eapply wp_bread_hit; [apply Hl|done|lia|cbn; by rewrite lookup_insert_ne|done|done|].
  apply wp_get. intros c1 HR1. cbn [ls_cache ae_h]. apply rep_data_set in HR1 as Hd1. cbn in Hd1. rewrite Hd1.
  eapply (wp_setdata _ _ _ _ _ _ (slot i)); [cbn; rewrite lookup_insert_ne by done; apply lookup_insert_eq|done|done|done|].
  eapply (wp_bwrite _ _ _ _ _ _ (slot i)); [apply a_act_set|done|done|].
  eapply (wp_brelse_more _ _ _ _ _ _ b); [cbn; rewrite lookup_insert_ne by done; apply lookup_insert_eq|done|done|done|].
  eapply (wp_brelse_last _ _ _ _ _ _ (slot i)); [cbn; rewrite lookup_insert_ne, lookup_insert_eq by done; done|done|done|done|cbn; by rewrite fn_lookup_insert|].
  cbn [ae_rc ae_owner ae_data ae_h].
  match goal with |- wp _ _ _ ?B _ _ => replace B with (a_wr (slot i) (D b) A); [done|] end.
  apply abuf_eq; [|done|done]. cbn. map_cases.
Qed.

(** One round of [install_trans(0)]: the block goes home and is released. *)
Lemma wp_install_round A l D i h (b := znth 0 (l_block l) i) (k : unit → M (lstate C) (ctl unit)) Q :
  log_ok dev start l → area_free A → 0 ≤ i < l_n l → home start b →
  a_act A !! b = Some (mkaent 1 None (D b) h) → a_disk A (slot i) = D b →
  wp dev pid (k tt) (a_del b (a_wr b (D b) A)) l Q →
  wp dev pid (
    s <- get ;;
    lbuf <- log_bread (s32 (l_start (ls_log s) + i + 1)) ;;
    in_bounds i LOGBLOCKS ;;
    dbuf <- log_bread (znth 0 (l_block (ls_log s)) i) ;;
    s <- get ;;
    zoom cacheL (c_setdata dbuf (c_data lbuf (ls_cache s))) ;;
    zoom cacheL (c_bwrite dbuf) ;;
    (if false then ret tt else zoom cacheL (c_bunpin dbuf)) ;;
    zoom cacheL (c_brelse lbuf) ;;
    zoom cacheL (c_brelse dbuf) ;;
    k tt) A l Q.
Proof.
  intros Hl [Hsz Hfree] Hi [Hb1 Hb2] Hact Hslot HQ. pose proof Harea as (Hs0 & Hs1 & Hdv).
  pose proof (lo_n _ _ _ Hl) as Hn. pose proof LOGBLOCKS_30 as HL. pose proof NBUF_30 as HN.
  assert (Hne : slot i ≠ b) by (unfold slot; lia).
  assert (Hsl : a_act A !! slot i = None) by (apply Hfree; unfold slot; lia).
  apply wp_get. intros c0 HR0. cbn [ls_log]. rewrite (lo_start _ _ _ Hl).
  assert (Hwf : wf_block (D b)) by (rewrite <-Hslot; by apply (rep_wf A c0)).
  rewrite s32_id by lia. fold (slot i) b.
  apply wp_bread_miss; [apply Hl|done|unfold slot; lia|done|done|]. intros hl.
  apply wp_in_bounds; [lia|].
  eapply wp_bread_hit; [apply Hl|done|lia|cbn; by rewrite lookup_insert_ne|done|done|].
  apply wp_get. intros c1 HR1. cbn [ls_cache ae_h].
  assert (c_data hl c1 = D b) as ->.
  { eapply (rep_data_at _ _ (slot i));
      [exact HR1|cbn; rewrite lookup_insert_ne by done; apply lookup_insert_eq|done|by cbn]. }
  eapply (wp_setdata _ _ _ _ _ _ b); [apply a_act_set|done|done|done|].
  eapply (wp_bwrite _ _ _ _ _ _ b); [apply a_act_set|done|done|].
  eapply (wp_bunpin _ _ _ _ _ _ b); [apply a_act_set|done|done|].
  eapply (wp_brelse_last _ _ _ _ _ _ (slot i)); [cbn; rewrite !lookup_insert_ne by done; apply lookup_insert_eq|done|done|done| |].
  { cbn. by rewrite fn_lookup_insert_ne by done. }
  eapply (wp_brelse_last _ _ _ _ _ _ b); [cbn; rewrite lookup_delete_ne, lookup_insert_eq by done; done|done|done|done|cbn; by rewrite fn_lookup_insert|].
  cbn [ae_rc ae_owner ae_data ae_h].
  match goal with |- wp _ _ _ ?B _ _ => replace B with (a_del b (a_wr b (D b) A)); [done|] end.
  apply abuf_eq; [|done|done]. cbn. map_cases.
Qed.

(** One round of [install_trans(1)], with nothing in use. *)
Lemma wp_recover_round A l i (b := znth 0 (l_block l) i) (k : unit → M (lstate C) (ctl unit)) Q :
  log_ok dev start l → a_act A = ∅ → 0 ≤ i < l_n l → home start b →
  wp dev pid (k tt) (a_wr b (a_disk A (slot i)) A) l Q →
  wp dev pid (
    s <- get ;;
    lbuf <- log_bread (s32 (l_start (ls_log s) + i + 1)) ;;
    in_bounds i LOGBLOCKS ;;
    dbuf <- log_bread (znth 0 (l_block (ls_log s)) i) ;;
    s <- get ;;
    zoom cacheL (c_setdata dbuf (c_data lbuf (ls_cache s))) ;;
    zoom cacheL (c_bwrite dbuf) ;;
    (if true then ret tt else zoom cacheL (c_bunpin dbuf)) ;;
    zoom cacheL (c_brelse lbuf) ;;
    zoom cacheL (c_brelse dbuf) ;;
    k tt) A l Q.
Proof.
  intros Hl Hemp Hi [Hb1 Hb2] HQ. pose proof Harea as (Hs0 & Hs1 & Hdv).
  pose proof (lo_n _ _ _ Hl) as Hn. pose proof LOGBLOCKS_30 as HL. pose proof NBUF_30 as HN.
  assert (Hne : slot i ≠ b) by (unfold slot; lia).
  apply wp_get. intros c0 HR0. cbn [ls_log]. rewrite (lo_start _ _ _ Hl).
  pose proof (rep_wf A c0 (slot i) HR0) as Hwf.
  rewrite s32_id by lia. fold (slot i) b.
  apply wp_bread_miss; [apply Hl|done|unfold slot; lia|by rewrite Hemp|by rewrite Hemp|]. intros hl.
  apply wp_in_bounds; [lia|].
  apply wp_bread_miss; [apply Hl|done|lia|cbn; rewrite Hemp, lookup_insert_ne by done; done| |].
  { cbn. rewrite Hemp, insert_empty, map_size_singleton. lia. }
  intros hd. apply wp_get. intros c1 HR1. cbn [ls_cache ae_h].
  assert (c_data hl c1 = a_disk A (slot i)) as ->.
  { eapply (rep_data_at _ _ (slot i));
      [exact HR1|cbn; rewrite lookup_insert_ne by done; apply lookup_insert_eq|done|by cbn]. }
  eapply (wp_setdata _ _ _ _ _ _ b); [apply a_act_set|done|done|done|].
  eapply (wp_bwrite _ _ _ _ _ _ b); [apply a_act_set|done|done|].
  apply wp_skip.
  eapply (wp_brelse_last _ _ _ _ _ _ (slot i)); [cbn; rewrite !lookup_insert_ne by done; apply lookup_insert_eq|done|done|done| |].
  { cbn. by rewrite fn_lookup_insert_ne by done. }
  eapply (wp_brelse_last _ _ _ _ _ _ b); [cbn; rewrite lookup_delete_ne, lookup_insert_eq by done; done|done|done|done|cbn; by rewrite fn_lookup_insert|].
  cbn [ae_rc ae_owner ae_data ae_h].
  match goal with |- wp _ _ _ ?B _ _ => replace B with (a_wr b (a_disk A (slot i)) A); [done|] end.
  apply abuf_eq; [|done|done]. cbn. rewrite Hemp. map_cases.
Qed.

(** ** Recovery *)

Lemma wp_read_head A l (Q : unit → abuf H → log → Prop) :
  log_ok dev start l → area_free A →
  0 ≤ hdr_n (a_disk A start) ≤ LOGBLOCKS →
  (∀ bs, len bs = LOGBLOCKS →
     (∀ i, 0 ≤ i < hdr_n (a_disk A start) → znth 0 bs i = hdr_block (a_disk A start) i) →
     Q tt A (set_l_block bs (set_l_n (hdr_n (a_disk A start)) l))) →
  wp dev pid read_head A l Q.
Proof.
  intros Hl [Hsz Hfree] Hn HQ. pose proof Harea as (Hs0 & Hs1 & Hdv).
  pose proof LOGBLOCKS_30 as HL. pose proof NBUF_30 as HN.
  assert (Hfs : a_act A !! start = None) by (apply Hfree; lia).
  unfold read_head. apply wp_get. intros c0 HR0. cbn [ls_log].
  rewrite (lo_start _ _ _ Hl). apply wp_bread_miss; try done; try apply Hl; try lia.
  intros h. apply wp_get. intros c1 HR1. cbn [ls_log ls_cache].
  apply rep_data_set in HR1 as Hd. cbn [ae_h ae_data] in Hd. rewrite Hd.
  apply wp_log. set (lh := a_disk A start) in *.
  apply (wp_for dev pid (λ i A' l', A' = a_set start (mkaent 1 (Some pid) lh h) A ∧
    ∃ bs, len bs = LOGBLOCKS ∧ (∀ j, 0 ≤ j < i → znth 0 bs j = hdr_block lh j) ∧
      l' = set_l_block bs (set_l_n (hdr_n lh) l))).
  - lia.
  - split; [done|]. exists (l_block l). split_and!; [apply Hl|lia|by destruct l].
  - intros i A' l' Hi (-> & bs & Hbs & Hj & ->). apply wp_in_bounds; [lia|]. apply wp_log.
    apply wp_ret. split; [done|]. split; [done|]. exists (zset bs i (hdr_block lh i)).
    split_and!; [by rewrite len_zset| |done]. intros j Hij. rewrite znth_zset by lia.
    case_decide; [by subst|apply Hj; lia].
  - intros A' l' (-> & bs & Hbs & Hj & ->). apply wp_tail.
    eapply wp_brelse_last; [apply a_act_set|done|done|done|done|].
    apply wp_ret. rewrite a_del_set by done. by apply HQ.
Qed.

Lemma durable_install dk D i :
  durable start dk D → 0 ≤ i < hdr_n (dk start) →
  durable start (<[hdr_block (dk start) i := dk (slot i)]> dk) D.
Proof.
  intros (Hn & Hi & Ho) Hr. destruct (Hi i Hr) as [Hh Hd]. pose proof Hh as [Hh1 Hh2].
  pose proof LOGBLOCKS_30 as HL.
  unfold durable. rewrite (fn_lookup_insert_ne dk _ start) by lia. split_and!; try lia.
  - intros j Hj. destruct (Hi j Hj) as [Hhj Hdj]. rewrite fn_lookup_insert_ne by lia. done.
  - intros b Hb Hnb. rewrite fn_lookup_insert_ne; [by apply Ho|].
    intros <-. apply Hnb, elem_of_hdr_list. eauto.
Qed.

Lemma area_free_empty A : a_act A = ∅ → area_free A.
Proof. intros HA. split; rewrite HA; [rewrite map_size_empty|]; done. Qed.

Lemma wp_recover A l D (Q : unit → abuf H → log → Prop) :
  log_ok dev start l → a_act A = ∅ → durable start (a_disk A) D →
  (∀ A' bs, a_act A' = ∅ → len bs = LOGBLOCKS →
     traced (a_disk A) (a_writes A) (λ d, durable start d D) A' → clean start (a_disk A') D →
     Q tt A' (set_l_block bs (set_l_n 0 l))) →
  wp dev pid recover_from_log A l Q.
Proof.
  intros Hl HA Hdur HQ. pose proof Hdur as (Hn & Hlog & Hoth).
  pose proof Harea as (Hs0 & Hs1 & Hdv). pose proof LOGBLOCKS_30 as HL.
  unfold recover_from_log. apply wp_bind. apply wp_read_head; [done|by apply area_free_empty|done|].
  intros bs Hbs Hbsi. set (n := hdr_n (a_disk A start)) in *. set (l1 := set_l_block bs (set_l_n n l)).
  assert (Hl1 : log_ok dev start l1) by (destruct Hl; constructor; try done; cbn; lia).
  apply wp_bind. apply wp_get. intros c0 _. cbn [ls_log].
  change (l_n l1) with n.
  apply (wp_for dev pid (λ i A' l', l' = l1 ∧ a_act A' = ∅ ∧
    a_disk A' start = a_disk A start ∧ durable start (a_disk A') D ∧
    (∀ j, 0 ≤ j < i → a_disk A' (znth 0 bs j) = D (znth 0 bs j)) ∧
    traced (a_disk A) (a_writes A) (λ d, durable start d D) A')).
  - lia.
  - split_and!; try done; [lia|]. by apply traced_nil.
  - intros i A' l' Hi (-> & HA' & Hst & Hd' & Hdone & Htr).
    assert (Hb : znth 0 bs i = hdr_block (a_disk A' start) i) by (rewrite Hst; by apply Hbsi).
    assert (Hi' : 0 ≤ i < hdr_n (a_disk A' start)) by (by rewrite Hst).
    pose proof (durable_install _ _ _ Hd' Hi') as Hd''. rewrite <-Hb in Hd''.
    destruct (proj1 (proj2 Hd') i Hi') as [Hh Hsl]. rewrite <-Hb in Hh, Hsl. fold (slot i) in Hsl.
    apply (wp_recover_round A' l1 i (λ _, ret Next)); try done.
    apply wp_ret. split; [done|]. cbn [l_block l1 set_l_block]. pose proof Hh as [Hh1 Hh2].
    split_and!; try done; cbn.
    + rewrite fn_lookup_insert_ne by lia. done.
    + intros j Hj. destruct (decide (znth 0 bs i = znth 0 bs j)) as [Heq|Hne].
      * rewrite Heq, fn_lookup_insert, Hsl. by rewrite Heq.
      * rewrite fn_lookup_insert_ne by done. apply Hdone.
        destruct (decide (i = j)); [congruence|lia].
    + by apply traced_wr.
  - intros A' l' (-> & HA' & Hst & Hd' & Hdone & Htr). apply wp_ret. apply wp_log.
    assert (Hl2 : log_ok dev start (set_l_n 0 l1)) by (destruct Hl1; constructor; try done; cbn; lia).
    apply wp_write_head; [done|by apply area_free_empty|cbn; lia|].
    intros d Hwd Hnd _. cbn in Hnd.
    assert (Hcl : clean start (<[start := d]> (a_disk A')) D).
    { split; [by rewrite fn_lookup_insert|]. intros b Hb. pose proof Hb as [Hb1 Hb2].
      rewrite fn_lookup_insert_ne by lia. destruct Hd' as (_ & _ & Ho').
      destruct (decide (b ∈ hdr_list (a_disk A' start))) as [Hin|Hni]; [|by apply Ho'].
      apply elem_of_hdr_list in Hin as (j & Hj & ->). rewrite Hst in *.
      rewrite <-Hbsi by done. by apply Hdone. }
    apply (HQ (a_wr start d A') bs); [done|done| |done].
    apply traced_wr; [done|]. by apply clean_durable.
Qed.

(** ** Commit *)

Lemma elem_of_logged l b :
  log_ok dev start l → (b ∈ logged l ↔ ∃ i, 0 ≤ i < l_n l ∧ znth 0 (l_block l) i = b).
Proof.
  intros Hl. pose proof (lo_n _ _ _ Hl) as Hn. pose proof (lo_len _ _ _ Hl) as Hlen.
  apply elem_of_ztake. lia.
Qed.

Lemma logged_inj l i j :
  log_ok dev start l → NoDup (logged l) → 0 ≤ i < l_n l → 0 ≤ j < l_n l →
  znth 0 (l_block l) i = znth 0 (l_block l) j → i = j.
Proof.
  intros Hl Hnd Hi Hj Heq. pose proof (lo_n _ _ _ Hl) as Hn. pose proof (lo_len _ _ _ Hl) as Hlen.
  eapply (ztake_inj 0); [done|lia|done|done|done].
Qed.

(** What [write_log] and then [install_trans] leave in use. *)
Definition undone A l (i : Z) (b : Z) : option (aent H) :=
  if decide (b ∈ take (Z.to_nat i) (l_block l)) then None else a_act A !! b.

Lemma wp_write_log A l D P dk0 ws0 (Q : unit → abuf H → log → Prop) :
  log_ok dev start l → area_free A → pinned A l D 0 →
  traced dk0 ws0 P A →
  (∀ d, d start = a_disk A start → (∀ b, home start b → d b = a_disk A b) → P d) →
  (∀ A', a_act A' = a_act A → traced dk0 ws0 P A' → a_disk A' start = a_disk A start →
     (∀ b, home start b → a_disk A' b = a_disk A b) →
     (∀ i, 0 ≤ i < l_n l → a_disk A' (slot i) = D (znth 0 (l_block l) i)) → Q tt A' l) →
  wp dev pid write_log A l Q.
Proof.
  intros Hl Hfree Hpin Htr HP HQ. pose proof (lo_n _ _ _ Hl) as Hn. pose proof LOGBLOCKS_30 as HL.
  unfold write_log. apply wp_get. intros c0 HR0. cbn [ls_log].
  assert (Hwf : ∀ i, 0 ≤ i < l_n l → wf_block (D (znth 0 (l_block l) i))).
  { intros i Hi. destruct (Hpin i Hi) as (_ & h & Hact).
    apply (rep_wf_data (BufCacheSpec := BCS) A c0 _ _ HR0 Hact). }
  apply (wp_for dev pid (λ i A' l', l' = l ∧ a_act A' = a_act A ∧ traced dk0 ws0 P A' ∧
    a_disk A' start = a_disk A start ∧ (∀ b, home start b → a_disk A' b = a_disk A b) ∧
    (∀ j, 0 ≤ j < i → a_disk A' (slot j) = D (znth 0 (l_block l) j)))).
  - lia.
  - split_and!; try done. lia.
  - intros i A' l' Hi (-> & Hact & Htr' & Hst & Hhm & Hdone). destruct (Hpin i Hi) as (Hh & h & Hai).
    apply (wp_write_log_round A' l D i h (λ _, ret Next)); try done.
    + destruct Hfree as [H1 H2]. split; by rewrite Hact.
    + by rewrite Hact.
    + by apply Hwf.
    + assert (Hagree : a_disk (a_wr (slot i) (D (znth 0 (l_block l) i)) A') start = a_disk A start ∧
        ∀ b, home start b → a_disk (a_wr (slot i) (D (znth 0 (l_block l) i)) A') b = a_disk A b).
      { cbn. split; [rewrite fn_lookup_insert_ne by (unfold slot; lia); done|].
        intros b Hb. rewrite fn_lookup_insert_ne; [by apply Hhm|]. intros <-.
        eapply slot_not_home; [|done]. lia. }
      destruct Hagree as [Ha1 Ha2]. apply wp_ret. split_and!; try done.
      * apply traced_wr; [done|]. by apply HP.
      * intros j Hj. cbn. destruct (decide (i = j)) as [->|]; [by rewrite fn_lookup_insert|].
        rewrite fn_lookup_insert_ne by (unfold slot; lia). apply Hdone. lia.
  - intros A' l' (-> & Hact & Htr' & Hst & Hhm & Hdone). apply wp_ret. by apply HQ.
Qed.

Lemma wp_install A l D dk0 ws0 P (Q : unit → abuf H → log → Prop) :
  log_ok dev start l → area_free A → pinned A l D 0 → NoDup (logged l) →
  durable start (a_disk A) D → hdr_n (a_disk A start) = l_n l →
  (∀ i, 0 ≤ i < l_n l → hdr_block (a_disk A start) i = znth 0 (l_block l) i) →
  traced dk0 ws0 P A → (∀ d, durable start d D → P d) →
  (∀ A', traced dk0 ws0 P A' → durable start (a_disk A') D → a_disk A' start = a_disk A start →
     (∀ b, a_act A' !! b = undone A l (l_n l) b) →
     (∀ b, b ∈ logged l → a_disk A' b = D b) → Q tt A' l) →
  wp dev pid (install_trans false) A l Q.
Proof.
  intros Hl Hfree Hpin Hnd Hdur Hhn Hhb Htr HP HQ. pose proof (lo_n _ _ _ Hl) as Hn.
  unfold install_trans. apply wp_get. intros c0 _. cbn [ls_log].
  apply (wp_for dev pid (λ i A' l', l' = l ∧ traced dk0 ws0 P A' ∧ durable start (a_disk A') D ∧
    a_disk A' start = a_disk A start ∧ (∀ b, a_act A' !! b = undone A l i b) ∧
    (∀ j, 0 ≤ j < i → a_disk A' (znth 0 (l_block l) j) = D (znth 0 (l_block l) j)))).
  - lia.
  - split_and!; try done; lia.
  - intros i A' l' Hi (-> & Htr' & Hd' & Hst & Hact & Hdone). destruct (Hpin i Hi) as (Hh & h & Hai).
    set (b := znth 0 (l_block l) i) in *.
    assert (Hin : ∀ i x, 0 ≤ i ≤ l_n l → (x ∈ take (Z.to_nat i) (l_block l) ↔
      ∃ j, 0 ≤ j < i ∧ znth 0 (l_block l) j = x))
      by (intros; apply elem_of_ztake; rewrite (lo_len _ _ _ Hl); lia).
    assert (Hb : a_act A' !! b = Some (mkaent 1 None (D b) h)).
    { rewrite Hact. unfold undone. rewrite decide_False; [done|]. rewrite Hin by lia.
      intros (j & Hj & Heq). apply logged_inj in Heq; try done; lia. }
    assert (Hi' : 0 ≤ i < hdr_n (a_disk A' start)) by (rewrite Hst; lia).
    destruct (proj1 (proj2 Hd') i Hi') as [_ Hsl]. rewrite Hst, Hhb in Hsl by done. fold (slot i) in Hsl.
    pose proof (durable_install _ _ _ Hd' Hi') as Hd''. rewrite Hst, Hhb, Hsl in Hd'' by done.
    pose proof Hh as [Hh1 Hh2]. pose proof LOGBLOCKS_30 as HL.
    apply (wp_install_round A' l D i h (λ _, ret Next)); try done.
    + eapply area_free_sub; [done|]. intros x e. rewrite Hact. unfold undone. by case_decide.
    + apply wp_ret. split_and!; try done; cbn.
      * apply (traced_eq dk0 ws0 P (a_wr b (D b) A')); [done|done|]. apply traced_wr; [done|]. by apply HP.
      * rewrite fn_lookup_insert_ne by (subst b; lia). done.
      * intros x. fold b. unfold undone. destruct (decide (b = x)) as [<-|Hne].
        -- rewrite lookup_delete_eq, decide_True; [done|]. apply Hin; [lia|]. exists i. split; [lia|done].
        -- rewrite lookup_delete_ne, Hact by done. unfold undone. apply decide_ext.
           rewrite !Hin by lia. split; intros (j & Hj & Hx); exists j; (split; [|done]); [lia|].
           destruct (decide (i = j)); [subst; done|lia].
      * intros j Hj. fold b. destruct (decide (i = j)) as [<-|Hne].
        -- by rewrite fn_lookup_insert.
        -- rewrite fn_lookup_insert_ne; [apply Hdone; lia|]. intros Heq.
           apply logged_inj in Heq; try done; lia.
  - intros A' l' (-> & Htr' & Hd' & Hst & Hact & Hdone). apply wp_ret. apply HQ; try done.
    intros b Hb. apply elem_of_logged in Hb as (j & Hj & <-); [|done]. by apply Hdone.
Qed.

Lemma wp_commit A l D (Q : unit → abuf H → log → Prop) :
  log_ok dev start l → area_free A → pinned A l D 0 → NoDup (logged l) →
  hdr_n (a_disk A start) = 0 → (∀ b, home start b → b ∉ logged l → a_disk A b = D b) →
  (∀ A', traced (a_disk A) (a_writes A)
           (λ d, durable start d (a_disk A) ∨ durable start d D) A' →
     clean start (a_disk A') D →
     (∀ b, a_act A' !! b = undone A l (l_n l) b) → Q tt A' (set_l_n 0 l)) →
  wp dev pid commit A l Q.
Proof.
  intros Hl Hfree Hpin Hnd Hn0 Hold HQ. pose proof (lo_n _ _ _ Hl) as Hn.
  pose proof Harea as (Hs0 & Hs1 & Hdv). pose proof LOGBLOCKS_30 as HL.
  set (P d := durable start d (a_disk A) ∨ durable start d D).
  assert (Hcl0 : clean start (a_disk A) (a_disk A)) by (split; auto).
  unfold commit. apply wp_get. intros c0 _. cbn [ls_log].
  destruct (0 <? l_n l) eqn:En.
  2:{ assert (l_n l = 0) as Hl0 by lia. apply wp_ret.
      replace l with (set_l_n 0 l) by (destruct l; cbn in *; by subst). apply HQ.
      - apply traced_nil. left. by apply clean_durable.
      - split; [done|]. intros b Hb. apply Hold; [done|]. unfold logged. rewrite Hl0. apply not_elem_of_nil.
      - intros b. unfold undone. rewrite Hl0, decide_False; [done|apply not_elem_of_nil]. }
  apply wp_bind. apply (wp_write_log A l D P (a_disk A) (a_writes A)); try done.
  { apply traced_nil. left. by apply clean_durable. }
  { intros d Hd1 Hd2. left. apply clean_durable. split; [by rewrite Hd1|done]. }
  intros A1 Hact1 Htr1 Hst1 Hhm1 Hsl1.
  assert (Hfree1 : area_free A1) by (destruct Hfree; split; by rewrite Hact1).
  apply wp_bind. apply wp_write_head; try done. { intros i Hi. by apply Hpin. }
  intros d Hwd Hdn Hdb. set (A2 := a_wr start d A1).
  assert (Hd2 : durable start (a_disk A2) D).
  { unfold durable. cbn. rewrite fn_lookup_insert, Hdn. split_and!; try lia.
    - intros i Hi. rewrite Hdb by done. split; [by apply Hpin|].
      rewrite fn_lookup_insert_ne by lia. by apply Hsl1.
    - intros b Hb Hnb. pose proof Hb as [Hb1 Hb2]. rewrite fn_lookup_insert_ne by lia.
      rewrite Hhm1 by done. apply Hold; [done|]. intros Hin. apply Hnb.
      apply elem_of_logged in Hin as (i & Hi & <-); [|done].
      apply elem_of_hdr_list. exists i. by rewrite Hdn, Hdb. }
  apply wp_bind. apply (wp_install A2 l D (a_disk A) (a_writes A) P); try done.
  { intros i Hi. cbn. rewrite Hact1. by apply Hpin. }
  { cbn. by rewrite fn_lookup_insert. }
  { intros i Hi. cbn. rewrite fn_lookup_insert. by apply Hdb. }
  { apply traced_wr; [done|]. by right. }
  { intros d' Hd'. by right. }
  intros A3 Htr3 Hd3 Hst3 Hact3 Hlg3. apply wp_log.
  apply wp_write_head.
  { destruct Hl; constructor; try done; cbn; lia. }
  { eapply area_free_sub; [exact Hfree1|]. intros x e. rewrite Hact3. unfold undone. by case_decide. }
  { cbn. lia. }
  intros d' Hwd' Hdn' _. cbn in Hdn'.
  assert (Hcl : clean start (<[start := d']> (a_disk A3)) D).
  { split; [by rewrite fn_lookup_insert|]. intros b Hb. pose proof Hb as [Hb1 Hb2].
    rewrite fn_lookup_insert_ne by lia. destruct Hd3 as (_ & _ & Ho).
    destruct (decide (b ∈ logged l)) as [Hin|Hni]; [by apply Hlg3|].
    apply Ho; [done|]. rewrite Hst3. cbn. rewrite fn_lookup_insert, elem_of_hdr_list, Hdn.
    intros (i & Hi & ->). apply Hni, elem_of_logged; [done|]. exists i. by rewrite Hdb. }
  apply (HQ (a_wr start d' A3)); try done.
  - apply traced_wr; [done|]. right. by apply clean_durable.
  - intros b. rewrite Hact3. unfold undone. cbn. by rewrite Hact1.
Qed.
End ops.

(** * Transactions *)

#[export] Instance log_txn {C H} `{BC : BufCache C H} (me : Z) : Txn (lstate C) H := {
  t_bread dev b := zoom cacheL (c_bread dev b);
  t_brelse h := zoom cacheL (c_brelse h);
  t_log_write := log_write me;
  t_data h s := c_data h (ls_cache s);
  t_setdata h d := zoom cacheL (c_setdata h d);
  t_begin_op := begin_op me;
  t_end_op := end_op me;
  t_initlog := initlog;
}.

Lemma set_l_lock_id l n : unlocked (l_lock l) → n = lk_name (l_lock l) →
  set_l_lock (mkspinlock 0 n None) l = l.
Proof. destruct l as [lk]. cbn. intros ->%unlocked_eq ->. done. Qed.

(** The log record with the lock taken. *)
Definition busy (me : Z) (l : log) : log :=
  set_l_lock (mkspinlock 1 (lk_name (l_lock l)) (Some me)) l.

Lemma log_acquire {C} me (c : C) l :
  unlocked (l_lock l) →
  zoom log_lockL (acquire_lk me) (mklstate c l) = Ok tt (mklstate c (busy me l)).
Proof. intros Hl. unfold zoom. cbn. by rewrite acquire_lk_ok. Qed.

Lemma log_release {C} me (c : C) l :
  unlocked (l_lock l) →
  zoom log_lockL (release_lk me) (mklstate c (busy me l)) = Ok tt (mklstate c l).
Proof.
  intros Hl. unfold zoom. cbn. rewrite release_lk_ok. do 2 f_equal.
  transitivity (set_l_lock (mkspinlock 0 (lk_name (l_lock l)) None) l); [by destruct l|].
  by apply set_l_lock_id.
Qed.

Section tx.
  Context {C H : Type} `{BC : BufCache C H} (me dev pid start : Z) `{BCS : !BufCacheSpec C H dev pid}.
  Context (Harea : area_ok dev start).
  Implicit Types (A : abuf H) (c : C) (l : log) (D : Z → list Z) (held : gmap Z (H * list Z)).

(** The cache entry of block [b] during a transaction. *)
Definition tx_ent D held (lg : list Z) (b : Z) (o : option (aent H)) : Prop :=
  match held !! b with
  | Some (h, d) => o = Some (mkaent (if decide (b ∈ lg) then 2 else 1) (Some pid) d h)
  | None => if decide (b ∈ lg) then ∃ h, o = Some (mkaent 1 None (D b) h) else o = None
  end.

(** [out] system calls are inside a transaction; the disk reads [D]. *)
Record tx_abs D held (lg : gset Z) (out : Z) A l : Prop := {
  tx_log : log_ok dev start l;
  tx_committing : l_committing l = 0;
  tx_out : l_outstanding l = out;
  tx_nodup : NoDup (logged l);
  tx_lg : ∀ b, b ∈ lg ↔ b ∈ logged l;
  tx_home_lg : ∀ b, b ∈ logged l → home start b;
  tx_home_held : ∀ b x, held !! b = Some x → home start b;
  tx_hdr : hdr_n (a_disk A start) = 0;
  tx_act : ∀ b, tx_ent D held (logged l) b (a_act A !! b);
  tx_disk : ∀ b, home start b → b ∉ logged l → a_disk A b = D b;
  tx_wf : ∀ b, home start b → wf_block (D b);
}.

Definition tx_rep out D held lg (s : lstate C) : Prop :=
  ∃ A, c_rep A (ls_cache s) ∧ tx_abs D held lg out A (ls_log s).

Lemma tx_size D held lg out A l :
  tx_abs D held lg out A l → (size (a_act A) ≤ size held + size lg)%nat.
Proof.
  intros HT. assert (Hsub : dom (a_act A) ⊆ dom held ∪ lg).
  { intros b [e Hb]%elem_of_dom. pose proof (tx_act _ _ _ _ _ _ HT b) as Ha. rewrite Hb in Ha.
    unfold tx_ent in Ha. destruct (held !! b) as [[h d]|] eqn:E.
    - apply elem_of_union_l. by apply elem_of_dom.
    - apply elem_of_union_r, (tx_lg _ _ _ _ _ _ HT). by case_decide. }
  apply subseteq_size in Hsub. rewrite size_dom in Hsub.
  pose proof (size_union_alt (dom held) lg) as Hu.
  assert (Hle : (size (lg ∖ dom held) ≤ size lg)%nat) by (apply subseteq_size; set_solver).
  rewrite size_dom in Hu. lia.
Qed.

Lemma tx_lg_size D held lg out A l :
  tx_abs D held lg out A l → Z.of_nat (size lg) = l_n l.
Proof.
  intros HT. pose proof (tx_log _ _ _ _ _ _ HT) as Hl.
  pose proof (lo_n _ _ _ Hl). pose proof (lo_len _ _ _ Hl).
  assert (lg = list_to_set (logged l)) as ->.
  { apply set_eq. intros b. rewrite elem_of_list_to_set. apply HT. }
  rewrite size_list_to_set by apply HT. unfold logged. rewrite length_take.
  unfold len in *. lia.
Qed.

Lemma tx_area_free D held lg out A l :
  tx_abs D held lg out A l → Z.of_nat (size held) + Z.of_nat (size lg) < NBUF → area_free start A.
Proof.
  intros HT Hsz. pose proof (tx_size _ _ _ _ _ _ HT). split; [lia|].
  intros b Hb. pose proof (tx_act _ _ _ _ _ _ HT b) as Ha. unfold tx_ent in Ha.
  assert (Hnh : ¬ home start b) by (unfold home; lia).
  destruct (held !! b) as [x|] eqn:E; [by apply (tx_home_held _ _ _ _ _ _ HT) in E|].
  case_decide as Hd; [|done]. by apply (tx_home_lg _ _ _ _ _ _ HT) in Hd.
Qed.

(** A change of the entry of one held block. *)
Lemma tx_update D held lg out A l b h d rc :
  tx_abs D held lg out A l → home start b →
  rc = (if decide (b ∈ logged l) then 2 else 1) →
  tx_abs D (<[b := (h, d)]> held) lg out (a_set b (mkaent rc (Some pid) d h) A) l.
Proof.
  intros HT Hh ->. destruct HT. constructor; try done.
  - intros x y. rewrite lookup_insert_Some. intros [[<- _]|[_ Hx]]; eauto.
  - intros x. unfold tx_ent. cbn. destruct (decide (b = x)) as [<-|Hne].
    + by rewrite !lookup_insert_eq.
    + rewrite !lookup_insert_ne by done. apply tx_act0.
Qed.

Lemma tx_held D held lg out A l b h d :
  tx_abs D held lg out A l → held !! b = Some (h, d) →
  a_act A !! b = Some (mkaent (if decide (b ∈ logged l) then 2 else 1) (Some pid) d h).
Proof. intros HT Hb. pose proof (tx_act _ _ _ _ _ _ HT b) as Ha. unfold tx_ent in Ha. by rewrite Hb in Ha. Qed.

Lemma law_tx_bread out D held lg s b :
  tx_rep out D held lg s → home start b → held !! b = None →
  Z.of_nat (size held) + Z.of_nat (size lg) < NBUF →
  ∃ h s', zoom cacheL (c_bread dev b) s = Ok h s' ∧ tx_rep out D (<[b := (h, D b)]> held) lg s'.
Proof.
  intros (A & HR & HT) Hh Hb Hsz. pose proof (tx_act _ _ _ _ _ _ HT b) as Ha.
  pose proof (tx_size _ _ _ _ _ _ HT) as Hsz'. unfold tx_ent in Ha. rewrite Hb in Ha.
  destruct (decide (b ∈ logged (ls_log s))) as [Hin|Hin].
  - destruct Ha as [h Ha]. destruct (bread_hit A (ls_cache s) b _ HR Ha eq_refl eq_refl) as (c' & Hr & HR').
    exists h, (mklstate c' (ls_log s)). split; [by apply (zoom_ok cacheL)|]. eexists. split; [exact HR'|].
    apply tx_update; [done|done|]. by rewrite decide_True.
  - destruct (bread_miss A (ls_cache s) b HR Ha) as (h & c' & Hr & HR'); [lia|].
    exists h, (mklstate c' (ls_log s)). split; [by apply (zoom_ok cacheL)|]. eexists. split; [exact HR'|].
    rewrite (tx_disk _ _ _ _ _ _ HT) by done.
    apply tx_update; [done|done|]. by rewrite decide_False.
Qed.

Lemma law_tx_setdata out D held lg s b h d d' :
  tx_rep out D held lg s → held !! b = Some (h, d) → wf_block d' →
  ∃ s', zoom cacheL (c_setdata h d') s = Ok tt s' ∧ tx_rep out D (<[b := (h, d')]> held) lg s'.
Proof.
  intros (A & HR & HT) Hb Hwf. pose proof (tx_held _ _ _ _ _ _ _ _ _ HT Hb) as Ha.
  destruct (setdata_ok A (ls_cache s) b _ d' HR Ha eq_refl Hwf) as (c' & Hr & HR').
  exists (mklstate c' (ls_log s)). split; [by apply (zoom_ok cacheL)|]. eexists. split; [exact HR'|].
  apply tx_update; [done| |done]. by eapply tx_home_held.
Qed.

Lemma law_tx_brelse out D held lg s b h d :
  tx_rep out D held lg s → held !! b = Some (h, d) → d = D b →
  ∃ s', zoom cacheL (c_brelse h) s = Ok tt s' ∧ tx_rep out D (delete b held) lg s'.
Proof.
  intros (A & HR & HT) Hb ->. pose proof (tx_held _ _ _ _ _ _ _ _ _ HT Hb) as Ha.
  assert (Hh : home start b) by (by eapply tx_home_held).
  destruct (decide (b ∈ logged (ls_log s))) as [Hin|Hin].
  - destruct (brelse_more A (ls_cache s) b _ HR Ha eq_refl eq_refl) as (c' & Hr & HR').
    exists (mklstate c' (ls_log s)). split; [by apply (zoom_ok cacheL)|]. eexists. split; [exact HR'|].
    destruct HT. constructor; try done.
    + intros x y [_ Hx]%lookup_delete_Some. eauto.
    + intros x. unfold tx_ent. cbn. destruct (decide (b = x)) as [<-|Hne].
      * rewrite lookup_delete_eq, lookup_insert_eq, decide_True by done. by exists h.
      * rewrite lookup_delete_ne, lookup_insert_ne by done. apply tx_act0.
  - destruct (brelse_last A (ls_cache s) b _ HR Ha eq_refl eq_refl) as (c' & Hr & HR').
    { symmetry. by apply (tx_disk _ _ _ _ _ _ HT). }
    exists (mklstate c' (ls_log s)). split; [by apply (zoom_ok cacheL)|]. eexists. split; [exact HR'|].
    destruct HT. constructor; try done.
    + intros x y [_ Hx]%lookup_delete_Some. eauto.
    + intros x. unfold tx_ent. cbn. destruct (decide (b = x)) as [<-|Hne].
      * by rewrite !lookup_delete_eq, decide_False.
      * rewrite !lookup_delete_ne by done. apply tx_act0.
Qed.

Lemma log_ok_lock l k : log_ok dev start l → unlocked k → log_ok dev start (set_l_lock k l).
Proof. intros [] Hk. by constructor. Qed.

(** The position at which [log_write] records block [b]. *)
Definition log_pos l (b : Z) : Z :=
  default (l_n l) (zfind (λ i, u32 (znth 0 (l_block l) i) =? b) (Z.to_nat (l_n l)) 0).

Lemma log_pos_spec l b :
  log_ok dev start l → (∀ x, x ∈ logged l → home start x) → 0 ≤ b < 2147483648 →
  ((b ∈ logged l) ∧ 0 ≤ log_pos l b < l_n l ∧ znth 0 (l_block l) (log_pos l b) = b) ∨
  ((b ∉ logged l) ∧ log_pos l b = l_n l).
Proof.
  intros Hl Hhome Hb. pose proof (lo_n _ _ _ Hl) as Hn.
  assert (Hu : ∀ i, 0 ≤ i < l_n l → u32 (znth 0 (l_block l) i) = znth 0 (l_block l) i).
  { intros i Hi. apply u32_id. destruct (Hhome (znth 0 (l_block l) i)) as [Hx _]; [|lia].
    eapply elem_of_logged; eauto. }
  unfold log_pos. destruct (zfind _ _ _) as [i|] eqn:E; cbn [from_option id].
  - apply zfind_Some in E as (H1 & H2 & _). left. rewrite Hu in H2 by lia.
    apply Z.eqb_eq in H2. split_and!; [|lia..|done]. eapply elem_of_logged; [done|].
    exists i. split; [lia|done].
  - right. split; [|done]. intros (i & Hi & Hx)%(elem_of_logged dev start); [|done].
    apply (zfind_None _ _ _) with (j := i) in E; [|lia]. rewrite Hu, Hx, Z.eqb_refl in E by done. done.
Qed.

Lemma tx_logged_again D held lg out A l b h d :
  tx_abs D held lg out A l → b ∈ logged l → held !! b = Some (h, d) → wf_block d →
  tx_abs (<[b := d]> D) held ({[b]} ∪ lg) out A l.
Proof.
  intros HT Hin Hb Hwf. destruct HT. constructor; try done.
  - intros x. rewrite elem_of_union, elem_of_singleton, tx_lg0. naive_solver.
  - intros x. specialize (tx_act0 x). unfold tx_ent in *.
    destruct (held !! x) as [[h' d']|] eqn:E; [done|]. case_decide; [|done].
    destruct tx_act0 as [h' Hx]. exists h'. rewrite fn_lookup_insert_ne by congruence. done.
  - intros x Hx Hnx. rewrite fn_lookup_insert_ne by congruence. by apply tx_disk0.
  - intros x Hx. destruct (decide (b = x)) as [->|]; [by rewrite fn_lookup_insert|].
    rewrite fn_lookup_insert_ne by done. by apply tx_wf0.
Qed.

Lemma logged_snoc l b :
  log_ok dev start l → l_n l < LOGBLOCKS →
  logged (set_l_n (l_n l + 1) (set_l_block (zset (l_block l) (l_n l) b) l)) = logged l ++ [b].
Proof.
  intros Hl Hn. pose proof (lo_n _ _ _ Hl) as Hn'. pose proof (lo_len _ _ _ Hl) as Hlen.
  unfold logged. cbn. unfold zset. destruct (l_n l <? 0) eqn:?; [lia|]. unfold len in Hlen.
  replace (Z.to_nat (l_n l + 1)) with (S (Z.to_nat (l_n l))) by lia.
  rewrite (take_S_r _ _ b) by (apply list_lookup_insert_eq; lia). f_equal.
  by rewrite take_insert_ge by lia.
Qed.

Lemma tx_logged_new D held lg out A l b h d :
  tx_abs D held lg out A l → l_n l < LOGBLOCKS → b ∉ logged l → held !! b = Some (h, d) →
  wf_block d →
  tx_abs (<[b := d]> D) held ({[b]} ∪ lg) out
    (a_set b (mkaent 2 (Some pid) d h) A)
    (set_l_n (l_n l + 1) (set_l_block (zset (l_block l) (l_n l) b) l)).
Proof.
  intros HT Hn Hni Hb Hwf. pose proof (tx_log _ _ _ _ _ _ HT) as Hl.
  pose proof (logged_snoc l b Hl Hn) as Hlog. pose proof (lo_n _ _ _ Hl) as Hn'.
  set (l' := set_l_n _ _) in *. destruct HT.
  assert (Hhome : home start b) by eauto.
  constructor; try done; rewrite ?Hlog.
  - destruct Hl. constructor; try done; cbn; [by rewrite len_zset|lia].
  - apply NoDup_app. split_and!; [done| |apply NoDup_singleton].
    intros x Hx ->%list_elem_of_singleton. done.
  - intros x. rewrite elem_of_union, elem_of_singleton, elem_of_app, list_elem_of_singleton, tx_lg0. tauto.
  - intros x [Hx| ->%list_elem_of_singleton]%elem_of_app; eauto.
  - intros x. unfold tx_ent. cbn. destruct (decide (b = x)) as [<-|Hne].
    + rewrite lookup_insert_eq, Hb, decide_True; [done|]. apply elem_of_app. right. by left.
    + rewrite lookup_insert_ne, fn_lookup_insert_ne by done. specialize (tx_act0 x). unfold tx_ent in tx_act0.
      assert (Hiff : x ∈ logged l ++ [b] ↔ x ∈ logged l)
        by (rewrite elem_of_app, list_elem_of_singleton; naive_solver).
      destruct (held !! x) as [[h' d']|] eqn:E.
      * by rewrite (decide_ext _ _ _ _ Hiff).
      * repeat case_decide; tauto.
  - intros x Hx Hnx. rewrite elem_of_app, list_elem_of_singleton in Hnx.
    rewrite fn_lookup_insert_ne by naive_solver. apply tx_disk0; naive_solver.
  - intros x Hx. destruct (decide (b = x)) as [->|]; [by rewrite fn_lookup_insert|].
    rewrite fn_lookup_insert_ne by done. by apply tx_wf0.
Qed.

Lemma wp_log_write D held lg out A l b h d :
  tx_abs D held lg out A l → held !! b = Some (h, d) → 1 ≤ out → Z.of_nat (size lg) < LOGBLOCKS →
  wp dev pid (log_write me h) A l (λ _ A' l', tx_abs (<[b := d]> D) held ({[b]} ∪ lg) out A' l').
Proof.
  intros HT Hb Hout Hsz. pose proof (tx_log _ _ _ _ _ _ HT) as Hl. pose proof (lo_n _ _ _ Hl) as Hn.
  rewrite (tx_lg_size _ _ _ _ _ _ HT) in Hsz. pose proof (tx_held _ _ _ _ _ _ _ _ _ HT Hb) as Ha.
  pose proof (tx_home_held _ _ _ _ _ _ HT _ _ Hb) as [Hb1 _]. pose proof LOGBLOCKS_30 as HL.
  unfold log_write. apply wp_acquire; [apply Hl|]. set (l1 := set_l_lock _ l).
  apply wp_get. intros c0 HR0. cbn [ls_log ls_cache]. change (l_n l1) with (l_n l).
  change (l_outstanding l1) with (l_outstanding l). rewrite (tx_out _ _ _ _ _ _ HT).
  destruct (LOGBLOCKS <=? l_n l) eqn:E1; [lia|]. destruct (out <? 1) eqn:E2; [lia|].
  destruct (rep_data (BufCacheSpec := BCS) A c0 b _ HR0 Ha) as [_ Hbn]. cbn [ae_h] in Hbn. rewrite Hbn.
  pose proof (rep_wf_data (BufCacheSpec := BCS) A c0 b _ HR0 Ha) as Hwf. cbn [ae_data] in Hwf.
  apply (wp_find _ _ (λ i, u32 (znth 0 (l_block l) i) =? b)).
  { intros i c Hi _. run. step_by (in_bounds_ok i LOGBLOCKS (mklstate c l1) ltac:(lia)).
    cbn [ls_log]. by destruct (_ =? b). }
  match goal with |- context [match zfind ?f ?n ?lo with Some i => i | None => ?x end] =>
    change (match zfind f n lo with Some i => i | None => x end) with (log_pos l b) end.
  pose proof (log_pos_spec l b Hl (tx_home_lg _ _ _ _ _ _ HT) Hb1) as Hpos.
  apply wp_in_bounds; [destruct Hpos as [(_ & ? & _)|(_ & ?)]; lia|]. apply wp_log.
  rewrite s32_id by lia. destruct Hpos as [(Hin & Hp & Hpb)|(Hni & ->)].
  - destruct (log_pos l b =? l_n l) eqn:E; [lia|].
    assert (Hsame : zset (l_block l) (log_pos l b) b = l_block l).
    { rewrite <-Hpb at 2. apply zset_same. rewrite (lo_len _ _ _ Hl). lia. }
    cbn [l_block l1 set_l_lock]. rewrite Hsame.
    apply wp_skip.
    eapply wp_release; [done|]. replace (set_l_lock _ _) with l by (rewrite <-(set_l_lock_id l _ (lo_lock _ _ _ Hl) eq_refl) at 1; by destruct l).
    by eapply tx_logged_again.
  - rewrite Z.eqb_refl. apply wp_assoc.
    eapply wp_bpin; [exact Ha|done|by rewrite decide_False|]. rewrite decide_False by done. cbn.
    apply wp_log. eapply wp_release; [done|].
    pose proof (tx_logged_new _ _ _ _ _ _ b h d HT ltac:(lia) Hni Hb Hwf) as HT'.
    match type of HT' with tx_abs _ _ _ _ _ ?l' =>
      assert (set_l_lock (mkspinlock 0 (lk_name (l_lock l)) None) l' = l') as Hlk
        by (by apply set_l_lock_id; [apply Hl|]) end.
    rewrite <-Hlk in HT'. exact HT'.
Qed.

Lemma law_tx_log_write out D held lg s b h d :
  tx_rep out D held lg s → held !! b = Some (h, d) → 1 ≤ out → Z.of_nat (size lg) < LOGBLOCKS →
  ∃ s', log_write me h s = Ok tt s' ∧ tx_rep out (<[b := d]> D) held ({[b]} ∪ lg) s'.
Proof.
  intros (A & HR & HT) Hb Hout Hsz. destruct s as [c l].
  destruct (wp_run _ _ _ _ _ _ _ (wp_log_write _ _ _ _ _ _ _ _ _ HT Hb Hout Hsz) HR)
    as ([] & c' & A' & l' & Hr & HR' & HT').
  exists (mklstate c' l'). split; [done|]. by exists A'.
Qed.

(** [begin_op] in every case: wait while the log is committing or cannot
    promise [MAXOPBLOCKS] more blocks, else enter. *)
Lemma begin_op_cases out D held lg s :
  tx_rep out D held lg s →
  if LOGBLOCKS <? Z.of_nat (size lg) + (out + 1) * MAXOPBLOCKS
  then begin_op me s = Sleep log_chan s
  else ∃ s', begin_op me s = Ok tt s' ∧ tx_rep (out + 1) D held lg s'.
Proof.
  intros (A & HR & HT). rewrite (tx_lg_size _ _ _ _ _ _ HT). destruct s as [c l]. cbn [ls_log ls_cache] in *.
  pose proof (tx_log _ _ _ _ _ _ HT) as Hl. pose proof (lo_lock _ _ _ Hl) as Hlk.
  unfold begin_op. step_by (log_acquire me c l Hlk).
  cbn [ls_log l_committing l_n l_outstanding set_l_lock busy].
  rewrite (tx_committing _ _ _ _ _ _ HT), (tx_out _ _ _ _ _ _ HT). cbn [Z.eqb negb].
  destruct (LOGBLOCKS <? _) eqn:E.
  - unfold sleep_on. by step_by (log_release me c l Hlk).
  - exists (mklstate c (set_l_outstanding (out + 1) l)). split.
    + rewrite <-(tx_out _ _ _ _ _ _ HT). by apply (log_release me c (set_l_outstanding _ l)).
    + exists A. split; [done|]. destruct HT. constructor; try done. destruct Hl. by constructor.
Qed.

Lemma wp_release_busy A l (Q : unit → abuf H → log → Prop) :
  unlocked (l_lock l) → Q tt A l → wp dev pid (zoom log_lockL (release_lk me)) A (busy me l) Q.
Proof.
  intros Hu HQ c HR. unfold returns. rewrite log_release by done. by exists A.
Qed.

Lemma wp_bind_release {T} (k : unit → M (lstate C) T) A l Q :
  unlocked (l_lock l) → wp dev pid (k tt) A l Q →
  wp dev pid (bind (zoom log_lockL (release_lk me)) k) A (busy me l) Q.
Proof. intros Hu Hk. apply wp_bind. by apply wp_release_busy. Qed.

(** [end_op] of a system call that is not the last one inside. *)
Lemma wp_end_op_more D held lg out A l :
  tx_abs D held lg out A l → out ≠ 1 →
  wp dev pid (end_op me) A l (λ _ A' l', A' = A ∧ tx_abs D held lg (out - 1) A' l').
Proof.
  intros HT Hout. pose proof (tx_log _ _ _ _ _ _ HT) as Hl. unfold end_op.
  apply wp_acquire; [apply Hl|]. apply wp_log. apply wp_get. intros c _. cbn [ls_log].
  cbn [l_committing l_outstanding set_l_lock set_l_outstanding].
  rewrite (tx_committing _ _ _ _ _ _ HT), (tx_out _ _ _ _ _ _ HT). cbn [Z.eqb negb].
  destruct (out - 1 =? 0) eqn:E; [lia|]. apply wp_skip.
  apply (wp_bind_release _ A (set_l_outstanding (out - 1) l)); [apply Hl|]. apply wp_ret. split; [done|].
  destruct HT. constructor; try done. destruct Hl. by constructor.
Qed.

(** [end_op] of the last one commits. *)
Lemma wp_end_op_last D lg A l :
  tx_abs D ∅ lg 1 A l → Z.of_nat (size lg) < NBUF →
  wp dev pid (end_op me) A l (λ _ A' l', tx_abs D ∅ ∅ 0 A' l' ∧
    traced (a_disk A) (a_writes A) (λ d, durable start d (a_disk A) ∨ durable start d D) A' ∧
    clean start (a_disk A') D).
Proof.
  intros HT Hsz. pose proof (tx_log _ _ _ _ _ _ HT) as Hl. unfold end_op.
  apply wp_acquire; [apply Hl|]. apply wp_log. apply wp_get. intros c _. cbn [ls_log].
  cbn [l_committing l_outstanding set_l_lock set_l_outstanding].
  rewrite (tx_committing _ _ _ _ _ _ HT), (tx_out _ _ _ _ _ _ HT). cbn [Z.eqb negb Z.sub Z.opp Z.add Z.pos_sub].
  apply wp_assoc, wp_log, wp_skip. set (l1 := set_l_committing 1 (set_l_outstanding 0 l)).
  apply (wp_bind_release _ A l1); [apply Hl|].
  assert (Hl1 : log_ok dev start l1) by (destruct Hl; by constructor).
  apply wp_bind. eapply wp_commit; [done|done| | |apply HT|apply HT| |].
  - eapply tx_area_free; [done|]. by rewrite map_size_empty.
  - intros i Hi. assert (Hin : znth 0 (l_block l) i ∈ logged l) by (eapply elem_of_logged; eauto).
    split; [by apply (tx_home_lg _ _ _ _ _ _ HT)|].
    pose proof (tx_act _ _ _ _ _ _ HT (znth 0 (l_block l) i)) as Ha. unfold tx_ent in Ha.
    rewrite lookup_empty, decide_True in Ha by done. done.
  - apply HT.
  - intros A' Htr Hcl Hact. apply wp_acquire; [apply Hl|]. apply wp_log, wp_skip.
    apply (wp_release_busy A' (set_l_committing 0 (set_l_n 0 l1))); [apply Hl|]. split; [|done].
    destruct HT, Hl. constructor; try done.
    + by constructor.
    + intros b. change (logged _) with (@nil Z). set_solver.
    + intros b Hb. by apply not_elem_of_nil in Hb.
    + apply Hcl.
    + intros b. unfold tx_ent. rewrite lookup_empty, decide_False by apply not_elem_of_nil.
      rewrite Hact. unfold undone. case_decide as Hd; [done|]. specialize (tx_act0 b).
      unfold tx_ent in tx_act0. by rewrite lookup_empty, decide_False in tx_act0.
    + intros b Hb _. by apply Hcl.
Qed.
End tx.

(** The interface of TxSpec.v, for a transaction with [out] > 0 system calls inside. *)
#[export] Program Instance log_txn_spec {C H} `{BC : BufCache C H} (me dev pid start out : Z)
    `{BCS : !BufCacheSpec C H dev pid} (Harea : area_ok dev start) (Hout : 1 ≤ out) :
    TxnSpec (lstate C) H (TX := log_txn me) dev := {
  t_home := home start;
  t_rep := tx_rep dev pid start out;
}.
Next Obligation. intros C H BC me dev pid start out BCS Harea Hout D held lg s b (A & HR & HT). apply HT. Qed.
Next Obligation.
  intros C H BC me dev pid start out BCS Harea Hout D held lg s b h d (A & HR & HT) Hb.
  eapply rep_data_at; [exact HR|by eapply tx_held|done|done].
Qed.
Next Obligation. intros. eapply law_tx_bread; done. Qed.
Next Obligation. intros. eapply law_tx_setdata; done. Qed.
Next Obligation. intros. eapply law_tx_log_write; done. Qed.
Next Obligation. intros. eapply law_tx_brelse; done. Qed.

(** * Theorems *)

Section theorems.
  Context {C H : Type} `{BC : BufCache C H} (me dev pid start : Z) `{BCS : !BufCacheSpec C H dev pid}.
  Implicit Types (A : abuf H) (c : C) (l : log) (D : Z → list Z).

(** The log record before [initlog]. *)
Definition blank_log l : Prop :=
  len (l_block l) = LOGBLOCKS ∧ l_n l = 0 ∧ l_outstanding l = 0 ∧ l_committing l = 0.

Lemma wp_initlog A l D (Q : unit → abuf H → log → Prop) :
  area_ok dev start → blank_log l → a_act A = ∅ → durable start (a_disk A) D →
  (∀ A' l', tx_abs dev pid start D ∅ ∅ 0 A' l' →
     traced (a_disk A) (a_writes A) (λ d, durable start d D) A' → clean start (a_disk A') D →
     Q tt A' l') →
  wp dev pid (initlog dev start) A l Q.
Proof.
  intros Harea (Hb1 & Hb2 & Hb3 & Hb4) HA Hdur HQ. pose proof Harea as (Hs0 & Hs1 & Hdv).
  pose proof LOGBLOCKS_30 as HL. unfold initlog. change (BSIZE <=? SIZEOF_LOGHEADER) with false. cbv iota.
  do 3 apply wp_log. rewrite s32_id by lia.
  apply wp_wf, (wp_recover dev pid start Harea A _ D); [|done|done|].
  { constructor; try done; cbn; lia. }
  intros A' bs HA' Hbs Htr Hcl Hwf. apply (HQ A'); try done.
  constructor; try done.
  - constructor.
  - intros b. change (logged _) with (@nil Z). set_solver.
  - intros b Hb. by apply not_elem_of_nil in Hb.
  - apply Hcl.
  - intros b. unfold tx_ent. rewrite lookup_empty, decide_False by apply not_elem_of_nil. by rewrite HA'.
  - intros b Hb _. by apply Hcl.
  - intros b Hb. destruct Hcl as [_ Hcl]. rewrite <-Hcl by done. apply Hwf.
Qed.

(** C1: Transactions are atomic with respect to crashes.  When the last system
    call leaves its transaction, [end_op] commits: the home blocks of the disk
    become the transaction's view [D].  Stop the machine after any number of
    the disk writes this makes, and boot again with an empty cache over the
    disk as it then is: [initlog] succeeds, and the home blocks are all as
    they were before the transaction, or all as it left them. *)
Theorem commit_crash_safe s D lg :
  area_ok dev start → tx_rep dev pid start 1 D ∅ lg s → Z.of_nat (size lg) < NBUF →
  ∃ A s' A' W,
    c_rep A (ls_cache s) ∧ end_op me s = Ok tt s' ∧ c_rep A' (ls_cache s') ∧
    tx_rep dev pid start 0 D ∅ ∅ s' ∧
    a_writes A' = a_writes A ++ W ∧ a_disk A' = apply_writes W (a_disk A) ∧
    clean start (a_disk A') D ∧
    ∀ W' c0 l0 ws, W' `prefix_of` W → blank_log l0 →
      c_rep (mkabuf ∅ (apply_writes W' (a_disk A)) ws) c0 →
      ∃ s2 A2, initlog dev start (mklstate c0 l0) = Ok tt s2 ∧ c_rep A2 (ls_cache s2) ∧
        (clean start (a_disk A2) (a_disk A) ∨ clean start (a_disk A2) D).
Proof.
  intros Harea (A & HR & HT) Hsz. destruct s as [c l].
  destruct (wp_run _ _ _ _ _ _ _ (wp_end_op_last me dev pid start Harea _ _ _ _ HT Hsz) HR)
    as ([] & c' & A' & l' & Hr & HR' & HT' & (W & HW1 & HW2 & HW3) & Hcl).
  exists A, (mklstate c' l'), A', W. split_and!; try done. { by exists A'. }
  intros W' c0 l0 ws Hpre Hl0 HR0.
  assert (Hrec : ∀ D', durable start (apply_writes W' (a_disk A)) D' →
    ∃ s2 A2, initlog dev start (mklstate c0 l0) = Ok tt s2 ∧ c_rep A2 (ls_cache s2) ∧
      clean start (a_disk A2) D').
  { intros D' Hd.
    assert (Hw : wp dev pid (initlog dev start) (mkabuf ∅ (apply_writes W' (a_disk A)) ws) l0
                   (λ _ A2 _, clean start (a_disk A2) D')) by (by eapply wp_initlog).
    destruct (wp_run _ _ _ _ _ _ _ Hw HR0) as ([] & c2 & A2 & l2 & Hr2 & HR2 & Hc2).
    by exists (mklstate c2 l2), A2. }
  destruct (HW3 W' Hpre) as [Hd|Hd]; destruct (Hrec _ Hd) as (s2 & A2 & H1 & H2 & H3);
    exists s2, A2; tauto.
Qed.

(** C33: Recovery can itself be interrupted.  From any disk that describes the
    contents [D] (a crash after the commit point, or after a completed
    commit), [initlog] on an empty cache succeeds, installs [D] and opens the
    log; and after any number of the disk writes it makes, the disk still
    describes [D], so that the next recovery installs it too. *)
Theorem recovery_idempotent c0 l0 dk ws D :
  area_ok dev start → blank_log l0 → c_rep (mkabuf ∅ dk ws) c0 → durable start dk D →
  ∃ s' A' W, initlog dev start (mklstate c0 l0) = Ok tt s' ∧
    c_rep A' (ls_cache s') ∧ tx_rep dev pid start 0 D ∅ ∅ s' ∧
    a_disk A' = apply_writes W dk ∧ clean start (a_disk A') D ∧
    ∀ W', W' `prefix_of` W → durable start (apply_writes W' dk) D.
Proof.
  intros Harea Hl0 HR0 Hd.
  assert (Hw : wp dev pid (initlog dev start) (mkabuf ∅ dk ws) l0
    (λ _ A' l', tx_abs dev pid start D ∅ ∅ 0 A' l' ∧
      traced dk ws (λ d, durable start d D) A' ∧ clean start (a_disk A') D)) by (by eapply wp_initlog).
  destruct (wp_run _ _ _ _ _ _ _ Hw HR0) as ([] & c' & A' & l' & Hr & HR' & HT & (W & _ & HW2 & HW3) & Hcl).
  exists (mklstate c' l'), A', W. split_and!; try done. by exists A'.
Qed.

(** ** A full log *)

Lemma write_log_full A c l :
  log_ok dev start l → area_ok dev start → 0 < l_n l → c_rep A c →
  a_act A !! (start + 1) = None → Z.of_nat (size (a_act A)) = NBUF →
  write_log (mklstate c l) = Panic "bget: no buffers".
Proof.
  intros Hl (Hs0 & Hs1 & Hdv) Hn HR Ha Hsz. unfold write_log. run. apply bind_panic.
  pose proof LOGBLOCKS_30 as HL. cbn [ls_log].
  replace (Z.to_nat (l_n l)) with (S (Z.to_nat (l_n l - 1))) by lia. cbn [for_up].
  rewrite bind_get. cbn [ls_log]. rewrite (lo_start _ _ _ Hl), s32_id by lia.
  rewrite Z.add_0_r. unfold log_bread. rewrite bind_assoc, bind_get. cbn [ls_log].
  rewrite (lo_dev _ _ _ Hl), !u32_id by lia.
  erewrite bind_panic; [done|]. apply zoom_panic. by apply (bread_full A c).
Qed.

(** A commit with every buffer pinned finds no buffer for the first log block. *)
Lemma end_op_full s D lg :
  area_ok dev start → tx_rep dev pid start 1 D ∅ lg s → Z.of_nat (size lg) = LOGBLOCKS →
  end_op me s = Panic "bget: no buffers".
Proof.
  intros Harea (A & HR & HT) Hsz. destruct s as [c l]. cbn [ls_cache ls_log] in *.
  pose proof (tx_log _ _ _ _ _ _ _ _ _ HT) as Hl. pose proof (lo_lock _ _ _ Hl) as Hlk.
  pose proof (tx_lg_size _ _ _ _ _ _ _ _ _ HT) as Hn. pose proof LOGBLOCKS_30 as HL. pose proof NBUF_30 as HN.
  assert (Hact : ∀ b, is_Some (a_act A !! b) ↔ b ∈ lg).
  { intros b. pose proof (tx_act _ _ _ _ _ _ _ _ _ HT b) as Ha. unfold tx_ent in Ha.
    rewrite lookup_empty in Ha. rewrite (tx_lg _ _ _ _ _ _ _ _ _ HT b).
    case_decide; [destruct Ha as [h ->]|rewrite Ha]; split; try done. }
  assert (Hsz' : Z.of_nat (size (a_act A)) = NBUF).
  { rewrite <-size_dom. assert (dom (a_act A) = lg) as -> by (apply set_eq; intros; by rewrite elem_of_dom, Hact).
    lia. }
  assert (Hfree : a_act A !! (start + 1) = None).
  { apply eq_None_not_Some. rewrite Hact, (tx_lg _ _ _ _ _ _ _ _ _ HT). intros Hin.
    apply (tx_home_lg _ _ _ _ _ _ _ _ _ HT) in Hin as [_ ?]. lia. }
  unfold end_op. step_by (log_acquire me c l Hlk).
  set (l1 := set_l_committing 1 (set_l_outstanding 0 l)).
  rewrite (bind_ok _ _ _ tt (mklstate c (busy me (set_l_outstanding 0 l))))
    by (unfold zoom; cbn; by rewrite (tx_out _ _ _ _ _ _ _ _ _ HT)).
  run. cbn [ls_log l_committing l_outstanding set_l_outstanding busy set_l_lock].
  rewrite (tx_committing _ _ _ _ _ _ _ _ _ HT). cbn [Z.eqb negb].
  rewrite bind_assoc, (bind_ok _ _ _ tt (mklstate c (busy me l1))) by done. run.
  step_by (log_release me c l1 Hlk). apply bind_panic. unfold commit. run. cbn [ls_log].
  change (l_n l1) with (l_n l). destruct (0 <? l_n l) eqn:E; [|lia].
  apply bind_panic. apply (write_log_full A); try done; [destruct Hl; by constructor|cbn; lia].
Qed.

(** ** Reserved space *)

(** The way the file system changes a block. *)
Definition update_block (b : Z) (d : list Z) : M (lstate C) unit :=
  h <- zoom cacheL (c_bread dev b) ;;
  zoom cacheL (c_setdata h d) ;;
  log_write me h ;;
  zoom cacheL (c_brelse h).

Lemma update_block_ok out D lg s b d :
  area_ok dev start → tx_rep dev pid start out D ∅ lg s → 1 ≤ out → home start b → wf_block d →
  Z.of_nat (size lg) < LOGBLOCKS →
  ∃ s', update_block b d s = Ok tt s' ∧ tx_rep dev pid start out (<[b := d]> D) ∅ ({[b]} ∪ lg) s'.
Proof.
  intros Harea HT Hout Hb Hd Hsz. unfold update_block.
  destruct (law_tx_bread dev pid start Harea out D ∅ lg s b HT Hb) as (h & s1 & H1 & HT1);
    [done|rewrite map_size_empty; exact Hsz|]. step_by H1.
  destruct (law_tx_setdata dev pid start out D _ lg s1 b h _ d HT1 (lookup_insert_eq _ _ _) Hd) as (s2 & H2 & HT2).
  step_by H2. rewrite insert_insert_eq in HT2.
  destruct (law_tx_log_write me dev pid start out D _ lg s2 b h d HT2 (lookup_insert_eq _ _ _) Hout Hsz) as (s3 & H3 & HT3).
  step_by H3.
  destruct (law_tx_brelse dev pid start out _ _ _ s3 b h d HT3 (lookup_insert_eq _ _ _)) as (s4 & H4 & HT4).
  { by rewrite fn_lookup_insert. }
  exists s4. split; [done|]. rewrite delete_insert_id in HT4 by done. done.
Qed.

(** A full log refuses a block it has already. *)
Lemma update_block_full out D lg s b d :
  tx_rep dev pid start out D ∅ lg s → b ∈ lg → wf_block d → Z.of_nat (size lg) = LOGBLOCKS →
  update_block b d s = Panic "too big a transaction".
Proof.
  intros (A & HR & HT) Hb Hd Hsz. pose proof (tx_lg _ _ _ _ _ _ _ _ _ HT b) as Hlg. apply Hlg in Hb as Hin.
  pose proof (tx_act _ _ _ _ _ _ _ _ _ HT b) as Ha. unfold tx_ent in Ha. rewrite lookup_empty, decide_True in Ha by done.
  destruct Ha as [h Ha]. unfold update_block.
  destruct (bread_hit A (ls_cache s) b _ HR Ha eq_refl eq_refl) as (c' & Hr & HR').
  step_by (zoom_ok cacheL _ s _ _ Hr).
  edestruct (setdata_ok _ _ b _ d HR' (lookup_insert_eq _ _ _) eq_refl Hd) as (c2 & Hr2 & _). cbn [ae_h] in Hr2.
  step_by (zoom_ok cacheL _ (upd cacheL c' s) _ _ Hr2).
  apply bind_panic. unfold log_write. destruct s as [c l].
  pose proof (lo_lock _ _ _ (tx_log _ _ _ _ _ _ _ _ _ HT)) as Hlk. pose proof (tx_lg_size _ _ _ _ _ _ _ _ _ HT) as Hn.
  step_by (log_acquire me c2 l Hlk).
  cbn [ls_log] in *. change (l_n (busy me l)) with (l_n l). rewrite (proj2 (Z.leb_le LOGBLOCKS (l_n l))) by lia. done.
Qed.

(** System calls interleave: each enters, changes blocks, leaves.  The list
    holds, for each system call inside, the set of blocks it has changed: a
    block changed again does not count twice. *)
Inductive op_step : lstate C * list (gset Z) → lstate C * list (gset Z) → Prop :=
| op_begin s s' ops :
    begin_op me s = Ok tt s' → op_step (s, ops) (s', ∅ :: ops)
| op_write s s' o1 X o2 b d :
    home start b → wf_block d → Z.of_nat (size ({[b]} ∪ X)) ≤ MAXOPBLOCKS → update_block b d s = Ok tt s' →
    op_step (s, o1 ++ X :: o2) (s', o1 ++ ({[b]} ∪ X) :: o2)
| op_end s s' o1 X o2 :
    end_op me s = Ok tt s' → op_step (s, o1 ++ X :: o2) (s', o1 ++ o2).

(** The part of its reservation a system call has not used. *)
Definition unused (X : gset Z) : Z := MAXOPBLOCKS - Z.of_nat (size X).

Definition reserved (x : lstate C * list (gset Z)) : Prop :=
  ∃ D lg, tx_rep dev pid start (len x.2) D ∅ lg x.1 ∧
    Forall (λ X, X ⊆ lg ∧ 0 ≤ unused X) x.2 ∧
    Z.of_nat (size lg) + zsum (unused <$> x.2) ≤ LOGBLOCKS.

Lemma unused_bounds lg ops : Forall (λ X, X ⊆ lg ∧ 0 ≤ unused X) ops → 0 ≤ zsum (unused <$> ops) ≤ MAXOPBLOCKS * len ops.
Proof.
  intros Hf. rewrite Forall_forall in Hf. replace (len ops) with (len (unused <$> ops)) by (unfold len; by rewrite length_fmap).
  apply zsum_bounds, Forall_fmap, Forall_forall. intros X HX. specialize (Hf X HX). cbn. unfold unused in *. lia.
Qed.

(** A change within the reservation succeeds, unless the log is full. *)
Lemma reserved_update D lg s ops X b d :
  area_ok dev start → tx_rep dev pid start (len ops) D ∅ lg s → Forall (λ X, X ⊆ lg ∧ 0 ≤ unused X) ops →
  Z.of_nat (size lg) + zsum (unused <$> ops) ≤ LOGBLOCKS →
  X ∈ ops → Z.of_nat (size ({[b]} ∪ X)) ≤ MAXOPBLOCKS → home start b → wf_block d →
  (Z.of_nat (size lg) < LOGBLOCKS ∧
   ∃ s', update_block b d s = Ok tt s' ∧ tx_rep dev pid start (len ops) (<[b := d]> D) ∅ ({[b]} ∪ lg) s') ∨
  (Z.of_nat (size lg) = LOGBLOCKS ∧ b ∈ X ∧ Forall (λ Y, unused Y = 0) ops ∧
   update_block b d s = Panic "too big a transaction").
Proof.
  intros Harea HT Hf Hs HX Hk Hb Hd. apply unused_bounds in Hf as Hz.
  destruct (decide (Z.of_nat (size lg) = LOGBLOCKS)) as [Hfull|Hnf].
  - right. assert (H0 : Forall (λ Y, unused Y = 0) ops).
    { apply Forall_forall. intros Y HY. apply list_elem_of_split in HY as (o1 & o2 & ->).
      rewrite Forall_app, Forall_cons in Hf. destruct Hf as (Hf1 & [_ HY] & Hf2). apply unused_bounds in Hf1, Hf2.
      rewrite fmap_app, fmap_cons, zsum_app in Hs. cbn [zsum] in Hs. lia. }
    assert (HbX : b ∈ X).
    { destruct (decide (b ∈ X)) as [|Hn]; [done|]. rewrite size_union, size_singleton in Hk by set_solver.
      rewrite Forall_forall in H0. specialize (H0 X HX). unfold unused in H0. lia. }
    split_and!; try done. eapply update_block_full; [done| |done|done].
    rewrite Forall_forall in Hf. destruct (Hf X HX) as [Hsub _]. set_solver.
  - left. split; [lia|]. apply update_block_ok; try done; [|lia].
    destruct ops; [by apply elem_of_nil in HX|]. rewrite len_cons. pose proof (len_nonneg ops). lia.
Qed.

Lemma reserved_write s s' o1 X o2 b d :
  area_ok dev start → reserved (s, o1 ++ X :: o2) → home start b → wf_block d →
  Z.of_nat (size ({[b]} ∪ X)) ≤ MAXOPBLOCKS → update_block b d s = Ok tt s' → reserved (s', o1 ++ ({[b]} ∪ X) :: o2).
Proof.
  intros Harea (D & lg & HT & Hf & Hs) Hb Hd Hk Hr. cbn [fst snd] in *.
  destruct (reserved_update D lg s (o1 ++ X :: o2) X b d) as [(Hlt & s1 & Hr1 & HT1)|(_ & _ & _ & Hp)]; try done; [set_solver| |congruence].
  rewrite Hr in Hr1. injection Hr1 as <-. exists (<[b := d]> D), ({[b]} ∪ lg). cbn [fst snd].
  rewrite !len_app, !len_cons in *. rewrite !fmap_app, !fmap_cons, !zsum_app in *. cbn [zsum] in *.
  rewrite !Forall_app, !Forall_cons in *. destruct Hf as (Hf1 & [HX HX0] & Hf2). split_and!; [done|..].
  - eapply Forall_impl; [exact Hf1|]. cbn. intros Y [? ?]. split; [set_solver|done].
  - set_solver.
  - unfold unused. lia.
  - eapply Forall_impl; [exact Hf2|]. cbn. intros Y [? ?]. split; [set_solver|done].
  - unfold unused in *. pose proof (size_add b lg). destruct (decide (b ∈ X)) as [HbX|HbX].
    + replace ({[b]} ∪ X) with X by set_solver. replace ({[b]} ∪ lg) with lg by set_solver. lia.
    + rewrite (size_union {[b]} X), size_singleton by set_solver. lia.
Qed.

Lemma reserved_end s s' o1 X o2 :
  area_ok dev start → reserved (s, o1 ++ X :: o2) → end_op me s = Ok tt s' → reserved (s', o1 ++ o2).
Proof.
  intros Harea (D & lg & HT & Hf & Hs) Hr. pose proof LOGBLOCKS_30 as HL. cbn [fst snd] in *.
  rewrite Forall_app, Forall_cons in Hf. destruct Hf as (Hf1 & [_ HX0] & Hf2).
  rewrite fmap_app, fmap_cons, zsum_app in Hs. rewrite len_app, len_cons in HT. cbn [zsum] in Hs.
  destruct HT as (A & HR & HT). destruct s as [c l]. cbn [ls_cache ls_log] in *.
  pose proof (len_nonneg o1) as L1. pose proof (len_nonneg o2) as L2.
  destruct (decide (len o1 + (1 + len o2) = 1)) as [H1|H1].
  - rewrite H1 in HT. destruct (decide (Z.of_nat (size lg) = LOGBLOCKS)) as [Hfull|Hnf].
    { rewrite (end_op_full _ D lg Harea) in Hr; [done|by exists A|done]. }
    apply unused_bounds in Hf1 as Hz1. apply unused_bounds in Hf2 as Hz2.
    destruct (wp_run _ _ _ _ _ _ _ (wp_end_op_last me dev pid start Harea _ _ _ _ HT ltac:(unfold NBUF; unfold LOGBLOCKS in *; lia)) HR)
      as ([] & c' & A' & l' & Hr' & HR' & HT' & _).
    rewrite Hr in Hr'. simplify_eq. assert (o1 = [] ∧ o2 = []) as [-> ->] by (destruct o1, o2; unfold len in *; cbn in H1; try lia; done).
    exists D, ∅. cbn [fst snd app]. rewrite size_empty. split_and!; [by exists A'|constructor|done].
  - destruct (wp_run _ _ _ _ _ _ _ (wp_end_op_more me dev pid start _ _ _ _ _ _ HT H1) HR)
      as ([] & c' & A' & l' & Hr' & HR' & -> & HT').
    rewrite Hr in Hr'. simplify_eq. exists D, lg. cbn [fst snd]. rewrite len_app, fmap_app, zsum_app.
    split_and!; [|by apply Forall_app|lia]. exists A. split; [done|].
    by replace (len o1 + len o2) with (len o1 + (1 + len o2) - 1) by lia.
Qed.

Lemma reserved_step x y : area_ok dev start → reserved x → op_step x y → reserved y.
Proof.
  intros Harea Hx Hstep. destruct Hstep as [s s' ops Hr|s s' o1 X o2 b d Hb Hd Hk Hr|s s' o1 X o2 Hr];
    [|by eapply reserved_write|by eapply reserved_end].
  destruct Hx as (D & lg & HT & Hf & Hs). pose proof (begin_op_cases me dev pid start _ _ _ _ _ HT) as Hc. cbn [fst snd] in *.
  destruct (LOGBLOCKS <? _) eqn:E; [congruence|]. destruct Hc as (s1 & Hr1 & HT1).
  rewrite Hr in Hr1. simplify_eq. exists D, lg. cbn [fst snd]. rewrite len_cons.
  replace (1 + len ops) with (len ops + 1) by lia. apply unused_bounds in Hf as Hz. split_and!; [done| |].
  - constructor; [|done]. split; [set_solver|]. unfold unused. rewrite size_empty. done.
  - rewrite fmap_cons. cbn [zsum]. unfold unused at 1. rewrite size_empty. lia.
Qed.

(** C34: reserving space in [begin_op] is enough.  However system calls
    interleave, as long as each changes at most [MAXOPBLOCKS] different blocks,
    each as often as it likes, the blocks logged and the reservations still
    open fit in the log.  A change within these bounds succeeds, whether the
    block is new to the log or absorbed, except at the very end: when every
    call inside has changed all of its [MAXOPBLOCKS] blocks and the log is
    full, changing one of them once more panics. *)
Theorem log_space_reserved s0 D0 s ops :
  area_ok dev start → tx_rep dev pid start 0 D0 ∅ ∅ s0 → rtc op_step (s0, []) (s, ops) →
  ∃ D lg, tx_rep dev pid start (len ops) D ∅ lg s ∧
    Z.of_nat (size lg) + zsum (unused <$> ops) ≤ LOGBLOCKS ∧
    ∀ X b d, X ∈ ops → Z.of_nat (size ({[b]} ∪ X)) ≤ MAXOPBLOCKS → home start b → wf_block d →
      (Z.of_nat (size lg) < LOGBLOCKS ∧
       ∃ s', update_block b d s = Ok tt s' ∧ tx_rep dev pid start (len ops) (<[b := d]> D) ∅ ({[b]} ∪ lg) s') ∨
      (Z.of_nat (size lg) = LOGBLOCKS ∧ b ∈ X ∧ Forall (λ Y, unused Y = 0) ops ∧
       update_block b d s = Panic "too big a transaction").
Proof.
  intros Harea HT0 Hrtc.
  assert (Hres : reserved (s, ops)).
  { assert (reserved (s0, [])) as H0.
    { exists D0, ∅. cbn. rewrite size_empty. split_and!; [done|constructor|done]. }
    revert H0. generalize dependent (s0, @nil (gset Z)). intros x Hrtc. generalize dependent (s, ops). intros y Hrtc.
    induction Hrtc as [|x y z Hxy _ IH]; [done|]. intros Hx. apply IH. by eapply reserved_step. }
  destruct Hres as (D & lg & HT & Hf & Hs). cbn [fst snd] in *. exists D, lg. split_and!; [done|done|].
  intros X b d. by apply reserved_update.
Qed.

(** A system call logs [n] fresh blocks. *)
Lemma writes_run n out D lg s o1 X o2 b0 :
  area_ok dev start → tx_rep dev pid start out D ∅ lg s → 1 ≤ out → Z.of_nat (size X) + Z.of_nat n ≤ MAXOPBLOCKS → X ⊆ lg →
  Z.of_nat (size lg) + Z.of_nat n ≤ LOGBLOCKS →
  start + LOGBLOCKS < b0 → b0 + Z.of_nat n ≤ 2147483648 → (∀ x, x ∈ lg → x < b0) →
  ∃ s' D' lg' X', rtc op_step (s, o1 ++ X :: o2) (s', o1 ++ X' :: o2) ∧
    tx_rep dev pid start out D' ∅ lg' s' ∧ size X' = (size X + n)%nat ∧
    Z.of_nat (size lg') = Z.of_nat (size lg) + Z.of_nat n ∧ (∀ x, x ∈ lg' → x < b0 + Z.of_nat n).
Proof.
  intros Harea HT Hout. revert D lg s X b0 HT. induction n as [|n IH]; intros D lg s X b0 HT Hk HX Hsz Hb0 Hb1 Hlg.
  - exists s, D, lg, X. split_and!; [done|done|lia|lia|]. intros x Hx%Hlg. lia.
  - pose proof Harea as (Hs0 & _).
    assert (Hhome : home start b0) by (unfold home; lia).
    assert (Hwf : wf_block (D b0)) by (destruct HT as (A & _ & HT); by apply HT).
    destruct (update_block_ok out D lg s b0 (D b0) Harea HT Hout Hhome Hwf ltac:(lia)) as (s1 & Hr1 & HT1).
    assert (Hnew : b0 ∉ lg) by (intros Hx%Hlg; lia).
    assert (Hsz1 : size ({[b0]} ∪ lg) = S (size lg)) by (rewrite size_union, size_singleton by set_solver; done).
    assert (HszX : size ({[b0]} ∪ X) = S (size X)) by (rewrite size_union, size_singleton by set_solver; done).
    destruct (IH _ _ _ ({[b0]} ∪ X) (b0 + 1) HT1) as (s' & D' & lg' & X' & Hrtc & HT' & HX' & Hsz' & Hlg'); try lia; [set_solver| |].
    { intros x [->%elem_of_singleton|Hx%Hlg]%elem_of_union; lia. }
    exists s', D', lg', X'. split_and!; [|done|lia|lia|intros x Hx%Hlg'; lia].
    eapply rtc_l; [|exact Hrtc]. apply (op_write s s1 o1 X o2 b0 (D b0)); try done. lia.
Qed.

Lemma begin_run out D lg s ops :
  area_ok dev start → tx_rep dev pid start out D ∅ lg s →
  Z.of_nat (size lg) + (out + 1) * MAXOPBLOCKS ≤ LOGBLOCKS →
  ∃ s', op_step (s, ops) (s', ∅ :: ops) ∧ tx_rep dev pid start (out + 1) D ∅ lg s'.
Proof.
  intros Harea HT Hsz. pose proof (begin_op_cases me dev pid start _ _ _ _ _ HT) as Hc.
  destruct (LOGBLOCKS <? _) eqn:E; [lia|]. destruct Hc as (s1 & Hr1 & HT1).
  exists s1. split; [by constructor|done].
Qed.

Lemma end_run out D lg s o1 X o2 :
  area_ok dev start → tx_rep dev pid start out D ∅ lg s → out ≠ 1 →
  ∃ s', op_step (s, o1 ++ X :: o2) (s', o1 ++ o2) ∧ tx_rep dev pid start (out - 1) D ∅ lg s'.
Proof.
  intros Harea (A & HR & HT) Hout. destruct s as [c l].
  destruct (wp_run _ _ _ _ _ _ _ (wp_end_op_more me dev pid start _ _ _ _ _ _ HT Hout) HR)
    as ([] & c' & A' & l' & Hr' & HR' & -> & HT').
  exists (mklstate c' l'). split; [by constructor|]. by exists A.
Qed.

(** The log and the buffer cache have the same size ([LOGBLOCKS] and [NBUF]
    are both [3 * MAXOPBLOCKS]), and that is one buffer too few.  Three system
    calls that each log the [MAXOPBLOCKS] blocks [begin_op] reserved for them
    pin every buffer; when the last one leaves, the commit has no buffer for
    the first log block and panics in [bget]. *)
Theorem full_log_panics s0 D0 :
  area_ok dev start → start + 61 < 2147483648 → tx_rep dev pid start 0 D0 ∅ ∅ s0 →
  ∃ s X, rtc op_step (s0, []) (s, [X]) ∧ end_op me s = Panic "bget: no buffers".
Proof.
  intros Harea Hst HT0. pose proof LOGBLOCKS_30 as HL. unfold MAXOPBLOCKS in *.
  destruct (begin_run 0 D0 ∅ s0 [] Harea HT0) as (s1 & Hs1 & HT1); [done|].
  destruct (begin_run 1 D0 ∅ s1 [∅] Harea HT1) as (s2 & Hs2 & HT2); [done|].
  destruct (begin_run 2 D0 ∅ s2 [∅; ∅] Harea HT2) as (s3 & Hs3 & HT3); [done|].
  destruct (writes_run 10 3 D0 ∅ s3 [] ∅ [∅; ∅] (start + 31) Harea HT3)
    as (s4 & D4 & lg4 & X4 & Hs4 & HT4 & _ & Hz4 & Hl4); rewrite ?size_empty; unfold MAXOPBLOCKS; try lia; [set_solver..|].
  destruct (writes_run 10 3 D4 lg4 s4 [X4] ∅ [∅] (start + 41) Harea HT4)
    as (s5 & D5 & lg5 & X5 & Hs5 & HT5 & _ & Hz5 & Hl5); rewrite ?size_empty in *; unfold MAXOPBLOCKS; try lia;
    [set_solver|intros x Hx%Hl4; lia|].
  destruct (writes_run 10 3 D5 lg5 s5 [X4; X5] ∅ [] (start + 51) Harea HT5)
    as (s6 & D6 & lg6 & X6 & Hs6 & HT6 & _ & Hz6 & Hl6); rewrite ?size_empty; unfold MAXOPBLOCKS; try lia; [set_solver|intros x Hx%Hl5; lia|].
  destruct (end_run 3 D6 lg6 s6 [] X4 [X5; X6] Harea HT6) as (s7 & Hs7 & HT7); [done|].
  destruct (end_run 2 D6 lg6 s7 [] X5 [X6] Harea HT7) as (s8 & Hs8 & HT8); [done|].
  exists s8, X6. split; [|apply (end_op_full _ D6 lg6); [done|done|lia]].
  eapply rtc_l; [exact Hs1|]. eapply rtc_l; [exact Hs2|]. eapply rtc_l; [exact Hs3|].
  etrans; [exact Hs4|]. etrans; [exact Hs5|]. etrans; [exact Hs6|].
  eapply rtc_l; [exact Hs7|]. by apply rtc_once.
Qed.
End theorems.

(** * The theorems over kernel/bio.c *)

Definition log0 : log := mklog (initlock "") 0 0 0 0 0 (replicate 30 0).

Lemma bio_booted dk :
  (∀ b, wf_block (dk b)) → ∃ c0, c_rep (BufCacheSpec := bio_spec 0 7 1) (mkabuf ∅ dk []) c0.
Proof.
  intros Hdk. pose proof (binit_run (boot_bufs dk) (blank_boot dk Hdk)) as H.
  apply returns_ok in H as ([] & s0 & _ & HI).
  destruct (binit_inv_rep 1 _ s0 ltac:(lia) HI) as [HR _]. by exists s0.
Qed.

Lemma area_1_2 : area_ok 1 2.
Proof. done. Qed.

Lemma clean_self dk : hdr_n (dk 2) = 0 → clean 2 dk dk.
Proof. by split. Qed.

Lemma bio_opened dk :
  (∀ b, wf_block (dk b)) → hdr_n (dk 2) = 0 →
  ∃ s, tx_rep (BCS := bio_spec 0 7 1) 1 7 2 0 dk ∅ ∅ s.
Proof.
  intros Hdk Hn. destruct (bio_booted dk Hdk) as [c0 HR].
  assert (Hw : wp (BCS := bio_spec 0 7 1) 1 7 (initlog (BC := bio_cache 0 7) 1 2) (mkabuf ∅ dk []) log0
    (λ _ A' l', tx_abs 1 7 2 dk ∅ ∅ 0 A' l')).
  { eapply wp_initlog; [done|done|done|by apply clean_durable, clean_self|]. by intros. }
  destruct (wp_run _ _ _ _ _ _ _ Hw HR) as ([] & c' & A' & l' & Hr & HR' & HT).
  exists (mklstate c' l'). by exists A'.
Qed.

Lemma zero_opened : ∃ s, tx_rep (BCS := bio_spec 0 7 1) 1 7 2 0 zero_disk ∅ ∅ s.
Proof. apply bio_opened; [intros; apply wf_zero_block|by vm_compute]. Qed.

Lemma recovery_idempotent_witness :
  ∃ c0 s', c_rep (BufCacheSpec := bio_spec 0 7 1) (mkabuf ∅ zero_disk []) c0 ∧
    initlog (BC := bio_cache 0 7) 1 2 (mklstate c0 log0) = Ok tt s'.
Proof.
  destruct (bio_booted zero_disk (λ _, wf_zero_block)) as [c0 HR].
  destruct (recovery_idempotent (BCS := bio_spec 0 7 1) 1 7 2 c0 log0 zero_disk [] zero_disk)
    as (s' & A' & W & H1 & _); [done|done|exact HR|by apply clean_durable, clean_self|].
  exists c0, s'. split; [exact HR|exact H1].
Defined.

Lemma commit_crash_safe_witness :
  ∃ s s' b, begin_op 0 s = Ok tt s' ∧
    ∃ s1 s2, update_block (BC := bio_cache 0 7) 0 1 46 b s' = Ok tt s1 ∧
      end_op (BC := bio_cache 0 7) 0 s1 = Ok tt s2.
Proof.
  destruct zero_opened as [s HT].
  pose proof (begin_op_cases 0 1 7 2 0 _ _ _ s HT) as Hb. cbv iota beta in Hb.
  destruct Hb as (s' & Hb & HT').
  destruct (update_block_ok 0 1 7 2 1 _ _ s' 46 (replicate 1024 5) area_1_2 HT') as (s1 & Hu & HT1).
  - lia.
  - split; [lia|right; done].
  - split; [done|]. apply Forall_replicate. lia.
  - done.
  - destruct (commit_crash_safe 0 1 7 2 s1 _ _ area_1_2 HT1) as (A & s2 & A' & W & _ & H2 & _).
    + rewrite union_empty_r_L, size_singleton. done.
    + exists s, s', (replicate 1024 5). split; [exact Hb|]. exists s1, s2. split; [exact Hu|exact H2].
Defined.

Lemma full_log_panics_witness :
  ∃ s0 s X, rtc (op_step (BC := bio_cache 0 7) 0 1 2) (s0, []) (s, [X]) ∧
    end_op (BC := bio_cache 0 7) 0 s = Panic "bget: no buffers".
Proof.
  destruct zero_opened as [s0 HT].
  destruct (full_log_panics 0 1 7 2 s0 zero_disk area_1_2 ltac:(lia) HT) as (s & X & H1 & H2).
  exists s0, s, X. split; [exact H1|exact H2].
Defined.

(** A system call that has changed block 46 twice changes it once more. *)
Lemma log_space_reserved_witness :
  ∃ s0 s, rtc (op_step (BC := bio_cache 0 7) 0 1 2) (s0, []) (s, [{[46]} ∪ ({[46]} ∪ ∅)]) ∧
    ∃ s', update_block (BC := bio_cache 0 7) 0 1 46 (replicate 1024 5) s = Ok tt s'.
Proof.
  destruct zero_opened as [s0 HT].
  assert (Hh : home 2 46) by (split; [lia|right; done]).
  assert (Hd : ∀ x, 0 ≤ x < 256 → wf_block (replicate 1024 x)) by (intros x Hx; split; [done|]; by apply Forall_replicate).
  destruct (begin_run 0 1 7 2 0 _ _ s0 [] area_1_2 HT) as (s1 & Hs1 & HT1); [done|].
  destruct (update_block_ok 0 1 7 2 1 _ _ s1 46 (replicate 1024 3) area_1_2 HT1 ltac:(lia) Hh (Hd 3 ltac:(lia))) as (s2 & Hs2 & HT2); [done|].
  destruct (update_block_ok 0 1 7 2 1 _ _ s2 46 (replicate 1024 4) area_1_2 HT2 ltac:(lia) Hh (Hd 4 ltac:(lia))) as (s3 & Hs3 & HT3); [done|].
  assert (Hrun : rtc (op_step (BC := bio_cache 0 7) 0 1 2) (s0, []) (s3, [{[46]} ∪ ({[46]} ∪ ∅)])).
  { eapply rtc_l; [exact Hs1|]. eapply rtc_l; [|apply rtc_once].
    - apply (op_write 0 1 2 s1 s2 [] ∅ [] 46 (replicate 1024 3) Hh (Hd 3 ltac:(lia))); [done|exact Hs2].
    - apply (op_write 0 1 2 s2 s3 [] ({[46]} ∪ ∅) [] 46 (replicate 1024 4) Hh (Hd 4 ltac:(lia))); [done|exact Hs3]. }
  destruct (log_space_reserved 0 1 7 2 s0 zero_disk s3 _ area_1_2 HT Hrun) as (D & lg & _ & _ & H).
  destruct (H ({[46]} ∪ ({[46]} ∪ ∅)) 46 (replicate 1024 5)) as [(_ & s' & Hs' & _)|(_ & _ & Hu & _)]; [by left|done|done|by apply Hd|..].
  - exists s0, s3. split; [exact Hrun|]. by exists s'.
  - apply Forall_cons in Hu as [Hu _]. vm_compute in Hu. done.
Defined.
