(* ===== verification/Fs.v ===== *)
(** kernel/fs.c: the file system, its operations.

    A state is the state of the transaction layer below (TxSpec.v), the super
    block, the inode table, and the memory that file contents are copied from
    and to.  An inode pointer is the index of its table entry plus one, so that
    0 is the null pointer.  Disk structures are read from and written to the
    byte blocks at the offsets the C structures give them.

    The properties are in FsAlloc.v (bitmap and inode blocks), FsInode.v (inode
    table), FsFile.v (contents) and FsPath.v (directories and paths). *)

From stdpp Require Import base tactics list numbers strings gmap.
From S2P Require Import Prelude Param Bytes CString Spinlock Sleeplock TxSpec UserSpec.
From Stdlib Require Import ZArith Lia.

Open Scope kernel_scope.

(** * Data *)

Record superblock := mksb {
  sb_magic : Z;
  sb_size : Z;
  sb_nblocks : Z;
  sb_ninodes : Z;
  sb_nlog : Z;
  sb_logstart : Z;
  sb_inodestart : Z;
  sb_bmapstart : Z;
}.

(** [struct inode] *)
Record inode := mkinode {
  i_dev : Z;
  i_inum : Z;
  i_ref : Z;
  i_lock : sleeplock;
  i_valid : Z;
  i_type : Z;
  i_major : Z;
  i_minor : Z;
  i_nlink : Z;
  i_size : Z;
  i_addrs : list Z;
}.

Definition inode0 : inode :=
  mkinode 0 0 0 (mksleeplock 0 (mkspinlock 0 "" None) "" 0) 0 0 0 0 0 0 (replicate 13 0).

(** [struct dinode] *)
Record dinode := mkdinode {
  di_type : Z;
  di_major : Z;
  di_minor : Z;
  di_nlink : Z;
  di_size : Z;
  di_addrs : list Z;
}.

Definition set_i_id (dev inum : Z) (i : inode) : inode :=
  mkinode dev inum 1 (i_lock i) 0 (i_type i) (i_major i) (i_minor i) (i_nlink i) (i_size i) (i_addrs i).
Definition set_i_ref (r : Z) (i : inode) : inode :=
  mkinode (i_dev i) (i_inum i) r (i_lock i) (i_valid i) (i_type i) (i_major i) (i_minor i) (i_nlink i) (i_size i) (i_addrs i).
Definition set_i_lock (l : sleeplock) (i : inode) : inode :=
  mkinode (i_dev i) (i_inum i) (i_ref i) l (i_valid i) (i_type i) (i_major i) (i_minor i) (i_nlink i) (i_size i) (i_addrs i).
Definition set_i_valid (v : Z) (i : inode) : inode :=
  mkinode (i_dev i) (i_inum i) (i_ref i) (i_lock i) v (i_type i) (i_major i) (i_minor i) (i_nlink i) (i_size i) (i_addrs i).
Definition set_i_type (v : Z) (i : inode) : inode :=
  mkinode (i_dev i) (i_inum i) (i_ref i) (i_lock i) (i_valid i) v (i_major i) (i_minor i) (i_nlink i) (i_size i) (i_addrs i).
Definition set_i_major (v : Z) (i : inode) : inode :=
  mkinode (i_dev i) (i_inum i) (i_ref i) (i_lock i) (i_valid i) (i_type i) v (i_minor i) (i_nlink i) (i_size i) (i_addrs i).
Definition set_i_minor (v : Z) (i : inode) : inode :=
  mkinode (i_dev i) (i_inum i) (i_ref i) (i_lock i) (i_valid i) (i_type i) (i_major i) v (i_nlink i) (i_size i) (i_addrs i).
Definition set_i_nlink (v : Z) (i : inode) : inode :=
  mkinode (i_dev i) (i_inum i) (i_ref i) (i_lock i) (i_valid i) (i_type i) (i_major i) (i_minor i) v (i_size i) (i_addrs i).
Definition set_i_size (v : Z) (i : inode) : inode :=
  mkinode (i_dev i) (i_inum i) (i_ref i) (i_lock i) (i_valid i) (i_type i) (i_major i) (i_minor i) (i_nlink i) v (i_addrs i).
Definition set_i_addrs (l : list Z) (i : inode) : inode :=
  mkinode (i_dev i) (i_inum i) (i_ref i) (i_lock i) (i_valid i) (i_type i) (i_major i) (i_minor i) (i_nlink i) (i_size i) l.

(** The part of the state above the transaction layer. *)
Record frest (U : Type) := mkfrest {
  fr_sb : superblock;
  fr_itlock : spinlock;
  fr_inode : list inode;
  fr_ku : kustate U;
}.
Arguments mkfrest {U} _ _ _ _.
Arguments fr_sb {U} _.
Arguments fr_itlock {U} _.
Arguments fr_inode {U} _.
Arguments fr_ku {U} _.

Record fstate (F U : Type) := mkfstate {
  fs_io : F;
  fs_rest : frest U;
}.
Arguments mkfstate {F U} _ _.
Arguments fs_io {F U} _.
Arguments fs_rest {F U} _.

Section fs.
  Context {F H U : Type} `{TX : Txn F H} `{UM : UserMem U}.
  Context (me pid : Z).

Abbreviation FM := (M (fstate F U)).

Definition ioL : lens (fstate F U) F := Lens fs_io (λ c s, mkfstate c (fs_rest s)).
Definition restL : lens (fstate F U) (frest U) := Lens fs_rest (λ r s, mkfstate (fs_io s) r).
Definition itlockL : lens (fstate F U) spinlock :=
  Lens (λ s, fr_itlock (fs_rest s))
       (λ l s, let r := fs_rest s in mkfstate (fs_io s) (mkfrest (fr_sb r) l (fr_inode r) (fr_ku r))).
Definition kuL : lens (fstate F U) (kustate U) :=
  Lens (λ s, fr_ku (fs_rest s))
       (λ k s, let r := fs_rest s in mkfstate (fs_io s) (mkfrest (fr_sb r) (fr_itlock r) (fr_inode r) k)).

Definition fsb (s : fstate F U) : superblock := fr_sb (fs_rest s).
Definition set_sb (b : superblock) (s : fstate F U) : fstate F U :=
  let r := fs_rest s in mkfstate (fs_io s) (mkfrest b (fr_itlock r) (fr_inode r) (fr_ku r)).

(** [*ip] and its update. *)
Definition r_geti (r : frest U) (ip : Z) : inode := znth inode0 (fr_inode r) (ip - 1).
Definition r_seti (ip : Z) (i : inode) (r : frest U) : frest U :=
  mkfrest (fr_sb r) (fr_itlock r) (zset (fr_inode r) (ip - 1) i) (fr_ku r).
Definition geti (s : fstate F U) (ip : Z) : inode := r_geti (fs_rest s) ip.
Definition upd_i (ip : Z) (f : inode → inode) : FM unit :=
  modify (λ s, mkfstate (fs_io s) (r_seti ip (f (r_geti (fs_rest s) ip)) (fs_rest s))).

Definition ilockL (ip : Z) : lens (fstate F U) sleeplock :=
  Lens (λ s, i_lock (geti s ip))
       (λ l s, mkfstate (fs_io s) (r_seti ip (set_i_lock l (geti s ip)) (fs_rest s))).

(** The wait channel of an inode's lock. *)
Definition ino_chan (ip : Z) : Z := 2000 + ip.

(** Buffers. *)
Definition bread_ (dev blockno : Z) : FM H := zoom ioL (t_bread (u32 dev) (u32 blockno)).
Definition brelse_ (b : H) : FM unit := zoom ioL (t_brelse b).
Definition log_write_ (b : H) : FM unit := zoom ioL (t_log_write b).
Definition data (b : H) (s : fstate F U) : list Z := t_data b (fs_io s).
Definition set_data (b : H) (d : list Z) : FM unit := zoom ioL (t_setdata b d).

(** * Super block *)

(** [struct superblock] at the start of a block. *)
Definition get_sb (d : list Z) : superblock :=
  mksb (blk_load 4 d 0) (blk_load 4 d 4) (blk_load 4 d 8) (blk_load 4 d 12)
       (blk_load 4 d 16) (blk_load 4 d 20) (blk_load 4 d 24) (blk_load 4 d 28).

Definition readsb (dev : Z) : FM unit :=
  bp <- bread_ dev 1 ;;
  s <- get ;;
  modify (set_sb (get_sb (data bp s))) ;;
  brelse_ bp.

Definition IBLOCK (i : Z) (sb : superblock) : Z := u32 (i / IPB + sb_inodestart sb).
Definition BBLOCK (b : Z) (sb : superblock) : Z := u32 (b / BPB + sb_bmapstart sb).

(** * Blocks *)

Definition bzero (dev bno : Z) : FM unit :=
  bp <- bread_ dev bno ;;
  set_data bp (replicate 1024 0) ;;
  log_write_ bp ;;
  brelse_ bp.

(** [m = 1 << (bi % 8)] *)
Definition bmask (bi : Z) : Z := Z.shiftl 1 (bi mod 8).

(** The inner loop of [balloc]: search one bitmap block. *)
Definition balloc_scan (dev b : Z) (bp : H) : FM (option Z) :=
  s <- get ;;
  for_up (Z.to_nat (Z.min BPB (sb_size (fsb s) - b))) 0 (λ bi,
    s <- get ;;
    let m := bmask bi in
    let byte := znth 0 (data bp s) (bi / 8) in
    if Z.land byte m =? 0
    then
      set_data bp (zset (data bp s) (bi / 8) (u8 (Z.lor byte m))) ;;
      log_write_ bp ;;
      brelse_ bp ;;
      bzero dev (b + bi) ;;
      ret (Stop (b + bi))
    else ret Next).

Definition balloc (dev : Z) : FM Z :=
  s <- get ;;
  r <- for_up (Z.to_nat ((sb_size (fsb s) + BPB - 1) / BPB)) 0 (λ k,
         let b := k * BPB in
         s <- get ;;
         bp <- bread_ dev (BBLOCK b (fsb s)) ;;
         r <- balloc_scan dev b bp ;;
         match r with
         | Some x => ret (Stop x)
         | None => brelse_ bp ;; ret Next
         end) ;;
  match r with
  | Some x => ret x
  | None => ret 0
  end.

Definition bfree (dev b : Z) : FM unit :=
  s <- get ;;
  bp <- bread_ dev (BBLOCK b (fsb s)) ;;
  let bi := b mod BPB in
  let m := bmask bi in
  s <- get ;;
  let byte := znth 0 (data bp s) (bi / 8) in
  if Z.land byte m =? 0 then panic "freeing free block"
  else
    set_data bp (zset (data bp s) (bi / 8) (u8 (Z.land byte (Z.lnot m)))) ;;
    log_write_ bp ;;
    brelse_ bp.

(** * Inodes *)

(** [struct dinode] at an offset of a block. *)
Definition get_dinode (d : list Z) (o : nat) : dinode :=
  mkdinode (s16 (blk_load 2 d o)) (s16 (blk_load 2 d (o + 2))) (s16 (blk_load 2 d (o + 4)))
           (s16 (blk_load 2 d (o + 6))) (blk_load 4 d (o + 8))
           ((λ k, blk_load 4 d (o + 12 + Z.to_nat (4 * k))) <$> zseq 0 13).

Fixpoint put_addrs (d : list Z) (o : nat) (l : list Z) : list Z :=
  match l with
  | [] => d
  | a :: l' => put_addrs (blk_store 4 d o a) (o + 4) l'
  end.

Definition put_dinode (d : list Z) (o : nat) (x : dinode) : list Z :=
  let d := blk_store 2 d o (di_type x) in
  let d := blk_store 2 d (o + 2) (di_major x) in
  let d := blk_store 2 d (o + 4) (di_minor x) in
  let d := blk_store 2 d (o + 6) (di_nlink x) in
  let d := blk_store 4 d (o + 8) (di_size x) in
  put_addrs d (o + 12) (di_addrs x).

(** The offset of inode [inum] in its block. *)
Definition dinode_off (inum : Z) : nat := Z.to_nat ((inum mod IPB) * SIZEOF_DINODE).

Definition iinit : FM unit :=
  modify (upd itlockL (initlock "itable")) ;;
  for_up (R := unit) (Z.to_nat NINODE) 0 (λ i,
    upd_i (i + 1) (set_i_lock (initsleeplock "inode")) ;;
    ret Next) ;;
  ret tt.

(** The loop of [iget]: a match, or else the first empty entry. *)
Fixpoint iget_scan (n : nat) (ip empty dev inum : Z) (l : list inode) : Z * Z :=
  match n with
  | O => (0, empty)
  | S n' =>
      let i := znth inode0 l (ip - 1) in
      if (0 <? i_ref i) && (i_dev i =? dev) && (i_inum i =? inum) then (ip, empty)
      else
        let empty := if (empty =? 0) && (i_ref i =? 0) then ip else empty in
        iget_scan n' (ip + 1) empty dev inum l
  end.

Definition iget (dev inum : Z) : FM Z :=
  zoom itlockL (acquire_lk me) ;;
  s <- get ;;
  let (ip, empty) := iget_scan (Z.to_nat NINODE) 1 0 dev inum (fr_inode (fs_rest s)) in
  if negb (ip =? 0)
  then
    upd_i ip (λ i, set_i_ref (i_ref i + 1) i) ;;
    zoom itlockL (release_lk me) ;;
    ret ip
  else if empty =? 0 then panic "iget: no inodes"
  else
    upd_i empty (set_i_id dev inum) ;;
    zoom itlockL (release_lk me) ;;
    ret empty.

Definition ialloc (dev type : Z) : FM Z :=
  s <- get ;;
  r <- for_up (Z.to_nat (sb_ninodes (fsb s) - 1)) 1 (λ inum,
         s <- get ;;
         bp <- bread_ dev (IBLOCK inum (fsb s)) ;;
         s <- get ;;
         let o := dinode_off inum in
         if di_type (get_dinode (data bp s) o) =? 0
         then
           set_data bp (blk_store 2 (blk_write (data bp s) o (replicate 64 0)) o type) ;;
           log_write_ bp ;;
           brelse_ bp ;;
           ip <- iget dev inum ;;
           ret (Stop ip)
         else brelse_ bp ;; ret Next) ;;
  match r with
  | Some ip => ret ip
  | None => ret 0
  end.

(** The disk copy of an in-memory inode. *)
Definition dinode_of (i : inode) : dinode :=
  mkdinode (i_type i) (i_major i) (i_minor i) (i_nlink i) (i_size i) (i_addrs i).

Definition iupdate (ip : Z) : FM unit :=
  s <- get ;;
  bp <- bread_ (i_dev (geti s ip)) (IBLOCK (i_inum (geti s ip)) (fsb s)) ;;
  s <- get ;;
  set_data bp (put_dinode (data bp s) (dinode_off (i_inum (geti s ip))) (dinode_of (geti s ip))) ;;
  log_write_ bp ;;
  brelse_ bp.

Definition idup (ip : Z) : FM Z :=
  zoom itlockL (acquire_lk me) ;;
  upd_i ip (λ i, set_i_ref (i_ref i + 1) i) ;;
  zoom itlockL (release_lk me) ;;
  ret ip.

Definition load_dinode (x : dinode) (i : inode) : inode :=
  mkinode (i_dev i) (i_inum i) (i_ref i) (i_lock i) 1 (di_type x) (di_major x) (di_minor x)
          (di_nlink x) (di_size x) (di_addrs x).

Definition ilock (ip : Z) : FM unit :=
  s <- get ;;
  if (ip =? 0) || (i_ref (geti s ip) <? 1) then panic "ilock"
  else
    zoom (ilockL ip) (acquiresleep me pid (ino_chan ip)) ;;
    s <- get ;;
    if i_valid (geti s ip) =? 0
    then
      bp <- bread_ (i_dev (geti s ip)) (IBLOCK (i_inum (geti s ip)) (fsb s)) ;;
      s <- get ;;
      let x := get_dinode (data bp s) (dinode_off (i_inum (geti s ip))) in
      upd_i ip (load_dinode x) ;;
      brelse_ bp ;;
      s <- get ;;
      if i_type (geti s ip) =? 0 then panic "ilock: no type" else ret tt
    else ret tt.

Definition iunlock (ip : Z) : FM unit :=
  if ip =? 0 then panic "iunlock"
  else
    h <- zoom (ilockL ip) (holdingsleep me pid) ;;
    s <- get ;;
    if negb h || (i_ref (geti s ip) <? 1) then panic "iunlock"
    else zoom (ilockL ip) (releasesleep me (ino_chan ip)).

(** * Contents *)

(** [a[i]] of an indirect block. *)
Definition ind_get (d : list Z) (i : Z) : Z := blk_load 4 d (Z.to_nat (4 * i)).
Definition ind_set (d : list Z) (i v : Z) : list Z := blk_store 4 d (Z.to_nat (4 * i)) v.

Definition get_addr (s : fstate F U) (ip i : Z) : Z := znth 0 (i_addrs (geti s ip)) i.
Definition upd_addr (ip i v : Z) : FM unit :=
  upd_i ip (λ x, set_i_addrs (zset (i_addrs x) i v) x).

Definition itrunc (ip : Z) : FM unit :=
  for_up (R := unit) (Z.to_nat NDIRECT) 0 (λ i,
    s <- get ;;
    (if negb (get_addr s ip i =? 0)
     then bfree (i_dev (geti s ip)) (get_addr s ip i) ;; upd_addr ip i 0
     else ret tt) ;;
    ret Next) ;;
  s <- get ;;
  (if negb (get_addr s ip NDIRECT =? 0)
   then
     bp <- bread_ (i_dev (geti s ip)) (get_addr s ip NDIRECT) ;;
     for_up (R := unit) (Z.to_nat NINDIRECT) 0 (λ j,
       s <- get ;;
       (if negb (ind_get (data bp s) j =? 0)
        then bfree (i_dev (geti s ip)) (ind_get (data bp s) j) else ret tt) ;;
       ret Next) ;;
     brelse_ bp ;;
     s <- get ;;
     bfree (i_dev (geti s ip)) (get_addr s ip NDIRECT) ;;
     upd_addr ip NDIRECT 0
   else ret tt) ;;
  upd_i ip (set_i_size 0) ;;
  iupdate ip.

Definition iput (ip : Z) : FM unit :=
  zoom itlockL (acquire_lk me) ;;
  s <- get ;;
  let i := geti s ip in
  (if (i_ref i =? 1) && negb (i_valid i =? 0) && (i_nlink i =? 0)
   then
     zoom (ilockL ip) (acquiresleep me pid (ino_chan ip)) ;;
     zoom itlockL (release_lk me) ;;
     itrunc ip ;;
     upd_i ip (set_i_type 0) ;;
     iupdate ip ;;
     upd_i ip (set_i_valid 0) ;;
     zoom (ilockL ip) (releasesleep me (ino_chan ip)) ;;
     zoom itlockL (acquire_lk me)
   else ret tt) ;;
  upd_i ip (λ i, set_i_ref (i_ref i - 1) i) ;;
  zoom itlockL (release_lk me).

Definition iunlockput (ip : Z) : FM unit :=
  iunlock ip ;;
  iput ip.

Definition ireclaim (dev : Z) : FM unit :=
  s <- get ;;
  for_up (R := unit) (Z.to_nat (sb_ninodes (fsb s) - 1)) 1 (λ inum,
    s <- get ;;
    bp <- bread_ dev (IBLOCK inum (fsb s)) ;;
    s <- get ;;
    let x := get_dinode (data bp s) (dinode_off inum) in
    ip <- (if negb (di_type x =? 0) && (di_nlink x =? 0) then iget dev inum else ret 0) ;;
    brelse_ bp ;;
    (if negb (ip =? 0)
     then
       zoom ioL t_begin_op ;;
       ilock ip ;;
       iunlock ip ;;
       iput ip ;;
       zoom ioL t_end_op
     else ret tt) ;;
    ret Next) ;;
  ret tt.

Definition fsinit (dev : Z) : FM unit :=
  readsb dev ;;
  s <- get ;;
  if negb (sb_magic (fsb s) =? FSMAGIC) then panic "invalid file system"
  else
    zoom ioL (t_initlog dev (sb_logstart (fsb s))) ;;
    ireclaim dev.

Definition bmap (ip bn : Z) : FM Z :=
  s <- get ;;
  if bn <? NDIRECT
  then
    if get_addr s ip bn =? 0
    then
      addr <- balloc (i_dev (geti s ip)) ;;
      if addr =? 0 then ret 0
      else upd_addr ip bn addr ;; ret addr
    else ret (get_addr s ip bn)
  else
    let bn := bn - NDIRECT in
    if bn <? NINDIRECT
    then
      addr <- (if get_addr s ip NDIRECT =? 0
               then
                 addr <- balloc (i_dev (geti s ip)) ;;
                 if addr =? 0 then ret 0
                 else upd_addr ip NDIRECT addr ;; ret addr
               else ret (get_addr s ip NDIRECT)) ;;
      if addr =? 0 then ret 0
      else
        bp <- bread_ (i_dev (geti s ip)) addr ;;
        s <- get ;;
        addr <- (if ind_get (data bp s) bn =? 0
                 then
                   addr <- balloc (i_dev (geti s ip)) ;;
                   (if negb (addr =? 0)
                    then
                      s <- get ;;
                      set_data bp (ind_set (data bp s) bn addr) ;;
                      log_write_ bp
                    else ret tt) ;;
                   ret addr
                 else ret (ind_get (data bp s) bn)) ;;
        brelse_ bp ;;
        ret addr
    else panic "bmap: out of range".

(** [struct stat] *)
Record stat := mkstat { st_dev : Z; st_ino : Z; st_type : Z; st_nlink : Z; st_size : Z }.

Definition stati (ip : Z) : FM stat :=
  s <- get ;;
  let i := geti s ip in
  ret (mkstat (s32 (i_dev i)) (i_inum i) (i_type i) (i_nlink i) (i_size i)).

(** The loop of [readi]; the result is [tot]. *)
Fixpoint readi_loop (fuel : nat) (ip user_dst dst off n tot : Z) : FM Z :=
  match fuel with
  | O => λ _, OutOfFuel
  | S fuel' =>
      if negb (tot <? n) then ret tot
      else
        addr <- bmap ip (off / BSIZE) ;;
        if addr =? 0 then ret tot
        else
          s <- get ;;
          bp <- bread_ (i_dev (geti s ip)) addr ;;
          let m := Z.min (n - tot) (BSIZE - off mod BSIZE) in
          s <- get ;;
          r <- zoom kuL (either_copyout user_dst dst
                 (blk_read (data bp s) (Z.to_nat (off mod BSIZE)) (Z.to_nat m))) ;;
          brelse_ bp ;;
          if r =? -1 then ret (-1)
          else readi_loop fuel' ip user_dst (dst + m) (u32 (off + m)) n (tot + m)
  end.

(** Enough rounds for [n] bytes: a round moves a whole block, except the first
    and the last. *)
Definition io_fuel (n : Z) : nat := Z.to_nat (n / BSIZE + 3).

Definition readi (ip user_dst dst off n : Z) : FM Z :=
  s <- get ;;
  let sz := i_size (geti s ip) in
  if (sz <? off) || (u32 (off + n) <? off) then ret 0
  else
    let n := if sz <? u32 (off + n) then u32 (sz - off) else n in
    r <- readi_loop (io_fuel n) ip user_dst dst off n 0 ;;
    ret (s32 r).

(** The loop of [writei]; the result is [(tot, off)]. *)
Fixpoint writei_loop (fuel : nat) (ip user_src src off n tot : Z) : FM (Z * Z) :=
  match fuel with
  | O => λ _, OutOfFuel
  | S fuel' =>
      if negb (tot <? n) then ret (tot, off)
      else
        addr <- bmap ip (off / BSIZE) ;;
        if addr =? 0 then ret (tot, off)
        else
          s <- get ;;
          bp <- bread_ (i_dev (geti s ip)) addr ;;
          let m := Z.min (n - tot) (BSIZE - off mod BSIZE) in
          ' (r, bs) <- zoom kuL (either_copyin user_src src m) ;;
          s <- get ;;
          set_data bp (blk_write (data bp s) (Z.to_nat (off mod BSIZE)) bs) ;;
          if r =? -1
          then brelse_ bp ;; ret (tot, off)
          else
            log_write_ bp ;;
            brelse_ bp ;;
            writei_loop fuel' ip user_src (src + m) (u32 (off + m)) n (tot + m)
  end.

Definition writei (ip user_src src off n : Z) : FM Z :=
  s <- get ;;
  if (i_size (geti s ip) <? off) || (u32 (off + n) <? off) then ret (-1)
  else if MAXFILE * BSIZE <? u32 (off + n) then ret (-1)
  else
    ' (tot, off) <- writei_loop (io_fuel n) ip user_src src off n 0 ;;
    s <- get ;;
    (if i_size (geti s ip) <? off then upd_i ip (set_i_size off) else ret tt) ;;
    iupdate ip ;;
    ret (s32 tot).

(** * Directories *)

Definition kmem (s : fstate F U) : mem := ku_kmem (fr_ku (fs_rest s)).
Definition set_kmem (m : mem) : FM unit :=
  zoom kuL (modify (λ k, mkku m (ku_user k))).

Definition namecmp (m : mem) (s t : Z) : Z := strncmp m s t DIRSIZ.

(** [struct dirent] in kernel memory. *)
Definition de_inum (m : mem) (de : Z) : Z := load 2 m de.
Definition de_name (de : Z) : Z := de + 2.

(** The address of the local variable [de]. *)
Context (de : Z).

(** [dirlookup] returns the inode and, when [poff] is not null, the offset. *)
Definition dirlookup (dp name : Z) : FM (Z * Z) :=
  s <- get ;;
  if negb (i_type (geti s dp) =? 1) then panic "dirlookup not DIR"
  else
    r <- for_up (Z.to_nat ((i_size (geti s dp) + SIZEOF_DIRENT - 1) / SIZEOF_DIRENT)) 0 (λ k,
           let off := k * SIZEOF_DIRENT in
           n <- readi dp 0 de off SIZEOF_DIRENT ;;
           if negb (n =? SIZEOF_DIRENT) then panic "dirlookup read"
           else
             s <- get ;;
             if de_inum (kmem s) de =? 0 then ret Next
             else if namecmp (kmem s) name (de_name de) =? 0
             then
               ip <- iget (i_dev (geti s dp)) (de_inum (kmem s) de) ;;
               ret (Stop (ip, off))
             else ret Next) ;;
    match r with
    | Some x => ret x
    | None => ret (0, 0)
    end.

Definition dirlink (dp name inum : Z) : FM Z :=
  ' (ip, _) <- dirlookup dp name ;;
  if negb (ip =? 0) then iput ip ;; ret (-1)
  else
    s <- get ;;
    let rounds := Z.to_nat ((i_size (geti s dp) + SIZEOF_DIRENT - 1) / SIZEOF_DIRENT) in
    r <- for_up rounds 0 (λ k,
           let off := k * SIZEOF_DIRENT in
           n <- readi dp 0 de off SIZEOF_DIRENT ;;
           if negb (n =? SIZEOF_DIRENT) then panic "dirlink read"
           else
             s <- get ;;
             if de_inum (kmem s) de =? 0 then ret (Stop off) else ret Next) ;;
    let off := match r with Some off => off | None => Z.of_nat rounds * SIZEOF_DIRENT end in
    s <- get ;;
    set_kmem (store 2 (strncpy (kmem s) (de_name de) name DIRSIZ) de inum) ;;
    n <- writei dp 0 de off SIZEOF_DIRENT ;;
    if negb (n =? SIZEOF_DIRENT) then ret (-1) else ret 0.

(** * Paths *)

Definition SLASH : Z := 47.

(** [while( *path == '/') path++;] *)
Fixpoint skip_slashes (fuel : nat) (m : mem) (path : Z) : option Z :=
  match fuel with
  | O => None
  | S fuel' => if ldb m path =? SLASH then skip_slashes fuel' m (path + 1) else Some path
  end.

(** [while( *path != '/' && *path != 0) path++;] *)
Fixpoint skip_name (fuel : nat) (m : mem) (path : Z) : option Z :=
  match fuel with
  | O => None
  | S fuel' => if negb (ldb m path =? SLASH) && negb (ldb m path =? 0)
               then skip_name fuel' m (path + 1) else Some path
  end.

(** A path is at most [MAXPATH] bytes with its NUL. *)
Definition path_fuel : nat := Z.to_nat (MAXPATH + 1).

(** The new [path] (0 at the end of the path) and the memory with [name] set. *)
Definition skipelem (m : mem) (path name : Z) : option (Z * mem) :=
  match skip_slashes path_fuel m path with
  | None => None
  | Some path =>
      if ldb m path =? 0 then Some (0, m)
      else
        match skip_name path_fuel m path with
        | None => None
        | Some p =>
            let len := p - path in
            let m := if DIRSIZ <=? len then memmove m name path DIRSIZ
                     else stb (memmove m name path len) (name + len) 0 in
            match skip_slashes path_fuel m p with
            | None => None
            | Some p => Some (p, m)
            end
        end
  end.

Fixpoint namex_loop (fuel : nat) (ip path nameiparent name : Z) : FM Z :=
  match fuel with
  | O => λ _, OutOfFuel
  | S fuel' =>
      s <- get ;;
      match skipelem (kmem s) path name with
      | None => λ _, OutOfFuel
      | Some (path, m) =>
          set_kmem m ;;
          if path =? 0
          then
            if negb (nameiparent =? 0) then iput ip ;; ret 0 else ret ip
          else
            ilock ip ;;
            s <- get ;;
            if negb (i_type (geti s ip) =? 1) then iunlockput ip ;; ret 0
            else if negb (nameiparent =? 0) && (ldb (kmem s) path =? 0)
            then iunlock ip ;; ret ip
            else
              ' (next, _) <- dirlookup ip name ;;
              if next =? 0 then iunlockput ip ;; ret 0
              else
                iunlockput ip ;;
                namex_loop fuel' next path nameiparent name
      end
  end.

(** [cwd] is [myproc()->cwd]. *)
Definition namex (cwd path nameiparent name : Z) : FM Z :=
  s <- get ;;
  ip <- (if ldb (kmem s) path =? SLASH then iget ROOTDEV ROOTINO else idup cwd) ;;
  namex_loop path_fuel ip path nameiparent name.

Definition namei (cwd path name : Z) : FM Z := namex cwd path 0 name.
Definition nameiparent (cwd path name : Z) : FM Z := namex cwd path 1 name.

End fs.
