(* ===== verification/FsWp.v ===== *)
(** Reasoning about kernel/fs.c over the transaction layer.

    The abstract state [fabs] of the file system is what the transaction layer
    shows (the disk, the buffers held, the blocks logged) and the rest of the
    state as it is.  The rules below carry the laws of [TxnSpec] through the
    code; [fwp m a Q] says that [m] returns from every state of [a]. *)

From stdpp Require Import base tactics list numbers strings gmap functions.
From S2P Require Import Prelude Param Bytes Spinlock Sleeplock BufSpec TxSpec UserSpec Fs.
From Stdlib Require Import ZArith Lia.

Open Scope kernel_scope.

Record fabs (H U : Type) := mkfabs {
  fa_D : Z → list Z;
  fa_held : gmap Z (H * list Z);
  fa_lg : gset Z;
  fa_rest : frest U;
}.
Arguments mkfabs {H U} _ _ _ _.
Arguments fa_D {H U} _ _.
Arguments fa_held {H U} _.
Arguments fa_lg {H U} _.
Arguments fa_rest {H U} _.

Section fwp.
  Context {F H U : Type} `{TX : Txn F H} (dev : Z) `{TXS : !TxnSpec F H dev}.
  Context (Hdev : 0 ≤ dev < 4294967296).
  Implicit Types (D : Z → list Z) (held : gmap Z (H * list Z)) (lg : gset Z) (r : frest U).

Definition frep (a : fabs H U) (s : fstate F U) : Prop :=
  t_rep (fa_D a) (fa_held a) (fa_lg a) (fs_io s) ∧ fs_rest s = fa_rest a.

Definition fwp {T} (m : M (fstate F U) T) (a : fabs H U) (Q : T → fabs H U → Prop) : Prop :=
  awp frep m a Q.

(** Blocks the file system may touch have 32-bit numbers. *)
Context (Hhome : ∀ b, t_home b → 0 ≤ b < 4294967296).

Section rules.
  Context {T : Type} (Q : T → fabs H U → Prop) (D : Z → list Z) (held : gmap Z (H * list Z))
          (lg : gset Z) (r : frest U).

Lemma fwp_get (k : fstate F U → M (fstate F U) T) :
  (∀ io, t_rep D held lg io → fwp (k (mkfstate io r)) (mkfabs D held lg r) Q) →
  fwp (bind get k) (mkfabs D held lg r) Q.
Proof. intros Hk. apply awp_get. intros [io r'] [HR Hr]. cbn in *. subst. by apply Hk. Qed.

(** The blocks of the disk are well formed. *)
Lemma fwp_wf (m : M (fstate F U) T) :
  ((∀ b, t_home b → wf_block (D b)) → fwp m (mkfabs D held lg r) Q) → fwp m (mkfabs D held lg r) Q.
Proof.
  intros Hm s HR. apply Hm; [|done]. intros b Hb. destruct HR as [HR _]. by eapply t_rep_wf.
Qed.

(** A change of the part above the transaction layer. *)
Lemma fwp_rest (m : M (fstate F U) unit) (f : frest U → frest U) (k : unit → M (fstate F U) T) :
  (∀ io, m (mkfstate io r) = Ok tt (mkfstate io (f r))) →
  fwp (k tt) (mkfabs D held lg (f r)) Q → fwp (bind m k) (mkfabs D held lg r) Q.
Proof.
  intros Hm Hk. apply awp_call. intros [io r'] [HR Hr]. cbn in *. subst.
  eexists _, _, (mkfabs D held lg (f r)). split_and!; [apply Hm|by split|done].
Qed.

Lemma fwp_bread b (k : H → M (fstate F U) T) :
  t_home b → held !! b = None → Z.of_nat (size held) + Z.of_nat (size lg) < NBUF →
  (∀ h, wf_block (D b) → fwp (k h) (mkfabs D (<[b := (h, D b)]> held) lg r) Q) →
  fwp (bind (bread_ dev b) k) (mkfabs D held lg r) Q.
Proof.
  intros Hb Hh Hsz Hk. apply awp_call. intros [io r'] [HR Hr]. cbn in *. subst.
  destruct (t_bread_ok D held lg io b HR Hb Hh Hsz) as (h & io' & Hio & HR').
  exists h, (mkfstate io' r), (mkfabs D (<[b := (h, D b)]> held) lg r). split_and!.
  - unfold bread_. rewrite !u32_id by auto. by apply (zoom_ok ioL).
  - by split.
  - apply Hk. by eapply t_rep_wf.
Qed.

Lemma fwp_set_data b h d d' (k : unit → M (fstate F U) T) :
  held !! b = Some (h, d) → wf_block d' →
  fwp (k tt) (mkfabs D (<[b := (h, d')]> held) lg r) Q →
  fwp (bind (set_data h d') k) (mkfabs D held lg r) Q.
Proof.
  intros Hb Hd Hk. apply awp_call. intros [io r'] [HR Hr]. cbn in *. subst.
  destruct (t_setdata_ok D held lg io b h d d' HR Hb Hd) as (io' & Hio & HR').
  exists tt, (mkfstate io' r), (mkfabs D (<[b := (h, d')]> held) lg r). split_and!; [|by split|done].
  by apply (zoom_ok ioL).
Qed.

Lemma fwp_log_write b h d (k : unit → M (fstate F U) T) :
  held !! b = Some (h, d) → Z.of_nat (size lg) < LOGBLOCKS →
  fwp (k tt) (mkfabs (<[b := d]> D) held ({[b]} ∪ lg) r) Q →
  fwp (bind (log_write_ h) k) (mkfabs D held lg r) Q.
Proof.
  intros Hb Hsz Hk. apply awp_call. intros [io r'] [HR Hr]. cbn in *. subst.
  destruct (t_log_write_ok D held lg io b h d HR Hb Hsz) as (io' & Hio & HR').
  exists tt, (mkfstate io' r), (mkfabs (<[b := d]> D) held ({[b]} ∪ lg) r). split_and!; [|by split|done].
  by apply (zoom_ok ioL).
Qed.

Lemma fwp_brelse b h d (k : unit → M (fstate F U) T) :
  held !! b = Some (h, d) → d = D b →
  fwp (k tt) (mkfabs D (delete b held) lg r) Q →
  fwp (bind (brelse_ h) k) (mkfabs D held lg r) Q.
Proof.
  intros Hb Hd Hk. apply awp_call. intros [io r'] [HR Hr]. cbn in *. subst.
  destruct (t_brelse_ok D held lg io b h (D b) HR Hb eq_refl) as (io' & Hio & HR').
  exists tt, (mkfstate io' r), (mkfabs D (delete b held) lg r). split_and!; [|by split|done].
  by apply (zoom_ok ioL).
Qed.

Lemma fdata io b h d : t_rep D held lg io → held !! b = Some (h, d) → data h (mkfstate io r) = d.
Proof. intros HR Hb. unfold data. by eapply t_rep_data. Qed.
End rules.
End fwp.
