(* ===== verification/FsDemo.v ===== *)
(** A small disk image over which the file-system theorems are instantiated.

    The layout is the one mkfs gives a 2000-block disk: boot block, super block,
    log (blocks 2 to 32), inodes (33 to 45), free map (46), data from block 47.
    The root directory is inode 1, with its entries [.] and [..] in block 47.
    The transaction layer is kernel/log.c over kernel/bio.c, inside an
    operation begun by process 7 on hart 0. *)

From stdpp Require Import base tactics list numbers strings gmap functions.
From S2P Require Import Prelude Param Bytes Spinlock Sleeplock BufSpec TxSpec UserSpec Bio Log Fs FsWp.
From Stdlib Require Import ZArith Lia.

Definition demo_sb : superblock := mksb FSMAGIC 2000 1953 200 31 2 33 46.

Definition demo_root : dinode := mkdinode 1 0 0 1 32 (47 :: replicate 12 0).

(** [{1, "."}] and [{1, ".."}] *)
Definition demo_dir : list Z :=
  [1; 0; 46] ++ replicate 13 0 ++ [1; 0; 46; 46] ++ replicate 12 0 ++ replicate 992 0.

Definition demo_disk : Z → list Z :=
  <[47 := demo_dir]>
  (<[46 := replicate 6 255 ++ replicate 1018 0]>
  (<[33 := put_dinode (replicate 1024 0) 64 demo_root]> zero_disk)).

(** No process memory: user copies fail. *)
#[export] Instance no_user : UserMem unit := {
  u_copyout _ _ := ret (-1);
  u_copyin _ _ := ret (-1, []);
}.

Definition demo_rest : frest unit :=
  mkfrest demo_sb (initlock "itable") (replicate 50 inode0) (mkku (λ _, 0) tt).

#[export] Instance demo_io : Txn (lstate bstate) Z := log_txn (BC := bio_cache 0 7) 0.
#[export] Instance demo_spec : TxnSpec (lstate bstate) Z (TX := demo_io) 1 :=
  log_txn_spec (BCS := bio_spec 0 7 1) 0 1 7 2 1 area_1_2 (Z.le_refl 1).

Lemma is_bytes_b l : forallb (λ b, (0 <=? b) && (b <? 256)) l = true → is_bytes l.
Proof.
  rewrite forallb_forall. intros Hl. apply Forall_forall. intros x Hx.
  specialize (Hl x Hx). lia.
Qed.

Lemma demo_wf b : wf_block (demo_disk b).
Proof.
  unfold demo_disk.
  repeat match goal with
  | |- wf_block (<[?x := ?d]> ?f b) =>
      destruct (decide (x = b)) as [->|]; [rewrite fn_lookup_insert|rewrite fn_lookup_insert_ne by done]
  end.
  - split; [done|]. apply is_bytes_b. by vm_compute.
  - split; [done|]. apply is_bytes_b. by vm_compute.
  - split; [by vm_compute|]. apply is_bytes_b. by vm_compute.
  - apply wf_zero_block.
Qed.

Lemma demo_rep :
  ∃ io : lstate bstate, t_rep (TX := demo_io) demo_disk ∅ ∅ io.
Proof.
  destruct (bio_opened demo_disk demo_wf) as [s HT]; [by vm_compute|].
  pose proof (begin_op_cases 0 1 7 2 0 _ _ _ s HT) as Hb. cbv iota beta in Hb.
  destruct Hb as (s' & _ & HT'). by exists s'.
Qed.

Lemma demo_home b : t_home b → 0 ≤ b < 4294967296.
Proof. intros [Hb _]. lia. Qed.
