(* ===== verification/FsAlloc.v ===== *)
(** kernel/fs.c: the block allocator and the inode blocks.

    [used] reads the free map of a disk.  [balloc] is shown to return a block
    that was free, to set its bit alone and to zero it; [bfree] to clear the
    bit of a used block alone, or to panic.  [dinode_at] reads an inode from a
    disk: [put_dinode] and [get_dinode] are inverse, and an update of one inode
    leaves the others alone. *)

From stdpp Require Import base tactics list numbers strings gmap functions sets.
From S2P Require Import Prelude Param Bytes Spinlock Sleeplock BufSpec TxSpec UserSpec Fs FsWp Log FsDemo.
From Stdlib Require Import ZArith Lia.

Open Scope kernel_scope.

(** * The free map *)

(** Bit [bi] of a bitmap block. *)
Definition bit (d : list Z) (bi : Z) : bool := Z.testbit (znth 0 d (bi / 8)) (bi mod 8).

(** Is block [b] marked in use? *)
Definition used (sb : superblock) (D : Z → list Z) (b : Z) : bool :=
  bit (D (BBLOCK b sb)) (b mod BPB).

Lemma testbit_bmask bi k : 0 ≤ bi → 0 ≤ k → Z.testbit (bmask bi) k = bool_decide (k = bi mod 8).
Proof.
  intros Hbi Hk. unfold bmask. rewrite Z.shiftl_spec by done.
  case_bool_decide as E; [subst; by rewrite Z.sub_diag|].
  destruct (Z.ltb_spec k (bi mod 8)); [by rewrite Z.testbit_neg_r by lia|].
  apply Z.bits_above_log2; cbn; lia.
Qed.

Lemma land_bmask x bi : 0 ≤ bi → (Z.land x (bmask bi) =? 0) = negb (Z.testbit x (bi mod 8)).
Proof.
  intros Hbi. pose proof (Z.mod_pos_bound bi 8 ltac:(lia)) as Hm.
  destruct (Z.testbit x (bi mod 8)) eqn:E; cbn.
  - apply Z.eqb_neq. intros H. apply (f_equal (λ y, Z.testbit y (bi mod 8))) in H.
    rewrite Z.land_spec, E, testbit_bmask, Z.bits_0, bool_decide_eq_true_2 in H by (done || lia). done.
  - apply Z.eqb_eq, Z.bits_inj'. intros k Hk. rewrite Z.land_spec, testbit_bmask, Z.bits_0 by done.
    case_bool_decide as Ek; [subst k; by rewrite E|]. by rewrite andb_false_r.
Qed.

(** Bytes stay bytes when a bit is set or cleared. *)
Lemma byte_testbit x k : 0 ≤ x < 256 → 8 ≤ k → Z.testbit x k = false.
Proof.
  intros Hx Hk. destruct (decide (x = 0)) as [->|]; [by rewrite Z.bits_0|].
  apply Z.bits_above_log2; [lia|]. apply Z.log2_lt_pow2; [lia|].
  apply Z.lt_le_trans with (2 ^ 8); [lia|]. apply Z.pow_le_mono_r; lia.
Qed.

Lemma testbit_byte x : 0 ≤ x → (∀ k, 8 ≤ k → Z.testbit x k = false) → x < 256.
Proof.
  intros Hx Hk. destruct (decide (x < 256)) as [|Hge]; [done|].
  assert (Hl : 8 ≤ Z.log2 x) by (apply Z.log2_le_pow2; lia).
  specialize (Hk (Z.log2 x) Hl). rewrite Z.bit_log2 in Hk by lia. done.
Qed.

Lemma u8_testbit x k : 0 ≤ k → Z.testbit (u8 x) k = (k <? 8) && Z.testbit x k.
Proof.
  intros Hk. unfold u8. change 256 with (2 ^ 8).
  destruct (Z.ltb_spec k 8).
  - by rewrite Z.mod_pow2_bits_low.
  - by rewrite Z.mod_pow2_bits_high by lia.
Qed.

Lemma testbit_lor_bmask x bi k :
  0 ≤ bi → 0 ≤ k < 8 → Z.testbit (u8 (Z.lor x (bmask bi))) k = bool_decide (k = bi mod 8) || Z.testbit x k.
Proof.
  intros Hbi Hk. rewrite u8_testbit, Z.lor_spec, testbit_bmask by lia.
  destruct (Z.ltb_spec k 8); [|lia]. cbn. by rewrite orb_comm.
Qed.

Lemma testbit_clear_bmask x bi k :
  0 ≤ bi → 0 ≤ k < 8 →
  Z.testbit (u8 (Z.land x (Z.lnot (bmask bi)))) k = negb (bool_decide (k = bi mod 8)) && Z.testbit x k.
Proof.
  intros Hbi Hk. rewrite u8_testbit, Z.land_spec, Z.lnot_spec, testbit_bmask by lia.
  destruct (Z.ltb_spec k 8); [|lia]. cbn. by rewrite andb_comm.
Qed.

(** Setting and clearing one bit of a bitmap block. *)
Definition bit_set (d : list Z) (bi : Z) : list Z :=
  zset d (bi / 8) (u8 (Z.lor (znth 0 d (bi / 8)) (bmask bi))).
Definition bit_clear (d : list Z) (bi : Z) : list Z :=
  zset d (bi / 8) (u8 (Z.land (znth 0 d (bi / 8)) (Z.lnot (bmask bi)))).

Section bits.
  Context (d : list Z) (Hwf : wf_block d).

Lemma bit_index bi : 0 ≤ bi < BPB → 0 ≤ bi / 8 < len d.
Proof. destruct Hwf as [Hl _]. unfold len. rewrite Hl. unfold BPB, BSIZE. intros H. dlia. Qed.

Lemma bit_bit_set bi bj :
  0 ≤ bi < BPB → 0 ≤ bj < BPB → bit (bit_set d bi) bj = bool_decide (bj = bi) || bit d bj.
Proof.
  intros Hi Hj. unfold bit, bit_set. rewrite znth_zset by (by apply bit_index).
  pose proof (Z.mod_pos_bound bj 8 ltac:(lia)) as Hm. case_decide as E.
  - rewrite testbit_lor_bmask, E by lia. f_equal. apply bool_decide_ext. split; [|by intros ->].
    intros H. rewrite (Z.div_mod bj 8), (Z.div_mod bi 8), E, H by lia. done.
  - rewrite bool_decide_eq_false_2; [done|]. by intros ->.
Qed.

Lemma bit_bit_clear bi bj :
  0 ≤ bi < BPB → 0 ≤ bj < BPB → bit (bit_clear d bi) bj = negb (bool_decide (bj = bi)) && bit d bj.
Proof.
  intros Hi Hj. unfold bit, bit_clear. rewrite znth_zset by (by apply bit_index).
  pose proof (Z.mod_pos_bound bj 8 ltac:(lia)) as Hm. case_decide as E.
  - rewrite testbit_clear_bmask, E by lia. do 2 f_equal. apply bool_decide_ext. split; [|by intros ->].
    intros H. rewrite (Z.div_mod bj 8), (Z.div_mod bi 8), E, H by lia. done.
  - rewrite bool_decide_eq_false_2; [done|]. by intros ->.
Qed.

Lemma wf_zset i v : 0 ≤ v < 256 → wf_block (zset d i v).
Proof.
  destruct Hwf as [Hl Hb]. intros Hv. split.
  - unfold zset. case_match; [done|]. by rewrite length_insert.
  - unfold zset. case_match; [done|]. by apply Forall_insert.
Qed.

Lemma wf_bit_set bi : wf_block (bit_set d bi).
Proof. apply wf_zset, u8_range. Qed.

Lemma wf_bit_clear bi : wf_block (bit_clear d bi).
Proof. apply wf_zset, u8_range. Qed.
End bits.

(** * Layout of the disk *)

(** The super block describes a disk whose inode blocks, bitmap blocks and data
    blocks are apart, and none of them in the log. *)
Record layout (home : Z → Prop) (sb : superblock) (dstart : Z) : Prop := {
  lay_size : 0 < sb_size sb ≤ 2147483648;
  lay_ninodes : 0 < sb_ninodes sb ≤ 65536;
  lay_istart : 0 ≤ sb_inodestart sb;
  lay_inode : sb_inodestart sb + (sb_ninodes sb - 1) / IPB < sb_bmapstart sb;
  lay_bmap : sb_bmapstart sb + (sb_size sb - 1) / BPB < dstart;
  lay_dstart : dstart ≤ sb_size sb;
  lay_home : ∀ b, sb_inodestart sb ≤ b < sb_size sb → home b;
}.

(** A block that can hold file contents. *)
Definition is_data (sb : superblock) (dstart b : Z) : Prop := dstart ≤ b < sb_size sb.

Section layout.
  Context (home : Z → Prop) (sb : superblock) (dstart : Z) (HL : layout home sb dstart).

Lemma BBLOCK_eq b : 0 ≤ b < sb_size sb → BBLOCK b sb = b / BPB + sb_bmapstart sb.
Proof.
  intros Hb. destruct HL. unfold BBLOCK. apply u32_id. rewrite ?IPB_eq, ?BPB_eq in *. dlia.
Qed.

Lemma BBLOCK_range b :
  0 ≤ b < sb_size sb → sb_bmapstart sb ≤ BBLOCK b sb < dstart.
Proof. intros Hb. rewrite BBLOCK_eq by done. destruct HL. rewrite ?IPB_eq, ?BPB_eq in *. dlia. Qed.

Lemma BBLOCK_home b : 0 ≤ b < sb_size sb → home (BBLOCK b sb).
Proof.
  intros Hb. pose proof (BBLOCK_range b Hb). destruct HL. apply lay_home0.
  rewrite ?IPB_eq, ?BPB_eq in *. dlia.
Qed.

Lemma IBLOCK_eq i : 0 ≤ i < sb_ninodes sb → IBLOCK i sb = i / IPB + sb_inodestart sb.
Proof.
  intros Hi. destruct HL. unfold IBLOCK. apply u32_id. rewrite ?IPB_eq, ?BPB_eq in *. dlia.
Qed.

Lemma IBLOCK_range i :
  0 ≤ i < sb_ninodes sb → sb_inodestart sb ≤ IBLOCK i sb < sb_bmapstart sb.
Proof. intros Hi. rewrite IBLOCK_eq by done. destruct HL. rewrite ?IPB_eq, ?BPB_eq in *. dlia. Qed.

Lemma IBLOCK_home i : 0 ≤ i < sb_ninodes sb → home (IBLOCK i sb).
Proof.
  intros Hi. pose proof (IBLOCK_range i Hi). destruct HL. apply lay_home0. rewrite ?IPB_eq, ?BPB_eq in *. dlia.
Qed.

Lemma data_home b : is_data sb dstart b → home b.
Proof.
  intros Hb. unfold is_data in Hb. destruct HL. apply lay_home0.
  rewrite ?IPB_eq, ?BPB_eq in *. dlia.
Qed.

(** Two blocks with the same bitmap block and bit are the same. *)
Lemma BBLOCK_bit_inj b b' :
  0 ≤ b < sb_size sb → 0 ≤ b' < sb_size sb → BBLOCK b sb = BBLOCK b' sb → b mod BPB = b' mod BPB → b = b'.
Proof.
  intros Hb Hb' H1 H2. rewrite !BBLOCK_eq in H1 by done.
  rewrite (Z.div_mod b BPB), (Z.div_mod b' BPB), H2 by done. f_equal. f_equal. lia.
Qed.

(** Setting or clearing the bit of [x] changes the state of [x] alone. *)
Lemma used_set D x b :
  0 ≤ x < sb_size sb → 0 ≤ b < sb_size sb → wf_block (D (BBLOCK x sb)) →
  used sb (<[BBLOCK x sb := bit_set (D (BBLOCK x sb)) (x mod BPB)]> D) b =
  bool_decide (b = x) || used sb D b.
Proof.
  intros Hx Hb Hwf. unfold used. pose proof (Z.mod_pos_bound b BPB ltac:(done)).
  pose proof (Z.mod_pos_bound x BPB ltac:(done)).
  destruct (decide (BBLOCK x sb = BBLOCK b sb)) as [E|E].
  - rewrite E, fn_lookup_insert, bit_bit_set by (done || by rewrite <-E). f_equal.
    apply bool_decide_ext. split; [|by intros ->]. intros Hm. symmetry. by apply BBLOCK_bit_inj.
  - rewrite fn_lookup_insert_ne by done. rewrite bool_decide_eq_false_2; [done|]. by intros ->.
Qed.

Lemma used_clear D x b :
  0 ≤ x < sb_size sb → 0 ≤ b < sb_size sb → wf_block (D (BBLOCK x sb)) →
  used sb (<[BBLOCK x sb := bit_clear (D (BBLOCK x sb)) (x mod BPB)]> D) b =
  negb (bool_decide (b = x)) && used sb D b.
Proof.
  intros Hx Hb Hwf. unfold used. pose proof (Z.mod_pos_bound b BPB ltac:(done)).
  pose proof (Z.mod_pos_bound x BPB ltac:(done)).
  destruct (decide (BBLOCK x sb = BBLOCK b sb)) as [E|E].
  - rewrite E, fn_lookup_insert, bit_bit_clear by (done || by rewrite <-E). do 2 f_equal.
    apply bool_decide_ext. split; [|by intros ->]. intros Hm. symmetry. by apply BBLOCK_bit_inj.
  - rewrite fn_lookup_insert_ne by done. rewrite bool_decide_eq_false_2; [done|]. by intros ->.
Qed.

(** A change of a data block leaves the map alone. *)
Lemma used_data D x d b :
  is_data sb dstart x → 0 ≤ b < sb_size sb → used sb (<[x := d]> D) b = used sb D b.
Proof.
  intros Hx Hb. unfold used. rewrite fn_lookup_insert_ne; [done|].
  pose proof (BBLOCK_range b Hb). unfold is_data in Hx. lia.
Qed.
End layout.

Lemma demo_layout : layout t_home demo_sb 47.
Proof.
  constructor; cbn; try done. intros b Hb. unfold home, LOGBLOCKS, MAXOPBLOCKS. lia.
Qed.

Lemma demo_bitmap b : 0 ≤ b < 2000 → used demo_sb demo_disk b = (b <? 48).
Proof.
  intros Hb. assert (Hall : forallb (λ b, Bool.eqb (used demo_sb demo_disk b) (b <? 48)) (zseq 0 2000) = true)
    by (by vm_compute).
  rewrite forallb_forall in Hall. apply Bool.eqb_prop, Hall, list_elem_of_In, elem_of_zseq. lia.
Qed.

(** * The allocator *)

Section alloc.
  Context {F H U : Type} `{TX : Txn F H} (dev : Z) `{TXS : !TxnSpec F H dev}.
  Context (Hdev : 0 ≤ dev < 4294967296) (Hhome : ∀ b, t_home b → 0 ≤ b < 4294967296).
  Context (sb : superblock) (dstart : Z) (HL : layout t_home sb dstart).
  Implicit Types (D : Z → list Z) (held : gmap Z (H * list Z)) (lg : gset Z) (r : frest U).

Definition zeros : list Z := replicate 1024 0.

Lemma fwp_bzero {T} x (k : unit → M (fstate F U) T) D held lg r Q :
  t_home x → held !! x = None → Z.of_nat (size held) + Z.of_nat (size lg) + 1 ≤ 29 →
  fwp dev (k tt) (mkfabs (<[x := zeros]> D) held ({[x]} ∪ lg) r) Q →
  fwp dev (bind (bzero dev x) k) (mkfabs D held lg r) Q.
Proof.
  intros Hx Hh Hsz Hk. unfold bzero. apply awp_assoc.
  apply fwp_bread; try done. { unfold NBUF, MAXOPBLOCKS. lia. }
  intros h Hwf. apply awp_assoc. eapply fwp_set_data; [apply lookup_insert_eq|apply wf_zero_block|].
  rewrite insert_insert_eq. apply awp_assoc.
  eapply fwp_log_write; [apply lookup_insert_eq|unfold LOGBLOCKS, MAXOPBLOCKS; lia|].
  eapply fwp_brelse; [apply lookup_insert_eq|by rewrite fn_lookup_insert|].
  by rewrite delete_insert_id.
Qed.

(** The effect of a successful [balloc]. *)
Definition allocated D lg x D' lg' : Prop :=
  is_data sb dstart x ∧ used sb D x = false ∧
  D' = <[x := zeros]> (<[BBLOCK x sb := bit_set (D (BBLOCK x sb)) (x mod BPB)]> D) ∧
  lg' = {[x]} ∪ ({[BBLOCK x sb]} ∪ lg).

(** The free blocks are data blocks, and the caller holds no free block and no
    bitmap block. *)
Record alloc_ok D held lg : Prop := {
  ao_data : ∀ b, 0 ≤ b < sb_size sb → used sb D b = false → is_data sb dstart b;
  ao_bmap : ∀ b, 0 ≤ b < sb_size sb → held !! BBLOCK b sb = None;
  ao_free : ∀ b, 0 ≤ b < sb_size sb → used sb D b = false → held !! b = None;
  ao_room : Z.of_nat (size held) + Z.of_nat (size lg) + 2 ≤ 28;
}.

Lemma BBLOCK_scan k bi :
  0 ≤ k → 0 ≤ bi < BPB → k * BPB + bi < sb_size sb →
  BBLOCK (k * BPB + bi) sb = BBLOCK (k * BPB) sb ∧ (k * BPB + bi) mod BPB = bi.
Proof.
  intros Hk Hbi Hs. rewrite !(BBLOCK_eq t_home sb dstart HL) by (rewrite BPB_eq in *; lia).
  rewrite BPB_eq in *. split; dlia.
Qed.

Lemma fwp_balloc_scan k h D held lg r :
  fr_sb r = sb → alloc_ok D held lg → 0 ≤ k → k * BPB < sb_size sb →
  wf_block (D (BBLOCK (k * BPB) sb)) →
  fwp dev (balloc_scan dev (k * BPB) h)
    (mkfabs D (<[BBLOCK (k * BPB) sb := (h, D (BBLOCK (k * BPB) sb))]> held) lg r)
    (λ res a', match res with
     | Some x => ∃ D' lg', allocated D lg x D' lg' ∧ a' = mkfabs D' held lg' r
     | None => a' = mkfabs D (<[BBLOCK (k * BPB) sb := (h, D (BBLOCK (k * BPB) sb))]> held) lg r ∧
         ∀ b, k * BPB ≤ b < (k + 1) * BPB → b < sb_size sb → used sb D b = true
     end).
Proof.
  intros Hr [Hdata Hbmap Hfree Hroom] Hk Hks Hwf.
  assert (HkB : 0 ≤ k * BPB) by (rewrite BPB_eq; lia). set (bb := BBLOCK (k * BPB) sb) in *.
  assert (Hsz1 : size (<[bb := (h, D bb)]> held) = S (size held)).
  { apply map_size_insert_None, Hbmap. lia. }
  unfold balloc_scan. apply fwp_get. intros io HR. unfold fsb. cbn [fs_rest]. rewrite Hr.
  apply awp_tail. set (n := Z.to_nat (Z.min BPB (sb_size sb - k * BPB))).
  apply (awp_for _ (λ bi a, a = mkfabs D (<[bb := (h, D bb)]> held) lg r ∧
      ∀ b, k * BPB ≤ b < k * BPB + bi → used sb D b = true)
    (λ x a, ∃ D' lg', allocated D lg x D' lg' ∧ a = mkfabs D' held lg' r)).
  - split; [done|]. intros b Hb. lia.
  - intros bi a Hbi (-> & Hused). assert (Hbi' : 0 ≤ bi < BPB ∧ k * BPB + bi < sb_size sb) by lia.
    destruct Hbi' as [Hbi1 Hbi2]. destruct (BBLOCK_scan k bi Hk Hbi1 Hbi2) as [Hbb Hmod]. fold bb in Hbb.
    apply fwp_get. intros io' HR'.
    rewrite (fdata dev D (<[bb := (h, D bb)]> held) lg r io' bb h (D bb)) by (done || apply lookup_insert_eq).
    rewrite land_bmask by lia. fold (bit (D bb) bi).
    assert (Hu : used sb D (k * BPB + bi) = bit (D bb) bi) by (unfold used; by rewrite Hbb, Hmod).
    rewrite <-Hu. destruct (used sb D (k * BPB + bi)) eqn:E; cbn [negb].
    + apply awp_ret. split; [done|]. intros b Hb. destruct (decide (b = k * BPB + bi)) as [->|]; [done|].
      apply Hused. lia.
    + set (x := k * BPB + bi) in *. fold (bit_set (D bb) bi).
      assert (Hx : is_data sb dstart x) by (apply Hdata; [lia|done]).
      eapply fwp_set_data; [apply lookup_insert_eq|by apply wf_bit_set|]. rewrite insert_insert_eq.
      eapply fwp_log_write; [apply lookup_insert_eq|unfold LOGBLOCKS, MAXOPBLOCKS; lia|].
      eapply fwp_brelse; [apply lookup_insert_eq|by rewrite fn_lookup_insert|].
      rewrite delete_insert_id by (apply Hbmap; lia). pose proof (size_add bb lg).
      apply fwp_bzero; try done; [by eapply data_home|apply Hfree; [lia|done]|lia|].
      apply awp_ret. eexists _, _. split; [|done]. split_and!; [done|done| |by rewrite Hbb].
      by rewrite Hbb, Hmod.
  - intros a (-> & Hused). apply awp_ret. split; [done|]. intros b Hb1 Hb2. apply Hused. lia.
  - intros x a HE. by apply awp_ret.
Qed.

Lemma fwp_balloc {T} (k : Z → M (fstate F U) T) D held lg r Q :
  fr_sb r = sb → alloc_ok D held lg →
  (∀ x D' lg', allocated D lg x D' lg' → fwp dev (k x) (mkfabs D' held lg' r) Q) →
  ((∀ b, 0 ≤ b < sb_size sb → used sb D b = true) → fwp dev (k 0) (mkfabs D held lg r) Q) →
  fwp dev (bind (balloc dev) k) (mkfabs D held lg r) Q.
Proof.
  intros Hr Hok Hyes Hno. unfold balloc. apply awp_assoc, fwp_get. intros io HR.
  unfold fsb. cbn [fs_rest]. rewrite Hr. apply awp_assoc.
  pose proof (lay_size _ _ _ HL) as Hsize.
  apply (awp_for _ (λ i a, a = mkfabs D held lg r ∧
      ∀ b, 0 ≤ b < i * BPB → b < sb_size sb → used sb D b = true)
    (λ x a, ∃ D' lg', allocated D lg x D' lg' ∧ a = mkfabs D' held lg' r)).
  - split; [done|]. intros b Hb. lia.
  - intros i a Hi (-> & Hused). apply fwp_get. intros io' HR'. unfold fsb. cbn [fs_rest]. rewrite Hr.
    assert (Hi' : 0 ≤ i ∧ i * BPB < sb_size sb) by (rewrite BPB_eq in *; dlia).
    destruct Hi' as [Hi1 Hi2]. pose proof Hok as [Hdata Hbmap Hfree Hroom].
    apply fwp_bread; try done.
    + apply (BBLOCK_home _ _ _ HL). rewrite BPB_eq in *. lia.
    + apply Hbmap. rewrite BPB_eq in *. lia.
    + unfold NBUF, MAXOPBLOCKS. lia.
    + intros h Hwf. apply awp_bind. eapply awp_conseq; [by apply fwp_balloc_scan|].
      intros [x|] a'; cbn beta iota.
      * intros HE. by apply awp_ret.
      * intros (-> & Hu). eapply fwp_brelse; [apply lookup_insert_eq|done|].
        rewrite delete_insert_id by (apply Hbmap; rewrite BPB_eq in *; lia). apply awp_ret.
        split; [done|]. intros b Hb1 Hb2. destruct (decide (b < i * BPB)); [apply Hused; lia|].
        apply Hu; lia.
  - intros a (-> & Hused). apply Hno. intros b Hb. apply Hused; rewrite BPB_eq in *; dlia.
  - intros x a (D' & lg' & Ha & ->). by apply Hyes.
Qed.

Lemma fwp_bfree {T} x (k : unit → M (fstate F U) T) D held lg r Q :
  fr_sb r = sb → 0 ≤ x < sb_size sb → used sb D x = true → held !! BBLOCK x sb = None →
  Z.of_nat (size held) + Z.of_nat (size lg) ≤ 29 →
  fwp dev (k tt) (mkfabs (<[BBLOCK x sb := bit_clear (D (BBLOCK x sb)) (x mod BPB)]> D) held
                         ({[BBLOCK x sb]} ∪ lg) r) Q →
  fwp dev (bind (bfree dev x) k) (mkfabs D held lg r) Q.
Proof.
  intros Hr Hx Hu Hh Hsz Hk. unfold bfree. apply awp_assoc, fwp_get. intros io HR.
  unfold fsb. cbn [fs_rest]. rewrite Hr. apply awp_assoc.
  apply fwp_bread; try done; [by apply (BBLOCK_home _ _ _ HL)|unfold NBUF, MAXOPBLOCKS; lia|].
  intros h Hwf. apply awp_assoc, fwp_get. intros io' HR'. set (bb := BBLOCK x sb) in *.
  rewrite (fdata dev D (<[bb := (h, D bb)]> held) lg r io' bb h (D bb)) by (done || apply lookup_insert_eq).
  pose proof (Z.mod_pos_bound x BPB ltac:(done)). rewrite land_bmask by lia.
  unfold used, bit in Hu. fold bb in Hu. rewrite Hu. cbn [negb]. fold (bit_clear (D bb) (x mod BPB)).
  apply awp_assoc. eapply fwp_set_data; [apply lookup_insert_eq|by apply wf_bit_clear|]. rewrite insert_insert_eq.
  apply awp_assoc. eapply fwp_log_write; [apply lookup_insert_eq|unfold LOGBLOCKS, MAXOPBLOCKS; lia|].
  eapply fwp_brelse; [apply lookup_insert_eq|by rewrite fn_lookup_insert|].
  by rewrite delete_insert_id.
Qed.
End alloc.

(** * Inodes on disk *)

Lemma blk_load_put_addrs_ne n d o l off :
  (o + 4 * length l ≤ length d)%nat → (off + n ≤ o ∨ o + 4 * length l ≤ off)%nat →
  blk_load n (put_addrs d o l) off = blk_load n d off.
Proof.
  revert d o. induction l as [|a l IH]; intros d o Hl Ho; [done|]. cbn [put_addrs length] in *.
  rewrite IH; [|rewrite length_blk_store; lia|lia]. apply blk_load_store_ne; lia.
Qed.

Lemma length_put_addrs d o l : (o + 4 * length l ≤ length d)%nat → length (put_addrs d o l) = length d.
Proof.
  revert d o. induction l as [|a l IH]; intros d o Hl; [done|]. cbn [put_addrs length] in *.
  rewrite IH; rewrite length_blk_store; lia.
Qed.

Lemma blk_load_put_addrs d o l k a :
  (o + 4 * length l ≤ length d)%nat → l !! k = Some a →
  blk_load 4 (put_addrs d o l) (o + 4 * k) = u32 a.
Proof.
  revert d o k. induction l as [|x l IH]; intros d o k Hl Hk; [done|]. cbn [put_addrs length] in *.
  destruct k as [|k]; cbn in Hk.
  - simplify_eq. rewrite Nat.mul_0_r, Nat.add_0_r.
    rewrite blk_load_put_addrs_ne by (rewrite ?length_blk_store; lia).
    by rewrite blk_load_store_eq by lia.
  - replace (o + 4 * S k)%nat with (o + 4 + 4 * k)%nat by lia.
    apply IH; [rewrite length_blk_store; lia|done].
Qed.

Lemma is_bytes_put_addrs d o l : is_bytes d → is_bytes (put_addrs d o l).
Proof.
  revert d o. induction l as [|a l IH]; intros d o Hd; [done|]. cbn. apply IH.
  apply is_bytes_blk_write; [done|apply is_bytes_le_enc].
Qed.

(** Arithmetic on the lengths of updated blocks. *)
Ltac blia :=
  try lia;
  match goal with
  | |- context [length (blk_store ?n ?l ?o ?v)] => rewrite (length_blk_store n l o v) by blia; blia
  | |- context [length (put_addrs ?d ?o ?l)] => rewrite (length_put_addrs d o l) by blia; blia
  end.

(** The fields of an inode have the widths of [struct dinode]. *)
Record dinode_wf (x : dinode) : Prop := {
  dw_type : -32768 ≤ di_type x < 32768;
  dw_major : -32768 ≤ di_major x < 32768;
  dw_minor : -32768 ≤ di_minor x < 32768;
  dw_nlink : -32768 ≤ di_nlink x < 32768;
  dw_size : 0 ≤ di_size x < 4294967296;
  dw_len : length (di_addrs x) = 13%nat;
  dw_addrs : Forall (λ a, 0 ≤ a < 4294967296) (di_addrs x);
}.

Lemma s16_mod v : -32768 ≤ v < 32768 → s16 (v mod 256 ^ Z.of_nat 2) = v.
Proof. intros Hv. change (256 ^ Z.of_nat 2) with 65536. unfold s16. dlia. Qed.

Lemma wf_put_dinode d o x :
  wf_block d → (o + 64 ≤ 1024)%nat → length (di_addrs x) = 13%nat → wf_block (put_dinode d o x).
Proof.
  intros [Hl Hb] Ho Hx. unfold put_dinode. split.
  - rewrite length_put_addrs by blia. blia.
  - apply is_bytes_put_addrs. unfold blk_store.
    repeat (apply is_bytes_blk_write; [|apply is_bytes_le_enc]). done.
Qed.

(** Peel stores that do not overlap the load. *)
Ltac load_skip :=
  repeat first
    [ rewrite blk_load_put_addrs_ne by blia
    | rewrite blk_load_store_ne by blia ].

Lemma get_put_dinode d o x :
  wf_block d → (o + 64 ≤ 1024)%nat → dinode_wf x → get_dinode (put_dinode d o x) o = x.
Proof.
  intros [Hl _] Ho Hx. destruct x as [ty ma mi nl sz ad]. destruct Hx as [H1 H2 H3 H4 H5 H6 H7]. cbn in *.
  unfold get_dinode, put_dinode. cbn [di_type di_major di_minor di_nlink di_size di_addrs]. f_equal.
  - load_skip. rewrite blk_load_store_eq by lia. by apply s16_mod.
  - load_skip. rewrite blk_load_store_eq by blia. by apply s16_mod.
  - load_skip. rewrite blk_load_store_eq by blia. by apply s16_mod.
  - load_skip. rewrite blk_load_store_eq by blia. by apply s16_mod.
  - load_skip. rewrite blk_load_store_eq by blia. by apply Z.mod_small.
  - apply list_eq_same_length with (n := 13%nat); rewrite ?length_fmap, ?length_zseq; [done..|].
    intros i a b Hi Ha Hb. rewrite list_lookup_fmap, lookup_zseq in Ha by done. cbn in Ha. simplify_eq.
    replace (Z.to_nat (4 * _)) with (4 * i)%nat by lia.
    rewrite (blk_load_put_addrs _ _ _ i b); [|blia|done].
    apply u32_id. rewrite Forall_forall in H7. apply H7. by eapply list_elem_of_lookup_2.
Qed.

(** A store outside an inode's 64 bytes leaves the inode alone. *)
Lemma get_dinode_ne d d' o :
  (∀ n off, (o ≤ off ∧ off + n ≤ o + 64)%nat → blk_load n d' off = blk_load n d off) →
  get_dinode d' o = get_dinode d o.
Proof.
  intros Heq. unfold get_dinode. f_equal; try (rewrite Heq by lia; done).
  apply list_fmap_ext. intros i k Hi. apply lookup_zseq_Some in Hi as [-> Hi]. apply Heq. lia.
Qed.

Lemma get_put_dinode_ne d o o' x :
  wf_block d → (o + 64 ≤ 1024)%nat → (o' + 64 ≤ 1024)%nat → length (di_addrs x) = 13%nat →
  (o + 64 ≤ o' ∨ o' + 64 ≤ o)%nat → get_dinode (put_dinode d o x) o' = get_dinode d o'.
Proof.
  intros [Hl _] Ho Ho' Hx Hd. apply get_dinode_ne. intros n off Hoff. unfold put_dinode. load_skip. done.
Qed.

(** * Theorems *)

Section theorems.
  Context {F H U : Type} `{TX : Txn F H} (dev : Z) `{TXS : !TxnSpec F H dev}.
  Context (sb : superblock) (dstart : Z).
  Implicit Types (D : Z → list Z) (held : gmap Z (H * list Z)) (lg : gset Z).

(** [balloc] returns a data block that was free, fills it with zeros and
    sets its bit in the free map; every other bit, and every block that is
    neither this one nor in the free map, stays as it was.  When there is no
    free block it returns 0 and changes nothing. *)
Theorem balloc_spec (s : fstate F U) D held lg :
  0 ≤ dev < 4294967296 → (∀ b, t_home b → 0 ≤ b < 4294967296) → layout t_home sb dstart →
  fr_sb (fs_rest s) = sb → t_rep D held lg (fs_io s) → alloc_ok sb dstart D held lg →
  ∃ x s' D' lg', balloc dev s = Ok x s' ∧ t_rep D' held lg' (fs_io s') ∧ fs_rest s' = fs_rest s ∧
    ((x = 0 ∧ D' = D ∧ ∀ b, 0 ≤ b < sb_size sb → used sb D b = true) ∨
     (is_data sb dstart x ∧ used sb D x = false ∧ D' x = zeros ∧
      (∀ b, 0 ≤ b < sb_size sb → used sb D' b = bool_decide (b = x) || used sb D b) ∧
      (∀ b, b ≠ x → (b < sb_bmapstart sb ∨ dstart ≤ b) → D' b = D b))).
Proof.
  intros Hdev Hhome HL Hsb HR Hok. destruct s as [io r]. cbn in Hsb.
  assert (Hw : fwp dev (balloc dev) (mkfabs D held lg r) (λ x a',
    (x = 0 ∧ a' = mkfabs D held lg r ∧ ∀ b, 0 ≤ b < sb_size sb → used sb D b = true) ∨
    ∃ D' lg', allocated sb dstart D lg x D' lg' ∧ a' = mkfabs D' held lg' r)).
  { apply awp_tail. apply (fwp_balloc dev Hdev Hhome sb dstart HL); try done.
    - intros x D' lg' Ha. apply awp_ret. right. eauto.
    - intros Hall. apply awp_ret. by left. }
  destruct (awp_run _ _ _ _ (mkfstate io r) Hw) as (x & [io' r'] & a' & Hr & [HR' Hr'] & HQ); [by split|].
  cbn in *. destruct HQ as [(-> & -> & Hall)|(D' & lg' & (Hx & Hu & -> & ->) & ->)]; cbn in *; subst r'.
  - exists 0, (mkfstate io' r), D, lg. split_and!; try done. by left.
  - pose proof Hx as Hx'. unfold is_data in Hx'. pose proof (lay_bmap _ _ _ HL).
    assert (Hx0 : 0 ≤ x < sb_size sb).
    { destruct HL. rewrite ?BPB_eq, ?IPB_eq in *. dlia. }
    assert (Hwf : wf_block (D (BBLOCK x sb))) by (eapply t_rep_wf; [exact HR|by apply (BBLOCK_home _ _ _ HL)]).
    pose proof (BBLOCK_range _ _ _ HL x Hx0) as Hbr.
    eexists x, (mkfstate io' r), _, _. split_and!; [done|exact HR'|done|]. right. split_and!; try done.
    + by rewrite fn_lookup_insert.
    + intros b Hb. rewrite (used_data _ _ _ HL) by done. by rewrite (used_set _ _ _ HL).
    + intros b Hb Hb'. rewrite !fn_lookup_insert_ne by (done || lia). done.
Qed.

(** [bfree] clears the bit of a used block and nothing else; freeing a
    block that is free is caught: it panics. *)
Theorem bfree_spec (s : fstate F U) D held lg x :
  0 ≤ dev < 4294967296 → (∀ b, t_home b → 0 ≤ b < 4294967296) → layout t_home sb dstart →
  fr_sb (fs_rest s) = sb → t_rep D held lg (fs_io s) →
  0 ≤ x < sb_size sb → held !! BBLOCK x sb = None →
  Z.of_nat (size held) + Z.of_nat (size lg) ≤ 29 →
  if used sb D x
  then ∃ s' D' lg', bfree dev x s = Ok tt s' ∧ t_rep D' held lg' (fs_io s') ∧ fs_rest s' = fs_rest s ∧
    (∀ b, 0 ≤ b < sb_size sb → used sb D' b = negb (bool_decide (b = x)) && used sb D b) ∧
    (∀ b, b ≠ BBLOCK x sb → D' b = D b)
  else bfree dev x s = Panic "freeing free block".
Proof.
  intros Hdev Hhome HL Hsb HR Hx Hh Hsz. destruct s as [io r]. cbn in Hsb.
  assert (Hbh : t_home (BBLOCK x sb)) by (by apply (BBLOCK_home _ _ _ HL)).
  assert (Hwf : wf_block (D (BBLOCK x sb))) by (by eapply t_rep_wf).
  destruct (used sb D x) eqn:Hu.
  - assert (Hw : fwp dev (bfree dev x) (mkfabs D held lg r) (λ _ a', a' =
      mkfabs (<[BBLOCK x sb := bit_clear (D (BBLOCK x sb)) (x mod BPB)]> D) held ({[BBLOCK x sb]} ∪ lg) r)).
    { apply awp_tail. apply (fwp_bfree dev Hdev Hhome sb dstart HL); try done. by apply awp_ret. }
    destruct (awp_run _ _ _ _ (mkfstate io r) Hw) as ([] & [io' r'] & a' & Hr & [HR' Hr'] & ->); [by split|].
    cbn in *. subst r'. eexists (mkfstate io' r), _, _. split_and!; [done|exact HR'|done| |].
    + intros b Hb. by rewrite (used_clear _ _ _ HL).
    + intros b Hb. by rewrite fn_lookup_insert_ne.
  - destruct (t_bread_ok D held lg io (BBLOCK x sb) HR Hbh Hh) as (h & io' & Hio & HR').
    { unfold NBUF, MAXOPBLOCKS. lia. }
    unfold bfree. run. unfold fsb. cbn [fs_rest]. rewrite Hsb. pose proof (Hhome _ Hbh).
    unfold bread_. rewrite !u32_id by done.
    step_by (zoom_ok ioL (t_bread dev (BBLOCK x sb)) (mkfstate io r) h io' Hio).
    cbn [upd ioL fs_rest].
    rewrite (fdata dev D _ lg r io' _ h (D (BBLOCK x sb)) HR' (lookup_insert_eq _ _ _)).
    pose proof (Z.mod_pos_bound x BPB ltac:(done)). rewrite land_bmask by lia.
    unfold used, bit in Hu. by rewrite Hu.
Qed.
End theorems.

Lemma demo_alloc_ok : alloc_ok demo_sb 47 demo_disk (∅ : gmap Z (Z * list Z)) ∅.
Proof.
  constructor; try done. intros b Hb Hu. rewrite demo_bitmap in Hu by done.
  unfold is_data. cbn in *. lia.
Qed.

Lemma balloc_spec_witness :
  ∃ (io : lstate Bio.bstate) x s', balloc (U := unit) 1 (mkfstate io demo_rest) = Ok x s' ∧ 48 ≤ x < 2000.
Proof.
  destruct demo_rep as [io HR].
  destruct (balloc_spec 1 demo_sb 47 (mkfstate io demo_rest) demo_disk ∅ ∅)
    as (x & s' & D' & lg' & H1 & _ & _ & H2);
    [done|apply demo_home|apply demo_layout|done|exact HR|apply demo_alloc_ok|].
  exists io, x, s'. split; [exact H1|]. destruct H2 as [(_ & _ & Hall)|(Hx & Hu & _)].
  - specialize (Hall 1999 ltac:(done)). by vm_compute in Hall.
  - unfold is_data in Hx. cbn in Hx. rewrite demo_bitmap in Hu by lia. lia.
Defined.

Lemma bfree_spec_witness :
  ∃ (io : lstate Bio.bstate), bfree (U := unit) 1 1000 (mkfstate io demo_rest) = Panic "freeing free block".
Proof.
  destruct demo_rep as [io HR]. exists io.
  apply (bfree_spec 1 demo_sb 47 (mkfstate io demo_rest) demo_disk ∅ ∅ 1000);
    [done|apply demo_home|apply demo_layout|done|exact HR|done|done|done].
Defined.
