(* ===== verification/FsInode.v ===== *)
(** kernel/fs.c: the inode table and the life of an inode.

    [it_ok] is the invariant of the in-memory table: entries in use are unique
    per inode.  [dinode_at] reads an inode from a disk.  The theorems say what
    [iget], [ilock], [iupdate], [ialloc] and [iput] do to the table and to the
    disk, and that [itrunc] gives back exactly the blocks of the inode. *)

From stdpp Require Import base tactics list numbers strings gmap functions sets.
From S2P Require Import Prelude Param Bytes Spinlock Sleeplock BufSpec TxSpec UserSpec Fs FsWp Log FsDemo FsAlloc.
From Stdlib Require Import ZArith Lia.

Open Scope kernel_scope.

(** The inode [inum] of a disk. *)
Definition dinode_at (sb : superblock) (D : Z → list Z) (inum : Z) : dinode :=
  get_dinode (D (IBLOCK inum sb)) (dinode_off inum).

(** * The table *)

(** A pointer into the table. *)
Definition iptr (ip : Z) : Prop := 1 ≤ ip ≤ NINODE.

Record it_ok {U} (r : frest U) : Prop := {
  it_lock : unlocked (fr_itlock r);
  it_len : len (fr_inode r) = NINODE;
  it_ref : ∀ ip, iptr ip → 0 ≤ i_ref (r_geti r ip);
  it_sleep : ∀ ip, iptr ip → unlocked (sl_lk (i_lock (r_geti r ip)));
  it_uniq : ∀ ip jp, iptr ip → iptr jp → 0 < i_ref (r_geti r ip) → 0 < i_ref (r_geti r jp) →
    i_dev (r_geti r ip) = i_dev (r_geti r jp) → i_inum (r_geti r ip) = i_inum (r_geti r jp) → ip = jp;
}.

Lemma geti_seti {U} (r : frest U) ip jp i :
  len (fr_inode r) = NINODE → iptr ip →
  r_geti (r_seti ip i r) jp = if decide (ip = jp) then i else r_geti r jp.
Proof.
  intros Hl Hi. unfold r_geti, r_seti. cbn. rewrite znth_zset by (unfold iptr in Hi; lia).
  repeat case_decide; try done; lia.
Qed.

Lemma seti_seti {U} (r : frest U) ip i j : r_seti ip j (r_seti ip i r) = r_seti ip j r.
Proof. unfold r_seti. cbn. by rewrite zset_zset. Qed.

Lemma seti_same {U} (r : frest U) ip :
  len (fr_inode r) = NINODE → iptr ip → r_seti ip (r_geti r ip) r = r.
Proof.
  intros Hl Hip. unfold r_seti, r_geti. rewrite zset_same by (unfold iptr in Hip; lia). by destruct r.
Qed.

Lemma set_i_addrs_same i : set_i_addrs (i_addrs i) i = i.
Proof. by destruct i. Qed.

Lemma len_seti {U} (r : frest U) ip i : len (fr_inode (r_seti ip i r)) = len (fr_inode r).
Proof. apply len_zset. Qed.

(** The search of [iget]. *)
Definition imatch (dev inum : Z) (i : inode) : bool :=
  (0 <? i_ref i) && (i_dev i =? dev) && (i_inum i =? inum).

Lemma iget_scan_spec n ip e dev inum l :
  1 ≤ ip → 0 ≤ e →
  let '(p, e') := iget_scan n ip e dev inum l in
  (ip ≤ p < ip + Z.of_nat n ∧ imatch dev inum (znth inode0 l (p - 1)) = true) ∨
  (p = 0 ∧ (∀ q, ip ≤ q < ip + Z.of_nat n → imatch dev inum (znth inode0 l (q - 1)) = false) ∧
   (if e =? 0
    then (ip ≤ e' < ip + Z.of_nat n ∧ i_ref (znth inode0 l (e' - 1)) = 0) ∨
         (e' = 0 ∧ ∀ q, ip ≤ q < ip + Z.of_nat n → i_ref (znth inode0 l (q - 1)) ≠ 0)
    else e' = e)).
Proof.
  revert ip e. induction n as [|n IH]; intros ip e Hip He; cbn [iget_scan].
  - right. split_and!; [done|lia|]. destruct (e =? 0) eqn:E; [|done]. right. split; [lia|]. intros q Hq. lia.
  - fold (imatch dev inum (znth inode0 l (ip - 1))). destruct (imatch dev inum _) eqn:Em.
    { left. split; [lia|done]. }
    set (e1 := if (e =? 0) && _ then ip else e).
    assert (He1 : 0 ≤ e1) by (subst e1; case_match; lia).
    specialize (IH (ip + 1) e1 ltac:(lia) He1). destruct (iget_scan n (ip + 1) e1 dev inum l) as [p e'].
    destruct IH as [[H1 H2]|(H1 & H2 & H3)]; [left; split; [lia|done]|]. right. split_and!; [done| |].
    + intros q Hq. destruct (decide (q = ip)) as [->|]; [done|]. apply H2. lia.
    + subst e1. destruct (e =? 0) eqn:E; cbn [andb] in H3.
      * destruct (i_ref (znth inode0 l (ip - 1)) =? 0) eqn:Er; cbn [andb] in H3.
        -- destruct (ip =? 0) eqn:?; [lia|]. subst e'. left. split; lia.
        -- rewrite E in H3. destruct H3 as [[H3 H4]|[H3 H4]]; [left; split; [lia|done]|].
           right. split; [done|]. intros q Hq. destruct (decide (q = ip)) as [->|]; [lia|]. apply H4. lia.
      * by rewrite E in H3.
Qed.

Lemma dinode_off_bound i : (dinode_off i + 64 ≤ 1024)%nat.
Proof. unfold dinode_off. rewrite IPB_eq. unfold SIZEOF_DINODE. pose proof (Z.mod_pos_bound i 16). dlia. Qed.

(** ** Writing one inode of a block *)

Section dinode_at.
  Context (home : Z → Prop) (sb : superblock) (dstart : Z) (HL : layout home sb dstart).
  Implicit Types (D : Z → list Z).

Lemma dinode_at_block D i j d x :
  0 ≤ i < sb_ninodes sb → 0 ≤ j < sb_ninodes sb → get_dinode d (dinode_off i) = x →
  (∀ o, (o + 64 ≤ 1024)%nat → (dinode_off i + 64 ≤ o ∨ o + 64 ≤ dinode_off i)%nat →
     get_dinode d o = get_dinode (D (IBLOCK i sb)) o) →
  dinode_at sb (<[IBLOCK i sb := d]> D) j = if decide (j = i) then x else dinode_at sb D j.
Proof.
  intros Hi Hj Hx Ho. unfold dinode_at. pose proof (dinode_off_bound j) as Ho'.
  destruct (decide (IBLOCK i sb = IBLOCK j sb)) as [E|E].
  - rewrite <-E, fn_lookup_insert. case_decide as Ei; [by subst j|]. apply Ho; [done|].
    rewrite !(IBLOCK_eq _ _ _ HL) in E by done. unfold dinode_off. rewrite IPB_eq in *. unfold SIZEOF_DINODE. dlia.
  - rewrite fn_lookup_insert_ne by done. rewrite decide_False; [done|]. by intros ->.
Qed.

Lemma dinode_at_update D i j x :
  0 ≤ i < sb_ninodes sb → 0 ≤ j < sb_ninodes sb → wf_block (D (IBLOCK i sb)) → dinode_wf x →
  dinode_at sb (<[IBLOCK i sb := put_dinode (D (IBLOCK i sb)) (dinode_off i) x]> D) j =
  if decide (j = i) then x else dinode_at sb D j.
Proof.
  intros Hi Hj Hwf Hx. pose proof (dinode_off_bound i). apply dinode_at_block; try done.
  - by apply get_put_dinode.
  - intros o Ho Hd. apply get_put_dinode_ne; try done. apply Hx.
Qed.
End dinode_at.

(** The inode [ialloc] writes. *)
Definition fresh_dinode (type : Z) : dinode := mkdinode type 0 0 0 0 (replicate 13 0).

Definition ialloc_block (d : list Z) (inum type : Z) : list Z :=
  blk_store 2 (blk_write d (dinode_off inum) (replicate 64 0)) (dinode_off inum) type.

Lemma wf_ialloc_block d inum type : wf_block d → wf_block (ialloc_block d inum type).
Proof.
  intros [Hl Hb]. pose proof (dinode_off_bound inum) as Ho. unfold ialloc_block. split.
  - rewrite length_blk_store; rewrite length_blk_write; rewrite ?length_replicate; lia.
  - repeat apply is_bytes_blk_write; [done|by apply Forall_replicate|apply is_bytes_le_enc].
Qed.

Lemma get_ialloc_block d inum type :
  wf_block d → -32768 ≤ type < 32768 → get_dinode (ialloc_block d inum type) (dinode_off inum) = fresh_dinode type.
Proof.
  intros [Hl _] Ht. pose proof (dinode_off_bound inum) as Ho. set (o := dinode_off inum) in *.
  assert (Hw : length (blk_write d o (replicate 64 0)) = 1024%nat)
    by (rewrite length_blk_write; rewrite ?length_replicate; lia).
  assert (Hz : ∀ n k, (2 ≤ k)%nat → (k + n ≤ 64)%nat → blk_load n (ialloc_block d inum type) (o + k) = 0).
  { intros n k Hk Hn. unfold ialloc_block. fold o. rewrite blk_load_store_ne by lia.
    apply blk_load_write_zeros; lia. }
  unfold get_dinode, fresh_dinode. rewrite !Hz by lia. f_equal.
  - unfold ialloc_block. fold o. rewrite blk_load_store_eq by lia. by apply s16_mod.
  - apply list_eq_same_length with (n := 13%nat); rewrite ?length_fmap, ?length_zseq; [done..|].
    intros i a b Hi Ha Hb. rewrite list_lookup_fmap, lookup_zseq in Ha by done. cbn in Ha. simplify_eq.
    apply lookup_replicate_1 in Hb as [-> _]. rewrite <-Nat.add_assoc. apply Hz; lia.
Qed.

Lemma get_ialloc_block_ne d inum type o :
  wf_block d → (o + 64 ≤ 1024)%nat → (dinode_off inum + 64 ≤ o ∨ o + 64 ≤ dinode_off inum)%nat →
  get_dinode (ialloc_block d inum type) o = get_dinode d o.
Proof.
  intros [Hl _] Ho Hd. pose proof (dinode_off_bound inum). apply get_dinode_ne. intros n off Hoff.
  unfold ialloc_block. rewrite blk_load_store_ne by (rewrite ?length_blk_write; rewrite ?length_replicate; lia).
  unfold blk_load. rewrite blk_read_write_ne by (rewrite ?length_replicate; lia). done.
Qed.

Section inode.
  Context {F H U : Type} `{TX : Txn F H} (dev : Z) `{TXS : !TxnSpec F H dev}.
  Context (Hdev : 0 ≤ dev < 4294967296) (Hhome : ∀ b, t_home b → 0 ≤ b < 4294967296).
  Context (sb : superblock) (dstart : Z) (HL : layout t_home sb dstart).
  Context (me pid : Z).
  Implicit Types (D : Z → list Z) (held : gmap Z (H * list Z)) (lg : gset Z) (r : frest U).

Lemma fwp_upd_i {T} ip f (k : unit → M (fstate F U) T) D held lg r Q :
  fwp dev (k tt) (mkfabs D held lg (r_seti ip (f (r_geti r ip)) r)) Q →
  fwp dev (bind (upd_i ip f) k) (mkfabs D held lg r) Q.
Proof. intros Hk. by apply (fwp_rest dev _ _ _ _ _ _ (λ r, r_seti ip (f (r_geti r ip)) r)). Qed.

(** The table with its lock taken. *)
Definition it_busy r : frest U :=
  mkfrest (fr_sb r) (mkspinlock 1 (lk_name (fr_itlock r)) (Some me)) (fr_inode r) (fr_ku r).

Lemma fwp_it_acquire {T} (k : unit → M (fstate F U) T) D held lg r Q :
  unlocked (fr_itlock r) → fwp dev (k tt) (mkfabs D held lg (it_busy r)) Q →
  fwp dev (bind (zoom itlockL (acquire_lk me)) k) (mkfabs D held lg r) Q.
Proof.
  intros Hu Hk. apply (fwp_rest dev _ _ _ _ _ _ it_busy); [|done].
  intros io. unfold zoom. cbn. by rewrite acquire_lk_ok.
Qed.

Lemma fwp_it_release {T} (k : unit → M (fstate F U) T) D held lg r Q :
  unlocked (fr_itlock r) → fwp dev (k tt) (mkfabs D held lg r) Q →
  fwp dev (bind (zoom itlockL (release_lk me)) k) (mkfabs D held lg (it_busy r)) Q.
Proof.
  intros Hu Hk. apply (fwp_rest dev _ _ _ _ _ _ (λ _, r)); [|done].
  intros io. unfold zoom. cbn. rewrite release_lk_ok. destruct r as [b l i ku]. cbn in *.
  by rewrite <-(unlocked_eq l Hu).
Qed.

(** The three outcomes of [iget]. *)
Lemma iget_run (io : F) r inum (s := mkfstate io r) :
  it_ok r →
  (∃ ip, iptr ip ∧ imatch dev inum (r_geti r ip) = true ∧
     iget me dev inum s = Ok ip (mkfstate io (r_seti ip (set_i_ref (i_ref (r_geti r ip) + 1) (r_geti r ip)) r))) ∨
  (∃ ip, iptr ip ∧ i_ref (r_geti r ip) = 0 ∧ (∀ jp, iptr jp → imatch dev inum (r_geti r jp) = false) ∧
     iget me dev inum s = Ok ip (mkfstate io (r_seti ip (set_i_id dev inum (r_geti r ip)) r))) ∨
  (iget me dev inum s = Panic "iget: no inodes" ∧
     ∀ ip, iptr ip → i_ref (r_geti r ip) ≠ 0 ∧ imatch dev inum (r_geti r ip) = false).
Proof.
  intros Hit. unfold iget, s.
  rewrite (bind_ok _ _ _ tt (mkfstate io (it_busy r)))
    by (unfold zoom; cbn; rewrite acquire_lk_ok by apply Hit; done).
  run. cbn [fs_rest fr_inode it_busy].
  assert (Hrel : ∀ ip i, zoom itlockL (release_lk me) (mkfstate io (r_seti ip i (it_busy r))) =
                         Ok tt (mkfstate io (r_seti ip i r))).
  { intros. unfold zoom. cbn. rewrite release_lk_ok. destruct r as [b l x ku]. cbn in *.
    by rewrite <-(unlocked_eq l (it_lock _ Hit)). }
  pose proof (iget_scan_spec (Z.to_nat NINODE) 1 0 dev inum (fr_inode r) ltac:(lia) ltac:(lia)) as Hs.
  destruct (iget_scan _ _ _ _ _ _) as [p e]. cbn [Z.eqb] in Hs.
  assert (Hir : ∀ q, 1 ≤ q < 1 + Z.of_nat (Z.to_nat NINODE) ↔ iptr q) by (unfold iptr, NINODE; lia).
  destruct Hs as [[Hp Hm]|(-> & Hno & He)].
  - apply Hir in Hp. destruct (p =? 0) eqn:E; [unfold iptr in Hp; lia|]. cbn [negb].
    left. exists p. split_and!; try done. unfold upd_i. run. by step_by (Hrel p (set_i_ref (i_ref (r_geti r p) + 1) (r_geti r p))).
  - cbn [Z.eqb negb]. assert (Hno' : ∀ q, iptr q → imatch dev inum (r_geti r q) = false)
      by (intros q Hq; apply Hno; by apply Hir).
    right. destruct He as [[He Hz]|[-> Hz]].
    + apply Hir in He. destruct (e =? 0) eqn:E; [unfold iptr in He; lia|].
      left. exists e. split_and!; try done. unfold upd_i. run. by step_by (Hrel e (set_i_id dev inum (r_geti r e))).
    + right. split; [done|]. intros ip Hip. split; [apply Hz; by apply Hir|by apply Hno'].
Qed.

Lemma fwp_iget {T} inum (k : Z → M (fstate F U) T) D held lg r Q :
  it_ok r →
  (∃ ip, iptr ip ∧ i_ref (r_geti r ip) = 0) ∨ (∃ ip, iptr ip ∧ imatch dev inum (r_geti r ip) = true) →
  (∀ ip, iptr ip → imatch dev inum (r_geti r ip) = true →
     fwp dev (k ip) (mkfabs D held lg (r_seti ip (set_i_ref (i_ref (r_geti r ip) + 1) (r_geti r ip)) r)) Q) →
  (∀ ip, iptr ip → i_ref (r_geti r ip) = 0 →
     (∀ jp, iptr jp → imatch dev inum (r_geti r jp) = false) →
     fwp dev (k ip) (mkfabs D held lg (r_seti ip (set_i_id dev inum (r_geti r ip)) r)) Q) →
  fwp dev (bind (iget me dev inum) k) (mkfabs D held lg r) Q.
Proof.
  intros Hit Hroom Hhit Hmiss. apply awp_call. intros [io r'] [HR Hr]. cbn in *. subst r'.
  destruct (iget_run io r inum Hit) as [(ip & Hip & Hm & E)|[(ip & Hip & H0 & Hno & E)|[_ Hno]]].
  - eexists ip, _, (mkfabs D held lg _). split_and!; [exact E|by split|by apply Hhit].
  - eexists ip, _, (mkfabs D held lg _). split_and!; [exact E|by split|by apply Hmiss].
  - exfalso. destruct Hroom as [(ip & Hip & Hr0)|(ip & Hip & Hm)]; destruct (Hno ip Hip); congruence.
Qed.

(** The invariant after [iget]. *)
Lemma it_ok_hit r ip j (i := r_geti r ip) :
  it_ok r → iptr ip → 0 < i_ref i → i_dev j = i_dev i → i_inum j = i_inum i →
  sl_lk (i_lock j) = sl_lk (i_lock i) → 0 ≤ i_ref j → it_ok (r_seti ip j r).
Proof.
  intros Hit Hip Hr Hd Hi Hl Hf0. destruct Hit as [H1 H2 H3 H4 H5].
  constructor; try done; [by rewrite len_seti| | |].
  - intros jp Hj. rewrite geti_seti by done. case_decide; auto.
  - intros jp Hj. rewrite geti_seti by done. case_decide; [rewrite Hl; by apply H4|auto].
  - intros p q Hp Hq. rewrite !geti_seti by done.
    repeat case_decide; subst; try done; rewrite ?Hd, ?Hi; intros; apply H5; done.
Qed.

Lemma it_ok_same r ip j (i := r_geti r ip) :
  it_ok r → iptr ip → i_ref j = i_ref i → i_dev j = i_dev i → i_inum j = i_inum i →
  sl_lk (i_lock j) = sl_lk (i_lock i) → it_ok (r_seti ip j r).
Proof.
  intros Hit Hip Hr Hd Hi Hl. destruct Hit as [H1 H2 H3 H4 H5].
  constructor; try done; [by rewrite len_seti| | |].
  - intros jp Hj. rewrite geti_seti by done. case_decide; [rewrite Hr; by apply H3|auto].
  - intros jp Hj. rewrite geti_seti by done. case_decide; [rewrite Hl; by apply H4|auto].
  - intros p q Hp Hq. rewrite !geti_seti by done.
    repeat case_decide; subst; try done; rewrite ?Hr, ?Hd, ?Hi; intros; apply H5; done.
Qed.

Lemma it_ok_miss r ip inum :
  it_ok r → iptr ip → (∀ jp, iptr jp → imatch dev inum (r_geti r jp) = false) →
  it_ok (r_seti ip (set_i_id dev inum (r_geti r ip)) r).
Proof.
  intros Hit Hip Hno. destruct Hit as [H1 H2 H3 H4 H5].
  constructor; try done; [by rewrite len_seti| | |].
  - intros jp Hj. rewrite geti_seti by done. case_decide; [cbn; lia|auto].
  - intros jp Hj. rewrite geti_seti by done. case_decide; [cbn|]; auto.
  - intros p q Hp Hq. rewrite !geti_seti by done. repeat case_decide; subst; try done; cbn; intros.
    + specialize (Hno q Hq). unfold imatch in Hno. lia.
    + specialize (Hno p Hp). unfold imatch in Hno. lia.
    + by apply H5.
Qed.

(** ** Locking *)

(** The sleep lock after [acquiresleep]. *)
Definition sl_taken (l : sleeplock) : sleeplock := mksleeplock 1 (sl_lk l) (sl_name l) pid.

Lemma fwp_isleep {T} ip (k : unit → M (fstate F U) T) D held lg r Q :
  sl_free (i_lock (r_geti r ip)) →
  fwp dev (k tt) (mkfabs D held lg (r_seti ip (set_i_lock (sl_taken (i_lock (r_geti r ip))) (r_geti r ip)) r)) Q →
  fwp dev (bind (zoom (ilockL ip) (acquiresleep me pid (ino_chan ip))) k) (mkfabs D held lg r) Q.
Proof.
  intros Hf Hk.
  apply (fwp_rest dev _ _ _ _ _ _ (λ r, r_seti ip (set_i_lock (sl_taken (i_lock (r_geti r ip))) (r_geti r ip)) r)); [|done].
  intros io. unfold zoom. cbn [view ilockL geti fs_rest]. by rewrite acquiresleep_ok.
Qed.

Lemma fwp_irelsleep {T} ip (k : unit → M (fstate F U) T) D held lg r Q :
  unlocked (sl_lk (i_lock (r_geti r ip))) →
  fwp dev (k tt) (mkfabs D held lg (r_seti ip (set_i_lock (set_sl 0 0 (i_lock (r_geti r ip))) (r_geti r ip)) r)) Q →
  fwp dev (bind (zoom (ilockL ip) (releasesleep me (ino_chan ip))) k) (mkfabs D held lg r) Q.
Proof.
  intros Hf Hk.
  apply (fwp_rest dev _ _ _ _ _ _ (λ r, r_seti ip (set_i_lock (set_sl 0 0 (i_lock (r_geti r ip))) (r_geti r ip)) r)); [|done].
  intros io. unfold zoom. cbn [view ilockL geti fs_rest]. by rewrite releasesleep_ok.
Qed.

(** The table entry after [ilock]. *)
Definition locked_entry D (i : inode) : inode :=
  let i' := set_i_lock (sl_taken (i_lock i)) i in
  if i_valid i =? 0 then load_dinode (dinode_at sb D (i_inum i)) i' else i'.

Lemma fwp_ilock {T} ip (k : unit → M (fstate F U) T) D held lg r Q (i := r_geti r ip) :
  it_ok r → fr_sb r = sb → iptr ip → 1 ≤ i_ref i → sl_free (i_lock i) →
  (i_valid i = 0 → i_dev i = dev ∧ 0 ≤ i_inum i < sb_ninodes sb ∧ di_type (dinode_at sb D (i_inum i)) ≠ 0 ∧
     held !! IBLOCK (i_inum i) sb = None ∧ Z.of_nat (size held) + Z.of_nat (size lg) ≤ 29) →
  fwp dev (k tt) (mkfabs D held lg (r_seti ip (locked_entry D i) r)) Q →
  fwp dev (bind (ilock me pid ip) k) (mkfabs D held lg r) Q.
Proof.
  intros Hit Hsb Hip Href Hfree Hval Hk. unfold ilock. apply awp_assoc, fwp_get. intros io _.
  unfold geti. cbn [fs_rest]. fold i.
  destruct (ip =? 0) eqn:E0; [unfold iptr in Hip; lia|]. destruct (i_ref i <? 1) eqn:E1; [lia|]. cbn [orb].
  apply awp_assoc, fwp_isleep; [done|]. fold i.
  set (i1 := set_i_lock (sl_taken (i_lock i)) i). set (r1 := r_seti ip i1 r).
  assert (Hg1 : r_geti r1 ip = i1) by (unfold r1; rewrite geti_seti, decide_True by (done || apply Hit); done).
  apply awp_assoc, fwp_get. intros io1 _. unfold geti, fsb. cbn [fs_rest fr_sb]. rewrite Hg1.
  change (fr_sb r1) with (fr_sb r). rewrite Hsb. cbn [i_valid i_dev i_inum i1 set_i_lock].
  unfold locked_entry in Hk. fold i1 in Hk. destruct (i_valid i =? 0) eqn:Ev; [|by apply awp_skip].
  destruct (Hval ltac:(lia)) as (Hd & Hin & Hty & Hh & Hsz). rewrite Hd. apply awp_assoc.
  apply fwp_bread; try done; [by apply (IBLOCK_home _ _ _ HL)|unfold NBUF, MAXOPBLOCKS; lia|].
  intros h Hwf. apply awp_assoc, fwp_get. intros io2 HR2. unfold geti. cbn [fs_rest]. rewrite Hg1.
  rewrite (fdata dev D _ lg r1 io2 (IBLOCK (i_inum i) sb) h (D (IBLOCK (i_inum i) sb)) HR2 (lookup_insert_eq _ _ _)).
  cbn [i_inum i1 set_i_lock]. fold (dinode_at sb D (i_inum i)).
  apply awp_assoc, fwp_upd_i. rewrite Hg1. unfold r1. rewrite seti_seti.
  apply awp_assoc. eapply fwp_brelse; [apply lookup_insert_eq|done|]. rewrite delete_insert_id by done.
  apply awp_assoc, fwp_get. intros io3 _. unfold geti. cbn [fs_rest].
  rewrite geti_seti, decide_True by (done || apply Hit). cbn [i_type load_dinode].
  destruct (di_type _ =? 0) eqn:Et; [lia|]. by apply awp_skip.
Qed.

Lemma fwp_iunlock {T} ip (k : unit → M (fstate F U) T) D held lg r Q (i := r_geti r ip) :
  it_ok r → iptr ip → 1 ≤ i_ref i → sl_held pid (i_lock i) →
  fwp dev (k tt) (mkfabs D held lg (r_seti ip (set_i_lock (set_sl 0 0 (i_lock i)) i) r)) Q →
  fwp dev (bind (iunlock me pid ip) k) (mkfabs D held lg r) Q.
Proof.
  intros Hit Hip Href (Hu & Hl & Hp) Hk. unfold iunlock.
  destruct (ip =? 0) eqn:E0; [unfold iptr in Hip; lia|]. apply awp_assoc.
  assert (Hid : r_seti ip i r = r) by (apply seti_same; [apply Hit|done]).
  apply awp_call. intros [io r'] [HR Hr]. cbn in *. subst r'.
  exists true, (mkfstate io r), (mkfabs D held lg r). split_and!; [|by split|].
  - unfold zoom. cbn [view ilockL geti fs_rest upd]. rewrite holdingsleep_ok by done.
    unfold geti. cbn [fs_rest fs_io]. fold i. rewrite Hl, Hp, Z.eqb_refl. cbn [Z.eqb negb andb].
    do 2 f_equal. rewrite <-Hid at 2. f_equal. by destruct i.
  - apply awp_assoc, fwp_get. intros io1 _. unfold geti. cbn [fs_rest]. fold i.
    destruct (i_ref i <? 1) eqn:E1; [lia|]. cbn [negb orb]. by apply fwp_irelsleep.
Qed.

(** ** Writing an inode back *)

Lemma fwp_iupdate {T} ip (k : unit → M (fstate F U) T) D held lg r Q (i := r_geti r ip) (b := IBLOCK (i_inum i) sb) :
  fr_sb r = sb → i_dev i = dev → 0 ≤ i_inum i < sb_ninodes sb → dinode_wf (dinode_of i) →
  held !! b = None → Z.of_nat (size held) + Z.of_nat (size lg) ≤ 29 →
  fwp dev (k tt) (mkfabs (<[b := put_dinode (D b) (dinode_off (i_inum i)) (dinode_of i)]> D) held ({[b]} ∪ lg) r) Q →
  fwp dev (bind (iupdate ip) k) (mkfabs D held lg r) Q.
Proof.
  intros Hsb Hd Hin Hwf Hh Hsz Hk. unfold iupdate. apply awp_assoc, fwp_get. intros io _.
  unfold geti, fsb. cbn [fs_rest]. rewrite Hsb. fold i. rewrite Hd. fold b. apply awp_assoc.
  apply fwp_bread; try done; [by apply (IBLOCK_home _ _ _ HL)|unfold NBUF, MAXOPBLOCKS; lia|].
  intros h Hwb. apply awp_assoc, fwp_get. intros io1 HR1. unfold geti. cbn [fs_rest]. fold i.
  rewrite (fdata dev D _ lg r io1 b h (D b) HR1 (lookup_insert_eq _ _ _)).
  apply awp_assoc. eapply fwp_set_data; [apply lookup_insert_eq| |].
  { apply wf_put_dinode; [done|apply dinode_off_bound|apply Hwf]. }
  rewrite insert_insert_eq. apply awp_assoc.
  eapply fwp_log_write; [apply lookup_insert_eq|unfold LOGBLOCKS, MAXOPBLOCKS; lia|].
  eapply fwp_brelse; [apply lookup_insert_eq|by rewrite fn_lookup_insert|]. by rewrite delete_insert_id.
Qed.

(** ** Freeing blocks *)

(** [Dj] is [D] with the bits of the blocks [X] cleared. *)
Definition freed D (X : list Z) Dj : Prop :=
  (∀ b, 0 ≤ b < sb_size sb → used sb Dj b = used sb D b && negb (bool_decide (b ∈ X))) ∧
  (∀ b, b < sb_bmapstart sb ∨ dstart ≤ b → Dj b = D b).

(** The blocks of the free map. *)
Definition nbmap : nat := Z.to_nat ((sb_size sb - 1) / BPB + 1).
Definition bmap_set : gset Z := list_to_set (zseq (sb_bmapstart sb) nbmap).

Lemma BBLOCK_bmap b : 0 ≤ b < sb_size sb → BBLOCK b sb ∈ bmap_set.
Proof.
  clear Hdev Hhome.
  intros Hb. unfold bmap_set, nbmap. rewrite elem_of_list_to_set, elem_of_zseq.
  rewrite (BBLOCK_eq _ _ _ HL) by done. rewrite BPB_eq in *. dlia.
Qed.

Lemma size_bmap (lg lg' : gset Z) : lg' ⊆ bmap_set ∪ lg → (size lg' ≤ nbmap + size lg)%nat.
Proof.
  clear Hdev Hhome HL.
  intros Hsub. apply subseteq_size in Hsub.
  rewrite size_union_alt in Hsub.
  assert (size (lg ∖ bmap_set) ≤ size lg)%nat by (apply subseteq_size; set_solver).
  assert (size bmap_set ≤ nbmap)%nat; [|lia].
  unfold bmap_set. rewrite size_list_to_set by apply NoDup_zseq. by rewrite length_zseq.
Qed.

Lemma freed_nil D : freed D [] D.
Proof.
  split; [|done]. intros b Hb. rewrite bool_decide_eq_false_2 by apply not_elem_of_nil.
  by rewrite andb_true_r.
Qed.

Lemma freed_cons D X Dj a :
  freed D X Dj → 0 ≤ a < sb_size sb → wf_block (Dj (BBLOCK a sb)) →
  freed D (a :: X) (<[BBLOCK a sb := bit_clear (Dj (BBLOCK a sb)) (a mod BPB)]> Dj).
Proof.
  intros [Hu Hd] Ha Hwf. split.
  - intros b Hb. rewrite (used_clear _ _ _ HL), Hu by done.
    rewrite (bool_decide_ext (b ∈ a :: X) (b = a ∨ b ∈ X)) by apply elem_of_cons.
    rewrite bool_decide_or. destruct (bool_decide (b = a)), (bool_decide (b ∈ X)), (used sb D b); done.
  - intros b Hb. rewrite fn_lookup_insert_ne; [by apply Hd|].
    pose proof (BBLOCK_range _ _ _ HL a Ha). lia.
Qed.

(** One conditional [bfree] of a truncation loop. *)
Lemma fwp_bfree_nz a (m : M (fstate F U) unit) D X Dj held lg lgj r (Q : ctl unit → fabs H U → Prop) :
  fr_sb r = sb → freed D X Dj → lgj ⊆ bmap_set ∪ lg →
  (∀ b, 0 ≤ b < sb_size sb → held !! BBLOCK b sb = None) →
  Z.of_nat (size held) + Z.of_nat (size lg) + Z.of_nat nbmap ≤ 29 →
  (a ≠ 0 → 0 ≤ a < sb_size sb ∧ used sb D a = true ∧ a ∉ X) →
  (∀ Dj' lgj', freed D (if a =? 0 then X else a :: X) Dj' → lgj' ⊆ bmap_set ∪ lg →
     fwp dev (bind (if a =? 0 then ret tt else m) (λ _, ret Next)) (mkfabs Dj' held lgj' r) Q) →
  fwp dev (bind (if negb (a =? 0) then bind (bfree dev a) (λ _, m) else ret tt) (λ _, ret Next)) (mkfabs Dj held lgj r) Q.
Proof.
  intros Hsb Hf Hlg Hh Hsz Ha Hk. destruct (a =? 0) eqn:E; cbn [negb].
  - by apply Hk.
  - destruct (Ha ltac:(lia)) as (Har & Hu & Hni). apply awp_assoc.
    pose proof (size_bmap _ _ Hlg) as Hsz'.
    apply fwp_wf. intros Hwf. specialize (Hwf _ (BBLOCK_home _ _ _ HL a Har)).
    apply (fwp_bfree dev Hdev Hhome sb dstart HL); try done.
    + destruct Hf as [Hf _]. by rewrite Hf, Hu, bool_decide_eq_false_2.
    + by apply Hh.
    + lia.
    + apply Hk.
      * by apply freed_cons.
      * intros x [->%elem_of_singleton|Hx]%elem_of_union; [|by apply Hlg].
        apply elem_of_union_l. by apply BBLOCK_bmap.
Qed.

Lemma freed_equiv D X Y Dj : (∀ b, b ∈ X ↔ b ∈ Y) → freed D X Dj → freed D Y Dj.
Proof.
  intros Heq [H1 H2]. split; [|done]. intros b Hb. rewrite H1 by done.
  do 2 f_equal. by apply bool_decide_ext.
Qed.

(** The non-zero addresses of a list. *)
Definition nz (l : list Z) : list Z := filter (λ a, a ≠ 0) l.

Lemma elem_of_nz l a : a ∈ nz l ↔ a ≠ 0 ∧ a ∈ l.
Proof. unfold nz. by rewrite list_elem_of_filter. Qed.

(** The addresses in a list can all be freed. *)
Definition freeable D (l : list Z) : Prop :=
  NoDup (nz l) ∧ ∀ a, a ∈ nz l → 0 ≤ a < sb_size sb ∧ used sb D a = true.

Lemma nz_step l j :
  0 ≤ j < len l →
  nz (take (Z.to_nat (j + 1)) l) = nz (take (Z.to_nat j) l) ++ (if znth 0 l j =? 0 then [] else [znth 0 l j]).
Proof.
  intros Hj. replace (Z.to_nat (j + 1)) with (S (Z.to_nat j)) by lia.
  rewrite (take_S_r _ _ (znth 0 l j)) by (by apply lookup_znth). unfold nz. rewrite filter_app. f_equal.
  destruct (Z.eqb_spec (znth 0 l j) 0) as [E|E].
  - rewrite filter_cons_False by (by intros ?). done.
  - by rewrite filter_cons_True.
Qed.

(** The next address to free is not among those freed before. *)
Lemma freeable_next D l j a :
  freeable D l → 0 ≤ j < len l → znth 0 l j = a → a ≠ 0 →
  0 ≤ a < sb_size sb ∧ used sb D a = true ∧ a ∉ nz (take (Z.to_nat j) l).
Proof.
  intros [Hnd Hok] Hj Ha Hnz.
  assert (Hin : a ∈ nz l) by (apply elem_of_nz; split; [done|]; rewrite <-Ha; by apply znth_In).
  destruct (Hok a Hin) as [H1 H2]. split_and!; [apply H1|apply H1|done|].
  assert (Hpre : nz l = nz (take (Z.to_nat (j + 1)) l) ++ nz (drop (Z.to_nat (j + 1)) l)).
  { unfold nz. by rewrite <-filter_app, take_drop. }
  rewrite Hpre, nz_step, Ha in Hnd by done. destruct (a =? 0) eqn:E; [lia|].
  apply NoDup_app in Hnd as (Hnd & _ & _). apply NoDup_app in Hnd as (_ & Hd & _).
  intros Hi. apply (Hd a Hi). by left.
Qed.

Lemma freed_nz_step D l j Dj :
  0 ≤ j < len l →
  freed D (if znth 0 l j =? 0 then nz (take (Z.to_nat j) l) else znth 0 l j :: nz (take (Z.to_nat j) l)) Dj →
  freed D (nz (take (Z.to_nat (j + 1)) l)) Dj.
Proof.
  intros Hj. apply freed_equiv. intros b. rewrite nz_step by done.
  destruct (znth 0 l j =? 0); rewrite elem_of_app, ?elem_of_cons, ?elem_of_nil; tauto.
Qed.

(** The first [j] addresses zeroed. *)
Definition zeroed (j : Z) (l : list Z) : list Z := replicate (Z.to_nat j) 0 ++ drop (Z.to_nat j) l.

Lemma len_zeroed j l : 0 ≤ j ≤ len l → len (zeroed j l) = len l.
Proof. intros Hj. unfold zeroed, len in *. rewrite length_app, length_replicate, length_drop. lia. Qed.

Lemma znth_zeroed j l k :
  0 ≤ j ≤ len l → znth 0 (zeroed j l) k = if (k <? j) then 0 else znth 0 l k.
Proof.
  intros Hj. unfold znth, zeroed, len in *. destruct (k <? 0) eqn:E0; [by case_match|].
  destruct (k <? j) eqn:E1.
  - rewrite lookup_app_l by (rewrite length_replicate; lia). rewrite lookup_replicate_2 by lia. done.
  - rewrite lookup_app_r by (rewrite length_replicate; lia). rewrite length_replicate, lookup_drop.
    do 2 f_equal. lia.
Qed.

Lemma zeroed_step j l :
  0 ≤ j < len l →
  zeroed (j + 1) l = if znth 0 l j =? 0 then zeroed j l else zset (zeroed j l) j 0.
Proof.
  intros Hj. apply (znth_ext 0).
  - destruct (znth 0 l j =? 0); rewrite ?len_zset, !len_zeroed by lia; done.
  - intros k Hk. rewrite len_zeroed in Hk by lia. rewrite znth_zeroed by lia. destruct (znth 0 l j =? 0) eqn:E.
    + rewrite znth_zeroed by lia. destruct (k <? j + 1) eqn:?, (k <? j) eqn:?; try done; try lia.
      replace k with j by lia. lia.
    + rewrite znth_zset by (rewrite len_zeroed; lia). rewrite znth_zeroed by lia.
      case_decide; destruct (k <? j + 1) eqn:?, (k <? j) eqn:?; done || lia.
Qed.

(** ** Truncation *)

(** The entries of an indirect block. *)
Definition ind_list (d : list Z) : list Z := ind_get d <$> zseq 0 256.

(** The addresses an inode gives back: direct, indirect entries, indirect block. *)
Definition file_addrs D (l : list Z) : list Z :=
  take 12 l ++ (if znth 0 l 12 =? 0 then [] else ind_list (D (znth 0 l 12)) ++ [znth 0 l 12]).

Lemma len_ind_list d : len (ind_list d) = 256.
Proof. unfold ind_list, len. by rewrite length_fmap, length_zseq. Qed.

Lemma znth_ind_list d j : 0 ≤ j < 256 → znth 0 (ind_list d) j = ind_get d j.
Proof.
  intros Hj. apply znth_lookup; [lia|]. unfold ind_list.
  rewrite list_lookup_fmap, lookup_zseq by lia. cbn. do 2 f_equal. lia.
Qed.

Lemma znth_take (l : list Z) n j : 0 ≤ j < n → znth 0 (take (Z.to_nat n) l) j = znth 0 l j.
Proof. intros Hj. unfold znth. destruct (j <? 0) eqn:?; [done|]. by rewrite lookup_take_lt by lia. Qed.

Section trunc.
  Context (ip : Z) (D : Z → list Z) (held : gmap Z (H * list Z)) (lg : gset Z) (r : frest U).
Let i := r_geti r ip.
Let L := file_addrs D (i_addrs i).
Let ind := znth 0 (i_addrs i) 12.
  Context (Hit : it_ok r) (Hip : iptr ip) (Hsb : fr_sb r = sb) (Hidev : i_dev i = dev).
  Context (Hlen : len (i_addrs i) = 13) (Hfree : freeable D L).
  Context (Hbm : ∀ b, 0 ≤ b < sb_size sb → held !! BBLOCK b sb = None).
  Context (Hroom : Z.of_nat (size held) + Z.of_nat (size lg) + Z.of_nat nbmap + 2 ≤ 29).

(** The inode with the given addresses. *)
Definition r_addrs (l : list Z) : frest U := r_seti ip (set_i_addrs l i) r.

Lemma geti_addrs l : r_geti (r_addrs l) ip = set_i_addrs l i.
Proof. unfold r_addrs. rewrite geti_seti, decide_True by (done || apply Hit). done. Qed.

(** The first [j] addresses have been freed. *)
Definition freed_upto (j : Z) Dj lgj : Prop :=
  freed D (nz (take (Z.to_nat j) L)) Dj ∧ lgj ⊆ bmap_set ∪ lg.

Lemma len_direct : len (take 12 (i_addrs i)) = 12.
Proof. unfold len in *. rewrite length_take. lia. Qed.

Lemma len_L : len L = if ind =? 0 then 12 else 269.
Proof.
  unfold L, file_addrs. fold ind. rewrite len_app, len_direct.
  destruct (ind =? 0); [unfold len; cbn; lia|]. rewrite len_app, len_ind_list. unfold len. cbn. lia.
Qed.

Lemma znth_L_direct j : 0 ≤ j < 12 → znth 0 L j = znth 0 (i_addrs i) j.
Proof.
  intros Hj. unfold L, file_addrs. rewrite znth_app_l; [by apply (znth_take _ 12)|].
  unfold len in *. rewrite length_take. lia.
Qed.

Lemma znth_L_ind j : ind ≠ 0 → 0 ≤ j < 256 → znth 0 L (12 + j) = ind_get (D ind) j.
Proof.
  intros Hi Hj. unfold L, file_addrs. fold ind. destruct (ind =? 0) eqn:E; [lia|].
  rewrite znth_app_r by (rewrite len_direct; lia). rewrite len_direct.
  rewrite znth_app_l by (rewrite len_ind_list; lia). replace (12 + j - 12) with j by lia. by apply znth_ind_list.
Qed.

Lemma znth_L_last : ind ≠ 0 → znth 0 L 268 = ind.
Proof.
  intros Hi. unfold L, file_addrs. fold ind. destruct (ind =? 0) eqn:E; [lia|].
  rewrite znth_app_r by (rewrite len_direct; lia). rewrite len_direct.
  rewrite znth_app_r by (rewrite len_ind_list; lia). by rewrite len_ind_list.
Qed.

(** The loop over the direct addresses. *)
Lemma fwp_trunc_direct {T} (k : M (fstate F U) T) Q :
  (∀ Dj lgj, freed_upto 12 Dj lgj → fwp dev k (mkfabs Dj held lgj (r_addrs (zeroed 12 (i_addrs i)))) Q) →
  fwp dev (bind (for_up (R := unit) (Z.to_nat NDIRECT) 0 (λ j,
    s <- get ;;
    (if negb (get_addr s ip j =? 0)
     then bfree (i_dev (geti s ip)) (get_addr s ip j) ;; upd_addr ip j 0
     else ret tt) ;;
    ret Next)) (λ _, k)) (mkfabs D held lg r) Q.
Proof.
  intros Hk.
  apply (awp_for _ (λ j a, ∃ Dj lgj, freed_upto j Dj lgj ∧
    a = mkfabs Dj held lgj (r_addrs (zeroed j (i_addrs i)))) (λ _ _, False)).
  - exists D, lg. split; [split; [apply freed_nil|set_solver]|]. f_equal.
    unfold r_addrs, zeroed. change (Z.to_nat 0) with O. rewrite drop_0. cbn [replicate app]. rewrite set_i_addrs_same.
    symmetry. apply seti_same; [apply Hit|done].
  - intros j a Hj (Dj & lgj & [Hf Hlg] & ->). change (0 + Z.of_nat (Z.to_nat NDIRECT)) with 12 in Hj.
    apply fwp_get. intros io _. unfold get_addr, geti. cbn [fs_rest]. rewrite geti_addrs. cbn [i_addrs i_dev set_i_addrs].
    rewrite znth_zeroed by lia. destruct (j <? j) eqn:?; [lia|]. rewrite Hidev.
    assert (HjL : 0 ≤ j < len L) by (rewrite len_L; case_match; lia).
    rewrite <-znth_L_direct by lia.
    eapply (fwp_bfree_nz _ _ D _ _ _ lg); try done; [lia| |].
    + intros Hnz. by apply (freeable_next D L j).
    + intros Dj' lgj' Hf' Hlg'. apply (freed_nz_step D L j) in Hf'; [|done].
      rewrite znth_L_direct in * by lia. rewrite zeroed_step by lia.
      destruct (znth 0 (i_addrs i) j =? 0).
      * apply awp_skip, awp_ret. exists Dj', lgj'. done.
      * apply fwp_upd_i. apply awp_ret. exists Dj', lgj'. split; [done|]. f_equal.
        rewrite geti_addrs. unfold r_addrs. by rewrite seti_seti.
  - intros a (Dj & lgj & Hf & ->). by apply Hk.
  - done.
Qed.

Context (Hind : ind ≠ 0 → is_data sb dstart ind ∧ held !! ind = None).

Lemma freed_data Dj j lgj : freed_upto j Dj lgj → ind ≠ 0 → Dj ind = D ind.
Proof. intros [[_ Hf] _] Hi. apply Hf. destruct (Hind Hi) as [[Hd _] _]. lia. Qed.

(** The loop over the entries of the indirect block, held in [bp]. *)
Lemma fwp_trunc_ind {T} bp r1 Dj lgj (k : M (fstate F U) T) Q :
  ind ≠ 0 → fr_sb r1 = sb → i_dev (r_geti r1 ip) = dev → freed_upto 12 Dj lgj →
  (∀ Dk lgk, freed_upto 268 Dk lgk → fwp dev k (mkfabs Dk (<[ind := (bp, D ind)]> held) lgk r1) Q) →
  fwp dev (bind (for_up (R := unit) (Z.to_nat NINDIRECT) 0 (λ j,
    s <- get ;;
    (if negb (ind_get (data bp s) j =? 0)
     then bfree (i_dev (geti s ip)) (ind_get (data bp s) j) else ret tt) ;;
    ret Next)) (λ _, k)) (mkfabs Dj (<[ind := (bp, D ind)]> held) lgj r1) Q.
Proof.
  intros Hnz Hsb1 Hd1 Hf0 Hk. destruct (Hind Hnz) as [Hidat Hih].
  assert (Hsz1 : size (<[ind := (bp, D ind)]> held) = S (size held)) by (by apply map_size_insert_None).
  apply (awp_for _ (λ j a, ∃ Dk lgk, freed_upto (12 + j) Dk lgk ∧
    a = mkfabs Dk (<[ind := (bp, D ind)]> held) lgk r1) (λ _ _, False)).
  - by exists Dj, lgj.
  - intros j a Hj (Dk & lgk & [Hf Hlg] & ->). rewrite Z2Nat.id, NINDIRECT_eq in Hj by done.
    apply fwp_get. intros io HR. unfold geti. cbn [fs_rest]. rewrite Hd1.
    rewrite (fdata dev Dk _ lgk r1 io ind bp (D ind) HR (lookup_insert_eq _ _ _)).
    assert (HjL : 0 ≤ 12 + j < len L) by (rewrite len_L; destruct (ind =? 0) eqn:?; lia).
    rewrite <-znth_L_ind by (done || lia).
    match goal with |- fwp _ (bind (if ?b then bfree ?x ?y else ret tt) ?kk) ?a ?Q' =>
      cut (fwp dev (bind (if b then bind (bfree x y) (λ _, ret tt) else ret tt) kk) a Q') end.
    { intros Hw s Hs. specialize (Hw s Hs). unfold returns in *. destruct (negb _); [|done].
      rewrite bind_assoc in Hw. unfold bind in *. by destruct (bfree _ _ s) as [[]| | | |]. }
    eapply (fwp_bfree_nz _ _ D _ _ _ lg); try done.
    + intros b Hb. rewrite lookup_insert_ne; [by apply Hbm|].
      pose proof (BBLOCK_range _ _ _ HL b Hb). unfold is_data in Hidat. lia.
    + lia.
    + intros Hz. by apply (freeable_next D L (12 + j)).
    + intros Dk' lgk' Hf' Hlg'. apply (freed_nz_step D L (12 + j)) in Hf'; [|done].
      destruct (znth 0 L (12 + j) =? 0); apply awp_skip, awp_ret; exists Dk', lgk';
        (split; [split; [by rewrite Z.add_assoc|done]|done]).
  - intros a (Dk & lgk & Hf & ->). by apply Hk.
  - done.
Qed.

Context (Hinum : 0 ≤ i_inum i < sb_ninodes sb) (Hih : held !! IBLOCK (i_inum i) sb = None).
Context (Hwf : dinode_wf (dinode_of i)).
Let IB := IBLOCK (i_inum i) sb.

(** The inode after truncation. *)
Definition truncated : inode := set_i_size 0 (set_i_addrs (replicate 13 0) i).

Lemma fwp_itrunc {T} (k : unit → M (fstate F U) T) Q :
  (∀ Dj lg', freed D (nz L) Dj → lg' ⊆ {[IB]} ∪ (bmap_set ∪ lg) →
     fwp dev (k tt) (mkfabs (<[IB := put_dinode (D IB) (dinode_off (i_inum i)) (dinode_of truncated)]> Dj)
                       held lg' (r_seti ip truncated r)) Q) →
  fwp dev (bind (itrunc ip) k) (mkfabs D held lg r) Q.
Proof.
  intros Hk. unfold itrunc. apply awp_assoc.
  apply fwp_trunc_direct. intros Dj lgj Hf.
  apply awp_assoc, fwp_get. intros io _. unfold get_addr, geti. cbn [fs_rest]. rewrite geti_addrs.
  cbn [i_addrs i_dev set_i_addrs]. rewrite znth_zeroed by lia. change (NDIRECT <? 12) with false. cbv iota.
  change NDIRECT with 12. fold ind. rewrite Hidev.
  assert (Hend : ∀ Dk lgk rk, freed D (nz L) Dk → lgk ⊆ bmap_set ∪ lg →
    rk = r_addrs (replicate 13 0) →
    fwp dev (bind (upd_i ip (set_i_size 0)) (λ _, bind (iupdate ip) k)) (mkfabs Dk held lgk rk) Q).
  { intros Dk lgk rk Hfk Hlgk ->. apply fwp_upd_i. rewrite geti_addrs. unfold r_addrs. rewrite seti_seti.
    fold truncated. pose proof (size_bmap _ _ Hlgk).
    assert (Hg : r_geti (r_seti ip truncated r) ip = truncated)
      by (rewrite geti_seti, decide_True by (done || apply Hit); done).
    apply (fwp_iupdate ip k); rewrite ?Hg; try done; [|lia|].
    - destruct Hwf. constructor; try done. apply (Forall_replicate _ 13 0). lia.
    - cbn [i_inum truncated set_i_size set_i_addrs]. fold IB.
      assert (Dk IB = D IB) as ->.
      { apply Hfk. left. unfold IB. by apply (IBLOCK_range _ _ _ HL). }
      apply Hk; [done|]. set_solver. }
  apply awp_assoc. destruct (ind =? 0) eqn:E; cbn [negb].
  - apply awp_skip. cbv beta. apply Hend; [|apply Hf|].
    + destruct Hf as [Hf _]. rewrite take_ge in Hf; [done|]. pose proof len_L as HLL. rewrite E in HLL. unfold len in HLL. lia.
    + f_equal. apply (znth_ext 0); [by rewrite len_zeroed by lia|]. intros j Hj. rewrite len_zeroed in Hj by lia.
      rewrite znth_zeroed by lia. replace (znth 0 (replicate 13 0) j) with 0.
      * destruct (j <? 12) eqn:?; [done|]. replace j with 12 by lia. fold ind. lia.
      * symmetry. apply znth_lookup; [lia|]. apply lookup_replicate_2. lia.
  - assert (Hnz : ind ≠ 0) by lia. destruct (Hind Hnz) as [Hidat Hihd].
    pose proof (size_bmap _ _ (proj2 Hf)) as Hszj.
    apply awp_assoc. apply fwp_bread; try done; [by apply (data_home _ _ _ HL)|unfold NBUF, MAXOPBLOCKS; lia|].
    intros bp Hwb. rewrite (freed_data Dj 12 lgj) by done. apply awp_assoc.
    apply fwp_trunc_ind; try done.
    { rewrite geti_addrs. done. }
    intros Dk lgk Hfk. apply awp_assoc.
    eapply fwp_brelse; [apply lookup_insert_eq|by rewrite (freed_data Dk 268 lgk)|].
    rewrite delete_insert_id by done. apply awp_assoc, fwp_get. intros io2 _. unfold get_addr, geti. cbn [fs_rest].
    rewrite geti_addrs. cbn [i_addrs i_dev set_i_addrs]. rewrite znth_zeroed by lia. change (12 <? 12) with false. cbv iota. fold ind. rewrite Hidev. apply awp_assoc.
    pose proof len_L as HLL. rewrite E in HLL.
    destruct (freeable_next D L 268 ind Hfree ltac:(lia) (znth_L_last Hnz) Hnz) as (Hir & Hiu & Hni).
    pose proof (size_bmap _ _ (proj2 Hfk)) as Hszk.
    apply fwp_wf. intros Hwfk.
    apply (fwp_bfree dev Hdev Hhome sb dstart HL); try done.
    { destruct Hfk as [[Hu _] _]. rewrite (Hu ind Hir), bool_decide_eq_false_2 by done. by rewrite Hiu. }
    { by apply Hbm. }
    { lia. }
    apply fwp_upd_i. rewrite geti_addrs. unfold r_addrs at 1. rewrite seti_seti. apply awp_assoc.
    assert (Hf' : freed D (nz L) (<[BBLOCK ind sb := bit_clear (Dk (BBLOCK ind sb)) (ind mod BPB)]> Dk)).
    { destruct Hfk as [Hfk _]. pose proof (freed_nz_step D L 268 (<[BBLOCK ind sb := bit_clear (Dk (BBLOCK ind sb)) (ind mod BPB)]> Dk) ltac:(lia)) as Hstep.
      rewrite znth_L_last, E in Hstep by done. rewrite (take_ge L (Z.to_nat (268 + 1))) in Hstep by (unfold len in HLL; lia).
      apply Hstep, freed_cons; try done. apply Hwfk. by apply (BBLOCK_home _ _ _ HL). }
    apply Hend; [done| |].
    + intros x [->%elem_of_singleton|Hx]%elem_of_union; [|by apply Hfk].
      apply elem_of_union_l. by apply BBLOCK_bmap.
    + transitivity (r_addrs (zset (zeroed 12 (i_addrs i)) 12 0)); [done|]. f_equal.
      apply (znth_ext 0); [by rewrite len_zset, len_zeroed by lia|].
      intros j Hj. rewrite len_zset, len_zeroed in Hj by lia. rewrite znth_zset by (rewrite len_zeroed; lia).
      replace (znth 0 (replicate 13 0) j) with 0.
      * rewrite znth_zeroed by lia. case_decide; destruct (j <? 12) eqn:?; done || lia.
      * symmetry. apply znth_lookup; [lia|]. apply lookup_replicate_2. lia.
Qed.
End trunc.

(** ** Dropping a reference *)

(** Freeing blocks leaves the inodes alone. *)
Lemma freed_inodes D X Dj j : freed D X Dj → 0 ≤ j < sb_ninodes sb → Dj (IBLOCK j sb) = D (IBLOCK j sb).
Proof.
  clear Hdev Hhome. intros [_ Hd] Hj. apply Hd. left. by apply (IBLOCK_range _ _ _ HL). Qed.

Lemma fwp_iput_drop {T} ip (k : unit → M (fstate F U) T) D held lg r Q (i := r_geti r ip) :
  it_ok r → (i_ref i =? 1) && negb (i_valid i =? 0) && (i_nlink i =? 0) = false →
  fwp dev (k tt) (mkfabs D held lg (r_seti ip (set_i_ref (i_ref i - 1) i) r)) Q →
  fwp dev (bind (iput me pid ip) k) (mkfabs D held lg r) Q.
Proof.
  intros Hit Hc Hk. unfold iput. apply awp_assoc, fwp_it_acquire; [apply Hit|].
  apply awp_assoc, fwp_get. intros io _. unfold geti. cbn [fs_rest].
  change (r_geti (it_busy r) ip) with i. rewrite Hc. apply awp_assoc, awp_skip.
  apply awp_assoc, fwp_upd_i. apply (fwp_it_release _ _ _ _ (r_seti ip _ r)); [apply Hit|]. done.
Qed.

(** The entry when the last reference to an unlinked inode is dropped. *)
Definition reclaimed (i : inode) : inode :=
  mkinode (i_dev i) (i_inum i) 0 (set_sl 0 0 (i_lock i)) 0 0 (i_major i) (i_minor i) (i_nlink i) 0 (replicate 13 0).

Lemma fwp_iput_free {T} ip (k : unit → M (fstate F U) T) D held lg r Q (i := r_geti r ip)
    (IB := IBLOCK (i_inum i) sb) :
  it_ok r → iptr ip → fr_sb r = sb → i_ref i = 1 → i_valid i ≠ 0 → i_nlink i = 0 →
  sl_free (i_lock i) → i_dev i = dev → 0 ≤ i_inum i < sb_ninodes sb → dinode_wf (dinode_of i) →
  freeable D (file_addrs D (i_addrs i)) →
  (znth 0 (i_addrs i) 12 ≠ 0 → is_data sb dstart (znth 0 (i_addrs i) 12) ∧ held !! znth 0 (i_addrs i) 12 = None) →
  (∀ b, 0 ≤ b < sb_size sb → held !! BBLOCK b sb = None) → held !! IB = None →
  Z.of_nat (size held) + Z.of_nat (size lg) + Z.of_nat nbmap + 2 ≤ 29 →
  (∀ D' Dj lg', freed D (nz (file_addrs D (i_addrs i))) Dj →
     (∀ b, b ≠ IB → D' b = Dj b) →
     (∀ j, 0 ≤ j < sb_ninodes sb → dinode_at sb D' j =
        if decide (j = i_inum i) then dinode_of (reclaimed i) else dinode_at sb D j) →
     lg' ⊆ {[IB]} ∪ (bmap_set ∪ lg) →
     fwp dev (k tt) (mkfabs D' held lg' (r_seti ip (reclaimed i) r)) Q) →
  fwp dev (bind (iput me pid ip) k) (mkfabs D held lg r) Q.
Proof.
  intros Hit Hip Hsb Href Hval Hnl Hslf Hdv Hinum Hwf Hfree Hind Hbm Hih Hroom Hk.
  pose proof (it_len _ Hit) as Hlen. apply fwp_wf. intros Hwf0.
  unfold iput. apply awp_assoc, fwp_it_acquire; [apply Hit|].
  apply awp_assoc, fwp_get. intros io _. unfold geti. cbn [fs_rest]. change (r_geti (it_busy r) ip) with i.
  rewrite Href, Hnl. destruct (i_valid i =? 0) eqn:Ev; [lia|]. cbn [Z.eqb negb andb Pos.eqb].
  do 2 apply awp_assoc. apply fwp_isleep; [done|]. change (r_geti (it_busy r) ip) with i.
  set (i1 := set_i_lock (sl_taken (i_lock i)) i).
  apply awp_assoc, (fwp_it_release _ _ _ _ (r_seti ip i1 r)); [apply Hit|].
  assert (Hg : ∀ x, r_geti (r_seti ip x r) ip = x) by (intros; by rewrite geti_seti, decide_True).
  assert (Hit1 : it_ok (r_seti ip i1 r)).
  { apply it_ok_hit; try done; cbn; fold i; lia. }
  apply awp_assoc.
  assert (Hgf : file_addrs D (i_addrs (r_geti (r_seti ip i1 r) ip)) = file_addrs D (i_addrs i)) by (by rewrite Hg).
  apply fwp_itrunc; rewrite ?Hgf; rewrite ?Hg; try done.
  { destruct Hwf as [_ _ _ _ _ Hl _]. cbn in *. unfold len. by rewrite Hl. }
  intros Dj lg' Hfr Hlg. unfold truncated. rewrite Hg. rewrite seti_seti.
  cbn [i_inum i1 set_i_lock]. fold IB. set (i2 := set_i_size 0 _).
  apply awp_assoc, fwp_upd_i. rewrite Hg, seti_seti. set (i3 := set_i_type 0 i2).
  set (D1 := <[IB := _]> Dj). pose proof (size_bmap lg (bmap_set ∪ lg)) as Hsz1.
  assert (Hsz : (size lg' ≤ 1 + (nbmap + size lg))%nat).
  { etrans; [by apply subseteq_size|]. etrans; [apply size_add|]. specialize (Hsz1 ltac:(done)). lia. }
  assert (Hi3 : dinode_wf (dinode_of i3)).
  { destruct Hwf. constructor; try done. apply (Forall_replicate _ 13 0). lia. }
  apply fwp_wf. intros Hwfd. apply awp_assoc.
  apply (fwp_iupdate ip _ D1 held lg' (r_seti ip i3 r)); rewrite ?Hg; try done; [lia|].
  cbn [i_inum i3 set_i_type i2 set_i_size set_i_addrs i1 set_i_lock]. fold IB.
  apply awp_assoc, fwp_upd_i. rewrite Hg, seti_seti.
  apply awp_assoc, fwp_irelsleep; rewrite Hg; [apply Hslf|]. rewrite seti_seti.
  apply fwp_it_acquire; [apply Hit|]. apply awp_assoc, fwp_upd_i.
  set (i4 := set_i_lock _ (set_i_valid 0 i3)).
  change (r_geti (it_busy (r_seti ip i4 r)) ip) with (r_geti (r_seti ip i4 r) ip). rewrite Hg.
  replace (r_seti ip _ (it_busy _)) with (it_busy (r_seti ip (reclaimed i) r)).
  2:{ change (it_busy (r_seti ip (reclaimed i) r) = it_busy (r_seti ip (set_i_ref (i_ref i4 - 1) i4) (r_seti ip i4 r))).
      rewrite seti_seti. do 2 f_equal. change (reclaimed i = set_i_ref (i_ref i - 1) i4). by rewrite Href. }
  apply fwp_it_release; [apply Hit|]. apply (Hk _ Dj); [done| | |set_solver].
  - intros b Hb. unfold D1. by rewrite !fn_lookup_insert_ne by done.
  - intros j Hj. unfold IB. rewrite (dinode_at_update _ _ _ HL D1 (i_inum i)); [|done..|by apply Hwfd, (IBLOCK_home _ _ _ HL)|done].
    case_decide; [done|]. unfold D1, IB. rewrite <-(freed_inodes _ _ _ _ Hfr Hinum).
    rewrite (dinode_at_update _ _ _ HL Dj (i_inum i)), decide_False; try done.
    + unfold dinode_at. by rewrite (freed_inodes _ _ _ _ Hfr Hj).
    + rewrite (freed_inodes _ _ _ _ Hfr Hinum). by apply Hwf0, (IBLOCK_home _ _ _ HL).
    + destruct Hwf. constructor; try done. apply (Forall_replicate _ 13 0). lia.
Qed.
(** ** A new inode *)

Lemma fwp_ialloc {T} type (k : Z → M (fstate F U) T) D held lg r Q :
  it_ok r → fr_sb r = sb → 0 < type < 32768 →
  (∃ ip, iptr ip ∧ i_ref (r_geti r ip) = 0) →
  (∀ i, 0 ≤ i < sb_ninodes sb → held !! IBLOCK i sb = None) →
  Z.of_nat (size held) + Z.of_nat (size lg) ≤ 29 →
  ((∀ j, 1 ≤ j < sb_ninodes sb → di_type (dinode_at sb D j) ≠ 0) → fwp dev (k 0) (mkfabs D held lg r) Q) →
  (∀ i b, 1 ≤ i < sb_ninodes sb → di_type (dinode_at sb D i) = 0 →
     (∀ j, 1 ≤ j < i → di_type (dinode_at sb D j) ≠ 0) → b = IBLOCK i sb →
     fwp dev (iget me dev i) (mkfabs (<[b := ialloc_block (D b) i type]> D) held ({[b]} ∪ lg) r)
       (λ ip a, fwp dev (k ip) a Q)) →
  fwp dev (bind (ialloc me dev type) k) (mkfabs D held lg r) Q.
Proof.
  intros Hit Hsb Ht Hfr Hh Hsz Hno Hyes. unfold ialloc. apply awp_assoc, fwp_get. intros io _.
  unfold fsb. cbn [fs_rest]. rewrite Hsb. apply awp_assoc.
  apply (awp_for _ (λ i a, a = mkfabs D held lg r ∧ ∀ j, 1 ≤ j < i → di_type (dinode_at sb D j) ≠ 0)
                   (λ ip a, fwp dev (k ip) a Q)).
  - split; [done|]. intros j Hj. lia.
  - intros i a Hi [-> Hall]. apply fwp_get. intros io1 _. unfold fsb. cbn [fs_rest]. rewrite Hsb.
    apply fwp_bread; try done; [by apply (IBLOCK_home _ _ _ HL); lia|apply Hh; lia|unfold NBUF, MAXOPBLOCKS; lia|].
    intros h Hwf. apply fwp_get. intros io2 HR2.
    rewrite (fdata dev D _ lg r io2 (IBLOCK i sb) h (D (IBLOCK i sb)) HR2 (lookup_insert_eq _ _ _)).
    fold (dinode_at sb D i). destruct (di_type (dinode_at sb D i) =? 0) eqn:E.
    + eapply fwp_set_data; [apply lookup_insert_eq|by apply wf_ialloc_block|]. fold (ialloc_block (D (IBLOCK i sb)) i type).
      rewrite insert_insert_eq. eapply fwp_log_write; [apply lookup_insert_eq|unfold LOGBLOCKS, MAXOPBLOCKS; lia|].
      eapply fwp_brelse; [apply lookup_insert_eq|by rewrite fn_lookup_insert|].
      rewrite delete_insert_id by (apply Hh; lia).
      apply awp_bind. eapply awp_conseq; [apply Hyes; [lia|lia|done|done]|]. intros ip a Ha. by apply awp_ret.
    + eapply fwp_brelse; [apply lookup_insert_eq|done|]. rewrite delete_insert_id by (apply Hh; lia).
      apply awp_ret. split; [done|]. intros j Hj. destruct (decide (j = i)) as [->|]; [lia|]. apply Hall. lia.
  - intros a [-> Hall]. apply awp_skip, Hno. intros j Hj. apply Hall. lia.
  - intros ip a Ha. by apply awp_skip.
Qed.
End inode.

(** * Theorems *)

(** The rest of the state, with one entry of the table changed. *)
Definition only_entry {U} (r r' : frest U) (ip : Z) : Prop :=
  fr_sb r' = fr_sb r ∧ fr_ku r' = fr_ku r ∧ ∀ jp, iptr jp → jp ≠ ip → r_geti r' jp = r_geti r jp.

Lemma only_entry_seti {U} (r : frest U) ip i : it_ok r → iptr ip → only_entry r (r_seti ip i r) ip.
Proof.
  intros Hit Hip. split_and!; [done..|]. intros jp Hjp Hne.
  by rewrite geti_seti, decide_False by (done || apply Hit).
Qed.

Section theorems.
  Context {F H U : Type} `{TX : Txn F H} (dev : Z) `{TXS : !TxnSpec F H dev}.
  Context (sb : superblock) (dstart me pid : Z).
  Implicit Types (D : Z → list Z) (held : gmap Z (H * list Z)) (lg : gset Z).

(** [iget] gives every inode at most one table entry.  It returns the entry
    in use for the inode, with one more reference, or else a free entry with
    one reference that is not yet valid; every other entry is left alone and
    the table keeps its invariant.  With no entry for the inode and no free
    entry it panics. *)
Theorem iget_spec (s : fstate F U) inum :
  it_ok (fs_rest s) →
  (∃ ip s', iget me dev inum s = Ok ip s' ∧ fs_io s' = fs_io s ∧ iptr ip ∧ it_ok (fs_rest s') ∧
     only_entry (fs_rest s) (fs_rest s') ip ∧ imatch dev inum (geti s' ip) = true ∧
     ((imatch dev inum (geti s ip) = true ∧ geti s' ip = set_i_ref (i_ref (geti s ip) + 1) (geti s ip)) ∨
      (i_ref (geti s ip) = 0 ∧ i_ref (geti s' ip) = 1 ∧ i_valid (geti s' ip) = 0 ∧
       ∀ jp, iptr jp → imatch dev inum (geti s jp) = false))) ∨
  (iget me dev inum s = Panic "iget: no inodes" ∧
   ∀ ip, iptr ip → i_ref (geti s ip) ≠ 0 ∧ imatch dev inum (geti s ip) = false).
Proof.
  intros Hit. destruct s as [io r]. unfold geti. cbn [fs_rest fs_io] in *.
  destruct (iget_run dev me io r inum Hit) as [(ip & Hip & Hm & E)|[(ip & Hip & H0 & Hno & E)|Hp]]; [left|left|by right].
  - eexists ip, _. split_and!; [exact E|done|done| |by apply only_entry_seti| |left]; cbn [fs_rest].
    + pose proof (it_ref _ Hit ip Hip). apply it_ok_hit; try done; unfold imatch in Hm; cbn; lia.
    + rewrite geti_seti, decide_True by (done || apply Hit). unfold imatch in *. cbn. lia.
    + by rewrite geti_seti, decide_True by (done || apply Hit).
  - eexists ip, _. split_and!; [exact E|done|done| |by apply only_entry_seti| |right]; cbn [fs_rest].
    + by apply it_ok_miss.
    + rewrite geti_seti, decide_True by (done || apply Hit). unfold imatch. cbn. by rewrite !Z.eqb_refl.
    + by rewrite geti_seti, decide_True by (done || apply Hit).
Qed.

(** what [iupdate] writes, [ilock] reads back.  [iupdate] changes the
    inode's own bytes and no other inode; whenever the inode is later locked
    through an entry that has to be read from the disk, its fields are those
    that were written. *)
Theorem iupdate_ilock (s : fstate F U) D held lg ip (i := geti s ip) :
  0 ≤ dev < 4294967296 → (∀ b, t_home b → 0 ≤ b < 4294967296) → layout t_home sb dstart →
  t_rep D held lg (fs_io s) → fr_sb (fs_rest s) = sb → i_dev i = dev → 0 ≤ i_inum i < sb_ninodes sb →
  dinode_wf (dinode_of i) → i_type i ≠ 0 → held !! IBLOCK (i_inum i) sb = None →
  Z.of_nat (size held) + Z.of_nat (size lg) ≤ 29 →
  ∃ s' D' lg', iupdate ip s = Ok tt s' ∧ t_rep D' held lg' (fs_io s') ∧ fs_rest s' = fs_rest s ∧
    (∀ j, 0 ≤ j < sb_ninodes sb → j ≠ i_inum i → dinode_at sb D' j = dinode_at sb D j) ∧
    (∀ b, b ≠ IBLOCK (i_inum i) sb → D' b = D b) ∧
    ∀ (t : fstate F U) held2 lg2 jp (j := geti t jp),
      t_rep D' held2 lg2 (fs_io t) → fr_sb (fs_rest t) = sb → it_ok (fs_rest t) → iptr jp → 1 ≤ i_ref j →
      i_dev j = dev → i_inum j = i_inum i → i_valid j = 0 → sl_free (i_lock j) →
      held2 !! IBLOCK (i_inum i) sb = None → Z.of_nat (size held2) + Z.of_nat (size lg2) ≤ 29 →
      ∃ t', ilock me pid jp t = Ok tt t' ∧ t_rep D' held2 lg2 (fs_io t') ∧
        dinode_of (geti t' jp) = dinode_of i ∧ i_valid (geti t' jp) = 1 ∧ sl_held pid (i_lock (geti t' jp)) ∧
        only_entry (fs_rest t) (fs_rest t') jp.
Proof.
  intros Hdev Hhome HL HR Hsb Hd Hin Hwf Hty Hh Hsz. destruct s as [io r]. unfold geti in *. cbn [fs_rest fs_io] in *.
  set (b := IBLOCK (i_inum i) sb). set (D' := <[b := put_dinode (D b) (dinode_off (i_inum i)) (dinode_of i)]> D).
  assert (Hw : fwp dev (iupdate ip) (mkfabs D held lg r) (λ _ a, a = mkfabs D' held ({[b]} ∪ lg) r)).
  { apply awp_tail. apply (fwp_iupdate dev Hdev Hhome sb dstart HL); try done. by apply awp_ret. }
  destruct (awp_run _ _ _ _ (mkfstate io r) Hw) as ([] & [io' r'] & a & E & [HR' Hr'] & ->); [by split|].
  cbn [fa_D fa_held fa_lg fa_rest fs_io fs_rest] in *. subst r'.
  assert (Hwb : wf_block (D b)) by (eapply t_rep_wf; [exact HR|by apply (IBLOCK_home _ _ _ HL)]).
  assert (Hat : ∀ j, 0 ≤ j < sb_ninodes sb →
    dinode_at sb D' j = if decide (j = i_inum i) then dinode_of i else dinode_at sb D j).
  { intros j Hj. by apply (dinode_at_update _ _ _ HL). }
  exists (mkfstate io' r), D', ({[b]} ∪ lg). split_and!; try done.
  { intros j Hj Hne. by rewrite Hat, decide_False. }
  { intros c Hc. unfold D'. by rewrite fn_lookup_insert_ne. }
  intros t held2 lg2 jp HR2 Hsb2 Hit2 Hjp Href2 Hd2 Hin2 Hv2 Hfree2 Hh2 Hsz2. destruct t as [io2 r2]. cbn [fs_io fs_rest] in *.
  set (j := r_geti r2 jp) in *.
  assert (Hl : fwp dev (ilock me pid jp) (mkfabs D' held2 lg2 r2) (λ _ a, a = mkfabs D' held2 lg2
      (r_seti jp (locked_entry sb pid D' j) r2))).
  { apply awp_tail. apply (fwp_ilock dev Hdev Hhome sb dstart HL); try done; [|by apply awp_ret].
    intros _. fold j. rewrite Hin2, Hat, decide_True by done. split_and!; try done; lia. }
  destruct (awp_run _ _ _ _ (mkfstate io2 r2) Hl) as ([] & [io3 r3] & a & E3 & [HR3 Hr3] & ->); [by split|].
  cbn [fa_D fa_held fa_lg fa_rest fs_io fs_rest] in *. subst r3.
  assert (Hle : locked_entry sb pid D' j = load_dinode (dinode_of i) (set_i_lock (sl_taken pid (i_lock j)) j)).
  { unfold locked_entry. by rewrite Hv2, Hin2, Hat, decide_True. }
  rewrite Hle in E3. eexists. split; [exact E3|]. cbn [fs_io fs_rest].
  rewrite geti_seti, decide_True by (done || apply Hit2).
  split_and!; try done; [split_and!; try done; apply Hfree2|by apply only_entry_seti].
Qed.

(** [ialloc] takes the first inode that is free on the disk, gives it the
    type and zeros its other fields, and returns a table entry for it; no other
    inode and no other block changes.  With no free inode it returns 0 and
    changes nothing. *)
Theorem ialloc_spec (s : fstate F U) D held lg type :
  0 ≤ dev < 4294967296 → (∀ b, t_home b → 0 ≤ b < 4294967296) → layout t_home sb dstart →
  t_rep D held lg (fs_io s) → it_ok (fs_rest s) → fr_sb (fs_rest s) = sb → 0 < type < 32768 →
  (∃ ip, iptr ip ∧ i_ref (geti s ip) = 0) →
  (∀ i, 0 ≤ i < sb_ninodes sb → held !! IBLOCK i sb = None) →
  Z.of_nat (size held) + Z.of_nat (size lg) ≤ 29 →
  ∃ ip s' D' lg', ialloc me dev type s = Ok ip s' ∧ t_rep D' held lg' (fs_io s') ∧ it_ok (fs_rest s') ∧
    ((ip = 0 ∧ D' = D ∧ lg' = lg ∧ fs_rest s' = fs_rest s ∧
      ∀ j, 1 ≤ j < sb_ninodes sb → di_type (dinode_at sb D j) ≠ 0) ∨
     (∃ i, 1 ≤ i < sb_ninodes sb ∧ iptr ip ∧ imatch dev i (geti s' ip) = true ∧ only_entry (fs_rest s) (fs_rest s') ip ∧
      di_type (dinode_at sb D i) = 0 ∧ (∀ j, 1 ≤ j < i → di_type (dinode_at sb D j) ≠ 0) ∧
      (∀ j, 0 ≤ j < sb_ninodes sb → dinode_at sb D' j = if decide (j = i) then fresh_dinode type else dinode_at sb D j) ∧
      (∀ b, b ≠ IBLOCK i sb → D' b = D b))).
Proof.
  intros Hdev Hhome HL HR Hit Hsb Ht Hfree Hh Hsz. destruct s as [io r]. unfold geti in *. cbn [fs_rest fs_io] in *.
  assert (Hw : fwp dev (ialloc me dev type) (mkfabs D held lg r) (λ ip a, it_ok (fa_rest a) ∧ fa_held a = held ∧
    ((ip = 0 ∧ a = mkfabs D held lg r ∧ ∀ j, 1 ≤ j < sb_ninodes sb → di_type (dinode_at sb D j) ≠ 0) ∨
     (∃ i, 1 ≤ i < sb_ninodes sb ∧ iptr ip ∧ imatch dev i (r_geti (fa_rest a) ip) = true ∧ only_entry r (fa_rest a) ip ∧
      di_type (dinode_at sb D i) = 0 ∧ (∀ j, 1 ≤ j < i → di_type (dinode_at sb D j) ≠ 0) ∧
      fa_D a = <[IBLOCK i sb := ialloc_block (D (IBLOCK i sb)) i type]> D)))).
  { apply awp_tail. apply (fwp_ialloc dev Hdev Hhome sb dstart HL me); try done.
    - intros Hall. apply awp_ret. split_and!; [done..|by left].
    - intros i b Hi Hz Hmin ->. apply awp_tail, fwp_iget; [done|by left| |].
      + intros ip Hip Hm. do 2 apply awp_ret. cbn [fa_rest]. pose proof (it_ref _ Hit ip Hip). split_and!; [|done|right].
        * apply it_ok_hit; try done; unfold imatch in Hm; cbn; lia.
        * exists i. rewrite geti_seti, decide_True by (done || apply Hit). unfold imatch in *.
          split_and!; try done; [lia..|cbn; lia|by apply only_entry_seti].
      + intros ip Hip H0 Hno. do 2 apply awp_ret. cbn [fa_rest]. split_and!; [by apply it_ok_miss|done|right].
        exists i. rewrite geti_seti, decide_True by (done || apply Hit). unfold imatch in *.
        split_and!; try done; [lia..|cbn; lia|by apply only_entry_seti]. }
  destruct (awp_run _ _ _ _ (mkfstate io r) Hw) as (ip & [io' r'] & [D' held' lg' r1] & E & [HR' Hr'] & Hit' & Hh' & HQ); [by split|].
  cbn [fa_D fa_held fa_lg fa_rest fs_io fs_rest] in *. subst r1 held'. exists ip, (mkfstate io' r'), D', lg'.
  split_and!; [done..|]. destruct HQ as [(-> & Ha & Hall)|(i & Hi & Hip & Hm & Ho & Hz & Hmin & ->)].
  - left. by simplify_eq.
  - right. exists i. split_and!; try done; [lia..| |intros b Hb; by rewrite fn_lookup_insert_ne].
    intros j Hj. assert (Hwb : wf_block (D (IBLOCK i sb))) by (eapply t_rep_wf; [exact HR|apply (IBLOCK_home _ _ _ HL); lia]).
    apply (dinode_at_block _ _ _ HL); [lia|done|apply get_ialloc_block; [done|lia]|].
    intros o Ho1 Ho2. by apply get_ialloc_block_ne.
Qed.

(** C32: [iput] of the last reference to an inode without links gives the inode
    back: its direct blocks, its indirect block and the blocks listed there
    become free and no other block changes its state in the free map; the
    inode is free on the disk and its table entry is free; the contents of the
    data blocks and all other inodes stay as they were. *)
Theorem iput_frees_unlinked (s : fstate F U) D held lg ip (i := geti s ip) (L := file_addrs D (i_addrs i)) :
  0 ≤ dev < 4294967296 → (∀ b, t_home b → 0 ≤ b < 4294967296) → layout t_home sb dstart →
  t_rep D held lg (fs_io s) → it_ok (fs_rest s) → fr_sb (fs_rest s) = sb → iptr ip →
  i_ref i = 1 → i_valid i ≠ 0 → i_nlink i = 0 → sl_free (i_lock i) → i_dev i = dev →
  0 ≤ i_inum i < sb_ninodes sb → dinode_wf (dinode_of i) → freeable sb D L →
  (znth 0 (i_addrs i) 12 ≠ 0 → is_data sb dstart (znth 0 (i_addrs i) 12) ∧ held !! znth 0 (i_addrs i) 12 = None) →
  (∀ b, 0 ≤ b < sb_size sb → held !! BBLOCK b sb = None) → held !! IBLOCK (i_inum i) sb = None →
  Z.of_nat (size held) + Z.of_nat (size lg) + Z.of_nat (nbmap sb) + 2 ≤ 29 →
  ∃ s' D' lg', iput me pid ip s = Ok tt s' ∧ t_rep D' held lg' (fs_io s') ∧
    only_entry (fs_rest s) (fs_rest s') ip ∧ i_ref (geti s' ip) = 0 ∧ sl_free (i_lock (geti s' ip)) ∧
    (∀ b, 0 ≤ b < sb_size sb → used sb D' b = used sb D b && negb (bool_decide (b ∈ nz L))) ∧
    (∀ b, dstart ≤ b → D' b = D b) ∧
    di_type (dinode_at sb D' (i_inum i)) = 0 ∧
    (∀ j, 0 ≤ j < sb_ninodes sb → j ≠ i_inum i → dinode_at sb D' j = dinode_at sb D j).
Proof.
  intros Hdev Hhome HL HR Hit Hsb Hip Href Hval Hnl Hslf Hd Hin Hwf Hfree Hind Hbm Hih Hroom.
  destruct s as [io r]. unfold geti in *. cbn [fs_rest fs_io] in *.
  assert (Hw : fwp dev (iput me pid ip) (mkfabs D held lg r) (λ _ a, fa_held a = held ∧ fa_rest a = r_seti ip (reclaimed i) r ∧
    ∃ Dj, freed sb dstart D (nz L) Dj ∧ (∀ b, b ≠ IBLOCK (i_inum i) sb → fa_D a b = Dj b) ∧
      ∀ j, 0 ≤ j < sb_ninodes sb → dinode_at sb (fa_D a) j =
        if decide (j = i_inum i) then dinode_of (reclaimed i) else dinode_at sb D j)).
  { apply awp_tail. apply (fwp_iput_free dev Hdev Hhome sb dstart HL); try done.
    intros D' Dj lg' Hfr HD Hat Hlg. apply awp_ret. cbn. split_and!; [done..|]. by exists Dj. }
  destruct (awp_run _ _ _ _ (mkfstate io r) Hw)
    as ([] & [io' r'] & [D' held' lg' r1] & E & [HR' Hr'] & Hh' & Hr1 & Dj & [Hu Hd1] & HD & Hat); [by split|].
  cbn [fa_D fa_held fa_lg fa_rest fs_io fs_rest] in *. subst r1 r' held'. eexists _, D', lg'. split; [exact E|].
  cbn [fs_io fs_rest]. rewrite geti_seti, decide_True by (done || apply Hit).
  pose proof (IBLOCK_range _ _ _ HL _ Hin) as Hir. pose proof (lay_bmap _ _ _ HL) as Hb.
  split_and!; [done|by apply only_entry_seti|done|by split; [apply Hslf|]| | | |].
  - intros b Hb'. rewrite <-Hu by done. unfold used. pose proof (BBLOCK_range _ _ _ HL _ Hb'). rewrite HD by lia. done.
  - intros b Hb'. rewrite HD by (destruct HL; rewrite ?BPB_eq in *; dlia). apply Hd1. by right.
  - by rewrite Hat, decide_True.
  - intros j Hj Hne. by rewrite Hat, decide_False.
Qed.
End theorems.

(** * The theorems at a concrete state *)

Lemma demo_geti ip : iptr ip → r_geti demo_rest ip = inode0.
Proof. intros Hip. unfold iptr, NINODE in Hip. apply znth_replicate. lia. Qed.

Lemma demo_it_ok : it_ok demo_rest.
Proof.
  constructor; try done; intros ip; try (intros Hip; by rewrite demo_geti).
  intros jp Hip Hjp. rewrite !demo_geti by done. cbn. lia.
Qed.

Lemma iget_spec_witness :
  ∃ (io : lstate Bio.bstate) ip s', iget (U := unit) 0 1 5 (mkfstate io demo_rest) = Ok ip s' ∧
    imatch 1 5 (geti s' ip) = true.
Proof.
  destruct demo_rep as [io HR]. exists io.
  destruct (iget_spec 1 0 (mkfstate io demo_rest) 5 demo_it_ok)
    as [(ip & s' & H1 & _ & _ & _ & _ & H2 & _)|[_ H]].
  - exists ip, s'. split; [exact H1|exact H2].
  - exfalso. destruct (H 1 ltac:(done)) as [H' _]. apply H'. reflexivity.
Defined.

(** The root directory in the first entry of the table: in use and valid, with
    [nlink] links. *)
Definition demo_inode (nlink : Z) : inode :=
  mkinode 1 1 1 (initsleeplock "inode") 1 1 0 0 nlink 32 (47 :: replicate 12 0).

Definition demo_rest1 (nlink : Z) : frest unit := r_seti 1 (demo_inode nlink) demo_rest.

Lemma demo_geti1 nlink ip : iptr ip → r_geti (demo_rest1 nlink) ip = if decide (1 = ip) then demo_inode nlink else inode0.
Proof.
  intros Hip. unfold demo_rest1. rewrite geti_seti by done. case_decide; [done|]. by apply demo_geti.
Qed.

Lemma demo_it_ok1 nlink : it_ok (demo_rest1 nlink).
Proof.
  constructor; try done; intros ip; try (intros Hip; rewrite demo_geti1 by done; by case_decide).
  intros jp Hip Hjp. rewrite !demo_geti1 by done. repeat case_decide; cbn; lia.
Qed.

Lemma demo_dinode_wf nlink : -32768 ≤ nlink < 32768 → dinode_wf (dinode_of (demo_inode nlink)).
Proof. intros Hn. constructor; try done. cbn. repeat constructor; lia. Qed.

Lemma iupdate_ilock_witness :
  ∃ (io : lstate Bio.bstate) s', iupdate (U := unit) 1 (mkfstate io (demo_rest1 5)) = Ok tt s'.
Proof.
  destruct demo_rep as [io HR]. exists io.
  destruct (iupdate_ilock 1 demo_sb 47 0 7 (mkfstate io (demo_rest1 5)) demo_disk ∅ ∅ 1)
    as (s' & _ & _ & H1 & _);
    [done|apply demo_home|apply demo_layout|exact HR|done|done|done|by apply demo_dinode_wf|done|done|done|].
  exists s'. exact H1.
Defined.

Lemma ialloc_spec_witness :
  ∃ (io : lstate Bio.bstate) ip s', ialloc (U := unit) 0 1 2 (mkfstate io demo_rest) = Ok ip s' ∧
    imatch 1 2 (geti s' ip) = true.
Proof.
  destruct demo_rep as [io HR]. exists io.
  destruct (ialloc_spec 1 demo_sb 47 0 (mkfstate io demo_rest) demo_disk ∅ ∅ 2)
    as (ip & s' & D' & lg' & H1 & _ & _ & H2);
    [done|apply demo_home|apply demo_layout|exact HR|apply demo_it_ok|done|done|by exists 1|done|done|].
  - exists ip, s'. split; [exact H1|]. destruct H2 as [(_ & _ & _ & _ & H2)|(i & Hi & Hip & Hm & _ & Hz & Hmin & _)].
    + exfalso. specialize (H2 2 ltac:(done)). apply H2. by vm_compute.
    + assert (i = 2) as ->; [|exact Hm].
      destruct (decide (i = 1)) as [->|]; [by vm_compute in Hz|].
      destruct (decide (2 < i)); [|lia]. exfalso. apply (Hmin 2 ltac:(lia)). by vm_compute.
Defined.

Lemma iput_frees_unlinked_witness :
  ∃ (io : lstate Bio.bstate) s', iput (U := unit) 0 7 1 (mkfstate io (demo_rest1 0)) = Ok tt s' ∧
    i_ref (geti s' 1) = 0.
Proof.
  destruct demo_rep as [io HR]. exists io.
  destruct (iput_frees_unlinked 1 demo_sb 47 0 7 (mkfstate io (demo_rest1 0)) demo_disk ∅ ∅ 1)
    as (s' & D' & lg' & H1 & _ & _ & H2 & _);
    [done|apply demo_home|apply demo_layout|exact HR|apply demo_it_ok1|done|done|done|done|done|done|done|done
    |by apply demo_dinode_wf| |done|done|done|by vm_compute|].
  - split; [apply (bool_decide_unpack _); by vm_compute|]. intros a Ha.
    change (nz (file_addrs demo_disk (47 :: replicate 12 0))) with [47] in Ha.
    apply list_elem_of_singleton in Ha as ->. by vm_compute.
  - exists s'. split; [exact H1|exact H2].
Defined.
