(* ===== verification/FsFile.v ===== *)
(** kernel/fs.c: the contents of a file.

    [slot] is the abstract block map of an inode: block [k] of the file for
    [k < 268], the indirect block itself for [k = 268].  [file_inv] says that
    the blocks of a file are distinct, allocated data blocks.  [bmap] is shown
    to return the block of the map, adding a fresh zeroed block where there was
    none; [readi] returns the bytes of the file, and [writei] replaces them. *)

From stdpp Require Import base tactics list numbers strings gmap functions sets.
From S2P Require Import Prelude Param Bytes Spinlock Sleeplock BufSpec TxSpec UserSpec Fs FsWp Log FsDemo FsAlloc FsInode.
From Stdlib Require Import ZArith Lia.

Open Scope kernel_scope.

(** * The block map of a file *)

Definition slot (D : Z → list Z) (l : list Z) (k : Z) : Z :=
  if k <? 12 then znth 0 l k
  else if k =? 268 then znth 0 l 12
  else if znth 0 l 12 =? 0 then 0
  else ind_get (D (znth 0 l 12)) (k - 12).

Lemma ind_get_set d i j v :
  wf_block d → 0 ≤ i < 256 → 0 ≤ j < 256 → 0 ≤ v < 4294967296 →
  ind_get (ind_set d i v) j = if decide (j = i) then v else ind_get d j.
Proof.
  intros [Hl _] Hi Hj Hv. unfold ind_get, ind_set. case_decide as E.
  - subst j. rewrite blk_load_store_eq by lia. by apply Z.mod_small.
  - apply blk_load_store_ne; lia.
Qed.

Lemma wf_ind_set d i v : wf_block d → 0 ≤ i < 256 → wf_block (ind_set d i v).
Proof.
  intros [Hl Hb] Hi. unfold ind_set. split; [rewrite length_blk_store; lia|].
  apply is_bytes_blk_write; [done|apply is_bytes_le_enc].
Qed.

Lemma ind_get_zeros i : 0 ≤ i < 256 → ind_get zeros i = 0.
Proof.
  intros Hi. unfold ind_get, zeros, blk_load. rewrite <-(le_dec_zeros 4). f_equal. unfold blk_read.
  rewrite drop_replicate, take_replicate. f_equal. lia.
Qed.

Lemma wf_blk_write d o bs : wf_block d → (o + length bs ≤ 1024)%nat → is_bytes bs → wf_block (blk_write d o bs).
Proof. intros [Hl Hb] Ho Hbs. split; [rewrite length_blk_write; lia|by apply is_bytes_blk_write]. Qed.

(** Setting a direct address, the address of a blank indirect block, and an
    entry of the indirect block. *)
Lemma slot_zset D D' l bn x k :
  len l = 13 → 0 ≤ bn < 12 → (znth 0 l 12 ≠ 0 → D' (znth 0 l 12) = D (znth 0 l 12)) →
  slot D' (zset l bn x) k = if decide (k = bn) then x else slot D l k.
Proof.
  intros Hl Hbn HD. unfold slot. rewrite !znth_zset by lia. rewrite (decide_False (P := bn = 12)) by lia.
  destruct (k <? 12) eqn:E; [by repeat case_decide; try lia|]. rewrite decide_False by lia.
  destruct (k =? 268); [done|]. destruct (znth 0 l 12 =? 0) eqn:E2; [done|]. by rewrite HD by lia.
Qed.

Lemma slot_zset_ind D D' l x k :
  len l = 13 → znth 0 l 12 = 0 → D' x = zeros → 0 ≤ k ≤ 268 → x ≠ 0 →
  slot D' (zset l 12 x) k = if decide (k = 268) then x else slot D l k.
Proof.
  intros Hl H0 HD Hk Hx. unfold slot. rewrite !znth_zset by lia. rewrite H0, (decide_True (P := 12 = 12)) by done. cbn [Z.eqb].
  destruct (k <? 12) eqn:E; [by repeat case_decide; try lia|].
  destruct (k =? 268) eqn:E1; [by rewrite decide_True by lia|]. rewrite decide_False by lia.
  destruct (x =? 0) eqn:?; [lia|]. rewrite HD. apply ind_get_zeros. lia.
Qed.

Lemma slot_ind_entry D x D' l bn k (ind := znth 0 l 12) :
  wf_block (D ind) → ind ≠ 0 → 0 ≤ x < 4294967296 → 12 ≤ bn < 268 → 0 ≤ k ≤ 268 →
  slot (<[ind := ind_set (D ind) (bn - 12) x]> D') l k = if decide (k = bn) then x else slot D l k.
Proof.
  intros Hwf Hi Hx Hbn Hk. unfold slot. fold ind. rewrite fn_lookup_insert.
  destruct (k <? 12) eqn:E; [by rewrite decide_False by lia|].
  destruct (k =? 268) eqn:E1; [by rewrite decide_False by lia|].
  destruct (ind =? 0) eqn:E2; [lia|]. rewrite ind_get_set by (done || lia).
  repeat case_decide; try done; lia.
Qed.

(** [slot] and the list of addresses that [itrunc] frees. *)
Lemma slot_file_addrs D l k :
  len l = 13 → 0 ≤ k ≤ 268 → (znth 0 l 12 ≠ 0 ∨ k < 12) → znth 0 (file_addrs D l) k = slot D l k.
Proof.
  intros Hl Hk Hi. unfold slot, file_addrs. assert (Hl12 : len (take 12 l) = 12) by (unfold len in *; rewrite length_take; lia).
  destruct (k <? 12) eqn:E1; [rewrite znth_app_l by lia; apply (znth_take _ 12); lia|].
  rewrite znth_app_r by lia. rewrite Hl12. destruct (znth 0 l 12 =? 0) eqn:E2; [lia|].
  destruct (k =? 268) eqn:E3.
  - rewrite znth_app_r by (rewrite len_ind_list; lia). rewrite len_ind_list. by replace (k - 12 - 256) with 0 by lia.
  - rewrite znth_app_l by (rewrite len_ind_list; lia). apply znth_ind_list. lia.
Qed.

Section file.
  Context (sb : superblock) (dstart : Z).
  Implicit Types (D : Z → list Z) (l : list Z).

(** The blocks of a file are allocated data blocks, each used once. *)
Record file_inv D l : Prop := {
  fi_len : len l = 13;
  fi_data : ∀ k, 0 ≤ k ≤ 268 → slot D l k ≠ 0 → is_data sb dstart (slot D l k) ∧ used sb D (slot D l k) = true;
  fi_inj : ∀ k j, 0 ≤ k ≤ 268 → 0 ≤ j ≤ 268 → slot D l k ≠ 0 → slot D l k = slot D l j → k = j;
}.

Lemma slot_268 D l : slot D l 268 = znth 0 l 12.
Proof. done. Qed.

(** What [balloc] has done, seen from the files. *)
Record grown D x D' : Prop := {
  gr_data : is_data sb dstart x;
  gr_free : used sb D x = false;
  gr_zero : D' x = zeros;
  gr_used : ∀ b, 0 ≤ b < sb_size sb → used sb D' b = bool_decide (b = x) || used sb D b;
  gr_keep : ∀ b, b ≠ x → b < sb_bmapstart sb ∨ dstart ≤ b → D' b = D b;
}.

Lemma allocated_grown home D lg x D' lg' :
  layout home sb dstart → 0 < dstart → (∀ b, home b → wf_block (D b)) →
  allocated sb dstart D lg x D' lg' →
  grown D x D' ∧ lg' ⊆ {[x]} ∪ (bmap_set sb ∪ lg) ∧ (size lg' ≤ 2 + size lg)%nat.
Proof.
  intros HL Hds Hwf (Hx & Hu & -> & ->). pose proof Hx as Hx'. unfold is_data in Hx'.
  assert (Hx0 : 0 ≤ x < sb_size sb) by lia. pose proof (BBLOCK_range _ _ _ HL x Hx0) as Hbr.
  assert (Hwb : wf_block (D (BBLOCK x sb))) by (by apply Hwf, (BBLOCK_home _ _ _ HL)).
  split_and!; [constructor; try done| |].
  - by rewrite fn_lookup_insert.
  - intros b Hb. rewrite (used_data _ _ _ HL) by done. by rewrite (used_set _ _ _ HL).
  - intros b Hb Hb'. rewrite !fn_lookup_insert_ne by (done || lia). done.
  - assert (BBLOCK x sb ∈ bmap_set sb); [|set_solver].
    unfold bmap_set, nbmap. rewrite elem_of_list_to_set, elem_of_zseq, (BBLOCK_eq _ _ _ HL) by done.
    rewrite BPB_eq in *. dlia.
  - etrans; [apply size_add|]. pose proof (size_add (BBLOCK x sb) lg). lia.
Qed.

(** A fresh block is not in the file. *)
Lemma grown_slot D x D' l k : grown D x D' → file_inv D l → 0 ≤ k ≤ 268 → slot D l k ≠ 0 → slot D l k ≠ x.
Proof. intros Hg Hf Hk Hnz E. destruct (fi_data _ _ Hf k Hk Hnz) as [_ Hu]. rewrite E, (gr_free _ _ _ Hg) in Hu. done. Qed.

(** The indirect block survives an allocation. *)
Lemma grown_ind D x D' l : grown D x D' → file_inv D l → znth 0 l 12 ≠ 0 → D' (znth 0 l 12) = D (znth 0 l 12).
Proof.
  intros Hg Hf Hi. apply (gr_keep _ _ _ Hg).
  - apply (grown_slot D x D' l 268); done.
  - right. destruct (fi_data _ _ Hf 268) as [Hd _]; [lia|done|]. apply Hd.
Qed.

(** Adding a fresh block to the map keeps the invariant. *)
Lemma file_inv_add D l D' l' k0 x :
  file_inv D l → is_data sb dstart x → used sb D x = false → 0 < dstart → len l' = 13 → 0 ≤ k0 ≤ 268 →
  (∀ b, 0 ≤ b < sb_size sb → used sb D' b = bool_decide (b = x) || used sb D b) →
  (∀ k, 0 ≤ k ≤ 268 → slot D' l' k = if decide (k = k0) then x else slot D l k) →
  file_inv D' l'.
Proof.
  intros [Hl Hd Hi] Hx Hux Hds Hl' Hk0 Hu Hs. unfold is_data in *. constructor; [done| |].
  - intros k Hk. rewrite Hs by done. case_decide as E.
    + intros _. split; [done|]. rewrite Hu by lia. by rewrite bool_decide_eq_true_2.
    + intros Hnz. destruct (Hd k Hk Hnz) as [H1 H2]. split; [done|]. rewrite Hu by lia. by rewrite H2, orb_true_r.
  - assert (Hne : ∀ k, 0 ≤ k ≤ 268 → slot D l k ≠ 0 → slot D l k ≠ x).
    { intros k Hk Hnz E. destruct (Hd k Hk Hnz) as [_ H2]. rewrite E, Hux in H2. done. }
    intros k j Hk Hj. rewrite !Hs by done. repeat case_decide; subst; try done.
    + intros H1 H2. exfalso. by apply (Hne j); [done|congruence|congruence].
    + intros H1 H2. exfalso. by apply (Hne k).
    + intros. by apply Hi.
Qed.

(** The three ways the map grows. *)
Lemma slot_direct D x D' l bn k :
  grown D x D' → file_inv D l → 0 ≤ bn < 12 → 0 ≤ k ≤ 268 →
  slot D' (zset l bn x) k = if decide (k = bn) then x else slot D l k.
Proof. intros Hg Hf Hbn Hk. apply slot_zset; [apply Hf|done|]. by apply (grown_ind D x D' l). Qed.

Lemma slot_ind_new D x D' l k :
  grown D x D' → file_inv D l → znth 0 l 12 = 0 → 0 ≤ k ≤ 268 → x ≠ 0 →
  slot D' (zset l 12 x) k = if decide (k = 268) then x else slot D l k.
Proof. intros Hg Hf H0 Hk Hx. apply slot_zset_ind; try done; [apply Hf|apply Hg]. Qed.

(** What a growing file leaves alone: allocated blocks stay allocated, and only
    the file's own indirect block among them may change. *)
Record kept D l D' l' : Prop := {
  kp_used : ∀ b, 0 ≤ b < sb_size sb → used sb D b = true → used sb D' b = true;
  kp_keep : ∀ b, b < sb_bmapstart sb ∨ (dstart ≤ b < sb_size sb ∧ used sb D b = true ∧ b ≠ znth 0 l 12) → D' b = D b;
  kp_ind : znth 0 l' 12 = znth 0 l 12 ∨
    (znth 0 l 12 = 0 ∧ 0 ≤ znth 0 l' 12 < sb_size sb ∧ used sb D (znth 0 l' 12) = false);
}.

Lemma kept_refl D l : kept D l D l.
Proof. constructor; auto. Qed.

Lemma kept_trans D l D1 l1 D2 l2 :
  0 < dstart → kept D l D1 l1 → kept D1 l1 D2 l2 → kept D l D2 l2.
Proof.
  intros Hds [U1 K1 I1] [U2 K2 I2]. constructor; [auto| |].
  - intros b Hb. rewrite K2; [by apply K1|]. destruct Hb as [Hb|(Hb & Hu & Hne)]; [by left|right].
    split_and!; [lia|lia|apply U1; [lia|done]|]. destruct I1 as [->|(_ & _ & H)]; [done|]. intros ->. congruence.
  - assert (Hm : ∀ b, 0 ≤ b < sb_size sb → used sb D1 b = false → used sb D b = false).
    { intros b Hb Hu. destruct (used sb D b) eqn:E; [|done]. by rewrite U1 in Hu. }
    destruct I1 as [E1|(E1 & R1 & F1)], I2 as [E2|(E2 & R2 & F2)].
    + left. congruence.
    + right. split_and!; [congruence|lia|lia|]. apply Hm; auto.
    + right. by rewrite E2.
    + right. split_and!; [done|lia|lia|]. apply Hm; auto.
Qed.

(** Growing: the map of [l'] in [D'] is that of [l] in [D] with the fresh block
    [x] at [k0]. *)
Record grows D l D' l' k0 x : Prop := {
  gs_inv : file_inv D' l';
  gs_slot : ∀ k, 0 ≤ k ≤ 268 → slot D' l' k = if decide (k = k0) then x else slot D l k;
  gs_new : used sb D x = false ∧ D' x = zeros;
  gs_kept : kept D l D' l';
}.

Lemma grown_keep D x D' l b :
  grown D x D' → b < sb_bmapstart sb ∨ (dstart ≤ b < sb_size sb ∧ used sb D b = true ∧ b ≠ znth 0 l 12) →
  sb_bmapstart sb ≤ dstart → D' b = D b.
Proof.
  intros [Hd Hf Hz Hu Hk] Hb Hle. unfold is_data in *. apply Hk; [|lia].
  destruct Hb as [Hb|(Hb & Hub & _)]; [lia|]. intros ->. congruence.
Qed.

Lemma grown_mono D x D' b : grown D x D' → 0 ≤ b < sb_size sb → used sb D b = true → used sb D' b = true.
Proof. intros Hg Hb Hu. by rewrite (gr_used _ _ _ Hg), Hu, orb_true_r by done. Qed.

Section grows.
  Context (D D' : Z → list Z) (x : Z) (l : list Z).
  Context (Hg : grown D x D') (Hf : file_inv D l) (Hds : 0 < dstart) (Hbs : sb_bmapstart sb ≤ dstart).

Lemma fresh_nz : 0 < x < sb_size sb.
Proof. pose proof (gr_data _ _ _ Hg) as Hx. unfold is_data in Hx. lia. Qed.

Lemma grows_direct bn : 0 ≤ bn < 12 → grows D l D' (zset l bn x) bn x.
Proof.
  intros Hbn. pose proof (fi_len _ _ Hf) as Hl.
  assert (Hs : ∀ k, 0 ≤ k ≤ 268 → slot D' (zset l bn x) k = if decide (k = bn) then x else slot D l k)
    by (intros; by apply slot_direct).
  constructor; [|done|split; apply Hg|].
  - eapply file_inv_add; [done|apply Hg|apply Hg|done|by rewrite len_zset| |apply Hg|exact Hs]. lia.
  - constructor; [intros; by eapply grown_mono|intros; by eapply grown_keep|].
    left. by rewrite znth_zset_ne by lia.
Qed.

Lemma grows_ind : znth 0 l 12 = 0 → grows D l D' (zset l 12 x) 268 x.
Proof.
  intros H0. pose proof (fi_len _ _ Hf) as Hl. pose proof fresh_nz.
  assert (Hs : ∀ k, 0 ≤ k ≤ 268 → slot D' (zset l 12 x) k = if decide (k = 268) then x else slot D l k)
    by (intros; apply slot_ind_new; done || lia).
  constructor; [|done|split; apply Hg|].
  - eapply file_inv_add; [done|apply Hg|apply Hg|done|by rewrite len_zset| |apply Hg|exact Hs]. lia.
  - constructor; [intros; by eapply grown_mono|intros; by eapply grown_keep|].
    right. rewrite znth_zset_eq by lia. split_and!; [done|lia|lia|apply Hg].
Qed.

Lemma grows_entry home bn (ind := znth 0 l 12) :
  layout home sb dstart → wf_block (D ind) → ind ≠ 0 → 12 ≤ bn < 268 →
  grows D l (<[ind := ind_set (D ind) (bn - 12) x]> D') l bn x.
Proof.
  intros HL Hwf Hi Hbn. pose proof fresh_nz. pose proof (lay_size _ _ _ HL).
  destruct (fi_data _ _ Hf 268 ltac:(lia) Hi) as [Hid Hiu]. rewrite slot_268 in Hid, Hiu. fold ind in Hid, Hiu.
  assert (Hix : ind ≠ x) by (intros E; rewrite E, (gr_free _ _ _ Hg) in Hiu; done).
  assert (Hs : ∀ k, 0 ≤ k ≤ 268 → slot (<[ind := ind_set (D ind) (bn - 12) x]> D') l k =
                                   if decide (k = bn) then x else slot D l k)
    by (intros; apply (slot_ind_entry D x D'); done || lia).
  assert (Hu : ∀ b, 0 ≤ b < sb_size sb → used sb (<[ind := ind_set (D ind) (bn - 12) x]> D') b = bool_decide (b = x) || used sb D b).
  { intros b Hb. rewrite (used_data _ _ _ HL) by done. by apply Hg. }
  constructor; [|done|split; [apply Hg|rewrite fn_lookup_insert_ne by done; apply Hg]|].
  - eapply file_inv_add; [done|apply Hg|apply Hg|done|apply Hf| |exact Hu|exact Hs]. lia.
  - unfold is_data in Hid. constructor; [| |by left].
    + intros b Hb Hub. by rewrite Hu, Hub, orb_true_r.
    + intros b Hb. rewrite fn_lookup_insert_ne by (fold ind in Hb; lia). by eapply grown_keep.
Qed.
End grows.

(** The result of [bmap]: block [bn] of the file is [x], or there was no room. *)
Record bmapped D l lg bn x D' l' lg' : Prop := {
  bm_inv : file_inv D' l';
  bm_slot : ∀ k, 0 ≤ k < 268 → slot D' l' k = if decide (k = bn) then x else slot D l k;
  bm_old : slot D l bn ≠ 0 → x = slot D l bn ∧ D' = D ∧ l' = l ∧ lg' = lg;
  bm_new : slot D l bn = 0 → x ≠ 0 → used sb D x = false ∧ D' x = zeros;
  bm_full : x = 0 → ∀ b, 0 ≤ b < sb_size sb → used sb D' b = true;
  bm_kept : kept D l D' l';
  bm_lg : lg' ⊆ {[x]} ∪ ({[znth 0 l' 12]} ∪ (bmap_set sb ∪ lg));
}.

Lemma bmapped_after_ind D l lg D1 l1 lg1 bn x y D2 lg2 :
  0 < dstart → 0 ≤ bn < 268 → slot D l bn = 0 → grows D l D1 l1 268 x → lg1 ⊆ {[x]} ∪ (bmap_set sb ∪ lg) →
  bmapped D1 l1 lg1 bn y D2 l1 lg2 → bmapped D l lg bn y D2 l1 lg2.
Proof.
  intros Hds Hbn H0 [G1 G2 G3 G4] Hlg [B1 B2 B3 B4 B5 B6 B7].
  assert (Hx : znth 0 l1 12 = x) by (rewrite <-(slot_268 D1), G2, decide_True by lia; done).
  assert (Hs : slot D1 l1 bn = 0) by (by rewrite G2, decide_False by lia).
  constructor; try done.
  - intros k Hk. rewrite B2 by done. case_decide; [done|]. by rewrite G2, decide_False by lia.
  - intros _ Hy. destruct (B4 Hs Hy) as [Hu Hz]. split; [|done].
    destruct (used sb D y) eqn:E; [|done]. exfalso.
    assert (0 ≤ y < sb_size sb).
    { destruct (fi_data _ _ B1 bn ltac:(lia)) as [Hd _]; rewrite B2, decide_True in * by lia; [done|]. unfold is_data in Hd. lia. }
    by rewrite (kp_used _ _ _ _ G4) in Hu.
  - by eapply kept_trans.
  - rewrite Hx in *. sub_tauto.
Qed.
End file.

(** * bmap *)

Section bmap.
  Context {F H U : Type} `{TX : Txn F H} (dev : Z) `{TXS : !TxnSpec F H dev}.
  Context (Hdev : 0 ≤ dev < 4294967296) (Hhome : ∀ b, t_home b → 0 ≤ b < 4294967296).
  Context (sb : superblock) (dstart : Z) (HL : layout t_home sb dstart).
  Implicit Types (D : Z → list Z) (lg : gset Z) (r : frest U).

(** Every free block can hold data. *)
Definition disk_ok D : Prop := ∀ b, 0 ≤ b < sb_size sb → used sb D b = false → is_data sb dstart b.

Lemma dstart_pos : 0 < dstart ∧ sb_bmapstart sb ≤ dstart.
Proof. clear Hdev Hhome. destruct HL. rewrite ?BPB_eq, ?IPB_eq in *. dlia. Qed.

Lemma kept_disk_ok D l D' l' : disk_ok D → kept sb dstart D l D' l' → disk_ok D'.
Proof.
  intros Hok Hk b Hb Hu. apply Hok; [done|]. destruct (used sb D b) eqn:E; [|done].
  by rewrite (kp_used _ _ _ _ _ _ Hk) in Hu.
Qed.

(** [balloc] while no buffer is held, or only a used data block. *)
Lemma fwp_balloc_file {T} (k : Z → M (fstate F U) T) D held lg r Q :
  fr_sb r = sb → disk_ok D → (∀ b h, held !! b = Some h → is_data sb dstart b ∧ used sb D b = true) →
  Z.of_nat (size held) + Z.of_nat (size lg) ≤ 26 →
  (∀ x D' lg', grown sb dstart D x D' → lg' ⊆ {[x]} ∪ (bmap_set sb ∪ lg) → (size lg' ≤ 2 + size lg)%nat →
     fwp dev (k x) (mkfabs D' held lg' r) Q) →
  ((∀ b, 0 ≤ b < sb_size sb → used sb D b = true) → fwp dev (k 0) (mkfabs D held lg r) Q) →
  fwp dev (bind (balloc dev) k) (mkfabs D held lg r) Q.
Proof.
  intros Hsb Hok Hheld Hsz Hyes Hno. destruct dstart_pos as [Hds _]. apply fwp_wf. intros Hwf.
  apply (fwp_balloc dev Hdev Hhome sb dstart HL); [done| | |done].
  - constructor; [done| | |lia].
    + intros b Hb. destruct (held !! BBLOCK b sb) as [h|] eqn:E; [|done].
      destruct (Hheld _ _ E) as [Hd _]. pose proof (BBLOCK_range _ _ _ HL b Hb). unfold is_data in Hd. lia.
    + intros b Hb Hu. destruct (held !! b) as [h|] eqn:E; [|done]. destruct (Hheld _ _ E). congruence.
  - intros x D' lg' Ha. destruct (allocated_grown _ _ _ _ _ _ _ _ HL Hds Hwf Ha) as (? & ? & ?). by apply Hyes.
Qed.

Section at_inode.
  Context (ip bn : Z) (r : frest U).
Let i := r_geti r ip.
  Context (Hlen : len (fr_inode r) = NINODE) (Hip : iptr ip) (Hsb : fr_sb r = sb) (Hidev : i_dev i = dev).

(** The inode with the addresses [l]. *)
Definition with_addrs (l : list Z) : frest U := r_seti ip (set_i_addrs l i) r.

Lemma geti_with l : r_geti (with_addrs l) ip = set_i_addrs l i.
Proof. unfold with_addrs. by rewrite geti_seti, decide_True. Qed.

Lemma with_same : with_addrs (i_addrs i) = r.
Proof. unfold with_addrs. rewrite set_i_addrs_same. by apply seti_same. Qed.

Lemma fwp_upd_addr {T} j x l (k : unit → M (fstate F U) T) D held lg Q :
  fwp dev (k tt) (mkfabs D held lg (with_addrs (zset l j x))) Q →
  fwp dev (bind (upd_addr ip j x) k) (mkfabs D held lg (with_addrs l)) Q.
Proof. intros Hk. unfold upd_addr. apply fwp_upd_i. rewrite geti_with. unfold with_addrs. rewrite seti_seti. exact Hk. Qed.

(** The entry of block [bn] in the indirect block. *)
Lemma fwp_bmap_entry {T} (k : Z → M (fstate F U) T) D l lg Q (ind := znth 0 l 12) :
  disk_ok D → file_inv sb dstart D l → ind ≠ 0 → 12 ≤ bn < 268 → Z.of_nat (size lg) ≤ 28 →
  (slot D l bn = 0 → Z.of_nat (size lg) ≤ 24) →
  (∀ x D' lg', bmapped sb dstart D l lg bn x D' l lg' → fwp dev (k x) (mkfabs D' ∅ lg' (with_addrs l)) Q) →
  fwp dev (bind (
        bp <- bread_ dev ind ;;
        s <- get ;;
        addr <- (if ind_get (data bp s) (bn - NDIRECT) =? 0
                 then
                   addr <- balloc (i_dev (geti s ip)) ;;
                   (if negb (addr =? 0)
                    then
                      s <- get ;;
                      set_data bp (ind_set (data bp s) (bn - NDIRECT) addr) ;;
                      log_write_ bp
                    else ret tt) ;;
                   ret addr
                 else ret (ind_get (data bp s) (bn - NDIRECT))) ;;
        brelse_ bp ;;
        ret addr) k) (mkfabs D ∅ lg (with_addrs l)) Q.
Proof.
  intros Hok Hf Hi Hbn Hsz0 Hsz Hk. destruct dstart_pos as [Hds Hbs]. unfold NDIRECT.
  destruct (fi_data _ _ _ _ Hf 268 ltac:(lia) Hi) as [Hid Hiu]. rewrite slot_268 in Hid, Hiu. fold ind in Hid, Hiu.
  assert (Hslot : slot D l bn = ind_get (D ind) (bn - 12)).
  { unfold slot. fold ind. destruct (bn <? 12) eqn:?, (bn =? 268) eqn:?, (ind =? 0) eqn:?; try done; lia. }
  apply awp_assoc. apply fwp_bread; try done; [by apply (data_home _ _ _ HL)|rewrite map_size_empty; unfold NBUF, MAXOPBLOCKS; lia|].
  intros h Hwf. apply awp_assoc, fwp_get. intros io HR. unfold geti. cbn [fs_rest]. rewrite geti_with.
  cbn [i_dev set_i_addrs]. rewrite Hidev.
  rewrite (fdata dev D _ lg _ io ind h (D ind) HR (lookup_insert_eq _ _ _)). rewrite <-Hslot.
  destruct (slot D l bn =? 0) eqn:E.
  - specialize (Hsz ltac:(lia)). do 2 apply awp_assoc. apply fwp_balloc_file; try done.
    + intros b h' Hb. apply lookup_insert_Some in Hb as [[<- _]|[_ Hb]]; [done|by rewrite lookup_empty in Hb].
    + rewrite map_size_insert_None, map_size_empty by done. lia.
    + intros x D' lg' Hg Hlg Hsz'. pose proof (fresh_nz sb dstart D D' x Hg Hds) as Hx.
      destruct (x =? 0) eqn:Ex; [lia|]. cbn [negb]. do 2 apply awp_assoc. apply fwp_get. intros io1 HR1.
      rewrite (fdata dev D' _ lg' _ io1 ind h (D ind) HR1 (lookup_insert_eq _ _ _)). apply awp_assoc.
      eapply fwp_set_data; [apply lookup_insert_eq|apply wf_ind_set; [done|lia]|]. rewrite insert_insert_eq.
      eapply fwp_log_write; [apply lookup_insert_eq|unfold LOGBLOCKS, MAXOPBLOCKS; lia|].
      apply awp_skip, awp_assoc. eapply fwp_brelse; [apply lookup_insert_eq|by rewrite fn_lookup_insert|].
      rewrite delete_insert_id by done. apply awp_skip, Hk.
      destruct (grows_entry sb dstart D D' x l Hg Hf Hds Hbs t_home bn HL Hwf Hi Hbn) as [G1 G2 G3 G4].
      constructor; try done; [intros; apply G2; lia|lia|lia|fold ind; sub_tauto].
    + intros Hall. cbn [Z.eqb negb]. apply awp_skip, awp_assoc.
      eapply fwp_brelse; [apply lookup_insert_eq|done|]. rewrite delete_insert_id by done. apply awp_skip, Hk.
      constructor; try done; [|lia|apply kept_refl|sub_tauto]. intros k' Hk'. case_decide; [subst; lia|done].
  - apply awp_assoc, awp_skip, awp_assoc. eapply fwp_brelse; [apply lookup_insert_eq|done|].
    rewrite delete_insert_id by done. apply awp_skip, Hk. constructor; try done; [|lia..|apply kept_refl|sub_tauto]. intros k' Hk'. by case_decide; subst.
Qed.

Lemma fwp_bmap {T} (k : Z → M (fstate F U) T) D l lg Q :
  disk_ok D → file_inv sb dstart D l → 0 ≤ bn < 268 → Z.of_nat (size lg) ≤ 28 →
  (slot D l bn = 0 → Z.of_nat (size lg) ≤ 22) →
  (∀ x D' l' lg', bmapped sb dstart D l lg bn x D' l' lg' → fwp dev (k x) (mkfabs D' ∅ lg' (with_addrs l')) Q) →
  fwp dev (bind (bmap ip bn) k) (mkfabs D ∅ lg (with_addrs l)) Q.
Proof.
  intros Hok Hf Hbn Hsz0 Hsz Hk. destruct dstart_pos as [Hds Hbs]. unfold bmap. apply awp_assoc, fwp_get. intros io _.
  unfold get_addr, geti. cbn [fs_rest]. rewrite geti_with. cbn [i_dev i_addrs set_i_addrs]. rewrite Hidev.
  unfold NDIRECT. rewrite NINDIRECT_eq. destruct (bn <? 12) eqn:E12.
  - assert (Hslot : slot D l bn = znth 0 l bn) by (unfold slot; by rewrite E12). rewrite <-Hslot.
    destruct (slot D l bn =? 0) eqn:E.
    + specialize (Hsz ltac:(lia)). apply awp_assoc. apply fwp_balloc_file; try done.
      * rewrite map_size_empty. lia.
      * intros x D' lg' Hg Hlg Hsz'. pose proof (fresh_nz sb dstart D D' x Hg Hds) as Hx.
        destruct (x =? 0) eqn:Ex; [lia|]. apply awp_assoc, fwp_upd_addr. apply awp_skip, Hk.
        destruct (grows_direct sb dstart D D' x l Hg Hf Hds Hbs bn ltac:(lia)) as [G1 G2 G3 G4].
        constructor; try done; [intros; apply G2; lia|lia|lia|sub_tauto].
      * intros Hall. cbn [Z.eqb]. apply awp_skip, Hk.
        constructor; try done; [|lia|apply kept_refl|sub_tauto]. intros k' Hk'. case_decide; [subst; lia|done].
    + apply awp_skip, Hk. constructor; try done; [|lia..|apply kept_refl|sub_tauto]. intros k' Hk'. by case_decide; subst.
  - destruct (bn - 12 <? 256) eqn:E256; [|lia]. apply awp_assoc.
    destruct (znth 0 l 12 =? 0) eqn:Ei.
    + assert (Hs0 : slot D l bn = 0) by (unfold slot; rewrite E12, Ei; destruct (bn =? 268) eqn:?; [lia|done]).
      specialize (Hsz Hs0). apply awp_assoc. apply fwp_balloc_file; try done.
      * rewrite map_size_empty. lia.
      * intros x D' lg' Hg Hlg Hsz'. pose proof (fresh_nz sb dstart D D' x Hg Hds) as Hx.
        destruct (x =? 0) eqn:Ex; [lia|]. apply awp_assoc, fwp_upd_addr. apply awp_skip. rewrite Ex.
        destruct (grows_ind sb dstart D D' x l Hg Hf Hds Hbs ltac:(lia)) as [G1 G2 G3 G4].
        pose proof (fwp_bmap_entry k D' (zset l 12 x) lg' Q) as Hent. cbv zeta in Hent.
        rewrite znth_zset_eq in Hent by (rewrite (fi_len _ _ _ _ Hf); lia).
        apply Hent; [by eapply kept_disk_ok|done|lia|lia|lia|lia|].
        intros y D2 lg2 Hb. apply Hk. by eapply bmapped_after_ind; [..|constructor| |].
      * intros Hall. cbn [Z.eqb]. apply awp_skip, awp_skip, Hk.
        constructor; try done; [|apply kept_refl|sub_tauto]. intros k' Hk'. by case_decide; subst.
    + apply awp_skip. rewrite Ei. apply fwp_bmap_entry; try done; [lia..|]. intros y D2 lg2 Hb. by apply Hk.
Qed.

(** A block that is there is found without any change. *)
Lemma fwp_bmap_mapped {T} (k : Z → M (fstate F U) T) D lg Q (x := slot D (i_addrs i) bn) :
  disk_ok D → file_inv sb dstart D (i_addrs i) → 0 ≤ bn < 268 → Z.of_nat (size lg) ≤ 28 → x ≠ 0 →
  fwp dev (k x) (mkfabs D ∅ lg r) Q → fwp dev (bind (bmap ip bn) k) (mkfabs D ∅ lg r) Q.
Proof.
  intros Hok Hf Hbn Hsz Hx Hk. rewrite <-with_same. apply fwp_bmap; try done.
  intros y D' l' lg' Hb. destruct (bm_old _ _ _ _ _ _ _ _ _ _ Hb Hx) as (-> & -> & -> & ->). by rewrite with_same.
Qed.
End at_inode.
End bmap.

(** * Bytes *)

(** Byte [o] of a file. *)
Definition fbyte (D : Z → list Z) (l : list Z) (o : Z) : Z := znth 0 (D (slot D l (o / 1024))) (o mod 1024).

Definition fbytes (D : Z → list Z) (l : list Z) (off : Z) (n : nat) : list Z := fbyte D l <$> zseq off n.

Lemma len_fbytes D l off n : len (fbytes D l off n) = Z.of_nat n.
Proof. unfold fbytes, len. by rewrite length_fmap, length_zseq. Qed.

Lemma fbytes_app D l off n m : fbytes D l off (n + m) = fbytes D l off n ++ fbytes D l (off + Z.of_nat n) m.
Proof.
  unfold fbytes. rewrite <-fmap_app. f_equal. revert off. induction n as [|n IH]; intros off; cbn.
  - by rewrite Z.add_0_r.
  - rewrite IH. do 3 f_equal. lia.
Qed.

(** The part of a block that a round of [readi] copies. *)
Lemma blk_read_fbytes D l off m (b := slot D l (off / 1024)) :
  0 ≤ off → 0 ≤ m → off mod 1024 + m ≤ 1024 → wf_block (D b) →
  blk_read (D b) (Z.to_nat (off mod 1024)) (Z.to_nat m) = fbytes D l off (Z.to_nat m).
Proof.
  intros Ho Hm Hle [Hl _]. pose proof (Z.mod_pos_bound off 1024 ltac:(lia)).
  apply list_eq_same_length with (n := Z.to_nat m).
  - unfold fbytes. by rewrite length_fmap, length_zseq.
  - apply length_blk_read. lia.
  - intros i x y Hi Hx Hy. rewrite lookup_blk_read in Hx by done.
    unfold fbytes in Hy. rewrite list_lookup_fmap, lookup_zseq in Hy by done. cbn in Hy. simplify_eq.
    unfold fbyte. replace ((off + Z.of_nat i) / 1024) with (off / 1024) by dlia. fold b.
    symmetry. apply znth_lookup; [dlia|]. rewrite <-Hx. f_equal. dlia.
Qed.

(** The number of rounds in which [readi] and [writei] move [n] bytes at [off]. *)
Definition rounds (off n : Z) : Z := if 0 <? n then (off mod 1024 + n + 1023) / 1024 else 0.

Lemma rounds_step off n (m := Z.min n (1024 - off mod 1024)) :
  0 ≤ off → 0 < n → rounds off n = 1 + rounds (off + m) (n - m).
Proof.
  intros Ho Hn. unfold rounds. pose proof (Z.mod_pos_bound off 1024 ltac:(lia)).
  destruct (0 <? n) eqn:?; [|lia]. destruct (0 <? n - m) eqn:E.
  - assert (m = 1024 - off mod 1024) as -> by lia. dlia.
  - assert (m = n) by lia. assert (n ≤ 1024 - off mod 1024) by lia. dlia.
Qed.

Lemma rounds_nonneg off n : 0 ≤ rounds off n.
Proof. unfold rounds. destruct (0 <? n) eqn:?; [dlia|lia]. Qed.

Lemma rounds_fuel off n : 0 ≤ n → rounds off n + 1 ≤ Z.of_nat (io_fuel n).
Proof. intros Hn. unfold rounds, io_fuel. change BSIZE with 1024. destruct (0 <? n); dlia. Qed.

(** The well-formedness of a file: its map, and a block for every byte. *)
Record file_ok (sb : superblock) (dstart : Z) (D : Z → list Z) (i : inode) : Prop := {
  fo_inv : file_inv sb dstart D (i_addrs i);
  fo_size : 0 ≤ i_size i ≤ 274432;
  fo_mapped : ∀ k, 0 ≤ k < 268 → k * 1024 < i_size i → slot D (i_addrs i) k ≠ 0;
}.

(** ** Writing *)

Lemma slot_data D l x d k : x ≠ znth 0 l 12 → slot (<[x := d]> D) l k = slot D l k.
Proof. intros Hx. unfold slot. by rewrite fn_lookup_insert_ne. Qed.

Section writing.
  Context (sb : superblock) (dstart : Z) (home : Z → Prop) (HL : layout home sb dstart).
  Context (D0 : Z → list Z) (l0 : list Z) (lg0 : gset Z) (sz off0 : Z) (bytes : list Z).
  Context (Hoff : 0 ≤ off0 ≤ sz) (Hds : 0 < dstart).

(** [tot] bytes have been written: the map has grown, the bytes written are in
    place, the others are as before (a new block reads as zeros), and nothing
    outside the file has changed. *)
Record wr_inv (tot : Z) D l lg (X : gset Z) : Prop := {
  wi_inv : file_inv sb dstart D l;
  wi_used : ∀ b, 0 ≤ b < sb_size sb → used sb D0 b = true → used sb D b = true;
  wi_slot : ∀ k, 0 ≤ k < 268 → slot D0 l0 k ≠ 0 → slot D l k = slot D0 l0 k;
  wi_new : ∀ k, 0 ≤ k ≤ 268 → slot D l k ≠ 0 → slot D l k = slot D0 l0 k ∨ used sb D0 (slot D l k) = false;
  wi_map : ∀ k, 0 ≤ k < 268 → k * 1024 < Z.max sz (off0 + tot) → slot D l k ≠ 0;
  wi_byte : ∀ o, 0 ≤ o < 274432 → slot D l (o / 1024) ≠ 0 →
    fbyte D l o = if (off0 <=? o) && (o <? off0 + tot) then znth 0 bytes (o - off0)
                  else if slot D0 l0 (o / 1024) =? 0 then 0 else fbyte D0 l0 o;
  wi_keep : ∀ b, b < sb_bmapstart sb ∨ (dstart ≤ b < sb_size sb ∧ used sb D0 b = true ∧
                   ∀ k, 0 ≤ k ≤ 268 → slot D0 l0 k ≠ b) → D b = D0 b;
  wi_lg : lg ⊆ X ∪ ({[znth 0 l 12]} ∪ ({[0]} ∪ (bmap_set sb ∪ lg0)));
}.

Lemma wr_inv_start : file_inv sb dstart D0 l0 → (∀ k, 0 ≤ k < 268 → k * 1024 < sz → slot D0 l0 k ≠ 0) →
  wr_inv 0 D0 l0 lg0 ∅.
Proof.
  intros Hf Hmap. constructor; try done; auto.
  - intros k Hk Hlt. apply Hmap; lia.
  - intros o Ho Hs. destruct ((off0 <=? o) && (o <? off0 + 0)) eqn:E; [lia|]. destruct (_ =? 0) eqn:?; [lia|done].
  - sub_tauto.
Qed.

(** A block of the file other than the one asked for survives [bmap]. *)
Lemma bmapped_block D l lg bn x D' l' lg' k :
  file_inv sb dstart D l → bmapped sb dstart D l lg bn x D' l' lg' → 0 ≤ k < 268 → k ≠ bn → slot D l k ≠ 0 →
  D' (slot D' l' k) = D (slot D l k).
Proof.
  intros Hf Hb Hk Hne Hnz. rewrite (bm_slot _ _ _ _ _ _ _ _ _ _ Hb), decide_False by done.
  destruct (fi_data _ _ _ _ Hf k ltac:(lia) Hnz) as [Hd Hu].
  apply (kp_keep _ _ _ _ _ _ (bm_kept _ _ _ _ _ _ _ _ _ _ Hb)). right. split_and!; [apply Hd|apply Hd|done|].
  rewrite <-(slot_268 D). intros E. apply (fi_inj _ _ _ _ Hf) in E; lia.
Qed.

Lemma wr_inv_bmap tot D l lg X bn x D' l' lg' :
  wr_inv tot D l lg X → 0 ≤ bn < 268 → bmapped sb dstart D l lg bn x D' l' lg' → wr_inv tot D' l' lg' ({[x]} ∪ X).
Proof.
  intros Hw Hbn Hb. destruct (decide (slot D l bn = 0)) as [H0|H0].
  2:{ destruct (bm_old _ _ _ _ _ _ _ _ _ _ Hb H0) as (_ & -> & -> & ->). destruct Hw. constructor; try done. sub_tauto. }
  pose proof Hb as [B1 B2 _ B4 _ B6 B7]. destruct B6 as [K1 K2 K3].
  assert (Hmono : ∀ b, 0 ≤ b < sb_size sb → used sb D b = false → used sb D0 b = false).
  { intros b Hb' Hu. destruct (used sb D0 b) eqn:E; [|done]. by rewrite (wi_used _ _ _ _ _ Hw) in Hu. }
  assert (Hrange : ∀ k, 0 ≤ k ≤ 268 → slot D' l' k ≠ 0 → 0 ≤ slot D' l' k < sb_size sb).
  { intros k Hk Hnz. destruct (fi_data _ _ _ _ B1 k Hk Hnz) as [Hd _]. unfold is_data in Hd. lia. }
  constructor; [done| | | | | | |].
  - intros b Hb' Hu. apply K1; [done|]. by apply (wi_used _ _ _ _ _ Hw).
  - intros k Hk Hnz. rewrite B2 by done. case_decide as E; [|by apply (wi_slot _ _ _ _ _ Hw)].
    subst. by rewrite (wi_slot _ _ _ _ _ Hw) in H0.
  - intros k Hk Hnz. destruct (decide (k = 268)) as [->|].
    + rewrite !slot_268 in *. destruct K3 as [K3|(K3 & K4 & K5)]; [|right; by apply Hmono].
      rewrite K3 in *. by apply (wi_new _ _ _ _ _ Hw 268).
    + specialize (Hrange k Hk Hnz). rewrite B2 in * by lia. case_decide as E; [|by apply (wi_new _ _ _ _ _ Hw)].
      right. destruct (B4 H0 Hnz) as [Hu _]. by apply Hmono.
  - intros k Hk Hlt. pose proof (wi_map _ _ _ _ _ Hw k Hk Hlt). rewrite B2 by done. case_decide; [congruence|done].
  - intros o Ho Hnz. assert (Hk : 0 ≤ o / 1024 < 268) by dlia. destruct (decide (o / 1024 = bn)) as [E|E].
    + unfold fbyte. rewrite B2, decide_True in Hnz |- * by done. destruct (B4 H0 Hnz) as [_ ->].
      unfold zeros. rewrite znth_replicate by dlia. rewrite E.
      destruct (_ && _) eqn:Ein; [exfalso; apply (wi_map _ _ _ _ _ Hw bn Hbn); [dlia|done]|].
      destruct (slot D0 l0 bn =? 0) eqn:E0; [done|]. exfalso. apply (wi_slot _ _ _ _ _ Hw) in Hbn; lia.
    + assert (Hnz' : slot D l (o / 1024) ≠ 0) by (by rewrite B2, decide_False in Hnz).
      rewrite <-(wi_byte _ _ _ _ _ Hw o) by done. unfold fbyte. f_equal.
      eapply bmapped_block; try done. apply Hw.
  - intros b Hb'. rewrite <-(wi_keep _ _ _ _ _ Hw) by done. apply K2. destruct Hb' as [Hb'|(Hb' & Hu & Hout)]; [by left|right].
    split_and!; [lia|lia|apply (wi_used _ _ _ _ _ Hw); [lia|done]|]. intros ->.
    destruct (wi_new _ _ _ _ _ Hw 268) as [E|E]; rewrite ?slot_268 in *; [lia|lia| |congruence].
    by apply (Hout 268); [lia|].
  - destruct K3 as [K3|(K3 & _ & _)]; pose proof (wi_lg _ _ _ _ _ Hw); rewrite K3 in *; sub_tauto.
Qed.

Lemma wr_lg_size tot D l lg X :
  wr_inv tot D l lg X → Z.of_nat (size lg) ≤ Z.of_nat (size X) + 2 + Z.of_nat (nbmap sb) + Z.of_nat (size lg0).
Proof.
  clear HL Hoff Hds. intros Hw. pose proof (subseteq_size _ _ (wi_lg _ _ _ _ _ Hw)) as Hs.
  rewrite size_union_alt in Hs. set (Y := {[znth 0 l 12]} ∪ _) in *.
  assert (size (Y ∖ X) ≤ size Y)%nat by (apply subseteq_size; set_solver).
  pose proof (size_add (znth 0 l 12) ({[0]} ∪ (bmap_set sb ∪ lg0))). pose proof (size_add 0 (bmap_set sb ∪ lg0)).
  pose proof (size_bmap sb lg0 (bmap_set sb ∪ lg0) ltac:(done)). unfold Y in *. lia.
Qed.

Lemma wr_disk_ok tot D l lg X : disk_ok sb dstart D0 → wr_inv tot D l lg X → disk_ok sb dstart D.
Proof.
  intros Hok Hw b Hb Hu. apply Hok; [done|]. destruct (used sb D0 b) eqn:E; [|done].
  by rewrite (wi_used _ _ _ _ _ Hw) in Hu.
Qed.

(** One round's bytes. *)
Lemma znth_blk_write d o bs k :
  (o + length bs ≤ length d)%nat → 0 ≤ k →
  znth 0 (blk_write d o bs) k =
  if (Z.of_nat o <=? k) && (k <? Z.of_nat o + len bs) then znth 0 bs (k - Z.of_nat o) else znth 0 d k.
Proof.
  intros Hl Hk. unfold znth, len. destruct (k <? 0) eqn:?; [lia|]. rewrite lookup_blk_write by done.
  destruct ((Z.of_nat o <=? k) && (k <? Z.of_nat o + Z.of_nat (length bs))) eqn:E.
  - rewrite decide_True by lia. destruct (k - Z.of_nat o <? 0) eqn:?; [lia|]. do 2 f_equal. lia.
  - by rewrite decide_False by lia.
Qed.

Lemma written_byte tot d m p (o := off0 + tot) :
  length d = 1024%nat → 0 ≤ tot → 0 < m → o mod 1024 + m ≤ 1024 → tot + m ≤ len bytes → 0 ≤ p → p / 1024 = o / 1024 →
  znth 0 (blk_write d (Z.to_nat (o mod 1024)) (blk_read bytes (Z.to_nat tot) (Z.to_nat m))) (p mod 1024) =
  if (o <=? p) && (p <? o + m) then znth 0 bytes (p - off0) else znth 0 d (p mod 1024).
Proof.
  intros Hd Ht Hm Hle Hlen Hp E. assert (Ho : 0 ≤ o) by (unfold o; lia). pose proof (Z.mod_pos_bound o 1024 ltac:(lia)) as Hmod.
  assert (Hbl : len (blk_read bytes (Z.to_nat tot) (Z.to_nat m)) = m) by (unfold len in *; rewrite length_blk_read; lia).
  rewrite znth_blk_write by (unfold len in *; dlia). rewrite Hbl, Z2Nat.id by lia.
  replace ((o mod 1024 <=? p mod 1024) && (p mod 1024 <? o mod 1024 + m)) with ((o <=? p) && (p <? o + m)) by dlia.
  destruct ((o <=? p) && (p <? o + m)) eqn:E1; [|done]. unfold znth.
  destruct (p - off0 <? 0) eqn:?; [lia|]. destruct (p mod 1024 - o mod 1024 <? 0) eqn:?; [dlia|].
  f_equal. rewrite lookup_blk_read by dlia. f_equal. unfold o in *. dlia.
Qed.

Lemma wr_inv_write tot D l lg X bn x m (o := off0 + tot) (d := blk_write (D x) (Z.to_nat (o mod 1024)) (blk_read bytes (Z.to_nat tot) (Z.to_nat m))) :
  wr_inv tot D l lg X → wf_block (D x) → x ∈ X → x = slot D l bn → x ≠ 0 → bn = o / 1024 → 0 ≤ bn < 268 →
  0 ≤ tot → 0 < m → o mod 1024 + m ≤ 1024 → tot + m ≤ len bytes →
  wr_inv (tot + m) (<[x := d]> D) l ({[x]} ∪ lg) X.
Proof.
  intros Hw [Hwl _] HX Hx Hnz Hbn Hbn' Ht Hm Hle Hlen.
  destruct (fi_data _ _ _ _ (wi_inv _ _ _ _ _ Hw) bn ltac:(lia)) as [Hd Hu]; [congruence|]. rewrite <-Hx in Hd, Hu.
  assert (Hind : x ≠ znth 0 l 12).
  { rewrite <-(slot_268 D), Hx. intros E.
    assert (bn = 268) by (apply (fi_inj _ _ _ _ (wi_inv _ _ _ _ _ Hw)); [lia|lia|congruence|done]). lia. }
  assert (Hs : ∀ k, slot (<[x := d]> D) l k = slot D l k) by (intros; by apply slot_data).
  pose proof (Z.mod_pos_bound o 1024 ltac:(lia)) as Hmod.
  assert (Hot : 0 ≤ o) by (unfold o; lia).
  destruct Hw as [W1 W2 W3 W4 W5 W6 W7 W8]. constructor.
  - destruct W1 as [F1 F2 F3]. constructor; [done| |]; intros; rewrite ?Hs in *; [|by apply F3].
    destruct (F2 k) as [G1 G2]; [done..|]. split; [done|]. rewrite (used_data _ _ _ HL); [done..|]. unfold is_data in G1. lia.
  - intros b Hb Hb'. rewrite (used_data _ _ _ HL) by done. by apply W2.
  - intros k Hk Hk'. rewrite Hs. by apply W3.
  - intros k Hk. rewrite Hs. by apply W4.
  - intros k Hk Hlt. rewrite Hs. destruct (decide (k * 1024 < Z.max sz (off0 + tot))); [by apply W5|].
    assert (k = bn) as -> by (unfold o in *; dlia). congruence.
  - intros p Hp. rewrite Hs. intros Hps. unfold fbyte. rewrite Hs. destruct (decide (p / 1024 = bn)) as [E|E].
    + rewrite E, <-Hx, fn_lookup_insert. unfold d.
      pose proof (written_byte tot (D x) m p) as Hwb. cbv zeta in Hwb. fold o in Hwb. rewrite Hwb by (done || lia).
      specialize (W6 p Hp Hps). unfold fbyte in W6. rewrite E, <-Hx in W6. rewrite W6.
      destruct ((o <=? p) && (p <? o + m)) eqn:E1; [by replace ((off0 <=? p) && _) with true by (unfold o in *; lia)|].
      by replace ((off0 <=? p) && (p <? off0 + (tot + m))) with ((off0 <=? p) && (p <? off0 + tot)) by (unfold o in *; lia).
    + rewrite fn_lookup_insert_ne.
      * specialize (W6 p Hp Hps). unfold fbyte in W6. rewrite W6.
        replace ((off0 <=? p) && (p <? off0 + (tot + m))) with ((off0 <=? p) && (p <? off0 + tot)) by (unfold o in *; dlia). done.
      * rewrite Hx. intros E'. apply E. symmetry. apply (fi_inj _ _ _ _ W1); [lia|dlia|congruence|done].
  - intros b Hb. rewrite fn_lookup_insert_ne; [by apply W7|]. unfold is_data in Hd.
    destruct Hb as [Hb|(Hb & Hub & Hout)]; [destruct HL; rewrite ?BPB_eq in *; dlia|]. intros ->.
    destruct (W4 bn ltac:(lia)) as [E|E]; rewrite <-Hx in *; [done| |congruence]. by apply (Hout bn); [lia|].
  - intros z Hz. apply elem_of_union in Hz as [->%elem_of_singleton|Hz]; [by apply elem_of_union_l|by apply W8].
Qed.
End writing.

(** The rest of the state with other memory contents. *)
Definition r_ku {U} (ku : kustate U) (r : frest U) : frest U := mkfrest (fr_sb r) (fr_itlock r) (fr_inode r) ku.

Section io.
  Context {F H U : Type} `{TX : Txn F H} `{UM : UserMem U} (dev : Z) `{TXS : !TxnSpec F H dev}.
  Context (Hdev : 0 ≤ dev < 4294967296) (Hhome : ∀ b, t_home b → 0 ≤ b < 4294967296).
  Context (sb : superblock) (dstart : Z) (HL : layout t_home sb dstart).
  Implicit Types (D : Z → list Z) (lg : gset Z) (r : frest U).

Lemma fwp_ku {A T} (m : M (kustate U) A) a ku' (k : A → M (fstate F U) T) D held lg r Q :
  m (fr_ku r) = Ok a ku' → fwp dev (k a) (mkfabs D held lg (r_ku ku' r)) Q →
  fwp dev (bind (zoom kuL m) k) (mkfabs D held lg r) Q.
Proof.
  intros Hm Hk. apply awp_call. intros [io r'] [HR Hr]. cbn in *. subst r'.
  exists a, (mkfstate io (r_ku ku' r)), (mkfabs D held lg (r_ku ku' r)). split_and!; [|by split|done].
  unfold zoom. cbn [view kuL fs_rest]. by rewrite Hm.
Qed.

(** ** readi *)

Section readi.
  Context (ip user_dst dst : Z) (r0 : frest U).
Let i := r_geti r0 ip.
  Context (Hlen : len (fr_inode r0) = NINODE) (Hip : iptr ip) (Hsb : fr_sb r0 = sb) (Hidev : i_dev i = dev).
  (** [W bs ku]: the bytes [bs] have been copied out. *)
  Context (W : list Z → kustate U → Prop) (nmax : Z).
  Context (HW : ∀ bs bs' ku, W bs ku → len bs + len bs' ≤ nmax → is_bytes bs' →
    ∃ ku', either_copyout user_dst (dst + len bs) bs' ku = Ok 0 ku' ∧ W (bs ++ bs') ku').

Lemma fwp_readi_loop {T} fuel tot off0 n (k : Z → M (fstate F U) T) D lg ku Q (off := off0 + tot) :
  disk_ok sb dstart D → file_inv sb dstart D (i_addrs i) → 0 ≤ off0 → 0 ≤ tot ≤ n → n ≤ nmax → off0 + n ≤ 274432 →
  (∀ j, 0 ≤ j < 268 → j * 1024 < off0 + n → slot D (i_addrs i) j ≠ 0) → Z.of_nat (size lg) ≤ 28 →
  rounds off (n - tot) + 1 ≤ Z.of_nat fuel →
  W (fbytes D (i_addrs i) off0 (Z.to_nat tot)) ku →
  (∀ ku', W (fbytes D (i_addrs i) off0 (Z.to_nat n)) ku' → fwp dev (k n) (mkfabs D ∅ lg (r_ku ku' r0)) Q) →
  fwp dev (bind (readi_loop fuel ip user_dst (dst + tot) off n tot) k) (mkfabs D ∅ lg (r_ku ku r0)) Q.
Proof.
  intros Hok Hf Ho Htot Hn Hmax Hmap Hsz Hfuel HWt Hk. revert tot off ku Htot Hfuel HWt.
  induction fuel as [|fuel IH]; intros tot off ku Htot Hfuel HWt.
  { exfalso. pose proof (rounds_nonneg off (n - tot)). lia. }
  cbn [readi_loop].
  destruct (tot <? n) eqn:Et; cbn [negb].
  2:{ replace tot with n in * by lia. apply awp_skip. by apply Hk. }
  assert (Hbn : 0 ≤ off / 1024 < 268) by (unfold off; dlia).
  pose proof (Hmap (off / 1024) Hbn ltac:(unfold off; dlia)) as Hnz.
  apply awp_assoc. change BSIZE with 1024.
  apply (fwp_bmap_mapped dev Hdev Hhome sb dstart HL); try done.
  change (i_addrs (r_geti (r_ku ku r0) ip)) with (i_addrs i). set (b := slot D (i_addrs i) (off / 1024)) in *.
  destruct (b =? 0) eqn:Eb; [lia|]. apply awp_assoc, fwp_get. intros io _. unfold geti. cbn [fs_rest].
  change (r_geti (r_ku ku r0) ip) with i. rewrite Hidev. apply awp_assoc.
  destruct (fi_data _ _ _ _ Hf (off / 1024) ltac:(lia) Hnz) as [Hbd Hbu].
  apply fwp_bread; try done; [by apply (data_home _ _ _ HL)|rewrite map_size_empty; unfold NBUF, MAXOPBLOCKS; lia|].
  intros h Hwf. apply awp_assoc, fwp_get. intros io1 HR1.
  rewrite (fdata dev D _ lg _ io1 b h (D b) HR1 (lookup_insert_eq _ _ _)).
  set (m := Z.min (n - tot) (1024 - off mod 1024)). pose proof (Z.mod_pos_bound off 1024 ltac:(lia)) as Hmod.
  assert (Hm : 0 < m ≤ n - tot) by lia. 
  pose proof (blk_read_fbytes D (i_addrs i) off m) as Hrd. cbv zeta in Hrd. fold b in Hrd.
  rewrite Hrd by first [done|lia|unfold off; lia].
  destruct (HW (fbytes D (i_addrs i) off0 (Z.to_nat tot)) (fbytes D (i_addrs i) off (Z.to_nat m)) ku) as (ku' & E & HW'); [done| | |].
  { rewrite !len_fbytes. lia. }
  { rewrite <-Hrd by first [done|lia|unfold off; lia]. apply Forall_take, Forall_drop, Hwf. }
  rewrite len_fbytes, Z2Nat.id in E by lia. apply awp_assoc. eapply fwp_ku; [exact E|]. apply awp_assoc.
  eapply fwp_brelse; [apply lookup_insert_eq|done|]. rewrite delete_insert_id by done. cbn [Z.eqb].
  rewrite u32_id by (unfold off; lia). rewrite <-Z.add_assoc. replace (off + m) with (off0 + (tot + m)) by (unfold off; lia).
  apply (IH (tot + m)); [lia| |].
  - rewrite rounds_step in Hfuel by (unfold off; lia). fold m in Hfuel.
    replace (off0 + (tot + m)) with (off + m) by (unfold off; lia). replace (n - (tot + m)) with (n - tot - m) by lia. lia.
  - replace (Z.to_nat (tot + m)) with (Z.to_nat tot + Z.to_nat m)%nat by lia.
    rewrite fbytes_app, Z2Nat.id by lia. exact HW'.
Qed.

(** The number of bytes [readi] delivers. *)
Definition rd_count (sz off n : Z) : Z := if (sz <? off) || (4294967296 <=? off + n) then 0 else Z.min n (sz - off).

Lemma fwp_readi {T} off n (k : Z → M (fstate F U) T) D lg ku Q (c := rd_count (i_size i) off n) :
  disk_ok sb dstart D → file_ok sb dstart D i → 0 ≤ off < 4294967296 → 0 ≤ n < 4294967296 → c ≤ nmax →
  Z.of_nat (size lg) ≤ 28 → W [] ku →
  (∀ ku', W (fbytes D (i_addrs i) off (Z.to_nat c)) ku' → (c = 0 → ku' = ku) → fwp dev (k c) (mkfabs D ∅ lg (r_ku ku' r0)) Q) →
  fwp dev (bind (readi ip user_dst dst off n) k) (mkfabs D ∅ lg (r_ku ku r0)) Q.
Proof.
  intros Hok [Hf Hs Hmap] Ho Hn Hnm Hsz HW0 Hk. unfold readi. apply awp_assoc, fwp_get. intros io _.
  unfold geti. cbn [fs_rest]. change (r_geti (r_ku ku r0) ip) with i.
  assert (Hov : (u32 (off + n) <? off) = (4294967296 <=? off + n)) by (unfold u32; dlia). rewrite Hov.
  unfold c, rd_count in *. destruct (_ || _) eqn:E; [apply awp_skip; by apply Hk|].
  rewrite u32_id by lia. rewrite (u32_id (i_size i - off)) by lia.
  assert (Hc : (if i_size i <? off + n then i_size i - off else n) = Z.min n (i_size i - off)).
  { destruct (i_size i <? off + n) eqn:?; lia. }
  rewrite Hc. set (c' := Z.min n (i_size i - off)) in *. apply awp_assoc. destruct (decide (c' = 0)) as [E0|E0].
  { rewrite E0 in *. unfold io_fuel. cbn [Z.to_nat]. apply awp_skip. by apply Hk. }
  replace dst with (dst + 0) by lia. replace off with (off + 0) at 1 by lia.
  apply fwp_readi_loop; try done; [lia..| | |].
  - intros j Hj Hjc. apply Hmap; lia.
  - rewrite Z.add_0_r, Z.sub_0_r. apply rounds_fuel. lia.
  - intros ku' HW'. apply awp_skip. rewrite s32_id by lia. apply Hk; [done|lia].
Qed.
End readi.

(** ** writei *)

Section writei.
  Context (ip user_src src : Z) (r0 : frest U).
Let i := r_geti r0 ip.
  Context (Hlen : len (fr_inode r0) = NINODE) (Hip : iptr ip) (Hsb : fr_sb r0 = sb) (Hidev : i_dev i = dev).
  (** [P] holds while the bytes [bytes] can be copied in from [src]. *)
  Context (P : kustate U → Prop) (bytes : list Z) (Hbytes : is_bytes bytes).
  Context (HP : ∀ ku o m, P ku → 0 ≤ o → 0 ≤ m → o + m ≤ len bytes →
    ∃ ku', either_copyin user_src (src + o) m ku = Ok (0, blk_read bytes (Z.to_nat o) (Z.to_nat m)) ku' ∧ P ku').
  Context (D0 : Z → list Z) (lg0 : gset Z) (off0 : Z).
Let n := len bytes.
Let l0 := i_addrs i.
Let sz := i_size i.
  Context (Hok : disk_ok sb dstart D0) (Hoff : 0 ≤ off0 ≤ sz) (Hmax : off0 + n ≤ 274432).

Abbreviation winv := (wr_inv sb dstart D0 l0 lg0 sz off0 bytes).

Lemma fwp_writei_loop {T} fuel tot (k : Z * Z → M (fstate F U) T) D l lg X ku Q (off := off0 + tot) :
  winv tot D l lg X → P ku → 0 ≤ tot ≤ n → rounds off (n - tot) + 1 ≤ Z.of_nat fuel →
  Z.of_nat (size X) + rounds off (n - tot) + Z.of_nat (nbmap sb) + Z.of_nat (size lg0) + 2 ≤ 22 →
  (∀ tot' D' l' lg' X' ku', winv tot' D' l' lg' X' → P ku' → tot ≤ tot' ≤ n → Z.of_nat (size lg') ≤ 24 →
     (tot' < n → ∀ b, 0 ≤ b < sb_size sb → used sb D' b = true) →
     fwp dev (k (tot', off0 + tot')) (mkfabs D' ∅ lg' (with_addrs ip (r_ku ku' r0) l')) Q) →
  fwp dev (bind (writei_loop fuel ip user_src (src + tot) off n tot) k)
          (mkfabs D ∅ lg (with_addrs ip (r_ku ku r0) l)) Q.
Proof.
  revert tot D l lg X ku off. induction fuel as [|fuel IH]; intros tot D l lg X ku off Hw HPk Htot Hfuel Hroom Hk.
  { exfalso. pose proof (rounds_nonneg off (n - tot)). lia. }
  destruct (dstart_pos dev sb dstart HL) as [Hds _].
  pose proof (wr_lg_size sb dstart D0 l0 lg0 sz off0 bytes tot D l lg X Hw) as Hlg. pose proof (rounds_nonneg off (n - tot)) as Hr0.
  cbn [writei_loop]. destruct (tot <? n) eqn:Et; cbn [negb].
  2:{ apply awp_skip. apply (Hk tot D l lg X ku); try done; lia. }
  assert (Hbn : 0 ≤ off / 1024 < 268) by (unfold off; dlia). apply awp_assoc. change BSIZE with 1024.
  pose proof (wr_disk_ok sb dstart D0 l0 lg0 sz off0 bytes tot D l lg X Hok Hw) as Hok'.
  apply (fwp_bmap dev Hdev Hhome sb dstart HL); try done; [apply Hw|lia|lia|].
  intros x D' l' lg' Hb. pose proof (wr_inv_bmap sb dstart D0 l0 lg0 sz off0 bytes Hoff Hds tot D l lg X _ x D' l' lg' Hw Hbn Hb) as Hw'.
  pose proof (wr_lg_size sb dstart D0 l0 lg0 sz off0 bytes tot D' l' lg' _ Hw') as Hlg'. pose proof (size_add x X) as HszX.
  rewrite rounds_step in Hfuel, Hroom by (unfold off; lia).
  set (m := Z.min (n - tot) (1024 - off mod 1024)) in *. pose proof (rounds_nonneg (off + m) (n - tot - m)) as Hr1.
  destruct (x =? 0) eqn:Ex.
  { apply awp_skip. apply (Hk tot D' l' lg' ({[x]} ∪ X) ku); try done; [lia|lia|]. intros _. apply (bm_full _ _ _ _ _ _ _ _ _ _ Hb). lia. }
  assert (Hxs : x = slot D' l' (off / 1024)) by (by rewrite (bm_slot _ _ _ _ _ _ _ _ _ _ Hb), decide_True).
  destruct (fi_data _ _ _ _ (wi_inv _ _ _ _ _ _ _ _ _ _ _ _ _ Hw') (off / 1024)) as [Hxd _]; [lia|lia|]. rewrite <-Hxs in Hxd.
  apply awp_assoc, fwp_get. intros io _. unfold geti. cbn [fs_rest]. rewrite (geti_with ip (r_ku ku r0)) by done.
  cbn [i_dev set_i_addrs]. change (i_dev (r_geti (r_ku ku r0) ip)) with (i_dev i). rewrite Hidev. apply awp_assoc.
  apply fwp_bread; try done; [by apply (data_home _ _ _ HL)|rewrite map_size_empty; unfold NBUF, MAXOPBLOCKS; lia|].
  intros h Hwf. apply awp_assoc. pose proof (Z.mod_pos_bound off 1024 ltac:(lia)) as Hmod.
  destruct (HP ku tot m HPk) as (ku' & E & HPk'); [lia..|]. eapply fwp_ku; [exact E|].
  change (r_ku ku' (with_addrs ip (r_ku ku r0) l')) with (with_addrs ip (r_ku ku' r0) l'). cbv beta iota.
  apply awp_assoc, fwp_get. intros io1 HR1. rewrite (fdata dev D' _ lg' _ io1 x h (D' x) HR1 (lookup_insert_eq _ _ _)).
  set (d := blk_write (D' x) _ _). apply awp_assoc. eapply fwp_set_data; [apply lookup_insert_eq| |].
  { unfold d, n, len in *. apply wf_blk_write; [done|rewrite length_blk_read; lia|]. by apply Forall_take, Forall_drop. }
  rewrite insert_insert_eq. cbn [Z.eqb]. apply awp_assoc.
  eapply fwp_log_write; [apply lookup_insert_eq|unfold LOGBLOCKS, MAXOPBLOCKS; lia|]. apply awp_assoc.
  eapply fwp_brelse; [apply lookup_insert_eq|by rewrite fn_lookup_insert|]. rewrite delete_insert_id by done.
  rewrite u32_id by (unfold off; lia). rewrite <-Z.add_assoc. replace (off + m) with (off0 + (tot + m)) by (unfold off; lia).
  apply (IH _ _ _ _ ({[x]} ∪ X)).
  - apply (wr_inv_write sb dstart t_home HL D0 l0 lg0 sz off0 bytes Hoff Hds tot D' l' lg' ({[x]} ∪ X) (off / 1024) x m); try done; try lia;
      [by apply elem_of_union_l, elem_of_singleton_2|fold off; lia].
  - done.
  - lia.
  - replace (off0 + (tot + m)) with (off + m) by (unfold off; lia). replace (n - (tot + m)) with (n - tot - m) by lia. lia.
  - replace (off0 + (tot + m)) with (off + m) by (unfold off; lia). replace (n - (tot + m)) with (n - tot - m) by lia. lia.
  - intros tot' D2 l2 lg2 X2 ku2 H1 H2 H3. apply (Hk tot' D2 l2 lg2 X2); [done|done|lia].
Qed.

(** The inode after [tot] bytes were written. *)
Definition written (tot : Z) (l : list Z) : inode := set_i_size (Z.max sz (off0 + tot)) (set_i_addrs l i).

Lemma written_wf tot D l lg X :
  dinode_wf (dinode_of i) → winv tot D l lg X → 0 ≤ tot ≤ n → sz ≤ 274432 → dinode_wf (dinode_of (written tot l)).
Proof.
  intros [W1 W2 W3 W4 W5 W6 W7] Hw Ht Hs. pose proof (wi_inv _ _ _ _ _ _ _ _ _ _ _ _ _ Hw) as [F1 F2 F3].
  constructor; try done; cbn.
  - lia.
  - unfold len in F1. lia.
  - apply Forall_lookup. intros k a Hka. assert (Hk : (k < 13)%nat) by (apply lookup_lt_Some in Hka; unfold len in F1; lia).
    assert (Ha : znth 0 l (Z.of_nat k) = a) by (apply znth_lookup; [lia|by rewrite Nat2Z.id]).
    assert (Hs' : ∃ j, 0 ≤ j ≤ 268 ∧ slot D l j = a).
    { destruct (decide (k = 12%nat)) as [->|]; [exists 268; by rewrite slot_268|].
      exists (Z.of_nat k). split; [lia|]. unfold slot. by destruct (Z.of_nat k <? 12) eqn:?; [|lia]. }
    destruct Hs' as (j & Hj & <-). destruct (decide (slot D l j = 0)) as [->|Hnz]; [lia|].
    destruct (F2 j Hj Hnz) as [Hd _]. unfold is_data in Hd. pose proof (lay_size _ _ _ HL). pose proof (dstart_pos dev sb dstart HL). lia.
Qed.

Lemma fwp_writei {T} (k : Z → M (fstate F U) T) ku Q (IB := IBLOCK (i_inum i) sb) :
  file_ok sb dstart D0 i → dinode_wf (dinode_of i) → 0 ≤ i_inum i < sb_ninodes sb → P ku →
  rounds off0 n + Z.of_nat (nbmap sb) + Z.of_nat (size lg0) + 2 ≤ 22 →
  (∀ tot D l lg X ku', winv tot D l lg X → P ku' → 0 ≤ tot ≤ n → Z.of_nat (size lg) ≤ 24 →
     (tot < n → ∀ b, 0 ≤ b < sb_size sb → used sb D b = true) →
     fwp dev (k tot) (mkfabs (<[IB := put_dinode (D IB) (dinode_off (i_inum i)) (dinode_of (written tot l))]> D) ∅
                             ({[IB]} ∪ lg) (r_seti ip (written tot l) (r_ku ku' r0))) Q) →
  fwp dev (bind (writei ip user_src src off0 n) k) (mkfabs D0 ∅ lg0 (r_ku ku r0)) Q.
Proof.
  intros [Hf Hs Hmap] Hwf Hin HPk Hroom Hk. unfold writei. apply awp_assoc, fwp_get. intros io _.
  unfold geti. cbn [fs_rest]. change (r_geti (r_ku ku r0) ip) with i. fold sz. pose proof (len_nonneg bytes) as Hn. fold n in Hn.
  rewrite u32_id by lia. destruct ((sz <? off0) || (off0 + n <? off0)) eqn:E1; [lia|].
  rewrite MAXFILE_eq. change BSIZE with 1024. destruct (268 * 1024 <? off0 + n) eqn:E2; [lia|]. apply awp_assoc.
  replace (r_ku ku r0) with (with_addrs ip (r_ku ku r0) l0) by (by apply (with_same ip (r_ku ku r0))).
  replace src with (src + 0) by lia. replace off0 with (off0 + 0) at 1 by lia.
  apply (fwp_writei_loop _ _ _ _ _ _ ∅); try done.
  - by apply wr_inv_start.
  - rewrite Z.add_0_r, Z.sub_0_r. by apply rounds_fuel.
  - rewrite Z.add_0_r, Z.sub_0_r, size_empty. lia.
  - intros tot D l lg X ku' Hw HPk' Ht Hlg Hfull. cbv beta iota.
    apply awp_assoc, fwp_get. intros io1 _. unfold geti. cbn [fs_rest]. rewrite (geti_with ip (r_ku ku' r0)) by done.
    cbn [i_size set_i_addrs]. change (i_size (r_geti (r_ku ku' r0) ip)) with sz.
    assert (Hupd : ∀ (k' : unit → M (fstate F U) T),
      fwp dev (k' tt) (mkfabs D ∅ lg (r_seti ip (written tot l) (r_ku ku' r0))) Q →
      fwp dev (bind (if sz <? off0 + tot then upd_i ip (set_i_size (off0 + tot)) else ret tt) k')
          (mkfabs D ∅ lg (with_addrs ip (r_ku ku' r0) l)) Q).
    { intros k' Hk'. unfold written in Hk'. destruct (sz <? off0 + tot) eqn:E3.
      - apply fwp_upd_i. rewrite (geti_with ip (r_ku ku' r0)) by done. unfold with_addrs. rewrite seti_seti.
        replace (Z.max sz (off0 + tot)) with (off0 + tot) in Hk' by lia. exact Hk'.
      - apply awp_skip. replace (Z.max sz (off0 + tot)) with sz in Hk' by lia.
        exact Hk'. }
    apply awp_assoc, Hupd. apply awp_assoc.
    assert (Hg : r_geti (r_seti ip (written tot l) (r_ku ku' r0)) ip = written tot l) by (by rewrite geti_seti, decide_True).
    apply (fwp_iupdate dev Hdev Hhome sb dstart HL); rewrite ?Hg; try done; [by eapply written_wf; try done; lia|rewrite map_size_empty; lia|].
    apply awp_skip. rewrite s32_id by lia. by apply (Hk tot D l lg X).
Qed.
End writei.
End io.
