(* ===== verification/FsContents.v ===== *)
(** kernel/fs.c: what [bmap], [readi] and [writei] do to a file.

    The theorems over the rules of FsFile.v: reading delivers the bytes of the
    file, writing replaces them and nothing else, and what was written is read
    back. *)

From stdpp Require Import base tactics list numbers strings gmap functions sets.
From S2P Require Import Prelude Param Bytes Spinlock Sleeplock BufSpec TxSpec UserSpec Fs FsWp Log FsDemo FsAlloc FsInode FsFile.
From Stdlib Require Import ZArith Lia.

Open Scope kernel_scope.

(** * Kernel memory as source and destination *)

(** Copied to [dst]: the bytes are there, the rest of memory is [m0]. *)
Definition kdst {U} (m0 : mem) (u0 : U) (dst : Z) (bs : list Z) (ku : kustate U) : Prop :=
  ku_user ku = u0 ∧ ∀ x, ldb (ku_kmem ku) x = if decide (dst ≤ x < dst + len bs) then znth 0 bs (x - dst) else ldb m0 x.

Lemma kdst_step {U} `{UM : UserMem U} m0 (u0 : U) dst bs bs' ku :
  kdst m0 u0 dst bs ku → is_bytes bs' →
  ∃ ku', either_copyout 0 (dst + len bs) bs' ku = Ok 0 ku' ∧ kdst m0 u0 dst (bs ++ bs') ku'.
Proof.
  intros [Hu Hm] Hb. eexists. split; [done|]. split; [done|]. intros x. cbn. rewrite ldb_write, len_app.
  pose proof (len_nonneg bs). pose proof (len_nonneg bs').
  destruct (decide (dst + len bs ≤ x < dst + len bs + len bs')).
  - rewrite decide_True by lia. rewrite znth_app_r by lia. rewrite u8_byte; [f_equal; lia|].
    unfold is_bytes in Hb. rewrite Forall_forall in Hb. apply Hb. apply znth_In. lia.
  - rewrite Hm. case_decide; [rewrite decide_True, znth_app_l by lia|rewrite decide_False by lia]; done.
Qed.

Lemma kdst_nil {U} m0 (u0 : U) dst : kdst m0 u0 dst [] (mkku m0 u0).
Proof. split; [done|]. intros x. rewrite decide_False; [done|]. unfold len. cbn. lia. Qed.

(** The bytes to be written are at [src]. *)
Definition ksrc {U} (src : Z) (bytes : list Z) (ku : kustate U) : Prop :=
  mem_read (ku_kmem ku) src (length bytes) = bytes.

Lemma ksrc_step {U} `{UM : UserMem U} src bytes (ku : kustate U) o m :
  ksrc src bytes ku → 0 ≤ o → 0 ≤ m → o + m ≤ len bytes →
  ∃ ku', either_copyin 0 (src + o) m ku = Ok (0, blk_read bytes (Z.to_nat o) (Z.to_nat m)) ku' ∧ ksrc src bytes ku'.
Proof.
  intros Hs Ho Hm Hle. exists ku. split; [|done]. unfold either_copyin, bind, get, ret. cbn. do 2 f_equal.
  unfold len in Hle. apply list_eq_same_length with (n := Z.to_nat m).
  - apply length_blk_read. lia.
  - apply length_mem_read.
  - intros i x y Hi Hx Hy. rewrite lookup_blk_read in Hy by done. rewrite lookup_mem_read in Hx by done.
    unfold ksrc in Hs. rewrite <-Hs, lookup_mem_read in Hy by lia. simplify_eq. f_equal. lia.
Qed.

(** * Theorems *)

Section theorems.
  Context {F H U : Type} `{TX : Txn F H} `{UM : UserMem U} (dev : Z) `{TXS : !TxnSpec F H dev}.
  Context (sb : superblock) (dstart : Z).
  Implicit Types (D : Z → list Z) (lg : gset Z).

(** The inode [ip] of the state [s] is open on device [dev], with contents on
    the disk [D]. *)
Record file_open (s : fstate F U) D lg (ip : Z) : Prop := {
  op_dev : 0 ≤ dev < 4294967296;
  op_home : ∀ b, t_home b → 0 ≤ b < 4294967296;
  op_layout : layout t_home sb dstart;
  op_rep : t_rep D ∅ lg (fs_io s);
  op_sb : fr_sb (fs_rest s) = sb;
  op_it : it_ok (fs_rest s);
  op_ip : iptr ip;
  op_idev : i_dev (geti s ip) = dev;
  op_inum : 0 ≤ i_inum (geti s ip) < sb_ninodes sb;
  op_wf : dinode_wf (dinode_of (geti s ip));
  op_disk : disk_ok sb dstart D;
  op_file : file_ok sb dstart D (geti s ip);
}.

Lemma readi_run (s : fstate F U) D lg ip user_dst dst off n (W : list Z → kustate U → Prop)
    (i := geti s ip) (c := rd_count (i_size i) off n) :
  file_open s D lg ip → 0 ≤ off < 4294967296 → 0 ≤ n < 4294967296 → Z.of_nat (size lg) ≤ 28 →
  (∀ bs bs' ku, W bs ku → len bs + len bs' ≤ c → is_bytes bs' →
     ∃ ku', either_copyout user_dst (dst + len bs) bs' ku = Ok 0 ku' ∧ W (bs ++ bs') ku') →
  W [] (fr_ku (fs_rest s)) →
  ∃ s' ku', readi ip user_dst dst off n s = Ok c s' ∧ t_rep D ∅ lg (fs_io s') ∧ fs_rest s' = r_ku ku' (fs_rest s) ∧
    W (fbytes D (i_addrs i) off (Z.to_nat c)) ku'.
Proof.
  intros [Hdev Hhome HL HR Hsb Hit Hip Hd Hin Hwf Hok Hf] Ho Hn Hsz HW HW0.
  destruct s as [io r]. unfold geti in *. cbn [fs_io fs_rest] in *.
  assert (Hw : fwp dev (readi ip user_dst dst off n) (mkfabs D ∅ lg r) (λ x a, x = c ∧
    ∃ ku', W (fbytes D (i_addrs i) off (Z.to_nat c)) ku' ∧ a = mkfabs D ∅ lg (r_ku ku' r))).
  { apply awp_tail. replace r with (r_ku (fr_ku r) r) at 1 by (by destruct r).
    apply (fwp_readi dev Hdev Hhome sb dstart HL ip user_dst dst r) with (W := W) (nmax := c); try done; [apply Hit|].
    intros ku' Hku' _. apply awp_ret. split; [done|]. by exists ku'. }
  destruct (awp_run _ _ _ _ (mkfstate io r) Hw) as (x & [io' r'] & a & E & [HR' Hr'] & -> & ku' & HW' & ->); [by split|].
  cbn in *. subst r'. by exists (mkfstate io' (r_ku ku' r)), ku'.
Qed.

(** [readi] copies out the bytes of the file from [off] on, as many as asked
    for and as there are (none past the end or when the range overflows), to
    any destination that takes them, and changes neither the disk nor the
    inode. *)
Theorem readi_spec (s : fstate F U) D lg ip user_dst dst off n (W : list Z → kustate U → Prop)
    (i := geti s ip) (c := rd_count (i_size i) off n) :
  file_open s D lg ip → 0 ≤ off < 4294967296 → 0 ≤ n < 4294967296 → Z.of_nat (size lg) ≤ 28 →
  (∀ bs bs' ku, W bs ku → len bs + len bs' ≤ c → is_bytes bs' →
     ∃ ku', either_copyout user_dst (dst + len bs) bs' ku = Ok 0 ku' ∧ W (bs ++ bs') ku') →
  W [] (fr_ku (fs_rest s)) →
  ∃ s' ku', readi ip user_dst dst off n s = Ok c s' ∧ t_rep D ∅ lg (fs_io s') ∧ fs_rest s' = r_ku ku' (fs_rest s) ∧
    W (fbytes D (i_addrs i) off (Z.to_nat c)) ku'.
Proof. intros. by apply readi_run. Qed.

(** The effect of writing the first [tot] of [bytes] at [off]: the size grows to
    cover them, they are in place, every other byte of the file, every other
    inode, and every block in use that is not of this file are as before. *)
Record file_written D D' (i i' : inode) (off tot : Z) (bytes : list Z) : Prop := {
  fw_size : i_size i' = Z.max (i_size i) (off + tot);
  fw_byte : ∀ o, 0 ≤ o < i_size i' → fbyte D' (i_addrs i') o =
    if (off <=? o) && (o <? off + tot) then znth 0 bytes (o - off) else fbyte D (i_addrs i) o;
  fw_disk : ∀ j, 0 ≤ j < sb_ninodes sb → dinode_at sb D' j = if decide (j = i_inum i) then dinode_of i' else dinode_at sb D j;
  fw_keep : ∀ b, dstart ≤ b < sb_size sb → used sb D b = true → (∀ k, 0 ≤ k ≤ 268 → slot D (i_addrs i) k ≠ b) → D' b = D b;
  fw_used : ∀ b, 0 ≤ b < sb_size sb → used sb D b = true → used sb D' b = true;
  fw_same : set_i_size 0 (set_i_addrs [] i') = set_i_size 0 (set_i_addrs [] i);
}.

(** An update of an inode block, seen from a file. *)
Lemma slot_inode_block D l b d k :
  layout t_home sb dstart → file_inv sb dstart D l → b < dstart → 0 ≤ k ≤ 268 →
  slot (<[b := d]> D) l k = slot D l k.
Proof.
  intros HL Hf Hb Hk. destruct (decide (b = znth 0 l 12)) as [->|]; [|by apply slot_data].
  destruct (decide (znth 0 l 12 = 0)) as [E|E].
  - unfold slot. rewrite E. done.
  - destruct (fi_data _ _ _ _ Hf 268 ltac:(lia) E) as [Hd _]. rewrite slot_268 in Hd. unfold is_data in Hd. lia.
Qed.

Lemma file_ok_inode_block D b d i :
  layout t_home sb dstart → file_ok sb dstart D i → b < sb_bmapstart sb → file_ok sb dstart (<[b := d]> D) i.
Proof.
  intros HL [Hf Hs Hm] Hb. assert (Hbd : b < dstart) by (destruct HL; rewrite ?BPB_eq in *; dlia).
  assert (Hsl : ∀ k, 0 ≤ k ≤ 268 → slot (<[b := d]> D) (i_addrs i) k = slot D (i_addrs i) k)
    by (intros; by apply slot_inode_block).
  assert (Hu : ∀ x, 0 ≤ x < sb_size sb → used sb (<[b := d]> D) x = used sb D x).
  { intros x Hx. unfold used. pose proof (BBLOCK_range _ _ _ HL x Hx). by rewrite fn_lookup_insert_ne by lia. }
  pose proof (dstart_pos dev sb dstart HL) as [Hds _]. destruct Hf as [F1 F2 F3].
  constructor; [constructor; [done| |]|done|]; intros; rewrite ?Hsl in * by lia.
  - destruct (F2 k) as [G1 G2]; [done..|]. split; [done|]. unfold is_data in G1. by rewrite Hu by lia.
  - by apply F3.
  - by apply Hm.
Qed.

Lemma disk_ok_inode_block D b d :
  layout t_home sb dstart → disk_ok sb dstart D → b < sb_bmapstart sb → disk_ok sb dstart (<[b := d]> D).
Proof.
  intros HL Hok Hb x Hx Hu. apply Hok; [done|]. unfold used in *. pose proof (BBLOCK_range _ _ _ HL x Hx).
  by rewrite fn_lookup_insert_ne in Hu by lia.
Qed.

Lemma written_file D D1 l1 lg lg1 X i off tot bytes (IB := IBLOCK (i_inum i) sb)
    (i' := set_i_size (Z.max (i_size i) (off + tot)) (set_i_addrs l1 i))
    (D' := <[IB := put_dinode (D1 IB) (dinode_off (i_inum i)) (dinode_of i')]> D1) :
  layout t_home sb dstart → file_ok sb dstart D i → 0 ≤ off ≤ i_size i → 0 ≤ tot → off + tot ≤ 274432 → 0 ≤ i_inum i < sb_ninodes sb →
  wr_inv sb dstart D (i_addrs i) lg (i_size i) off bytes tot D1 l1 lg1 X → wf_block (D1 IB) → dinode_wf (dinode_of i') →
  file_written D D' i i' off tot bytes ∧ file_ok sb dstart D' i'.
Proof.
  intros HL [Hf Hs Hm] Ho Ht Hmax Hin Hw Hwb Hwf. pose proof (IBLOCK_range _ _ _ HL _ Hin) as Hir. fold IB in Hir.
  pose proof (lay_bmap _ _ _ HL) as Hbm. assert (HIBd : IB < dstart) by (destruct HL; rewrite ?BPB_eq in *; dlia).
  assert (Hok1 : file_ok sb dstart D1 i').
  { constructor; [apply Hw|cbn; lia|]. intros k Hk Hlt. apply (wi_map _ _ _ _ _ _ _ _ _ _ _ _ _ Hw); done. }
  split; [|by apply file_ok_inode_block; [..|lia]]. destruct Hw as [W1 W2 W3 W4 W5 W6 W7 W8].
  assert (Hsl : ∀ k, 0 ≤ k ≤ 268 → slot D' l1 k = slot D1 l1 k) by (intros; by apply slot_inode_block).
  constructor; [done| | | | |done].
  - intros o Ho'. change (i_size i') with (Z.max (i_size i) (off + tot)) in Ho'. change (i_addrs i') with l1.
    assert (Hok : slot D1 l1 (o / 1024) ≠ 0) by (apply W5; dlia).
    assert (Hb : D' (slot D1 l1 (o / 1024)) = D1 (slot D1 l1 (o / 1024))).
    { unfold D'. rewrite fn_lookup_insert_ne; [done|]. destruct (fi_data _ _ _ _ W1 (o / 1024) ltac:(dlia) Hok) as [Hd _].
      unfold is_data in Hd. lia. }
    unfold fbyte at 1. rewrite Hsl, Hb by dlia. fold (fbyte D1 l1 o). rewrite W6 by (done || lia).
    destruct (_ && _) eqn:E; [done|]. destruct (slot D (i_addrs i) (o / 1024) =? 0) eqn:E0; [|done].
    exfalso. apply (Hm (o / 1024)); [dlia|dlia|lia].
  - intros j Hj. unfold D', IB. rewrite (dinode_at_update _ _ _ HL) by done.
    case_decide; [done|]. unfold dinode_at. rewrite W7; [done|]. left. by apply (IBLOCK_range _ _ _ HL).
  - intros b Hb Hu Hout. unfold D'. rewrite fn_lookup_insert_ne by lia. apply W7. by right.
  - intros b Hb Hu. unfold used. pose proof (BBLOCK_range _ _ _ HL b Hb).
    unfold D'. rewrite fn_lookup_insert_ne by lia. by apply W2.
Qed.

(** A write of [bytes] at [off] that fits a file. *)
Lemma writei_run (s : fstate F U) D lg ip user_src src off bytes (P : kustate U → Prop) (i := geti s ip) (n := len bytes) :
  file_open s D lg ip → 0 ≤ off ≤ i_size i → off + n ≤ 274432 → is_bytes bytes →
  rounds off n + Z.of_nat (nbmap sb) + Z.of_nat (size lg) + 2 ≤ 22 →
  (∀ ku o m, P ku → 0 ≤ o → 0 ≤ m → o + m ≤ n →
     ∃ ku', either_copyin user_src (src + o) m ku = Ok (0, blk_read bytes (Z.to_nat o) (Z.to_nat m)) ku' ∧ P ku') →
  P (fr_ku (fs_rest s)) →
  ∃ tot s' D' lg', writei ip user_src src off n s = Ok tot s' ∧ 0 ≤ tot ≤ n ∧
    (tot < n → ∀ b, 0 ≤ b < sb_size sb → used sb D' b = true) ∧
    file_open s' D' lg' ip ∧ file_written D D' i (geti s' ip) off tot bytes ∧ P (fr_ku (fs_rest s')) ∧
    (∀ jp, iptr jp → jp ≠ ip → geti s' jp = geti s jp) ∧ Z.of_nat (size lg') ≤ 25.
Proof.
  intros [Hdev Hhome HL HR Hsb Hit Hip Hd Hin Hwf Hok Hf] Ho Hmax Hb Hroom HP HP0.
  destruct s as [io r]. unfold geti in *. cbn [fs_io fs_rest] in *.
  assert (Hw : fwp dev (writei ip user_src src off n) (mkfabs D ∅ lg r) (λ tot a, ∃ D1 l1 lg1 X ku',
    wr_inv sb dstart D (i_addrs i) lg (i_size i) off bytes tot D1 l1 lg1 X ∧ P ku' ∧ 0 ≤ tot ≤ n ∧ Z.of_nat (size lg1) ≤ 24 ∧
    (tot < n → ∀ b, 0 ≤ b < sb_size sb → used sb D1 b = true) ∧
    let i' := written ip r off tot l1 in let IB := IBLOCK (i_inum i) sb in
    a = mkfabs (<[IB := put_dinode (D1 IB) (dinode_off (i_inum i)) (dinode_of i')]> D1) ∅ ({[IB]} ∪ lg1)
               (r_seti ip i' (r_ku ku' r)))).
  { apply awp_tail. replace r with (r_ku (fr_ku r) r) at 1 by (by destruct r).
    apply (fwp_writei dev Hdev Hhome sb dstart HL ip user_src src r) with (P := P); try done; [apply Hit|].
    intros tot D1 l1 lg1 X ku' Hw HPk Ht Hlg Hfull. apply awp_ret. by exists D1, l1, lg1, X, ku'. }
  destruct (awp_run _ _ _ _ (mkfstate io r) Hw)
    as (tot & [io' r'] & a & E & [HR' Hr'] & D1 & l1 & lg1 & X & ku' & Hwr & HPk & Ht & Hlg & Hfull & Ha); [by split|].
  cbv zeta in Ha. subst a. cbn [fa_D fa_held fa_lg fa_rest fs_io fs_rest] in *. subst r'.
  set (IB := IBLOCK (i_inum i) sb) in *. pose proof (IBLOCK_range _ _ _ HL _ Hin) as Hir. fold i IB in Hir.
  set (i' := written ip r off tot l1) in *.
  assert (Hwf' : dinode_wf (dinode_of i')) by (eapply (written_wf dev sb dstart HL ip r); try done; apply Hf).
  assert (Hwb : wf_block (D1 IB)).
  { rewrite (wi_keep _ _ _ _ _ _ _ _ _ _ _ _ _ Hwr) by (left; lia). eapply t_rep_wf; [exact HR|by apply (IBLOCK_home _ _ _ HL)]. }
  destruct (written_file D D1 l1 lg lg1 X i off tot bytes) as [Hfw Hfok]; try done; [lia..|].
  assert (Hg : r_geti (r_seti ip i' (r_ku ku' r)) ip = i') by (by rewrite geti_seti, decide_True by (done || apply Hit)).
  eexists tot, _, _, _. split; [exact E|]. cbn [fs_io fs_rest]. rewrite Hg. split_and!; [lia..| | |exact Hfw|done| |].
  - intros Hlt b Hb'. unfold used. pose proof (BBLOCK_range _ _ _ HL b Hb'). rewrite fn_lookup_insert_ne by lia. by apply Hfull.
  - constructor; unfold geti; cbn [fs_io fs_rest]; rewrite ?Hg; try done.
    + apply it_ok_same; try done. by destruct Hit.
    + apply disk_ok_inode_block; [done| |fold IB; lia]. eapply wr_disk_ok; [exact Hok|exact Hwr].
  - intros jp Hjp Hne. by rewrite geti_seti, decide_False by (done || apply Hit).
  - pose proof (size_add IB lg1). lia.
Qed.

(** C2: [writei] at an offset inside the file writes all the bytes, or as many as
    the free blocks of the disk allow, and returns their number.  The file then
    has those bytes there and is as before elsewhere; the inode on the disk is
    the one in memory; other inodes, and blocks of other files, are untouched.
    The file stays well formed. *)
Theorem writei_spec (s : fstate F U) D lg ip user_src src off bytes (P : kustate U → Prop) (i := geti s ip) (n := len bytes) :
  file_open s D lg ip → 0 ≤ off ≤ i_size i → off + n ≤ MAXFILE * BSIZE → is_bytes bytes →
  rounds off n + Z.of_nat (nbmap sb) + Z.of_nat (size lg) + 2 ≤ 22 →
  (∀ ku o m, P ku → 0 ≤ o → 0 ≤ m → o + m ≤ n →
     ∃ ku', either_copyin user_src (src + o) m ku = Ok (0, blk_read bytes (Z.to_nat o) (Z.to_nat m)) ku' ∧ P ku') →
  P (fr_ku (fs_rest s)) →
  ∃ tot s' D' lg', writei ip user_src src off n s = Ok tot s' ∧ 0 ≤ tot ≤ n ∧
    (tot < n → ∀ b, 0 ≤ b < sb_size sb → used sb D' b = true) ∧
    file_open s' D' lg' ip ∧ file_written D D' i (geti s' ip) off tot bytes ∧
    (∀ jp, iptr jp → jp ≠ ip → geti s' jp = geti s jp).
Proof.
  rewrite MAXFILE_eq. intros Hopen Ho Hmax Hb Hroom HP HP0.
  destruct (writei_run s D lg ip user_src src off bytes P) as (tot & s' & D' & lg' & E & H1 & H2 & H3 & H4 & _ & H5 & _); try done.
  by exists tot, s', D', lg'.
Qed.

(** [writei] refuses, with -1 and no effect at all, a write that starts past
    the end of the file, one whose end wraps around 32 bits, and one that ends
    past the largest file. *)
Theorem writei_rejects (s : fstate F U) ip user_src src off n :
  0 ≤ off < 4294967296 → 0 ≤ n < 4294967296 →
  (i_size (geti s ip) < off ∨ 4294967296 ≤ off + n ∨ MAXFILE * BSIZE < off + n) →
  writei ip user_src src off n s = Ok (-1) s.
Proof.
  intros Ho Hn Hc. unfold writei. run.
  destruct ((i_size (geti s ip) <? off) || (u32 (off + n) <? off)) eqn:E; [done|].
  assert (Hlt : off + n < 4294967296) by (unfold u32 in *; dlia). rewrite u32_id in * by lia.
  destruct (MAXFILE * BSIZE <? off + n) eqn:E2; [done|]. lia.
Qed.

(** C25: bytes written with [writei] are the bytes [readi] delivers: after a write
    from kernel memory at [src], a read of the same range to [dst] puts the
    written bytes there. *)
Theorem write_read_roundtrip (s : fstate F U) D lg ip src dst off bytes (i := geti s ip) (n := len bytes) :
  file_open s D lg ip → 0 ≤ off ≤ i_size i → off + n ≤ MAXFILE * BSIZE → is_bytes bytes →
  rounds off n + Z.of_nat (nbmap sb) + Z.of_nat (size lg) + 2 ≤ 22 →
  mem_read (ku_kmem (fr_ku (fs_rest s))) src (length bytes) = bytes →
  ∃ tot s1 s2, writei ip 0 src off n s = Ok tot s1 ∧ 0 ≤ tot ≤ n ∧
    readi ip 0 dst off tot s1 = Ok tot s2 ∧
    mem_read (ku_kmem (fr_ku (fs_rest s2))) dst (Z.to_nat tot) = take (Z.to_nat tot) bytes.
Proof.
  rewrite MAXFILE_eq. change (268 * BSIZE) with 274432. intros Hopen Ho Hmax Hb Hroom Hsrc.
  destruct (writei_run s D lg ip 0 src off bytes (ksrc src bytes)) as (tot & s1 & D1 & lg1 & E & Ht & _ & Hop & Hfw & _ & _ & Hlg); try done.
  { intros. by apply ksrc_step. }
  destruct Hfw as [Hsz Hby _ _ _ _]. fold n in E, Ht. set (m1 := fr_ku (fs_rest s1)).
  assert (Hc : rd_count (i_size (geti s1 ip)) off tot = tot).
  { rewrite Hsz. unfold rd_count. fold i. destruct (_ || _) eqn:?; lia. }
  destruct (readi_run s1 D1 lg1 ip 0 dst off tot (kdst (ku_kmem m1) (ku_user m1) dst)) as (s2 & ku & E2 & _ & Hr2 & HW);
    [done|lia|lia|lia|intros; by apply kdst_step|unfold m1; destruct (fr_ku (fs_rest s1)); apply kdst_nil|].
  rewrite Hc in *. exists tot, s1, s2. split_and!; [done|lia|lia|done|]. rewrite Hr2. destruct HW as [_ HW].
  apply list_eq_same_length with (n := Z.to_nat tot); [rewrite length_take; unfold n, len in *; lia|apply length_mem_read|].
  intros k x y Hk Hx Hy. rewrite lookup_mem_read in Hx by done. rewrite lookup_take_lt in Hy by done.
  cbn [r_ku fr_ku] in Hx. rewrite HW, len_fbytes, decide_True in Hx by lia. simplify_eq.
  replace (dst + Z.of_nat k - dst) with (Z.of_nat k) by lia. unfold fbytes.
  rewrite (znth_lookup 0 _ _ (fbyte D1 (i_addrs (geti s1 ip)) (off + Z.of_nat k))); [|lia|].
  - rewrite Hby by (fold i in Hsz; lia). destruct (_ && _) eqn:Ein; [|lia].
    apply znth_lookup; [lia|]. rewrite <-Hy. f_equal. lia.
  - rewrite Nat2Z.id, list_lookup_fmap, lookup_zseq by done. done.
Qed.
End theorems.

(** * The theorems at a concrete state *)

Lemma demo_disk_ok : disk_ok demo_sb 47 demo_disk.
Proof. intros b Hb Hu. rewrite demo_bitmap in Hu by done. unfold is_data. cbn in *. lia. Qed.

Lemma demo_slot k : 0 ≤ k ≤ 268 → slot demo_disk (47 :: replicate 12 0) k = if k =? 0 then 47 else 0.
Proof.
  intros Hk. assert (Hall : forallb (λ k, slot demo_disk (47 :: replicate 12 0) k =? (if k =? 0 then 47 else 0)) (zseq 0 269) = true)
    by (by vm_compute).
  rewrite forallb_forall in Hall. apply Z.eqb_eq, Hall, list_elem_of_In, elem_of_zseq. lia.
Qed.

Lemma demo_file_ok nlink : file_ok demo_sb 47 demo_disk (demo_inode nlink).
Proof.
  constructor; [constructor; [done| |]|cbn; lia|]; cbn [i_addrs demo_inode i_size].
  - intros k Hk. rewrite demo_slot by done. destruct (k =? 0); [|done]. intros _. split; [by unfold is_data|by rewrite demo_bitmap].
  - intros k j Hk Hj. rewrite !demo_slot by done. destruct (k =? 0) eqn:?, (j =? 0) eqn:?; intros; done || lia.
  - intros k Hk Hlt. rewrite demo_slot by lia. destruct (k =? 0) eqn:?; [done|lia].
Qed.

Lemma demo_open io nlink :
  t_rep (TX := demo_io) demo_disk ∅ ∅ io → -32768 ≤ nlink < 32768 →
  file_open (U := unit) 1 demo_sb 47 (mkfstate io (demo_rest1 nlink)) demo_disk ∅ 1.
Proof.
  intros HR Hn. constructor; [done|apply demo_home|apply demo_layout|exact HR|done|apply demo_it_ok1|done|done|done| |apply demo_disk_ok|apply demo_file_ok].
  by apply demo_dinode_wf.
Qed.

Lemma readi_spec_witness :
  ∃ (io : lstate Bio.bstate) s', readi (U := unit) 1 0 5000 0 32 (mkfstate io (demo_rest1 1)) = Ok 32 s'.
Proof.
  destruct demo_rep as [io HR]. exists io.
  destruct (readi_spec 1 demo_sb 47 (mkfstate io (demo_rest1 1)) demo_disk ∅ 1 0 5000 0 32 (kdst (λ _, 0) tt 5000))
    as (s' & ku' & H1 & _); [by apply demo_open|done|done|done|intros; by apply kdst_step|apply kdst_nil|].
  exists s'. exact H1.
Defined.

Lemma writei_spec_witness :
  ∃ (io : lstate Bio.bstate) tot s', writei (U := unit) 1 0 5000 32 3 (mkfstate io (demo_rest1 1)) = Ok tot s' ∧ 0 ≤ tot ≤ 3.
Proof.
  destruct demo_rep as [io HR]. exists io.
  destruct (writei_spec 1 demo_sb 47 (mkfstate io (demo_rest1 1)) demo_disk ∅ 1 0 5000 32 [0; 0; 0] (ksrc 5000 [0; 0; 0]))
    as (tot & s' & D' & lg' & H1 & H2 & _); [by apply demo_open|done|done|repeat constructor; done|by vm_compute|intros; by apply ksrc_step|done|].
  exists tot, s'. split; [exact H1|exact H2].
Defined.

Lemma writei_rejects_witness :
  ∃ (io : lstate Bio.bstate), writei (U := unit) 1 0 5000 33 3 (mkfstate io (demo_rest1 1)) = Ok (-1) (mkfstate io (demo_rest1 1)).
Proof.
  destruct demo_rep as [io HR]. exists io.
  apply (writei_rejects (mkfstate io (demo_rest1 1)) 1 0 5000 33 3); [done|done|by left].
Defined.

Lemma write_read_roundtrip_witness :
  ∃ (io : lstate Bio.bstate) tot s1 s2, writei (U := unit) 1 0 5000 32 3 (mkfstate io (demo_rest1 1)) = Ok tot s1 ∧
    readi 1 0 6000 32 tot s1 = Ok tot s2.
Proof.
  destruct demo_rep as [io HR]. exists io.
  destruct (write_read_roundtrip 1 demo_sb 47 (mkfstate io (demo_rest1 1)) demo_disk ∅ 1 5000 6000 32 [0; 0; 0])
    as (tot & s1 & s2 & H1 & _ & H2 & _); [by apply demo_open|done|done|repeat constructor; done|by vm_compute|done|].
  exists tot, s1, s2. split; [exact H1|exact H2].
Defined.
