(* ===== verification/FsPath.v ===== *)
(** kernel/fs.c: path names and directories.

    [skipelem] walks through the elements of a path, [dirlookup] finds a name in
    a directory and [dirlink] puts one there.  A path is a list of elements, a
    directory a list of entries; the theorems relate the code to these. *)

From stdpp Require Import base tactics list numbers strings gmap functions sets.
From S2P Require Import Prelude Param Bytes CString Spinlock Sleeplock BufSpec TxSpec UserSpec Fs FsWp Log FsDemo FsAlloc FsInode FsFile FsContents.
From Stdlib Require Import ZArith Lia.

Open Scope kernel_scope.

(** * Paths *)

(** The NUL-terminated string [s] is at [p]. *)
Record str_at (m : mem) (p : Z) (s : list Z) : Prop := {
  sa_read : mem_read m p (length s) = s;
  sa_chars : 0 ∉ s;
  sa_nul : ldb m (p + len s) = 0;
}.

(** The elements of a path, [cur] being the start of one. *)
Fixpoint elems (cur s : list Z) : list (list Z) :=
  match s with
  | [] => if decide (cur = []) then [] else [cur]
  | c :: s' => if c =? SLASH then (if decide (cur = []) then [] else [cur]) ++ elems [] s' else elems (cur ++ [c]) s'
  end.

Fixpoint strip (s : list Z) : list Z :=
  match s with
  | [] => []
  | c :: s' => if c =? SLASH then strip s' else s
  end.

Fixpoint first_elem (s : list Z) : list Z :=
  match s with
  | [] => []
  | c :: s' => if c =? SLASH then [] else c :: first_elem s'
  end.

Fixpoint after_elem (s : list Z) : list Z :=
  match s with
  | [] => []
  | c :: s' => if c =? SLASH then s else after_elem s'
  end.

Lemma str_at_tail m p c s : str_at m p (c :: s) → ldb m p = c ∧ c ≠ 0 ∧ str_at m (p + 1) s.
Proof.
  intros [H1 H2 H3]. cbn in H1. injection H1 as H0 H1. apply not_elem_of_cons in H2 as [Hc H2]. split_and!; [done|congruence|].
  constructor; [done|done|]. rewrite len_cons in H3. by replace (p + 1 + len s) with (p + (1 + len s)) by lia.
Qed.

Lemma str_at_nil m p : str_at m p [] → ldb m p = 0.
Proof. intros [_ _ H]. by rewrite Z.add_0_r in H. Qed.

Lemma str_at_ext m m' p s : str_at m p s → (∀ x, p ≤ x ≤ p + len s → ldb m' x = ldb m x) → str_at m' p s.
Proof.
  intros [H1 H2 H3] He. pose proof (len_nonneg s). constructor; [|done|by rewrite He by lia].
  etransitivity; [|exact H1]. apply mem_read_ext. intros i Hi. apply He. unfold len. lia.
Qed.

Lemma skip_slashes_ok fuel m p s :
  str_at m p s → (length s < fuel)%nat →
  skip_slashes fuel m p = Some (p + (len s - len (strip s))) ∧ str_at m (p + (len s - len (strip s))) (strip s).
Proof.
  revert fuel p. induction s as [|c s IH]; intros [|fuel] p Hs Hf; cbn in Hf; try lia; cbn [skip_slashes strip].
  - rewrite (str_at_nil _ _ Hs). cbn. by rewrite Z.add_0_r.
  - destruct (str_at_tail _ _ _ _ Hs) as (Hc & Hc0 & Hs'). rewrite Hc. destruct (Z.eqb_spec c SLASH).
    + rewrite len_cons. replace (p + (1 + len s - len (strip s))) with (p + 1 + (len s - len (strip s))) by lia. apply IH; [done|lia].
    + by rewrite Z.sub_diag, Z.add_0_r.
Qed.

Lemma skip_name_ok fuel m p s :
  str_at m p s → (length s < fuel)%nat →
  skip_name fuel m p = Some (p + len (first_elem s)) ∧ str_at m (p + len (first_elem s)) (after_elem s).
Proof.
  revert fuel p. induction s as [|c s IH]; intros [|fuel] p Hs Hf; cbn in Hf; try lia; cbn [skip_name first_elem after_elem].
  - rewrite (str_at_nil _ _ Hs). cbn. by rewrite Z.add_0_r.
  - destruct (str_at_tail _ _ _ _ Hs) as (Hc & Hc0 & Hs'). rewrite Hc. destruct (Z.eqb_spec c SLASH); cbn [negb andb]; [by rewrite Z.add_0_r|].
    destruct (Z.eqb_spec c 0); [done|]. cbn [negb]. rewrite len_cons, Z.add_assoc. apply IH; [done|lia].
Qed.

Lemma elem_split s : s = first_elem s ++ after_elem s.
Proof. induction s as [|c s IH]; cbn; [done|]. destruct (c =? SLASH); cbn; [done|]. by f_equal. Qed.

Lemma strip_suffix s : ∃ x, s = x ++ strip s.
Proof. induction s as [|c s [x IH]]; cbn; [by exists []|]. destruct (c =? SLASH); [|by exists []]. exists (c :: x). cbn. by f_equal. Qed.

Lemma elems_strip s : elems [] (strip s) = elems [] s.
Proof. induction s as [|c s IH]; cbn; [done|]. destruct (Z.eqb_spec c SLASH); [done|]. cbn. by destruct (Z.eqb_spec c SLASH). Qed.

Lemma elems_first cur s : cur ++ first_elem s ≠ [] → elems cur s = (cur ++ first_elem s) :: elems [] (after_elem s).
Proof.
  revert cur. induction s as [|c s IH]; intros cur Hne; cbn in *.
  - rewrite app_nil_r in *. by rewrite decide_False.
  - destruct (Z.eqb_spec c SLASH) as [->|]; [rewrite app_nil_r in *; cbn; by rewrite decide_False|].
    rewrite IH by (by destruct cur). by rewrite <-app_assoc.
Qed.

Lemma strip_first s : strip s ≠ [] → first_elem (strip s) ≠ [].
Proof. induction s as [|c s IH]; cbn; [done|]. destruct (Z.eqb_spec c SLASH); [done|]. cbn. by destruct (Z.eqb_spec c SLASH). Qed.

Lemma strip_nil s : strip s = [] ↔ elems [] s = [].
Proof.
  rewrite <-elems_strip. split; [by intros ->|]. intros He. destruct (decide (strip s = [])) as [|Hne]; [done|].
  rewrite elems_first in He by (by apply strip_first). done.
Qed.

(** The name that [skipelem] stores. *)
Lemma name_stored m name path e (m1 := if DIRSIZ <=? len e then memmove m name path DIRSIZ else stb (memmove m name path (len e)) (name + len e) 0) :
  mem_read m path (length e) = e → 0 ∉ e → len e ≤ 128 →
  cstrn 14 m1 name = take 14 e ∧ ∀ x, ¬ name ≤ x < name + 14 → ldb m1 x = ldb m x.
Proof.
  intros Hr H0 Hl. pose proof (len_nonneg e). unfold m1, DIRSIZ. clear m1.
  assert (Hcs : ∀ n e m', mem_read m' name (length e) = e → (0 ∉ e) → (length e = n ∨ (length e < n)%nat ∧ ldb m' (name + len e) = 0) → cstrn n m' name = e).
  { clear. intros n e. revert n name. induction e as [|c e IH]; intros n name m' Hr H0 Hn.
    - destruct Hn as [<-|[Hn Hz]]; [done|]. destruct n; cbn in *; [lia|]. rewrite Z.add_0_r in Hz. by rewrite Hz.
    - destruct n as [|n]; [cbn in Hn; destruct Hn as [?|[? _]]; lia|]. cbn in *. injection Hr as Hc Hr. apply not_elem_of_cons in H0 as [Hc0 H0].
      rewrite Hc. destruct (Z.eqb_spec c 0); [congruence|]. f_equal. apply IH; [done|done|]. rewrite len_cons in Hn.
      destruct Hn as [Hn|[Hn Hz]]; [left; lia|right]. split; [lia|]. by replace (name + 1 + len e) with (name + (1 + len e)) by lia. }
  destruct (Z.leb_spec 14 (len e)) as [Hge|Hlt].
  - split.
    + apply Hcs; [|intros Hin; apply elem_of_take in Hin as (? & ? & _); apply H0; by eapply list_elem_of_lookup_2|left; rewrite length_take; unfold len in *; lia].
      rewrite length_take. replace (14 `min` length e)%nat with 14%nat by (unfold len in *; lia). rewrite <-Hr.
      replace (length e) with (14 + (length e - 14))%nat by (unfold len in *; lia). rewrite mem_read_app, take_app_length' by (by rewrite length_mem_read).
      apply mem_read_ext. intros i Hi. rewrite memmove_ldb by lia. rewrite decide_True by lia. f_equal. lia.
    + intros x Hx. rewrite memmove_ldb by lia. by rewrite decide_False by lia.
  - rewrite take_ge by (unfold len in *; lia). split.
    + apply Hcs; [|done|right; split; [unfold len in *; lia|by rewrite ldb_stb, decide_True]]. etransitivity; [|exact Hr]. apply mem_read_ext.
      intros i Hi. rewrite ldb_stb, decide_False by (unfold len in *; lia). rewrite memmove_ldb by lia. rewrite decide_True by (unfold len; lia). f_equal. lia.
    + intros x Hx. rewrite ldb_stb, decide_False by lia. rewrite memmove_ldb by lia. by rewrite decide_False by lia.
Qed.

(** [skipelem] takes a path apart.  For a path in memory with elements [e]
    first and [es] after it, it stores [e], cut at [DIRSIZ] characters, as
    [name], changes nothing else, and returns a pointer to a path with the
    elements [es], which is empty exactly if there are none, as the callers
    test.  For a path without elements it returns 0. *)
Theorem skipelem_spec m path name s :
  str_at m path s → len s ≤ MAXPATH → name + DIRSIZ ≤ path ∨ path + len s < name →
  match elems [] s with
  | [] => skipelem m path name = Some (0, m)
  | e :: es => ∃ p' rest m', skipelem m path name = Some (p', m') ∧
      str_at m' p' rest ∧ elems [] rest = es ∧ (rest = [] ↔ es = []) ∧ path < p' ≤ path + len s ∧
      cstrn 14 m' name = take 14 e ∧ ∀ x, ¬ name ≤ x < name + DIRSIZ → ldb m' x = ldb m x
  end.
Proof.
  unfold MAXPATH, DIRSIZ. intros Hs Hl Hd. unfold skipelem, DIRSIZ. assert (Hpf : path_fuel = 129%nat) by done. rewrite Hpf.
  destruct (skip_slashes_ok 129 m path s Hs) as [E1 S1]; [unfold len in *; lia|]. rewrite E1. set (s1 := strip s) in *. set (p1 := path + (len s - len s1)) in *.
  destruct (strip_suffix s) as (x1 & Hx1). fold s1 in Hx1. pose proof (f_equal len Hx1) as Hl1. rewrite len_app in Hl1. pose proof (len_nonneg x1). pose proof (len_nonneg s1).
  rewrite <-elems_strip. fold s1. destruct (decide (s1 = [])) as [Hn|Hne].
  - rewrite Hn in *. cbn. by rewrite (str_at_nil _ _ S1).
  - pose proof (strip_first s Hne) as Hfe. fold s1 in Hfe. rewrite elems_first by done. cbn [app]. set (e := first_elem s1) in *.
    assert (ldb m p1 ≠ 0) as Hnz. { destruct s1 as [|c s1']; [done|]. by destruct (str_at_tail _ _ _ _ S1) as (-> & ? & _). }
    destruct (Z.eqb_spec (ldb m p1) 0); [done|]. destruct (skip_name_ok 129 m p1 s1 S1) as [E2 S2]; [unfold len in *; lia|]. fold e in E2, S2. rewrite E2.
    pose proof (elem_split s1) as Hsp. fold e in Hsp. pose proof (f_equal len Hsp) as Hl2. rewrite len_app in Hl2. set (s2 := after_elem s1) in *.
    pose proof (len_nonneg e). pose proof (len_nonneg s2). assert (0 < len e). { destruct e; [done|]. rewrite len_cons in *. pose proof (len_nonneg e). lia. }
    replace (p1 + len e - p1) with (len e) by lia.
    assert (Hre : mem_read m p1 (length e) = e ∧ 0 ∉ e).
    { destruct S1 as [R1 R2 _]. rewrite Hsp in R1, R2. rewrite length_app, mem_read_app in R1. apply app_inj_1 in R1 as [R1 _]; [|apply length_mem_read].
      apply not_elem_of_app in R2. split; [done|tauto]. }
    destruct Hre as [Hre H0e]. destruct (name_stored m name p1 e Hre H0e) as [Hnm Hfr]; [lia|]. unfold DIRSIZ in Hnm, Hfr. set (m1 := if 14 <=? len e then _ else _) in *.
    assert (S2' : str_at m1 (p1 + len e) s2) by (eapply str_at_ext; [exact S2|]; intros x Hx; apply Hfr; lia).
    destruct (skip_slashes_ok 129 m1 (p1 + len e) s2 S2') as [E3 S3]; [unfold len in *; lia|]. rewrite E3.
    destruct (strip_suffix s2) as (x3 & Hx3). pose proof (f_equal len Hx3) as Hl3. rewrite len_app in Hl3. pose proof (len_nonneg x3). pose proof (len_nonneg (strip s2)).
    eexists _, (strip s2), m1. split_and!; [done|done|apply elems_strip|apply strip_nil|lia|lia|done|done].
Qed.

(** The path "/usr//bin" at address 1000. *)
Definition dpath : mem := λ a, znth 0 [47; 117; 115; 114; 47; 47; 98; 105; 110; 0] (a - 1000).

Lemma skipelem_spec_witness : ∃ p' rest m', skipelem dpath 1000 2000 = Some (p', m') ∧
  str_at m' p' rest ∧ elems [] rest = [[98; 105; 110]] ∧ (rest = [] ↔ [[98; 105; 110]] = @nil (list Z)) ∧ 1000 < p' ≤ 1000 + 9 ∧
  cstrn 14 m' 2000 = take 14 [117; 115; 114] ∧ ∀ x, ¬ 2000 ≤ x < 2000 + DIRSIZ → ldb m' x = ldb dpath x.
Proof.
  apply (skipelem_spec dpath 1000 2000 [47; 117; 115; 114; 47; 47; 98; 105; 110]).
  - constructor; [reflexivity| |reflexivity]. by apply (bool_decide_unpack _).
  - done.
  - right. done.
Defined.

(** * Directories *)

(** Entry [k] of a directory: 16 bytes, an inode number and a name. *)
Definition dent (D : Z → list Z) (i : inode) (k : Z) : list Z := fbytes D (i_addrs i) (k * 16) 16.
Definition dent_inum (e : list Z) : Z := Bytes.le_dec (take 2 e).

Fixpoint before_nul (s : list Z) : list Z :=
  match s with
  | [] => []
  | c :: s' => if c =? 0 then [] else c :: before_nul s'
  end.

Definition dent_name (e : list Z) : list Z := before_nul (drop 2 e).

(** Entry [k] is in use and has the name [nm]. *)
Definition is_named (D : Z → list Z) (i : inode) (nm : list Z) (k : Z) : bool :=
  negb (dent_inum (dent D i k) =? 0) && bool_decide (dent_name (dent D i k) = nm).

Definition dirents (i : inode) : Z := i_size i / 16.

Lemma cstrn_before_nul n m p : cstrn n m p = before_nul (mem_read m p n).
Proof. revert p. induction n as [|n IH]; intros p; cbn; [done|]. destruct (ldb m p =? 0); [done|]. by rewrite IH. Qed.

(** An entry that was read to [de]. *)
Lemma dent_in_memory {U} m0 (u0 : U) de e ku nm name :
  kdst m0 u0 de e ku → len e = 16 → is_bytes e → name + 14 ≤ de ∨ de + 16 ≤ name → cstrn 14 m0 name = nm →
  de_inum (ku_kmem ku) de = dent_inum e ∧
  ((namecmp (ku_kmem ku) name (de_name de) =? 0) = bool_decide (dent_name e = nm)).
Proof.
  intros [_ Hk] Hl Hb Hd Hn.
  assert (Hr : mem_read (ku_kmem ku) de 16 = e).
  { apply list_eq_same_length with (n := 16%nat); [unfold len in Hl; lia|apply length_mem_read|]. intros j x y Hj Hx Hy.
    rewrite lookup_mem_read in Hx by done. injection Hx as <-. rewrite Hk, decide_True by (unfold len in *; lia).
    apply znth_lookup; [lia|]. by replace (Z.to_nat (de + Z.of_nat j - de)) with j by lia. }
  change 16%nat with (2 + 14)%nat in Hr. rewrite mem_read_app in Hr. pose proof (f_equal (take 2) Hr) as H2. pose proof (f_equal (drop 2) Hr) as H14.
  rewrite take_app_length' in H2 by (by rewrite length_mem_read). rewrite drop_app_length' in H14 by (by rewrite length_mem_read).
  change (de + Z.of_nat 2) with (de_name de) in H14. split; [unfold de_inum, load, dent_inum; by rewrite H2|].
  unfold namecmp, strncmp. rewrite u32_id by done. change (Z.to_nat DIRSIZ) with 14%nat.
  pose proof (strncmp_loop_zero 14 (ku_kmem ku) name (de_name de)) as Hz.
  assert (Hnm : cstrn 14 (ku_kmem ku) name = nm).
  { rewrite <-Hn. apply cstrn_ext. intros j Hj. rewrite Hk, decide_False by lia. done. }
  rewrite Hnm, (cstrn_before_nul 14 _ (de_name de)), H14 in Hz. fold (dent_name e) in Hz.
  destruct (Z.eqb_spec (strncmp_loop 14 (ku_kmem ku) name (de_name de)) 0), (bool_decide_reflect (dent_name e = nm)); try done; naive_solver.
Qed.

Section dirs.
  Context {F H U : Type} `{TX : Txn F H} `{UM : UserMem U} (dev : Z) `{TXS : !TxnSpec F H dev}.
  Context (sb : superblock) (dstart me de : Z).

(** A state that differs in the disk's buffers and in the local variable [de]. *)
Definition only_de (D : Z → list Z) (lg : gset Z) (s s' : fstate F U) : Prop :=
  t_rep D ∅ lg (fs_io s') ∧ ∃ ku, fs_rest s' = r_ku ku (fs_rest s) ∧ ku_user ku = ku_user (fr_ku (fs_rest s)) ∧
    ∀ x, ¬ de ≤ x < de + 16 → ldb (ku_kmem ku) x = ldb (kmem s) x.

Lemma only_de_trans D lg s1 s2 s3 : only_de D lg s1 s2 → only_de D lg s2 s3 → only_de D lg s1 s3.
Proof.
  intros (_ & ku1 & E1 & U1 & M1) (HR & ku2 & E2 & U2 & M2). split; [done|]. exists ku2. rewrite E2, E1. split_and!; [done| |].
  - rewrite U2, E1. done.
  - intros x Hx. rewrite M2 by done. unfold kmem. rewrite E1. by apply M1.
Qed.

Lemma only_de_open D lg (s s' : fstate F U) ip : file_open dev sb dstart s D lg ip → only_de D lg s s' → file_open dev sb dstart s' D lg ip ∧ geti s' ip = geti s ip.
Proof.
  intros [H1 H2 H3 H4 H5 H6 H7 H8 H9 H10 H11 H12] (HR & ku & E & _). destruct s as [io r], s' as [io' r']. cbn [fs_io fs_rest] in *. subst r'.
  split; [|done]. constructor; try done. by destruct H6.
Qed.

(** One entry read to [de]. *)
Lemma read_dent (s : fstate F U) D lg dp k :
  file_open dev sb dstart s D lg dp → Z.of_nat (size lg) ≤ 28 → 0 ≤ k → k * 16 + 16 ≤ i_size (geti s dp) →
  ∃ s', readi dp 0 de (k * 16) 16 s = Ok 16 s' ∧ only_de D lg s s' ∧
    kdst (kmem s) (ku_user (fr_ku (fs_rest s))) de (dent D (geti s dp) k) (fr_ku (fs_rest s')).
Proof.
  intros Ho Hlg Hk Hsz. pose proof (fo_size _ _ _ _ (op_file _ _ _ _ _ _ _ Ho)) as Hmax.
  assert (Hc : rd_count (i_size (geti s dp)) (k * 16) 16 = 16) by (unfold rd_count; destruct (_ || _) eqn:?; lia).
  destruct (readi_run dev sb dstart s D lg dp 0 de (k * 16) 16 (kdst (kmem s) (ku_user (fr_ku (fs_rest s))) de)) as (s' & ku' & E & HR & Hr & HW);
    [done|lia|lia|done|intros; by apply kdst_step|unfold kmem; destruct (fr_ku (fs_rest s)); apply kdst_nil|].
  rewrite Hc in *. exists s'. split_and!; [done| |by rewrite Hr].
  split; [done|]. exists ku'. split; [done|]. destruct HW as [Hu Hm]. split; [done|]. intros x Hx. rewrite Hm, decide_False; [done|]. rewrite len_fbytes. lia.
Qed.

Lemma is_bytes_dent (s : fstate F U) D lg dp k : file_open dev sb dstart s D lg dp → 0 ≤ k → k * 16 + 16 ≤ i_size (geti s dp) → is_bytes (dent D (geti s dp) k).
Proof.
  intros Ho Hk Hsz. unfold dent, fbytes, is_bytes. apply Forall_fmap, Forall_forall. intros o Ho'. apply elem_of_zseq in Ho'. cbn.
  destruct Ho as [_ _ HL HR _ _ _ _ _ _ _ [Hf Hs Hm]]. unfold fbyte. assert (Hnz : slot D (i_addrs (geti s dp)) (o / 1024) ≠ 0) by (apply Hm; dlia).
  destruct (fi_data _ _ _ _ Hf (o / 1024) ltac:(dlia) Hnz) as [Hd _].
  assert (Hwf : wf_block (D (slot D (i_addrs (geti s dp)) (o / 1024)))) by (eapply t_rep_wf; [exact HR|]; eapply data_home; done).
  destruct Hwf as [Hl Hb]. unfold is_bytes in Hb. rewrite Forall_forall in Hb. apply Hb, znth_In. unfold len. rewrite Hl. dlia.
Qed.

(** ** Looking up *)

(** The body of the loop of [dirlookup]. *)
Definition look (dp name k : Z) : M (fstate F U) (ctl (Z * Z)) :=
  let off := k * SIZEOF_DIRENT in
  n <- readi dp 0 de off SIZEOF_DIRENT ;;
  if negb (n =? SIZEOF_DIRENT) then panic "dirlookup read"
  else
    s <- get ;;
    if de_inum (kmem s) de =? 0 then ret Next
    else if namecmp (kmem s) name (de_name de) =? 0
    then
      ip <- iget me (i_dev (geti s dp)) (de_inum (kmem s) de) ;;
      ret (Stop (ip, off))
    else ret Next.

Context (D : Z → list Z) (lg : gset Z) (dp name : Z) (nm : list Z).
Context (Hlg : Z.of_nat (size lg) ≤ 28) (Hdisj : name + 14 ≤ de ∨ de + 16 ≤ name).

Lemma look_round s k (i := geti s dp) :
  file_open dev sb dstart s D lg dp → 0 ≤ k → k * 16 + 16 ≤ i_size i → cstrn 14 (kmem s) name = nm →
  ∃ s', only_de D lg s s' ∧
    look dp name k s = if is_named D i nm k then (ip <- iget me dev (dent_inum (dent D i k)) ;; ret (Stop (ip, k * 16))) s' else Ok Next s'.
Proof.
  intros Ho Hk Hsz Hn. destruct (read_dent s D lg dp k Ho Hlg Hk Hsz) as (s' & E & Hde & Hkd). fold i in Hkd. exists s'. split; [done|].
  unfold look, SIZEOF_DIRENT. rewrite (bind_ok _ _ _ _ _ E). cbn [Z.eqb Pos.eqb negb]. rewrite bind_get.
  destruct (dent_in_memory _ _ _ _ _ nm name Hkd) as [Hi Hnc]; [apply len_fbytes|by apply (is_bytes_dent s D lg)|done|done|].
  unfold kmem. rewrite Hi, Hnc. destruct (only_de_open D lg s s' dp Ho Hde) as [Ho' Hg]. rewrite (op_idev _ _ _ _ _ _ _ Ho'). unfold is_named.
  destruct (dent_inum (dent D i k) =? 0); cbn [negb andb]; [done|]. by destruct (bool_decide _).
Qed.

Lemma look_scan n s k (i := geti s dp) :
  file_open dev sb dstart s D lg dp → 0 ≤ k → (k + Z.of_nat n) * 16 ≤ i_size i → cstrn 14 (kmem s) name = nm →
  ∃ s', only_de D lg s s' ∧
    for_up n k (look dp name) s =
    match zfind (is_named D i nm) n k with
    | None => Ok None s'
    | Some j => (ip <- iget me dev (dent_inum (dent D i j)) ;; ret (Some (ip, j * 16))) s'
    end.
Proof.
  revert s k i. induction n as [|n IH]; intros s k i Ho Hk Hsz Hn.
  - exists s. split; [|done]. split; [apply Ho|]. exists (fr_ku (fs_rest s)). split_and!; [by destruct (fs_rest s)|done|done].
  - cbn [for_up zfind]. destruct (look_round s k Ho Hk ltac:(fold i; lia) Hn) as (s1 & Hde & E). fold i in E. rewrite E.
    destruct (is_named D i nm k).
    + exists s1. split; [done|]. unfold bind, ret. by destruct (iget _ _ _ _).
    + destruct (only_de_open D lg s s1 dp Ho Hde) as [Ho1 Hg]. destruct (IH s1 (k + 1)) as (s' & Hde' & E'); [done|lia|rewrite Hg; fold i; lia| |].
      { destruct Hde as (_ & ku & Er & _ & Hm). rewrite <-Hn. apply cstrn_ext. intros j Hj. unfold kmem at 1. rewrite Er. cbn. apply Hm. lia. }
      exists s'. rewrite Hg in E'. split; [by eapply only_de_trans|exact E'].
Qed.

Lemma dirlookup_run s (i := geti s dp) :
  file_open dev sb dstart s D lg dp → i_type i = 1 → i_size i mod 16 = 0 → cstrn 14 (kmem s) name = nm →
  ∃ s', only_de D lg s s' ∧ dirlookup me de dp name s =
    match zfind (is_named D i nm) (Z.to_nat (dirents i)) 0 with
    | None => Ok (0, 0) s'
    | Some k => (ip <- iget me dev (dent_inum (dent D i k)) ;; ret (ip, k * 16)) s'
    end.
Proof.
  intros Ho Hty Hal Hn. pose proof (fo_size _ _ _ _ (op_file _ _ _ _ _ _ _ Ho)) as Hmax.
  unfold dirlookup. rewrite bind_get. fold i. rewrite Hty. cbn [Z.eqb negb Pos.eqb].
  replace ((i_size i + SIZEOF_DIRENT - 1) / SIZEOF_DIRENT) with (dirents i) by (unfold dirents, SIZEOF_DIRENT; fold i in Hmax; dlia).
  match goal with |- context [for_up _ 0 ?b] => change b with (look dp name) end.
  destruct (look_scan (Z.to_nat (dirents i)) s 0 Ho) as (s1 & Hde & E); [lia| |done|]. { unfold dirents. fold i in Hmax |- *. dlia. }
  fold i in E. exists s1. split; [done|]. unfold bind at 1. rewrite E. destruct (zfind _ _ _) as [k|]; [|done].
  unfold bind, ret. by destruct (iget _ _ _ _).
Qed.

(** C27: [dirlookup] finds the first entry in use with the name.  It returns 0 when
    there is none; otherwise a reference to the entry's inode, from the inode
    table, and the offset of the entry.  The directory, the disk and memory
    other than the local variable [de] stay as they are.  It panics only if the
    inode table is full. *)
Theorem dirlookup_spec s (i := geti s dp) :
  file_open dev sb dstart s D lg dp → i_type i = 1 → i_size i mod 16 = 0 → cstrn 14 (kmem s) name = nm →
  match zfind (is_named D i nm) (Z.to_nat (dirents i)) 0 with
  | None => ∃ s', dirlookup me de dp name s = Ok (0, 0) s' ∧ only_de D lg s s'
  | Some k =>
      (∃ ip s', dirlookup me de dp name s = Ok (ip, k * 16) s' ∧ iptr ip ∧
         imatch dev (dent_inum (dent D i k)) (geti s' ip) = true ∧ it_ok (fs_rest s') ∧ t_rep D ∅ lg (fs_io s') ∧
         (∀ jp, iptr jp → jp ≠ ip → geti s' jp = geti s jp)) ∨
      (dirlookup me de dp name s = Panic "iget: no inodes" ∧ ∀ ip, iptr ip → i_ref (geti s ip) ≠ 0)
  end.
Proof.
  intros Ho Hty Hal Hn. destruct (dirlookup_run s Ho Hty Hal Hn) as (s1 & Hde & E). fold i in E. rewrite E. clear E.
  destruct (zfind _ _ _) as [k|]; [|by exists s1].
  destruct (only_de_open D lg s s1 dp Ho Hde) as [Ho1 Hg]. destruct Hde as (HR & ku & Er & _). destruct s1 as [io1 r1]. cbn [fs_io fs_rest] in *.
  pose proof (op_it _ _ _ _ _ _ _ Ho1) as Hit. cbn [fs_rest] in Hit.
  assert (Hge : ∀ jp, r_geti r1 jp = geti s jp) by (intros jp; by rewrite Er).
  destruct (iget_run dev me io1 r1 (dent_inum (dent D i k)) Hit) as [(ip & Hip & Hm & E1)|[(ip & Hip & H0 & Hno & E1)|[E1 Hp]]].
  - left. eexists ip, _. split; [unfold bind; by rewrite E1|]. unfold geti at 1. cbn [fs_rest fs_io]. rewrite geti_seti, decide_True by (done || apply Hit).
    split_and!; [done|unfold imatch in *; cbn [i_ref i_dev i_inum set_i_ref]; lia| |done|].
    + pose proof (it_ref _ Hit ip Hip). apply it_ok_hit; try done; unfold imatch in Hm; cbn [i_ref set_i_ref]; lia.
    + intros jp Hjp Hne. unfold geti at 1. cbn [fs_rest]. rewrite geti_seti, decide_False by (done || apply Hit). apply Hge.
  - left. eexists ip, _. split; [unfold bind; by rewrite E1|]. unfold geti at 1. cbn [fs_rest fs_io]. rewrite geti_seti, decide_True by (done || apply Hit).
    split_and!; [done|unfold imatch; cbn [i_ref i_dev i_inum set_i_id]; by rewrite !Z.eqb_refl|by apply it_ok_miss|done|].
    intros jp Hjp Hne. unfold geti at 1. cbn [fs_rest]. rewrite geti_seti, decide_False by (done || apply Hit). apply Hge.
  - right. split; [unfold bind; by rewrite E1|]. intros ip Hip. rewrite <-Hge. by apply Hp.
Qed.

(** ** Linking *)

(** The body of the loop of [dirlink]. *)
Definition seek (k : Z) : M (fstate F U) (ctl Z) :=
  let off := k * SIZEOF_DIRENT in
  n <- readi dp 0 de off SIZEOF_DIRENT ;;
  if negb (n =? SIZEOF_DIRENT) then panic "dirlink read"
  else
    s <- get ;;
    if de_inum (kmem s) de =? 0 then ret (Stop off) else ret Next.

Definition is_free (i : inode) (k : Z) : bool := dent_inum (dent D i k) =? 0.

Lemma seek_scan n s k (i := geti s dp) :
  file_open dev sb dstart s D lg dp → 0 ≤ k → (k + Z.of_nat n) * 16 ≤ i_size i →
  ∃ s', only_de D lg s s' ∧ for_up n k seek s = Ok ((λ j, j * 16) <$> zfind (is_free i) n k) s'.
Proof.
  revert s k i. induction n as [|n IH]; intros s k i Ho Hk Hsz.
  - exists s. split; [|done]. split; [apply Ho|]. exists (fr_ku (fs_rest s)). split_and!; [by destruct (fs_rest s)|done|done].
  - cbn [for_up zfind]. destruct (read_dent s D lg dp k Ho Hlg Hk ltac:(fold i; lia)) as (s1 & E & Hde & Hkd). fold i in Hkd.
    assert (Es : seek k s = Ok (if is_free i k then Stop (k * 16) else Next) s1).
    { unfold seek, SIZEOF_DIRENT. rewrite (bind_ok _ _ _ _ _ E). cbn [Z.eqb Pos.eqb negb]. rewrite bind_get.
      destruct (dent_in_memory _ _ _ _ _ (cstrn 14 (kmem s) name) name Hkd) as [Hi _]; [apply len_fbytes|apply (is_bytes_dent s D lg); [done|done|fold i; lia]|done|done|].
      unfold kmem. rewrite Hi. unfold is_free. by destruct (_ =? 0). }
    rewrite Es. destruct (is_free i k); [by exists s1|]. destruct (only_de_open D lg s s1 dp Ho Hde) as [Ho1 Hg].
    destruct (IH s1 (k + 1)) as (s' & Hde' & E'); [done|lia|rewrite Hg; fold i; lia|]. exists s'. rewrite Hg in E'. split; [by eapply only_de_trans|exact E'].
Qed.

(** The entry that is written. *)
Definition new_dent (inum : Z) : list Z := le_enc 2 inum ++ nm ++ replicate (14 - length nm) 0.

Lemma new_dent_in_memory m inum :
  cstrn 14 m name = nm → mem_read (store 2 (strncpy m (de_name de) name DIRSIZ) de inum) de 16 = new_dent inum.
Proof.
  intros Hn. change 16%nat with (2 + 14)%nat. rewrite mem_read_app. unfold new_dent. f_equal.
  - unfold store. rewrite <-(length_le_enc 2 inum) at 2. apply mem_read_write_eq, is_bytes_le_enc.
  - change (de + Z.of_nat 2) with (de_name de). unfold store. rewrite mem_read_write_ne.
    + unfold strncpy. change (Z.to_nat DIRSIZ) with 14%nat. rewrite strncpy_loop_inside, Hn; [done|]. unfold disjoint_ranges, de_name. lia.
    + unfold disjoint_ranges, len. rewrite length_le_enc. unfold de_name. lia.
Qed.

Lemma new_dent_fields m inum :
  cstrn 14 m name = nm → 0 ≤ inum < 65536 →
  len (new_dent inum) = 16 ∧ is_bytes (new_dent inum) ∧ dent_inum (new_dent inum) = inum ∧ dent_name (new_dent inum) = nm.
Proof.
  intros Hn Hi. pose proof (new_dent_in_memory m inum Hn) as Hm. split_and!.
  - rewrite <-Hm. unfold len. by rewrite length_mem_read.
  - rewrite <-Hm. apply is_bytes_mem_read.
  - unfold dent_inum, new_dent. rewrite take_app_length' by (by rewrite length_le_enc). apply le_dec_enc_small. done.
  - unfold dent_name, new_dent. rewrite drop_app_length' by (by rewrite length_le_enc).
    assert (Hz : ∀ n x, before_nul (cstrn n m x ++ replicate (14 - length (cstrn n m x)) 0) = cstrn n m x).
    { intros n x. generalize (14 - length (cstrn n m x))%nat. revert x. induction n as [|n IH]; intros x j; cbn; [by destruct j|].
      destruct (Z.eqb_spec (ldb m x) 0); cbn; [by destruct j|]. destruct (Z.eqb_spec (ldb m x) 0); [done|]. by rewrite IH. }
    rewrite <-Hn. apply Hz.
Qed.

Lemma fbytes_is D0 l off n bs :
  len bs = Z.of_nat n → (∀ j, 0 ≤ j < Z.of_nat n → fbyte D0 l (off + j) = znth 0 bs j) → fbytes D0 l off n = bs.
Proof.
  intros Hl Hb. apply (znth_ext 0); [rewrite len_fbytes; lia|]. intros j Hj. rewrite len_fbytes in Hj. rewrite <-Hb by lia.
  apply znth_lookup; [lia|]. unfold fbytes. rewrite list_lookup_fmap, lookup_zseq by lia. cbn. do 2 f_equal. lia.
Qed.

Lemma fbytes_same D0 D1 l0 l1 off n :
  (∀ j, off ≤ j < off + Z.of_nat n → fbyte D1 l1 j = fbyte D0 l0 j) → fbytes D1 l1 off n = fbytes D0 l0 off n.
Proof.
  intros Hb. apply fbytes_is; [apply len_fbytes|]. intros j Hj. rewrite Hb by lia.
  symmetry. apply znth_lookup; [lia|]. unfold fbytes. rewrite list_lookup_fmap, lookup_zseq by lia. cbn. do 2 f_equal. lia.
Qed.

Lemma zfind_only (f : Z → bool) n k : 0 ≤ k < Z.of_nat n → f k = true → (∀ j, 0 ≤ j < k → f j = false) → zfind f n 0 = Some k.
Proof.
  intros Hk Hf Hb. destruct (zfind f n 0) as [j|] eqn:E.
  - apply zfind_Some in E as (Hj & Hfj & Hbj). f_equal. destruct (Z.lt_trichotomy j k) as [Hlt|[->|Hgt]]; [by rewrite Hb in Hfj by lia|done|].
    by rewrite Hbj in Hf by lia.
  - rewrite (zfind_None _ _ _ E) in Hf by lia. done.
Qed.

(** A directory after entry [k] was written. *)
Lemma dir_written D' i i' inum k :
  file_written sb dstart D D' i i' (k * 16) 16 (new_dent inum) → len (new_dent inum) = 16 → 0 ≤ k ≤ dirents i → 0 ≤ i_size i → i_size i mod 16 = 0 →
  dirents i' = Z.max (dirents i) (k + 1) ∧ i_size i' mod 16 = 0 ∧ dent D' i' k = new_dent inum ∧
  ∀ j, 0 ≤ j < dirents i → j ≠ k → dent D' i' j = dent D i j.
Proof.
  intros [Hs Hb _ _ _ _] Hl Hk Hi Hal. unfold dirents in *. split_and!.
  - rewrite Hs. dlia.
  - rewrite Hs. dlia.
  - apply fbytes_is; [done|]. intros j Hj. change (Z.of_nat 16) with 16 in Hj. rewrite Hb by lia. destruct (_ && _) eqn:E; [f_equal; lia|lia].
  - intros j Hj Hne. apply fbytes_same. change (Z.of_nat 16) with 16. intros o Ho. rewrite Hb by dlia. destruct (_ && _) eqn:E; [lia|done].
Qed.

(** C26: [dirlink] adds an entry that [dirlookup] finds.  For a name that is not in
    the directory it fills the first unused entry, or one at the end, with the
    name and the inode number, leaves the other entries alone and returns 0;
    looking up the name then gives that entry.  It returns -1 only if the disk
    is full. *)
Theorem dirlink_spec s inum pid (i := geti s dp) :
  file_open dev sb dstart s D lg dp → i_type i = 1 → i_size i mod 16 = 0 → cstrn 14 (kmem s) name = nm →
  (∀ k, 0 ≤ k < dirents i → is_named D i nm k = false) → 0 < inum < 65536 → i_size i + 16 ≤ MAXFILE * BSIZE →
  3 + Z.of_nat (nbmap sb) + Z.of_nat (size lg) ≤ 22 →
  ∃ s' D' lg' (i' := geti s' dp), file_open dev sb dstart s' D' lg' dp ∧
    ((dirlink me pid de dp name inum s = Ok 0 s' ∧ i_size i' mod 16 = 0 ∧
      ∃ k, zfind (is_named D' i' nm) (Z.to_nat (dirents i')) 0 = Some k ∧ dent D' i' k = new_dent inum ∧ dent_inum (dent D' i' k) = inum ∧
        (k < dirents i → is_free i k = true) ∧ dirents i' = Z.max (dirents i) (k + 1) ∧
        ∀ j, 0 ≤ j < dirents i → j ≠ k → dent D' i' j = dent D i j) ∨
     (dirlink me pid de dp name inum s = Ok (-1) s' ∧ ∀ b, 0 ≤ b < sb_size sb → used sb D' b = true)).
Proof.
  rewrite MAXFILE_eq. change (268 * BSIZE) with 274432. intros Ho Hty Hal Hn Hno Hin Hroom Hlog.
  pose proof (fo_size _ _ _ _ (op_file _ _ _ _ _ _ _ Ho)) as Hmax. fold i in Hmax.
  destruct (dirlookup_run s Ho Hty Hal Hn) as (s1 & Hde1 & E1). fold i in E1.
  destruct (zfind (is_named D i nm) (Z.to_nat (dirents i)) 0) as [k0|] eqn:Ez.
  { apply zfind_Some in Ez as (Hk0 & Hf & _). rewrite Hno in Hf; [done|]. unfold dirents in *. dlia. }
  unfold dirlink. rewrite (bind_ok _ _ _ _ _ E1). cbn [Z.eqb negb]. rewrite bind_get. cbv zeta.
  destruct (only_de_open D lg s s1 dp Ho Hde1) as [Ho1 Hg1]. fold i in Hg1. rewrite Hg1.
  replace ((i_size i + SIZEOF_DIRENT - 1) / SIZEOF_DIRENT) with (dirents i) by (unfold dirents, SIZEOF_DIRENT; dlia).
  match goal with |- context [for_up _ 0 ?b] => change b with seek end. assert (Hd0 : 0 ≤ dirents i) by (unfold dirents; dlia).
  destruct (seek_scan (Z.to_nat (dirents i)) s1 0 Ho1) as (s2 & Hde2 & E2); [lia|rewrite Hg1; unfold dirents; dlia|]. rewrite Hg1 in E2.
  rewrite (bind_ok _ _ _ _ _ E2), bind_get.
  set (k := default (dirents i) (zfind (is_free i) (Z.to_nat (dirents i)) 0)).
  assert (Hk : 0 ≤ k ≤ dirents i ∧ (k < dirents i → is_free i k = true)).
  { unfold k. destruct (zfind (is_free i) (Z.to_nat (dirents i)) 0) as [j|] eqn:Ej; unfold default.
    - apply zfind_Some in Ej as (? & ? & _). cbn [from_option id]. split; [lia|done].
    - cbn [from_option]. lia. }
  destruct Hk as [Hk Hkf]. assert (Hoff : match (λ j, j * 16) <$> zfind (is_free i) (Z.to_nat (dirents i)) 0 with
    | Some off => off | None => Z.of_nat (Z.to_nat (dirents i)) * SIZEOF_DIRENT end = k * 16).
  { unfold k, SIZEOF_DIRENT. destruct (zfind (is_free i) (Z.to_nat (dirents i)) 0); cbn; lia. }
  rewrite Hoff. clear Hoff. pose proof (only_de_trans _ _ _ _ _ Hde1 Hde2) as Hde.
  set (m3 := store 2 (strncpy (kmem s2) (de_name de) name DIRSIZ) de inum).
  set (s3 := mkfstate (fs_io s2) (r_ku (mkku m3 (ku_user (fr_ku (fs_rest s2)))) (fs_rest s2))).
  assert (E3 : set_kmem m3 s2 = Ok tt s3) by done. rewrite (bind_ok _ _ _ _ _ E3). clear E3.
  assert (Hn2 : cstrn 14 (kmem s2) name = nm).
  { rewrite <-Hn. apply cstrn_ext. intros j Hj. destruct Hde as (_ & ku & Er & _ & Hm). unfold kmem at 1. rewrite Er. cbn. apply Hm. lia. }
  assert (Hde3 : only_de D lg s s3).
  { destruct Hde as (HR & ku & Er & Hu & Hm). split; [done|].
    exists (mkku m3 (ku_user (fr_ku (fs_rest s2)))). split; [unfold s3; cbn [fs_rest]; by rewrite Er|]. split; [cbn [ku_user]; by rewrite Er|].
    intros x Hx. cbn [ku_kmem]. unfold m3.
    rewrite ldb_store by lia. unfold strncpy. rewrite strncpy_loop_outside by (unfold de_name, DIRSIZ; lia). unfold kmem at 1. rewrite Er. by apply Hm. }
  destruct (only_de_open D lg s s3 dp Ho Hde3) as [Ho3 Hg3]. fold i in Hg3.
  destruct (new_dent_fields (kmem s2) inum Hn2 ltac:(lia)) as (Hlen & Hbytes & Hinum & Hname).
  destruct (writei_run dev sb dstart s3 D lg dp 0 de (k * 16) (new_dent inum) (ksrc de (new_dent inum))) as (tot & s4 & D' & lg' & E4 & Ht & Hfull & Ho4 & Hfw & _);
    [done|rewrite Hg3; unfold dirents in *; dlia|rewrite Hlen; unfold dirents in *; dlia|done| | | |].
  { rewrite Hlen. assert (rounds (k * 16) 16 = 1) as -> by (unfold rounds; cbn [Z.ltb Z.compare]; dlia). lia. }
  { intros. by apply ksrc_step. }
  { unfold ksrc. cbn [r_ku fr_ku fs_rest s3 ku_kmem]. unfold len in Hlen. replace (length (new_dent inum)) with 16%nat by lia. by apply new_dent_in_memory. }
  rewrite Hlen in *. rewrite Hg3 in Hfw. exists s4, D', lg'. cbv zeta. split; [done|]. change SIZEOF_DIRENT with 16. rewrite (bind_ok _ _ _ _ _ E4).
  destruct (Z.eqb_spec tot 16) as [->|Hne]; cbn [negb].
  - left. destruct (dir_written D' i (geti s4 dp) inum k Hfw Hlen Hk ltac:(lia) Hal) as (Hd & Hal' & Hnew & Hold). split_and!; [done|done|].
    exists k. rewrite Hnew. split_and!; [|done|done|done|done|done]. apply zfind_only; [lia| |].
    + unfold is_named. rewrite Hnew, Hinum, Hname, bool_decide_true by done. destruct (Z.eqb_spec inum 0); [lia|done].
    + intros j Hj. unfold is_named. rewrite Hold by lia. apply Hno. lia.
  - right. split; [done|]. apply Hfull. lia.
Qed.
End dirs.

(** * The theorems at a concrete state: the root directory with "." and ".." *)

(** A one-character name is at address 6000. *)
Definition named_rest (c : Z) : frest unit := r_ku (mkku (λ a, if a =? 6000 then c else 0) tt) (demo_rest1 1).

Lemma named_open io c : t_rep (TX := demo_io) demo_disk ∅ ∅ io → file_open (U := unit) 1 demo_sb 47 (mkfstate io (named_rest c)) demo_disk ∅ 1.
Proof. intros HR. destruct (demo_open io 1 HR) as [? ? ? ? ? Hit]; [done|]. constructor; try done. by destruct Hit. Qed.

Lemma dirlookup_spec_witness :
  ∃ (io : lstate Bio.bstate),
    (∃ ip s', dirlookup (U := unit) 0 7000 1 6000 (mkfstate io (named_rest 46)) = Ok (ip, 0) s' ∧ iptr ip ∧
       imatch 1 1 (geti s' ip) = true ∧ it_ok (fs_rest s') ∧ t_rep demo_disk ∅ ∅ (fs_io s') ∧
       (∀ jp, iptr jp → jp ≠ ip → geti s' jp = geti (mkfstate io (named_rest 46)) jp)) ∨
    (dirlookup (U := unit) 0 7000 1 6000 (mkfstate io (named_rest 46)) = Panic "iget: no inodes" ∧
       ∀ ip, iptr ip → i_ref (geti (mkfstate io (named_rest 46)) ip) ≠ 0).
Proof.
  destruct demo_rep as [io HR]. exists io. assert (Hsz : Z.of_nat (size (∅ : gset Z)) ≤ 28) by done.
  pose proof (dirlookup_spec 1 demo_sb 47 0 7000 demo_disk ∅ 1 6000 [46] Hsz ltac:(lia) (mkfstate io (named_rest 46))
    (named_open io 46 HR) eq_refl eq_refl eq_refl) as Hs.
  assert (zfind (is_named demo_disk (geti (mkfstate io (named_rest 46)) 1) [46]) (Z.to_nat (dirents (geti (mkfstate io (named_rest 46)) 1))) 0 = Some 0) as E by (by vm_compute).
  assert (dent_inum (dent demo_disk (geti (mkfstate io (named_rest 46)) 1) 0) = 1) as E2 by (by vm_compute).
  rewrite E, E2 in Hs. exact Hs.
Defined.

Lemma dirlink_spec_witness :
  ∃ (io : lstate Bio.bstate) s' D' lg', file_open 1 demo_sb 47 s' D' lg' 1 ∧
    ((dirlink (U := unit) 0 7 7000 1 6000 5 (mkfstate io (named_rest 97)) = Ok 0 s' ∧ i_size (geti s' 1) mod 16 = 0 ∧
      ∃ k, zfind (is_named D' (geti s' 1) [97]) (Z.to_nat (dirents (geti s' 1))) 0 = Some k ∧
        dent D' (geti s' 1) k = new_dent [97] 5 ∧ dent_inum (dent D' (geti s' 1) k) = 5 ∧
        (k < dirents (demo_inode 1) → is_free demo_disk (demo_inode 1) k = true) ∧ dirents (geti s' 1) = Z.max (dirents (demo_inode 1)) (k + 1) ∧
        ∀ j, 0 ≤ j < dirents (demo_inode 1) → j ≠ k → dent D' (geti s' 1) j = dent demo_disk (demo_inode 1) j) ∨
     (dirlink (U := unit) 0 7 7000 1 6000 5 (mkfstate io (named_rest 97)) = Ok (-1) s' ∧
      ∀ b, 0 ≤ b < sb_size demo_sb → used demo_sb D' b = true)).
Proof.
  destruct demo_rep as [io HR]. exists io. assert (Hsz : Z.of_nat (size (∅ : gset Z)) ≤ 28) by done.
  apply (dirlink_spec 1 demo_sb 47 0 7000 demo_disk ∅ 1 6000 [97] Hsz ltac:(lia) (mkfstate io (named_rest 97)) 5 7 (named_open io 97 HR));
    [done|done|done| |done|done|by vm_compute].
  intros k Hk. change (dirents _) with 2 in Hk. assert (k = 0 ∨ k = 1) as [-> | ->] by lia; by vm_compute.
Defined.
