(* ===== verification/Mkfs.v ===== *)
(** mkfs/mkfs.c: the program that builds the first file system.

    The image is a file of blocks: [img] are the blocks, [nimg] how many there
    are.  A [die] or a failed [assert] is the [Panic] of the monad.  The host is
    taken to be little-endian, as the machine is; its files are given by the
    results of the reads: any non-empty pieces of at most a block.

    [MkfsSpec] shows what the kernel finds in the image. *)

From stdpp Require Import base tactics list numbers strings gmap functions.
From S2P Require Import Prelude Param Bytes CString Fs.
From Stdlib Require Import ZArith Lia.

Open Scope kernel_scope.

Definition NINODES : Z := 200.
Definition nbitmap : Z := FSSIZE / BPB + 1.
Definition ninodeblocks : Z := NINODES / IPB + 1.
(** Header followed by LOGBLOCKS data blocks. *)
Definition nlog : Z := LOGBLOCKS + 1.
Definition nmeta : Z := 2 + nlog + ninodeblocks + nbitmap.
Definition nblocks : Z := FSSIZE - nmeta.

(** The image and the counters. *)
Record mkfs := mkmkfs { img : Z → list Z; nimg : Z; freeinode : Z; freeblock : Z }.

Definition set_img (d : Z → list Z) (n : Z) (s : mkfs) : mkfs := mkmkfs d n (freeinode s) (freeblock s).
Definition set_freeinode (i : Z) (s : mkfs) : mkfs := mkmkfs (img s) (nimg s) i (freeblock s).
Definition set_freeblock (b : Z) (s : mkfs) : mkfs := mkmkfs (img s) (nimg s) (freeinode s) b.

(** "convert to riscv byte order" *)
Definition xshort (x : Z) : Z := Bytes.le_dec [u8 x; u8 (Z.shiftr x 8)].
Definition xint (x : Z) : Z := Bytes.le_dec [u8 x; u8 (Z.shiftr x 8); u8 (Z.shiftr x 16); u8 (Z.shiftr x 24)].

Definition mk_sb : superblock :=
  mksb FSMAGIC (xint FSSIZE) (xint nblocks) (xint NINODES) (xint nlog) (xint 2) (xint (2 + nlog)) (xint (2 + nlog + ninodeblocks)).

(** [memmove(buf, &sb, sizeof(sb))] *)
Definition put_sb (d : list Z) (b : superblock) : list Z :=
  let d := blk_store 4 d 0 (sb_magic b) in
  let d := blk_store 4 d 4 (sb_size b) in
  let d := blk_store 4 d 8 (sb_nblocks b) in
  let d := blk_store 4 d 12 (sb_ninodes b) in
  let d := blk_store 4 d 16 (sb_nlog b) in
  let d := blk_store 4 d 20 (sb_logstart b) in
  let d := blk_store 4 d 24 (sb_inodestart b) in
  blk_store 4 d 28 (sb_bmapstart b).

Definition zeroes : list Z := replicate 1024 0.

(** The block at [lseek(fsfd, sec * BSIZE, 0)]. *)
Definition sector (sec : Z) : Z := u32 (sec * BSIZE) / BSIZE.

(** A write past the end makes the image longer. *)
Definition wsect (sec : Z) (buf : list Z) : M mkfs unit :=
  modify (λ s, set_img (<[sector sec := buf]> (img s)) (Z.max (nimg s) (sector sec + 1)) s).

Definition rsect (sec : Z) : M mkfs (list Z) :=
  s <- get ;;
  if sector sec <? nimg s then ret (img s (sector sec)) else panic "read".

Definition winode (inum : Z) (ip : dinode) : M mkfs unit :=
  let bn := IBLOCK inum mk_sb in
  buf <- rsect bn ;;
  wsect bn (put_dinode buf (dinode_off inum) ip).

Definition rinode (inum : Z) : M mkfs dinode :=
  let bn := IBLOCK inum mk_sb in
  buf <- rsect bn ;;
  ret (get_dinode buf (dinode_off inum)).

Definition mk_ialloc (type : Z) : M mkfs Z :=
  s <- get ;;
  let inum := freeinode s in
  modify (set_freeinode (u32 (inum + 1))) ;;
  winode inum (mkdinode (s16 (xshort type)) 0 0 (s16 (xshort 1)) (xint 0) (replicate 13 0)) ;;
  ret inum.

(** [for(i = 0; i < used; i++) buf[i/8] = buf[i/8] | (0x1 << (i%8))] *)
Fixpoint mark_loop (n : nat) (i : Z) (buf : list Z) : list Z :=
  match n with
  | O => buf
  | S n' => mark_loop n' (i + 1) (zset buf (i / 8) (u8 (Z.lor (znth 0 buf (i / 8)) (Z.shiftl 1 (i mod 8)))))
  end.

Definition mk_balloc (used : Z) : M mkfs unit :=
  if negb (used <? BPB) then panic "assert"
  else wsect (sb_bmapstart mk_sb) (mark_loop (Z.to_nat used) 0 zeroes).

(** [freeblock++] *)
Definition take_block : M mkfs Z :=
  s <- get ;;
  modify (set_freeblock (u32 (freeblock s + 1))) ;;
  ret (freeblock s).

Definition set_addr (i v : Z) (x : dinode) : dinode :=
  mkdinode (di_type x) (di_major x) (di_minor x) (di_nlink x) (di_size x) (zset (di_addrs x) i v).
Definition set_size (v : Z) (x : dinode) : dinode :=
  mkdinode (di_type x) (di_major x) (di_minor x) (di_nlink x) v (di_addrs x).

(** The block [x] for block [fbn] of the file, allocated if there is none. *)
Definition file_block (din : dinode) (fbn : Z) : M mkfs (dinode * Z) :=
  if fbn <? NDIRECT then
    din <- (if xint (znth 0 (di_addrs din) fbn) =? 0 then b <- take_block ;; ret (set_addr fbn (xint b) din) else ret din) ;;
    ret (din, xint (znth 0 (di_addrs din) fbn))
  else
    din <- (if xint (znth 0 (di_addrs din) NDIRECT) =? 0 then b <- take_block ;; ret (set_addr NDIRECT (xint b) din) else ret din) ;;
    indirect <- rsect (xint (znth 0 (di_addrs din) NDIRECT)) ;;
    indirect <- (if ind_get indirect (fbn - NDIRECT) =? 0
                 then
                   b <- take_block ;;
                   let indirect := ind_set indirect (fbn - NDIRECT) (xint b) in
                   wsect (xint (znth 0 (di_addrs din) NDIRECT)) indirect ;;
                   ret indirect
                 else ret indirect) ;;
    ret (din, xint (ind_get indirect (fbn - NDIRECT))).

(** The loop of [iappend]; [p] are the [n] bytes that are left. *)
Fixpoint iappend_loop (fuel : nat) (din : dinode) (off : Z) (p : list Z) : M mkfs (dinode * Z) :=
  if len p =? 0 then ret (din, off)
  else
    match fuel with
    | O => λ _, OutOfFuel
    | S fuel' =>
        let fbn := off / BSIZE in
        if negb (fbn <? MAXFILE) then panic "assert"
        else
          ' (din, x) <- file_block din fbn ;;
          let n1 := Z.min (len p) ((fbn + 1) * BSIZE - off) in
          buf <- rsect x ;;
          wsect x (blk_write buf (Z.to_nat (off - fbn * BSIZE)) (take (Z.to_nat n1) p)) ;;
          iappend_loop fuel' din (off + n1) (drop (Z.to_nat n1) p)
    end.

(** Every turn writes a byte. *)
Definition iappend (inum : Z) (p : list Z) : M mkfs unit :=
  din <- rinode inum ;;
  ' (din, off) <- iappend_loop (length p) din (xint (di_size din)) p ;;
  winode inum (set_size (xint off) din).

(** [struct dirent]; the name is cut at, or filled up to, [DIRSIZ]. *)
Definition dirent_of (inum : Z) (name : list Z) : list Z :=
  le_enc 2 (xshort inum) ++ take 14 (name ++ replicate 14 0).

(** The name without "user/" and a leading underscore; [None]: a slash is left. *)
Definition no_user (name : list Z) : list Z :=
  if decide (take 5 name = [117; 115; 101; 114; 47]) then drop 5 name else name.

Definition no_underscore (name : list Z) : list Z :=
  match name with c :: rest => if c =? 95 then rest else name | [] => [] end.

(** A file to copy: its path, and what the reads return, if it can be opened. *)
Definition hostfile : Type := list Z * option (list (list Z)).

Fixpoint copy_in (inum : Z) (pieces : list (list Z)) : M mkfs unit :=
  match pieces with
  | [] => ret tt
  | p :: rest => iappend inum p ;; copy_in inum rest
  end.

Definition add_file (rootino : Z) (shortname : list Z) (pieces : list (list Z)) : M mkfs unit :=
  inum <- mk_ialloc T_FILE ;;
  iappend rootino (dirent_of inum shortname) ;;
  copy_in inum pieces.

Fixpoint add_files (rootino : Z) (files : list hostfile) : M mkfs unit :=
  match files with
  | [] => ret tt
  | (path, contents) :: rest =>
      let shortname := no_user path in
      if bool_decide (47 ∈ shortname) then panic "assert"
      else
        match contents with
        | None => panic "open"
        | Some pieces =>
            let shortname := no_underscore shortname in
            if negb (len shortname <=? DIRSIZ) then panic "assert"
            else
              add_file rootino shortname pieces ;;
              add_files rootino rest
        end
  end.

(** [for(i = 0; i < FSSIZE; i++) wsect(i, zeroes)] *)
Fixpoint zero_loop (n : nat) (i : Z) : M mkfs unit :=
  match n with
  | O => ret tt
  | S n' => wsect i zeroes ;; zero_loop n' (i + 1)
  end.

(** "fix size of root inode dir" *)
Definition fix_root (rootino : Z) : M mkfs unit :=
  din <- rinode rootino ;;
  let off := xint (di_size din) in
  let off := u32 ((off / BSIZE + 1) * BSIZE) in
  winode rootino (set_size (xint off) din).

(** The image has just been opened and cut to nothing. *)
Definition mkfs0 : mkfs := mkmkfs (λ _, zeroes) 0 1 0.

(** The root directory with "." and "..". *)
Definition make_root : M mkfs Z :=
  rootino <- mk_ialloc T_DIR ;;
  (if negb (rootino =? ROOTINO) then panic "assert" else ret tt) ;;
  iappend rootino (dirent_of rootino [46]) ;;
  iappend rootino (dirent_of rootino [46; 46]) ;;
  ret rootino.

Definition build (files : list hostfile) : M mkfs unit :=
  modify (set_freeblock nmeta) ;;
  zero_loop (Z.to_nat FSSIZE) 0 ;;
  wsect 1 (put_sb zeroes mk_sb) ;;
  rootino <- make_root ;;
  add_files rootino files ;;
  fix_root rootino ;;
  s <- get ;;
  mk_balloc (freeblock s).

(** [image]: whether the image can be opened; [None] when there is no argument. *)
Definition mkfs_main (image : option bool) (files : list hostfile) : M mkfs unit :=
  match image with
  | None => panic "usage"
  | Some false => panic "open"
  | Some true => build files
  end.
