(* ===== verification/MkfsSpec.v ===== *)
(** mkfs/mkfs.c: what the kernel finds in the image.

    [files_inv] is the invariant of the builder: the image holds the files made
    so far, each in blocks of its own below [freeblock], in the order of their
    inodes.  [iappend] is shown to append to one file and to leave the others
    alone.  The theorem at the end: the image of [mkfs_main] is a disk as the
    kernel's file system expects it ([layout], [disk_ok], [file_ok], the last
    with an exception for the root directory), its bitmap marks no block too
    many, and its files are the files given, under their names in the root
    directory. *)

From stdpp Require Import base tactics list numbers strings gmap functions.
From S2P Require Import Prelude Param Bytes CString BufSpec Fs FsAlloc FsInode FsFile Mkfs.
From Stdlib Require Import ZArith Lia.

Open Scope kernel_scope.

(** * Numbers *)

Lemma xint_id x : 0 ≤ x < 4294967296 → xint x = x.
Proof.
  intros Hx. unfold xint. cbn [Bytes.le_dec]. rewrite !u8_u8, !Z.shiftr_div_pow2 by lia. unfold u8.
  change (2 ^ 8) with 256. change (2 ^ 16) with 65536. change (2 ^ 24) with 16777216. dlia.
Qed.

Lemma xshort_id x : 0 ≤ x < 65536 → xshort x = x.
Proof.
  intros Hx. unfold xshort. cbn [Bytes.le_dec]. rewrite !u8_u8, !Z.shiftr_div_pow2 by lia. unfold u8.
  change (2 ^ 8) with 256. dlia.
Qed.

Lemma sector_id b : 0 ≤ b < 2000 → sector b = b.
Proof. intros Hb. unfold sector. change BSIZE with 1024. rewrite u32_id by lia. dlia. Qed.

Lemma mk_sb_eq : mk_sb = mksb 270544960 2000 1953 200 31 2 33 46.
Proof. by vm_compute. Qed.

Lemma mk_sb_size : sb_size mk_sb = 2000.
Proof. by rewrite mk_sb_eq. Qed.

Lemma mk_sb_ninodes : sb_ninodes mk_sb = 200.
Proof. by rewrite mk_sb_eq. Qed.

Lemma mk_sb_inodestart : sb_inodestart mk_sb = 33.
Proof. by rewrite mk_sb_eq. Qed.

Lemma mk_sb_bmapstart : sb_bmapstart mk_sb = 46.
Proof. by rewrite mk_sb_eq. Qed.

Lemma nmeta_eq : nmeta = 47.
Proof. by vm_compute. Qed.

Definition home (b : Z) : Prop := 33 ≤ b < 2000.

Lemma mk_layout : layout home mk_sb 47.
Proof. rewrite mk_sb_eq. constructor; cbn; try lia; by vm_compute. Qed.

Lemma wf_zeroes : wf_block zeroes.
Proof. split; [done|]. apply Forall_replicate. lia. Qed.

Lemma znth_zeroes i : znth 0 zeroes i = 0.
Proof. unfold znth, zeroes. destruct (i <? 0); [done|]. destruct (replicate _ _ !! _) as [x|] eqn:E; [|done]. by apply lookup_replicate in E as [-> _]. Qed.

(** * The calls *)

Section calls.
  Context (D : Z → list Z) (fi fb : Z).

Lemma rsect_ok b : 0 ≤ b < 2000 → rsect b (mkmkfs D 2000 fi fb) = Ok (D b) (mkmkfs D 2000 fi fb).
Proof. intros Hb. unfold rsect, bind, get. cbn. rewrite sector_id by done. by rewrite (proj2 (Z.ltb_lt _ _)) by lia. Qed.

Lemma wsect_ok b d : 0 ≤ b < 2000 → wsect b d (mkmkfs D 2000 fi fb) = Ok tt (mkmkfs (<[b := d]> D) 2000 fi fb).
Proof. intros Hb. unfold wsect, modify, set_img. cbn. rewrite sector_id by done. by rewrite Z.max_l by lia. Qed.

Lemma take_block_ok : 0 ≤ fb < 2000 → take_block (mkmkfs D 2000 fi fb) = Ok fb (mkmkfs D 2000 fi (fb + 1)).
Proof. intros Hb. unfold take_block, bind, get, modify, ret, set_freeblock. cbn. by rewrite u32_id by lia. Qed.

Lemma iblock_range inum : 0 ≤ inum < 200 → 33 ≤ IBLOCK inum mk_sb < 46.
Proof.
  intros Hi. pose proof (IBLOCK_range _ _ _ mk_layout inum) as H. rewrite mk_sb_ninodes, mk_sb_inodestart, mk_sb_bmapstart in H. by apply H.
Qed.

Lemma rinode_ok inum : 0 ≤ inum < 200 → rinode inum (mkmkfs D 2000 fi fb) = Ok (dinode_at mk_sb D inum) (mkmkfs D 2000 fi fb).
Proof.
  intros Hi. pose proof (iblock_range inum Hi). unfold rinode. rewrite (bind_ok _ _ _ _ _ (rsect_ok (IBLOCK inum mk_sb) ltac:(lia))). done.
Qed.

Lemma winode_ok inum x : 0 ≤ inum < 200 →
  winode inum x (mkmkfs D 2000 fi fb) =
  Ok tt (mkmkfs (<[IBLOCK inum mk_sb := put_dinode (D (IBLOCK inum mk_sb)) (dinode_off inum) x]> D) 2000 fi fb).
Proof.
  intros Hi. pose proof (iblock_range inum Hi). unfold winode. rewrite (bind_ok _ _ _ _ _ (rsect_ok (IBLOCK inum mk_sb) ltac:(lia))).
  by apply wsect_ok; lia.
Qed.
End calls.

(** * One file *)

(** A file of [n] bytes has block [k]; 268 stands for the indirect block. *)
Definition has (n k : Z) : Prop := (0 ≤ k < 268 ∧ k * 1024 < n) ∨ (k = 268 ∧ 12288 < n).

(** The blocks of a file of [n] bytes, the indirect block included. *)
Definition need (n : Z) : Z := (n + 1023) / 1024 + (if 12288 <? n then 1 else 0).

(** The blocks [P] of the file are there, below [fb], each for itself. *)
Record fmapped (fb : Z) (D : Z → list Z) (l : list Z) (P : Z → Prop) : Prop := {
  fm_len : len l = 13;
  fm_addrs : Forall (λ a, 0 ≤ a < 4294967296) l;
  fm_iff : ∀ k, 0 ≤ k ≤ 268 → slot D l k ≠ 0 ↔ P k;
  fm_range : ∀ k, 0 ≤ k ≤ 268 → slot D l k ≠ 0 → 47 ≤ slot D l k < fb;
  fm_inj : ∀ k j, 0 ≤ k ≤ 268 → 0 ≤ j ≤ 268 → slot D l k ≠ 0 → slot D l k = slot D l j → k = j;
}.

(** The file reads as [c], and as zeros after that. *)
Definition reads (D : Z → list Z) (l c : list Z) : Prop := ∀ o, 0 ≤ o < 274432 → fbyte D l o = znth 0 c o.

(** The image: whole blocks, block 0 and those not yet in use are blank. *)
Record blank (fb : Z) (D : Z → list Z) : Prop := {
  bl_wf : ∀ b, wf_block (D b);
  bl_zero : D 0 = zeroes;
  bl_free : ∀ b, fb ≤ b → D b = zeroes;
  bl_range : 47 ≤ fb ≤ 2000;
}.

(** A file has grown: new blocks are fresh, and no block of another is touched. *)
Record grows (D : Z → list Z) (l : list Z) (fb : Z) (D' : Z → list Z) (l' : list Z) (fb' : Z) : Prop := {
  gw_fb : fb ≤ fb';
  gw_slot : ∀ k, 0 ≤ k ≤ 268 → slot D' l' k = slot D l k ∨ fb ≤ slot D' l' k;
  gw_keep : ∀ b, b < fb → (∀ k, 0 ≤ k ≤ 268 → slot D l k ≠ 0 → slot D l k ≠ b) → D' b = D b;
}.

Lemma grows_refl D l fb : grows D l fb D l fb.
Proof. constructor; auto with lia. Qed.

Lemma grows_trans D l fb D1 l1 fb1 D2 l2 fb2 :
  grows D l fb D1 l1 fb1 → grows D1 l1 fb1 D2 l2 fb2 → grows D l fb D2 l2 fb2.
Proof.
  intros [A1 A2 A3] [B1 B2 B3]. constructor; [lia| |].
  - intros k Hk. destruct (B2 k Hk) as [-> |]; [by apply A2|right; lia].
  - intros b Hb Hn. rewrite B3, A3; [done|done|done|lia|]. intros k Hk Hnz E. destruct (A2 k Hk) as [E1|E1]; [|lia].
    apply (Hn k Hk); congruence.
Qed.

(** Adding the fresh block [fb] as block [k0]. *)
Lemma add_slot fb D D' l l' P k0 c (ind := znth 0 l 12) :
  fmapped fb D l P → reads D l c → blank fb D → ¬ P k0 → 0 ≤ k0 ≤ 268 → len l' = 13 → Forall (λ a, 0 ≤ a < 4294967296) l' →
  (∀ k, 0 ≤ k ≤ 268 → slot D' l' k = if decide (k = k0) then fb else slot D l k) →
  (∀ b, b = 0 ∨ b ≠ ind → D' b = D b) →
  fmapped (fb + 1) D' l' (λ k, P k ∨ k = k0) ∧ reads D' l' c ∧ grows D l fb D' l' (fb + 1).
Proof.
  intros [Hl Ha Hi Hr Hj] Hc [_ H0 Hfree Hfb] HP Hk0 Hl' Ha' Hs Hk. assert (Hs0 : slot D l k0 = 0) by (destruct (decide (slot D l k0 = 0)); [done|]; by apply Hi in n).
  assert (Hind : slot D l 268 = ind) by done. split_and!; [constructor; try done|..].
  - intros k Hk'. rewrite Hs by done. case_decide; [split; [by right|lia]|]. rewrite Hi by done. tauto.
  - intros k Hk'. rewrite Hs by done. case_decide; [lia|]. intros Hnz. specialize (Hr k Hk' Hnz). lia.
  - intros k j Hkr Hjr. rewrite !Hs by done. repeat case_decide; subst; try done; intros Hnz E.
    + assert (Hz : slot D l j ≠ 0) by lia. specialize (Hr j Hjr Hz). lia.
    + specialize (Hr k Hkr Hnz). lia.
    + by apply Hj.
  - intros o Ho. assert (Hko : 0 ≤ o / 1024 < 268) by dlia. rewrite <-Hc by done. unfold fbyte. rewrite Hs by lia. case_decide as E.
    + assert (fb ≠ ind) by (intros E'; specialize (Hr 268); rewrite Hind in Hr; lia). rewrite E, Hs0, H0, Hk, Hfree, !znth_zeroes by lia. done.
    + f_equal. apply Hk. destruct (decide (slot D l (o / 1024) = 0)) as [|Hnz]; [by left|right]. intros E'. rewrite <-Hind in E'.
      specialize (Hj (o / 1024) 268 ltac:(lia) ltac:(lia) Hnz E'). lia.
  - constructor; [lia| |].
    + intros k Hk'. rewrite Hs by done. case_decide; [by right; lia|by left].
    + intros b Hb Hn. apply Hk. destruct (decide (b = 0)) as [|Hb0]; [by left|]. right. intros ->. by apply (Hn 268); [lia|rewrite Hind|].
Qed.

Definition addrs_ok (l : list Z) : Prop := Forall (λ a, 0 ≤ a < 4294967296) l.

Lemma xint_addr l k : addrs_ok l → xint (znth 0 l k) = znth 0 l k.
Proof.
  intros Hl. apply xint_id. unfold znth. destruct (k <? 0); [lia|]. destruct (l !! Z.to_nat k) as [x|] eqn:E; cbn; [|lia].
  by apply (Forall_lookup_1 _ _ _ _ Hl E).
Qed.

Lemma addrs_zset l k x : addrs_ok l → 0 ≤ x < 4294967296 → addrs_ok (zset l k x).
Proof. intros Hl Hx. unfold zset. destruct (k <? 0); [done|]. by apply Forall_insert. Qed.

Lemma fmapped_ext fb D l P Q : (∀ k, 0 ≤ k ≤ 268 → P k ↔ Q k) → fmapped fb D l P → fmapped fb D l Q.
Proof. intros HPQ []. constructor; try done. intros k Hk. by rewrite fm_iff0, HPQ. Qed.

Lemma blank_next fb D : blank fb D → fb < 2000 → blank (fb + 1) D.
Proof. intros [] Hfb. constructor; try done; [|lia]. intros b Hb. apply bl_free0. lia. Qed.

Lemma blank_write fb D x d : blank fb D → 47 ≤ x < fb → wf_block d → blank fb (<[x := d]> D).
Proof.
  intros [] Hx Hd. constructor; try done.
  - intros b. destruct (decide (b = x)) as [-> |]; [by rewrite fn_lookup_insert|by rewrite fn_lookup_insert_ne].
  - by rewrite fn_lookup_insert_ne by lia.
  - intros b Hb. rewrite fn_lookup_insert_ne by lia. by apply bl_free0.
Qed.

(** A file that grows from [off] to at most the end of the block at [off]. *)
Definition in_block (off n : Z) : Prop := 0 ≤ off ≤ n ∧ off / 1024 * 1024 < n ≤ (off / 1024 + 1) * 1024 ∧ n ≤ 274432.

Lemma has_same off n k : in_block off n → off mod 1024 ≠ 0 → has off k ↔ has n k.
Proof. intros (H1 & H2 & H3) Hm. unfold has. pose proof (Z.div_mod off 1024 ltac:(lia)). pose proof (Z.mod_pos_bound off 1024 ltac:(lia)). lia. Qed.

Lemma need_same off n : in_block off n → off mod 1024 ≠ 0 → need n = need off.
Proof.
  intros (H1 & H2 & H3) Hm. unfold need. pose proof (Z.div_mod off 1024 ltac:(lia)). pose proof (Z.mod_pos_bound off 1024 ltac:(lia)).
  assert ((n + 1023) / 1024 = (off + 1023) / 1024) as -> by dlia. destruct (Z.ltb_spec 12288 n), (Z.ltb_spec 12288 off); lia.
Qed.

Lemma has_next off n k : in_block off n → off mod 1024 = 0 → has n k ↔ (has off k ∨ (k = 268 ∧ 12 ≤ off / 1024)) ∨ k = off / 1024.
Proof. intros (H1 & H2 & H3) Hm. unfold has. pose proof (Z.div_mod off 1024 ltac:(lia)). lia. Qed.

Lemma need_next off n : in_block off n → off mod 1024 = 0 → need n = need off + 1 + (if off =? 12288 then 1 else 0).
Proof.
  intros (H1 & H2 & H3) Hm. unfold need. pose proof (Z.div_mod off 1024 ltac:(lia)).
  assert ((n + 1023) / 1024 = (off + 1023) / 1024 + 1) as -> by dlia. destruct (Z.ltb_spec 12288 n), (Z.ltb_spec 12288 off), (Z.eqb_spec off 12288); lia.
Qed.

(** The file [c] in [l] is ready for its bytes up to [n]. *)
Record block_ready D l fb off c D' l' fb' n : Prop := {
  br_fb : fb' = fb + need n - need off;
  br_map : fmapped fb' D' l' (has n);
  br_reads : reads D' l' c;
  br_blank : blank fb' D';
  br_grows : grows D l fb D' l' fb';
}.

Section file_block.
  Context (fi : Z) (t ma mi nl sz : Z).
  Notation dn l := (mkdinode t ma mi nl sz l).

Section at_file.
  Context (D : Z → list Z) (fb : Z) (l c : list Z) (off n : Z) (fbn := off / 1024).
  Context (Hm : fmapped fb D l (has off)) (Hc : reads D l c) (Hb : blank fb D) (Hn : in_block off n) (Hroom : fb + need n - need off ≤ 2000).

Lemma no_slot k : 0 ≤ k ≤ 268 → ¬ has off k → slot D l k = 0.
Proof. intros Hk HP. destruct (decide (slot D l k = 0)); [done|]. by apply (fm_iff _ _ _ _ Hm) in n0. Qed.

Lemma need_le : need off ≤ need n.
Proof.
  destruct (decide (off mod 1024 = 0)) as [E|E]; [rewrite (need_next _ _ Hn E); case_match; lia|by rewrite (need_same _ _ Hn E)].
Qed.

Lemma ready_same : off mod 1024 ≠ 0 → block_ready D l fb off c D l fb n.
Proof.
  intros E. constructor; try done; [rewrite (need_same _ _ Hn E); lia| |apply grows_refl].
  eapply fmapped_ext; [|exact Hm]. intros k _. by apply has_same.
Qed.

Lemma file_block_direct : fbn < 12 → ∃ l' fb',
  file_block (dn l) fbn (mkmkfs D 2000 fi fb) = Ok (dn l', slot D l' fbn) (mkmkfs D 2000 fi fb') ∧ block_ready D l fb off c D l' fb' n.
Proof.
  intros Hd. assert (Hfbn : 0 ≤ fbn) by (unfold fbn; destruct Hn; dlia). pose proof (fm_addrs _ _ _ _ Hm) as Ha.
  assert (Hsl : ∀ l, slot D l fbn = znth 0 l fbn) by (intros l'; unfold slot; by rewrite (proj2 (Z.ltb_lt _ _)) by lia).
  unfold file_block. change NDIRECT with 12. rewrite (proj2 (Z.ltb_lt fbn 12) Hd). cbn [di_addrs]. rewrite xint_addr by done.
  destruct (decide (off mod 1024 = 0)) as [E|E].
  - pose proof (need_next _ _ Hn E) as Hnx. pose proof (bl_range _ _ Hb) as Hbr. assert (Hfb : fb < 2000) by (destruct (off =? 12288); lia).
    assert (Hnh : ¬ has off fbn) by (unfold has, fbn; dlia). rewrite <-Hsl, no_slot by (done || lia). cbn [Z.eqb].
    rewrite bind_assoc, (bind_ok _ _ _ _ _ (take_block_ok D fi fb ltac:(lia))), bind_ret, xint_id by lia. exists (zset l fbn fb), (fb + 1).
    assert (Ha' : addrs_ok (zset l fbn fb)) by (apply addrs_zset; [done|lia]). split.
    + unfold set_addr. cbn [di_type di_major di_minor di_nlink di_size di_addrs]. rewrite xint_addr by done. by rewrite Hsl.
    + destruct (add_slot fb D D l (zset l fbn fb) (has off) fbn c) as (H1 & H2 & H3); try done; [lia|rewrite len_zset; apply Hm| |].
      { intros k Hk. apply slot_zset; [apply Hm|done|done]. }
      constructor; try done; [|eapply fmapped_ext; [|exact H1]|by apply blank_next].
      * assert ((off =? 12288) = false) as E' by (apply Z.eqb_neq; intros ->; unfold fbn in Hd; done). rewrite E' in *. lia.
      * intros k Hk. rewrite (has_next off n) by done. fold fbn. cbv beta. assert (¬ 12 ≤ fbn) by lia. tauto.
  - assert (Hh : has off fbn) by (unfold has, fbn; dlia). apply (fm_iff _ _ _ _ Hm) in Hh as Hnz; [|lia]. rewrite Hsl in Hnz.
    rewrite (proj2 (Z.eqb_neq _ 0) Hnz), bind_ret. exists l, fb. split; [cbn [di_addrs]; rewrite xint_addr by done; by rewrite Hsl|]. by apply ready_same.
Qed.

(** The indirect block. *)
Lemma indirect_ok : 12 ≤ fbn → ∃ l1 fb1,
  (if xint (znth 0 l 12) =? 0 then b <- take_block ;; ret (set_addr 12 (xint b) (dn l)) else ret (dn l)) (mkmkfs D 2000 fi fb) =
    Ok (dn l1) (mkmkfs D 2000 fi fb1) ∧
  fb1 = fb + (if off =? 12288 then 1 else 0) ∧ fmapped fb1 D l1 (λ k, has off k ∨ k = 268) ∧ reads D l1 c ∧ blank fb1 D ∧ grows D l fb D l1 fb1.
Proof.
  intros Hd. pose proof (fm_addrs _ _ _ _ Hm) as Ha. pose proof (bl_range _ _ Hb) as Hbr. rewrite xint_addr by done. change (znth 0 l 12) with (slot D l 268).
  destruct (Z.eqb_spec off 12288) as [E|E].
  - assert (Hnx : need n = need off + 2). { rewrite (need_next _ _ Hn); [|by rewrite E]. by rewrite E. }
    assert (Hnh : ¬ has off 268) by (unfold has; lia). assert (H0 : slot D l 268 = 0) by (apply no_slot; [lia|done]). rewrite H0. cbn [Z.eqb].
    rewrite (bind_ok _ _ _ _ _ (take_block_ok D fi fb ltac:(lia))), xint_id by lia. exists (zset l 12 fb), (fb + 1).
    destruct (add_slot fb D D l (zset l 12 fb) (has off) 268 c) as (H1 & H2 & H3); try done; [rewrite len_zset; apply Hm|apply addrs_zset; [done|lia]| |].
    { intros k Hk. apply slot_zset_ind; [apply Hm|done|apply (bl_free _ _ Hb); lia|done|lia]. }
    split_and!; try done. apply blank_next; [done|lia].
  - assert (Hh : has off 268) by (unfold has; right; unfold fbn in Hd; dlia). apply (fm_iff _ _ _ _ Hm) in Hh as Hnz; [|lia].
    rewrite (proj2 (Z.eqb_neq _ 0) Hnz). exists l, fb. split_and!; try done; [lia| |apply grows_refl].
    eapply fmapped_ext; [|exact Hm]. intros k Hk. cbv beta. split; [by left|]. intros [| ->]; done.
Qed.

(** The entry of the indirect block. *)
Lemma entry_ok l1 fb1 (ind := znth 0 l1 12) :
  12 ≤ fbn → fb1 = fb + (if off =? 12288 then 1 else 0) → fmapped fb1 D l1 (λ k, has off k ∨ k = 268) → reads D l1 c → blank fb1 D → grows D l fb D l1 fb1 →
  ∃ indirect D' fb',
  (if ind_get (D ind) (fbn - 12) =? 0
   then b <- take_block ;; wsect ind (ind_set (D ind) (fbn - 12) (xint b)) ;; ret (ind_set (D ind) (fbn - 12) (xint b))
   else ret (D ind)) (mkmkfs D 2000 fi fb1) = Ok indirect (mkmkfs D' 2000 fi fb') ∧
  xint (ind_get indirect (fbn - 12)) = slot D' l1 fbn ∧ block_ready D l fb off c D' l1 fb' n.
Proof.
  intros Hd Efb Hm1 Hc1 Hb1 Hg1. pose proof (bl_range _ _ Hb1) as Hbr. pose proof (bl_range _ _ Hb) as Hbr0.
  assert (Hfbn : fbn < 268) by (unfold fbn; destruct Hn as (?&?&?); dlia).
  assert (Hindnz : ind ≠ 0) by (change ind with (slot D l1 268); apply (fm_iff _ _ _ _ Hm1); [lia|by right]).
  pose proof (fm_range _ _ _ _ Hm1 268 ltac:(lia) Hindnz) as Hindr. change (slot D l1 268) with ind in Hindr.
  assert (Hsl : ∀ D', slot D' l1 fbn = ind_get (D' ind) (fbn - 12)).
  { intros D'. unfold slot. fold ind. rewrite (proj2 (Z.ltb_ge fbn 12)), (proj2 (Z.eqb_neq fbn 268)), (proj2 (Z.eqb_neq ind 0)) by lia. done. }
  rewrite <-Hsl. destruct (decide (off mod 1024 = 0)) as [E|E].
  - pose proof (need_next _ _ Hn E) as Hnx. assert (Hfb1 : fb1 < 2000) by (destruct (off =? 12288); lia).
    assert (H0 : slot D l1 fbn = 0).
    { destruct (decide (slot D l1 fbn = 0)) as [|Hnz]; [done|]. apply (fm_iff _ _ _ _ Hm1) in Hnz as [Hh | ->]; [|lia|lia]. unfold has, fbn in Hh. dlia. }
    rewrite H0. cbn [Z.eqb]. rewrite (bind_ok _ _ _ _ _ (take_block_ok D fi fb1 ltac:(lia))), xint_id by lia.
    rewrite (bind_ok _ _ _ _ _ (wsect_ok D fi (fb1 + 1) ind _ ltac:(lia))). set (D' := <[ind := _]> D). exists (ind_set (D ind) (fbn - 12) fb1), D', (fb1 + 1).
    assert (Hs' : ∀ k, 0 ≤ k ≤ 268 → slot D' l1 k = if decide (k = fbn) then fb1 else slot D l1 k).
    { intros k Hk. apply slot_ind_entry; try done; [apply Hb1|lia]. }
    split_and!; [done| |].
    + rewrite Hs', decide_True by (done || lia). rewrite ind_get_set by (apply Hb1 || lia). rewrite decide_True by done. apply xint_id. lia.
    + destruct (add_slot fb1 D D' l1 l1 (λ k, has off k ∨ k = 268) fbn c) as (H1 & H2 & H3); try done; [|lia|apply Hm1|apply Hm1| |].
      { intros [Hh|Hh]; [|lia]. unfold has, fbn in Hh. dlia. }
      { intros b Hbb. unfold D'. rewrite fn_lookup_insert_ne; [done|]. fold ind in Hbb. lia. }
      constructor; [lia| |done| |by eapply grows_trans].
      * eapply fmapped_ext; [|exact H1]. intros k Hk. cbv beta. rewrite (has_next off n) by done. fold fbn. tauto.
      * apply blank_write; [by apply blank_next|lia|]. apply wf_ind_set; [apply Hb1|lia].
  - assert (Hh : has off fbn) by (unfold has, fbn in *; dlia). pose proof (proj2 (fm_iff _ _ _ _ Hm1 fbn ltac:(lia)) (or_introl Hh)) as Hnz.
    rewrite (proj2 (Z.eqb_neq _ 0) Hnz). exists (D ind), D, fb1. assert (E' : (off =? 12288) = false) by (apply Z.eqb_neq; intros ->; done).
    split_and!; [done| |].
    + rewrite Hsl. apply xint_id. rewrite <-Hsl. pose proof (fm_range _ _ _ _ Hm1 fbn ltac:(lia) Hnz). lia.
    + constructor; try done; [rewrite (need_same _ _ Hn E); rewrite E' in Efb; lia|]. eapply fmapped_ext; [|exact Hm1]. intros k Hk. cbv beta.
      rewrite <-(has_same off n) by done. split; [|by left]. intros [| ->]; [done|]. unfold has. right. unfold fbn in Hd. dlia.
Qed.

(** [file_block] finds or makes the block. *)
Lemma file_block_ok : ∃ D' l' fb',
  file_block (dn l) fbn (mkmkfs D 2000 fi fb) = Ok (dn l', slot D' l' fbn) (mkmkfs D' 2000 fi fb') ∧ block_ready D l fb off c D' l' fb' n.
Proof.
  destruct (decide (fbn < 12)) as [Hd|Hd].
  - destruct (file_block_direct Hd) as (l' & fb' & E & Hr). by exists D, l', fb'.
  - destruct (indirect_ok ltac:(lia)) as (l1 & fb1 & E1 & Efb & Hm1 & Hc1 & Hb1 & Hg1).
    assert (Hindnz : slot D l1 268 ≠ 0) by (apply (fm_iff _ _ _ _ Hm1); [lia|by right]).
    pose proof (fm_range _ _ _ _ Hm1 268 ltac:(lia) Hindnz) as Hindr. change (slot D l1 268) with (znth 0 l1 12) in Hindr.
    pose proof (bl_range _ _ Hb1) as Hbr. pose proof (fm_addrs _ _ _ _ Hm1) as Ha1.
    destruct (entry_ok l1 fb1 ltac:(lia) Efb Hm1 Hc1 Hb1 Hg1) as (indirect & D' & fb' & E2 & Ex & Hr). exists D', l1, fb'. split; [|done].
    unfold file_block. change NDIRECT with 12. rewrite (proj2 (Z.ltb_ge fbn 12)) by lia. cbn [di_addrs]. rewrite (bind_ok _ _ _ _ _ E1). cbn [di_addrs].
    rewrite xint_addr by done. rewrite (bind_ok _ _ _ _ _ (rsect_ok D fi fb1 (znth 0 l1 12) ltac:(lia))). rewrite (bind_ok _ _ _ _ _ E2). by rewrite Ex.
Qed.
End at_file.

Lemma znth_past (l : list Z) k : len l ≤ k → znth 0 l k = 0.
Proof. intros Hk. unfold znth, len in *. destruct (k <? 0); [done|]. by rewrite lookup_ge_None_2 by lia. Qed.

(** Then the bytes are written. *)
Lemma write_ok D l fb off c D' l' fb' n p (fbn := off / 1024) (x := slot D' l' fbn)
    (D2 := <[x := blk_write (D' x) (Z.to_nat (off - fbn * 1024)) p]> D') :
  block_ready D l fb off c D' l' fb' n → in_block off n → len c = off → n = off + len p → is_bytes p →
  47 ≤ x < fb' ∧ block_ready D l fb off (c ++ p) D2 l' fb' n.
Proof.
  intros [Efb [Hl Ha Hi Hr Hj] Hc Hb Hg] (Hn1 & Hn2 & Hn3) Hlc Hlp Hp. assert (Hfbn : 0 ≤ fbn < 268) by (unfold fbn; dlia).
  assert (Hxnz : x ≠ 0) by (apply Hi; [lia|]; unfold has; left; split; [done|]; unfold fbn; lia).
  assert (Hxr : 47 ≤ x < fb') by (apply Hr; [lia|done]). split; [done|].
  assert (Hxi : x ≠ znth 0 l' 12) by (intros E; specialize (Hj fbn 268 ltac:(lia) ltac:(lia) Hxnz E); lia).
  assert (Hs : ∀ k, slot D2 l' k = slot D' l' k) by (intros k; by apply slot_data).
  pose proof (bl_wf _ _ Hb x) as [Hlx _]. pose proof (Z.div_mod off 1024 ltac:(lia)) as Hdm. pose proof (Z.mod_pos_bound off 1024 ltac:(lia)) as Hmb. fold fbn in Hdm, Hn2.
  assert (Hfit : (Z.to_nat (off - fbn * 1024) + length p ≤ length (D' x))%nat) by (rewrite Hlx; unfold len in *; lia).
  constructor; try done.
  - constructor; try done; intros k; rewrite ?Hs; auto. intros j. rewrite !Hs. auto.
  - intros o Ho. unfold fbyte. rewrite Hs. destruct (decide (o / 1024 = fbn)) as [E|E].
    + rewrite E. fold x. unfold D2. rewrite fn_lookup_insert, znth_blk_write by (done || apply Z.mod_pos_bound; lia). rewrite Z2Nat.id by lia.
      pose proof (Z.div_mod o 1024 ltac:(lia)) as Hdo. specialize (Hc o Ho). unfold fbyte in Hc. rewrite E in Hc. fold x in Hc.
      destruct ((off - fbn * 1024 <=? o mod 1024) && (o mod 1024 <? off - fbn * 1024 + len p)) eqn:Er.
      * rewrite znth_app_r by lia. f_equal. lia.
      * rewrite Hc. destruct (decide (o < off)); [by rewrite znth_app_l by lia|]. rewrite !znth_past; [done|rewrite len_app; lia|lia].
    + assert (slot D' l' (o / 1024) ≠ x) as Hne. { intros E2. symmetry in E2. apply E. symmetry. apply Hj; try done; dlia. }
      unfold D2. rewrite fn_lookup_insert_ne by done. change (fbyte D' l' o = znth 0 (c ++ p) o). rewrite Hc by done.
      destruct (decide (o < off)); [by rewrite znth_app_l by lia|]. assert (n ≤ o) by (unfold fbn in *; dlia).
      rewrite !znth_past; [done|rewrite len_app; lia|lia].
  - apply blank_write; [done|done|]. apply wf_blk_write; [apply Hb|lia|done].
  - destruct Hg as [G1 G2 G3]. constructor; [done|intros k; rewrite Hs; auto|]. intros b Hbf Hk. unfold D2. rewrite fn_lookup_insert_ne; [by apply G3|].
    destruct (G2 fbn ltac:(lia)) as [E|E]; fold x in E; [|lia]. intros ->. apply (Hk fbn); [lia| |]; rewrite <-E; done.
Qed.

(** * iappend *)

Lemma need_mono a b : a ≤ b → need a ≤ need b.
Proof. intros Hab. unfold need. destruct (Z.ltb_spec 12288 a), (Z.ltb_spec 12288 b); dlia. Qed.

Lemma block_ready_refl D l fb c :
  fmapped fb D l (has (len c)) → reads D l c → blank fb D → block_ready D l fb (len c) c D l fb (len c).
Proof. intros. constructor; try done; [lia|apply grows_refl]. Qed.

Lemma append_loop fuel : ∀ p D fb l c, (length p ≤ fuel)%nat →
  fmapped fb D l (has (len c)) → reads D l c → blank fb D → is_bytes p → len c + len p ≤ 274432 → fb + need (len c + len p) - need (len c) ≤ 2000 →
  ∃ D' l' fb', iappend_loop fuel (dn l) (len c) p (mkmkfs D 2000 fi fb) = Ok (dn l', len c + len p) (mkmkfs D' 2000 fi fb') ∧
    block_ready D l fb (len c) (c ++ p) D' l' fb' (len c + len p).
Proof.
  induction fuel as [|fuel IH]; intros p D fb l c Hf Hm Hc Hb Hp Hlim Hroom; destruct (decide (p = [])) as [-> |Hne];
    try (exists D, l, fb; rewrite app_nil_r, Z.add_0_r; split; [done|by apply block_ready_refl]); [destruct p; cbn in Hf; [done|lia]|].
  assert (Hlp : 0 < len p) by (destruct p; [done|unfold len; cbn; lia]). set (off := len c) in *. assert (Hoff : 0 ≤ off) by (unfold off, len; lia).
  cbn [iappend_loop]. change BSIZE with 1024. change MAXFILE with 268. set (fbn := off / 1024). set (n1 := Z.min (len p) ((fbn + 1) * 1024 - off)).
  pose proof (Z.div_mod off 1024 ltac:(lia)) as Hdm. pose proof (Z.mod_pos_bound off 1024 ltac:(lia)) as Hmb. fold fbn in Hdm.
  assert (Hn1 : 0 < n1 ≤ len p) by lia. assert (Hin : in_block off (off + n1)) by (unfold in_block; fold fbn; lia).
  rewrite (proj2 (Z.eqb_neq (len p) 0)), (proj2 (Z.ltb_lt fbn 268)) by (unfold fbn; dlia || lia). cbn [negb].
  pose proof (need_mono (off + n1) (off + len p) ltac:(lia)) as Hmono.
  destruct (file_block_ok D fb l c off (off + n1) Hm Hc Hb Hin ltac:(lia)) as (D1 & l1 & fb1 & E1 & Hr1). fold fbn in E1. rewrite (bind_ok _ _ _ _ _ E1).
  assert (Htake : len (take (Z.to_nat n1) p) = n1) by (unfold len in *; rewrite length_take; lia).
  destruct (write_ok D l fb off c D1 l1 fb1 (off + n1) (take (Z.to_nat n1) p)) as [Hx Hr2]; try done; [lia|by apply Forall_take|]. fold fbn in Hx, Hr2.
  pose proof (bl_range _ _ (br_blank _ _ _ _ _ _ _ _ _ Hr1)) as Hbr.
  rewrite (bind_ok _ _ _ _ _ (rsect_ok D1 fi fb1 (slot D1 l1 fbn) ltac:(lia))). fold n1. rewrite (bind_ok _ _ _ _ _ (wsect_ok D1 fi fb1 (slot D1 l1 fbn) _ ltac:(lia))).
  set (D2 := <[slot D1 l1 fbn := _]> D1) in *. destruct Hr2 as [F1 F2 F3 F4 F5].
  assert (Hc' : len (c ++ take (Z.to_nat n1) p) = off + n1) by (rewrite len_app, Htake; done).
  assert (Hdrop : len (drop (Z.to_nat n1) p) = len p - n1) by (unfold len in *; rewrite length_drop; lia).
  destruct (IH (drop (Z.to_nat n1) p) D2 fb1 l1 (c ++ take (Z.to_nat n1) p)) as (D' & l' & fb' & E3 & [G1 G2 G3 G4 G5]); try done.
  { rewrite length_drop. unfold len in *. lia. }
  { by rewrite Hc'. }
  { by apply Forall_drop. }
  { rewrite Hc', Hdrop. lia. }
  { rewrite Hc', Hdrop. replace (off + n1 + (len p - n1)) with (off + len p) by lia. lia. }
  rewrite Hc', Hdrop in *. replace (off + n1 + (len p - n1)) with (off + len p) in * by lia. exists D', l', fb'. split; [done|].
  rewrite <-app_assoc, take_drop in G3. constructor; try done; [lia|by eapply grows_trans].
Qed.
End file_block.

(** * All files *)

Definition addrs_of (D : Z → list Z) (inum : Z) : list Z := di_addrs (dinode_at mk_sb D inum).

(** The inode [inum] is a file of type [t] and size [n] with the contents [c]. *)
Record file_at (fb : Z) (D : Z → list Z) (inum t n : Z) (c : list Z) : Prop := {
  fa_dinode : dinode_at mk_sb D inum = mkdinode t 0 0 1 n (addrs_of D inum);
  fa_map : fmapped fb D (addrs_of D inum) (has (len c));
  fa_reads : reads D (addrs_of D inum) c;
}.

(** Type, size and contents. *)
Notation file_t := (Z * Z * list Z)%type.

Definition blocks (fl : list file_t) : Z := foldr (λ f a, need (len f.2) + a) 0 fl.

(** The files made so far, by inode from 1 on. *)
Record files_inv (fl : list file_t) (D : Z → list Z) (fb : Z) : Prop := {
  fv_blank : blank fb D;
  fv_count : fb = 47 + blocks fl;
  fv_sb : D 1 = put_sb zeroes mk_sb;
  fv_few : (length fl ≤ 199)%nat;
  fv_file : ∀ i t n c, fl !! i = Some (t, n, c) → file_at fb D (Z.of_nat (S i)) t n c;
  fv_apart : ∀ i j k k', (i < length fl)%nat → (j < length fl)%nat → i ≠ j → 0 ≤ k ≤ 268 → 0 ≤ k' ≤ 268 →
    let l := addrs_of D (Z.of_nat (S i)) in slot D l k ≠ 0 → slot D l k ≠ slot D (addrs_of D (Z.of_nat (S j))) k';
}.

(** A file whose blocks are unchanged. *)
Lemma file_keep fb fb' D D' l P c :
  fmapped fb D l P → reads D l c → fb ≤ fb' → D' 0 = D 0 → (∀ k, 0 ≤ k ≤ 268 → slot D l k ≠ 0 → D' (slot D l k) = D (slot D l k)) →
  (∀ k, 0 ≤ k ≤ 268 → slot D' l k = slot D l k) ∧ fmapped fb' D' l P ∧ reads D' l c.
Proof.
  intros [Hl Ha Hi Hr Hj] Hc Hfb H0 HD.
  assert (Hs : ∀ k, slot D' l k = slot D l k).
  { intros k. specialize (HD 268). change (slot D l 268) with (znth 0 l 12) in HD. unfold slot. destruct (Z.eqb_spec (znth 0 l 12) 0); [done|]. by rewrite HD by lia. }
  split_and!; [done|constructor; try done; intros k; rewrite ?Hs; auto|].
  - intros Hk Hnz. specialize (Hr k Hk Hnz). lia.
  - intros j. rewrite !Hs. auto.
  - intros o Ho. rewrite <-Hc by done. unfold fbyte. rewrite Hs. f_equal. destruct (decide (slot D l (o / 1024) = 0)) as [-> |]; [done|]. apply HD; [dlia|done].
Qed.

(** One inode is written, after its file has grown from the map [l]. *)
Section set_inode.
  Context (fl fl' : list file_t) (D D1 : Z → list Z) (fb fb1 : Z) (i : nat) (t n : Z) (c l l1 : list Z).
  Context (inum := Z.of_nat (S i)) (IB := IBLOCK inum mk_sb) (x := mkdinode t 0 0 1 n l1).
  Context (D2 := <[IB := put_dinode (D1 IB) (dinode_off inum) x]> D1).
  Context (Hinv : files_inv fl D fb) (Ht : 0 ≤ t < 32768) (Hlim : 0 ≤ n < 4294967296).
  Context (Hlr : ∀ k, 0 ≤ k ≤ 268 → slot D l k ≠ 0 → 47 ≤ slot D l k < fb).
  Context (Hap : ∀ j k k', (j < length fl)%nat → j ≠ i → 0 ≤ k ≤ 268 → 0 ≤ k' ≤ 268 → slot D l k ≠ 0 → slot D l k ≠ slot D (addrs_of D (Z.of_nat (S j))) k').
  Context (Hg : grows D l fb D1 l1 fb1) (Hm : fmapped fb1 D1 l1 (has (len c))) (Hc : reads D1 l1 c) (Hb : blank fb1 D1).
  Context (Hi : fl' !! i = Some (t, n, c)) (Hother : ∀ j, j ≠ i → fl' !! j = fl !! j) (Hfew : (length fl' ≤ 199)%nat) (Hcount : fb1 = 47 + blocks fl').

Lemma inum_lt : (i < 199)%nat.
Proof. apply lookup_lt_Some in Hi. lia. Qed.

Lemma ib_range : 33 ≤ IB < 46.
Proof. pose proof inum_lt. apply iblock_range. unfold inum. lia. Qed.

Lemma d1_low b : b < 47 → D1 b = D b.
Proof.
  intros Hbl. apply (gw_keep _ _ _ _ _ _ Hg); [pose proof (bl_range _ _ (fv_blank _ _ _ Hinv)); lia|]. intros k Hk Hnz. specialize (Hlr k Hk Hnz). lia.
Qed.

Lemma x_wf : dinode_wf x.
Proof.
  constructor; cbn [x di_type di_major di_minor di_nlink di_size di_addrs]; try lia; [|apply Hm].
  pose proof (fm_len _ _ _ _ Hm) as Hl. unfold len in Hl. lia.
Qed.

Lemma d2_dinode j : (j < 199)%nat → dinode_at mk_sb D2 (Z.of_nat (S j)) = if decide (j = i) then x else dinode_at mk_sb D (Z.of_nat (S j)).
Proof.
  intros Hj. pose proof inum_lt. unfold D2, IB. rewrite (dinode_at_update _ _ _ mk_layout D1 inum (Z.of_nat (S j)) x).
  - unfold inum. destruct (decide (j = i)) as [-> |]; [by rewrite decide_True|]. rewrite decide_False by lia.
    unfold dinode_at. rewrite d1_low; [done|]. pose proof (iblock_range (Z.of_nat (S j)) ltac:(lia)). lia.
  - rewrite mk_sb_ninodes. unfold inum. lia.
  - rewrite mk_sb_ninodes. lia.
  - apply Hb.
  - apply x_wf.
Qed.

Lemma d2_blank : blank fb1 D2.
Proof.
  pose proof ib_range. destruct Hb as [H1 H2 H3 H4]. constructor; try done.
  - intros b. unfold D2. destruct (decide (b = IB)) as [-> |]; [rewrite fn_lookup_insert|by rewrite fn_lookup_insert_ne].
    apply wf_put_dinode; [done|apply dinode_off_bound|]. pose proof (fm_len _ _ _ _ Hm) as Hl. unfold len in Hl. cbn. lia.
  - unfold D2. by rewrite fn_lookup_insert_ne by lia.
  - intros b Hbb. unfold D2. rewrite fn_lookup_insert_ne by lia. by apply H3.
Qed.

(** The file itself. *)
Lemma own_keep : (∀ k, 0 ≤ k ≤ 268 → slot D2 l1 k = slot D1 l1 k) ∧ fmapped fb1 D2 l1 (has (len c)) ∧ reads D2 l1 c.
Proof.
  pose proof ib_range. apply (file_keep fb1); try done; unfold D2; [by rewrite fn_lookup_insert_ne by lia|].
  intros k Hk Hnz. apply (fm_range _ _ _ _ Hm) in Hnz; [|done]. by rewrite fn_lookup_insert_ne by lia.
Qed.

(** The other files. *)
Lemma other_keep j tj nj cj (lj := addrs_of D (Z.of_nat (S j))) : j ≠ i → fl !! j = Some (tj, nj, cj) →
  (∀ k, 0 ≤ k ≤ 268 → slot D2 lj k = slot D lj k) ∧ fmapped fb1 D2 lj (has (len cj)) ∧ reads D2 lj cj.
Proof.
  intros Hne Hj. pose proof ib_range. destruct (fv_file _ _ _ Hinv j tj nj cj Hj) as [_ Hmj Hcj]. fold lj in Hmj, Hcj. apply (file_keep fb); try done; unfold D2.
  - apply Hg.
  - rewrite fn_lookup_insert_ne by lia. apply d1_low. lia.
  - intros k Hk Hnz. pose proof (fm_range _ _ _ _ Hmj k Hk Hnz). rewrite fn_lookup_insert_ne by lia.
    apply (gw_keep _ _ _ _ _ _ Hg); [lia|]. intros k' Hk' Hnz'. apply Hap; try done. by apply lookup_lt_Some in Hj.
Qed.

Lemma own_other j k k' tj nj cj : j ≠ i → fl !! j = Some (tj, nj, cj) → 0 ≤ k ≤ 268 → 0 ≤ k' ≤ 268 →
  slot D1 l1 k ≠ 0 → slot D1 l1 k ≠ slot D (addrs_of D (Z.of_nat (S j))) k'.
Proof.
  intros Hne Hj Hk Hk' Hnz. apply lookup_lt_Some in Hj as Hlj. destruct (gw_slot _ _ _ _ _ _ Hg k Hk) as [E|E]; [rewrite E in *; by apply Hap|].
  destruct (fv_file _ _ _ Hinv j tj nj cj Hj) as [_ Hmj _]. destruct (decide (slot D (addrs_of D (Z.of_nat (S j))) k' = 0)) as [|Hnz']; [congruence|].
  pose proof (fm_range _ _ _ _ Hmj k' Hk' Hnz'). lia.
Qed.

Lemma set_inode : files_inv fl' D2 fb1.
Proof.
  pose proof ib_range. assert (Hai : addrs_of D2 (Z.of_nat (S i)) = l1) by (unfold addrs_of; rewrite d2_dinode, decide_True by (done || apply inum_lt); done).
  assert (Haj : ∀ j, (j < 199)%nat → j ≠ i → addrs_of D2 (Z.of_nat (S j)) = addrs_of D (Z.of_nat (S j))) by (intros; unfold addrs_of; by rewrite d2_dinode, decide_False).
  assert (Hlt : ∀ j, (j < length fl')%nat → j ≠ i → ∃ tj nj cj, fl !! j = Some (tj, nj, cj)).
  { intros j Hj Hne. apply lookup_lt_is_Some_2 in Hj as [[[tj nj] cj] E]. rewrite Hother in E by done. eauto. }
  destruct own_keep as (Ho1 & Ho2 & Ho3). constructor; [apply d2_blank|done| |done| |].
  - unfold D2. rewrite fn_lookup_insert_ne, d1_low by lia. apply Hinv.
  - intros j tj nj cj Hj. pose proof Hj as Hj'. apply lookup_lt_Some in Hj'. destruct (decide (j = i)) as [-> |Hne].
    + rewrite Hi in Hj. injection Hj as <- <- <-. constructor; rewrite Hai; try done. rewrite d2_dinode, decide_True by (done || lia). done.
    + rewrite Hother in Hj by done. destruct (other_keep j tj nj cj Hne Hj) as (H1 & H2 & H3). constructor; rewrite Haj by (done || lia); try done.
      rewrite d2_dinode, decide_False by (done || lia). by apply (fv_file _ _ _ Hinv j tj nj cj).
  - intros j j' k k' Hj Hj' Hne Hk Hk'. cbv zeta. destruct (decide (j = i)) as [-> |Hji], (decide (j' = i)) as [-> |Hj'i]; try done.
    + destruct (Hlt j' Hj' Hj'i) as (tj & nj & cj & E). destruct (other_keep j' tj nj cj Hj'i E) as (H1 & _). rewrite Hai, Haj, Ho1, H1 by (done || lia).
      by eapply own_other.
    + destruct (Hlt j Hj Hji) as (tj & nj & cj & E). destruct (other_keep j tj nj cj Hji E) as (H1 & _). rewrite Hai, Haj, Ho1, H1 by (done || lia).
      intros Hnz Heq. apply (own_other j k' k tj nj cj Hji E Hk' Hk); congruence.
    + destruct (Hlt j Hj Hji) as (tj & nj & cj & E), (Hlt j' Hj' Hj'i) as (tj' & nj' & cj' & E').
      destruct (other_keep j tj nj cj Hji E) as (H1 & _), (other_keep j' tj' nj' cj' Hj'i E') as (H1' & _). rewrite !Haj, H1, H1' by (done || lia).
      apply (fv_apart _ _ _ Hinv); try done; [by apply lookup_lt_Some in E|by apply lookup_lt_Some in E'].
Qed.
End set_inode.

(** * The operations *)

Definition whole (t : Z) (c : list Z) : file_t := (t, len c, c).

Lemma need_nonneg n : 0 ≤ n → 0 ≤ need n.
Proof. intros Hn. unfold need. destruct (12288 <? n); dlia. Qed.

Lemma blocks_cons f fl : blocks (f :: fl) = need (len f.2) + blocks fl.
Proof. done. Qed.

Lemma blocks_insert fl i f g : fl !! i = Some f → blocks (<[i := g]> fl) = blocks fl - need (len f.2) + need (len g.2).
Proof.
  revert i. induction fl as [|h fl IH]; intros [|i] E; try done; cbn in E.
  - injection E as ->. change (<[0%nat := g]> (f :: fl)) with (g :: fl). rewrite !blocks_cons. lia.
  - change (<[S i := g]> (h :: fl)) with (h :: <[i := g]> fl). rewrite !blocks_cons, (IH i E). lia.
Qed.

Lemma blocks_app fl gl : blocks (fl ++ gl) = blocks fl + blocks gl.
Proof. induction fl as [|h fl IH]; [done|]. cbn [app]. rewrite !blocks_cons, IH. lia. Qed.

Lemma blocks_nonneg fl : 0 ≤ blocks fl.
Proof. induction fl as [|h fl IH]; [done|]. rewrite blocks_cons. pose proof (need_nonneg (len h.2) ltac:(unfold len; lia)). lia. Qed.

(** The maps of two files have no block in common. *)
Lemma apart_own fl D fb i j k k' f : files_inv fl D fb → fl !! i = Some f → (j < length fl)%nat → j ≠ i → 0 ≤ k ≤ 268 → 0 ≤ k' ≤ 268 →
  slot D (addrs_of D (Z.of_nat (S i))) k ≠ 0 → slot D (addrs_of D (Z.of_nat (S i))) k ≠ slot D (addrs_of D (Z.of_nat (S j))) k'.
Proof. intros Hinv Hi Hj Hne Hk Hk'. apply (fv_apart _ _ _ Hinv); try done. by apply lookup_lt_Some in Hi. Qed.

Lemma iappend_ok fl D fb fi i t c p (fl' := <[i := whole t (c ++ p)]> fl) :
  files_inv fl D fb → fl !! i = Some (whole t c) → 0 ≤ t < 32768 → is_bytes p → len c + len p ≤ 274432 → 47 + blocks fl' ≤ 2000 →
  ∃ D' fb', iappend (Z.of_nat (S i)) p (mkmkfs D 2000 fi fb) = Ok tt (mkmkfs D' 2000 fi fb') ∧ files_inv fl' D' fb'.
Proof.
  intros Hinv Hi Ht Hp Hlim Hroom. set (inum := Z.of_nat (S i)). set (l := addrs_of D inum). apply lookup_lt_Some in Hi as Hli. pose proof (fv_few _ _ _ Hinv) as Hfew.
  destruct (fv_file _ _ _ Hinv i t (len c) c Hi) as [Hd Hm Hc]. fold inum l in Hd, Hm, Hc. pose proof (fv_count _ _ _ Hinv) as Hcnt.
  pose proof (blocks_insert fl i (whole t c) (whole t (c ++ p)) Hi) as Hbi. fold fl' in Hbi. cbn [whole snd] in Hbi. rewrite len_app in Hbi.
  destruct (append_loop fi t 0 0 1 (len c) (length p) p D fb l c) as (D1 & l1 & fb1 & E & [F1 F2 F3 F4 F5]); try done; [apply Hinv|lia|].
  unfold iappend. rewrite (bind_ok _ _ _ _ _ (rinode_ok D fi fb inum ltac:(lia))), Hd. cbn [di_size]. assert (0 ≤ len c ∧ 0 ≤ len p) by (unfold len; lia).
  rewrite xint_id by lia. rewrite (bind_ok _ _ _ _ _ E). unfold set_size. cbn [di_type di_major di_minor di_nlink di_addrs].
  rewrite xint_id by lia. rewrite winode_ok by lia. eexists _, _. split; [done|]. rewrite <-len_app in *.
  apply (set_inode fl fl' D D1 fb fb1 i t (len (c ++ p)) (c ++ p) l l1); try done; [unfold len in *; lia| | |by apply list_lookup_insert_eq|intros j Hj; by apply list_lookup_insert_ne| |lia].
  - intros k Hk Hnz. by apply (fm_range _ _ _ _ Hm).
  - intros j k k' Hj Hne Hk Hk' Hnz. by eapply apart_own.
  - unfold fl'. by rewrite length_insert.
Qed.

Lemma slot_none D k : slot D (replicate 13 0) k = 0.
Proof.
  assert (Hz : ∀ i, znth 0 (replicate 13 0) i = 0). { intros i. unfold znth. destruct (i <? 0); [done|]. destruct (replicate 13 0 !! Z.to_nat i) as [x|] eqn:E; [|done]. by apply lookup_replicate in E as [-> _]. }
  unfold slot. rewrite !Hz. cbn [Z.eqb]. by destruct (k <? 12), (k =? 268).
Qed.

Lemma mk_ialloc_ok fl D fb t : files_inv fl D fb → 0 ≤ t < 32768 → (length fl < 199)%nat →
  ∃ D', mk_ialloc t (mkmkfs D 2000 (Z.of_nat (S (length fl))) fb) = Ok (Z.of_nat (S (length fl))) (mkmkfs D' 2000 (Z.of_nat (S (S (length fl)))) fb) ∧
    files_inv (fl ++ [whole t []]) D' fb.
Proof.
  intros Hinv Ht Hl. pose proof (fv_blank _ _ _ Hinv) as Hb. unfold mk_ialloc, bind at 1, get. cbn [freeinode]. rewrite bind_modify. unfold set_freeinode. cbn [img nimg freeblock].
  rewrite u32_id by lia. replace (Z.of_nat (S (length fl)) + 1) with (Z.of_nat (S (S (length fl)))) by lia.
  assert (Et : s16 (xshort t) = t) by (rewrite xshort_id by lia; unfold s16; dlia). rewrite Et. change (s16 (xshort 1)) with 1. change (xint 0) with 0.
  rewrite (bind_ok _ _ _ _ _ (winode_ok D _ fb (Z.of_nat (S (length fl))) _ ltac:(lia))). eexists. split; [done|].
  assert (Hnh : ∀ k, ¬ has (len (@nil Z)) k) by (intros k; unfold has, len; cbn; lia).
  apply (set_inode fl _ D D fb fb (length fl) t 0 [] (replicate 13 0) (replicate 13 0)); try done.
  - intros k Hk. by rewrite slot_none.
  - intros j k k' Hj Hne Hk Hk'. by rewrite slot_none.
  - apply grows_refl.
  - constructor; [done|repeat constructor; lia| | |]; intros k; rewrite ?slot_none; try done. intros Hk. split; [done|]. intros Hh. by apply Hnh in Hh.
  - intros o Ho. unfold fbyte. rewrite slot_none, (bl_zero _ _ Hb), znth_zeroes. symmetry. apply znth_past. apply Ho.
  - by rewrite lookup_app_r, Nat.sub_diag by lia.
  - intros j Hj. destruct (decide (j < length fl)%nat); [by rewrite lookup_app_l|]. rewrite !lookup_ge_None_2; [done|lia|rewrite length_app; cbn; lia].
  - rewrite length_app. cbn. lia.
  - rewrite blocks_app, (fv_count _ _ _ Hinv). change (blocks [whole t []]) with 0. lia.
Qed.

Lemma copy_in_ok pieces : ∀ fl D fb fi i t c (fl' := <[i := whole t (c ++ concat pieces)]> fl),
  files_inv fl D fb → fl !! i = Some (whole t c) → 0 ≤ t < 32768 → Forall is_bytes pieces → len c + len (concat pieces) ≤ 274432 → 47 + blocks fl' ≤ 2000 →
  ∃ D' fb', copy_in (Z.of_nat (S i)) pieces (mkmkfs D 2000 fi fb) = Ok tt (mkmkfs D' 2000 fi fb') ∧ files_inv fl' D' fb'.
Proof.
  induction pieces as [|p pieces IH]; intros fl D fb fi i t c fl' Hinv Hi Ht Hp Hlim Hroom; cbn [copy_in concat] in *.
  - exists D, fb. split; [done|]. unfold fl'. rewrite app_nil_r. by rewrite list_insert_id.
  - pose proof (Forall_inv_tail Hp) as Hps. apply Forall_inv in Hp. rewrite len_app in Hlim. assert (0 ≤ len (concat pieces)) by (unfold len; lia).
    pose proof (blocks_insert fl i _ (whole t (c ++ p ++ concat pieces)) Hi) as B1. pose proof (blocks_insert fl i _ (whole t (c ++ p)) Hi) as B2. cbn [whole snd] in B1, B2.
    pose proof (need_mono (len (c ++ p)) (len (c ++ p ++ concat pieces)) ltac:(rewrite !len_app; lia)) as Hmo. fold fl' in B1.
    destruct (iappend_ok fl D fb fi i t c p Hinv Hi Ht Hp ltac:(lia) ltac:(lia)) as (D1 & fb1 & E1 & Hinv1). rewrite (bind_ok _ _ _ _ _ E1).
    apply lookup_lt_Some in Hi as Hli. destruct (IH _ D1 fb1 fi i t (c ++ p) Hinv1) as (D2 & fb2 & E2 & Hinv2); try done.
    { by rewrite list_lookup_insert_eq. }
    { rewrite len_app. lia. }
    { rewrite list_insert_insert_eq, <-app_assoc. done. }
    exists D2, fb2. split; [done|]. by rewrite list_insert_insert_eq, <-app_assoc in Hinv2.
Qed.

(** * The files given *)

Definition entry_name (f : hostfile) : list Z := no_underscore (no_user f.1).
Definition contents (f : hostfile) : list Z := concat (default [] f.2).

(** A file that can be copied: it can be opened, its name fits, it is not too
    large. *)
Record host_ok (f : hostfile) : Prop := {
  ho_open : is_Some f.2;
  ho_slash : 47 ∉ no_user f.1;
  ho_name : len (entry_name f) ≤ 14;
  ho_bytes : is_bytes (entry_name f);
  ho_pieces : Forall is_bytes (default [] f.2);
  ho_size : len (contents f) ≤ 274432;
}.

(** The entries of the root directory, the first for inode [inum]. *)
Fixpoint dirents_from (inum : Z) (files : list hostfile) : list Z :=
  match files with
  | [] => []
  | f :: rest => dirent_of inum (entry_name f) ++ dirents_from (inum + 1) rest
  end.

Lemma len_dirent inum name : len (dirent_of inum name) = 16.
Proof. unfold dirent_of. rewrite len_app. unfold len. rewrite length_le_enc, length_take, length_app, length_replicate. lia. Qed.

Lemma dirent_bytes inum name : is_bytes name → is_bytes (dirent_of inum name).
Proof. intros Hn. unfold dirent_of. apply Forall_app. split; [apply is_bytes_le_enc|]. apply Forall_take, Forall_app. split; [done|]. apply Forall_replicate. lia. Qed.

Definition copies (files : list hostfile) : list file_t := (λ f, whole T_FILE (contents f)) <$> files.

Section add_files.
  Context (f : hostfile) (r : list Z) (fl : list file_t) (D : Z → list Z) (fb : Z).
  Context (fl0 := whole T_DIR r :: fl) (inum := Z.of_nat (S (length fl0))) (de := dirent_of inum (entry_name f)).
  Context (Hinv : files_inv fl0 D fb) (Hf : host_ok f) (Hn : (length fl0 < 199)%nat) (Hr : len r = 16 * inum).
  Context (fl1 := whole T_DIR (r ++ de) :: fl ++ [whole T_FILE (contents f)]) (Hroom : 47 + blocks fl1 ≤ 2000).

(** The directory entry, and the copy. *)
Lemma add_file_ok : ∃ D' fb',
  add_file 1 (entry_name f) (default [] f.2) (mkmkfs D 2000 inum fb) = Ok tt (mkmkfs D' 2000 (inum + 1) fb') ∧ files_inv fl1 D' fb'.
Proof.
  unfold add_file.
  destruct (mk_ialloc_ok fl0 D fb T_FILE Hinv ltac:(done) Hn) as (D1 & E1 & Hinv1). fold inum in E1. rewrite (bind_ok _ _ _ _ _ E1).
  assert (Hi0 : (fl0 ++ [whole T_FILE []]) !! 0%nat = Some (whole T_DIR r)) by done. pose proof (len_dirent inum (entry_name f)) as Hde. fold de in Hde.
  assert (Hb1 : blocks fl1 = need (len (r ++ de)) + blocks fl + need (len (contents f))).
  { unfold fl1. rewrite blocks_cons, blocks_app. change (blocks [whole T_FILE (contents f)]) with (need (len (contents f)) + 0). cbn [whole snd]. lia. }
  pose proof (need_nonneg (len (contents f)) ltac:(unfold len; lia)) as Hnn.
  set (fl2 := whole T_DIR (r ++ de) :: fl ++ [whole T_FILE []]).
  assert (Hb2 : blocks fl2 = need (len (r ++ de)) + blocks fl). { unfold fl2. rewrite blocks_cons, blocks_app. change (blocks [whole T_FILE []]) with 0. cbn [whole snd]. lia. }
  destruct (iappend_ok _ D1 fb (Z.of_nat (S (S (length fl0)))) 0 T_DIR r de Hinv1 Hi0 ltac:(done)) as (D2 & fb2 & E2 & Hinv2).
  { apply dirent_bytes, Hf. }
  { rewrite Hde, Hr. unfold inum. lia. }
  { change (47 + blocks fl2 ≤ 2000). lia. }
  change (Z.of_nat 1) with 1 in E2. fold de. rewrite (bind_ok _ _ _ _ _ E2). change (files_inv fl2 D2 fb2) in Hinv2.
  assert (Hi2 : fl2 !! length fl0 = Some (whole T_FILE [])) by (change ((fl ++ [whole T_FILE []]) !! length fl = Some (whole T_FILE [])); by rewrite lookup_app_r, Nat.sub_diag by lia).
  assert (Hins : ∀ g, <[length fl0 := g]> fl2 = whole T_DIR (r ++ de) :: fl ++ [g]).
  { intros g. change (whole T_DIR (r ++ de) :: <[length fl := g]> (fl ++ [whole T_FILE []]) = whole T_DIR (r ++ de) :: fl ++ [g]).
    f_equal. by rewrite insert_app_r_alt, Nat.sub_diag by lia. }
  destruct (copy_in_ok (default [] f.2) fl2 D2 fb2 (Z.of_nat (S (S (length fl0)))) (length fl0) T_FILE [] Hinv2 Hi2 ltac:(done)) as (D3 & fb3 & E3 & Hinv3).
  { apply Hf. }
  { change (0 + len (contents f) ≤ 274432). apply Hf. }
  { rewrite Hins. done. }
  fold inum in E3. rewrite Hins in Hinv3. exists D3, fb3. split; [|done]. replace (inum + 1) with (Z.of_nat (S (S (length fl0)))) by (unfold inum; lia). done.
Qed.
End add_files.

Lemma add_files_ok files : ∀ r fl D fb (fl0 := whole T_DIR r :: fl) (inum := Z.of_nat (S (length fl0)))
    (fl' := whole T_DIR (r ++ dirents_from inum files) :: fl ++ copies files),
  files_inv fl0 D fb → Forall host_ok files → (length fl0 + length files ≤ 199)%nat → len r = 16 * inum → 47 + blocks fl' ≤ 2000 →
  ∃ D' fb', add_files 1 files (mkmkfs D 2000 inum fb) = Ok tt (mkmkfs D' 2000 (inum + Z.of_nat (length files)) fb') ∧ files_inv fl' D' fb'.
Proof.
  induction files as [|f files IH]; intros r fl D fb fl0 inum fl' Hinv Hf Hn Hr Hroom.
  - exists D, fb. unfold fl'. cbn [dirents_from copies fmap list_fmap length add_files]. rewrite !app_nil_r, Z.add_0_r. done.
  - pose proof (Forall_inv Hf) as Hok. apply Forall_inv_tail in Hf. cbn [length] in Hn. set (de := dirent_of inum (entry_name f)).
    pose proof (len_dirent inum (entry_name f)) as Hde. fold de in Hde. set (fl1 := fl ++ [whole T_FILE (contents f)]).
    assert (Hfl' : fl' = whole T_DIR ((r ++ de) ++ dirents_from (inum + 1) files) :: fl1 ++ copies files) by (unfold fl', fl1; rewrite <-!app_assoc; done).
    assert (Hrm : 47 + blocks (whole T_DIR (r ++ de) :: fl1) ≤ 2000).
    { rewrite Hfl' in Hroom. rewrite blocks_cons, blocks_app in Hroom. rewrite blocks_cons. cbn [whole snd] in *. pose proof (blocks_nonneg (copies files)).
      pose proof (need_mono (len (r ++ de)) (len ((r ++ de) ++ dirents_from (inum + 1) files)) ltac:(rewrite (len_app (r ++ de)); unfold len; lia)). lia. }
    destruct (add_file_ok f r fl D fb Hinv Hok ltac:(fold fl0; lia) Hr Hrm) as (D1 & fb1 & E1 & Hinv1). fold de fl1 in Hinv1. fold fl0 inum in E1.
    assert (Hinum : inum + 1 = Z.of_nat (S (length (whole T_DIR (r ++ de) :: fl1)))) by (unfold inum, fl0, fl1; cbn [length]; rewrite length_app; cbn; lia).
    destruct (IH (r ++ de) fl1 D1 fb1 Hinv1 Hf) as (D2 & fb2 & E2 & Hinv2).
    { cbn [length]. unfold fl1. rewrite length_app. cbn. unfold fl0 in Hn. cbn in Hn. lia. }
    { rewrite <-Hinum, len_app, Hde, Hr. lia. }
    { rewrite <-Hinum, <-Hfl'. done. }
    rewrite <-Hinum in E2, Hinv2. rewrite <-Hfl' in Hinv2. exists D2, fb2. split; [|done].
    destruct f as [path [pieces|]]; [|by destruct (ho_open _ Hok)]. cbn [add_files]. cbn [fst] in *. rewrite bool_decide_eq_false_2 by apply Hok.
    change (no_underscore (no_user path)) with (entry_name (path, Some pieces)). rewrite (proj2 (Z.leb_le _ DIRSIZ)) by apply Hok. cbn [negb].
    rewrite (bind_ok _ _ _ _ _ E1), E2. do 2 f_equal. cbn [length]. lia.
Qed.

(** * The bitmap *)

Lemma mark_loop_ok n : ∀ i buf, 0 ≤ i → i + Z.of_nat n ≤ BPB → wf_block buf →
  wf_block (mark_loop n i buf) ∧ ∀ b, 0 ≤ b < BPB → bit (mark_loop n i buf) b = bool_decide (i ≤ b < i + Z.of_nat n) || bit buf b.
Proof.
  induction n as [|n IH]; intros i buf Hi Hn Hwf; cbn [mark_loop].
  - split; [done|]. intros b Hb. by rewrite bool_decide_eq_false_2 by lia.
  - change (zset buf (i / 8) _) with (bit_set buf i). destruct (IH (i + 1) (bit_set buf i) ltac:(lia) ltac:(lia) (wf_bit_set buf Hwf i)) as [H1 H2].
    split; [done|]. intros b Hb. rewrite H2, bit_bit_set, orb_assoc by (done || lia). f_equal.
    repeat case_bool_decide; try done; lia.
Qed.

Lemma bit_zeroes b : bit zeroes b = false.
Proof. unfold bit. rewrite znth_zeroes. apply Z.testbit_0_l. Qed.

(** The last block to be written. *)
Definition marked (fb : Z) (D : Z → list Z) : Z → list Z := <[46 := mark_loop (Z.to_nat fb) 0 zeroes]> D.

Lemma used_marked fb D b : 47 ≤ fb ≤ 2000 → 0 ≤ b < 2000 → used mk_sb (marked fb D) b = (b <? fb).
Proof.
  intros Hfb Hb. unfold used. rewrite (BBLOCK_eq _ _ _ mk_layout) by (by rewrite mk_sb_size). rewrite mk_sb_bmapstart, BPB_eq.
  replace (b / 8192 + 46) with 46 by dlia. rewrite Z.mod_small by lia. unfold marked. rewrite fn_lookup_insert.
  destruct (mark_loop_ok (Z.to_nat fb) 0 zeroes) as [_ Hbit]; [lia|rewrite BPB_eq; lia|apply wf_zeroes|]. rewrite Hbit by (rewrite BPB_eq; lia).
  rewrite bit_zeroes, orb_false_r. case_bool_decide; destruct (Z.ltb_spec b fb); try done; lia.
Qed.

(** * The image *)

(** The inode [inum] of the disk [D] is a file as the kernel wants it, of type
    [t] and size [n], that reads as [c] and as zeros after that. *)
Record image_file (D : Z → list Z) (inum t n : Z) (c : list Z) (l := addrs_of D inum) : Prop := {
  if_dinode : dinode_at mk_sb D inum = mkdinode t 0 0 1 n l;
  if_inv : file_inv mk_sb 47 D l;
  if_mapped : ∀ k, 0 ≤ k < 268 → slot D l k ≠ 0 ↔ k * 1024 < len c;
  if_bytes : fbytes D l 0 (length c) = c;
  if_rest : ∀ o, len c ≤ o < 274432 → fbyte D l o = 0;
}.

Lemma marked_dinode fb D inum : 0 ≤ inum < 200 → dinode_at mk_sb (marked fb D) inum = dinode_at mk_sb D inum.
Proof. intros Hi. pose proof (iblock_range inum Hi). unfold dinode_at, marked. by rewrite fn_lookup_insert_ne by lia. Qed.

Lemma marked_file fb D inum t n c : blank fb D → 0 ≤ inum < 200 → len c ≤ 274432 → file_at fb D inum t n c → image_file (marked fb D) inum t n c.
Proof.
  intros Hb Hi Hlim [Hd Hm Hc]. assert (Ha : addrs_of (marked fb D) inum = addrs_of D inum) by (unfold addrs_of; by rewrite marked_dinode).
  pose proof (bl_range _ _ Hb) as Hbr. destruct (file_keep fb fb D (marked fb D) (addrs_of D inum) (has (len c)) c) as (Hs & Hm' & Hc'); try done.
  { intros k Hk Hnz. apply (fm_range _ _ _ _ Hm) in Hnz; [|done]. unfold marked. by rewrite fn_lookup_insert_ne by lia. }
  constructor; rewrite Ha.
  - by rewrite marked_dinode.
  - destruct Hm' as [Hl Had Hiff Hr Hj]. constructor; try done. intros k Hk Hnz. specialize (Hr k Hk Hnz). unfold is_data. rewrite mk_sb_size.
    split; [lia|]. rewrite used_marked by lia. apply Z.ltb_lt. lia.
  - intros k Hk. rewrite (fm_iff _ _ _ _ Hm') by lia. unfold has. lia.
  - apply (znth_ext 0); [by rewrite len_fbytes|]. intros k Hk. rewrite len_fbytes in Hk. unfold len in *. rewrite <-Hc' by lia.
    unfold fbytes, znth. rewrite (proj2 (Z.ltb_ge k 0)) by lia. rewrite list_lookup_fmap, lookup_zseq by lia. cbn. f_equal. lia.
  - intros o Ho. rewrite Hc' by (unfold len in *; lia). apply znth_past. lia.
Qed.

(** * From the empty image to the last block *)

Lemma zero_loop_ok n : ∀ i D fi fb, (∀ b, D b = zeroes) → 0 ≤ i → i + Z.of_nat n ≤ 2000 →
  ∃ D', zero_loop n i (mkmkfs D i fi fb) = Ok tt (mkmkfs D' (i + Z.of_nat n) fi fb) ∧ ∀ b, D' b = zeroes.
Proof.
  induction n as [|n IH]; intros i D fi fb HD Hi Hn; cbn [zero_loop].
  - exists D. by rewrite Z.add_0_r.
  - unfold wsect. rewrite bind_modify. unfold set_img. cbn [img nimg freeinode freeblock]. rewrite sector_id, Z.max_r by lia.
    destruct (IH (i + 1) (<[i := zeroes]> D) fi fb) as (D' & E & HD'); [|lia|lia|].
    + intros b. destruct (decide (b = i)) as [-> |]; [by rewrite fn_lookup_insert|by rewrite fn_lookup_insert_ne].
    + exists D'. split; [|done]. rewrite E. do 2 f_equal. lia.
Qed.

Lemma wf_sb : wf_block (put_sb zeroes mk_sb).
Proof. split; [by vm_compute|]. apply (bool_decide_unpack _). by vm_compute. Qed.

Lemma start_inv D : (∀ b, D b = zeroes) → files_inv [] (<[1 := put_sb zeroes mk_sb]> D) 47.
Proof.
  intros HD. constructor; [|done|by rewrite fn_lookup_insert|cbn; lia|done|intros i j k k' Hi; cbn in Hi; lia]. constructor; [| | |lia].
  - intros b. destruct (decide (b = 1)) as [-> |]; [rewrite fn_lookup_insert; apply wf_sb|rewrite fn_lookup_insert_ne, HD by done; apply wf_zeroes].
  - by rewrite fn_lookup_insert_ne, HD.
  - intros b Hb. by rewrite fn_lookup_insert_ne, HD by lia.
Qed.

(** The root directory: ".", "..", and the files. *)
Definition root_start : list Z := dirent_of 1 [46] ++ dirent_of 1 [46; 46].
Definition root_entries (files : list hostfile) : list Z := root_start ++ dirents_from 2 files.

Definition root_size (c : list Z) : Z := (len c / 1024 + 1) * 1024.

Lemma fix_root_ok c fl D fb fi :
  files_inv (whole T_DIR c :: fl) D fb → len c ≤ 274432 →
  ∃ D', fix_root 1 (mkmkfs D 2000 fi fb) = Ok tt (mkmkfs D' 2000 fi fb) ∧ files_inv ((T_DIR, root_size c, c) :: fl) D' fb.
Proof.
  intros Hinv Hlim. assert (Hc0 : 0 ≤ len c) by (unfold len; lia). destruct (fv_file _ _ _ Hinv 0 T_DIR (len c) c eq_refl) as [Hd Hm Hc].
  change (Z.of_nat 1) with 1 in *. set (l := addrs_of D 1) in *. pose proof (fv_count _ _ _ Hinv) as Hcnt.
  assert (Hsz : 0 ≤ root_size c < 4294967296) by (unfold root_size; dlia).
  unfold fix_root. rewrite (bind_ok _ _ _ _ _ (rinode_ok D fi fb 1 ltac:(lia))), Hd. cbn [di_size]. change BSIZE with 1024. rewrite (xint_id (len c)) by lia.
  change ((len c / 1024 + 1) * 1024) with (root_size c). rewrite u32_id, xint_id by done. unfold set_size. cbn [di_type di_major di_minor di_nlink di_addrs].
  rewrite winode_ok by lia. eexists. split; [done|].
  apply (set_inode (whole T_DIR c :: fl) _ D D fb fb 0 T_DIR (root_size c) c l l); try done; [| |apply grows_refl|apply Hinv| |].
  - intros k Hk Hnz. by apply (fm_range _ _ _ _ Hm).
  - intros j k k' Hj Hne Hk Hk' Hnz. by eapply (apart_own _ D fb 0).
  - intros [|j] Hj; [done|done].
  - apply (fv_few _ _ _ Hinv).
Qed.

(** The contents fit on the disk. *)
Definition fits (files : list hostfile) : Prop := 47 + need (len (root_entries files)) + blocks (copies files) ≤ 2000.

Lemma len_dirents_from inum files : len (dirents_from inum files) = 16 * Z.of_nat (length files).
Proof. revert inum. induction files as [|f files IH]; intros inum; cbn [dirents_from length]; [done|]. rewrite len_app, len_dirent, IH. lia. Qed.

Lemma len_root_entries files : len (root_entries files) = 16 * (2 + Z.of_nat (length files)).
Proof. unfold root_entries. rewrite len_app, len_dirents_from. change (len root_start) with 32. lia. Qed.

(** The disk that is left when the files are in place and the size of the root
    directory is rounded up. *)
Definition all_files (files : list hostfile) : list file_t :=
  (T_DIR, root_size (root_entries files), root_entries files) :: copies files.

Lemma make_root_ok D : files_inv [] D 47 → ∃ D' fb',
  make_root (mkmkfs D 2000 1 47) = Ok 1 (mkmkfs D' 2000 2 fb') ∧
  files_inv [whole T_DIR root_start] D' fb'.
Proof.
  intros Hinv. destruct (mk_ialloc_ok [] D 47 T_DIR Hinv ltac:(done) ltac:(cbn; lia)) as (D1 & E1 & Hinv1). change (Z.of_nat (S (length []))) with 1 in E1.
  change (Z.of_nat (S (S (length (@nil file_t))))) with 2 in E1. unfold make_root. rewrite (bind_ok _ _ _ _ _ E1). change (negb (1 =? ROOTINO)) with false. cbv iota. rewrite bind_ret.
  destruct (iappend_ok _ D1 47 2 0 T_DIR [] (dirent_of 1 [46]) Hinv1 eq_refl) as (D2 & fb2 & E2 & Hinv2); try done.
  { apply dirent_bytes. repeat constructor; lia. }
  change (Z.of_nat 1) with 1 in E2. rewrite (bind_ok _ _ _ _ _ E2).
  destruct (iappend_ok _ D2 fb2 2 0 T_DIR (dirent_of 1 [46]) (dirent_of 1 [46; 46]) Hinv2 eq_refl) as (D3 & fb3 & E3 & Hinv3); try done.
  { apply dirent_bytes. repeat constructor; lia. }
  change (Z.of_nat 1) with 1 in E3. rewrite (bind_ok _ _ _ _ _ E3). by exists D3, fb3.
Qed.

(** The maps of the files are as before the bitmap was written. *)
Lemma marked_slot fl D fb i k : files_inv fl D fb → 1 ≤ i ≤ Z.of_nat (length fl) → 0 ≤ k ≤ 268 →
  slot (marked fb D) (addrs_of (marked fb D) i) k = slot D (addrs_of D i) k.
Proof.
  intros Hinv Hi Hk. pose proof (fv_few _ _ _ Hinv). assert (Ha : addrs_of (marked fb D) i = addrs_of D i) by (unfold addrs_of; rewrite marked_dinode by lia; done).
  destruct (lookup_lt_is_Some_2 fl (Z.to_nat (i - 1))) as [[[t n] c] E]; [lia|]. destruct (fv_file _ _ _ Hinv _ _ _ _ E) as [_ Hm Hc].
  replace (Z.of_nat (S (Z.to_nat (i - 1)))) with i in * by lia. rewrite Ha.
  destruct (file_keep fb fb D (marked fb D) (addrs_of D i) (has (len c)) c) as (Hs & _); try done; [|by apply Hs].
  intros k' Hk' Hnz. apply (fm_range _ _ _ _ Hm) in Hnz; [|done]. unfold marked. by rewrite fn_lookup_insert_ne by lia.
Qed.

(** ** Every block is accounted for *)

(** The blocks of a file. *)
Definition file_blocks (D : Z → list Z) (inum : Z) : list Z :=
  slot D (addrs_of D inum) <$> filter (λ k, slot D (addrs_of D inum) k ≠ 0) (seqZ 0 269).

Lemma elem_of_file_blocks D inum b : b ∈ file_blocks D inum ↔ b ≠ 0 ∧ ∃ k, 0 ≤ k ≤ 268 ∧ slot D (addrs_of D inum) k = b.
Proof.
  unfold file_blocks. rewrite list_elem_of_fmap. setoid_rewrite list_elem_of_filter. setoid_rewrite elem_of_seqZ. split.
  - intros (k & -> & Hnz & Hk). split; [done|]. exists k. split; [lia|done].
  - intros (Hnz & k & Hk & <-). exists k. split_and!; [done|done|lia|lia].
Qed.

(** There are as many as the contents need. *)
Lemma length_file_blocks fb D inum t n c :
  file_at fb D inum t n c → len c ≤ 274432 → Z.of_nat (length (file_blocks D inum)) = need (len c).
Proof.
  intros [_ Hm _] Hc. assert (0 ≤ len c) by (unfold len; lia). unfold file_blocks. rewrite length_fmap.
  rewrite (Permutation_length (l' := seqZ 0 ((len c + 1023) / 1024) ++ if 12288 <? len c then [268] else [])).
  - rewrite length_app, length_seqZ. unfold need. destruct (12288 <? len c); cbn [length]; dlia.
  - apply list_relations.list.NoDup_Permutation.
    + apply list.NoDup_filter, NoDup_seqZ.
    + apply list_relations.list.NoDup_app. split_and!; [apply NoDup_seqZ| |destruct (12288 <? len c); repeat constructor; set_solver].
      intros x Hx%elem_of_seqZ. destruct (12288 <? len c); [rewrite list_elem_of_singleton; dlia|apply not_elem_of_nil].
    + intros k. rewrite list_elem_of_filter, elem_of_app, !elem_of_seqZ.
      assert (Hi : k ∈ (if 12288 <? len c then [268] else []) ↔ k = 268 ∧ 12288 < len c).
      { destruct (Z.ltb_spec 12288 (len c)); [rewrite list_elem_of_singleton; naive_solver|]. rewrite elem_of_nil. split; [done|lia]. }
      rewrite Hi. split.
      * intros [Hnz Hk]. apply (fm_iff _ _ _ _ Hm) in Hnz; [|lia]. unfold has in Hnz. dlia.
      * intros Hk. assert (0 ≤ k ≤ 268) by dlia. split; [|lia]. apply (fm_iff _ _ _ _ Hm); [done|]. unfold has. dlia.
Qed.

Lemma length_blocks (g : nat → list Z) fl : ∀ off,
  (∀ j f, fl !! j = Some f → Z.of_nat (length (g (off + j)%nat)) = need (len f.2)) →
  Z.of_nat (length (seq off (length fl) ≫= g)) = blocks fl.
Proof.
  induction fl as [|f fl IH]; intros off Hg; [done|]. cbn [length seq]. rewrite bind_cons, length_app, blocks_cons, Nat2Z.inj_add.
  rewrite (IH (S off)); [|intros j f' Hj; rewrite <-(Hg (S j) f' Hj); do 3 f_equal; lia].
  rewrite <-(Hg 0%nat f eq_refl), Nat.add_0_r. done.
Qed.

(** The blocks in use up to [fb] are those of the files: there are as many. *)
Lemma blocks_covered fl D fb b :
  files_inv fl D fb → (∀ f, f ∈ fl → len f.2 ≤ 274432) → 47 ≤ b < fb →
  ∃ i k, 1 ≤ i ≤ Z.of_nat (length fl) ∧ 0 ≤ k ≤ 268 ∧ slot D (addrs_of D i) k = b.
Proof.
  intros Hinv Hlim Hb. set (g := λ j : nat, file_blocks D (Z.of_nat (S j))). set (all := seq 0 (length fl) ≫= g).
  assert (Hat : ∀ j, (j < length fl)%nat → ∃ t n c, fl !! j = Some (t, n, c) ∧ file_at fb D (Z.of_nat (S j)) t n c).
  { intros j Hj. destruct (lookup_lt_is_Some_2 fl j Hj) as [[[t n] c] E]. exists t, n, c. split; [done|]. by apply (fv_file _ _ _ Hinv). }
  assert (Hlen : Z.of_nat (length all) = blocks fl).
  { apply length_blocks. intros j [[t n] c] E. cbn [Nat.add snd]. eapply length_file_blocks; [by apply (fv_file _ _ _ Hinv)|].
    apply (Hlim (t, n, c)). by eapply list_elem_of_lookup_2. }
  assert (Hnd : NoDup all).
  { apply NoDup_bind; [| |apply NoDup_seq].
    - intros i j x Hi%elem_of_seq Hj%elem_of_seq (Hnz & k & Hk & <-)%elem_of_file_blocks (_ & k' & Hk' & He)%elem_of_file_blocks.
      destruct (decide (i = j)) as [|Hne]; [done|]. destruct (fv_apart _ _ _ Hinv i j k k'); try done; lia.
    - intros i Hi%elem_of_seq. destruct (Hat i) as (t & n & c & _ & [_ Hm _]); [lia|]. apply NoDup_fmap_2_strong; [|apply list.NoDup_filter, NoDup_seqZ].
      intros x y [Hx Hx']%list_elem_of_filter [_ Hy']%list_elem_of_filter. apply elem_of_seqZ in Hx', Hy'. apply (fm_inj _ _ _ _ Hm); try done; lia. }
  assert (Hsub : ∀ x, x ∈ all → x ∈ seqZ 47 (fb - 47)).
  { intros x (i & (Hnz & k & Hk & <-)%elem_of_file_blocks & Hi%elem_of_seq)%list_elem_of_bind. destruct (Hat i) as (t & n & c & _ & [_ Hm _]); [lia|].
    apply elem_of_seqZ. pose proof (fm_range _ _ _ _ Hm k Hk Hnz). lia. }
  assert (Hp : all ≡ₚ seqZ 47 (fb - 47)).
  { apply submseteq_length_Permutation; [by apply NoDup_submseteq|]. rewrite length_seqZ. pose proof (fv_count _ _ _ Hinv). lia. }
  assert (Hin : b ∈ all) by (rewrite Hp; apply elem_of_seqZ; lia).
  apply list_elem_of_bind in Hin as (i & (_ & k & Hk & He)%elem_of_file_blocks & Hi%elem_of_seq). exists (Z.of_nat (S i)), k. split_and!; done || lia.
Qed.

Lemma zeroed_ok : ∃ D, zero_loop (Z.to_nat FSSIZE) 0 (mkmkfs (λ _, zeroes) 0 1 47) = Ok tt (mkmkfs D 2000 1 47) ∧ ∀ b, D b = zeroes.
Proof.
  destruct (zero_loop_ok (Z.to_nat FSSIZE) 0 (λ _, zeroes) 1 47) as (D & E & HD); [reflexivity|lia|unfold FSSIZE; lia|].
  exists D. split; [|exact HD]. rewrite E. unfold FSSIZE. do 2 f_equal.
Qed.

Lemma build_ok files : Forall host_ok files → (length files ≤ 198)%nat → fits files → ∃ D fb fi,
  build files mkfs0 = Ok tt (mkmkfs (marked fb D) 2000 fi fb) ∧ files_inv (all_files files) D fb.
Proof.
  intros Hf Hn Hfit. unfold fits in Hfit. unfold build. rewrite bind_modify. unfold set_freeblock, mkfs0. cbn [img nimg freeinode]. rewrite nmeta_eq.
  destruct zeroed_ok as (D0 & E0 & HD0). rewrite (bind_ok _ _ _ _ _ E0). clear E0. rewrite (bind_ok _ _ _ _ _ (wsect_ok D0 1 47 1 _ ltac:(lia))).
  destruct (make_root_ok _ (start_inv D0 HD0)) as (D1 & fb1 & E1 & Hinv1). rewrite (bind_ok _ _ _ _ _ E1).
  destruct (add_files_ok files root_start [] D1 fb1 Hinv1 Hf) as (D2 & fb2 & E2 & Hinv2); [cbn [length]; lia|done| |].
  { rewrite blocks_cons. cbn [whole snd app]. fold (root_entries files). change (Z.of_nat (S (length [whole T_DIR root_start]))) with 2. unfold root_entries in Hfit. lia. }
  change (Z.of_nat (S (length [whole T_DIR root_start]))) with 2 in E2, Hinv2. rewrite (bind_ok _ _ _ _ _ E2). fold (root_entries files) in Hinv2.
  destruct (fix_root_ok (root_entries files) (copies files) D2 fb2 (2 + Z.of_nat (length files)) Hinv2) as (D3 & E3 & Hinv3); [rewrite len_root_entries; lia|].
  rewrite (bind_ok _ _ _ _ _ E3). unfold bind at 1, get. cbn [freeblock]. pose proof (bl_range _ _ (fv_blank _ _ _ Hinv3)) as Hbr.
  unfold mk_balloc. rewrite BPB_eq, (proj2 (Z.ltb_lt fb2 8192)) by lia. cbn [negb]. rewrite mk_sb_bmapstart, wsect_ok by lia. by exists D3, fb2, (2 + Z.of_nat (length files)).
Qed.

(** The bitmap marks no block too many. *)
Lemma marked_exact files D fb b :
  files_inv (all_files files) D fb → Forall host_ok files → (length files ≤ 198)%nat → 0 ≤ b →
  b < fb ↔ b < 47 ∨ ∃ i k, 1 ≤ i ≤ Z.of_nat (length (all_files files)) ∧ 0 ≤ k ≤ 268 ∧ slot (marked fb D) (addrs_of (marked fb D) i) k = b.
Proof.
  intros Hinv Hf Hn Hb0. split.
  - intros Hb. destruct (decide (b < 47)) as [|Hge]; [by left|right].
    destruct (blocks_covered _ D fb b Hinv) as (i & k & Hi & Hk & Hs); [|lia|].
    + intros f Hin. unfold all_files in Hin. apply elem_of_cons in Hin as [->|Hin]; [cbn [snd]; rewrite len_root_entries; lia|].
      unfold copies in Hin. apply list_elem_of_fmap in Hin as (f' & -> & Hin). cbn [whole snd]. rewrite list_relations.list.Forall_forall in Hf. by apply Hf.
    + exists i, k. rewrite (marked_slot (all_files files)) by done. done.
  - pose proof (bl_range _ _ (fv_blank _ _ _ Hinv)) as Hr. intros [?|(i & k & Hi & Hk & Hs)]; [lia|]. rewrite (marked_slot (all_files files)) in Hs by done.
    destruct (lookup_lt_is_Some_2 (all_files files) (Z.to_nat (i - 1))) as [[[t m] c] E]; [lia|].
    destruct (fv_file _ _ _ Hinv _ _ _ _ E) as [_ Hm _]. replace (Z.of_nat (S (Z.to_nat (i - 1)))) with i in * by lia.
    destruct (decide (b = 0)) as [|Hnz]; [lia|]. pose proof (fm_range _ _ _ _ Hm k Hk ltac:(congruence)). lia.
Qed.

Lemma get_put_sb : get_sb (put_sb zeroes mk_sb) = mk_sb.
Proof. by vm_compute. Qed.

(** A file whose size is that of its contents is a file as the kernel wants it. *)
Lemma image_file_ok D inum t c (ip : inode) :
  image_file D inum t (len c) c → len c ≤ 274432 → dinode_of ip = dinode_at mk_sb D inum → file_ok mk_sb 47 D ip.
Proof.
  intros [Hd Hi Hm _ _] Hc He. rewrite Hd in He. injection He as _ _ _ _ Hsz Ha. rewrite <-Ha in Hi, Hm.
  constructor; [done|rewrite Hsz; unfold len in *; lia|]. intros k Hk Hlt. apply Hm; [done|]. by rewrite Hsz in Hlt.
Qed.

(** The root directory is one, too, unless its entries end at the end of a
    block: then it is given a size one block too large, with no block for it. *)
Lemma image_root_ok D c (ip : inode) :
  image_file D ROOTINO T_DIR (root_size c) c → len c < 274432 → dinode_of ip = dinode_at mk_sb D ROOTINO →
  file_ok mk_sb 47 D ip ↔ len c mod 1024 ≠ 0.
Proof.
  intros [Hd Hi Hm _ _] Hlt He. assert (0 ≤ len c) by (unfold len; lia). rewrite Hd in He. injection He as _ _ _ _ Hsz Ha. rewrite <-Ha in Hi, Hm. split.
  - intros [_ _ Hmap] Hc. assert (Hk : 0 ≤ len c / 1024 < 268) by dlia.
    assert (Hnz : slot D (i_addrs ip) (len c / 1024) ≠ 0) by (apply Hmap; [done|]; rewrite Hsz; unfold root_size; dlia).
    apply (proj1 (Hm _ Hk)) in Hnz. dlia.
  - intros Hc. constructor; [done|rewrite Hsz; unfold root_size; dlia|]. intros k Hk Hlk. apply Hm; [done|]. rewrite Hsz in Hlk. unfold root_size in Hlk. dlia.
Qed.

(** C8: what [mkfs] builds is a file system as the kernel wants it.  Given files
    that can be opened, with names that fit, and that fit on the disk, it does
    not fail, and of the image it leaves: the super block is the one the
    kernel reads and describes a disk whose parts do not overlap; the bitmap
    marks exactly the blocks before the data blocks and the blocks of the
    files; inode 1 is a directory and holds the entries ".", ".." and one for
    each file, under its name; inode 2 + i is the i-th file, of its size, with
    its bytes; no two files have a block in common.  Read into memory, the
    inode of a file satisfies the invariant of the kernel ([file_ok]: its
    blocks are data blocks marked in use, none of them used twice, and every
    block below its size is there), and so does that of the root directory
    except when its 2 + n entries of 16 bytes fill its last block: then the
    size that [mkfs] gives it is one block too large. *)
Theorem mkfs_spec files (root := root_entries files) (n := Z.of_nat (length files)) :
  Forall host_ok files → (length files ≤ 198)%nat → fits files →
  ∃ s, mkfs_main (Some true) files mkfs0 = Ok tt s ∧ nimg s = FSSIZE ∧
  get_sb (img s 1) = mk_sb ∧ layout home mk_sb 47 ∧ disk_ok mk_sb 47 (img s) ∧
  (∀ b, 0 ≤ b < FSSIZE → used mk_sb (img s) b = true ↔
     b < 47 ∨ ∃ i k, 1 ≤ i ≤ 1 + n ∧ 0 ≤ k ≤ 268 ∧ slot (img s) (addrs_of (img s) i) k = b) ∧
  image_file (img s) ROOTINO T_DIR (root_size root) root ∧
  (∀ ip, dinode_of ip = dinode_at mk_sb (img s) ROOTINO → file_ok mk_sb 47 (img s) ip ↔ (2 + n) mod 64 ≠ 0) ∧
  (∀ i f, files !! i = Some f → image_file (img s) (2 + Z.of_nat i) T_FILE (len (contents f)) (contents f) ∧
     ∀ ip, dinode_of ip = dinode_at mk_sb (img s) (2 + Z.of_nat i) → file_ok mk_sb 47 (img s) ip) ∧
  (∀ i j k k' (li := addrs_of (img s) i) (lj := addrs_of (img s) j), 1 ≤ i ≤ 1 + n → 1 ≤ j ≤ 1 + n → i ≠ j →
     0 ≤ k ≤ 268 → 0 ≤ k' ≤ 268 → slot (img s) li k ≠ 0 → slot (img s) li k ≠ slot (img s) lj k').
Proof.
  intros Hf Hn Hfit. destruct (build_ok files Hf Hn Hfit) as (D & fb & fi & E & Hinv). exists (mkmkfs (marked fb D) 2000 fi fb).
  unfold mkfs_main. split; [exact E|]. clear E. cbn [img nimg].
  pose proof (fv_blank _ _ _ Hinv) as Hb. pose proof (bl_range _ _ Hb) as Hbr.
  assert (Hlen : Z.of_nat (length (all_files files)) = 1 + n) by (unfold all_files, copies, n; cbn [length]; rewrite length_fmap; lia).
  assert (Hroot : image_file (marked fb D) ROOTINO T_DIR (root_size root) root).
  { apply marked_file; [done|done|unfold root; rewrite len_root_entries; lia|]. by apply (fv_file _ _ _ Hinv 0). }
  split_and!; [done| |apply mk_layout| | |done| | |].
  - unfold marked. rewrite fn_lookup_insert_ne, (fv_sb _ _ _ Hinv) by done. apply get_put_sb.
  - intros b Hbb Hu. rewrite mk_sb_size in Hbb. rewrite used_marked in Hu by lia. apply Z.ltb_ge in Hu. unfold is_data. rewrite mk_sb_size. lia.
  - intros b Hbb. unfold FSSIZE in Hbb. rewrite used_marked, Z.ltb_lt, <-Hlen by lia. apply marked_exact; done || lia.
  - intros ip Hip. rewrite (image_root_ok _ root ip Hroot); [|unfold root; rewrite len_root_entries; lia|done]. unfold root. rewrite len_root_entries. fold n. dlia.
  - intros i f Hi. apply lookup_lt_Some in Hi as Hlt. pose proof (ho_size f (Forall_lookup_1 _ _ _ _ Hf Hi)) as Hsz.
    assert (Him : image_file (marked fb D) (2 + Z.of_nat i) T_FILE (len (contents f)) (contents f)).
    { apply marked_file; [done|lia|done|]. replace (2 + Z.of_nat i) with (Z.of_nat (S (S i))) by lia. apply (fv_file _ _ _ Hinv (S i)).
      change (copies files !! i = Some (whole T_FILE (contents f))). unfold copies. by rewrite list_lookup_fmap, Hi. }
    split; [done|]. intros ip. by eapply image_file_ok.
  - intros i j k k' Hi Hj Hne Hk Hk'. rewrite !(marked_slot (all_files files)) by (done || lia).
    replace i with (Z.of_nat (S (Z.to_nat (i - 1)))) by lia. replace j with (Z.of_nat (S (Z.to_nat (j - 1)))) by lia.
    apply (fv_apart _ _ _ Hinv); try done; lia.
Qed.

(** user/_cat, of three bytes read in two pieces *)
Definition demo_file : hostfile := ([117; 115; 101; 114; 47; 95; 99; 97; 116], Some [[1; 2]; [3]]).

Lemma demo_host_ok : host_ok demo_file.
Proof.
  constructor; cbn; try (repeat constructor; lia); [by eexists| |by vm_compute|by vm_compute].
  change (47 ∉ [95; 99; 97; 116]). rewrite !not_elem_of_cons. split_and!; try lia. apply not_elem_of_nil.
Qed.

Lemma mkfs_spec_witness : ∃ s, mkfs_main (Some true) [demo_file] mkfs0 = Ok tt s ∧ image_file (img s) 2 T_FILE 3 [1; 2; 3].
Proof.
  destruct (mkfs_spec [demo_file]) as (s & E & _ & _ & _ & _ & _ & _ & _ & Hfiles & _).
  - constructor; [exact demo_host_ok|constructor].
  - apply Nat.leb_le. reflexivity.
  - apply Z.leb_le. reflexivity.
  - exists s. split; [exact E|]. exact (proj1 (Hfiles 0%nat demo_file eq_refl)).
Defined.
