(* ===== verification/Pipe.v ===== *)
(** kernel/pipe.c: reading and writing a pipe.

    A state is one [struct pipe] and the memory of the calling process.  A call
    that has to wait releases the lock and stops as [Blocked i], where [i] is
    its local variable; [pipewrite_loop] from [i] with the lock taken again is
    how it goes on.  [pipealloc] and [pipeclose] allocate and free the page the
    pipe lives in and are in File.v.

    The theorem: the ring buffer with its two wrapping counters is a queue of
    at most [PIPESIZE] bytes, and over any sequence of reads and writes, whole
    or in parts, the bytes come out in the order they went in. *)

From stdpp Require Import base tactics list numbers strings relations.
From S2P Require Import Prelude Param Bytes Spinlock UserSpec Kalloc Vm VmTree VmMap VmUser.
From Stdlib Require Import ZArith Lia.

Open Scope kernel_scope.

Definition PIPESIZE : Z := 512.

Record pipe := mkpipe {
  pi_lock : spinlock;
  pi_data : list Z;
  pi_nread : Z;
  pi_nwrite : Z;
  pi_readopen : Z;
  pi_writeopen : Z;
}.

Definition set_pi_lock (v : spinlock) (p : pipe) : pipe :=
  mkpipe v (pi_data p) (pi_nread p) (pi_nwrite p) (pi_readopen p) (pi_writeopen p).
Definition set_pi_readopen (v : Z) (p : pipe) : pipe :=
  mkpipe (pi_lock p) (pi_data p) (pi_nread p) (pi_nwrite p) v (pi_writeopen p).
Definition set_pi_writeopen (v : Z) (p : pipe) : pipe :=
  mkpipe (pi_lock p) (pi_data p) (pi_nread p) (pi_nwrite p) (pi_readopen p) v.

(** [data\[nwrite++ % PIPESIZE\] = ch] *)
Definition put_byte (ch : Z) (p : pipe) : pipe :=
  mkpipe (pi_lock p) (zset (pi_data p) (pi_nwrite p mod PIPESIZE) ch) (pi_nread p) (u32 (pi_nwrite p + 1))
    (pi_readopen p) (pi_writeopen p).
(** [data\[nread++ % PIPESIZE\]] *)
Definition get_byte (p : pipe) : Z := znth 0 (pi_data p) (pi_nread p mod PIPESIZE).
Definition next_read (p : pipe) : pipe :=
  mkpipe (pi_lock p) (pi_data p) (u32 (pi_nread p + 1)) (pi_nwrite p) (pi_readopen p) (pi_writeopen p).

(** What a call returns, or where it sleeps. *)
Inductive io := Done (r : Z) | Blocked (i : Z).

Section pipe.
  Context {U : Type} `{UM : UserMem U}.
  Context (me pi : Z).

(** [&pi->nread] and [&pi->nwrite] *)
Definition nread_chan : Z := pi + 536.
Definition nwrite_chan : Z := pi + 540.

Record pst := mkpst { ps_pipe : pipe; ps_user : U }.

Definition pipeL : lens pst pipe := Lens ps_pipe (λ p s, mkpst p (ps_user s)).
Definition puserL : lens pst U := Lens ps_user (λ u s, mkpst (ps_pipe s) u).
Definition pilockL : lens pst spinlock :=
  Lens (λ s, pi_lock (ps_pipe s)) (λ l s, mkpst (set_pi_lock l (ps_pipe s)) (ps_user s)).

Abbreviation PI := (M pst).

Definition upd_pipe (f : pipe → pipe) : PI unit := modify (λ s, mkpst (f (ps_pipe s)) (ps_user s)).

(** [killed] is [killed(pr)].  [n - i] turns are enough. *)
Fixpoint pipewrite_loop (fuel : nat) (killed : Z) (addr n i : Z) : PI io :=
  match fuel with
  | O => λ _, OutOfFuel
  | S fuel' =>
      if negb (i <? n) then
        wakeup nread_chan ;;
        zoom pilockL (release_lk me) ;; ret (Done i)
      else
        p <- gets ps_pipe ;;
        if (pi_readopen p =? 0) || negb (killed =? 0) then
          zoom pilockL (release_lk me) ;; ret (Done (-1))
        else if pi_nwrite p =? u32 (pi_nread p + PIPESIZE) then
          wakeup nread_chan ;;
          zoom pilockL (release_lk me) ;; ret (Blocked i)
        else
          ' (r, bs) <- zoom puserL (u_copyin (u64 (addr + i)) 1) ;;
          if r =? -1 then
            wakeup nread_chan ;;
            zoom pilockL (release_lk me) ;; ret (Done i)
          else
            upd_pipe (put_byte (znth 0 bs 0)) ;;
            pipewrite_loop fuel' killed addr n (i + 1)
  end.

(** From byte [i] on; [i] is 0 at first. *)
Definition pipewrite (killed addr n i : Z) : PI io :=
  zoom pilockL (acquire_lk me) ;;
  pipewrite_loop (Z.to_nat (n - i) + 1) killed addr n i.

Definition piperead_copy (addr n : Z) : PI Z :=
  r <- for_up (Z.to_nat n) 0 (λ i,
    p <- gets ps_pipe ;;
    if pi_nread p =? pi_nwrite p then ret (Stop i)
    else
      upd_pipe next_read ;;
      r <- zoom puserL (u_copyout (u64 (addr + i)) [get_byte p]) ;;
      if r =? -1 then ret (Stop i) else ret Next) ;;
  ret (match r with Some i => i | None => Z.max n 0 end).

Definition piperead (killed addr n : Z) : PI io :=
  zoom pilockL (acquire_lk me) ;;
  p <- gets ps_pipe ;;
  if (pi_nread p =? pi_nwrite p) && negb (pi_writeopen p =? 0) then
    zoom pilockL (release_lk me) ;;
    ret (if negb (killed =? 0) then Done (-1) else Blocked 0)
  else
    i <- piperead_copy addr n ;;
    wakeup nwrite_chan ;;
    zoom pilockL (release_lk me) ;;
    ret (Done i).
End pipe.
Arguments mkpst {U} _ _.
Arguments ps_pipe {U} _.
Arguments ps_user {U} _.
Arguments pst : clear implicits.

(** * The queue *)

(** The ring buffer holds [q], oldest byte first. *)
Record pipe_rep (p : pipe) (q : list Z) : Prop := {
  pr_len : len (pi_data p) = PIPESIZE;
  pr_nread : 0 ≤ pi_nread p < 4294967296;
  pr_nwrite : pi_nwrite p = u32 (pi_nread p + len q);
  pr_room : len q ≤ PIPESIZE;
  pr_bytes : is_bytes q;
  pr_data : ∀ i, 0 ≤ i < len q → znth 0 (pi_data p) ((pi_nread p + i) mod PIPESIZE) = znth 0 q i;
}.

(** The counters wrap at a multiple of [PIPESIZE]. *)
Lemma u32_mod_512 x : u32 x mod 512 = x mod 512.
Proof. unfold u32. dlia. Qed.

Lemma len_snoc {A} (l : list A) x : len (l ++ [x]) = len l + 1.
Proof. unfold len. rewrite length_app. cbn. lia. Qed.

Lemma pipe_full p q : pipe_rep p q → (pi_nwrite p =? u32 (pi_nread p + PIPESIZE)) = (len q =? 512).
Proof.
  intros [H1 H2 H3 H4 H5 H6]. rewrite H3. pose proof (len_nonneg q). unfold u32, PIPESIZE in *.
  destruct (Z.eqb_spec (len q) 512) as [->|]; [apply Z.eqb_refl|]. apply Z.eqb_neq. dlia.
Qed.

Lemma pipe_empty p q : pipe_rep p q → (pi_nread p =? pi_nwrite p) = (len q =? 0).
Proof.
  intros [H1 H2 H3 H4 H5 H6]. rewrite H3. pose proof (len_nonneg q). unfold u32, PIPESIZE in *.
  destruct (Z.eqb_spec (len q) 0) as [->|]; [apply Z.eqb_eq|apply Z.eqb_neq]; dlia.
Qed.

Lemma put_byte_ok p q c : pipe_rep p q → len q < 512 → 0 ≤ c < 256 → pipe_rep (put_byte c p) (q ++ [c]).
Proof.
  intros [H1 H2 H3 H4 H5 H6] Hq Hc. pose proof (len_nonneg q). unfold PIPESIZE in *.
  constructor; cbn [put_byte pi_data pi_nread pi_nwrite]; rewrite ?len_snoc; unfold PIPESIZE in *.
  - by rewrite len_zset.
  - done.
  - rewrite H3. unfold u32. dlia.
  - lia.
  - apply Forall_app. split; [done|]. by constructor.
  - intros i Hi. rewrite H3, u32_mod_512. pose proof (Z.mod_pos_bound (pi_nread p + len q) 512 ltac:(lia)).
    rewrite znth_zset by lia. destruct (decide (i = len q)) as [->|Hne].
    + rewrite decide_True by done. rewrite znth_app_r by lia. by rewrite Z.sub_diag.
    + rewrite decide_False by dlia. rewrite znth_app_l by lia. apply H6. lia.
Qed.

Lemma get_byte_ok p q c : pipe_rep p (c :: q) → get_byte p = c ∧ pipe_rep (next_read p) q ∧ 0 ≤ c < 256.
Proof.
  intros [H1 H2 H3 H4 H5 H6]. pose proof (len_nonneg q). rewrite len_cons in *. unfold PIPESIZE in *. inversion H5; subst. split_and!; [| |lia|lia].
  - unfold get_byte, PIPESIZE. specialize (H6 0). rewrite Z.add_0_r in H6. apply H6. lia.
  - constructor; cbn [next_read pi_data pi_nread pi_nwrite]; unfold PIPESIZE in *; [done|apply u32_range| |lia|done|].
    + rewrite H3. unfold u32. dlia.
    + intros i Hi. replace ((u32 (pi_nread p + 1) + i) mod 512) with ((pi_nread p + (i + 1)) mod 512) by (unfold u32; dlia).
      rewrite H6 by lia. rewrite znth_cons_pos by lia. f_equal. lia.
Qed.

(** * The operations *)

Section ops.
  Context {U : Type} `{US : UserMemSpec U}.
  Context (me pi : Z).

(** This hart holds the lock of the pipe. *)
Definition mine (p : pipe) : Prop := locked (pi_lock p) = 1 ∧ lk_cpu (pi_lock p) = Some me.

(** Only the bytes and the counters may differ. *)
Definition same_ends (p p' : pipe) : Prop :=
  pi_lock p' = pi_lock p ∧ pi_readopen p' = pi_readopen p ∧ pi_writeopen p' = pi_writeopen p.

(** [p'] is [p] with its lock free. *)
Definition freed (p : pipe) : pipe := set_pi_lock (mkspinlock 0 (lk_name (pi_lock p)) None) p.

Lemma release_pipe (p : pipe) (u : U) : mine p → zoom pilockL (release_lk me) (mkpst p u) = Ok tt (mkpst (freed p) u).
Proof.
  intros [H1 H2]. unfold zoom, release_lk, holding. cbn. rewrite H1, H2. cbn. rewrite bool_decide_true by done. done.
Qed.

Lemma acquire_pipe (p : pipe) (u : U) :
  unlocked (pi_lock p) →
  ∃ p', zoom pilockL (acquire_lk me) (mkpst p u) = Ok tt (mkpst p' u) ∧ mine p' ∧ freed p' = p ∧
    pi_readopen p' = pi_readopen p ∧ pi_writeopen p' = pi_writeopen p ∧ (∀ q, pipe_rep p q → pipe_rep p' q).
Proof.
  intros Hu. pose proof (unlocked_eq _ Hu) as He. destruct Hu as [H1 H2].
  exists (set_pi_lock (mkspinlock 1 (lk_name (pi_lock p)) (Some me)) p). split_and!; try done.
  - unfold zoom, acquire_lk, holding. cbn. by rewrite H1.
  - unfold freed. cbn. destruct p. cbn in *. by rewrite <-He.
  - intros q [P1 P2 P3 P4 P5 P6]. by constructor.
Qed.

Lemma pipe_rep_freed p q : pipe_rep p q → pipe_rep (freed p) q.
Proof. intros [P1 P2 P3 P4 P5 P6]. by constructor. Qed.

(** The bytes of the process from [addr + i] on. *)
Definition sends (view : Z → option Z) (addr i : Z) (bs : list Z) : Prop :=
  ∀ j x, bs !! j = Some x → view (u64 (addr + i + Z.of_nat j)) = Some x.

Lemma sends_cons view addr i x bs : view (u64 (addr + i)) = Some x → sends view addr (i + 1) bs → sends view addr i (x :: bs).
Proof.
  intros Hx Hs j y Hy. destruct j as [|j]; cbn in Hy; [simplify_eq; by rewrite Z.add_0_r|].
  rewrite <-(Hs j y Hy). f_equal. f_equal. lia.
Qed.

(** How a write of [n] bytes from [addr] that went on from byte [i] ended, after
    the bytes [bs] went into the queue [q]. *)
Definition write_result (readopen killed addr n i : Z) (q bs : list Z) (u' : U) (r : io) : Prop :=
  match r with
  | Done r =>
      r = -1 ∧ bs = [] ∧ (readopen = 0 ∨ killed ≠ 0) ∨
      r = i + len bs ∧ (r = Z.max n 0 ∨ r < n ∧ ∃ u1 x, u_copyin (u64 (addr + r)) 1 u1 = Ok (-1, x) u')
  | Blocked k => k = i + len bs ∧ k < n ∧ len (q ++ bs) = PIPESIZE ∧ readopen ≠ 0
  end.

Lemma pipewrite_loop_ok fuel killed addr n i p q u view :
  mine p → pipe_rep p q → u_rep u view → 0 ≤ i ≤ Z.max n 0 → Z.max (n - i) 0 < Z.of_nat fuel →
  ∃ bs r p' u', pipewrite_loop me pi fuel killed addr n i (mkpst p u) = Ok r (mkpst (freed p') u') ∧
    same_ends p p' ∧ pipe_rep p' (q ++ bs) ∧ u_rep u' view ∧ sends view addr i bs ∧
    write_result (pi_readopen p) killed addr n i q bs u' r.
Proof.
  revert i p q u. induction fuel as [|fuel IH]; intros i p q u Hm Hrep Hu Hi Hf; cbn [pipewrite_loop].
  { lia. }
  destruct (Z.ltb_spec i n) as [Hin|Hin]; cbn [negb].
  2:{ unfold wakeup. rewrite bind_ret, (bind_ok _ _ _ _ _ (release_pipe p u Hm)). exists [], (Done i), p, u. rewrite app_nil_r.
      split_and!; try done. right. unfold len; cbn. lia. }
  rewrite bind_gets. cbn [ps_pipe]. destruct ((pi_readopen p =? 0) || negb (killed =? 0)) eqn:Hbad.
  { rewrite (bind_ok _ _ _ _ _ (release_pipe p u Hm)). exists [], (Done (-1)), p, u. rewrite app_nil_r. split_and!; try done.
    left. split_and!; [done|done|]. destruct (Z.eqb_spec (pi_readopen p) 0); [by left|]. destruct (Z.eqb_spec killed 0); [done|by right]. }
  apply orb_false_iff in Hbad as [Hro Hki]. rewrite (pipe_full p q Hrep). destruct (Z.eqb_spec (len q) 512) as [Hfull|Hroom].
  { unfold wakeup. rewrite bind_ret, (bind_ok _ _ _ _ _ (release_pipe p u Hm)). exists [], (Blocked i), p, u. rewrite app_nil_r.
    split_and!; try done; cbn [write_result]; rewrite ?app_nil_r; unfold len, PIPESIZE in *; cbn [length] in *; lia. }
  assert (Hlt : len q < 512) by (pose proof (pr_room _ _ Hrep); unfold PIPESIZE in *; lia).
  destruct (u_copyin_spec (u64 (addr + i)) 1 u view Hu (u64_range _) ltac:(lia)) as (r & bs & u1 & E & Hu1 & Hrd & Hb & Hr).
  erewrite bind_ok; [|unfold zoom; cbn [Prelude.view puserL ps_user]; rewrite E; reflexivity]. cbn [upd puserL ps_pipe].
  destruct Hr as [[-> Hl]|[-> Hl]]; [change (0 =? -1) with false|change (-1 =? -1) with true]; cbv iota.
  - destruct bs as [|x [|]]; unfold len in Hl; cbn in Hl; try lia.
    assert (0 ≤ x < 256) by (by inversion Hb). unfold upd_pipe. rewrite bind_modify. cbn [ps_pipe ps_user znth].
    change (znth 0 [x] 0) with x.
    destruct (IH (i + 1) (put_byte x p) (q ++ [x]) u1) as (bs & r & p' & u' & E' & Hse & Hrep' & Hu' & Hs & Hr);
      [done|by apply put_byte_ok|done|lia|lia|].
    exists (x :: bs), r, p', u'. rewrite <-app_assoc in Hrep'. split_and!; [exact E'|done|done|done| |].
    + apply sends_cons; [|done]. specialize (Hrd 0%nat x eq_refl). by rewrite Z.add_0_r in Hrd.
    + unfold write_result in *. cbn [put_byte pi_readopen] in Hr. rewrite len_cons. destruct r as [r|k].
      * destruct Hr as [(_ & _ & [?|?])|[-> ?]]; [lia|lia|right]. split; [lia|done].
      * destruct Hr as (-> & ? & Hfull & ?). rewrite <-app_assoc in Hfull. split_and!; [lia|lia|done|done].
  - unfold wakeup. rewrite bind_ret. erewrite bind_ok; [|by apply release_pipe]. exists [], (Done i), p, u1. rewrite app_nil_r.
    split_and!; try done. right. split; [unfold len; cbn; lia|]. right. split; [done|]. by exists u, bs.
Qed.

Lemma view_write_nil view a x : view_write view a [] x = view x.
Proof. unfold view_write. rewrite decide_False; [done|]. unfold len. cbn. lia. Qed.

Lemma view_write_snoc view a bs c x : view_write (view_write view a bs) (a + len bs) [c] x = view_write view a (bs ++ [c]) x.
Proof.
  unfold view_write. rewrite len_snoc. unfold len. cbn. repeat case_decide; try lia; try done.
  - rewrite lookup_app_r by lia. f_equal. lia.
  - by rewrite lookup_app_l by lia.
Qed.

(** After the loop the reader has [take i q]; a byte that could not be copied
    out has left the pipe. *)
Lemma piperead_copy_ok addr n p q u view :
  mine p → pipe_rep p q → u_rep u view → 0 ≤ addr → addr + n ≤ 18446744073709551616 →
  ∃ i k p' u', piperead_copy addr n (mkpst p u) = Ok i (mkpst p' u') ∧ mine p' ∧ same_ends p p' ∧
    0 ≤ i ≤ len q ∧ pipe_rep p' (drop (Z.to_nat k) q) ∧ u_rep u' (view_write view addr (take (Z.to_nat i) q)) ∧
    (k = i ∧ (i = Z.max n 0 ∨ i = len q) ∨
     k = i + 1 ∧ i < n ∧ ∃ c u1, q !! Z.to_nat i = Some c ∧ u_copyout (addr + i) [c] u1 = Ok (-1) u').
Proof.
  intros Hm Hrep Hu Ha Hn.
  set (post := λ (i k : Z) (s : pst U), ∃ p' u', s = mkpst p' u' ∧ mine p' ∧ same_ends p p' ∧
    0 ≤ i ≤ len q ∧ pipe_rep p' (drop (Z.to_nat k) q) ∧ u_rep u' (view_write view addr (take (Z.to_nat i) q)) ).
  assert (Hr : returns (piperead_copy addr n) (mkpst p u) (λ i s, ∃ k, post i k s ∧ (k = i ∧ (i = Z.max n 0 ∨ i = len q) ∨
    k = i + 1 ∧ i < n ∧ ∃ c u1, q !! Z.to_nat i = Some c ∧ u_copyout (addr + i) [c] u1 = Ok (-1) (ps_user s)))).
  2:{ apply returns_ok in Hr as (i & s & E & k & (p' & u' & -> & ? & ? & ? & ? & ?) & Hk). by exists i, k, p', u'. }
  apply returns_bind. eapply (for_up_inv (λ i s, post i i s ∧ i ≤ Z.max n 0)).
  - split; [|lia]. exists p, u. split_and!; try done; [apply len_nonneg|]. eapply u_rep_ext; [done|]. intros x. by rewrite view_write_nil.
  - intros i s Hi [(p1 & u1 & -> & Hm1 & Hs1 & Hi1 & Hrep1 & Hu1) Hin].
    eapply returns_step; [reflexivity|]. cbv beta. cbn [ps_pipe]. rewrite (pipe_empty _ _ Hrep1).
    destruct (Z.eqb_spec (len (drop (Z.to_nat i) q)) 0) as [He|He].
    { apply returns_ret. cbv beta iota. apply returns_ret. exists i. split; [by exists p1, u1|]. left. split; [done|right].
      unfold len in *. rewrite length_drop in He. lia. }
    assert (Hlt : i < len q) by (unfold len in *; rewrite length_drop in He; lia).
    destruct (lookup_lt_is_Some_2 q (Z.to_nat i)) as [c Hc]; [unfold len in Hlt; lia|].
    rewrite (drop_S _ _ _ Hc) in Hrep1. destruct (get_byte_ok _ _ _ Hrep1) as (Hget & Hrep2 & Hcr).
    replace (S (Z.to_nat i)) with (Z.to_nat (i + 1)) in Hrep2 by lia.
    eapply returns_step; [reflexivity|]. cbv beta. rewrite Hget. cbn [ps_pipe ps_user]. rewrite u64_id by lia.
    destruct (u_copyout_spec (addr + i) [c] u1 _ Hu1 ltac:(lia) ltac:(by constructor)) as (r & k & u2 & E & Hu2 & Hr).
    eapply returns_step; [unfold zoom; cbn [Prelude.view puserL ps_user]; rewrite E; reflexivity|]. cbn [upd puserL ps_pipe].
    destruct Hr as [[-> ->]|[-> Hk]]; [change (0 =? -1) with false|change (-1 =? -1) with true]; cbv iota; apply returns_ret.
    + split; [|lia]. exists (next_read p1), u2. split_and!; [done|exact Hm1|exact Hs1|lia|lia|done|].
      eapply u_rep_ext; [exact Hu2|]. intros x. cbn [take length].
      replace (addr + i) with (addr + len (take (Z.to_nat i) q)) by (unfold len; rewrite length_take; unfold len in Hlt; lia).
      rewrite view_write_snoc. replace (Z.to_nat (i + 1)) with (S (Z.to_nat i)) by lia. by rewrite (take_S_r _ _ _ Hc).
    + apply returns_ret. exists (i + 1). split; [|right; split_and!; [done|lia|by exists c, u1]].
      exists (next_read p1), u2. split_and!; [done|exact Hm1|exact Hs1|lia|lia|done|].
      eapply u_rep_ext; [exact Hu2|]. intros x. assert (k = 0%nat) as -> by (cbn in Hk; lia). cbn [take]. by rewrite view_write_nil.
  - intros s [Hp Hin]. apply returns_ret. cbv beta iota.
    destruct (Z.max_spec n 0) as [[? ->]|[? ->]]; exists (0 + Z.of_nat (Z.to_nat n)).
    + replace (Z.of_nat (Z.to_nat n)) with 0 in * by lia. split; [done|]. left. lia.
    + replace (0 + Z.of_nat (Z.to_nat n)) with n in * by lia. split; [done|]. left. lia.
Qed.

(** Before and after a call. *)
Lemma freed_ends p p1 p' : unlocked (pi_lock p) → freed p1 = p → same_ends p1 p' → same_ends p (freed p').
Proof. intros Hu <- (H1 & H2 & H3). split_and!; cbn; [by rewrite H1|done|done]. Qed.

Lemma pipewrite_run killed addr n i p q u view :
  unlocked (pi_lock p) → pipe_rep p q → u_rep u view → 0 ≤ i ≤ Z.max n 0 →
  ∃ bs r p' u', pipewrite me pi killed addr n i (mkpst p u) = Ok r (mkpst p' u') ∧
    same_ends p p' ∧ pipe_rep p' (q ++ bs) ∧ u_rep u' view ∧ sends view addr i bs ∧
    write_result (pi_readopen p) killed addr n i q bs u' r.
Proof.
  intros Hl Hrep Hu Hi. destruct (acquire_pipe p u Hl) as (p1 & E1 & Hm1 & Hf1 & Ho & Hw & Hr1).
  unfold pipewrite. rewrite (bind_ok _ _ _ _ _ E1).
  destruct (pipewrite_loop_ok (Z.to_nat (n - i) + 1) killed addr n i p1 q u view) as (bs & r & p' & u' & E & Hs & Hrep' & Hu' & Hsd & Hr);
    [done|by apply Hr1|done|done|lia|].
  exists bs, r, (freed p'), u'. rewrite Ho in Hr. split_and!; [done|by eapply freed_ends|by apply pipe_rep_freed|done|done|done].
Qed.

(** How a read of [n] bytes to [addr] ended, after the queue [q] gave up the
    bytes [bs], which the reader has, and [lost], which it does not, and
    still has [q']. *)
Definition read_result (writeopen killed addr n : Z) (q bs lost q' : list Z) (u' : U) (r : io) : Prop :=
  match r with
  | Done r =>
      r = -1 ∧ q = [] ∧ writeopen ≠ 0 ∧ killed ≠ 0 ∨
      r = len bs ∧ (q ≠ [] ∨ writeopen = 0) ∧
        (lost = [] ∧ (r = Z.max n 0 ∨ q' = []) ∨ ∃ c u1, lost = [c] ∧ r < n ∧ u_copyout (addr + r) [c] u1 = Ok (-1) u')
  | Blocked _ => q = [] ∧ writeopen ≠ 0 ∧ killed = 0
  end.

Lemma piperead_run killed addr n p q u view :
  unlocked (pi_lock p) → pipe_rep p q → u_rep u view → 0 ≤ addr → addr + n ≤ 18446744073709551616 →
  ∃ r p' u' bs lost q', piperead me pi killed addr n (mkpst p u) = Ok r (mkpst p' u') ∧
    same_ends p p' ∧ pipe_rep p' q' ∧ q = bs ++ lost ++ q' ∧ u_rep u' (view_write view addr bs) ∧
    read_result (pi_writeopen p) killed addr n q bs lost q' u' r.
Proof.
  intros Hl Hrep Hu Ha Hn. destruct (acquire_pipe p u Hl) as (p1 & E1 & Hm1 & Hf1 & Ho & Hw & Hr1). specialize (Hr1 _ Hrep).
  unfold piperead. rewrite (bind_ok _ _ _ _ _ E1). rewrite bind_gets. cbn [ps_pipe]. rewrite (pipe_empty _ _ Hr1), Hw.
  destruct ((len q =? 0) && negb (pi_writeopen p =? 0)) eqn:He.
  - apply andb_true_iff in He as [He1 He2]. assert (q = []) as -> by (destruct q; [done|rewrite len_cons in He1; pose proof (len_nonneg q); lia]).
    rewrite (bind_ok _ _ _ _ _ (release_pipe p1 u Hm1)). eexists _, (freed p1), u, [], [], []. split; [done|].
    split_and!; [by eapply freed_ends|by apply pipe_rep_freed|done|eapply u_rep_ext; [done|]; intros x; by rewrite view_write_nil|].
    destruct (Z.eqb_spec killed 0); cbn; [split_and!; [done|lia|done]|left; split_and!; [done|done|lia|done]].
  - destruct (piperead_copy_ok addr n p1 q u view) as (i & k & p2 & u2 & E2 & Hm2 & Hs2 & Hi & Hr2 & Hu2 & Hk); try done.
    rewrite (bind_ok _ _ _ _ _ E2). unfold wakeup. rewrite bind_ret. rewrite (bind_ok _ _ _ _ _ (release_pipe p2 u2 Hm2)).
    assert (Hlt : len (take (Z.to_nat i) q) = i) by (unfold len in *; rewrite length_take; lia).
    assert (Hq : q ≠ [] ∨ pi_writeopen p = 0) by (destruct q; [right; destruct (Z.eqb_spec (pi_writeopen p) 0); done|by left]).
    destruct Hk as [[-> Hk]|(-> & Hk & c & u1 & Hc & Ec)].
    + exists (Done i), (freed p2), u2, (take (Z.to_nat i) q), [], (drop (Z.to_nat i) q).
      split_and!; [done|by eapply freed_ends|by apply pipe_rep_freed|by rewrite app_nil_l, take_drop|done|]. right. split_and!; [done|done|].
      left. split; [done|]. destruct Hk as [?|?]; [by left|right]. apply drop_ge. unfold len in *. lia.
    + exists (Done i), (freed p2), u2, (take (Z.to_nat i) q), [c], (drop (Z.to_nat (i + 1)) q).
      replace (Z.to_nat (i + 1)) with (S (Z.to_nat i)) in * by lia.
      split_and!; [done|by eapply freed_ends|by apply pipe_rep_freed| |done|].
      * cbn [app]. by rewrite <-(drop_S _ _ _ Hc), take_drop.
      * right. split_and!; [done|done|]. right. by exists c, u1.
Qed.

(** * Histories

    A pipe between any number of processes.  A call of a process that has the
    memory [u] and sees [view] takes the pipe from one state to the next; a
    call that slept and goes on is one more call, of [pipewrite] from the byte
    it had reached and of [piperead] from the start. *)
Inductive pcall :=
| PWrite (view : Z → option Z) (u' : U) (killed addr n i : Z) (r : io)
| PRead (view : Z → option Z) (u' : U) (killed addr n : Z) (r : io)
| PCloseRead
| PCloseWrite.

Inductive pipe_step : pipe → pcall → pipe → Prop :=
| step_write p u view killed addr n i r p' u' :
    u_rep u view → 0 ≤ i ≤ Z.max n 0 → pipewrite me pi killed addr n i (mkpst p u) = Ok r (mkpst p' u') →
    pipe_step p (PWrite view u' killed addr n i r) p'
| step_read p u view killed addr n r p' u' :
    u_rep u view → 0 ≤ addr → addr + n ≤ 18446744073709551616 → piperead me pi killed addr n (mkpst p u) = Ok r (mkpst p' u') →
    pipe_step p (PRead view u' killed addr n r) p'
| step_close_read p : pipe_step p PCloseRead (set_pi_readopen 0 p)
| step_close_write p : pipe_step p PCloseWrite (set_pi_writeopen 0 p).

Inductive pipe_run : pipe → list pcall → pipe → Prop :=
| run_nil p : pipe_run p [] p
| run_cons p c p1 tr p' : pipe_step p c p1 → pipe_run p1 tr p' → pipe_run p (c :: tr) p'.

(** The specification: a queue of bytes and two flags. *)
Record aqueue := mkaq { aq_bytes : list Z; aq_readopen : Z; aq_writeopen : Z }.

(** The bytes a call put into the queue, those it delivered, and those it took
    without delivering them. *)
Record pevent := mkev { ev_in : list Z; ev_out : list Z; ev_lost : list Z }.

Inductive aq_step : aqueue → pcall → pevent → aqueue → Prop :=
| aq_write q ro wo view u' killed addr n i r bs :
    u_rep u' view → sends view addr i bs → len (q ++ bs) ≤ PIPESIZE → write_result ro killed addr n i q bs u' r →
    aq_step (mkaq q ro wo) (PWrite view u' killed addr n i r) (mkev bs [] []) (mkaq (q ++ bs) ro wo)
| aq_read q ro wo view u' killed addr n r bs lost q' :
    q = bs ++ lost ++ q' → u_rep u' (view_write view addr bs) → read_result wo killed addr n q bs lost q' u' r →
    aq_step (mkaq q ro wo) (PRead view u' killed addr n r) (mkev [] bs lost) (mkaq q' ro wo)
| aq_close_read q ro wo : aq_step (mkaq q ro wo) PCloseRead (mkev [] [] []) (mkaq q 0 wo)
| aq_close_write q ro wo : aq_step (mkaq q ro wo) PCloseWrite (mkev [] [] []) (mkaq q ro 0).

Inductive aq_run : aqueue → list pcall → list pevent → aqueue → Prop :=
| arun_nil a : aq_run a [] [] a
| arun_cons a c e a1 tr ev a' : aq_step a c e a1 → aq_run a1 tr ev a' → aq_run a (c :: tr) (e :: ev) a'.

Record pipe_is (p : pipe) (a : aqueue) : Prop := {
  pq_lock : unlocked (pi_lock p);
  pq_rep : pipe_rep p (aq_bytes a);
  pq_readopen : pi_readopen p = aq_readopen a;
  pq_writeopen : pi_writeopen p = aq_writeopen a;
}.

Lemma pipe_is_ends p p' q ro wo q' : pipe_is p (mkaq q ro wo) → same_ends p p' → pipe_rep p' q' → pipe_is p' (mkaq q' ro wo).
Proof. intros [Q1 Q2 Q3 Q4] (E1 & E2 & E3) Hr. constructor; cbn in *; [by rewrite E1|done|by rewrite E2|by rewrite E3]. Qed.

(** Every call of the code is a step of the queue. *)
Lemma pipe_step_refines p a c p' : pipe_is p a → pipe_step p c p' → ∃ e a', aq_step a c e a' ∧ pipe_is p' a'.
Proof.
  intros Hq Hs. destruct a as [q ro wo]. pose proof Hq as [Q1 Q2 Q3 Q4]. cbn in *.
  destruct Hs as [p u view killed addr n i r p' u' Hu Hi E|p u view killed addr n r p' u' Hu Ha Hn E|p|p].
  - destruct (pipewrite_run killed addr n i p q u view Q1 Q2 Hu Hi) as (bs & r' & p1 & u1 & E1 & Hse & Hr & Hu1 & Hsd & Hres).
    rewrite E in E1. injection E1 as <- <- <-. rewrite Q3 in Hres. eexists _, _. split; [|by eapply pipe_is_ends].
    econstructor; try done. apply Hr.
  - destruct (piperead_run killed addr n p q u view Q1 Q2 Hu Ha Hn) as (r' & p1 & u1 & bs & lost & q' & E1 & Hse & Hr & Hqq & Hu1 & Hres).
    rewrite E in E1. injection E1 as <- <- <-. rewrite Q4 in Hres. eexists _, _. split; [|by eapply pipe_is_ends].
    by econstructor.
  - eexists _, _. split; [constructor|]. constructor; cbn; try done. destruct Q2. by constructor.
  - eexists _, _. split; [constructor|]. constructor; cbn; try done. destruct Q2. by constructor.
Qed.

(** In the queue, bytes leave in the order they came. *)
Lemma aq_step_order a c e a' : aq_step a c e a' → aq_bytes a ++ ev_in e = (ev_out e ++ ev_lost e) ++ aq_bytes a'.
Proof. intros []; cbn; rewrite ?app_nil_r, <-?app_assoc; congruence. Qed.

Lemma aq_run_order a tr ev a' :
  aq_run a tr ev a' → aq_bytes a ++ concat (ev_in <$> ev) = concat ((λ e, ev_out e ++ ev_lost e) <$> ev) ++ aq_bytes a'.
Proof.
  induction 1 as [|a c e a1 tr ev a' Hs _ IH]; [apply app_nil_r|]. rewrite !fmap_cons. cbn [concat].
  rewrite app_assoc, (aq_step_order _ _ _ _ Hs), <-!app_assoc. f_equal. f_equal. exact IH.
Qed.

Lemma pipe_run_refines p a tr p' : pipe_is p a → pipe_run p tr p' → ∃ ev a', aq_run a tr ev a' ∧ pipe_is p' a'.
Proof.
  intros Hq Hr. revert a Hq. induction Hr as [p|p c p1 tr p' Hs _ IH]; intros a Hq.
  - exists [], a. by split; [constructor|].
  - destruct (pipe_step_refines p a c p1 Hq Hs) as (e & a1 & Ha & Hq1). destruct (IH a1 Hq1) as (ev & a' & Har & Hq').
    exists (e :: ev), a'. split; [by econstructor|done].
Qed.

(** C18: a pipe is a queue, for any number of readers and writers and any
    interleaving of their calls: writes that sleep on a full pipe and go on,
    reads of any part of what is there, ends that are closed in between.  Every
    call does what the queue [aq_step] does: a write appends the caller's
    bytes from the one it had reached, as many as its result says, stopping
    early only on a full pipe or a failed [copyin]; a read delivers the oldest
    bytes to the caller's memory, all it asked for or all there are; a byte is
    taken and not delivered only when the [copyout] of this very byte fails.
    So the bytes written are, in order, the bytes taken followed by those still
    in the pipe.  And every further call returns. *)
Theorem pipe_fifo p a tr p' :
  pipe_is p a → pipe_run p tr p' →
  ∃ ev a', aq_run a tr ev a' ∧ pipe_is p' a' ∧
    aq_bytes a ++ concat (ev_in <$> ev) = concat ((λ e, ev_out e ++ ev_lost e) <$> ev) ++ aq_bytes a' ∧
    (∀ killed addr n i u view, u_rep u view → 0 ≤ i ≤ Z.max n 0 → ∃ r s', pipewrite me pi killed addr n i (mkpst p' u) = Ok r s') ∧
    (∀ killed addr n u view, u_rep u view → 0 ≤ addr → addr + n ≤ 18446744073709551616 →
       ∃ r s', piperead me pi killed addr n (mkpst p' u) = Ok r s').
Proof.
  intros Hq Hr. destruct (pipe_run_refines p a tr p' Hq Hr) as (ev & a' & Ha & Hq'). exists ev, a'. pose proof Hq' as [Q1 Q2 _ _].
  split_and!; [done|done|by eapply aq_run_order| |].
  - intros killed addr n i u view Hu Hi. destruct (pipewrite_run killed addr n i p' _ u view Q1 Q2 Hu Hi) as (bs & r & p1 & u1 & E & _).
    by exists r, (mkpst p1 u1).
  - intros killed addr n u view Hu Ha0 Hn. destruct (piperead_run killed addr n p' _ u view Q1 Q2 Hu Ha0 Hn) as (r & p1 & u1 & bs & lost & q' & E & _).
    by exists r, (mkpst p1 u1).
Qed.
End ops.

(** ** An instance: a pipe with 510 bytes between processes with demand-zero memory *)

Definition dpipe : pipe := mkpipe (initlock "pipe") (replicate 512 0) 4294967290 504 1 1.
Definition dqueue : list Z := replicate 510 0.
Definition duser_mem : UserMem kmem := vm_user_mem 0 dend 8192 2147483648.
Definition duser : UserMemSpec kmem (UM := duser_mem) :=
  vm_user_mem_spec 0 dend eq_refl 8192 (proj1 (Z.leb_le 8192 MAXVA) eq_refl) 2147483648.
Definition dview : Z → option Z := uview 8192 (pmem dkmem) dtree.

Lemma dpipe_rep : pipe_rep dpipe dqueue.
Proof.
  constructor; [done|unfold dpipe; cbn; lia|done|done|apply Forall_replicate; lia|].
  intros i Hi. change (len dqueue) with 510 in Hi. unfold dpipe, dqueue. cbn [pi_data pi_nread].
  pose proof (Z.mod_pos_bound (4294967290 + i) PIPESIZE ltac:(unfold PIPESIZE; lia)). unfold PIPESIZE in *.
  rewrite (znth_replicate 0 0 512), (znth_replicate 0 0 510) by lia. done.
Qed.

Lemma duser_rep : u_rep (UserMemSpec := duser) dkmem dview.
Proof. exists dtree, dfree. split_and!; [exact dkmem_uinv|done|done]. Qed.

(** A process writes 5 bytes of its zero memory and sleeps on the full pipe after
    2 of them; another one reads 4; the writer goes on. *)
Definition drun_of {A} (m : outcome (pst kmem) A) : pst kmem := match m with Ok _ s => s | _ => mkpst dpipe dkmem end.
#[local] Abbreviation dstep1 := (pipewrite (UM := duser_mem) 0 0 0 100 5 0 (mkpst dpipe dkmem)).
#[local] Abbreviation dstep2 := (piperead (UM := duser_mem) 0 0 0 1000 4 (mkpst (ps_pipe (drun_of dstep1)) dkmem)).
#[local] Abbreviation dstep3 := (pipewrite (UM := duser_mem) 0 0 0 100 5 2 (mkpst (ps_pipe (drun_of dstep2)) dkmem)).

Definition io_is (r : io) (m : outcome (pst kmem) io) : bool :=
  match m, r with
  | Ok (Done x) _, Done y | Ok (Blocked x) _, Blocked y => x =? y
  | _, _ => false
  end.

Lemma io_is_ok r m : io_is r m = true → m = Ok r (mkpst (ps_pipe (drun_of m)) (ps_user (drun_of m))).
Proof. destruct m as [[x|x] [p u]| | | |], r as [y|y]; try done; cbn; by intros ->%Z.eqb_eq. Qed.

Definition dtrace : list (pcall (U := kmem)) :=
  [PWrite dview (ps_user (drun_of dstep1)) 0 100 5 0 (Blocked 2);
   PRead dview (ps_user (drun_of dstep2)) 0 1000 4 (Done 4);
   PWrite dview (ps_user (drun_of dstep3)) 0 100 5 2 (Done 5)].

Lemma dstep1_run : io_is (Blocked 2) dstep1 = true.
Proof. vm_compute. reflexivity. Qed.
Lemma dstep2_run : io_is (Done 4) dstep2 = true.
Proof. vm_compute. reflexivity. Qed.
Lemma dstep3_run : io_is (Done 5) dstep3 = true.
Proof. vm_compute. reflexivity. Qed.

Lemma dstep1_step : pipe_step (US := duser) 0 0 dpipe (PWrite dview (ps_user (drun_of dstep1)) 0 100 5 0 (Blocked 2)) (ps_pipe (drun_of dstep1)).
Proof.
  pose proof (io_is_ok _ _ dstep1_run) as H.
  refine (step_write (US := duser) 0 0 dpipe dkmem dview 0 100 5 0 (Blocked 2) _ _ duser_rep _ H). clear. lia.
Qed.

Lemma dstep2_step : pipe_step (US := duser) 0 0 (ps_pipe (drun_of dstep1)) (PRead dview (ps_user (drun_of dstep2)) 0 1000 4 (Done 4)) (ps_pipe (drun_of dstep2)).
Proof.
  pose proof (io_is_ok _ _ dstep2_run) as H.
  refine (step_read (US := duser) 0 0 _ dkmem dview 0 1000 4 (Done 4) _ _ duser_rep _ _ H); clear; lia.
Qed.

Lemma dstep3_step : pipe_step (US := duser) 0 0 (ps_pipe (drun_of dstep2)) (PWrite dview (ps_user (drun_of dstep3)) 0 100 5 2 (Done 5)) (ps_pipe (drun_of dstep3)).
Proof.
  pose proof (io_is_ok _ _ dstep3_run) as H.
  refine (step_write (US := duser) 0 0 _ dkmem dview 0 100 5 2 (Done 5) _ _ duser_rep _ H). clear. lia.
Qed.

Lemma dtrace_run : pipe_run (US := duser) 0 0 dpipe dtrace (ps_pipe (drun_of dstep3)).
Proof.
  exact (run_cons _ _ _ _ _ _ _ dstep1_step (run_cons _ _ _ _ _ _ _ dstep2_step (run_cons _ _ _ _ _ _ _ dstep3_step (run_nil _ _ _)))).
Qed.

Lemma dpipe_is : pipe_is dpipe (mkaq dqueue 1 1).
Proof. constructor; [done|exact dpipe_rep|done|done]. Qed.

Lemma pipe_fifo_witness :
  ∃ ev a', aq_run (US := duser) (mkaq dqueue 1 1) dtrace ev a' ∧ pipe_is (ps_pipe (drun_of dstep3)) a' ∧
    dqueue ++ concat (ev_in <$> ev) = concat ((λ e, ev_out e ++ ev_lost e) <$> ev) ++ aq_bytes a'.
Proof.
  destruct (pipe_fifo (US := duser) 0 0 dpipe (mkaq dqueue 1 1) dtrace (ps_pipe (drun_of dstep3)) dpipe_is dtrace_run) as (ev & a' & Ha & Hq & Ho & _).
  exists ev, a'. exact (conj Ha (conj Hq Ho)).
Defined.
