(* ===== verification/File.v ===== *)
(** kernel/file.c, kernel/pipe.c (allocation): open files.

    The state is the file system, the file table and the pipes, each under the
    address of its page.  A file pointer is the index of its table entry plus
    one, so that 0 is the null pointer.  The device table is a parameter: the
    kernel fills it at boot (console.c). *)

From stdpp Require Import base tactics list numbers strings gmap.
From S2P Require Import Prelude Param Bytes Spinlock Sleeplock TxSpec UserSpec Fs Pipe.
From Stdlib Require Import ZArith Lia.

Open Scope kernel_scope.

(** The page allocator, as the code above kernel/kalloc.c uses it. *)
Class PageAlloc (U : Type) := {
  pg_kalloc : M U Z;
  pg_kfree : Z → M U unit;
}.

(** * Data *)

Inductive fdtype := FD_NONE | FD_PIPE | FD_INODE | FD_DEVICE.

#[export] Instance fdtype_eq_dec : EqDecision fdtype.
Proof. solve_decision. Defined.

Record file := mkfile {
  f_type : fdtype;
  f_ref : Z;
  f_readable : Z;
  f_writable : Z;
  f_pipe : Z;
  f_ip : Z;
  f_off : Z;
  f_major : Z;
}.

Definition file0 : file := mkfile FD_NONE 0 0 0 0 0 0 0.

Definition set_f_type (v : fdtype) (f : file) : file :=
  mkfile v (f_ref f) (f_readable f) (f_writable f) (f_pipe f) (f_ip f) (f_off f) (f_major f).
Definition set_f_ref (v : Z) (f : file) : file :=
  mkfile (f_type f) v (f_readable f) (f_writable f) (f_pipe f) (f_ip f) (f_off f) (f_major f).
Definition set_f_readable (v : Z) (f : file) : file :=
  mkfile (f_type f) (f_ref f) v (f_writable f) (f_pipe f) (f_ip f) (f_off f) (f_major f).
Definition set_f_writable (v : Z) (f : file) : file :=
  mkfile (f_type f) (f_ref f) (f_readable f) v (f_pipe f) (f_ip f) (f_off f) (f_major f).
Definition set_f_pipe (v : Z) (f : file) : file :=
  mkfile (f_type f) (f_ref f) (f_readable f) (f_writable f) v (f_ip f) (f_off f) (f_major f).
Definition set_f_ip (v : Z) (f : file) : file :=
  mkfile (f_type f) (f_ref f) (f_readable f) (f_writable f) (f_pipe f) v (f_off f) (f_major f).
Definition set_f_off (v : Z) (f : file) : file :=
  mkfile (f_type f) (f_ref f) (f_readable f) (f_writable f) (f_pipe f) (f_ip f) v (f_major f).
Definition set_f_major (v : Z) (f : file) : file :=
  mkfile (f_type f) (f_ref f) (f_readable f) (f_writable f) (f_pipe f) (f_ip f) (f_off f) v.

Record ftable := mkftable { ft_lock : spinlock; ft_file : list file }.

Record kst (F U : Type) := mkkst {
  k_fs : fstate F U;
  k_ft : ftable;
  k_pipes : gmap Z pipe;
}.
Arguments mkkst {F U} _ _ _.
Arguments k_fs {F U} _.
Arguments k_ft {F U} _.
Arguments k_pipes {F U} _.

Section file.
  Context {F H U : Type} `{TX : Txn F H} `{UM : UserMem U} `{PA : PageAlloc U}.
  Context (me pid : Z).

Abbreviation KM := (M (kst F U)).

Definition fsL : lens (kst F U) (fstate F U) := Lens k_fs (λ f s, mkkst f (k_ft s) (k_pipes s)).
Definition ftlockL : lens (kst F U) spinlock :=
  Lens (λ s, ft_lock (k_ft s)) (λ l s, mkkst (k_fs s) (mkftable l (ft_file (k_ft s))) (k_pipes s)).
Definition uL : lens (kst F U) U :=
  Lens (λ s, ku_user (fr_ku (fs_rest (k_fs s))))
       (λ u s, mkkst (upd kuL (mkku (ku_kmem (fr_ku (fs_rest (k_fs s)))) u) (k_fs s)) (k_ft s) (k_pipes s)).

(** The pipe at address [a] with the caller's memory. *)
Definition pipe0 : pipe := mkpipe (mkspinlock 0 "" None) (replicate 512 0) 0 0 0 0.
Definition set_pipe (a : Z) (p : pipe) (s : kst F U) : kst F U := mkkst (k_fs s) (k_ft s) (<[a := p]> (k_pipes s)).
Definition getpipe (s : kst F U) (a : Z) : pipe := default pipe0 (k_pipes s !! a).
Definition pipeuL (a : Z) : lens (kst F U) (pst U) :=
  Lens (λ s, mkpst (getpipe s a) (view uL s)) (λ t s, upd uL (ps_user t) (set_pipe a (ps_pipe t) s)).

(** [*f] and its update. *)
Definition getf (s : kst F U) (f : Z) : file := znth file0 (ft_file (k_ft s)) (f - 1).
Definition upd_f (f : Z) (g : file → file) : KM unit :=
  modify (λ s, mkkst (k_fs s) (mkftable (ft_lock (k_ft s)) (zset (ft_file (k_ft s)) (f - 1) (g (getf s f)))) (k_pipes s)).

(** Calls into the layers below. *)
Definition fs_ {A} (m : M (fstate F U) A) : KM A := zoom fsL m.
Definition begin_op_ : KM unit := zoom fsL (zoom ioL t_begin_op).
Definition end_op_ : KM unit := zoom fsL (zoom ioL t_end_op).
Definition inode_of (s : kst F U) (ip : Z) : inode := geti (k_fs s) ip.
Definition upd_inode (ip : Z) (g : inode → inode) : KM unit := zoom fsL (upd_i ip g).
Definition kalloc_ : KM Z := zoom uL pg_kalloc.
Definition kfree_ (pa : Z) : KM unit := zoom uL (pg_kfree pa).
Definition copyout_ (dst : Z) (src : list Z) : KM Z := zoom uL (u_copyout dst src).

(** A blocked call leaves the CPU. *)
Definition io_ (chan : Z) (m : KM io) : KM Z :=
  r <- m ;;
  match r with Done v => ret v | Blocked _ => λ s, Sleep chan s end.

(** * file.c *)

Definition fileinit : KM unit := modify (upd ftlockL (initlock "ftable")).

Definition filealloc : KM Z :=
  zoom ftlockL (acquire_lk me) ;;
  r <- for_up (Z.to_nat NFILE) 1 (λ f,
    s <- get ;;
    if f_ref (getf s f) =? 0 then upd_f f (set_f_ref 1) ;; ret (Stop f) else ret Next) ;;
  zoom ftlockL (release_lk me) ;;
  ret (match r with Some f => f | None => 0 end).

Definition filedup (f : Z) : KM Z :=
  zoom ftlockL (acquire_lk me) ;;
  s <- get ;;
  if f_ref (getf s f) <? 1 then panic "filedup"
  else
    upd_f f (λ x, set_f_ref (f_ref x + 1) x) ;;
    zoom ftlockL (release_lk me) ;;
    ret f.

(** The page of a pipe with both ends closed goes back to the allocator. *)
Definition pipeclose (pi writable : Z) : KM unit :=
  zoom (pipeuL pi) (zoom pilockL (acquire_lk me)) ;;
  (if negb (writable =? 0) then
     modify (λ s, set_pipe pi (set_pi_writeopen 0 (getpipe s pi)) s) ;;
     wakeup (nread_chan pi)
   else
     modify (λ s, set_pipe pi (set_pi_readopen 0 (getpipe s pi)) s) ;;
     wakeup (nwrite_chan pi)) ;;
  s <- get ;;
  let p := getpipe s pi in
  zoom (pipeuL pi) (zoom pilockL (release_lk me)) ;;
  if (pi_readopen p =? 0) && (pi_writeopen p =? 0) then
    kfree_ pi ;;
    modify (λ s, mkkst (k_fs s) (k_ft s) (delete pi (k_pipes s)))
  else ret tt.

(** The last reference to [ff] is gone. *)
Definition close_last (ff : file) : KM unit :=
  match f_type ff with
  | FD_PIPE => pipeclose (f_pipe ff) (f_writable ff)
  | FD_INODE | FD_DEVICE => begin_op_ ;; fs_ (iput me pid (f_ip ff)) ;; end_op_
  | FD_NONE => ret tt
  end.

Definition fileclose (f : Z) : KM unit :=
  zoom ftlockL (acquire_lk me) ;;
  s <- get ;;
  if f_ref (getf s f) <? 1 then panic "fileclose"
  else
    upd_f f (λ x, set_f_ref (f_ref x - 1) x) ;;
    s <- get ;;
    if 0 <? f_ref (getf s f) then zoom ftlockL (release_lk me)
    else
      let ff := getf s f in
      upd_f f (λ x, set_f_type FD_NONE (set_f_ref 0 x)) ;;
      zoom ftlockL (release_lk me) ;;
      close_last ff.

(** [struct stat] as bytes: dev, ino, type, nlink, padding, size.  The padding of
    the local variable is never written: [pad] is what the stack had. *)
Definition stat_bytes (pad : Z) (st : stat) : list Z :=
  le_enc 4 (st_dev st) ++ le_enc 4 (st_ino st) ++ le_enc 2 (st_type st) ++ le_enc 2 (st_nlink st) ++
  le_enc 4 pad ++ le_enc 8 (st_size st).

Definition filestat (pad f addr : Z) : KM Z :=
  s <- get ;;
  let ff := getf s f in
  match f_type ff with
  | FD_INODE | FD_DEVICE =>
      fs_ (ilock me pid (f_ip ff)) ;;
      st <- fs_ (stati (f_ip ff)) ;;
      fs_ (iunlock me pid (f_ip ff)) ;;
      r <- copyout_ addr (stat_bytes pad st) ;;
      if r <? 0 then ret (-1) else ret 0
  | _ => ret (-1)
  end.

(** [devsw\[major\]]: the read and write functions of a device, where set. *)
Record devops := mkdevops {
  dev_read : option (Z → Z → Z → KM Z);
  dev_write : option (Z → Z → Z → KM Z);
}.
Context (devsw : Z → devops) (killed : Z).

Definition fileread (f addr n : Z) : KM Z :=
  s <- get ;;
  let ff := getf s f in
  if f_readable ff =? 0 then ret (-1)
  else
    match f_type ff with
    | FD_PIPE => io_ (nread_chan (f_pipe ff)) (zoom (pipeuL (f_pipe ff)) (piperead me (f_pipe ff) killed addr n))
    | FD_DEVICE =>
        if (f_major ff <? 0) || (NDEV <=? f_major ff) then ret (-1)
        else
          match dev_read (devsw (f_major ff)) with
          | None => ret (-1)
          | Some rd => rd 1 addr n
          end
    | FD_INODE =>
        fs_ (ilock me pid (f_ip ff)) ;;
        s <- get ;;
        r <- fs_ (readi (f_ip ff) 1 addr (f_off (getf s f)) (u32 n)) ;;
        (if 0 <? r then upd_f f (λ x, set_f_off (u32 (f_off x + r)) x) else ret tt) ;;
        fs_ (iunlock me pid (f_ip ff)) ;;
        ret r
    | FD_NONE => panic "fileread"
    end.

(** [max] of [filewrite]. *)
Definition max_write : Z := ((MAXOPBLOCKS - 1 - 1 - 2) / 2) * BSIZE.

(** The loop of [filewrite] from byte [i] on; the result is [i] at its end. *)
Fixpoint filewrite_loop (fuel : nat) (f addr n i : Z) : KM Z :=
  match fuel with
  | O => λ _, OutOfFuel
  | S fuel' =>
      if negb (i <? n) then ret i
      else
        let n1 := if max_write <? n - i then max_write else n - i in
        begin_op_ ;;
        s <- get ;;
        let ip := f_ip (getf s f) in
        fs_ (ilock me pid ip) ;;
        s <- get ;;
        r <- fs_ (writei ip 1 (u64 (addr + i)) (f_off (getf s f)) n1) ;;
        (if 0 <? r then upd_f f (λ x, set_f_off (u32 (f_off x + r)) x) else ret tt) ;;
        fs_ (iunlock me pid ip) ;;
        end_op_ ;;
        if negb (r =? n1) then ret i
        else filewrite_loop fuel' f addr n (i + r)
  end.

Definition filewrite (f addr n : Z) : KM Z :=
  s <- get ;;
  let ff := getf s f in
  if f_writable ff =? 0 then ret (-1)
  else
    match f_type ff with
    | FD_PIPE => io_ (nwrite_chan (f_pipe ff)) (zoom (pipeuL (f_pipe ff)) (pipewrite me (f_pipe ff) killed addr n 0))
    | FD_DEVICE =>
        if (f_major ff <? 0) || (NDEV <=? f_major ff) then ret (-1)
        else
          match dev_write (devsw (f_major ff)) with
          | None => ret (-1)
          | Some wr => wr 1 addr n
          end
    | FD_INODE =>
        i <- filewrite_loop (Z.to_nat (n / max_write + 2)) f addr n 0 ;;
        ret (if i =? n then n else -1)
    | FD_NONE => panic "filewrite"
    end.

(** * pipe.c *)

(** Both file pointers, or 0s, and the result. *)
Definition pipealloc : KM (Z * Z * Z) :=
  f0 <- filealloc ;;
  f1 <- (if f0 =? 0 then ret 0 else filealloc) ;;
  pi <- (if (f0 =? 0) || (f1 =? 0) then ret 0 else kalloc_) ;;
  if (f0 =? 0) || (f1 =? 0) || (pi =? 0) then
    (if negb (f0 =? 0) then fileclose f0 else ret tt) ;;
    (if negb (f1 =? 0) then fileclose f1 else ret tt) ;;
    ret (f0, f1, -1)
  else
    modify (λ s, set_pipe pi (mkpipe (initlock "pipe") (pi_data (getpipe s pi)) 0 0 1 1) s) ;;
    upd_f f0 (λ x, set_f_pipe pi (set_f_writable 0 (set_f_readable 1 (set_f_type FD_PIPE x)))) ;;
    upd_f f1 (λ x, set_f_pipe pi (set_f_writable 1 (set_f_readable 0 (set_f_type FD_PIPE x)))) ;;
    ret (f0, f1, 0).
End file.
