(* ===== verification/Syscall.v ===== *)
(** kernel/syscall.c: the state of the whole kernel, the arguments of system
    calls and their dispatch.

    [sys] puts the components together: the process table, the file system with
    open files and pipes, physical memory (inside the file system's state, as
    the user memory it copies to and from) and the clock.  The current process
    is [cpu_proc]; its size and page table give the copy routines of vm.c.

    The kernel addresses memory directly: an address of a page of the allocator
    is physical memory, any other address is a static or stack variable.
    [kmemory] is that single memory. *)

From stdpp Require Import base tactics list numbers strings gmap.
From S2P Require Import Prelude Param Bytes CString Spinlock Sleeplock TxSpec UserSpec Vm VmTree VmMap VmUser Proc Fs Pipe File Kalloc.
From Stdlib Require Import ZArith Lia.

Open Scope kernel_scope.

Record sys (F : Type) := mksys {
  y_pt : ptable;
  y_k : kst F kmem;
  y_tickslock : spinlock;
  y_ticks : Z;
}.
Arguments mksys {F} _ _ _ _.
Arguments y_pt {F} _.
Arguments y_k {F} _.
Arguments y_tickslock {F} _.
Arguments y_ticks {F} _.

(** Offsets in [struct trapframe]. *)
Definition TF_kernel_satp : Z := 0.
Definition TF_kernel_sp : Z := 8.
Definition TF_kernel_trap : Z := 16.
Definition TF_epc : Z := 24.
Definition TF_kernel_hartid : Z := 32.
Definition TF_sp : Z := 48.
Definition TF_a0 : Z := 112.
Definition TF_a1 : Z := 120.
Definition TF_a7 : Z := 168.
Definition SIZEOF_TRAPFRAME : Z := 288.

Section sys.
  Context {F H : Type} `{TX : Txn F H}.
  Context (me kend : Z).

Abbreviation YM := (M (sys F)).

Definition ptL : lens (sys F) ptable := Lens y_pt (λ t s, mksys t (y_k s) (y_tickslock s) (y_ticks s)).
Definition kL : lens (sys F) (kst F kmem) := Lens y_k (λ k s, mksys (y_pt s) k (y_tickslock s) (y_ticks s)).
Definition tickslockL : lens (sys F) spinlock := Lens y_tickslock (λ l s, mksys (y_pt s) (y_k s) l (y_ticks s)).
Definition kmL : lens (sys F) kmem := Lens (λ s, view uL (y_k s)) (λ m s, upd kL (upd uL m (y_k s)) s).

(** Calls into the components. *)
Definition pt_ {A} (m : M ptable A) : YM A := zoom ptL m.
Definition vm_ {A} (m : M kmem A) : YM A := zoom kmL m.
Definition k_ {A} (m : M (kst F kmem) A) : YM A := zoom kL m.

(** The current process. *)
Definition cur (s : sys F) : proc := getp (y_pt s) (cpu_proc (y_pt s)).
Definition upd_cur (f : proc → proc) : YM unit := modify (λ s, upd ptL (upd_p (cpu_proc (y_pt s)) f (y_pt s)) s).

(** The user memory and the allocator of the current process. *)
Definition um (s : sys F) : UserMem kmem := vm_user_mem me kend (p_sz (cur s)) (p_pagetable (cur s)).
Definition pa : PageAlloc kmem := {| pg_kalloc := kalloc me; pg_kfree := kfree me kend |}.
Definition u_ {A} (m : UserMem kmem → M (kst F kmem) A) : YM A := s <- get ;; zoom kL (m (um s)).
Definition fs_ {A} (m : UserMem kmem → M (fstate F kmem) A) : YM A := u_ (λ u, zoom fsL (m u)).

(** Kernel memory. *)
Definition is_phys (x : Z) : bool := (kend <=? x) && (x <? PHYSTOP).
Definition ku (s : sys F) : kustate kmem := fr_ku (fs_rest (k_fs (y_k s))).
Definition set_ku (k : kustate kmem) (s : sys F) : sys F := upd kL (upd fsL (upd kuL k (k_fs (y_k s))) (y_k s)) s.
Definition kmemory (s : sys F) : mem := λ x, if is_phys x then pmem (ku_user (ku s)) x else ku_kmem (ku s) x.
Definition set_kmemory (m : mem) (s : sys F) : sys F :=
  let k := ku s in
  set_ku (mkku (λ x, if is_phys x then ku_kmem k x else m x)
               (set_pmem (λ x, if is_phys x then m x else pmem (ku_user k) x) (ku_user k))) s.

(** [readi] with a kernel destination, anywhere in that memory. *)
Definition readi_kernel (ip dst off n : Z) : YM Z :=
  modify (λ s, set_ku (mkku (kmemory s) (ku_user (ku s))) s) ;;
  r <- fs_ (λ UM, readi (UM := UM) ip 0 dst off n) ;;
  modify (λ s, set_kmemory (ku_kmem (ku s)) s) ;;
  ret r.

(** The trapframe of the current process. *)
Definition tf_get (s : sys F) (o : Z) : Z := load64 (pmem (view kmL s)) (p_trapframe (cur s) + o).
Definition tf_set (o v : Z) : YM unit :=
  modify (λ s, upd kmL (set_pmem (store64 (pmem (view kmL s)) (p_trapframe (cur s) + o) v) (view kmL s)) s).

(** * Arguments *)

(** The result and the value read. *)
Definition fetchaddr (addr : Z) : YM (Z * Z) :=
  s <- get ;;
  let sz := p_sz (cur s) in
  if (sz <=? addr) || (sz <? u64 (addr + 8)) then ret (-1, 0)
  else
    ' (r, bs) <- u_ (λ UM, zoom uL (u_copyin (UserMem := UM) addr 8)) ;;
    if negb (r =? 0) then ret (-1, 0) else ret (0, Bytes.le_dec bs).

(** [buf] is a kernel address. *)
Definition fetchstr (addr buf max : Z) : YM Z :=
  s <- get ;;
  ' (r, bs) <- vm_ (copyinstr me (p_pagetable (cur s)) addr max) ;;
  modify (λ s, set_kmemory (mem_write (kmemory s) buf bs) s) ;;
  if r <? 0 then ret (-1)
  else
    s <- get ;;
    match strlen (Z.to_nat max) (kmemory s) buf with
    | Some n => ret n
    | None => λ _, OutOfFuel
    end.

Definition argraw (n : Z) : YM Z :=
  if (0 <=? n) && (n <=? 5) then gets (λ s, tf_get s (TF_a0 + 8 * n)) else panic "argraw".

Definition argint (n : Z) : YM Z := v <- argraw n ;; ret (s32 v).

Definition argaddr (n : Z) : YM Z := argraw n.

Definition argstr (n buf max : Z) : YM Z :=
  addr <- argaddr n ;;
  fetchstr addr buf max.

(** * Dispatch *)

Definition SYS_fork : Z := 1.
Definition SYS_exit : Z := 2.
Definition SYS_wait : Z := 3.
Definition SYS_pipe : Z := 4.
Definition SYS_read : Z := 5.
Definition SYS_kill : Z := 6.
Definition SYS_exec : Z := 7.
Definition SYS_fstat : Z := 8.
Definition SYS_chdir : Z := 9.
Definition SYS_dup : Z := 10.
Definition SYS_getpid : Z := 11.
Definition SYS_sbrk : Z := 12.
Definition SYS_pause : Z := 13.
Definition SYS_uptime : Z := 14.
Definition SYS_open : Z := 15.
Definition SYS_write : Z := 16.
Definition SYS_mknod : Z := 17.
Definition SYS_unlink : Z := 18.
Definition SYS_link : Z := 19.
Definition SYS_mkdir : Z := 20.
Definition SYS_close : Z := 21.

(** [handlers] is the array [syscalls], 22 entries long.  The message about an
    unknown call is console output and is not kept. *)
Definition syscall (handlers : Z → option (YM Z)) : YM unit :=
  s <- get ;;
  let num := s32 (tf_get s TF_a7) in
  match (if (0 <? num) && (num <? 22) then handlers num else None) with
  | Some h =>
      r <- h ;;
      tf_set TF_a0 (u64 r)
  | None => tf_set TF_a0 (u64 (-1))
  end.
End sys.
