(* ===== verification/ProcMem.v ===== *)
(** kernel/proc.c: creating and ending processes.

    The operations of the file that allocate memory or touch files, over the
    state of the whole kernel.  [trampoline] and [forkret] are addresses of
    code; [de], [namebuf] and [rootpath] are the kernel addresses of the local
    variable [de] of the directory routines, of the local [name] of [namei] and
    of the string constant "/". *)

From stdpp Require Import base tactics list numbers strings gmap.
From S2P Require Import Prelude Param Bytes CString Spinlock Sleeplock TxSpec UserSpec Vm VmTree VmMap VmUser Fs Pipe File Kalloc Proc Syscall.
From Stdlib Require Import ZArith Lia.

Open Scope kernel_scope.

(** [safestrcpy(dst, src, 16)] on process names, as bytes. *)
Definition copy_name (dst src : list Z) : list Z :=
  mem_read (safestrcpy (mem_write (mem_write (λ _, 0) 0 dst) 1000 src) 0 1000 16) 0 16.

Section procmem.
  Context {F H : Type} `{TX : Txn F H}.
  Context (me kend : Z) (trampoline forkret de namebuf rootpath : Z).

Abbreviation YM := (M (sys F)).
Abbreviation vm_ := (vm_ (F := F)).
Abbreviation pt_ := (pt_ (F := F)).

(** Process [p] and its update. *)
Definition gp (s : sys F) (p : Z) : proc := getp (y_pt s) p.
Definition up (p : Z) (f : proc → proc) : YM unit := pt_ (modify (upd_p p f)).

(** * Page tables *)

Definition proc_pagetable (p : Z) : YM Z :=
  pagetable <- vm_ (uvmcreate me) ;;
  if pagetable =? 0 then ret 0
  else
    r <- vm_ (mappages me pagetable TRAMPOLINE PGSIZE trampoline (Z.lor PTE_R PTE_X)) ;;
    if r <? 0 then vm_ (uvmfree me kend pagetable 0) ;; ret 0
    else
      s <- get ;;
      r <- vm_ (mappages me pagetable TRAPFRAME PGSIZE (p_trapframe (gp s p)) (Z.lor PTE_R PTE_W)) ;;
      if r <? 0 then
        vm_ (uvmunmap me kend pagetable TRAMPOLINE 1 0) ;;
        vm_ (uvmfree me kend pagetable 0) ;;
        ret 0
      else ret pagetable.

Definition proc_freepagetable (pagetable sz : Z) : YM unit :=
  vm_ (uvmunmap me kend pagetable TRAMPOLINE 1 0) ;;
  vm_ (uvmunmap me kend pagetable TRAPFRAME 1 0) ;;
  vm_ (uvmfree me kend pagetable sz).

(** * The process table *)

Definition freeproc (p : Z) : YM unit :=
  s <- get ;;
  (if negb (p_trapframe (gp s p) =? 0) then vm_ (kfree me kend (p_trapframe (gp s p))) else ret tt) ;;
  up p (set_p_trapframe 0) ;;
  (if negb (p_pagetable (gp s p) =? 0) then proc_freepagetable (p_pagetable (gp s p)) (p_sz (gp s p)) else ret tt) ;;
  up p (λ x, set_p_state UNUSED (set_p_xstate 0 (set_p_killed 0 (set_p_chan 0
        (set_p_name (zset (p_name x) 0 0) (set_p_parent 0 (set_p_pid 0 (set_p_sz 0 (set_p_pagetable 0 x))))))))).

(** The new process, with its lock held, or 0. *)
Definition allocproc : YM Z :=
  r <- pt_ (for_proc (λ p,
    acq me (plockL p) ;;
    t <- get ;;
    if decide (p_state (getp t p) = UNUSED) then ret (Stop p)
    else rel me (plockL p) ;; ret Next)) ;;
  match r with
  | None => ret 0
  | Some p =>
      pid <- pt_ (allocpid me) ;;
      up p (λ x, set_p_state USED (set_p_pid pid x)) ;;
      tf <- vm_ (kalloc me) ;;
      up p (set_p_trapframe tf) ;;
      if tf =? 0 then freeproc p ;; pt_ (rel me (plockL p)) ;; ret 0
      else
        pagetable <- proc_pagetable p ;;
        up p (set_p_pagetable pagetable) ;;
        if pagetable =? 0 then freeproc p ;; pt_ (rel me (plockL p)) ;; ret 0
        else
          up p (λ x, set_p_context (mkcontext forkret (p_kstack x + PGSIZE) (replicate 12 0)) x) ;;
          ret p
  end.

Definition userinit : YM unit :=
  p <- allocproc ;;
  pt_ (modify (set_initproc p)) ;;
  s <- get ;;
  ip <- fs_ me kend (λ UM, namei (UM := UM) me (p_pid (cur s)) de 0 rootpath namebuf) ;;
  up p (set_p_cwd ip) ;;
  up p (set_p_state RUNNABLE) ;;
  pt_ (rel me (plockL p)).

Definition growproc (n : Z) : YM Z :=
  s <- get ;;
  let sz := p_sz (cur s) in
  if 0 <? n then
    sz <- vm_ (uvmalloc me kend (p_pagetable (cur s)) sz (u64 (sz + n)) PTE_W) ;;
    if sz =? 0 then ret (-1)
    else upd_cur (set_p_sz sz) ;; ret 0
  else if n <? 0 then
    sz <- vm_ (uvmdealloc me kend (p_pagetable (cur s)) sz (u64 (sz + n))) ;;
    upd_cur (set_p_sz sz) ;; ret 0
  else upd_cur (set_p_sz sz) ;; ret 0.

(** [*(np->trapframe) = *(p->trapframe)] *)
Definition copy_trapframe (dst src : Z) : YM unit :=
  vm_ (modify (λ m, set_pmem (mem_write (pmem m) dst (mem_read (pmem m) src (Z.to_nat SIZEOF_TRAPFRAME))) m)).

(** "increment reference counts on open file descriptors." *)
Definition fork_file (p np i : Z) : YM (ctl unit) :=
  s <- get ;;
  let f := znth 0 (p_ofile (gp s p)) i in
  (if negb (f =? 0) then
     f <- k_ (filedup me f) ;;
     up np (λ x, set_p_ofile (zset (p_ofile x) i f) x)
   else ret tt) ;;
  ret Next.

Definition fork_files (p np : Z) : YM (option unit) := for_up (Z.to_nat NOFILE) 0 (fork_file p np).

Definition kfork : YM Z :=
  p <- pt_ myproc ;;
  np <- allocproc ;;
  if np =? 0 then ret (-1)
  else
    s <- get ;;
    r <- vm_ (uvmcopy me kend (p_pagetable (gp s p)) (p_pagetable (gp s np)) (p_sz (gp s p))) ;;
    if r <? 0 then
      freeproc np ;;
      pt_ (rel me (plockL np)) ;;
      ret (-1)
    else
      up np (set_p_sz (p_sz (gp s p))) ;;
      copy_trapframe (p_trapframe (gp s np)) (p_trapframe (gp s p)) ;;
      vm_ (modify (λ m, set_pmem (store64 (pmem m) (p_trapframe (gp s np) + TF_a0) 0) m)) ;;
      fork_files p np ;;
      s <- get ;;
      ip <- fs_ me kend (λ _, idup me (p_cwd (gp s p))) ;;
      up np (set_p_cwd ip) ;;
      up np (λ x, set_p_name (copy_name (p_name x) (p_name (gp s p))) x) ;;
      let pid := p_pid (gp s np) in
      pt_ (rel me (plockL np)) ;;
      pt_ (acq me wait_lockL) ;;
      up np (set_p_parent p) ;;
      pt_ (rel me wait_lockL) ;;
      pt_ (acq me (plockL np)) ;;
      up np (set_p_state RUNNABLE) ;;
      pt_ (rel me (plockL np)) ;;
      ret pid.

(** * Exit and wait *)

Definition kexit (status : Z) : YM unit :=
  p <- pt_ myproc ;;
  s <- get ;;
  let pid := p_pid (gp s p) in
  if p =? initproc (y_pt s) then panic "init exiting"
  else
    for_up (R := unit) (Z.to_nat NOFILE) 0 (λ fd,
      s <- get ;;
      let f := znth 0 (p_ofile (gp s p)) fd in
      (if negb (f =? 0) then
         k_ (fileclose (PA := pa me kend) me pid f) ;;
         up p (λ x, set_p_ofile (zset (p_ofile x) fd 0) x)
       else ret tt) ;;
      ret Next) ;;
    k_ begin_op_ ;;
    s <- get ;;
    fs_ me kend (λ _, iput me pid (p_cwd (gp s p))) ;;
    k_ end_op_ ;;
    up p (set_p_cwd 0) ;;
    pt_ (acq me wait_lockL) ;;
    pt_ (reparent me p) ;;
    s <- get ;;
    pt_ (Proc.wakeup me (proc_chan (p_parent (gp s p)))) ;;
    pt_ (acq me (plockL p)) ;;
    up p (λ x, set_p_state ZOMBIE (set_p_xstate status x)) ;;
    pt_ (rel me wait_lockL) ;;
    pt_ (sched me) ;;
    panic "zombie exit".

(** The scan of the table for a zombie child of [p]: the result of [kwait], or
    whether there are children. *)
Fixpoint kwait_scan (n : nat) (pp havekids p addr : Z) : YM (Z + Z) :=
  match n with
  | O => ret (inr havekids)
  | S n' =>
      s <- get ;;
      if p_parent (gp s pp) =? p then
        pt_ (acq me (plockL pp)) ;;
        s <- get ;;
        if decide (p_state (gp s pp) = ZOMBIE) then
          let pid := p_pid (gp s pp) in
          r <- (if negb (addr =? 0)
                then u_ me kend (λ UM, zoom uL (u_copyout (UserMem := UM) addr (le_enc 4 (p_xstate (gp s pp)))))
                else ret 0) ;;
          if r <? 0 then
            pt_ (rel me (plockL pp)) ;;
            pt_ (rel me wait_lockL) ;;
            ret (inl (-1))
          else
            freeproc pp ;;
            pt_ (rel me (plockL pp)) ;;
            pt_ (rel me wait_lockL) ;;
            ret (inl pid)
        else
          pt_ (rel me (plockL pp)) ;;
          kwait_scan n' (pp + 1) 1 p addr
      else kwait_scan n' (pp + 1) havekids p addr
  end.

(** One turn of the loop: a child is reaped, there is none, or the process
    sleeps and will run the turn again, with [wait_lock] taken. *)
Definition kwait_turn (p addr : Z) : YM Z :=
  r <- kwait_scan (Z.to_nat NPROC) 1 0 p addr ;;
  match r with
  | inl r => ret r
  | inr havekids =>
      k <- (if havekids =? 0 then ret 1 else pt_ (killed me p)) ;;
      if negb (k =? 0) then
        pt_ (rel me wait_lockL) ;;
        ret (-1)
      else
        pt_ (sleep me (proc_chan p) wait_lockL) ;;
        ret 0
  end.

Definition kwait (addr : Z) : YM Z :=
  p <- pt_ myproc ;;
  pt_ (acq me wait_lockL) ;;
  kwait_turn p addr.
End procmem.
