(* ===== verification/ProcSpec.v ===== *)
(** kernel/proc.c: a new process.

    [allocproc], with [allocpid], [kalloc] and [proc_pagetable]: with memory
    left, the first unused entry of the table becomes a process with a number
    of its own, a page for its trapframe, a page table that maps the trampoline
    and the trapframe and nothing else, and a context that starts in
    [forkret] on its kernel stack. *)

From stdpp Require Import base tactics list numbers strings gmap.
From S2P Require Import Prelude Param Bytes CString Spinlock TxSpec UserSpec Vm VmTree VmMap VmUser KvmSpec Fs FsInode File Kalloc Proc Syscall ProcMem.
From Stdlib Require Import ZArith Lia.

Open Scope kernel_scope.

(** * The table *)

Section table.
  Context (me : Z).

Lemma allocpid_ok t : unlocked (pid_lock t) → cpu_ok (pcpu t) →
  allocpid me t = Ok (nextpid t) (set_nextpid (s32 (nextpid t + 1)) (unlocked_by t)).
Proof.
  intros Hl Hc. destruct (cpu_ok_pushed _ Hc) as (_ & C1 & C2). pose proof (unlocked_eq _ Hl) as El. destruct Hl as [L1 L2].
  unfold allocpid, acq, rel. unfold bind, zoom. cbn [view pcpuL]. rewrite SMP.push_off_ok. fold (pushed (pcpu t)). cbn [upd pcpuL view pid_lockL].
  change (pid_lock (set_pcpu (pushed (pcpu t)) t)) with (pid_lock t). unfold acquire_lk, holding. rewrite L1. cbn [Z.eqb negb andb].
  unfold gets, modify, release_lk, holding. cbn -[pop_off]. rewrite bool_decide_true by done. cbn [negb]. rewrite SMP.pop_off_ok by done.
  unfold unlocked_by, set_nextpid, set_pcpu. cbn. rewrite <-El. by destruct t.
Qed.

(** The search: the lock of the entry found stays held. *)
Lemma find_unused t p (body := λ p, acq me (plockL p) ;; t <- get ;; if decide (p_state (getp t p) = UNUSED) then ret (Stop p) else rel me (plockL p) ;; ret Next) :
  tok t → 1 ≤ p ≤ NPROC → p_state (getp t p) = UNUSED → (∀ q, 1 ≤ q < p → p_state (getp t q) ≠ UNUSED) →
  ∃ c, cpu_same (pcpu t) c ∧ for_proc body t = Ok (Some p) (locked_by me (set_pcpu c t) p).
Proof.
  intros Ht Hp Hu Hq.
  set (I := λ i t', i ≤ p ∧ tok t' ∧ ∃ c, cpu_same (pcpu t) c ∧ t' = set_pcpu c t).
  assert (HF : returns (for_proc body) t (λ r t', r = Some p ∧ ∃ c, cpu_same (pcpu t) c ∧ t' = locked_by me (set_pcpu c t) p)).
  { unfold for_proc. apply (for_up_inv I).
    - split_and!; [lia|done|]. exists (pcpu t). split; [done|by destruct t].
    - intros i t' Hi (Hip & Ht' & c & Hc & ->). set (t' := set_pcpu c t) in *.
      assert (Hv : pvalid t' i) by (unfold pvalid; rewrite (tok_len _ Ht'); unfold NPROC in *; lia).
      unfold returns, body. rewrite (bind_ok _ _ _ _ _ (crit_acq me _ _ Ht' Hv)), bind_get, (crit_get me) by done.
      change (p_state (set_p_lock _ ?x)) with (p_state x). change (getp t' i) with (getp t i). destruct (decide (i = p)) as [-> | Hne].
      + rewrite Hu, decide_True by done. cbn. split; [done|]. by exists c.
      + rewrite decide_False by (apply Hq; lia). rewrite (bind_ok _ _ _ _ _ (crit_rel_id me _ _ Ht' Hv)). cbn. split_and!; [lia|by apply tok_unlocked|].
        exists (popped (pushed c)). split; [|done]. eapply cpu_same_trans; [exact Hc|]. apply popped_pushed. apply (tok_cpu _ Ht').
    - intros t' (Hle & _). unfold NPROC in *. exfalso. lia. }
  apply returns_ok in HF as (r & t' & E & -> & c & Hc & ->). by exists c.
Qed.

(** No entry is unused. *)
Lemma none_unused t (body := λ p, acq me (plockL p) ;; t <- get ;; if decide (p_state (getp t p) = UNUSED) then ret (Stop p) else rel me (plockL p) ;; ret Next) :
  tok t → (∀ q, 1 ≤ q ≤ NPROC → p_state (getp t q) ≠ UNUSED) → ∃ c, cpu_same (pcpu t) c ∧ for_proc body t = Ok None (set_pcpu c t).
Proof.
  intros Ht Hq. set (I := λ (i : Z) t', tok t' ∧ ∃ c, cpu_same (pcpu t) c ∧ t' = set_pcpu c t).
  assert (HF : returns (for_proc body) t (λ r t', r = None ∧ ∃ c, cpu_same (pcpu t) c ∧ t' = set_pcpu c t)).
  { unfold for_proc. apply (for_up_inv I).
    - split; [done|]. exists (pcpu t). split; [done|by destruct t].
    - intros i t' Hi (Ht' & c & Hc & ->). set (t' := set_pcpu c t) in *. assert (Hi' : 1 ≤ i ≤ NPROC) by (unfold NPROC in *; lia).
      assert (Hv : pvalid t' i) by (unfold pvalid; by rewrite (tok_len _ Ht')).
      unfold returns, body. rewrite (bind_ok _ _ _ _ _ (crit_acq me _ _ Ht' Hv)), bind_get, (crit_get me) by done.
      change (p_state (set_p_lock _ ?x)) with (p_state x). change (getp t' i) with (getp t i). rewrite decide_False by (by apply Hq).
      rewrite (bind_ok _ _ _ _ _ (crit_rel_id me _ _ Ht' Hv)). cbn. split; [by apply tok_unlocked|].
      exists (popped (pushed c)). split; [|done]. eapply cpu_same_trans; [exact Hc|]. apply popped_pushed. apply (tok_cpu _ Ht').
    - intros t' (_ & Hc). by split. }
  by apply returns_ok in HF as (r & t' & E & -> & c & Hc & ->); exists c.
Qed.
End table.

(** * The page table *)

Section memory.
  Context (me kend : Z) (Hend : 0 < kend).

(** The entries of a process without memory. *)
Definition proc_entry (trampoline tf w : Z) : Z :=
  if decide (w = TRAPFRAME / 4096) then mkpte tf RW else if decide (w = TRAMPOLINE / 4096) then mkpte trampoline RX else 0.

(** One page at the top of the address space. *)
Lemma map_top T l s v pa perm : vm_inv kend T l s → 2 < len l → 67108352 ≤ v < 67108864 → page_aligned pa → 0 ≤ pa < PHYSTOP → 0 ≤ perm < 1024 →
  has (entry (pmem s) T v) PTE_V = false →
  ∃ s' T' l', mappages me (pt_root T) (v * 4096) PGSIZE pa perm s = Ok 0 s' ∧ vm_inv kend T' l' s' ∧ pt_root T' = pt_root T ∧ len l ≤ len l' + 2 ∧
    tpages T' ++ l' ≡ₚ tpages T ++ l ∧ (∀ w, entry (pmem s') T' w = if decide (w = v) then mkpte pa perm else entry (pmem s) T w) ∧
    (∀ x, (∀ p, p ∈ tpages T ++ l → x < p ∨ p + 4096 ≤ x) → ldb (pmem s') x = ldb (pmem s) x).
Proof.
  intros Hv Hl Hr Hpa Hp Hperm He. unfold PHYSTOP, KERNBASE in Hp.
  destruct (mappages_ok me kend Hend T l s (v * 4096) 1 pa perm) as (r & s' & T' & l' & k & E & [M1 M2 M3 M4 M5] & [Hlen _] & Hres);
    rewrite ?Z.div_mul by lia; try done; [by apply Z.mod_mul|lia|change MAXVA with 274877906944; lia|lia|lia|intros w Hw; by assert (w = v) as -> by lia|].
  destruct Hres as [[-> ->]|(-> & _ & ->)]; [|cbn in Hlen; unfold len in *; cbn in *; lia].
  exists s', T', l'. split_and!; [done|done|done|lia|done| |done]. intros w. rewrite M4, Z.div_mul by lia.
  destruct (decide (w = v)) as [-> |]; [rewrite decide_True by lia; f_equal; lia|by rewrite decide_False by lia].
Qed.

(** Trampoline and trapframe. *)
Lemma proc_table_ok T0 l s trampoline tf : vm_inv kend T0 l s → 4 < len l → (∀ w, entry (pmem s) T0 w = 0) →
  page_aligned trampoline → 0 ≤ trampoline < PHYSTOP → page_aligned tf → 0 ≤ tf < PHYSTOP →
  ∃ s1 s' T l', mappages me (pt_root T0) TRAMPOLINE PGSIZE trampoline RX s = Ok 0 s1 ∧ mappages me (pt_root T0) TRAPFRAME PGSIZE tf RW s1 = Ok 0 s' ∧
    vm_inv kend T l' s' ∧ pt_root T = pt_root T0 ∧ tpages T ++ l' ≡ₚ tpages T0 ++ l ∧ (∀ w, entry (pmem s') T w = proc_entry trampoline tf w) ∧
    (∀ x, (∀ p, p ∈ tpages T0 ++ l → x < p ∨ p + 4096 ≤ x) → ldb (pmem s') x = ldb (pmem s) x).
Proof.
  intros Hv Hl He Ht1 Ht2 Hf1 Hf2.
  destruct (map_top T0 l s 67108863 trampoline RX) as (s1 & T1 & l1 & E1 & V1 & R1 & L1 & P1 & M1 & O1); [done|lia|lia|done|done|change RX with 10; lia|by rewrite He|].
  destruct (map_top T1 l1 s1 67108862 tf RW) as (s2 & T2 & l2 & E2 & V2 & R2 & L2 & P2 & M2 & O2); [done|lia|lia|done|done|change RW with 6; lia|by rewrite M1, decide_False, He by lia|].
  exists s1, s2, T2, l2. rewrite R1 in E2. split_and!; [exact E1|exact E2|done|congruence|by rewrite P2| |].
  - intros w. rewrite M2, M1, He. reflexivity.
  - intros x Hx. rewrite O2, O1; [done|done|]. intros p Hp. apply Hx. by rewrite <-P1.
Qed.
End memory.

(** * allocproc *)

Section alloc.
  Context {F H : Type} `{TX : Txn F H}.
  Context (me kend trampoline forkret : Z) (Hend : 0 < kend).

(** The state with another process table and other memory. *)
Definition with_tm (t : ptable) (m : kmem) (s : sys F) : sys F := upd kmL m (upd ptL t s).

Lemma with_tm_id s : with_tm (y_pt s) (view kmL s) s = s.
Proof. destruct s as [t [[io [sb lk ino [kk u]]] ft pp] tl ti]. reflexivity. Qed.

Lemma pt_tm {A} (c : M ptable A) t m s a t' : c t = Ok a t' → pt_ c (with_tm t m s) = Ok a (with_tm t' m s).
Proof. intros E. unfold pt_, zoom. change (view ptL (with_tm t m s)) with t. by rewrite E. Qed.

Lemma vm_tm {A} (c : M kmem A) t m s a m' : c m = Ok a m' → vm_ c (with_tm t m s) = Ok a (with_tm t m' s).
Proof. intros E. unfold vm_, zoom. change (view kmL (with_tm t m s)) with m. by rewrite E. Qed.

Lemma up_tm p f t m s : up p f (with_tm t m s) = Ok tt (with_tm (upd_p p f t) m s).
Proof. reflexivity. Qed.

(** The new process. *)
Definition born (tf pagetable pid : Z) (x : proc) : proc :=
  set_p_context (mkcontext forkret (p_kstack x + PGSIZE) (replicate 12 0))
    (set_p_pagetable pagetable (set_p_trapframe tf (set_p_state USED (set_p_pid pid x)))).

Lemma proc_pagetable_ok t m s p q l : kmem_inv kend (q :: l) m → 4 < len l → page_aligned trampoline → 0 ≤ trampoline < PHYSTOP →
  page_ok kend (p_trapframe (getp t p)) →
  ∃ m' T l', proc_pagetable me kend trampoline p (with_tm t m s) = Ok (pt_root T) (with_tm t m' s) ∧ pt_root T ≠ 0 ∧ vm_inv kend T l' m' ∧ tpages T ++ l' ≡ₚ q :: l ∧
    (∀ w, entry (pmem m') T w = proc_entry trampoline (p_trapframe (getp t p)) w) ∧ (∀ x, (∀ r, r ∈ q :: l → x < r ∨ r + 4096 ≤ x) → ldb (pmem m') x = ldb (pmem m) x).
Proof.
  intros Hk Hl Ht1 Ht2 [Hf1 Hf2]. destruct (empty_table me kend q l m Hend Hk) as (m0 & E0 & Hq & Hv & Hout).
  destruct (proc_table_ok me kend Hend (mkptree q ∅ ∅) l _ trampoline (p_trapframe (getp t p)) Hv Hl ltac:(done) Ht1 Ht2 Hf1 ltac:(lia))
    as (m1 & m2 & T & l' & E1 & E2 & V & R & Hp & He & Ho). cbn [pt_root] in *.
  exists m2, T, l'. rewrite R. split_and!; [|done|done|done|done|].
  - unfold proc_pagetable. rewrite (bind_ok _ _ _ q (with_tm t (set_pmem (memset (pmem m0) q 0 PGSIZE) m0) s)).
    2:{ apply vm_tm. unfold uvmcreate. rewrite (bind_ok _ _ _ _ _ E0). by rewrite (proj2 (Z.eqb_neq q 0) Hq). }
    rewrite (proj2 (Z.eqb_neq q 0) Hq). rewrite (bind_ok _ _ _ _ _ (vm_tm _ t _ s _ _ E1)). cbn [Z.ltb Z.compare]. rewrite bind_get.
    change (gp (with_tm t m1 s) p) with (getp t p). by rewrite (bind_ok _ _ _ _ _ (vm_tm _ t _ s _ _ E2)).
  - intros x Hx. rewrite Ho by exact Hx. apply Hout. unfold PGSIZE. apply Hx. by left.
Qed.

(** The process table with a new process [p], whose lock is held. *)
Record has_born (t : ptable) (p tf pagetable : Z) (t' : ptable) : Prop := {
  hb_len : len (procs t') = len (procs t);
  hb_new : getp t' p = set_p_lock (mkspinlock 1 (lk_name (p_lock (getp t p))) (Some me)) (born tf pagetable (nextpid t) (getp t p));
  hb_others : ∀ q, q ≠ p → getp t' q = getp t q;
  hb_pid : nextpid t' = s32 (nextpid t + 1);
  hb_cpu : noff (pcpu t') = noff (pcpu t) + 1 ∧ sie (pcpu t') = false ∧ cpu_same (pcpu t) (popped (pcpu t'));
  hb_locks : pid_lock t' = pid_lock t ∧ wait_lock t' = wait_lock t;
  hb_rest : initproc t' = initproc t ∧ cpu_proc t' = cpu_proc t;
}.

Lemma born_table t c p tf root (t1 := locked_by me (set_pcpu c t) p) (t2 := set_nextpid (s32 (nextpid t1 + 1)) (unlocked_by t1)) :
  pvalid t p → cpu_same (pcpu t) c → cpu_ok (pcpu t) →
  has_born t p tf root (upd_p p (λ x, set_p_context (mkcontext forkret (p_kstack x + PGSIZE) (replicate 12 0)) x)
    (upd_p p (set_p_pagetable root) (upd_p p (set_p_trapframe tf) (upd_p p (λ x, set_p_state USED (set_p_pid (nextpid t1) x)) t2)))).
Proof.
  intros Hp Hc Hok. destruct (cpu_ok_pushed _ (cpu_same_ok _ _ Hc Hok)) as (Hcp & Hc1 & Hc2). destruct (popped_pushed _ Hcp) as (N1 & N2 & N3).
  assert (Hl1 : len (procs t1) = len (procs t)) by (unfold t1, locked_by; by rewrite len_upd).
  assert (Hv : ∀ u, len (procs u) = len (procs t) → pvalid u p) by (intros u Hu; unfold pvalid; by rewrite Hu).
  assert (Hg : ∀ f u q, len (procs u) = len (procs t) → getp (upd_p p f u) q = if decide (p = q) then f (getp u p) else getp u q) by (intros; by apply getp_upd, Hv).
  constructor; try done.
  - rewrite !len_upd. exact Hl1.
  - rewrite !Hg by (rewrite ?len_upd; exact Hl1). rewrite !decide_True by done. change (getp t2 p) with (getp t1 p). unfold t1. by rewrite crit_get.
  - intros q Hq. rewrite !Hg by (rewrite ?len_upd; exact Hl1). rewrite !decide_False by done. change (getp t2 q) with (getp t1 q). unfold t1, locked_by.
    rewrite getp_upd by done. by rewrite decide_False by done.
  - set (d := popped (pushed (pushed c))) in *. change (noff d = noff (pcpu t) + 1 ∧ sie d = false ∧ cpu_same (pcpu t) (popped d)).
    split_and!; [rewrite N1; cbn; by destruct Hc as (-> & _)|exact N2|].
    eapply cpu_same_trans; [exact Hc|]. eapply cpu_same_trans; [apply popped_pushed; by eapply cpu_same_ok; [|exact Hok]|].
    unfold cpu_same, popped. cbn [noff sie intena]. rewrite N1, N3 by done. done.
Qed.

(** The table after the search and [allocpid], and at the end. *)
Definition found (t : ptable) (c : cpu) (p : Z) : ptable :=
  let t1 := locked_by me (set_pcpu c t) p in set_nextpid (s32 (nextpid t1 + 1)) (unlocked_by t1).
Definition with_frame (t : ptable) (c : cpu) (p tf : Z) : ptable :=
  upd_p p (set_p_trapframe tf) (upd_p p (λ x, set_p_state USED (set_p_pid (nextpid (locked_by me (set_pcpu c t) p)) x)) (found t c p)).

Lemma allocproc_run s t m c p tf m1 m2 root :
  for_proc (λ p, acq me (plockL p) ;; t <- get ;; if decide (p_state (getp t p) = UNUSED) then ret (Stop p) else rel me (plockL p) ;; ret Next) t =
    Ok (Some p) (locked_by me (set_pcpu c t) p) →
  allocpid me (locked_by me (set_pcpu c t) p) = Ok (nextpid (locked_by me (set_pcpu c t) p)) (found t c p) →
  kalloc me m = Ok tf m1 → tf ≠ 0 → proc_pagetable me kend trampoline p (with_tm (with_frame t c p tf) m1 s) = Ok root (with_tm (with_frame t c p tf) m2 s) → root ≠ 0 →
  allocproc me kend trampoline forkret (with_tm t m s) = Ok p (with_tm (upd_p p (λ x, set_p_context (mkcontext forkret (p_kstack x + PGSIZE) (replicate 12 0)) x)
    (upd_p p (set_p_pagetable root) (with_frame t c p tf))) m2 s).
Proof.
  intros E1 E2 E3 Htf E4 Hr. unfold allocproc. rewrite (bind_ok _ _ _ _ _ (pt_tm _ t m s _ _ E1)). rewrite (bind_ok _ _ _ _ _ (pt_tm _ _ m s _ _ E2)).
  rewrite (bind_ok _ _ _ _ _ (up_tm p _ _ _ s)). rewrite (bind_ok _ _ _ _ _ (vm_tm _ _ _ s _ _ E3)). rewrite (bind_ok _ _ _ _ _ (up_tm p _ _ _ s)), (proj2 (Z.eqb_neq tf 0) Htf).
  rewrite (bind_ok _ _ _ _ _ E4), (bind_ok _ _ _ _ _ (up_tm p _ _ _ s)), (proj2 (Z.eqb_neq root 0) Hr), (bind_ok _ _ _ _ _ (up_tm p _ _ _ s)). reflexivity.
Qed.

Lemma allocproc_ok s p tf q l (t := y_pt s) : tok t → unlocked (pid_lock t) → 1 ≤ p ≤ NPROC → p_state (getp t p) = UNUSED →
  (∀ r, 1 ≤ r < p → p_state (getp t r) ≠ UNUSED) → kmem_inv kend (tf :: q :: l) (view kmL s) → 4 < len l → page_aligned trampoline → 0 ≤ trampoline < PHYSTOP →
  ∃ t' m' T l', allocproc me kend trampoline forkret s = Ok p (with_tm t' m' s) ∧ has_born t p tf (pt_root T) t' ∧ vm_inv kend T l' m' ∧
    tpages T ++ l' ≡ₚ q :: l ∧ (∀ w, entry (pmem m') T w = proc_entry trampoline tf w) ∧
    (∀ x, (∀ r, r ∈ tf :: q :: l → x < r ∨ r + 4096 ≤ x) → ldb (pmem m') x = ldb (pmem (view kmL s)) x).
Proof.
  intros Ht Hpl Hp Hu Hq Hk Hl Ht1 Ht2. destruct (find_unused me t p Ht Hp Hu Hq) as (c & Hc & E1).
  assert (Hpv : pvalid t p) by (unfold pvalid; rewrite (tok_len _ Ht); unfold NPROC in *; lia).
  destruct (cpu_ok_pushed _ (cpu_same_ok _ _ Hc (tok_cpu _ Ht))) as (Hcp & _).
  pose proof (allocpid_ok me (locked_by me (set_pcpu c t) p) Hpl Hcp) as E2.
  destruct (kalloc_cons me kend Hend tf (q :: l) _ Hk) as (m1 & E3 & Hk1 & Hout & _).
  assert (Htf : page_ok kend tf) by (destruct Hk as [_ _ _ Hpg]; by apply Forall_inv in Hpg). assert (Htf0 : tf ≠ 0) by (destruct Htf; lia).
  assert (Hg3 : p_trapframe (getp (with_frame t c p tf) p) = tf).
  { unfold with_frame. rewrite getp_upd, decide_True; [done|done|]. unfold pvalid. rewrite len_upd. unfold found, locked_by. cbn [procs set_nextpid unlocked_by set_pcpu].
    by rewrite len_upd. }
  destruct (proc_pagetable_ok (with_frame t c p tf) m1 s p q l Hk1 Hl Ht1 Ht2 ltac:(by rewrite Hg3)) as (m2 & T & l' & E4 & HT & HV & HP & He & Ho).
  rewrite Hg3 in He. pose proof (allocproc_run s t _ c p tf m1 m2 _ E1 E2 E3 Htf0 E4 HT) as E. unfold t in E. rewrite (with_tm_id s) in E. fold t in E.
  eexists _, m2, T, l'. split_and!; [exact E|exact (born_table t c p tf (pt_root T) Hpv Hc (tok_cpu _ Ht))|done|done|done|].
  intros x Hx. rewrite Ho; [apply Hout; unfold PGSIZE; apply Hx; by left|]. intros r Hr. apply Hx. by right.
Qed.
End alloc.

(** * The first process *)

Section first.
  Context {F H : Type} `{TX : Txn F H}.
  Context (me kend trampoline forkret de namebuf rootpath : Z) (Hend : 0 < kend).

(** The path "/" names the root inode; the table has an entry for it. *)
Lemma namei_root {U} `{UM : UserMem U} pid (s : fstate F U) (r := fs_rest s) : it_ok r → (∀ ip, iptr ip → i_ref (r_geti r ip) = 0) →
  ldb (ku_kmem (fr_ku r)) rootpath = SLASH → ldb (ku_kmem (fr_ku r)) (rootpath + 1) = 0 →
  ∃ ip, iptr ip ∧ it_ok (r_seti ip (set_i_id ROOTDEV ROOTINO (r_geti r ip)) r) ∧
    namei me pid de 0 rootpath namebuf s = Ok ip (mkfstate (fs_io s) (r_seti ip (set_i_id ROOTDEV ROOTINO (r_geti r ip)) r)).
Proof.
  intros Hit Hz H0 H1. destruct s as [io r']. cbn [fs_rest fs_io] in r |- *. change r' with r. clearbody r. clear r'.
  assert (Hno : ∀ ip, iptr ip → imatch ROOTDEV ROOTINO (r_geti r ip) = false) by (intros ip Hip; unfold imatch; by rewrite Hz).
  destruct (iget_run ROOTDEV me io r ROOTINO Hit) as [(ip & Hip & Hm & _)|[(ip & Hip & _ & _ & E)|[_ Hn]]].
  { by rewrite Hno in Hm. }
  2:{ destruct (Hn 1) as [Hr _]; [unfold iptr, NINODE; lia|]. by rewrite Hz in Hr by (unfold iptr, NINODE; lia). }
  exists ip. split_and!; [done|by apply it_ok_miss|]. unfold namei, namex. rewrite bind_get. unfold Fs.kmem. cbn [fs_rest].
  rewrite H0. cbn [Z.eqb Pos.eqb]. rewrite (bind_ok _ _ _ _ _ E). set (r1 := r_seti _ _ r).
  assert (Hs : skipelem (ku_kmem (fr_ku r1)) rootpath namebuf = Some (0, ku_kmem (fr_ku r1))).
  { unfold skipelem, path_fuel. change (Z.to_nat (MAXPATH + 1)) with (S (S 127)). generalize 127%nat. intros n.
    cbn [skip_slashes]. change (fr_ku r1) with (fr_ku r). rewrite H0. cbn [Z.eqb SLASH Pos.eqb]. rewrite H1. cbn [Z.eqb SLASH]. by rewrite H1. }
  unfold path_fuel. change (Z.to_nat (MAXPATH + 1)) with (S 128). cbn [namex_loop]. rewrite bind_get. unfold Fs.kmem. cbn [fs_rest]. rewrite Hs.
  unfold set_kmem, zoom, bind, modify. cbn. by destruct r as [? ? ? []].
Qed.

(** The process table with the first process ready to run in directory [ip]. *)
Record first_proc (t : ptable) (tf pagetable ip : Z) (t' : ptable) : Prop := {
  fp_tok : tok t';
  fp_new : getp t' 1 = set_p_state RUNNABLE (set_p_cwd ip (born forkret tf pagetable (nextpid t) (getp t 1)));
  fp_others : ∀ q, q ≠ 1 → getp t' q = getp t q;
  fp_pid : nextpid t' = s32 (nextpid t + 1);
  fp_cpu : cpu_same (pcpu t) (pcpu t');
  fp_locks : pid_lock t' = pid_lock t ∧ wait_lock t' = wait_lock t;
  fp_rest : initproc t' = 1 ∧ cpu_proc t' = cpu_proc t;
}.

Lemma first_ready t tf root ip t1 : tok t → has_born me forkret t 1 tf root t1 →
  ∃ t', rel me (plockL 1) (upd_p 1 (set_p_state RUNNABLE) (upd_p 1 (set_p_cwd ip) (set_initproc 1 t1))) = Ok tt t' ∧ first_proc t tf root ip t'.
Proof.
  intros Ht [B1 B2 B3 B4 (B5 & B6 & B7) B8 B9]. set (t2 := upd_p 1 _ (upd_p 1 _ _)).
  assert (Hl : len (procs t1) = NPROC) by (rewrite B1; apply (tok_len _ Ht)).
  assert (Hv : ∀ u, len (procs u) = len (procs t1) → pvalid u 1) by (intros u Hu; unfold pvalid; rewrite Hu, Hl; unfold NPROC; lia).
  assert (Hg : ∀ f u q, len (procs u) = len (procs t1) → getp (upd_p 1 f u) q = if decide (1 = q) then f (getp u 1) else getp u q) by (intros; by apply getp_upd, Hv).
  assert (Hl2 : len (procs t2) = len (procs t1)) by (unfold t2; by rewrite !len_upd).
  assert (G1 : getp t2 1 = set_p_state RUNNABLE (set_p_cwd ip (getp t1 1))) by (unfold t2; rewrite !Hg, !decide_True by (rewrite ?len_upd; done); done).
  assert (Hu : unlocked (p_lock (getp t 1))) by (apply (tok_locks _ Ht), Hv; by rewrite B1).
  rewrite (rel_p me t2 1 (Hv _ Hl2)); [|rewrite G1, B2; unfold holding; cbn; by rewrite bool_decide_true|exact B6|change (pcpu t2) with (pcpu t1); rewrite B5; destruct (tok_cpu _ Ht); lia].
  eexists. split; [reflexivity|]. set (t' := upd_p 1 _ _).
  assert (G1' : getp t' 1 = set_p_state RUNNABLE (set_p_cwd ip (born forkret tf root (nextpid t) (getp t 1)))).
  { unfold t'. rewrite Hg, decide_True by done. change (getp (set_pcpu _ t2) 1) with (getp t2 1). rewrite G1, B2. cbn. rewrite <-(unlocked_eq _ Hu). by destruct (getp t 1). }
  assert (Go : ∀ q, q ≠ 1 → getp t' q = getp t q).
  { intros q Hq. unfold t'. rewrite Hg, decide_False by done. change (getp (set_pcpu _ t2) q) with (getp t2 q). unfold t2. rewrite !Hg, !decide_False by (rewrite ?len_upd; done).
    by apply B3. }
  assert (Hl' : len (procs t') = NPROC) by (unfold t'; rewrite len_upd; change (len (procs t2) = NPROC); by rewrite Hl2).
  constructor; try done; [|by destruct B9]. constructor; [exact Hl'|exact (cpu_same_ok _ _ B7 (tok_cpu _ Ht))|].
  intros q Hq. destruct (decide (q = 1)) as [-> |]; [by rewrite G1'|]. rewrite Go by done. apply (tok_locks _ Ht). unfold pvalid in *. rewrite Hl' in Hq. by rewrite (tok_len _ Ht).
Qed.

(** The state with other file-system data. *)
Definition with_fs (r : frest kmem) (s : sys F) : sys F := upd kL (upd fsL (mkfstate (fs_io (k_fs (y_k s))) r) (y_k s)) s.

Lemma userinit_ok s l (t := y_pt s) (r := fs_rest (k_fs (y_k s))) : tok t → unlocked (pid_lock t) → p_state (getp t 1) = UNUSED →
  kmem_inv kend l (view kmL s) → 6 < len l → page_aligned trampoline → 0 ≤ trampoline < PHYSTOP →
  it_ok r → (∀ ip, iptr ip → i_ref (r_geti r ip) = 0) → ldb (ku_kmem (fr_ku r)) rootpath = SLASH → ldb (ku_kmem (fr_ku r)) (rootpath + 1) = 0 →
  ∃ t' m' tf T l' ip, userinit me kend trampoline forkret de namebuf rootpath s =
      Ok tt (with_tm t' m' (with_fs (r_seti ip (set_i_id ROOTDEV ROOTINO (r_geti r ip)) r) s)) ∧
    iptr ip ∧ it_ok (r_seti ip (set_i_id ROOTDEV ROOTINO (r_geti r ip)) r) ∧ first_proc t tf (pt_root T) ip t' ∧
    vm_inv kend T l' m' ∧ tf :: tpages T ++ l' ≡ₚ l ∧ (∀ w, entry (pmem m') T w = proc_entry trampoline tf w) ∧
    (∀ x, (∀ q, q ∈ l → x < q ∨ q + 4096 ≤ x) → ldb (pmem m') x = ldb (pmem (view kmL s)) x).
Proof.
  intros Ht Hpl Hu Hk Hl Ht1 Ht2 Hit Hz H0 H1. destruct l as [|tf [|q l]]; [unfold len in Hl; cbn in Hl; lia..|].
  destruct (allocproc_ok me kend trampoline forkret Hend s 1 tf q l Ht Hpl ltac:(unfold NPROC; lia) Hu ltac:(intros; lia) Hk) as (t1 & m' & T & l' & E & Hb & HV & HP & He & Ho);
    [unfold len in *; cbn [length] in Hl; lia|done|done|].
  set (r1 := mkfrest (fr_sb r) (fr_itlock r) (fr_inode r) (mkku (ku_kmem (fr_ku r)) m')). set (s1 := with_tm (set_initproc 1 t1) m' s).
  destruct (namei_root (UM := um me kend s1) (p_pid (cur s1)) (mkfstate (fs_io (k_fs (y_k s))) r1)) as (ip & Hip & Hit' & En);
    [by destruct Hit; constructor|exact Hz|exact H0|exact H1|].
  destruct (first_ready t tf (pt_root T) ip t1 Ht Hb) as (t' & Er & Hf). exists t', m', tf, T, l', ip.
  split_and!; [|done|by destruct Hit'; constructor|done|done|by rewrite <-HP|done|done].
  unfold userinit. rewrite (bind_ok _ _ _ _ _ E). rewrite (bind_ok _ _ _ tt s1) by reflexivity. rewrite bind_get.
  set (s2 := with_fs (r_seti ip (set_i_id ROOTDEV ROOTINO (r_geti r ip)) r) s).
  rewrite (bind_ok _ _ _ ip (with_tm (set_initproc 1 t1) m' s2)).
  2:{ unfold Syscall.fs_, u_. rewrite bind_get. exact (zoom_ok kL _ s1 _ _ (zoom_ok fsL _ (y_k s1) _ _ En)). }
  rewrite (bind_ok _ _ _ _ _ (up_tm 1 _ _ _ s2)), (bind_ok _ _ _ _ _ (up_tm 1 _ _ _ s2)). exact (pt_tm _ _ _ s2 _ _ Er).
Qed.
End first.

(** C17: [allocproc], with seven free pages.  It takes the first unused entry of
    the table and returns it with its lock held: in state USED, with the next
    process number, a trapframe page of its own, a page table that maps the
    trampoline (readable, executable, not for the user) and the trapframe
    (writable, not for the user) and nothing else, and a context that starts
    at [forkret] on top of the kernel stack; other entries keep their
    contents, and memory outside of the pages taken from the free list too.
    When every entry is in use it returns 0 and changes nothing. *)
Theorem allocproc_spec {F : Type} me kend trampoline forkret (s : sys F) l : 0 < kend → tok (y_pt s) → unlocked (pid_lock (y_pt s)) →
  kmem_inv kend l (view kmL s) → 6 < len l → page_aligned trampoline → 0 ≤ trampoline < PHYSTOP →
  (∀ p, 1 ≤ p ≤ NPROC → p_state (getp (y_pt s) p) = UNUSED → (∀ r, 1 ≤ r < p → p_state (getp (y_pt s) r) ≠ UNUSED) →
    ∃ t' m' tf T l', allocproc me kend trampoline forkret s = Ok p (with_tm t' m' s) ∧ has_born me forkret (y_pt s) p tf (pt_root T) t' ∧
      vm_inv kend T l' m' ∧ tf :: tpages T ++ l' ≡ₚ l ∧ (∀ w, entry (pmem m') T w = proc_entry trampoline tf w) ∧
      (∀ x, (∀ r, r ∈ l → x < r ∨ r + 4096 ≤ x) → ldb (pmem m') x = ldb (pmem (view kmL s)) x)) ∧
  ((∀ r, 1 ≤ r ≤ NPROC → p_state (getp (y_pt s) r) ≠ UNUSED) →
    ∃ c, cpu_same (pcpu (y_pt s)) c ∧ allocproc me kend trampoline forkret s = Ok 0 (with_tm (set_pcpu c (y_pt s)) (view kmL s) s)).
Proof.
  intros Hend Ht Hpl Hk Hl Ht1 Ht2. destruct l as [|tf [|q l]]; [unfold len in Hl; cbn in Hl; lia..|]. split.
  - intros p Hp Hu Hq. destruct (allocproc_ok me kend trampoline forkret Hend s p tf q l Ht Hpl Hp Hu Hq Hk) as (t' & m' & T & l' & E & Hb & HV & HP & He & Ho);
      [unfold len in *; cbn [length] in Hl; lia|done|done|]. exists t', m', tf, T, l'. split_and!; [done|done|done|by rewrite HP|done|done].
  - intros Hn. destruct (none_unused me (y_pt s) Ht Hn) as (c & Hc & E). exists c. split; [done|]. unfold allocproc. rewrite <-(with_tm_id s) at 1.
    by rewrite (bind_ok _ _ _ _ _ (pt_tm _ _ _ s _ _ E)).
Qed.

(** ** An instance: an empty table *)

Definition first_sys (m : kmem) : sys unit :=
  mksys (mkptable (replicate 64 proc0) 1 (initlock "nextpid") (initlock "wait_lock") 0 (mkcpu 0 0 false) 0)
    (mkkst (mkfstate tt (mkfrest (mksb 0 0 0 0 0 0 0 0) (initlock "itable") [] (mkku (λ _, 0) m))) (mkftable (initlock "ftable") []) ∅) (initlock "time") 0.

Lemma first_tok m : tok (y_pt (first_sys m)).
Proof.
  constructor; [done|split; cbn; lia|]. intros p Hp. unfold pvalid in Hp. cbn [y_pt first_sys procs] in *. unfold getp. cbn [procs].
  change (len _) with 64 in Hp. by rewrite (znth_replicate proc0 proc0 64) by lia.
Qed.

Lemma allocproc_spec_witness : ∃ m t' m' T, kinit 0 (PHYSTOP - 40960) demo_mem = Ok tt m ∧
  allocproc 0 (PHYSTOP - 40960) 2147512320 2147483648 (first_sys m) = Ok 1 (with_tm t' m' (first_sys m)) ∧ p_pid (getp t' 1) = 1 ∧
  entry (pmem m') T (TRAMPOLINE / 4096) = mkpte 2147512320 RX.
Proof.
  destruct (kinit_ok 0 (PHYSTOP - 40960) ltac:(reflexivity) ltac:(unfold PHYSTOP, KERNBASE; lia) demo_mem eq_refl) as (m & E & Hk).
  destruct (allocproc_spec 0 (PHYSTOP - 40960) 2147512320 2147483648 (first_sys m) (managed (PHYSTOP - 40960)) ltac:(reflexivity) (first_tok m)
    ltac:(split; reflexivity) Hk ltac:(apply Z.ltb_lt; vm_compute; reflexivity) eq_refl ltac:(unfold PHYSTOP, KERNBASE; lia)) as [HS _].
  destruct (HS 1 ltac:(unfold NPROC; lia) eq_refl ltac:(intros r Hr; lia)) as (t' & m' & tf & T & l' & E' & Hb & _ & _ & He & _).
  exists m, t', m', T. split_and!; [exact E|exact E'| |].
  - rewrite (hb_new _ _ _ _ _ _ _ Hb). reflexivity.
  - rewrite He. vm_compute. reflexivity.
Defined.
