(* ===== verification/Exec.v ===== *)
(** kernel/exec.c, kernel/elf.h: loading a program.

    [elf], [ph] and [ustack] are the kernel addresses of the local variables of
    [kexec]; [path] and the strings of [argv] are kernel addresses too. *)

From stdpp Require Import base tactics list numbers strings gmap.
From S2P Require Import Prelude Param Bytes CString Spinlock Sleeplock TxSpec UserSpec Vm VmTree VmMap VmUser Fs Pipe File Kalloc Proc Syscall ProcMem.
From Stdlib Require Import ZArith Lia.

Open Scope kernel_scope.

(** * elf.h *)

Definition ELF_MAGIC : Z := 1179403647.
Definition ELF_PROG_LOAD : Z := 1.

(** [struct elfhdr] and [struct proghdr] in memory. *)
Definition SIZEOF_ELFHDR : Z := 64.
Definition SIZEOF_PROGHDR : Z := 56.
Record elfhdr := mkelfhdr { e_magic : Z; e_entry : Z; e_phoff : Z; e_phnum : Z }.
Definition get_elfhdr (m : mem) (a : Z) : elfhdr :=
  mkelfhdr (load 4 m a) (load64 m (a + 24)) (load64 m (a + 32)) (load 2 m (a + 56)).
Record proghdr := mkproghdr { ph_type : Z; ph_flags : Z; ph_off : Z; ph_vaddr : Z; ph_filesz : Z; ph_memsz : Z }.
Definition get_proghdr (m : mem) (a : Z) : proghdr :=
  mkproghdr (load 4 m a) (load 4 m (a + 4)) (load64 m (a + 8)) (load64 m (a + 16)) (load64 m (a + 32)) (load64 m (a + 40)).

Definition flags2perm (flags : Z) : Z :=
  let perm := 0 in
  let perm := if has flags 1 then PTE_X else perm in
  if has flags 2 then Z.lor perm PTE_W else perm.

(** The part of a path after its last slash. *)
Fixpoint last_elem (fuel : nat) (m : mem) (s last : Z) : option Z :=
  match fuel with
  | O => None
  | S fuel' =>
      if ldb m s =? 0 then Some last
      else last_elem fuel' m (s + 1) (if ldb m s =? 47 then s + 1 else last)
  end.

Section exec.
  Context {F H : Type} `{TX : Txn F H}.
  Context (me kend : Z) (trampoline de namebuf elf ph : Z).

Abbreviation YM := (M (sys F)).
Abbreviation vm_ := (vm_ (F := F)).

(** [va + i]: 64 bits; [i], [offset] and [sz] are [uint]s. *)
Fixpoint loadseg_loop (fuel : nat) (pagetable va ip offset sz i : Z) : YM Z :=
  match fuel with
  | O => λ _, OutOfFuel
  | S fuel' =>
      if negb (i <? sz) then ret 0
      else
        pa <- vm_ (walkaddr me pagetable (u64 (va + i))) ;;
        if pa =? 0 then panic "loadseg: address should exist"
        else
          let n := if u32 (sz - i) <? PGSIZE then u32 (sz - i) else PGSIZE in
          r <- readi_kernel me kend ip pa (u32 (offset + i)) n ;;
          if negb (u32 r =? n) then ret (-1)
          else loadseg_loop fuel' pagetable va ip offset sz (u32 (i + PGSIZE))
  end.

Definition loadseg (pagetable va ip offset sz : Z) : YM Z :=
  loadseg_loop (Z.to_nat (sz / PGSIZE + 2)) pagetable va ip offset sz 0.

(** The program headers from [i] on: the new size, or [None] for [goto bad]
    with the size reached. *)
Fixpoint load_segments (n : nat) (pagetable ip off sz : Z) : YM (Z * bool) :=
  match n with
  | O => ret (sz, true)
  | S n' =>
      r <- readi_kernel me kend ip ph (u32 off) SIZEOF_PROGHDR ;;
      if negb (r =? SIZEOF_PROGHDR) then ret (sz, false)
      else
        s <- get ;;
        let h := get_proghdr (kmemory kend s) ph in
        if negb (ph_type h =? ELF_PROG_LOAD) then load_segments n' pagetable ip (s32 (off + SIZEOF_PROGHDR)) sz
        else if ph_memsz h <? ph_filesz h then ret (sz, false)
        else if u64 (ph_vaddr h + ph_memsz h) <? ph_vaddr h then ret (sz, false)
        else if negb (ph_vaddr h mod PGSIZE =? 0) then ret (sz, false)
        else
          sz1 <- vm_ (uvmalloc me kend pagetable sz (u64 (ph_vaddr h + ph_memsz h)) (flags2perm (ph_flags h))) ;;
          if sz1 =? 0 then ret (sz, false)
          else
            r <- loadseg pagetable (ph_vaddr h) ip (u32 (ph_off h)) (u32 (ph_filesz h)) ;;
            if r <? 0 then ret (sz1, false)
            else load_segments n' pagetable ip (s32 (off + SIZEOF_PROGHDR)) sz1
  end.

(** [copyout] to the page table under construction; a fault would be resolved
    in that of the calling process. *)
Definition copyout_new (pagetable dstva : Z) (src : list Z) : YM Z :=
  s <- get ;;
  vm_ (copyout me kend (p_sz (cur s)) (p_pagetable (cur s)) pagetable dstva src).

(** The argument strings: the stack pointer and the addresses, or [None]. *)
Fixpoint push_args (n : nat) (pagetable stackbase sp : Z) (argv : list Z) (ustack : list Z) : YM (option (Z * list Z)) :=
  match argv with
  | [] => ret (Some (sp, ustack))
  | a :: argv' =>
      match n with
      | O => ret None
      | S n' =>
          s <- get ;;
          match strlen (Z.to_nat PGSIZE) (kmemory kend s) a with
          | None => λ _, OutOfFuel
          | Some l =>
              let sp := u64 (sp - (l + 1)) in
              let sp := sp - sp mod 16 in
              if sp <? stackbase then ret None
              else
                r <- copyout_new pagetable sp (mem_read (kmemory kend s) a (Z.to_nat (l + 1))) ;;
                if r <? 0 then ret None
                else push_args n' pagetable stackbase sp argv' (ustack ++ [sp])
          end
      end
  end.

(** [ustack] as bytes, with the null pointer that ends it. *)
Definition ustack_bytes (l : list Z) : list Z := concat ((λ a, le_enc 8 a) <$> (l ++ [0])).

(** [bad:] with the inode still locked, and without. *)
Definition exec_bad (pid ip pagetable sz : Z) : YM Z :=
  (if negb (pagetable =? 0) then proc_freepagetable me kend pagetable sz else ret tt) ;;
  (if negb (ip =? 0) then fs_ me kend (λ _, iunlockput me pid ip) ;; k_ end_op_ else ret tt) ;;
  ret (-1).

(** The new image is ready: the stack, and the switch to it. *)
Definition exec_commit (p pagetable sz entry path : Z) (argv : list Z) : YM Z :=
  s <- get ;;
  let pid := p_pid (gp s p) in
  let oldsz := p_sz (gp s p) in
  let sz := PGROUNDUP sz in
  sz1 <- vm_ (uvmalloc me kend pagetable sz (u64 (sz + (USERSTACK + 1) * PGSIZE)) PTE_W) ;;
  if sz1 =? 0 then exec_bad pid 0 pagetable sz
  else
    let sz := sz1 in
    vm_ (uvmclear me pagetable (u64 (sz - (USERSTACK + 1) * PGSIZE))) ;;
    let stackbase := u64 (sz - USERSTACK * PGSIZE) in
    r <- push_args (Z.to_nat MAXARG) pagetable stackbase sz argv [] ;;
    match r with
    | None => exec_bad pid 0 pagetable sz
    | Some (sp, ustack) =>
        let argc := len ustack in
        let sp := u64 (sp - (argc + 1) * 8) in
        let sp := sp - sp mod 16 in
        if sp <? stackbase then exec_bad pid 0 pagetable sz
        else
          r <- copyout_new pagetable sp (ustack_bytes ustack) ;;
          if r <? 0 then exec_bad pid 0 pagetable sz
          else
            tf_set TF_a1 sp ;;
            s <- get ;;
            match last_elem (Z.to_nat MAXPATH) (kmemory kend s) path path with
            | None => λ _, OutOfFuel
            | Some last =>
                up p (λ x, set_p_name (copy_name (p_name x) (mem_read (kmemory kend s) last 16)) x) ;;
                let oldpagetable := p_pagetable (gp s p) in
                up p (λ x, set_p_sz sz (set_p_pagetable pagetable x)) ;;
                tf_set TF_epc entry ;;
                tf_set TF_sp sp ;;
                proc_freepagetable me kend oldpagetable oldsz ;;
                ret argc
            end
    end.

(** [argv] lists the argument strings, up to its null pointer. *)
Definition kexec (path : Z) (argv : list Z) : YM Z :=
  p <- pt_ myproc ;;
  k_ begin_op_ ;;
  s <- get ;;
  let pid := p_pid (gp s p) in
  ip <- fs_ me kend (λ UM, namei (UM := UM) me pid de (p_cwd (gp s p)) path namebuf) ;;
  if ip =? 0 then k_ end_op_ ;; ret (-1)
  else
    fs_ me kend (λ _, ilock me pid ip) ;;
    r <- readi_kernel me kend ip elf 0 SIZEOF_ELFHDR ;;
    if negb (r =? SIZEOF_ELFHDR) then exec_bad pid ip 0 0
    else
      s <- get ;;
      let h := get_elfhdr (kmemory kend s) elf in
      if negb (e_magic h =? ELF_MAGIC) then exec_bad pid ip 0 0
      else
        pagetable <- proc_pagetable me kend trampoline p ;;
        if pagetable =? 0 then exec_bad pid ip 0 0
        else
          ' (sz, ok) <- load_segments (Z.to_nat (e_phnum h)) pagetable ip (s32 (e_phoff h)) 0 ;;
          if negb (ok : bool) then exec_bad pid ip pagetable sz
          else
            fs_ me kend (λ _, iunlockput me pid ip) ;;
            k_ end_op_ ;;
            exec_commit p pagetable sz (e_entry h) path argv.
End exec.
