(* ===== verification/Sysfile.v ===== *)
(** kernel/sysfile.c: the file system calls.

    Each handler is run by the current process and returns what the call
    returns.  The buffers the handlers keep on the kernel stack are addresses:
    [path], [new] and [name] for strings, [de] and [de2] for directory entries;
    [dot] and [dotdot] are the string constants.  [devsw] is the device table,
    [pad] the stack contents that [filestat] copies out in the padding of its
    structure. *)

From stdpp Require Import base tactics list numbers strings gmap.
From S2P Require Import Prelude Param Bytes CString Spinlock Sleeplock TxSpec UserSpec Vm VmTree VmMap VmUser Fs Pipe File Kalloc Proc Syscall ProcMem Exec.
From Stdlib Require Import ZArith Lia.

Open Scope kernel_scope.

Section sysfile.
  Context {F H : Type} `{TX : Txn F H}.
  Context (me kend : Z) (trampoline de namebuf elf ph : Z).
  Context (path new name de2 dot dotdot pad : Z).
  Context (devsw : UserMem kmem → Z → devops (F := F) (U := kmem)).

Abbreviation YM := (M (sys F)).

(** Operations on inodes by the current process. *)
Definition pid_ (s : sys F) : Z := p_pid (cur s).
Definition ilock_ (ip : Z) : YM unit := s <- get ;; fs_ me kend (λ _, ilock me (pid_ s) ip).
Definition iunlock_ (ip : Z) : YM unit := s <- get ;; fs_ me kend (λ _, iunlock me (pid_ s) ip).
Definition iput_ (ip : Z) : YM unit := s <- get ;; fs_ me kend (λ _, iput me (pid_ s) ip).
Definition iunlockput_ (ip : Z) : YM unit := s <- get ;; fs_ me kend (λ _, iunlockput me (pid_ s) ip).
Definition iupdate_ (ip : Z) : YM unit := fs_ me kend (λ _, iupdate ip).
Definition namei_ (p : Z) : YM Z := s <- get ;; fs_ me kend (λ UM, namei (UM := UM) me (pid_ s) de (p_cwd (cur s)) p namebuf).
Definition nameiparent_ (p nm : Z) : YM Z :=
  s <- get ;; fs_ me kend (λ UM, nameiparent (UM := UM) me (pid_ s) de (p_cwd (cur s)) p nm).
Definition dirlookup_ (dp nm : Z) : YM (Z * Z) := fs_ me kend (λ UM, dirlookup (UM := UM) me de dp nm).
Definition dirlink_ (dp nm inum : Z) : YM Z := s <- get ;; fs_ me kend (λ UM, dirlink (UM := UM) me (pid_ s) de dp nm inum).
Definition ino (s : sys F) (ip : Z) : inode := inode_of (y_k s) ip.
Definition upd_ino (ip : Z) (g : inode → inode) : YM unit := k_ (upd_inode ip g).
Definition fileclose_ (f : Z) : YM unit := s <- get ;; k_ (fileclose (PA := pa me kend) me (pid_ s) f).
Definition begin_ : YM unit := k_ begin_op_.
Definition end_ : YM unit := k_ end_op_.

(** * Descriptors *)

(** The descriptor and the file, or -1. *)
Definition argfd (n : Z) : YM (Z * Z * Z) :=
  fd <- argint n ;;
  s <- get ;;
  if (fd <? 0) || (NOFILE <=? fd) then ret (-1, 0, 0)
  else
    let f := znth 0 (p_ofile (cur s)) fd in
    if f =? 0 then ret (-1, 0, 0) else ret (0, fd, f).

Definition fdalloc (f : Z) : YM Z :=
  r <- for_up (Z.to_nat NOFILE) 0 (λ fd,
    s <- get ;;
    if znth 0 (p_ofile (cur s)) fd =? 0
    then upd_cur (λ x, set_p_ofile (zset (p_ofile x) fd f) x) ;; ret (Stop fd)
    else ret Next) ;;
  ret (match r with Some fd => fd | None => -1 end).

Definition sys_dup : YM Z :=
  ' (r, _, f) <- argfd 0 ;;
  if r <? 0 then ret (-1)
  else
    fd <- fdalloc f ;;
    if fd <? 0 then ret (-1)
    else k_ (filedup me f) ;; ret fd.

Definition sys_read : YM Z :=
  p <- argaddr 1 ;;
  n <- argint 2 ;;
  ' (r, _, f) <- argfd 0 ;;
  if r <? 0 then ret (-1)
  else
    s <- get ;;
    u_ me kend (λ UM, fileread (UM := UM) me (pid_ s) (devsw UM) (p_killed (cur s)) f p n).

Definition sys_write : YM Z :=
  p <- argaddr 1 ;;
  n <- argint 2 ;;
  ' (r, _, f) <- argfd 0 ;;
  if r <? 0 then ret (-1)
  else
    s <- get ;;
    u_ me kend (λ UM, filewrite (UM := UM) me (pid_ s) (devsw UM) (p_killed (cur s)) f p n).

Definition sys_close : YM Z :=
  ' (r, fd, f) <- argfd 0 ;;
  if r <? 0 then ret (-1)
  else
    upd_cur (λ x, set_p_ofile (zset (p_ofile x) fd 0) x) ;;
    fileclose_ f ;;
    ret 0.

Definition sys_fstat : YM Z :=
  st <- argaddr 1 ;;
  ' (r, _, f) <- argfd 0 ;;
  if r <? 0 then ret (-1)
  else
    s <- get ;;
    u_ me kend (λ UM, filestat (UM := UM) me (pid_ s) pad f st).

(** * Links *)

(** [bad:] of [sys_link] *)
Definition link_bad (ip : Z) : YM Z :=
  ilock_ ip ;;
  upd_ino ip (λ i, set_i_nlink (s16 (i_nlink i - 1)) i) ;;
  iupdate_ ip ;;
  iunlockput_ ip ;;
  end_ ;;
  ret (-1).

Definition sys_link : YM Z :=
  r <- argstr me kend 0 path MAXPATH ;;
  r' <- (if r <? 0 then ret (-1) else argstr me kend 1 new MAXPATH) ;;
  if (r <? 0) || (r' <? 0) then ret (-1)
  else
    begin_ ;;
    ip <- namei_ path ;;
    if ip =? 0 then end_ ;; ret (-1)
    else
      ilock_ ip ;;
      s <- get ;;
      if i_type (ino s ip) =? T_DIR then iunlockput_ ip ;; end_ ;; ret (-1)
      else
        upd_ino ip (λ i, set_i_nlink (s16 (i_nlink i + 1)) i) ;;
        iupdate_ ip ;;
        iunlock_ ip ;;
        dp <- nameiparent_ new name ;;
        if dp =? 0 then link_bad ip
        else
          ilock_ dp ;;
          s <- get ;;
          r <- (if negb (i_dev (ino s dp) =? i_dev (ino s ip)) then ret (-1) else dirlink_ dp name (i_inum (ino s ip))) ;;
          if r <? 0 then iunlockput_ dp ;; link_bad ip
          else
            iunlockput_ dp ;;
            iput_ ip ;;
            end_ ;;
            ret 0.

(** The entries from the third on; [dp->size] is read in each turn. *)
Fixpoint isdirempty_loop (fuel : nat) (dp off : Z) : YM Z :=
  match fuel with
  | O => λ _, OutOfFuel
  | S fuel' =>
      s <- get ;;
      if negb (off <? i_size (ino s dp)) then ret 1
      else
        r <- fs_ me kend (λ UM, readi (UM := UM) dp 0 de2 off SIZEOF_DIRENT) ;;
        if negb (r =? SIZEOF_DIRENT) then panic "isdirempty: readi"
        else
          s <- get ;;
          if negb (de_inum (ku_kmem (ku s)) de2 =? 0) then ret 0
          else isdirempty_loop fuel' dp (off + SIZEOF_DIRENT)
  end.

Definition isdirempty (dp : Z) : YM Z :=
  s <- get ;;
  isdirempty_loop (Z.to_nat (i_size (ino s dp) / SIZEOF_DIRENT + 1)) dp (2 * SIZEOF_DIRENT).

Definition namecmp_ (p q : Z) : YM Z := gets (λ s, namecmp (ku_kmem (ku s)) p q).

Definition sys_unlink : YM Z :=
  r <- argstr me kend 0 path MAXPATH ;;
  if r <? 0 then ret (-1)
  else
    begin_ ;;
    dp <- nameiparent_ path name ;;
    if dp =? 0 then end_ ;; ret (-1)
    else
      ilock_ dp ;;
      c1 <- namecmp_ name dot ;;
      c2 <- namecmp_ name dotdot ;;
      if (c1 =? 0) || (c2 =? 0) then iunlockput_ dp ;; end_ ;; ret (-1)
      else
        ' (ip, off) <- dirlookup_ dp name ;;
        if ip =? 0 then iunlockput_ dp ;; end_ ;; ret (-1)
        else
          ilock_ ip ;;
          s <- get ;;
          if i_nlink (ino s ip) <? 1 then panic "unlink: nlink < 1"
          else
            empty <- (if i_type (ino s ip) =? T_DIR then isdirempty ip else ret 1) ;;
            if empty =? 0 then
              iunlockput_ ip ;;
              iunlockput_ dp ;; end_ ;; ret (-1)
            else
              modify (λ s, set_ku (mkku (memset (ku_kmem (ku s)) de2 0 SIZEOF_DIRENT) (ku_user (ku s))) s) ;;
              r <- fs_ me kend (λ UM, writei (UM := UM) dp 0 de2 off SIZEOF_DIRENT) ;;
              if negb (r =? SIZEOF_DIRENT) then panic "unlink: writei"
              else
                s <- get ;;
                (if i_type (ino s ip) =? T_DIR then
                   upd_ino dp (λ i, set_i_nlink (s16 (i_nlink i - 1)) i) ;;
                   iupdate_ dp
                 else ret tt) ;;
                iunlockput_ dp ;;
                upd_ino ip (λ i, set_i_nlink (s16 (i_nlink i - 1)) i) ;;
                iupdate_ ip ;;
                iunlockput_ ip ;;
                end_ ;;
                ret 0.

(** * Creation *)

(** [fail:] of [create] *)
Definition create_fail (dp ip : Z) : YM Z :=
  upd_ino ip (set_i_nlink 0) ;;
  iupdate_ ip ;;
  iunlockput_ ip ;;
  iunlockput_ dp ;;
  ret 0.

Definition create (p type major minor : Z) : YM Z :=
  dp <- nameiparent_ p name ;;
  if dp =? 0 then ret 0
  else
    ilock_ dp ;;
    ' (ip, _) <- dirlookup_ dp name ;;
    if negb (ip =? 0) then
      iunlockput_ dp ;;
      ilock_ ip ;;
      s <- get ;;
      if (type =? T_FILE) && ((i_type (ino s ip) =? T_FILE) || (i_type (ino s ip) =? T_DEVICE)) then ret ip
      else iunlockput_ ip ;; ret 0
    else
      s <- get ;;
      ip <- fs_ me kend (λ _, ialloc me (i_dev (ino s dp)) type) ;;
      if ip =? 0 then iunlockput_ dp ;; ret 0
      else
        ilock_ ip ;;
        upd_ino ip (λ i, set_i_nlink 1 (set_i_minor (s16 minor) (set_i_major (s16 major) i))) ;;
        iupdate_ ip ;;
        s <- get ;;
        r <- (if type =? T_DIR then
                r <- dirlink_ ip dot (i_inum (ino s ip)) ;;
                if r <? 0 then ret (-1) else dirlink_ ip dotdot (i_inum (ino s dp))
              else ret 0) ;;
        if r <? 0 then create_fail dp ip
        else
          r <- dirlink_ dp name (i_inum (ino s ip)) ;;
          if r <? 0 then create_fail dp ip
          else
            (if type =? T_DIR then
               upd_ino dp (λ i, set_i_nlink (s16 (i_nlink i + 1)) i) ;;
               iupdate_ dp
             else ret tt) ;;
            iunlockput_ dp ;;
            ret ip.

(** The inode to open, locked, or 0 after [end_op]. *)
Definition open_inode (omode : Z) : YM Z :=
  if has omode O_CREATE then
    ip <- create path T_FILE 0 0 ;;
    if ip =? 0 then end_ ;; ret 0 else ret ip
  else
    ip <- namei_ path ;;
    if ip =? 0 then end_ ;; ret 0
    else
      ilock_ ip ;;
      s <- get ;;
      if (i_type (ino s ip) =? T_DIR) && negb (omode =? O_RDONLY)
      then iunlockput_ ip ;; end_ ;; ret 0
      else ret ip.

Definition sys_open : YM Z :=
  omode <- argint 1 ;;
  n <- argstr me kend 0 path MAXPATH ;;
  if n <? 0 then ret (-1)
  else
    begin_ ;;
    ip <- open_inode omode ;;
    if ip =? 0 then ret (-1)
    else
      s <- get ;;
      let i := ino s ip in
      if (i_type i =? T_DEVICE) && ((i_major i <? 0) || (NDEV <=? i_major i))
      then iunlockput_ ip ;; end_ ;; ret (-1)
      else
        f <- k_ (filealloc me) ;;
        fd <- (if f =? 0 then ret (-1) else fdalloc f) ;;
        if (f =? 0) || (fd <? 0) then
          (if negb (f =? 0) then fileclose_ f else ret tt) ;;
          iunlockput_ ip ;; end_ ;; ret (-1)
        else
          k_ (upd_f f (λ x,
            let x := if i_type i =? T_DEVICE then set_f_major (i_major i) (set_f_type FD_DEVICE x)
                     else set_f_off 0 (set_f_type FD_INODE x) in
            set_f_writable (b2z (has omode O_WRONLY || has omode O_RDWR))
              (set_f_readable (b2z (negb (has omode O_WRONLY))) (set_f_ip ip x)))) ;;
          (if has omode O_TRUNC && (i_type i =? T_FILE) then fs_ me kend (λ _, itrunc ip) else ret tt) ;;
          iunlock_ ip ;;
          end_ ;;
          ret fd.

(** The end of [sys_mkdir] and [sys_mknod]. *)
Definition made (ip : Z) : YM Z :=
  if ip =? 0 then end_ ;; ret (-1)
  else iunlockput_ ip ;; end_ ;; ret 0.

Definition sys_mkdir : YM Z :=
  begin_ ;;
  r <- argstr me kend 0 path MAXPATH ;;
  ip <- (if r <? 0 then ret 0 else create path T_DIR 0 0) ;;
  made ip.

Definition sys_mknod : YM Z :=
  begin_ ;;
  major <- argint 1 ;;
  minor <- argint 2 ;;
  r <- argstr me kend 0 path MAXPATH ;;
  ip <- (if r <? 0 then ret 0 else create path T_DEVICE (s16 major) (s16 minor)) ;;
  made ip.

Definition sys_chdir : YM Z :=
  begin_ ;;
  r <- argstr me kend 0 path MAXPATH ;;
  ip <- (if r <? 0 then ret 0 else namei_ path) ;;
  if ip =? 0 then end_ ;; ret (-1)
  else
    ilock_ ip ;;
    s <- get ;;
    if negb (i_type (ino s ip) =? T_DIR) then iunlockput_ ip ;; end_ ;; ret (-1)
    else
      iunlock_ ip ;;
      s <- get ;;
      iput_ (p_cwd (cur s)) ;;
      end_ ;;
      upd_cur (set_p_cwd ip) ;;
      ret 0.

(** * exec and pipe *)

(** The argument strings, each in a page of its own, and whether all went
    well: [argv] up to its null pointer. *)
Fixpoint fetch_args (n : nat) (uargv i : Z) (argv : list Z) : YM (list Z * bool) :=
  match n with
  | O => ret (argv, false)
  | S n' =>
      ' (r, uarg) <- fetchaddr me kend (u64 (uargv + 8 * i)) ;;
      if r <? 0 then ret (argv, false)
      else if uarg =? 0 then ret (argv, true)
      else
        a <- vm_ (kalloc me) ;;
        if a =? 0 then ret (argv, false)
        else
          r <- fetchstr me kend uarg a PGSIZE ;;
          if r <? 0 then ret (argv ++ [a], false)
          else fetch_args n' uargv (i + 1) (argv ++ [a])
  end.

Fixpoint free_args (argv : list Z) : YM unit :=
  match argv with
  | [] => ret tt
  | a :: argv' => vm_ (kfree me kend a) ;; free_args argv'
  end.

Definition sys_exec : YM Z :=
  uargv <- argaddr 1 ;;
  r <- argstr me kend 0 path MAXPATH ;;
  if r <? 0 then ret (-1)
  else
    ' (argv, ok) <- fetch_args (Z.to_nat MAXARG) uargv 0 [] ;;
    if negb (ok : bool) then free_args argv ;; ret (-1)
    else
      r <- kexec me kend trampoline de namebuf elf ph path argv ;;
      free_args argv ;;
      ret r.

Definition sys_pipe : YM Z :=
  fdarray <- argaddr 0 ;;
  s <- get ;;
  ' (rf, wf, r) <- k_ (pipealloc (PA := pa me kend) me (pid_ s)) ;;
  if r <? 0 then ret (-1)
  else
    fd0 <- fdalloc rf ;;
    fd1 <- (if fd0 <? 0 then ret (-1) else fdalloc wf) ;;
    if (fd0 <? 0) || (fd1 <? 0) then
      (if 0 <=? fd0 then upd_cur (λ x, set_p_ofile (zset (p_ofile x) fd0 0) x) else ret tt) ;;
      fileclose_ rf ;;
      fileclose_ wf ;;
      ret (-1)
    else
      r0 <- u_ me kend (λ UM, copyout_ (UM := UM) fdarray (le_enc 4 fd0)) ;;
      r1 <- (if r0 <? 0 then ret (-1) else u_ me kend (λ UM, copyout_ (UM := UM) (u64 (fdarray + 4)) (le_enc 4 fd1))) ;;
      if (r0 <? 0) || (r1 <? 0) then
        upd_cur (λ x, set_p_ofile (zset (zset (p_ofile x) fd0 0) fd1 0) x) ;;
        fileclose_ rf ;;
        fileclose_ wf ;;
        ret (-1)
      else ret 0.
End sysfile.
