(* ===== verification/FdSpec.v ===== *)
(** kernel/sysfile.c, kernel/file.c: descriptors.

    [fd_ok] types the descriptors: every entry of a process's table is 0 or a
    file of the file table, and the reference count of a file is the number of
    entries that refer to it.  [dup], [close] and the copying of the table by
    [fork] keep it; [fdalloc] takes the lowest free entry, which the shell
    relies on. *)

From stdpp Require Import base tactics list numbers strings gmap.
From S2P Require Import Prelude Param Bytes CString Spinlock Sleeplock TxSpec UserSpec Vm VmTree VmMap VmUser Fs Pipe File Kalloc Proc Syscall ProcMem Exec Sysfile.
From Stdlib Require Import ZArith Lia.

Open Scope kernel_scope.

(** * Counting *)

Definition times (f : Z) (l : list Z) : Z := Z.of_nat (length (filter (λ x, x = f) l)).

Definition one (b : bool) : Z := if b then 1 else 0.

Lemma times_cons f x l : times f (x :: l) = one (bool_decide (x = f)) + times f l.
Proof. unfold times. rewrite filter_cons. case_decide; [rewrite bool_decide_eq_true_2 by done|rewrite bool_decide_eq_false_2 by done]; cbn [length one]; lia. Qed.

Lemma times_insert f l i x y : l !! i = Some y → times f (<[i := x]> l) = times f l - one (bool_decide (y = f)) + one (bool_decide (x = f)).
Proof.
  revert i. induction l as [|z l IH]; intros [|i] E; try done; cbn in E.
  - injection E as ->. change (<[0%nat := x]> (y :: l)) with (x :: l). rewrite !times_cons. lia.
  - change (<[S i := x]> (z :: l)) with (z :: <[i := x]> l). rewrite !times_cons, (IH i E). lia.
Qed.

Lemma times_zset f l i x : 0 ≤ i < len l → times f (zset l i x) = times f l - one (bool_decide (znth 0 l i = f)) + one (bool_decide (x = f)).
Proof.
  intros Hi. unfold zset, len in *. rewrite (proj2 (Z.ltb_ge i 0)) by lia. destruct (lookup_lt_is_Some_2 l (Z.to_nat i)) as [y E]; [lia|].
  rewrite (times_insert _ _ _ _ y E). unfold znth. by rewrite (proj2 (Z.ltb_ge i 0)), E by lia.
Qed.

Lemma times_none f l : Forall (λ x, x ≠ f) l → times f l = 0.
Proof. induction 1 as [|x l Hx _ IH]; [done|]. rewrite times_cons, IH, bool_decide_eq_false_2 by done. done. Qed.

(** The entries of all tables. *)
Definition refs (t : ptable) (f : Z) : Z := foldr (λ x a, times f (p_ofile x) + a) 0 (procs t).

Lemma sum_zset {A} (g : A → Z) l i x d : 0 ≤ i < len l →
  foldr (λ x a, g x + a) 0 (zset l i x) = foldr (λ x a, g x + a) 0 l - g (znth d l i) + g x.
Proof.
  intros Hi. unfold zset, znth, len in *. rewrite (proj2 (Z.ltb_ge i 0)) by lia. assert (Hn : (Z.to_nat i < length l)%nat) by lia. clear Hi.
  revert Hn. generalize (Z.to_nat i). induction l as [|z l IH]; intros [|n] Hn; cbn [length] in Hn; try lia.
  - change (<[0%nat := x]> (z :: l)) with (x :: l). change (default d ((z :: l) !! 0%nat)) with z. cbn [foldr]. lia.
  - change (<[S n := x]> (z :: l)) with (z :: <[n := x]> l). change (default d ((z :: l) !! S n)) with (default d (l !! n)). cbn [foldr]. rewrite IH by lia. lia.
Qed.

Lemma refs_upd t p h f : pvalid t p → refs (upd_p p h t) f = refs t f - times f (p_ofile (getp t p)) + times f (p_ofile (h (getp t p))).
Proof. intros Hp. unfold refs, upd_p, setp. cbn [procs set_procs]. apply (sum_zset (λ x, times f (p_ofile x))). unfold pvalid in Hp. lia. Qed.

(** * The invariant *)

Section fd.
  Context {F H : Type} `{TX : Txn F H}.
  Context (me kend : Z).
  Implicit Types (s : sys F) (k : kst F kmem).

Record fd_ok s : Prop := {
  fk_files : len (ft_file (k_ft (y_k s))) = NFILE;
  fk_lock : unlocked (ft_lock (k_ft (y_k s)));
  fk_table : ∀ p, pvalid (y_pt s) p → len (p_ofile (getp (y_pt s) p)) = NOFILE ∧ Forall (λ f, 0 ≤ f ≤ NFILE) (p_ofile (getp (y_pt s) p));
  fk_refs : ∀ f, 1 ≤ f ≤ NFILE → f_ref (getf (y_k s) f) = refs (y_pt s) f;
}.

(** The state after one entry of a table, or one file, has changed. *)
Definition with_fd (p i f : Z) s : sys F := upd ptL (upd_p p (λ x, set_p_ofile (zset (p_ofile x) i f) x) (y_pt s)) s.
Definition with_file (f : Z) (g : file → file) k : kst F kmem :=
  mkkst (k_fs k) (mkftable (ft_lock (k_ft k)) (zset (ft_file (k_ft k)) (f - 1) (g (getf k f)))) (k_pipes k).
Definition with_ref (f n : Z) s : sys F := upd kL (with_file f (λ x, set_f_ref (f_ref x + n) x) (y_k s)) s.

Lemma getf_with_file k f g h : 1 ≤ f ≤ len (ft_file (k_ft k)) → getf (with_file f g k) h = if decide (h = f) then g (getf k f) else getf k h.
Proof. intros Hf. unfold getf, with_file. cbn. rewrite znth_zset by lia. repeat case_decide; try lia; try done. Qed.

(** A descriptor and the counts change together. *)
Lemma fd_ok_change s p i f k (old := znth 0 (p_ofile (getp (y_pt s) p)) i) :
  fd_ok s → pvalid (y_pt s) p → 0 ≤ i < NOFILE → 0 ≤ f ≤ NFILE → len (ft_file (k_ft k)) = NFILE → unlocked (ft_lock (k_ft k)) →
  (∀ h, 1 ≤ h ≤ NFILE → f_ref (getf k h) = f_ref (getf (y_k s) h) - one (bool_decide (old = h)) + one (bool_decide (f = h))) →
  fd_ok (with_fd p i f (upd kL k s)).
Proof.
  intros [H1 H2 H3 H4] Hp Hi Hf Hl Hu Hr. destruct (H3 p Hp) as [Hlen Hall]. constructor; cbn [with_fd upd ptL kL y_k y_pt]; try done.
  - intros q Hq. assert (pvalid (y_pt s) q) as Hq' by (unfold pvalid, upd_p, setp in *; cbn in Hq; by rewrite len_zset in Hq).
    rewrite getp_upd by done. case_decide as E; [|by apply H3]. subst q. cbn [p_ofile set_p_ofile]. rewrite len_zset. split; [done|].
    unfold zset. case_match; [done|]. by apply Forall_insert.
  - intros h Hh. rewrite Hr, H4, refs_upd by done. cbn [p_ofile set_p_ofile]. rewrite times_zset by lia. fold old. lia.
Qed.

(** * fdalloc *)

(** [fd] is the lowest free entry of the table of the current process. *)
Definition lowest_fd s (fd : Z) : Prop :=
  0 ≤ fd < NOFILE ∧ znth 0 (p_ofile (cur s)) fd = 0 ∧ ∀ i, 0 ≤ i < fd → znth 0 (p_ofile (cur s)) i ≠ 0.

Definition no_fd s : Prop := ∀ i, 0 ≤ i < NOFILE → znth 0 (p_ofile (cur s)) i ≠ 0.

Lemma fdalloc_loop n i f s fd : lowest_fd s fd → 0 ≤ i ≤ fd → fd < i + Z.of_nat n →
  for_up n i (λ fd, s <- get ;; if znth 0 (p_ofile (cur s)) fd =? 0 then upd_cur (λ x, set_p_ofile (zset (p_ofile x) fd f) x) ;; ret (Stop fd) else ret Next) s =
  Ok (Some fd) (with_fd (cpu_proc (y_pt s)) fd f s).
Proof.
  intros (Hfd & H0 & Hlow). revert i. induction n as [|n IH]; intros i Hi Hn; [lia|]. cbn [for_up]. rewrite bind_get.
  destruct (decide (i = fd)) as [-> |Hne]; [by rewrite H0|]. rewrite (proj2 (Z.eqb_neq _ 0)) by (apply Hlow; lia). unfold ret at 1. apply IH; lia.
Qed.

Lemma fdalloc_ok s f fd : lowest_fd s fd → fdalloc f s = Ok fd (with_fd (cpu_proc (y_pt s)) fd f s).
Proof.
  intros Hl. pose proof Hl as [Hfd _]. unfold fdalloc. unfold NOFILE in Hfd. by rewrite (bind_ok _ _ _ _ _ (fdalloc_loop 16 0 f s fd Hl ltac:(lia) ltac:(lia))).
Qed.

Lemma fdalloc_none s f : no_fd s → fdalloc f s = Ok (-1) s.
Proof.
  intros Hn. unfold fdalloc. assert (E : ∀ n i, 0 ≤ i → i + Z.of_nat n ≤ NOFILE →
    for_up n i (λ fd, s <- get ;; if znth 0 (p_ofile (cur s)) fd =? 0 then upd_cur (λ x, set_p_ofile (zset (p_ofile x) fd f) x) ;; ret (Stop fd) else ret Next) s = Ok None s).
  { induction n as [|n IH]; intros i Hi Hb; [done|]. cbn [for_up]. rewrite bind_get, (proj2 (Z.eqb_neq _ 0)) by (apply Hn; lia). apply IH; lia. }
  by rewrite (bind_ok _ _ _ _ _ (E 16%nat 0 ltac:(lia) ltac:(unfold NOFILE; lia))).
Qed.

Lemma lowest_or_none s : (∃ fd, lowest_fd s fd) ∨ no_fd s.
Proof.
  assert (E : ∀ n : nat, (∃ fd, lowest_fd s fd) ∨ ∀ i, 0 ≤ i < Z.min (Z.of_nat n) NOFILE → znth 0 (p_ofile (cur s)) i ≠ 0).
  { induction n as [|n [IH|IH]]; [right; lia|by left|]. destruct (decide (Z.of_nat n < NOFILE)) as [Hn|Hn]; [|right; intros i Hi; apply IH; lia].
    destruct (decide (znth 0 (p_ofile (cur s)) (Z.of_nat n) = 0)) as [E|E].
    - left. exists (Z.of_nat n). split_and!; [lia|lia|done|]. intros i Hi. apply IH. lia.
    - right. intros i Hi. destruct (decide (i = Z.of_nat n)) as [-> |]; [done|]. apply IH. lia. }
  destruct (E (Z.to_nat NOFILE)) as [|En]; [by left|right]. intros i Hi. apply En. unfold NOFILE in *. lia.
Qed.

(** * filedup and fileclose *)

Lemma filedup_ok k f : unlocked (ft_lock (k_ft k)) → 1 ≤ f_ref (getf k f) → filedup me f k = Ok f (with_file f (λ x, set_f_ref (f_ref x + 1) x) k).
Proof.
  intros Hl Hr. destruct k as [fs [lk files] pipes]. destruct lk as [lkd n c], Hl as [El Ec]. cbn in El, Ec. subst lkd c. unfold filedup.
  rewrite (bind_ok _ _ _ tt (mkkst fs (mkftable (mkspinlock 1 n (Some me)) files) pipes)) by done.
  rewrite bind_get. change (getf (mkkst fs (mkftable (mkspinlock 1 n (Some me)) files) pipes) f) with (getf (mkkst fs (mkftable (mkspinlock 0 n None) files) pipes) f) at 1. rewrite (proj2 (Z.ltb_ge _ 1)) by lia.
  unfold upd_f. rewrite bind_modify. erewrite bind_ok; [|apply (zoom_ok ftlockL); apply release_lk_ok]. done.
Qed.

(** The first part of [fileclose]: another reference is left. *)
Lemma fileclose_shared pid k f : unlocked (ft_lock (k_ft k)) → 1 ≤ f ≤ len (ft_file (k_ft k)) → 2 ≤ f_ref (getf k f) →
  fileclose (PA := pa me kend) me pid f k = Ok tt (with_file f (λ x, set_f_ref (f_ref x - 1) x) k).
Proof.
  intros Hl Hf Hr. destruct k as [fs [lk files] pipes]. destruct lk as [lkd n c], Hl as [El Ec]. cbn in El, Ec, Hf. subst lkd c. unfold fileclose.
  rewrite (bind_ok _ _ _ tt (mkkst fs (mkftable (mkspinlock 1 n (Some me)) files) pipes)) by done.
  rewrite bind_get. change (getf (mkkst fs (mkftable (mkspinlock 1 n (Some me)) files) pipes) f) with (getf (mkkst fs (mkftable (mkspinlock 0 n None) files) pipes) f) at 1. rewrite (proj2 (Z.ltb_ge _ 1)) by lia.
  unfold upd_f. rewrite bind_modify, bind_get. unfold getf at 1. cbn [k_ft ft_file]. rewrite znth_zset_eq by lia. cbn [f_ref set_f_ref].
  rewrite (proj2 (Z.ltb_lt 0 _)) by (change (getf (mkkst fs (mkftable (mkspinlock 1 n (Some me)) files) pipes) f) with (getf (mkkst fs (mkftable (mkspinlock 0 n None) files) pipes) f); lia).
  erewrite zoom_ok; [|apply release_lk_ok]. done.
Qed.

(** The last reference goes. *)
Lemma fileclose_last pid k f (ff := getf k f) : unlocked (ft_lock (k_ft k)) → 1 ≤ f ≤ len (ft_file (k_ft k)) → f_ref ff = 1 →
  fileclose (PA := pa me kend) me pid f k =
  close_last (PA := pa me kend) me pid (set_f_ref 0 ff) (with_file f (λ x, set_f_type FD_NONE (set_f_ref 0 x)) k).
Proof.
  intros Hl Hf Hr. destruct k as [fs [lk files] pipes]. destruct lk as [lkd n c], Hl as [El Ec]. cbn in El, Ec, Hf. subst lkd c. unfold fileclose.
  rewrite (bind_ok _ _ _ tt (mkkst fs (mkftable (mkspinlock 1 n (Some me)) files) pipes)) by done. rewrite bind_get.
  change (getf (mkkst fs (mkftable (mkspinlock 1 n (Some me)) files) pipes) f) with ff. rewrite Hr. cbn [Z.ltb Z.compare Pos.compare Pos.compare_cont].
  unfold upd_f. rewrite bind_modify, bind_get. unfold getf. cbn [k_ft ft_file ft_lock k_fs k_pipes]. rewrite !znth_zset_eq by lia.
  change (znth file0 files (f - 1)) with ff. cbn [f_ref set_f_ref]. rewrite Hr. change (0 <? 1 - 1) with false. cbv iota. rewrite bind_modify.
  erewrite bind_ok; [|apply (zoom_ok ftlockL); apply release_lk_ok]. unfold with_file. cbn [upd ftlockL k_fs k_ft k_pipes ft_file ft_lock]. unfold getf.
  cbn [k_ft ft_file]. rewrite znth_zset_eq, zset_zset by lia. done.
Qed.

(** * The system calls *)

(** Argument 0 is the open descriptor [fd], of the file [f]. *)
Definition open_arg s (fd f : Z) : Prop :=
  fd = s32 (tf_get s TF_a0) ∧ 0 ≤ fd < NOFILE ∧ znth 0 (p_ofile (cur s)) fd = f ∧ f ≠ 0.

Lemma argfd_open s fd f : open_arg s fd f → argfd 0 s = Ok (0, fd, f) s.
Proof.
  intros (-> & Hr & Hf & Hnz). unfold argfd, argint, argraw. cbn [Z.leb Z.compare andb]. rewrite bind_assoc, bind_gets, bind_ret, bind_get.
  change (TF_a0 + 8 * 0) with TF_a0. rewrite (proj2 (Z.ltb_ge _ 0)), (proj2 (Z.leb_gt NOFILE _)) by lia. cbn [orb]. cbv zeta. rewrite Hf. by rewrite (proj2 (Z.eqb_neq f 0) Hnz).
Qed.

Lemma argfd_bad s : (∀ fd f, ¬ open_arg s fd f) → argfd 0 s = Ok (-1, 0, 0) s.
Proof.
  intros Hno. unfold argfd, argint, argraw. cbn [Z.leb Z.compare andb]. rewrite bind_assoc, bind_gets, bind_ret, bind_get. change (TF_a0 + 8 * 0) with TF_a0.
  destruct (Z.ltb_spec (s32 (tf_get s TF_a0)) 0); [done|]. destruct (Z.leb_spec NOFILE (s32 (tf_get s TF_a0))); [done|]. cbn [orb]. cbv zeta.
  destruct (Z.eqb_spec (znth 0 (p_ofile (cur s)) (s32 (tf_get s TF_a0))) 0) as [|Hnz]; [done|]. exfalso. eapply Hno. by split_and!.
Qed.

Lemma times_pos f l i : 0 ≤ i < len l → znth 0 l i = f → 1 ≤ times f l.
Proof.
  intros Hi E. pose proof (times_zset f l i (f + 1) Hi) as Ht. rewrite bool_decide_eq_true_2 in Ht by done. rewrite bool_decide_eq_false_2 in Ht by lia.
  cbn in Ht. assert (0 ≤ times f (zset l i (f + 1))) by (unfold times; lia). lia.
Qed.

Lemma refs_pos t p i f : pvalid t p → 0 ≤ i < len (p_ofile (getp t p)) → znth 0 (p_ofile (getp t p)) i = f → 1 ≤ refs t f.
Proof.
  intros Hp Hi E. pose proof (refs_upd t p (set_p_ofile []) f Hp) as Hr. cbn [p_ofile set_p_ofile] in Hr. change (times f []) with 0 in Hr.
  pose proof (times_pos f _ i Hi E). assert (∀ l : list proc, 0 ≤ foldr (λ x a, times f (p_ofile x) + a) 0 l) as Hnn.
  { induction l as [|x l IH]; cbn [foldr]; [lia|]. assert (0 ≤ times f (p_ofile x)) by (unfold times; lia). lia. }
  specialize (Hnn (procs (upd_p p (set_p_ofile []) t))). unfold refs in *. lia.
Qed.
Lemma fd_get_file s fd f : fd_ok s → pvalid (y_pt s) (cpu_proc (y_pt s)) → open_arg s fd f → 1 ≤ f ≤ NFILE ∧ f_ref (getf (y_k s) f) = refs (y_pt s) f ∧ 1 ≤ refs (y_pt s) f.
Proof.
  intros Hok Hp (_ & Hfd & Hf & Hnz). destruct (fk_table _ Hok _ Hp) as [Hl Hall]. fold (cur s) in Hl, Hall.
  assert (Hr : 0 ≤ f ≤ NFILE). { rewrite Forall_forall in Hall. apply Hall. rewrite <-Hf. apply znth_In. lia. }
  split_and!; [lia|lia|apply (fk_refs _ Hok); lia|]. eapply refs_pos; [done| |exact Hf]. fold (cur s). lia.
Qed.

Definition dup_done s (r : Z) s' : Prop :=
  (r = -1 ∧ s' = s ∧ (no_fd s ∨ ∀ fd f, ¬ open_arg s fd f)) ∨
  (∃ fd f, open_arg s fd f ∧ lowest_fd s r ∧ s' = with_ref f 1 (with_fd (cpu_proc (y_pt s)) r f s)).

Lemma with_ref_fd s p i f h n : with_ref h n (with_fd p i f s) = with_fd p i f (upd kL (with_file h (λ x, set_f_ref (f_ref x + n) x) (y_k s)) s).
Proof. done. Qed.

Lemma dec_open s : (∃ fd f, open_arg s fd f) ∨ ∀ fd f, ¬ open_arg s fd f.
Proof.
  set (fd := s32 (tf_get s TF_a0)). destruct (decide (0 ≤ fd < NOFILE ∧ znth 0 (p_ofile (cur s)) fd ≠ 0)) as [[H1 H2]|Hn].
  - left. by exists fd, (znth 0 (p_ofile (cur s)) fd).
  - right. intros fd' f (-> & H1 & <- & H2). by apply Hn.
Qed.

Lemma sys_dup_ok s : fd_ok s → pvalid (y_pt s) (cpu_proc (y_pt s)) → ∃ r s', sys_dup me s = Ok r s' ∧ dup_done s r s' ∧ fd_ok s'.
Proof.
  intros Hok Hp. unfold sys_dup. destruct (dec_open s) as [(fd & f & Ho)|Hno].
  2:{ exists (-1), s. rewrite (bind_ok _ _ _ _ _ (argfd_bad s Hno)). split_and!; [done|left; auto|done]. }
  rewrite (bind_ok _ _ _ _ _ (argfd_open s fd f Ho)). change (0 <? 0) with false. cbv iota. destruct (fd_get_file s fd f Hok Hp Ho) as (Hf & Hr & Hpos).
  destruct (lowest_or_none s) as [[r Hl]|Hn].
  - pose proof Hl as (Hr0 & H0 & _). rewrite (bind_ok _ _ _ _ _ (fdalloc_ok s f r Hl)), (proj2 (Z.ltb_ge r 0)) by lia.
    eexists r, _. erewrite bind_ok; [|apply (zoom_ok kL), filedup_ok; [apply Hok|cbn [view kL y_k with_fd upd ptL]; lia]]. split_and!; [done|right; exists fd, f; by split_and!|].
    change (fd_ok (with_fd (cpu_proc (y_pt s)) r f (upd kL (with_file f (λ x, set_f_ref (f_ref x + 1) x) (y_k s)) s))).
    apply fd_ok_change; try done; [lia|unfold with_file; cbn; rewrite len_zset; apply Hok|apply Hok|].
    intros h Hh. rewrite getf_with_file by (rewrite (fk_files _ Hok); lia). fold (cur s). rewrite H0, (bool_decide_eq_false_2 (0 = h)) by lia. cbn [one].
    case_decide as E; [subst h; rewrite bool_decide_eq_true_2 by done|rewrite bool_decide_eq_false_2 by congruence]; cbn [one f_ref set_f_ref]; lia.
  - rewrite (bind_ok _ _ _ _ _ (fdalloc_none s f Hn)). exists (-1), s. split_and!; [done|left; auto|done].
Qed.

Definition close_done s : Prop :=
  (sys_close me kend s = Ok (-1) s ∧ ∀ fd f, ¬ open_arg s fd f) ∨
  (∃ fd f, open_arg s fd f ∧ 2 ≤ refs (y_pt s) f ∧
     let s' := with_ref f (-1) (with_fd (cpu_proc (y_pt s)) fd 0 s) in sys_close me kend s = Ok 0 s' ∧ fd_ok s') ∨
  (∃ fd f, open_arg s fd f ∧ refs (y_pt s) f = 1 ∧
     let s1 := with_fd (cpu_proc (y_pt s)) fd 0 (upd kL (with_file f (λ x, set_f_type FD_NONE (set_f_ref 0 x)) (y_k s)) s) in
     sys_close me kend s = (k_ (close_last (PA := pa me kend) me (p_pid (cur s1)) (set_f_ref 0 (getf (y_k s) f))) ;; ret 0) s1 ∧ fd_ok s1).

Lemma sys_close_ok s : fd_ok s → pvalid (y_pt s) (cpu_proc (y_pt s)) → close_done s.
Proof.
  intros Hok Hp. unfold close_done, sys_close. destruct (dec_open s) as [(fd & f & Ho)|Hno].
  2:{ left. by rewrite (bind_ok _ _ _ _ _ (argfd_bad s Hno)). }
  right. destruct (fd_get_file s fd f Hok Hp Ho) as (Hf & Hr & Hpos). pose proof Ho as (_ & Hfd & Hent & Hnz). pose proof (fk_files _ Hok) as Hlen.
  rewrite (bind_ok _ _ _ _ _ (argfd_open s fd f Ho)). change (0 <? 0) with false. cbv iota. unfold upd_cur. rewrite bind_modify. unfold fileclose_, k_. rewrite bind_assoc, bind_get.
  fold (with_fd (cpu_proc (y_pt s)) fd 0 s). set (s0 := with_fd (cpu_proc (y_pt s)) fd 0 s).
  assert (Hchg : ∀ g, f_ref (g (getf (y_k s) f)) = f_ref (getf (y_k s) f) - 1 →
    fd_ok (with_fd (cpu_proc (y_pt s)) fd 0 (upd kL (with_file f g (y_k s)) s))).
  { intros g Hg. apply fd_ok_change; try done; [by unfold with_file; cbn; rewrite len_zset|apply Hok|]. intros h Hh. rewrite getf_with_file by lia.
    fold (cur s). rewrite Hent, (bool_decide_eq_false_2 (0 = h)) by lia. case_decide as E; [subst h; rewrite bool_decide_eq_true_2 by done|rewrite bool_decide_eq_false_2 by congruence]; cbn [one]; lia. }
  destruct (decide (refs (y_pt s) f = 1)) as [H1|H1].
  - right. exists fd, f. split; [done|]. split; [done|]. cbv zeta. split; [|apply Hchg; cbn; lia]. unfold bind, zoom. cbn [view kL]. change (y_k s0) with (y_k s).
    by rewrite (fileclose_last _ (y_k s) f) by (apply Hok || lia).
  - left. exists fd, f. split; [done|]. split; [lia|]. cbv zeta. split; [|apply Hchg; cbn; lia].
    erewrite bind_ok; [|apply (zoom_ok kL), fileclose_shared; [apply Hok|cbn [view kL]; change (y_k s0) with (y_k s); lia|change (view kL s0) with (y_k s); lia]]. done.
Qed.

(** * fork *)

(** The table of the child after [i] turns. *)
Definition copied (l : list Z) (i : nat) : list Z := take i l ++ replicate (length l - i) 0.

Lemma copied_step l i : (i < length l)%nat → zset (copied l i) (Z.of_nat i) (znth 0 l (Z.of_nat i)) = copied l (S i).
Proof.
  intros Hi. unfold zset, znth, copied. rewrite !(proj2 (Z.ltb_ge _ 0)), !Nat2Z.id by lia. destruct (lookup_lt_is_Some_2 l i Hi) as [x E]. rewrite E. cbn [default].
  rewrite insert_app_r_alt by (rewrite length_take; lia). rewrite length_take, Nat.min_l, Nat.sub_diag by lia.
  replace (length l - i)%nat with (S (length l - S i)) by lia. cbn [replicate]. change (<[0%nat := id x]> (0 :: ?r)) with (x :: r).
  rewrite (take_S_r _ _ x) by done. by rewrite <-app_assoc.
Qed.

Lemma times_copied l i f : (i < length l)%nat → f ≠ 0 →
  times f (copied l (S i)) = times f (copied l i) + one (bool_decide (znth 0 l (Z.of_nat i) = f)).
Proof.
  intros Hi Hf. rewrite <-copied_step by done. rewrite times_zset.
  - assert (znth 0 (copied l i) (Z.of_nat i) = 0) as ->; [|rewrite (bool_decide_eq_false_2 (0 = f)) by congruence; cbn [one]; lia].
    unfold znth, copied. rewrite (proj2 (Z.ltb_ge _ 0)), Nat2Z.id by lia. rewrite lookup_app_r by (rewrite length_take; lia). rewrite length_take, Nat.min_l, Nat.sub_diag by lia.
    by rewrite lookup_replicate_2 by lia.
  - unfold copied, len. rewrite length_app, length_take, length_replicate. lia.
Qed.

(** What the loop of [fork] has done: [i] entries of [l], the table of the
    parent, are in the table of the child [np]; nothing else is different but the
    counts. *)
Record forked s (np : Z) (l : list Z) (i : Z) s' : Prop := {
  fr_fd : fd_ok s';
  fr_pt : y_pt s' = upd_p np (set_p_ofile (copied l (Z.to_nat i))) (y_pt s);
  fr_k : k_fs (y_k s') = k_fs (y_k s) ∧ k_pipes (y_k s') = k_pipes (y_k s);
  fr_files : ∀ h, 1 ≤ h ≤ NFILE → ∃ n, getf (y_k s') h = set_f_ref n (getf (y_k s) h);
}.

Section fork.
  Context (s : sys F) (p np : Z) (l := p_ofile (getp (y_pt s) p)).
  Context (Hok : fd_ok s) (Hp : pvalid (y_pt s) p) (Hnp : pvalid (y_pt s) np) (Hne : p ≠ np).
  Context (Hnew : p_ofile (getp (y_pt s) np) = replicate (Z.to_nat NOFILE) 0).

Lemma l_length : length l = 16%nat.
Proof. destruct (fk_table _ Hok p Hp) as [Hl _]. unfold len, l, NOFILE in *. lia. Qed.

Lemma forked_start : forked s np l 0 s.
Proof.
  constructor; try done.
  - assert (copied l (Z.to_nat 0) = p_ofile (getp (y_pt s) np)) as ->.
    { rewrite Hnew. unfold copied. change (Z.to_nat 0) with 0%nat. cbn [take app]. by rewrite Nat.sub_0_r, l_length. }
    destruct (y_pt s) as [ps pl wl nx ip cpu cp] eqn:E. unfold upd_p, setp, getp, set_procs. cbn. f_equal. unfold pvalid in Hnp. cbn in Hnp.
    replace (set_p_ofile _ _) with (znth proc0 ps (np - 1)) by (by destruct (znth proc0 ps (np - 1))). by rewrite zset_same by lia.
  - intros h Hh. exists (f_ref (getf (y_k s) h)). by destruct (getf (y_k s) h).
Qed.

Lemma forked_parent i s' : forked s np l i s' → p_ofile (getp (y_pt s') p) = l ∧ p_ofile (getp (y_pt s') np) = copied l (Z.to_nat i) ∧ pvalid (y_pt s') np ∧ pvalid (y_pt s') p.
Proof.
  intros [_ Hpt _ _]. rewrite Hpt. rewrite !getp_upd by done. rewrite decide_False, decide_True by congruence. split_and!; try done; unfold pvalid, upd_p, setp in *; cbn; by rewrite len_zset.
Qed.
Lemma copied_at i : 0 ≤ i < NOFILE → znth 0 (copied l (Z.to_nat i)) i = 0.
Proof.
  intros Hi. pose proof l_length as Hl. unfold NOFILE in Hi. unfold znth, copied. rewrite (proj2 (Z.ltb_ge _ 0)) by lia. rewrite lookup_app_r by (rewrite length_take; lia).
  rewrite length_take, Nat.min_l, Nat.sub_diag by lia. by rewrite lookup_replicate_2 by lia.
Qed.

Lemma copied_next i : 0 ≤ i < NOFILE → zset (copied l (Z.to_nat i)) i (znth 0 l i) = copied l (Z.to_nat (i + 1)).
Proof.
  intros Hi. pose proof l_length as Hl. unfold NOFILE in Hi. replace (Z.to_nat (i + 1)) with (S (Z.to_nat i)) by lia.
  rewrite <-copied_step by lia. by rewrite Z2Nat.id by lia.
Qed.

Lemma fork_turn i s' : 0 ≤ i < NOFILE → forked s np l i s' →
  ∃ s'', fork_file me p np i s' = Ok Next s'' ∧ forked s np l (i + 1) s''.
Proof.
  unfold fork_file.
  intros Hi Hf. destruct (forked_parent i s' Hf) as (Hpl & Hcl & Hvnp & Hvp). pose proof (copied_at i Hi) as H0. pose proof (copied_next i Hi) as Hnx.
  destruct Hf as [Hok' Hpt Hk Hfiles]. rewrite bind_get. cbv zeta. unfold gp. rewrite Hpl. set (f := znth 0 l i) in *.
  destruct (fk_table _ Hok' p Hvp) as [Hlen Hall]. rewrite Hpl in Hlen, Hall. destruct (Z.eqb_spec f 0) as [E|E]; cbn [negb].
  - exists s'. split; [done|]. constructor; try done. rewrite Hpt. do 2 f_equal. rewrite <-Hnx, E, <-H0 at 1. rewrite zset_same; [done|].
    destruct (fk_table _ Hok' np Hvnp) as [Hlen' _]. rewrite Hcl in Hlen'. lia.
  - assert (Hfr : 1 ≤ f ≤ NFILE). { rewrite Forall_forall in Hall. specialize (Hall f). pose proof (znth_In 0 l i ltac:(lia)) as Hin. specialize (Hall Hin). lia. }
    assert (Href : 1 ≤ f_ref (getf (y_k s') f)). { rewrite (fk_refs _ Hok') by done. apply (refs_pos _ p i); [done|rewrite Hpl; lia|by rewrite Hpl]. }
    unfold k_. rewrite bind_assoc. rewrite (bind_ok _ _ _ _ _ (zoom_ok kL _ s' _ _ (filedup_ok (y_k s') f (fk_lock _ Hok') Href))).
    exists (with_fd np i f (upd kL (with_file f (λ x, set_f_ref (f_ref x + 1) x) (y_k s')) s')). split; [done|].
    pose proof (fk_files _ Hok') as Hlf. constructor.
    + apply fd_ok_change; try done; [lia|unfold with_file; cbn; by rewrite len_zset|apply Hok'|]. intros h Hh. rewrite getf_with_file by lia. rewrite Hcl, H0, (bool_decide_eq_false_2 (0 = h)) by lia.
      case_decide as Eh; [subst h; rewrite bool_decide_eq_true_2 by done|rewrite bool_decide_eq_false_2 by congruence]; cbn [one f_ref set_f_ref]; lia.
    + cbn [with_fd upd ptL y_pt kL]. rewrite Hpt, upd_upd by done. rewrite <-Hnx. done.
    + done.
    + intros h Hh. cbn [with_fd upd ptL kL y_k]. rewrite getf_with_file by lia. destruct (Hfiles h Hh) as [n En]. case_decide as Eh; [subst h|by exists n]. rewrite En. by eexists.
Qed.

Lemma fork_files_ok : ∃ s', fork_files me p np s = Ok None s' ∧ forked s np l NOFILE s'.
Proof.
  assert (Hgo : ∀ n i s', 0 ≤ i → i + Z.of_nat n = NOFILE → forked s np l i s' → ∃ s'',
    for_up n i (fork_file me p np) s' = Ok None s'' ∧ forked s np l NOFILE s'').
  { induction n as [|n IH]; intros i s' Hi Hn Hf; [exists s'; split; [done|]; by replace NOFILE with i by lia|].
    destruct (fork_turn i s' ltac:(lia) Hf) as (s1 & E1 & Hf1). cbn [for_up]. rewrite E1. apply (IH (i + 1)); [lia|lia|done]. }
  apply (Hgo 16%nat 0 s); [lia|done|apply forked_start].
Qed.
End fork.

End fd.

Section theorem.
  Context {F H : Type} `{TX : Txn F H}.
  Context (me kend : Z).

(** C15: Descriptors stay typed.  In a state where every descriptor of every
    process is 0 or a file whose reference count is the number of descriptors
    that refer to it: [dup] returns the lowest free descriptor, now of the
    same file, or -1 with nothing changed; [close] frees the descriptor and, with
    the last one, the file, before anything below is told; [fork] gives the
    child the table of its parent.  None of them panics on a count, and the
    descriptors are typed afterwards. *)
Theorem descriptors_typed (s : sys F) (p := cpu_proc (y_pt s)) :
  fd_ok s → pvalid (y_pt s) p →
  (∃ r s', sys_dup me s = Ok r s' ∧ dup_done s r s' ∧ fd_ok s') ∧
  close_done me kend s ∧
  (∀ np, pvalid (y_pt s) np → p ≠ np → p_ofile (getp (y_pt s) np) = replicate (Z.to_nat NOFILE) 0 →
     ∃ s', fork_files me p np s = Ok None s' ∧ fd_ok s' ∧ y_pt s' = upd_p np (set_p_ofile (p_ofile (cur s))) (y_pt s)).
Proof.
  intros Hok Hp. split; [by apply sys_dup_ok|]. split; [by apply sys_close_ok|]. intros np Hnp Hne Hnew.
  destruct (fork_files_ok me s p np Hok Hp Hnp Hne Hnew) as (s' & E & [H1 H2 _ _]). exists s'. split_and!; [done|done|].
  rewrite H2. do 2 f_equal. destruct (fk_table _ Hok p Hp) as [Hl _]. unfold copied, cur. fold p. unfold len in Hl.
  rewrite take_ge by lia. replace (length _ - Z.to_nat NOFILE)%nat with 0%nat by lia. apply app_nil_r.
Qed.
End theorem.

(** * A small state *)

#[export] Instance null_txn : Txn unit Z := {
  t_bread _ _ := ret 0; t_brelse _ := ret tt; t_log_write _ := ret tt; t_data _ _ := []; t_setdata _ _ := ret tt;
  t_begin_op := ret tt; t_end_op := ret tt; t_initlog _ _ := ret tt;
}.

(** One process, with file 1 as its descriptors 0, 1 and 2, that calls with the
    argument 1. *)
Definition demo_procs : ptable :=
  mkptable (set_p_ofile ([1; 1; 1] ++ replicate 13 0) proc0 :: replicate 63 proc0) 2 (initlock "nextpid") (initlock "wait_lock") 1 (mkcpu 0 0 false) 1.
Definition demo_files : list file := mkfile FD_DEVICE 3 1 1 0 1 0 1 :: replicate 99 file0.
Definition demo_sys : sys unit :=
  mksys demo_procs
    (mkkst (mkfstate tt (mkfrest (mksb 0 0 0 0 0 0 0 0) (initlock "itable") [] (mkku (λ _, 0) (mkkmem (initlock "kmem") 0 (store64 (λ _, 0) TF_a0 1)))))
       (mkftable (initlock "ftable") demo_files) ∅) (initlock "time") 0.

Lemma demo_fd_ok : fd_ok demo_sys.
Proof.
  constructor; [done|done| |].
  - intros p Hp. unfold pvalid in Hp. cbn [y_pt demo_sys demo_procs procs] in *. unfold getp. cbn [procs]. destruct (decide (p = 1)) as [-> |].
    + split; [done|]. apply (bool_decide_unpack _). by vm_compute.
    + change (znth proc0 _ (p - 1)) with (znth proc0 (set_p_ofile ([1; 1; 1] ++ replicate 13 0) proc0 :: replicate 63 proc0) (p - 1)).
      change (len _) with 64 in Hp. rewrite znth_cons_pos, (znth_replicate proc0 proc0 63) by lia. split; [done|]. apply (bool_decide_unpack _). by vm_compute.
  - intros f Hf. destruct (decide (f = 1)) as [-> |]; [by vm_compute|]. unfold getf. cbn [y_k demo_sys k_ft ft_file demo_files y_pt].
    change (znth file0 _ (f - 1)) with (znth file0 (mkfile FD_DEVICE 3 1 1 0 1 0 1 :: replicate 99 file0) (f - 1)).
    rewrite znth_cons_pos, (znth_replicate file0 file0 99) by (unfold NFILE in Hf; lia). cbn [f_ref file0]. unfold refs. cbn [procs demo_procs foldr].
    assert (∀ n, foldr (λ x a, times f (p_ofile x) + a) 0 (replicate n proc0) = 0) as ->.
    { intros m. induction m as [|m IH]; cbn [replicate foldr]; [done|]. rewrite IH, times_none; [done|]. apply Forall_replicate. lia. }
    cbn [p_ofile set_p_ofile]. rewrite times_none; [done|]. apply Forall_app. split; [repeat constructor; lia|apply Forall_replicate; lia].
Qed.

Lemma descriptors_typed_witness :
  (∃ s', sys_dup (F := unit) 0 demo_sys = Ok 3 s' ∧ fd_ok s') ∧ ∃ s', sys_close (F := unit) 0 0 demo_sys = Ok 0 s' ∧ fd_ok s'.
Proof.
  destruct (descriptors_typed 0 0 demo_sys demo_fd_ok ltac:(split; apply Z.leb_le; reflexivity)) as ((r & s' & E & _ & Hs) & Hc & _). split.
  - exists s'. split; [|exact Hs]. rewrite E. f_equal. assert (Hr : match sys_dup (F := unit) 0 demo_sys with Ok r _ => r | _ => 0 end = 3) by (vm_compute; reflexivity).
    rewrite E in Hr. exact Hr.
  - destruct Hc as [[E1 Hno]|[(fd & f & Ho & Hr & E1 & Hs1)|(fd & f & Ho & Hr & _)]].
    + exfalso. apply (Hno 1 1). split_and!; [vm_compute; reflexivity|lia|unfold NOFILE; lia|vm_compute; reflexivity|lia].
    + eexists. split; [exact E1|exact Hs1].
    + exfalso. destruct Ho as (Hfd & _ & Hf & _). vm_compute in Hfd. subst fd. vm_compute in Hf. subst f. vm_compute in Hr. discriminate.
Defined.
