(* ===== verification/Sysproc.v ===== *)
(** kernel/sysproc.c: the process system calls, and the table of handlers. *)

From stdpp Require Import base tactics list numbers strings gmap.
From S2P Require Import Prelude Param Bytes CString Spinlock Sleeplock TxSpec UserSpec Vm VmTree VmMap VmUser Fs Pipe File Kalloc Proc Syscall ProcMem Exec Sysfile.
From Stdlib Require Import ZArith Lia.

Open Scope kernel_scope.

(** vm.h *)
Definition SBRK_EAGER : Z := 1.
Definition SBRK_LAZY : Z := 2.

(** [&ticks] *)
Definition ticks_chan : Z := 4000.

Section sysproc.
  Context {F H : Type} `{TX : Txn F H}.
  Context (me kend : Z) (trampoline forkret de namebuf elf ph : Z).
  Context (path new name de2 dot dotdot pad : Z).
  Context (devsw : UserMem kmem → Z → devops (F := F) (U := kmem)).

Abbreviation YM := (M (sys F)).

Definition sys_exit : YM Z :=
  n <- argint 0 ;;
  kexit me kend n ;;
  ret 0.

Definition sys_getpid : YM Z := gets (λ s, p_pid (cur s)).

Definition sys_fork : YM Z := kfork me kend trampoline forkret.

Definition sys_wait : YM Z :=
  p <- argaddr 0 ;;
  kwait me kend p.

Definition sys_sbrk : YM Z :=
  n <- argint 0 ;;
  t <- argint 1 ;;
  s <- get ;;
  let addr := p_sz (cur s) in
  if (t =? SBRK_EAGER) || (n <? 0) then
    r <- growproc me kend n ;;
    if r <? 0 then ret (-1) else ret addr
  else
    if u64 (addr + n) <? addr then ret (-1)
    else
      upd_cur (λ x, set_p_sz (u64 (p_sz x + n)) x) ;;
      ret addr.

(** One turn of the loop of [sys_pause], with [tickslock] held; a process that
    sleeps here goes on with [pause_resume]. *)
Definition pause_turn (ticks0 n : Z) : YM Z :=
  s <- get ;;
  if u32 (y_ticks s - ticks0) <? n then
    k <- pt_ (killed me (cpu_proc (y_pt s))) ;;
    if negb (k =? 0) then
      zoom tickslockL (release_lk me) ;;
      ret (-1)
    else sleep_on tickslockL me ticks_chan
  else
    zoom tickslockL (release_lk me) ;;
    ret 0.

Definition pause_resume (ticks0 n : Z) : YM Z :=
  zoom tickslockL (acquire_lk me) ;;
  pause_turn ticks0 n.

Definition sys_pause : YM Z :=
  n <- argint 0 ;;
  let n := if n <? 0 then 0 else n in
  zoom tickslockL (acquire_lk me) ;;
  ticks0 <- gets y_ticks ;;
  pause_turn ticks0 n.

Definition sys_kill : YM Z :=
  pid <- argint 0 ;;
  pt_ (kkill me pid).

Definition sys_uptime : YM Z :=
  zoom tickslockL (acquire_lk me) ;;
  xticks <- gets y_ticks ;;
  zoom tickslockL (release_lk me) ;;
  ret xticks.

(** The array [syscalls] of syscall.c. *)
Definition syscalls (num : Z) : option (YM Z) :=
  if num =? SYS_fork then Some sys_fork
  else if num =? SYS_exit then Some sys_exit
  else if num =? SYS_wait then Some sys_wait
  else if num =? SYS_pipe then Some (sys_pipe me kend)
  else if num =? SYS_read then Some (sys_read me kend devsw)
  else if num =? SYS_kill then Some sys_kill
  else if num =? SYS_exec then Some (sys_exec me kend trampoline de namebuf elf ph path)
  else if num =? SYS_fstat then Some (sys_fstat me kend pad)
  else if num =? SYS_chdir then Some (sys_chdir me kend de namebuf path)
  else if num =? SYS_dup then Some (sys_dup me)
  else if num =? SYS_getpid then Some sys_getpid
  else if num =? SYS_sbrk then Some sys_sbrk
  else if num =? SYS_pause then Some sys_pause
  else if num =? SYS_uptime then Some sys_uptime
  else if num =? SYS_open then Some (sys_open me kend de namebuf path name dot dotdot)
  else if num =? SYS_write then Some (sys_write me kend devsw)
  else if num =? SYS_mknod then Some (sys_mknod me kend de path name dot dotdot)
  else if num =? SYS_unlink then Some (sys_unlink me kend de path name de2 dot dotdot)
  else if num =? SYS_link then Some (sys_link me kend de namebuf path new name)
  else if num =? SYS_mkdir then Some (sys_mkdir me kend de path name dot dotdot)
  else if num =? SYS_close then Some (sys_close me kend)
  else None.
End sysproc.
