(* ===== verification/Trap.v ===== *)
(** kernel/trap.c: traps from user space and from the kernel, the clock; the
    first return to user space of kernel/proc.c.

    The state is the kernel's and the control registers of the hart.  The
    interrupt-enable bit of [sstatus] is the boolean of the process table's
    [struct cpu]; the trap registers are in [t_csr].  The device handlers
    ([plic_claim], [plic_complete], [uartintr], [virtio_disk_intr]; Plic.v,
    Console.v and Virtio.v) are parameters, as are the addresses of code.  A
    trap that yields the CPU goes on with [usertrap_resume] or
    [kerneltrap_resume] when the process runs again. *)

From stdpp Require Import base tactics list numbers strings gmap.
From S2P Require Import Prelude Param Bytes CString Spinlock Csr Sleeplock TxSpec UserSpec Vm VmTree VmMap VmUser Fs Pipe File Kalloc Proc Syscall ProcMem Exec Sysfile Sysproc.
From Stdlib Require Import ZArith Lia.

Open Scope kernel_scope.

Record tst (F : Type) := mktst { t_sys : sys F; t_csr : csrs }.
Arguments mktst {F} _ _.
Arguments t_sys {F} _.
Arguments t_csr {F} _.

Section trap.
  Context {F H : Type} `{TX : Txn F H}.
  Context (me kend : Z) (trampoline uservec usertrap_ kernelvec : Z).
  Context (handlers : Z → option (M (sys F) Z)).

Abbreviation TM := (M (tst F)).

Definition sysL : lens (tst F) (sys F) := Lens t_sys (λ y s, mktst y (t_csr s)).
Definition csrL : lens (tst F) csrs := Lens t_csr (λ c s, mktst (t_sys s) c).

Definition y_ {A} (m : M (sys F) A) : TM A := zoom sysL m.
Definition c_ {A} (m : M csrs A) : TM A := zoom csrL m.
Definition ptm {A} (m : M ptable A) : TM A := zoom sysL (pt_ m).

Context (plic_claim : TM Z) (plic_complete : Z → TM unit) (uartintr virtio_disk_intr : TM unit).

Definition trapinit : TM unit := y_ (modify (upd tickslockL (initlock "time"))).

Definition trapinithart : TM unit := c_ (w_stvec kernelvec).

(** [ticks] is a [uint]. *)
Definition clockintr : TM unit :=
  (if me =? 0 then
     y_ (zoom tickslockL (acquire_lk me)) ;;
     y_ (modify (λ s, mksys (y_pt s) (y_k s) (y_tickslock s) (u32 (y_ticks s + 1)))) ;;
     ptm (Proc.wakeup me ticks_chan) ;;
     y_ (zoom tickslockL (release_lk me))
   else ret tt) ;;
  t <- c_ r_time ;;
  c_ (w_stimecmp (t + 1000000)).

Definition devintr : TM Z :=
  scause <- c_ r_scause ;;
  if scause =? 9223372036854775817 then
    irq <- plic_claim ;;
    (if irq =? UART0_IRQ then uartintr
     else if irq =? VIRTIO0_IRQ then virtio_disk_intr
     else ret tt) ;;
    (if negb (irq =? 0) then plic_complete irq else ret tt) ;;
    ret 1
  else if scause =? 9223372036854775813 then clockintr ;; ret 2
  else ret 0.

Definition prepare_return : TM unit :=
  ptm (zoom pcpuL intr_off) ;;
  c_ (w_stvec (TRAMPOLINE + (uservec - trampoline))) ;;
  satp <- c_ r_satp ;;
  y_ (tf_set TF_kernel_satp satp) ;;
  s <- get ;;
  y_ (tf_set TF_kernel_sp (p_kstack (cur (t_sys s)) + PGSIZE)) ;;
  y_ (tf_set TF_kernel_trap usertrap_) ;;
  tp <- c_ r_tp ;;
  y_ (tf_set TF_kernel_hartid tp) ;;
  x <- c_ r_sstatus ;;
  c_ (w_sstatus (Z.lor (Z.land x (Z.lnot SSTATUS_SPP)) SSTATUS_SPIE)) ;;
  s <- get ;;
  c_ (w_sepc (tf_get (t_sys s) TF_epc)).

(** The return to user space: the value for [satp]. *)
Definition user_return : TM Z :=
  prepare_return ;;
  s <- get ;;
  ret (MAKE_SATP (p_pagetable (cur (t_sys s)))).

(** The cause of a trap from user space: [which_dev]. *)
Definition usertrap_cause (p : Z) : TM Z :=
  scause <- c_ r_scause ;;
  if scause =? 8 then
    k <- ptm (killed me p) ;;
    (if negb (k =? 0) then y_ (kexit me kend (-1)) else ret tt) ;;
    s <- get ;;
    y_ (tf_set TF_epc (u64 (tf_get (t_sys s) TF_epc + 4))) ;;
    ptm (zoom pcpuL intr_on) ;;
    y_ (syscall handlers) ;;
    ret 0
  else
    which_dev <- devintr ;;
    if negb (which_dev =? 0) then ret which_dev
    else
      stval <- c_ r_stval ;;
      s <- get ;;
      let x := cur (t_sys s) in
      r <- (if (scause =? 15) || (scause =? 13)
            then y_ (vm_ (vmfault me kend (p_sz x) (p_pagetable x) (p_pagetable x) stval (if scause =? 13 then 1 else 0)))
            else ret 0) ;;
      (if r =? 0 then ptm (setkilled me p) else ret tt) ;;
      ret 0.

Definition usertrap : TM Z :=
  sstatus <- c_ r_sstatus ;;
  if negb (Z.land sstatus SSTATUS_SPP =? 0) then panic "usertrap: not from user mode"
  else
    c_ (w_stvec kernelvec) ;;
    p <- ptm myproc ;;
    sepc <- c_ r_sepc ;;
    y_ (tf_set TF_epc sepc) ;;
    which_dev <- usertrap_cause p ;;
    k <- ptm (killed me p) ;;
    (if negb (k =? 0) then y_ (kexit me kend (-1)) else ret tt) ;;
    (if which_dev =? 2 then ptm (yield me) else ret tt) ;;
    user_return.

Definition usertrap_resume : TM Z :=
  ptm (yield_resume me) ;;
  user_return.

Definition kerneltrap : TM unit :=
  sepc <- c_ r_sepc ;;
  sstatus <- c_ r_sstatus ;;
  if Z.land sstatus SSTATUS_SPP =? 0 then panic "kerneltrap: not from supervisor mode"
  else
    s <- get ;;
    if negb (intr_get (pcpu (y_pt (t_sys s))) =? 0) then panic "kerneltrap: interrupts enabled"
    else
      which_dev <- devintr ;;
      if which_dev =? 0 then panic "kerneltrap"
      else
        p <- ptm myproc ;;
        (if (which_dev =? 2) && negb (p =? 0) then ptm (yield me) else ret tt) ;;
        c_ (w_sepc sepc) ;;
        c_ (w_sstatus sstatus).

(** [sepc] and [sstatus] are local variables of [kerneltrap]. *)
Definition kerneltrap_resume (sepc sstatus : Z) : TM unit :=
  ptm (yield_resume me) ;;
  c_ (w_sepc sepc) ;;
  c_ (w_sstatus sstatus).

(** ** proc.c: the first return of a new process

    [first] is the static variable of [forkret]; the result is its new value and
    the value for [satp].  [init] is the address of the string "/init". *)
Definition forkret (de namebuf elf ph init first : Z) : TM (Z * Z) :=
  p <- ptm myproc ;;
  ptm (rel me (plockL p)) ;;
  (if negb (first =? 0) then
     s <- get ;;
     y_ (fs_ me kend (λ _, fsinit me (p_pid (cur (t_sys s))) ROOTDEV)) ;;
     r <- y_ (kexec me kend trampoline de namebuf elf ph init [init]) ;;
     y_ (tf_set TF_a0 (u64 r)) ;;
     s <- get ;;
     if tf_get (t_sys s) TF_a0 =? u64 (-1) then panic "exec" else ret tt
   else ret tt) ;;
  satp <- user_return ;;
  ret (0, satp).
End trap.
