(* ===== verification/Plic.v ===== *)
(** kernel/plic.c: the interrupt controller, and memory-mapped registers.

    [Mmio] is what the drivers use of a device: loads and stores of its
    registers, which may have any effect on the device's state [D]. *)

From stdpp Require Import base tactics numbers.
From S2P Require Import Prelude Param.
From Stdlib Require Import ZArith Lia.

Open Scope kernel_scope.

Class Mmio (D : Type) := {
  mm_read8 : Z → M D Z;
  mm_write8 : Z → Z → M D unit;
  mm_read32 : Z → M D Z;
  mm_write32 : Z → Z → M D unit;
}.

Definition PLIC_SENABLE (hart : Z) : Z := PLIC + 8320 + hart * 256.
Definition PLIC_SPRIORITY (hart : Z) : Z := PLIC + 2101248 + hart * 8192.
Definition PLIC_SCLAIM (hart : Z) : Z := PLIC + 2101252 + hart * 8192.

Section plic.
  Context {D : Type} `{Mmio D}.
  Context (hart : Z).

Definition plicinit : M D unit :=
  mm_write32 (PLIC + UART0_IRQ * 4) 1 ;;
  mm_write32 (PLIC + VIRTIO0_IRQ * 4) 1.

Definition plicinithart : M D unit :=
  mm_write32 (PLIC_SENABLE hart) (Z.lor (Z.shiftl 1 UART0_IRQ) (Z.shiftl 1 VIRTIO0_IRQ)) ;;
  mm_write32 (PLIC_SPRIORITY hart) 0.

Definition plic_claim : M D Z :=
  irq <- mm_read32 (PLIC_SCLAIM hart) ;;
  ret (s32 irq).

Definition plic_complete (irq : Z) : M D unit := mm_write32 (PLIC_SCLAIM hart) (u32 irq).
End plic.
