(* ===== verification/Printf.v ===== *)
(** kernel/printf.c: formatted output.

    [printint], [printptr] and the loop of [printf] are modelled by the characters
    they pass to [consputc], in order; Console.v has [printf] itself, with its
    lock and its output.  The variable arguments are a list of words and of
    strings.  The theorems: a printed number reads back as the number, and the
    local buffer of [printint] is large enough for every number. *)

From stdpp Require Import base tactics list numbers.
From S2P Require Import Prelude Param Bytes.
From Stdlib Require Import ZArith Lia.

(** The string constant [digits]: "0123456789abcdef". *)
Definition digits (d : Z) : Z := if d <? 10 then 48 + d else 87 + d.

(** [do { buf\[i++\] = digits\[x % base\]; } while((x /= base) != 0)] *)
Fixpoint put_digits (fuel : nat) (x base : Z) : list Z :=
  match fuel with
  | O => []
  | S fuel' => digits (x mod base) :: (if x / base =? 0 then [] else put_digits fuel' (x / base) base)
  end.

(** Bits bound the number of digits. *)
Definition digit_fuel : nat := 64.

(** The contents of [buf] before the loop that prints it backwards. *)
Definition printint_buf (xx base sign : Z) : list Z :=
  let neg := negb (sign =? 0) && (xx <? 0) in
  let x := u64 (if neg then - xx else xx) in
  put_digits digit_fuel x base ++ (if neg then [45] else []).

Definition printint (xx base sign : Z) : list Z := rev (printint_buf xx base sign).

(** [for(i = 0; i < 16; i++, x <<= 4) consputc(digits\[x >> 60\])] *)
Fixpoint printptr_loop (n : nat) (x : Z) : list Z :=
  match n with
  | O => []
  | S n' => digits (Z.shiftr x 60) :: printptr_loop n' (u64 (Z.shiftl x 4))
  end.

Definition printptr (x : Z) : list Z := [48; 120] ++ printptr_loop 16 x.

(** A variable argument: a word, or a pointer to a string. *)
Inductive varg := Word (x : Z) | Str (s : list Z).

Definition va_word (ap : list varg) : Z := match ap with Word x :: _ => x | _ => 0 end.
(** A null pointer prints as "(null)". *)
Definition va_str (ap : list varg) : list Z :=
  match ap with Str s :: _ => s | _ => [40; 110; 117; 108; 108; 41] end.

(** The character at the head of the rest of the format, 0 at its end. *)
Definition chr (fmt : list Z) : Z := match fmt with c :: _ => c | [] => 0 end.

(** One directive, after the percent sign: what is printed, how many characters
    of the format it took and how many arguments; [None] at the end of the
    format. *)
Definition directive (c0 c1 c2 : Z) (ap : list varg) : option (list Z * nat * nat) :=
  let w := va_word ap in
  if c0 =? 100 then Some (printint (s32 w) 10 1, 1%nat, 1%nat)
  else if (c0 =? 108) && (c1 =? 100) then Some (printint (s64 w) 10 1, 2%nat, 1%nat)
  else if (c0 =? 108) && (c1 =? 108) && (c2 =? 100) then Some (printint (s64 w) 10 1, 3%nat, 1%nat)
  else if c0 =? 117 then Some (printint (u32 w) 10 0, 1%nat, 1%nat)
  else if (c0 =? 108) && (c1 =? 117) then Some (printint (s64 w) 10 0, 2%nat, 1%nat)
  else if (c0 =? 108) && (c1 =? 108) && (c2 =? 117) then Some (printint (s64 w) 10 0, 3%nat, 1%nat)
  else if c0 =? 120 then Some (printint (u32 w) 16 0, 1%nat, 1%nat)
  else if (c0 =? 108) && (c1 =? 120) then Some (printint (s64 w) 16 0, 2%nat, 1%nat)
  else if (c0 =? 108) && (c1 =? 108) && (c2 =? 120) then Some (printint (s64 w) 16 0, 3%nat, 1%nat)
  else if c0 =? 112 then Some (printptr (u64 w), 1%nat, 1%nat)
  else if c0 =? 99 then Some ([w], 1%nat, 1%nat)
  else if c0 =? 115 then Some (va_str ap, 1%nat, 1%nat)
  else if c0 =? 37 then Some ([37], 1%nat, 0%nat)
  else if c0 =? 0 then None
  else Some ([37; c0], 1%nat, 0%nat).

(** [fmt] without its NUL; a turn takes at least one character. *)
Fixpoint printf_loop (fuel : nat) (fmt : list Z) (ap : list varg) : list Z :=
  match fuel with
  | O => []
  | S fuel' =>
      match fmt with
      | [] => []
      | cx :: fmt' =>
          if negb (cx =? 37) then cx :: printf_loop fuel' fmt' ap
          else
            let c0 := chr fmt' in
            let c1 := if c0 =? 0 then 0 else chr (drop 1 fmt') in
            let c2 := if c1 =? 0 then 0 else chr (drop 2 fmt') in
            match directive c0 c1 c2 ap with
            | None => []
            | Some (out, k, a) => out ++ printf_loop fuel' (drop k fmt') (drop a ap)
            end
      end
  end.

Definition printf_chars (fmt : list Z) (ap : list varg) : list Z := printf_loop (S (length fmt)) fmt ap.

(** * Reading numbers back *)

Definition digit_val (c : Z) : Z := if c <? 58 then c - 48 else c - 87.

Fixpoint read_num (base acc : Z) (s : list Z) : Z :=
  match s with
  | [] => acc
  | c :: s' => read_num base (acc * base + digit_val c) s'
  end.

(** A decimal number with an optional minus sign. *)
Definition read_int (base : Z) (s : list Z) : Z :=
  match s with
  | 45 :: s' => - read_num base 0 s'
  | _ => read_num base 0 s
  end.

Lemma digit_val_digits d : 0 ≤ d < 16 → digit_val (digits d) = d.
Proof. intros Hd. unfold digit_val, digits. destruct (d <? 10) eqn:?; destruct (_ <? 58) eqn:?; lia. Qed.

Lemma read_num_app base s1 s2 acc : read_num base acc (s1 ++ s2) = read_num base (read_num base acc s1) s2.
Proof. revert acc. induction s1 as [|c s1 IH]; intros acc; cbn; [done|]. apply IH. Qed.

Lemma read_put_digits fuel x base :
  2 ≤ base ≤ 16 → 0 ≤ x < base ^ Z.of_nat fuel → (0 < fuel)%nat → read_num base 0 (rev (put_digits fuel x base)) = x.
Proof.
  intros Hb. revert x. induction fuel as [|fuel IH]; intros x Hx Hf; [lia|]. cbn [put_digits].
  pose proof (Z.mod_pos_bound x base ltac:(lia)). pose proof (Z.div_mod x base ltac:(lia)).
  destruct (Z.eqb_spec (x / base) 0) as [E|E].
  - cbn. rewrite digit_val_digits by lia. nia.
  - cbn [rev]. rewrite read_num_app. cbn. rewrite digit_val_digits by lia.
    rewrite IH; [nia| |].
    + rewrite Nat2Z.inj_succ, Z.pow_succ_r in Hx by lia. split; [apply Z.div_pos; lia|]. apply Z.div_lt_upper_bound; lia.
    + destruct fuel; [|lia]. change (Z.of_nat 1) with 1 in Hx. rewrite Z.pow_1_r in Hx. rewrite Z.div_small in E by lia. done.
Qed.

(** The number of digits: [x < base ^ k] needs at most [k]. *)
Lemma length_put_digits fuel k x base :
  2 ≤ base → 0 ≤ x < base ^ Z.of_nat k → (0 < k)%nat → (length (put_digits fuel x base) ≤ k)%nat.
Proof.
  intros Hb. revert k x. induction fuel as [|fuel IH]; intros k x Hx Hk; cbn [put_digits length]; [lia|].
  destruct (Z.eqb_spec (x / base) 0) as [E|E]; cbn; [lia|]. destruct k as [|k]; [lia|].
  assert (k ≠ 0%nat). { intros ->. change (Z.of_nat 1) with 1 in Hx. rewrite Z.pow_1_r in Hx. rewrite Z.div_small in E by lia. done. }
  assert (length (put_digits fuel (x / base) base) ≤ k)%nat; [|lia]. apply IH; [|lia].
  rewrite Nat2Z.inj_succ, Z.pow_succ_r in Hx by lia. split; [apply Z.div_pos; lia|]. apply Z.div_lt_upper_bound; lia.
Qed.

Lemma put_digits_head fuel x base : 2 ≤ base ≤ 16 → 0 ≤ x → Forall (λ c, c ≠ 45) (put_digits fuel x base).
Proof.
  intros Hb. revert x. induction fuel as [|fuel IH]; intros x Hx; cbn [put_digits]; [constructor|].
  pose proof (Z.mod_pos_bound x base ltac:(lia)). constructor.
  - unfold digits. destruct (_ <? 10) eqn:?; lia.
  - destruct (_ =? 0); [constructor|]. apply IH. apply Z.div_pos; lia.
Qed.

(** The value that is printed. *)
Definition print_val (xx sign : Z) : Z := if negb (sign =? 0) then xx else u64 xx.

(** a number that [printint] prints reads back as the number, for every
    64-bit value, in base 10 and 16, signed and unsigned (an unsigned print
    shows the value as an unsigned word). *)
Theorem printint_roundtrip xx base sign :
  -9223372036854775808 ≤ xx < 9223372036854775808 → base = 10 ∨ base = 16 →
  read_int base (printint xx base sign) = print_val xx sign.
Proof.
  intros Hx Hb. unfold printint, printint_buf, print_val. set (neg := negb (sign =? 0) && (xx <? 0)).
  set (x := u64 (if neg then - xx else xx)).
  assert (Hr : read_num base 0 (rev (put_digits digit_fuel x base)) = x).
  { apply read_put_digits; [lia| |unfold digit_fuel; lia]. pose proof (u64_range (if neg then - xx else xx)) as Hu. fold x in Hu.
    unfold digit_fuel. split; [lia|]. destruct Hb as [-> | ->]; eapply Z.lt_trans; [apply Hu|done|apply Hu|done]. }
  destruct neg eqn:En.
  - rewrite rev_app_distr. change (read_int base (rev [45] ++ ?l)) with (- read_num base 0 l). rewrite Hr. apply andb_true_iff in En as [-> En]. unfold x. rewrite u64_id by lia. lia.
  - rewrite app_nil_r. assert (Hh : Forall (λ c, c ≠ 45) (rev (put_digits digit_fuel x base))).
    { apply List.Forall_rev, put_digits_head; [lia|]. apply u64_range. }
    assert (Hri : read_int base (rev (put_digits digit_fuel x base)) = read_num base 0 (rev (put_digits digit_fuel x base))).
    { destruct Hh as [|c s Hc Hs]; [done|]. unfold read_int. repeat case_match; done. }
    rewrite Hri, Hr. unfold x. destruct (sign =? 0) eqn:Es; cbn in *; [done|]. apply u64_id.
    assert (0 ≤ xx) by (unfold neg in En; cbn in En; lia). lia.
Qed.

(** the buffer of [printint], 20 characters, is large enough for every
    64-bit value, in base 10 and 16, with and without a sign. *)
Theorem printint_fits xx base sign :
  -9223372036854775808 ≤ xx < 9223372036854775808 → base = 10 ∨ base = 16 → len (printint_buf xx base sign) ≤ 20.
Proof.
  intros Hx Hb. unfold printint_buf. set (neg := negb (sign =? 0) && (xx <? 0)). set (x := u64 (if neg then - xx else xx)).
  rewrite len_app. unfold len. destruct neg eqn:En; cbn [length].
  - assert (length (put_digits digit_fuel x base) ≤ 19)%nat; [|lia].
    apply andb_true_iff in En as [_ En]. apply length_put_digits; [lia| |lia]. unfold x. rewrite u64_id by lia.
    split; [lia|]. destruct Hb as [-> | ->]; (apply (Z.le_lt_trans _ 9223372036854775808); [lia|done]).
  - assert (length (put_digits digit_fuel x base) ≤ 20)%nat; [|lia]. apply length_put_digits; [lia| |lia].
    pose proof (u64_range (if false then - xx else xx)) as Hu. fold x in Hu. split; [lia|].
    destruct Hb as [-> | ->]; eapply Z.lt_trans; [apply Hu|done|apply Hu|done].
Qed.

Lemma printint_roundtrip_witness : read_int 10 (printint (-42) 10 1) = print_val (-42) 1.
Proof. apply (printint_roundtrip (-42) 10 1); [lia|by left]. Defined.

Lemma printint_fits_witness : len (printint_buf (-9223372036854775808) 10 1) ≤ 20.
Proof. apply (printint_fits (-9223372036854775808) 10 1); [lia|by left]. Defined.
