(* ===== verification/Console.v ===== *)
(** kernel/uart.c, kernel/console.c, kernel/printf.c: the serial line, the
    console and formatted output on it.

    The state is the UART (a device behind [Mmio]), the globals of the two files
    and of printf.c, and the memory file contents are copied from and to.  A
    busy wait on the device is one poll, which [Spin]s when the device is not
    ready.  [procdump] prints a table of
    processes that is an argument: it reads it without locks.

    The theorem: the input buffer with its three wrapping indices is a queue of
    finished input and a line under edit, and [consoleintr] edits that line as
    the comment at the top of the file says. *)

From stdpp Require Import base tactics list numbers strings sets.
From S2P Require Import Prelude Param Bytes Spinlock UserSpec Plic Pipe Proc Printf.
From Stdlib Require Import ZArith Lia Ascii.

Open Scope kernel_scope.

(** * UART registers *)

Definition RHR : Z := 0.
Definition THR : Z := 0.
Definition IER : Z := 1.
Definition IER_RX_ENABLE : Z := Z.shiftl 1 0.
Definition IER_TX_ENABLE : Z := Z.shiftl 1 1.
Definition FCR : Z := 2.
Definition FCR_FIFO_ENABLE : Z := Z.shiftl 1 0.
Definition FCR_FIFO_CLEAR : Z := Z.shiftl 3 1.
Definition ISR : Z := 2.
Definition LCR : Z := 3.
Definition LCR_EIGHT_BITS : Z := Z.shiftl 3 0.
Definition LCR_BAUD_LATCH : Z := Z.shiftl 1 7.
Definition LSR : Z := 5.
Definition LSR_RX_READY : Z := Z.shiftl 1 0.
Definition LSR_TX_IDLE : Z := Z.shiftl 1 5.

Definition INPUT_BUF_SIZE : Z := 128.
Definition BACKSPACE : Z := 256.
(** [C(x)] *)
Definition ctrl (x : Z) : Z := x - 64.
Definition CTRL_P : Z := ctrl 80.
Definition CTRL_U : Z := ctrl 85.
Definition CTRL_H : Z := ctrl 72.
Definition CTRL_D : Z := ctrl 68.
Definition DEL : Z := 127.
Definition NL : Z := 10.
Definition CR : Z := 13.

(** The struct [cons]. *)
Record cons := mkcons {
  cn_lock : spinlock;
  cn_buf : list Z;
  cn_r : Z;
  cn_w : Z;
  cn_e : Z;
}.

Definition set_cn_lock (v : spinlock) (c : cons) : cons := mkcons v (cn_buf c) (cn_r c) (cn_w c) (cn_e c).
Definition set_cn_r (v : Z) (c : cons) : cons := mkcons (cn_lock c) (cn_buf c) v (cn_w c) (cn_e c).
Definition set_cn_w (v : Z) (c : cons) : cons := mkcons (cn_lock c) (cn_buf c) (cn_r c) v (cn_e c).
Definition set_cn_e (v : Z) (c : cons) : cons := mkcons (cn_lock c) (cn_buf c) (cn_r c) (cn_w c) v.
(** [cons.buf\[cons.e++ % INPUT_BUF_SIZE\] = c] *)
Definition push_char (ch : Z) (c : cons) : cons :=
  mkcons (cn_lock c) (zset (cn_buf c) (cn_e c mod INPUT_BUF_SIZE) (u8 ch)) (cn_r c) (cn_w c) (u32 (cn_e c + 1)).
(** [cons.buf\[i % INPUT_BUF_SIZE\]] *)
Definition char_at (c : cons) (i : Z) : Z := znth 0 (cn_buf c) (i mod INPUT_BUF_SIZE).

(** The device, the console, the output lock and flags, the panic flags of
    printf.c, the hart's interrupt state and the memory of the caller. *)
Record con (D U : Type) := mkcon {
  cs_dev : D;
  cs_cons : cons;
  cs_txlock : spinlock;
  cs_txbusy : Z;
  cs_panicking : Z;
  cs_panicked : Z;
  cs_cpu : cpu;
  cs_ku : kustate U;
  cs_prlock : spinlock;
}.
Arguments mkcon {D U} _ _ _ _ _ _ _ _ _.
Arguments cs_dev {D U} _.
Arguments cs_cons {D U} _.
Arguments cs_txlock {D U} _.
Arguments cs_txbusy {D U} _.
Arguments cs_panicking {D U} _.
Arguments cs_panicked {D U} _.
Arguments cs_cpu {D U} _.
Arguments cs_ku {D U} _.
Arguments cs_prlock {D U} _.

Section console.
  Context {D U : Type} `{MM : Mmio D} `{UM : UserMem U}.
  Context (me : Z).

Abbreviation CM := (M (con D U)).

Definition devL : lens (con D U) D := Lens cs_dev (λ v s,
  mkcon v (cs_cons s) (cs_txlock s) (cs_txbusy s) (cs_panicking s) (cs_panicked s) (cs_cpu s) (cs_ku s) (cs_prlock s)).
Definition consL : lens (con D U) cons := Lens cs_cons (λ v s,
  mkcon (cs_dev s) v (cs_txlock s) (cs_txbusy s) (cs_panicking s) (cs_panicked s) (cs_cpu s) (cs_ku s) (cs_prlock s)).
Definition txlockL : lens (con D U) spinlock := Lens cs_txlock (λ v s,
  mkcon (cs_dev s) (cs_cons s) v (cs_txbusy s) (cs_panicking s) (cs_panicked s) (cs_cpu s) (cs_ku s) (cs_prlock s)).
Definition ccpuL : lens (con D U) cpu := Lens cs_cpu (λ v s,
  mkcon (cs_dev s) (cs_cons s) (cs_txlock s) (cs_txbusy s) (cs_panicking s) (cs_panicked s) v (cs_ku s) (cs_prlock s)).
Definition ckuL : lens (con D U) (kustate U) := Lens cs_ku (λ v s,
  mkcon (cs_dev s) (cs_cons s) (cs_txlock s) (cs_txbusy s) (cs_panicking s) (cs_panicked s) (cs_cpu s) v (cs_prlock s)).
Definition prlockL : lens (con D U) spinlock := Lens cs_prlock (λ v s,
  mkcon (cs_dev s) (cs_cons s) (cs_txlock s) (cs_txbusy s) (cs_panicking s) (cs_panicked s) (cs_cpu s) (cs_ku s) v).
Definition clockL : lens (con D U) spinlock :=
  Lens (λ s, cn_lock (cs_cons s)) (λ l s, upd consL (set_cn_lock l (cs_cons s)) s).
Definition set_txbusy (v : Z) : CM unit := modify (λ s,
  mkcon (cs_dev s) (cs_cons s) (cs_txlock s) v (cs_panicking s) (cs_panicked s) (cs_cpu s) (cs_ku s) (cs_prlock s)).
Definition set_panicking (v : Z) : CM unit := modify (λ s,
  mkcon (cs_dev s) (cs_cons s) (cs_txlock s) (cs_txbusy s) v (cs_panicked s) (cs_cpu s) (cs_ku s) (cs_prlock s)).
Definition set_panicked (v : Z) : CM unit := modify (λ s,
  mkcon (cs_dev s) (cs_cons s) (cs_txlock s) (cs_txbusy s) (cs_panicking s) v (cs_cpu s) (cs_ku s) (cs_prlock s)).
Definition upd_cons (f : cons → cons) : CM unit := modify (λ s, upd consL (f (cs_cons s)) s).

Definition tx_chan : Z := 5000.
Definition cons_r_chan : Z := 5001.

(** * uart.c *)

Definition ReadReg (reg : Z) : CM Z := zoom devL (mm_read8 (UART0 + reg)).
Definition WriteReg (reg v : Z) : CM unit := zoom devL (mm_write8 (UART0 + reg) (u8 v)).

Definition uartinit : CM unit :=
  WriteReg IER 0 ;;
  WriteReg LCR LCR_BAUD_LATCH ;;
  WriteReg 0 3 ;;
  WriteReg 1 0 ;;
  WriteReg LCR LCR_EIGHT_BITS ;;
  WriteReg FCR (Z.lor FCR_FIFO_ENABLE FCR_FIFO_CLEAR) ;;
  WriteReg IER (Z.lor IER_TX_ENABLE IER_RX_ENABLE) ;;
  modify (upd txlockL (initlock "uart")).

(** The bytes that are left; a sleeping call goes on with them. *)
Fixpoint uartwrite_loop (buf : list Z) : CM unit :=
  match buf with
  | [] => zoom txlockL (release_lk me)
  | c :: buf' =>
      s <- get ;;
      if negb (cs_txbusy s =? 0) then sleep_on txlockL me tx_chan
      else
        WriteReg THR c ;;
        set_txbusy 1 ;;
        uartwrite_loop buf'
  end.

Definition uartwrite (buf : list Z) : CM unit :=
  zoom txlockL (acquire_lk me) ;;
  uartwrite_loop buf.

Definition uartputc_sync (c : Z) : CM unit :=
  s <- get ;;
  (if cs_panicking s =? 0 then zoom ccpuL push_off else ret tt) ;;
  if negb (cs_panicked s =? 0) then (λ s, Spin s)
  else
    lsr <- ReadReg LSR ;;
    if Z.land lsr LSR_TX_IDLE =? 0 then (λ s, Spin s)
    else
      WriteReg THR c ;;
      if cs_panicking s =? 0 then zoom ccpuL pop_off else ret tt.

Definition uartgetc : CM Z :=
  lsr <- ReadReg LSR ;;
  if negb (Z.land lsr LSR_RX_READY =? 0) then ReadReg RHR else ret (-1).

(** * console.c *)

Definition consputc (c : Z) : CM unit :=
  if c =? BACKSPACE then
    uartputc_sync 8 ;; uartputc_sync 32 ;; uartputc_sync 8
  else uartputc_sync c.

(** * printf.c: output on the console *)

Fixpoint put_chars (cs : list Z) : CM unit :=
  match cs with
  | [] => ret tt
  | c :: cs' => consputc c ;; put_chars cs'
  end.

Definition printf (fmt : list Z) (ap : list varg) : CM Z :=
  s <- get ;;
  (if cs_panicking s =? 0 then zoom prlockL (acquire_lk me) else ret tt) ;;
  put_chars (printf_chars fmt ap) ;;
  s <- get ;;
  (if cs_panicking s =? 0 then zoom prlockL (release_lk me) else ret tt) ;;
  ret 0.

(** "panic: " and "%s\n"; [for(;;)] spins. *)
Definition panic_prefix : list Z := [112; 97; 110; 105; 99; 58; 32].
Definition panic_line : list Z := [37; 115; 10].

Definition kpanic (s : list Z) : CM unit :=
  set_panicking 1 ;;
  printf panic_prefix [] ;;
  printf panic_line [Str s] ;;
  set_panicked 1 ;;
  (λ s, Spin s).

Definition printfinit : CM unit := modify (upd prlockL (initlock "pr")).

(** * console.c: reading and writing *)

(** From byte [i] on; [buf] of the source is the list of bytes copied in. *)
Fixpoint consolewrite_loop (fuel : nat) (user_src src n i : Z) : CM Z :=
  match fuel with
  | O => λ _, OutOfFuel
  | S fuel' =>
      if negb (i <? n) then ret i
      else
        let nn := if n - i <? 32 then n - i else 32 in
        ' (r, bs) <- zoom ckuL (either_copyin user_src (u64 (src + i)) nn) ;;
        if r =? -1 then ret i
        else
          uartwrite bs ;;
          consolewrite_loop fuel' user_src src n (i + nn)
  end.

Definition consolewrite (user_src src n : Z) : CM Z :=
  consolewrite_loop (Z.to_nat (n / 32 + 2)) user_src src n 0.

(** [n] bytes are still wanted of [target]; [cons.lock] is held.  A call that
    waits goes on with the arguments of [Blocked]'s turn. *)
Fixpoint consoleread_loop (fuel : nat) (killed user_dst dst target n : Z) : CM io :=
  match fuel with
  | O => λ _, OutOfFuel
  | S fuel' =>
      if negb (0 <? n) then
        zoom clockL (release_lk me) ;; ret (Done (s32 (target - n)))
      else
        c <- gets cs_cons ;;
        if cn_r c =? cn_w c then
          zoom clockL (release_lk me) ;;
          ret (if negb (killed =? 0) then Done (-1) else Blocked n)
        else
          let ch := char_at c (cn_r c) in
          upd_cons (set_cn_r (u32 (cn_r c + 1))) ;;
          if ch =? CTRL_D then
            (if u32 n <? u32 target then upd_cons (set_cn_r (cn_r c)) else ret tt) ;;
            zoom clockL (release_lk me) ;; ret (Done (s32 (target - n)))
          else
            r <- zoom ckuL (either_copyout user_dst dst [u8 ch]) ;;
            if r =? -1 then
              zoom clockL (release_lk me) ;; ret (Done (s32 (target - n)))
            else if ch =? NL then
              zoom clockL (release_lk me) ;; ret (Done (s32 (target - (n - 1))))
            else consoleread_loop fuel' killed user_dst (u64 (dst + 1)) target (n - 1)
  end.

Definition consoleread (killed user_dst dst n : Z) : CM io :=
  zoom clockL (acquire_lk me) ;;
  consoleread_loop (Z.to_nat n + 1) killed user_dst dst n n.

(** [while(cons.e != cons.w && cons.buf\[(cons.e-1) % ..\] != '\n')]; the buffer
    bounds the number of turns. *)
Fixpoint kill_line (fuel : nat) : CM unit :=
  match fuel with
  | O => λ _, OutOfFuel
  | S fuel' =>
      c <- gets cs_cons ;;
      if negb (cn_e c =? cn_w c) && negb (char_at c (u32 (cn_e c - 1)) =? NL) then
        upd_cons (set_cn_e (u32 (cn_e c - 1))) ;;
        consputc BACKSPACE ;;
        kill_line fuel'
      else ret tt
  end.

(** ** proc.c: the process listing *)

Fixpoint chars (s : string) : list Z :=
  match s with
  | EmptyString => []
  | String a s' => Z.of_N (Ascii.N_of_ascii a) :: chars s'
  end.

Definition states (st : procstate) : string :=
  match st with
  | UNUSED => "unused"
  | USED => "used"
  | SLEEPING => "sleep "
  | RUNNABLE => "runble"
  | RUNNING => "run   "
  | ZOMBIE => "zombie"
  end.

(** A name up to its NUL. *)
Fixpoint until_nul (s : list Z) : list Z :=
  match s with
  | [] => []
  | c :: s' => if c =? 0 then [] else c :: until_nul s'
  end.

Fixpoint procdump_loop (procs : list proc) : CM unit :=
  match procs with
  | [] => ret tt
  | p :: procs' =>
      (if decide (p_state p = UNUSED) then ret tt
       else
         printf (chars "%d %s %s") [Word (p_pid p); Str (chars (states (p_state p))); Str (until_nul (p_name p))] ;;
         printf [NL] [] ;;
         ret tt) ;;
      procdump_loop procs'
  end.

Context (procs : list proc).

Definition procdump : CM unit :=
  printf [NL] [] ;;
  procdump_loop procs.

(** The switch of [consoleintr]. *)
Definition intr_body (c : Z) : CM unit :=
  if c =? CTRL_P then procdump
  else if c =? CTRL_U then kill_line (Z.to_nat INPUT_BUF_SIZE + 1)
  else if (c =? CTRL_H) || (c =? DEL) then
    k <- gets cs_cons ;;
    if negb (cn_e k =? cn_w k) then
      upd_cons (set_cn_e (u32 (cn_e k - 1))) ;;
      consputc BACKSPACE
    else ret tt
  else
    k <- gets cs_cons ;;
    if negb (c =? 0) && (u32 (cn_e k - cn_r k) <? INPUT_BUF_SIZE) then
      let c := if c =? CR then NL else c in
      consputc c ;;
      upd_cons (push_char c) ;;
      k <- gets cs_cons ;;
      if (c =? NL) || (c =? CTRL_D) || (u32 (cn_e k - cn_r k) =? INPUT_BUF_SIZE) then
        upd_cons (set_cn_w (cn_e k)) ;;
        Spinlock.wakeup cons_r_chan
      else ret tt
    else ret tt.

Definition consoleintr (c : Z) : CM unit :=
  zoom clockL (acquire_lk me) ;;
  intr_body c ;;
  zoom clockL (release_lk me).

Definition consoleinit : CM unit :=
  modify (upd clockL (initlock "cons")) ;;
  uartinit.

(** The characters waiting in the UART; a turn takes one. *)
Fixpoint uart_input (fuel : nat) : CM unit :=
  match fuel with
  | O => λ _, OutOfFuel
  | S fuel' =>
      c <- uartgetc ;;
      if c =? -1 then ret tt
      else consoleintr c ;; uart_input fuel'
  end.

Definition uartintr (fuel : nat) : CM unit :=
  ReadReg ISR ;;
  zoom txlockL (acquire_lk me) ;;
  lsr <- ReadReg LSR ;;
  (if negb (Z.land lsr LSR_TX_IDLE =? 0) then
     set_txbusy 0 ;;
     Spinlock.wakeup tx_chan
   else ret tt) ;;
  zoom txlockL (release_lk me) ;;
  uart_input fuel.
End console.

(** * The line discipline *)

(** The finished input [q] and the line under edit [l]. *)
Record cons_rep (c : cons) (q l : list Z) : Prop := {
  cr_len : len (cn_buf c) = 128;
  cr_r : 0 ≤ cn_r c < 4294967296;
  cr_w : cn_w c = u32 (cn_r c + len q);
  cr_e : cn_e c = u32 (cn_r c + len q + len l);
  cr_room : len q + len l ≤ 128;
  cr_data : ∀ i, 0 ≤ i < len q + len l → char_at c (cn_r c + i) = znth 0 (q ++ l) i;
  cr_line : NL ∉ l;
}.

(** What a character does. *)
Definition edit (c : Z) (q l : list Z) : list Z * list Z :=
  if c =? CTRL_U then (q, [])
  else if (c =? CTRL_H) || (c =? DEL) then (q, removelast l)
  else if negb (c =? 0) && (len q + len l <? INPUT_BUF_SIZE) then
    let c := if c =? CR then NL else c in
    if (c =? NL) || (c =? CTRL_D) || (len q + len l + 1 =? INPUT_BUF_SIZE) then (q ++ l ++ [c], []) else (q, l ++ [c])
  else (q, l).

Lemma u32_mod_128 x : u32 x mod 128 = x mod 128.
Proof. unfold u32. dlia. Qed.

Lemma char_at_u32 c x : char_at c (u32 x) = char_at c x.
Proof. unfold char_at, INPUT_BUF_SIZE. by rewrite u32_mod_128. Qed.

(** The indices, as the code compares them. *)
Lemma rep_line c q l : cons_rep c q l → (cn_e c =? cn_w c) = (len l =? 0).
Proof.
  intros [H1 H2 H3 H4 H5 H6 H7]. rewrite H3, H4. pose proof (len_nonneg q). pose proof (len_nonneg l). unfold u32.
  destruct (Z.eqb_spec (len l) 0) as [->|]; [apply Z.eqb_eq; f_equal; lia|apply Z.eqb_neq; dlia].
Qed.

Lemma rep_count c q l : cons_rep c q l → u32 (cn_e c - cn_r c) = len q + len l.
Proof.
  intros [H1 H2 H3 H4 H5 H6 H7]. rewrite H4. pose proof (len_nonneg q). pose proof (len_nonneg l). unfold u32. dlia.
Qed.

(** Taking back the last character. *)
Lemma rep_unpush c q l x : cons_rep c q (l ++ [x]) → cons_rep (set_cn_e (u32 (cn_e c - 1)) c) q l ∧ char_at c (u32 (cn_e c - 1)) = x.
Proof.
  intros [H1 H2 H3 H4 H5 H6 H7]. rewrite len_snoc in *. pose proof (len_nonneg q). pose proof (len_nonneg l). split.
  - constructor; cbn [set_cn_e cn_buf cn_r cn_w cn_e]; try done; [rewrite H4; unfold u32; dlia|lia| |set_solver].
    intros i Hi. change (char_at (set_cn_e (u32 (cn_e c - 1)) c) (cn_r c + i)) with (char_at c (cn_r c + i)).
    rewrite H6 by lia. rewrite app_assoc. apply znth_app_l. rewrite len_app. lia.
  - replace (u32 (cn_e c - 1)) with (u32 (cn_r c + (len q + len l))) by (rewrite H4; unfold u32; dlia).
    rewrite char_at_u32, H6 by lia. rewrite app_assoc, znth_app_r by (rewrite len_app; lia). rewrite len_app. by rewrite Z.sub_diag.
Qed.

(** Storing a character after the line. *)
Lemma rep_push c q l x :
  cons_rep c q l → len q + len l < 128 → 0 ≤ x < 256 →
  (x ≠ NL → cons_rep (push_char x c) q (l ++ [x])) ∧
  cons_rep (set_cn_w (cn_e (push_char x c)) (push_char x c)) (q ++ l ++ [x]) [].
Proof.
  intros [H1 H2 H3 H4 H5 H6 H7] Hr Hx. pose proof (len_nonneg q). pose proof (len_nonneg l).
  assert (He : u32 (cn_e c + 1) = u32 (cn_r c + (len q + len l + 1))) by (rewrite H4; unfold u32; dlia).
  assert (Hd : ∀ i, 0 ≤ i < len q + len l + 1 → char_at (push_char x c) (cn_r c + i) = znth 0 (q ++ l ++ [x]) i).
  { intros i Hi. unfold char_at, push_char, INPUT_BUF_SIZE. cbn [cn_buf]. rewrite H4, u32_mod_128.
    pose proof (Z.mod_pos_bound (cn_r c + len q + len l) 128 ltac:(lia)). rewrite u8_byte by lia. rewrite znth_zset by lia.
    rewrite app_assoc. destruct (decide (i = len q + len l)) as [->|Hne].
    - rewrite decide_True by (f_equal; lia). rewrite znth_app_r by (rewrite len_app; lia). rewrite len_app. by rewrite Z.sub_diag.
    - rewrite decide_False by dlia. rewrite znth_app_l by (rewrite len_app; lia). rewrite <-H6 by lia. done. }
  split.
  - intros Hnl. constructor; cbn [push_char cn_buf cn_r cn_w cn_e]; rewrite ?len_snoc; try done.
    + by rewrite len_zset.
    + rewrite He. f_equal. lia.
    + lia.
    + intros i Hi. apply Hd. lia.
    + rewrite elem_of_app, list_elem_of_singleton. intros [|]; [done|congruence].
  - constructor; cbn [push_char set_cn_w cn_buf cn_r cn_w cn_e]; rewrite ?len_app, ?len_snoc; try done.
    + by rewrite len_zset.
    + rewrite He. f_equal. unfold len. cbn. lia.
    + rewrite He. f_equal. unfold len. cbn. lia.
    + unfold len in *. cbn. lia.
    + intros i Hi. rewrite app_nil_r. unfold len in Hi at 4. cbn in Hi. apply Hd. unfold len in *. cbn in *. lia.
    + set_solver.
Qed.

Section intr.
  Context {D U : Type} `{MM : Mmio D} `{UM : UserMem U}.
  Context (me : Z) (procs : list proc).

(** What the driver relies on: the transmitter becomes idle (a poll of LSR says
    so) and takes a character. *)
Context (dev_ok : D → Prop).
Context (Hlsr : ∀ d, dev_ok d → ∃ v d', mm_read8 (UART0 + LSR) d = Ok v d' ∧ dev_ok d' ∧ Z.land v LSR_TX_IDLE ≠ 0).
Context (Hthr : ∀ d v, dev_ok d → ∃ d', mm_write8 (UART0 + THR) v d = Ok tt d' ∧ dev_ok d').

(** The device works and the kernel has not panicked. *)
Record env_ok (s : con D U) : Prop := {
  eo_dev : dev_ok (cs_dev s);
  eo_panicked : cs_panicked s = 0;
  eo_cpu : cpu_ok (cs_cpu s);
}.

(** Only the device and the interrupt state may differ. *)
Record echoes (s s' : con D U) : Prop := {
  ec_cons : cs_cons s' = cs_cons s;
  ec_txlock : cs_txlock s' = cs_txlock s;
  ec_txbusy : cs_txbusy s' = cs_txbusy s;
  ec_panicking : cs_panicking s' = cs_panicking s;
  ec_ku : cs_ku s' = cs_ku s;
  ec_prlock : cs_prlock s' = cs_prlock s;
  ec_cpu : cpu_same (cs_cpu s) (cs_cpu s');
}.

Lemma uartputc_ok c s : env_ok s → ∃ s', uartputc_sync c s = Ok tt s' ∧ env_ok s' ∧ echoes s s'.
Proof.
  intros [E1 E2 E3]. destruct s as [d cn tl tb pg pk cp ku]. cbn in E1, E2, E3. subst pk.
  destruct (Hlsr d E1) as (v & d1 & R1 & D1 & Hv). destruct (Hthr d1 (u8 c) D1) as (d2 & W2 & D2).
  destruct (cpu_ok_pushed cp E3) as (P1 & P2 & P3).
  unfold uartputc_sync. rewrite bind_get. cbn [cs_panicking cs_panicked].
  destruct (pg =? 0) eqn:Epg; cbn [negb Z.eqb].
  - erewrite bind_ok; [|unfold zoom; cbn [view ccpuL cs_cpu]; rewrite SMP.push_off_ok; reflexivity].
    fold (pushed cp). erewrite bind_ok; [|unfold ReadReg, zoom; cbn [view devL upd ccpuL cs_dev]; rewrite R1; reflexivity].
    destruct (Z.eqb_spec (Z.land v LSR_TX_IDLE) 0); [done|].
    erewrite bind_ok; [|unfold WriteReg, zoom; cbn [view devL upd ccpuL cs_dev]; rewrite W2; reflexivity].
    unfold zoom. cbn [view devL upd ccpuL cs_dev cs_cpu]. rewrite SMP.pop_off_ok by done. fold (popped (pushed cp)).
    eexists. split; [reflexivity|]. split; constructor; try done; [|by apply popped_pushed]. eapply cpu_same_ok; [by apply popped_pushed|done].
  - rewrite bind_ret. erewrite bind_ok; [|unfold ReadReg, zoom; cbn [view devL upd cs_dev]; rewrite R1; reflexivity].
    destruct (Z.eqb_spec (Z.land v LSR_TX_IDLE) 0); [done|].
    erewrite bind_ok; [|unfold WriteReg, zoom; cbn [view devL upd cs_dev]; rewrite W2; reflexivity].
    eexists. split; [reflexivity|]. by split; constructor.
Qed.

Lemma echoes_trans s1 s2 s3 : echoes s1 s2 → echoes s2 s3 → echoes s1 s3.
Proof. intros [] []. constructor; [congruence..|by eapply cpu_same_trans]. Qed.

Lemma consputc_ok c s : env_ok s → ∃ s', consputc c s = Ok tt s' ∧ env_ok s' ∧ echoes s s'.
Proof.
  intros E. unfold consputc. destruct (c =? BACKSPACE); [|by apply uartputc_ok].
  destruct (uartputc_ok 8 s E) as (s1 & R1 & E1 & H1). destruct (uartputc_ok 32 s1 E1) as (s2 & R2 & E2 & H2).
  destruct (uartputc_ok 8 s2 E2) as (s3 & R3 & E3 & H3). exists s3.
  rewrite (bind_ok _ _ _ _ _ R1), (bind_ok _ _ _ _ _ R2), R3. split_and!; [done|done|]. eauto using echoes_trans.
Qed.

Lemma put_chars_ok cs s : env_ok s → ∃ s', put_chars cs s = Ok tt s' ∧ env_ok s' ∧ echoes s s'.
Proof.
  revert s. induction cs as [|c cs IH]; intros s E; [by exists s|]. destruct (consputc_ok c s E) as (s1 & R1 & E1 & H1).
  destruct (IH s1 E1) as (s2 & R2 & E2 & H2). exists s2. cbn [put_chars]. rewrite (bind_ok _ _ _ _ _ R1). split_and!; [done|done|by eapply echoes_trans].
Qed.

(** [printf] takes its lock and gives it back. *)
Lemma printf_ok fmt ap s : env_ok s → unlocked (cs_prlock s) → ∃ s', printf me fmt ap s = Ok 0 s' ∧ env_ok s' ∧ echoes s s'.
Proof.
  intros E Hl. unfold printf. rewrite bind_get. destruct (cs_panicking s =? 0) eqn:Hp.
  - rewrite (bind_ok _ _ _ _ _ (zoom_ok prlockL _ s _ _ (acquire_lk_ok me _ Hl))). cbn [view prlockL].
    destruct (put_chars_ok (printf_chars fmt ap) (upd prlockL (mkspinlock 1 (lk_name (cs_prlock s)) (Some me)) s)) as (s2 & R2 & E2 & H2);
      [by destruct E; constructor|]. rewrite (bind_ok _ _ _ _ _ R2), bind_get.
    assert ((cs_panicking s2 =? 0) = true) as -> by (by rewrite (ec_panicking _ _ H2)).
    rewrite (bind_ok _ _ _ tt (upd prlockL (mkspinlock 0 (lk_name (cs_prlock s)) None) s2)) by
      (apply zoom_ok; cbn [view prlockL]; rewrite (ec_prlock _ _ H2); apply release_lk_ok).
    eexists. split; [reflexivity|]. split; [by destruct E2; constructor|].
    destruct H2. constructor; try done. cbn. symmetry. by apply unlocked_eq.
  - rewrite bind_ret. destruct (put_chars_ok (printf_chars fmt ap) s E) as (s2 & R2 & E2 & H2).
    rewrite (bind_ok _ _ _ _ _ R2), bind_get. assert ((cs_panicking s2 =? 0) = false) as -> by (by rewrite (ec_panicking _ _ H2)).
    rewrite bind_ret. by exists s2.
Qed.

Lemma env_ok_cons s f : env_ok s → env_ok (upd consL (f (cs_cons s)) s).
Proof. intros [E1 E2 E3]. by constructor. Qed.

(** [^U] takes back the whole line. *)
Lemma kill_line_ok fuel s q l :
  env_ok s → cons_rep (cs_cons s) q l → (length l < fuel)%nat →
  ∃ s', kill_line fuel s = Ok tt s' ∧ env_ok s' ∧ cons_rep (cs_cons s') q [] ∧ cn_lock (cs_cons s') = cn_lock (cs_cons s).
Proof.
  revert fuel s. induction l as [|x l IH] using rev_ind; intros fuel s E Hr Hf; (destruct fuel as [|fuel]; [cbn in Hf; lia|]);
    cbn [kill_line]; rewrite bind_gets, (rep_line _ _ _ Hr).
  - cbn. by exists s.
  - rewrite len_snoc. pose proof (len_nonneg l). destruct (Z.eqb_spec (len l + 1) 0); [lia|].
    destruct (rep_unpush _ _ _ _ Hr) as [Hr' Hc]. rewrite Hc. destruct (Z.eqb_spec x NL) as [->|Hx].
    { destruct (cr_line _ _ _ Hr). set_solver. }
    cbn [negb andb]. unfold upd_cons. rewrite bind_modify.
    set (s1 := upd consL (set_cn_e (u32 (cn_e (cs_cons s) - 1)) (cs_cons s)) s).
    destruct (consputc_ok BACKSPACE s1) as (s2 & R2 & E2 & [H2 _ _ _ _ _ _]); [by apply env_ok_cons|].
    rewrite (bind_ok _ _ _ _ _ R2). destruct (IH fuel s2) as (s3 & R3 & E3 & Hr3 & Hl3); [done|by rewrite H2| |].
    + rewrite length_app in Hf. cbn in Hf. lia.
    + exists s3. split_and!; [done|done|done|]. by rewrite Hl3, H2.
Qed.

Lemma removelast_snoc {A} (l : list A) x : removelast (l ++ [x]) = l.
Proof. apply removelast_last. Qed.

(** The console with its lock taken. *)
Lemma cons_rep_lock c lk q l : cons_rep c q l → cons_rep (set_cn_lock lk c) q l.
Proof. by intros [H1 H2 H3 H4 H5 H6 H7]. Qed.

Lemma intr_body_ok c s q l :
  c ≠ CTRL_P → 0 ≤ c < 256 → env_ok s → cons_rep (cs_cons s) q l →
  ∃ s', intr_body me procs c s = Ok tt s' ∧ env_ok s' ∧ cons_rep (cs_cons s') (edit c q l).1 (edit c q l).2 ∧
    cn_lock (cs_cons s') = cn_lock (cs_cons s).
Proof.
  intros Hp Hc E Hr. unfold intr_body, edit. destruct (Z.eqb_spec c CTRL_P); [done|].
  destruct (c =? CTRL_U).
  { destruct (kill_line_ok (Z.to_nat INPUT_BUF_SIZE + 1) s q l E Hr) as (s' & R & E' & Hr' & Hl); [|by exists s'].
    pose proof (cr_room _ _ _ Hr). pose proof (len_nonneg q). unfold len, INPUT_BUF_SIZE in *. lia. }
  destruct ((c =? CTRL_H) || (c =? DEL)).
  { rewrite bind_gets, (rep_line _ _ _ Hr). destruct l as [|x l _] using rev_ind; [by exists s|].
    rewrite len_snoc. pose proof (len_nonneg l). destruct (Z.eqb_spec (len l + 1) 0); [lia|]. cbn [negb].
    destruct (rep_unpush _ _ _ _ Hr) as [Hr' _]. unfold upd_cons. rewrite bind_modify.
    destruct (consputc_ok BACKSPACE _ (env_ok_cons s (set_cn_e (u32 (cn_e (cs_cons s) - 1))) E)) as (s2 & R2 & E2 & [H2 _ _ _ _ _ _]).
    exists s2. rewrite removelast_snoc. split_and!; [exact R2|done|by rewrite H2|by rewrite H2]. }
  rewrite bind_gets, (rep_count _ _ _ Hr). destruct (negb (c =? 0) && (len q + len l <? INPUT_BUF_SIZE)) eqn:Hroom; [|by exists s].
  apply andb_true_iff in Hroom as [_ Hroom]. unfold INPUT_BUF_SIZE in *. set (c' := if c =? CR then NL else c).
  assert (Hc' : 0 ≤ c' < 256) by (unfold c', NL; destruct (c =? CR); lia).
  destruct (consputc_ok c' s E) as (s1 & R1 & E1 & [H1 _ _ _ _ _ _]). rewrite (bind_ok _ _ _ _ _ R1). unfold upd_cons.
  rewrite bind_modify, bind_gets. rewrite <-H1 in Hr.
  destruct (rep_push _ _ _ c' Hr ltac:(lia) Hc') as [Hpush Hcommit].
  assert (Hcnt : u32 (cn_e (push_char c' (cs_cons s1)) - cn_r (push_char c' (cs_cons s1))) = len q + len l + 1).
  { pose proof (rep_count _ _ _ Hcommit) as Hn. rewrite !len_app in Hn. unfold len in *. cbn [length] in Hn. cbn [set_cn_w cn_e cn_r] in Hn. lia. }
  change (cs_cons (upd consL (push_char c' (cs_cons s1)) s1)) with (push_char c' (cs_cons s1)). rewrite Hcnt.
  destruct ((c' =? NL) || (c' =? CTRL_D) || (len q + len l + 1 =? 128)) eqn:Hdone.
  - rewrite bind_modify. eexists. split; [reflexivity|]. split_and!; [by do 2 apply (env_ok_cons _ (λ _, _))|exact Hcommit|]. cbn. by rewrite H1.
  - eexists. split; [reflexivity|]. split_and!; [by apply (env_ok_cons _ (λ _, _))| |cbn; by rewrite H1]. apply Hpush.
    destruct (Z.eqb_spec c' NL); [done|done].
Qed.

(** C31: the console edits lines.  A character from the serial line (other than
    [^P]) is appended to the line, erases its last character ([^H] or delete)
    or the whole line ([^U]); a newline, [^D] or a full buffer moves the line to
    the finished input, which no later editing reaches.  A character that does
    not fit is dropped. *)
Theorem consoleintr_spec c s q l :
  c ≠ CTRL_P → 0 ≤ c < 256 → env_ok s → unlocked (cn_lock (cs_cons s)) → cons_rep (cs_cons s) q l →
  ∃ s', consoleintr me procs c s = Ok tt s' ∧ env_ok s' ∧ unlocked (cn_lock (cs_cons s')) ∧
    cons_rep (cs_cons s') (edit c q l).1 (edit c q l).2.
Proof.
  intros Hp Hc E Hu Hr. unfold consoleintr. set (lk1 := mkspinlock 1 (lk_name (cn_lock (cs_cons s))) (Some me)).
  set (s1 := upd clockL lk1 s).
  assert (R1 : zoom clockL (acquire_lk me) s = Ok tt s1).
  { unfold zoom, acquire_lk, holding. destruct Hu as [Hu _]. cbn. by rewrite Hu. }
  rewrite (bind_ok _ _ _ _ _ R1).
  destruct (intr_body_ok c s1 q l Hp Hc) as (s2 & R2 & E2 & Hr2 & Hl2); [by destruct E|by apply cons_rep_lock|].
  rewrite (bind_ok _ _ _ _ _ R2). cbn in Hl2.
  assert (R3 : zoom clockL (release_lk me) s2 = Ok tt (upd clockL (mkspinlock 0 (lk_name lk1) None) s2)).
  { unfold zoom, release_lk, holding. cbn [view clockL]. rewrite Hl2. cbn. by rewrite bool_decide_true. }
  rewrite R3. eexists. split; [done|]. split_and!; [by destruct E2|done|by apply cons_rep_lock].
Qed.
End intr.

(** ** An instance: a UART that is always idle and keeps what it was sent *)

#[local] Instance log_mmio : Mmio (list Z) := {|
  mm_read8 a := ret (if a =? UART0 + LSR then 32 else 0);
  mm_write8 a v := modify (λ d, if a =? UART0 + THR then d ++ [v] else d);
  mm_read32 a := ret 0;
  mm_write32 a v := ret tt;
|}.

Definition dcons : cons := mkcons (initlock "cons") (replicate 128 0) 4294967295 4294967295 4294967295.
Definition dcon : con (list Z) unit := mkcon [] dcons (initlock "uart") 0 0 0 (mkcpu 0 0 true) (mkku (λ _, 0) tt) (initlock "pr").

Lemma consoleintr_spec_witness :
  ∃ s', consoleintr 0 [] 97 dcon = Ok tt s' ∧ env_ok (λ _, True) s' ∧ unlocked (cn_lock (cs_cons s')) ∧
    cons_rep (cs_cons s') (edit 97 [] []).1 (edit 97 [] []).2.
Proof.
  apply (consoleintr_spec 0 [] (λ _, True)).
  - intros d _. by eexists 32, d.
  - intros d v _. by eexists.
  - done.
  - lia.
  - constructor; done.
  - done.
  - constructor; [done|done|done|done|done| |set_solver]. intros i Hi. unfold len in Hi. cbn in Hi. lia.
Defined.
