(* ===== verification/Virtio.v ===== *)
(** kernel/virtio_disk.c, kernel/virtio.h: the disk driver.

    The state has the memory the driver shares with the device (descriptors,
    available ring, used ring, command headers, status bytes) and its own
    book-keeping.  An address in a descriptor is a typed pointer.  A buffer is
    its address; [vb_disk] is its field [disk].

    [virtio_disk_rw] is cut where it waits for the device: [rw_start] up to the
    notification, [rw_finish] after the request has completed.  The theorem:
    over every sequence of requests, completions and ends of requests, the
    descriptors are conserved: chains never overlap, nothing is freed twice and
    no descriptor is lost. *)

From stdpp Require Import base tactics list numbers strings functions relations sets.
From S2P Require Import Prelude Param Bytes Spinlock Plic.
From Stdlib Require Import ZArith Lia.

Open Scope kernel_scope.

(** * virtio.h *)

Definition VIRTIO_MMIO_MAGIC_VALUE : Z := 0.
Definition VIRTIO_MMIO_VERSION : Z := 4.
Definition VIRTIO_MMIO_DEVICE_ID : Z := 8.
Definition VIRTIO_MMIO_VENDOR_ID : Z := 12.
Definition VIRTIO_MMIO_DEVICE_FEATURES : Z := 16.
Definition VIRTIO_MMIO_DRIVER_FEATURES : Z := 32.
Definition VIRTIO_MMIO_QUEUE_SEL : Z := 48.
Definition VIRTIO_MMIO_QUEUE_NUM_MAX : Z := 52.
Definition VIRTIO_MMIO_QUEUE_NUM : Z := 56.
Definition VIRTIO_MMIO_QUEUE_READY : Z := 68.
Definition VIRTIO_MMIO_QUEUE_NOTIFY : Z := 80.
Definition VIRTIO_MMIO_INTERRUPT_STATUS : Z := 96.
Definition VIRTIO_MMIO_INTERRUPT_ACK : Z := 100.
Definition VIRTIO_MMIO_STATUS : Z := 112.
Definition VIRTIO_MMIO_QUEUE_DESC_LOW : Z := 128.
Definition VIRTIO_MMIO_QUEUE_DESC_HIGH : Z := 132.
Definition VIRTIO_MMIO_DRIVER_DESC_LOW : Z := 144.
Definition VIRTIO_MMIO_DRIVER_DESC_HIGH : Z := 148.
Definition VIRTIO_MMIO_DEVICE_DESC_LOW : Z := 160.
Definition VIRTIO_MMIO_DEVICE_DESC_HIGH : Z := 164.

Definition VIRTIO_CONFIG_S_ACKNOWLEDGE : Z := 1.
Definition VIRTIO_CONFIG_S_DRIVER : Z := 2.
Definition VIRTIO_CONFIG_S_DRIVER_OK : Z := 4.
Definition VIRTIO_CONFIG_S_FEATURES_OK : Z := 8.

Definition VIRTIO_BLK_F_RO : Z := 5.
Definition VIRTIO_BLK_F_SCSI : Z := 7.
Definition VIRTIO_BLK_F_CONFIG_WCE : Z := 11.
Definition VIRTIO_BLK_F_MQ : Z := 12.
Definition VIRTIO_F_ANY_LAYOUT : Z := 27.
Definition VIRTIO_RING_F_INDIRECT_DESC : Z := 28.
Definition VIRTIO_RING_F_EVENT_IDX : Z := 29.

Definition NUM : Z := 8.

Definition VRING_DESC_F_NEXT : Z := 1.
Definition VRING_DESC_F_WRITE : Z := 2.
Definition VIRTIO_BLK_T_IN : Z := 0.
Definition VIRTIO_BLK_T_OUT : Z := 1.

(** What a descriptor points to: nothing, the command header of chain [i], the
    data of buffer [b], the status byte of chain [i]. *)
Inductive daddr := ANull | AOps (i : Z) | AData (b : Z) | AStatus (i : Z).

Record virtq_desc := mkdesc { d_addr : daddr; d_len : Z; d_flags : Z; d_next : Z }.
Definition desc0 : virtq_desc := mkdesc ANull 0 0 0.

Record virtio_blk_req := mkreq { q_type : Z; q_reserved : Z; q_sector : Z }.
Definition req0 : virtio_blk_req := mkreq 0 0 0.

(** [struct disk]; the used ring is written by the device.  [dk_writes] lists the
    stores to the device's registers during requests. *)
Record disk := mkdisk {
  dk_desc : list virtq_desc;
  dk_avail_idx : Z;
  dk_avail_ring : list Z;
  dk_used_dev_idx : Z;
  dk_used_ring : list Z;
  dk_free : list Z;
  dk_used_idx : Z;
  dk_info_b : list Z;
  dk_info_status : list Z;
  dk_ops : list virtio_blk_req;
  dk_lock : spinlock;
  vb_disk : Z → Z;
  dk_writes : list (Z * Z);
}.

Definition set_dk_desc (v : list virtq_desc) (d : disk) : disk :=
  mkdisk v (dk_avail_idx d) (dk_avail_ring d) (dk_used_dev_idx d) (dk_used_ring d) (dk_free d) (dk_used_idx d) (dk_info_b d) (dk_info_status d) (dk_ops d) (dk_lock d) (vb_disk d) (dk_writes d).
Definition set_dk_avail_idx (v : Z) (d : disk) : disk :=
  mkdisk (dk_desc d) v (dk_avail_ring d) (dk_used_dev_idx d) (dk_used_ring d) (dk_free d) (dk_used_idx d) (dk_info_b d) (dk_info_status d) (dk_ops d) (dk_lock d) (vb_disk d) (dk_writes d).
Definition set_dk_avail_ring (v : list Z) (d : disk) : disk :=
  mkdisk (dk_desc d) (dk_avail_idx d) v (dk_used_dev_idx d) (dk_used_ring d) (dk_free d) (dk_used_idx d) (dk_info_b d) (dk_info_status d) (dk_ops d) (dk_lock d) (vb_disk d) (dk_writes d).
Definition set_dk_used_dev_idx (v : Z) (d : disk) : disk :=
  mkdisk (dk_desc d) (dk_avail_idx d) (dk_avail_ring d) v (dk_used_ring d) (dk_free d) (dk_used_idx d) (dk_info_b d) (dk_info_status d) (dk_ops d) (dk_lock d) (vb_disk d) (dk_writes d).
Definition set_dk_used_ring (v : list Z) (d : disk) : disk :=
  mkdisk (dk_desc d) (dk_avail_idx d) (dk_avail_ring d) (dk_used_dev_idx d) v (dk_free d) (dk_used_idx d) (dk_info_b d) (dk_info_status d) (dk_ops d) (dk_lock d) (vb_disk d) (dk_writes d).
Definition set_dk_free (v : list Z) (d : disk) : disk :=
  mkdisk (dk_desc d) (dk_avail_idx d) (dk_avail_ring d) (dk_used_dev_idx d) (dk_used_ring d) v (dk_used_idx d) (dk_info_b d) (dk_info_status d) (dk_ops d) (dk_lock d) (vb_disk d) (dk_writes d).
Definition set_dk_used_idx (v : Z) (d : disk) : disk :=
  mkdisk (dk_desc d) (dk_avail_idx d) (dk_avail_ring d) (dk_used_dev_idx d) (dk_used_ring d) (dk_free d) v (dk_info_b d) (dk_info_status d) (dk_ops d) (dk_lock d) (vb_disk d) (dk_writes d).
Definition set_dk_info_b (v : list Z) (d : disk) : disk :=
  mkdisk (dk_desc d) (dk_avail_idx d) (dk_avail_ring d) (dk_used_dev_idx d) (dk_used_ring d) (dk_free d) (dk_used_idx d) v (dk_info_status d) (dk_ops d) (dk_lock d) (vb_disk d) (dk_writes d).
Definition set_dk_info_status (v : list Z) (d : disk) : disk :=
  mkdisk (dk_desc d) (dk_avail_idx d) (dk_avail_ring d) (dk_used_dev_idx d) (dk_used_ring d) (dk_free d) (dk_used_idx d) (dk_info_b d) v (dk_ops d) (dk_lock d) (vb_disk d) (dk_writes d).
Definition set_dk_ops (v : list virtio_blk_req) (d : disk) : disk :=
  mkdisk (dk_desc d) (dk_avail_idx d) (dk_avail_ring d) (dk_used_dev_idx d) (dk_used_ring d) (dk_free d) (dk_used_idx d) (dk_info_b d) (dk_info_status d) v (dk_lock d) (vb_disk d) (dk_writes d).
Definition set_dk_lock (v : spinlock) (d : disk) : disk :=
  mkdisk (dk_desc d) (dk_avail_idx d) (dk_avail_ring d) (dk_used_dev_idx d) (dk_used_ring d) (dk_free d) (dk_used_idx d) (dk_info_b d) (dk_info_status d) (dk_ops d) v (vb_disk d) (dk_writes d).
Definition set_vb_disk (v : Z → Z) (d : disk) : disk :=
  mkdisk (dk_desc d) (dk_avail_idx d) (dk_avail_ring d) (dk_used_dev_idx d) (dk_used_ring d) (dk_free d) (dk_used_idx d) (dk_info_b d) (dk_info_status d) (dk_ops d) (dk_lock d) v (dk_writes d).
Definition set_dk_writes (v : list (Z * Z)) (d : disk) : disk :=
  mkdisk (dk_desc d) (dk_avail_idx d) (dk_avail_ring d) (dk_used_dev_idx d) (dk_used_ring d) (dk_free d) (dk_used_idx d) (dk_info_b d) (dk_info_status d) (dk_ops d) (dk_lock d) (vb_disk d) v.

Section virtio.
  Context (me : Z).

Abbreviation VM := (M disk).

Definition dlockL : lens disk spinlock := Lens dk_lock set_dk_lock.
(** [&disk.free\[0\]] *)
Definition free_chan : Z := 6000.

Definition desc_at (d : disk) (i : Z) : virtq_desc := znth desc0 (dk_desc d) i.
Definition set_desc (i : Z) (x : virtq_desc) : VM unit := modify (λ d, set_dk_desc (zset (dk_desc d) i x) d).

Definition wreg (r v : Z) : VM unit := modify (λ d, set_dk_writes (dk_writes d ++ [(r, v)]) d).

Definition alloc_desc : VM Z :=
  r <- for_up (Z.to_nat NUM) 0 (λ i,
    d <- get ;;
    if negb (znth 0 (dk_free d) i =? 0)
    then modify (λ d, set_dk_free (zset (dk_free d) i 0) d) ;; ret (Stop i)
    else ret Next) ;;
  ret (match r with Some i => i | None => -1 end).

Definition free_desc (i : Z) : VM unit :=
  if NUM <=? i then panic "free_desc 1"
  else
    d <- get ;;
    if negb (znth 0 (dk_free d) i =? 0) then panic "free_desc 2"
    else
      set_desc i desc0 ;;
      modify (λ d, set_dk_free (zset (dk_free d) i 1) d) ;;
      wakeup free_chan.

(** A chain has at most [NUM] descriptors. *)
Fixpoint free_chain (fuel : nat) (i : Z) : VM unit :=
  match fuel with
  | O => λ _, OutOfFuel
  | S fuel' =>
      d <- get ;;
      let flag := d_flags (desc_at d i) in
      let nxt := d_next (desc_at d i) in
      free_desc i ;;
      if negb (Z.land flag VRING_DESC_F_NEXT =? 0) then free_chain fuel' nxt else ret tt
  end.

(** The three descriptors, or [None] with those already taken given back. *)
Definition alloc3_desc : VM (option (Z * Z * Z)) :=
  i0 <- alloc_desc ;;
  if i0 <? 0 then ret None
  else
    i1 <- alloc_desc ;;
    if i1 <? 0 then free_desc i0 ;; ret None
    else
      i2 <- alloc_desc ;;
      if i2 <? 0 then free_desc i0 ;; free_desc i1 ;; ret None
      else ret (Some (i0, i1, i2)).

(** The three descriptors of a request and its registration. *)
Definition rw_format (b blockno write i0 i1 i2 : Z) : VM unit :=
  let sector := u32 (blockno * (BSIZE / 512)) in
  modify (λ d, set_dk_ops (zset (dk_ops d) i0 (mkreq (if negb (write =? 0) then VIRTIO_BLK_T_OUT else VIRTIO_BLK_T_IN) 0 sector)) d) ;;
  set_desc i0 (mkdesc (AOps i0) 16 VRING_DESC_F_NEXT i1) ;;
  set_desc i1 (mkdesc (AData b) BSIZE (Z.lor (if negb (write =? 0) then 0 else VRING_DESC_F_WRITE) VRING_DESC_F_NEXT) i2) ;;
  modify (λ d, set_dk_info_status (zset (dk_info_status d) i0 255) d) ;;
  set_desc i2 (mkdesc (AStatus i0) 1 VRING_DESC_F_WRITE 0) ;;
  modify (λ d, set_vb_disk (<[b := 1]> (vb_disk d)) d) ;;
  modify (λ d, set_dk_info_b (zset (dk_info_b d) i0 b) d) ;;
  modify (λ d, set_dk_avail_ring (zset (dk_avail_ring d) (dk_avail_idx d mod NUM) i0) d) ;;
  modify (λ d, set_dk_avail_idx (u16 (dk_avail_idx d + 1)) d) ;;
  wreg VIRTIO_MMIO_QUEUE_NOTIFY 0.

(** [virtio_disk_rw] up to the wait for the device: the head of the chain.
    Without three free descriptors it sleeps and tries again. *)
Definition rw_start (b blockno write : Z) : VM Z :=
  zoom dlockL (acquire_lk me) ;;
  r <- alloc3_desc ;;
  match r with
  | None => sleep_on dlockL me free_chan
  | Some (i0, i1, i2) =>
      rw_format b blockno write i0 i1 i2 ;;
      zoom dlockL (release_lk me) ;;
      ret i0
  end.

(** One turn of [while(b->disk == 1) sleep(b, ..)] and what follows it. *)
Definition rw_finish (b i0 : Z) : VM unit :=
  zoom dlockL (acquire_lk me) ;;
  d <- get ;;
  if vb_disk d b =? 1 then sleep_on dlockL me b
  else
    modify (λ d, set_dk_info_b (zset (dk_info_b d) i0 0) d) ;;
    free_chain (Z.to_nat NUM) i0 ;;
    zoom dlockL (release_lk me).

(** The used entries that have not been looked at, at most [NUM]. *)
Fixpoint intr_loop (fuel : nat) : VM unit :=
  match fuel with
  | O => λ _, OutOfFuel
  | S fuel' =>
      d <- get ;;
      if dk_used_idx d =? dk_used_dev_idx d then ret tt
      else
        let id := znth 0 (dk_used_ring d) (dk_used_idx d mod NUM) in
        if negb (znth 0 (dk_info_status d) id =? 0) then panic "virtio_disk_intr status"
        else
          let b := znth 0 (dk_info_b d) id in
          modify (λ d, set_vb_disk (<[b := 0]> (vb_disk d)) d) ;;
          wakeup b ;;
          modify (λ d, set_dk_used_idx (u16 (dk_used_idx d + 1)) d) ;;
          intr_loop fuel'
  end.

(** [status] is what the register INTERRUPT_STATUS reads. *)
Definition virtio_disk_intr (status : Z) : VM unit :=
  zoom dlockL (acquire_lk me) ;;
  wreg VIRTIO_MMIO_INTERRUPT_ACK (Z.land status 3) ;;
  intr_loop (Z.to_nat NUM + 1) ;;
  zoom dlockL (release_lk me).
End virtio.

(** * Initialisation *)

Section init.
  Context {D : Type} `{MM : Mmio D}.

(** The driver, the device's registers and an allocator of pages. *)
Record vinit := mkvinit { vi_disk : disk; vi_dev : D }.
Context (kalloc : M vinit Z).

Definition vdevL : lens vinit D := Lens vi_dev (λ x s, mkvinit (vi_disk s) x).
Definition vdiskL : lens vinit disk := Lens vi_disk (λ x s, mkvinit x (vi_dev s)).
(** [*R(r)] *)
Definition rd (r : Z) : M vinit Z := zoom vdevL (mm_read32 (VIRTIO0 + r)).
Definition wr (r v : Z) : M vinit unit := zoom vdevL (mm_write32 (VIRTIO0 + r) (u32 v)).

(** [features &= ~(1 << f)] for each feature the driver does not use. *)
Definition no_features : list Z :=
  [VIRTIO_BLK_F_RO; VIRTIO_BLK_F_SCSI; VIRTIO_BLK_F_CONFIG_WCE; VIRTIO_BLK_F_MQ; VIRTIO_F_ANY_LAYOUT;
   VIRTIO_RING_F_EVENT_IDX; VIRTIO_RING_F_INDIRECT_DESC].
Definition negotiate (features : Z) : Z :=
  fold_left (λ x f, Z.land x (Z.lnot (Z.shiftl 1 f))) no_features features.

(** The queue's memory, zeroed. *)
Definition empty_queue (d : disk) : disk :=
  mkdisk (replicate 8 desc0) 0 (replicate 8 0) 0 (replicate 8 0) (dk_free d) (dk_used_idx d) (dk_info_b d)
    (dk_info_status d) (dk_ops d) (dk_lock d) (vb_disk d) (dk_writes d).

Definition virtio_disk_init : M vinit unit :=
  modify (upd vdiskL (empty_queue (mkdisk [] 0 [] 0 [] (replicate 8 0) 0 (replicate 8 0) (replicate 8 0) (replicate 8 req0)
    (initlock "virtio_disk") (λ _, 0) []))) ;;
  magic <- rd VIRTIO_MMIO_MAGIC_VALUE ;;
  version <- rd VIRTIO_MMIO_VERSION ;;
  device <- rd VIRTIO_MMIO_DEVICE_ID ;;
  vendor <- rd VIRTIO_MMIO_VENDOR_ID ;;
  if negb (magic =? 1953655158) || negb (version =? 2) || negb (device =? 2) || negb (vendor =? 1431127377)
  then panic "could not find virtio disk"
  else
    wr VIRTIO_MMIO_STATUS 0 ;;
    wr VIRTIO_MMIO_STATUS VIRTIO_CONFIG_S_ACKNOWLEDGE ;;
    wr VIRTIO_MMIO_STATUS (Z.lor VIRTIO_CONFIG_S_ACKNOWLEDGE VIRTIO_CONFIG_S_DRIVER) ;;
    features <- rd VIRTIO_MMIO_DEVICE_FEATURES ;;
    wr VIRTIO_MMIO_DRIVER_FEATURES (negotiate features) ;;
    wr VIRTIO_MMIO_STATUS (Z.lor (Z.lor VIRTIO_CONFIG_S_ACKNOWLEDGE VIRTIO_CONFIG_S_DRIVER) VIRTIO_CONFIG_S_FEATURES_OK) ;;
    status <- rd VIRTIO_MMIO_STATUS ;;
    if Z.land status VIRTIO_CONFIG_S_FEATURES_OK =? 0 then panic "virtio disk FEATURES_OK unset"
    else
      wr VIRTIO_MMIO_QUEUE_SEL 0 ;;
      ready <- rd VIRTIO_MMIO_QUEUE_READY ;;
      if negb (ready =? 0) then panic "virtio disk should not be ready"
      else
        max <- rd VIRTIO_MMIO_QUEUE_NUM_MAX ;;
        if max =? 0 then panic "virtio disk has no queue 0"
        else if max <? NUM then panic "virtio disk max queue too short"
        else
          desc <- kalloc ;;
          avail <- kalloc ;;
          used <- kalloc ;;
          if (desc =? 0) || (avail =? 0) || (used =? 0) then panic "virtio disk kalloc"
          else
            modify (λ s, upd vdiskL (empty_queue (vi_disk s)) s) ;;
            wr VIRTIO_MMIO_QUEUE_NUM NUM ;;
            wr VIRTIO_MMIO_QUEUE_DESC_LOW desc ;;
            wr VIRTIO_MMIO_QUEUE_DESC_HIGH (Z.shiftr desc 32) ;;
            wr VIRTIO_MMIO_DRIVER_DESC_LOW avail ;;
            wr VIRTIO_MMIO_DRIVER_DESC_HIGH (Z.shiftr avail 32) ;;
            wr VIRTIO_MMIO_DEVICE_DESC_LOW used ;;
            wr VIRTIO_MMIO_DEVICE_DESC_HIGH (Z.shiftr used 32) ;;
            wr VIRTIO_MMIO_QUEUE_READY 1 ;;
            modify (λ s, upd vdiskL (set_dk_free (replicate 8 1) (vi_disk s)) s) ;;
            wr VIRTIO_MMIO_STATUS (Z.lor status VIRTIO_CONFIG_S_DRIVER_OK).
End init.

(** * Descriptors *)

(** A request in flight: its buffer and its chain. *)
Record flight := mkflight { fl_b : Z; fl_0 : Z; fl_1 : Z; fl_2 : Z }.
Definition chain (f : flight) : list Z := [fl_0 f; fl_1 f; fl_2 f].
Definition taken (fs : list flight) : list Z := concat (chain <$> fs).

(** The links of a chain are in place. *)
Definition linked (d : disk) (f : flight) : Prop :=
  d_next (desc_at d (fl_0 f)) = fl_1 f ∧ Z.odd (d_flags (desc_at d (fl_0 f))) = true ∧
  d_next (desc_at d (fl_1 f)) = fl_2 f ∧ Z.odd (d_flags (desc_at d (fl_1 f))) = true ∧
  Z.odd (d_flags (desc_at d (fl_2 f))) = false.

(** The requests [fs] are in flight and the descriptors [xs] are allocated but
    not yet part of a chain; everything else is free. *)
Record dinv (xs : list Z) (fs : list flight) (d : disk) : Prop := {
  di_len : len (dk_free d) = 8;
  di_dlen : len (dk_desc d) = 8;
  di_nodup : NoDup (xs ++ taken fs);
  di_range : ∀ i, i ∈ xs ++ taken fs → 0 ≤ i < 8;
  di_free : ∀ i, 0 ≤ i < 8 → (znth 0 (dk_free d) i = 0 ↔ i ∈ xs ++ taken fs);
  di_linked : ∀ f, f ∈ fs → linked d f;
}.

Lemma land_1_odd x : (Z.land x 1 =? 0) = negb (Z.odd x).
Proof. change 1 with (Z.ones 1). rewrite Z.land_ones by lia. change (2 ^ 1) with 2. rewrite Zmod_odd. by destruct (Z.odd x). Qed.

(** A free descriptor is found if there is one. *)
Lemma alloc_desc_ok d :
  len (dk_free d) = 8 →
  (∃ i, 0 ≤ i < 8 ∧ znth 0 (dk_free d) i ≠ 0 ∧ alloc_desc d = Ok i (set_dk_free (zset (dk_free d) i 0) d)) ∨
  ((∀ i, 0 ≤ i < 8 → znth 0 (dk_free d) i = 0) ∧ alloc_desc d = Ok (-1) d).
Proof.
  intros Hl. assert (Hr : returns alloc_desc d (λ i d', (0 ≤ i < 8 ∧ znth 0 (dk_free d) i ≠ 0 ∧ d' = set_dk_free (zset (dk_free d) i 0) d) ∨
    ((∀ i, 0 ≤ i < 8 → znth 0 (dk_free d) i = 0) ∧ i = -1 ∧ d' = d))).
  2:{ apply returns_ok in Hr as (i & d' & E & [(H1 & H2 & ->)|(H1 & -> & ->)]); [left; by exists i|by right]. }
  apply returns_bind. eapply (for_up_inv (λ i d', d' = d ∧ ∀ j, 0 ≤ j < i → znth 0 (dk_free d) j = 0)).
  - split; [done|]. intros; lia.
  - intros i d' Hi [-> Hj]. unfold NUM in Hi. eapply returns_step; [reflexivity|]. cbv beta.
    destruct (Z.eqb_spec (znth 0 (dk_free d) i) 0) as [E|E]; cbn [negb].
    + apply returns_ret. split; [done|]. intros j Hji. destruct (decide (j = i)) as [->|]; [done|]. apply Hj. lia.
    + eapply returns_step; [reflexivity|]. apply returns_ret. cbv beta iota. apply returns_ret. left. split_and!; [lia|lia|done|done].
  - intros d' [-> Hj]. apply returns_ret. right. split_and!; [|done|done]. intros i Hi. apply Hj. unfold NUM. lia.
Qed.

Lemma free_desc_ok d i :
  0 ≤ i < 8 → znth 0 (dk_free d) i = 0 →
  free_desc i d = Ok tt (set_dk_free (zset (dk_free d) i 1) (set_dk_desc (zset (dk_desc d) i desc0) d)).
Proof.
  intros Hi Hf. unfold free_desc, NUM. destruct (8 <=? i) eqn:?; [lia|]. rewrite bind_get, Hf. cbn [negb Z.eqb]. done.
Qed.

Lemma free_chain_step d i fuel :
  0 ≤ i < 8 → znth 0 (dk_free d) i = 0 →
  free_chain (S fuel) i d =
  (if Z.odd (d_flags (desc_at d i)) then free_chain fuel (d_next (desc_at d i)) else ret tt)
    (set_dk_free (zset (dk_free d) i 1) (set_dk_desc (zset (dk_desc d) i desc0) d)).
Proof.
  intros Hi Hf. cbn [free_chain]. rewrite bind_get. rewrite (bind_ok _ _ _ _ _ (free_desc_ok d i Hi Hf)).
  unfold VRING_DESC_F_NEXT. rewrite land_1_odd, negb_involutive. by destruct (Z.odd _).
Qed.

Lemma chain_taken f fs i : f ∈ fs → i ∈ chain f → i ∈ taken fs.
Proof. intros Hf Hi. unfold taken. apply list_elem_of_In, in_concat. exists (chain f). split; [|by apply list_elem_of_In]. apply list_elem_of_In, list_elem_of_fmap. by exists f. Qed.

(** A change of descriptors outside a chain keeps its links. *)
Lemma linked_frame d d' f : (∀ i, i ∈ chain f → desc_at d' i = desc_at d i) → linked d f → linked d' f.
Proof. intros Hs. unfold linked, chain in *. rewrite !Hs by set_solver. done. Qed.

Lemma dinv_alloc xs fs d i :
  dinv xs fs d → 0 ≤ i < 8 → znth 0 (dk_free d) i ≠ 0 → dinv (i :: xs) fs (set_dk_free (zset (dk_free d) i 0) d).
Proof.
  intros [H1 H2 H3 H4 H5 H6] Hi Hf. assert (Hn : i ∉ xs ++ taken fs) by (intros Hin; by apply Hf, H5).
  constructor; cbn [set_dk_free dk_free dk_desc]; try done.
  - by rewrite len_zset.
  - cbn. by constructor.
  - intros j Hj. cbn in Hj. apply elem_of_cons in Hj as [->|Hj]; [done|]. by apply H4.
  - intros j Hj. rewrite znth_zset by lia. cbn [app]. rewrite elem_of_cons. destruct (decide (i = j)) as [<-|Hne].
    + split; [by left|done].
    + rewrite H5 by done. split; [by right|]. intros [->|]; done.
Qed.

Lemma dinv_free xs fs d i :
  dinv (i :: xs) fs d → dinv xs fs (set_dk_free (zset (dk_free d) i 1) (set_dk_desc (zset (dk_desc d) i desc0) d)).
Proof.
  intros [H1 H2 H3 H4 H5 H6]. cbn [app] in *. inversion H3 as [|? ? Hn H3']; subst. assert (Hi : 0 ≤ i < 8) by (apply H4; by left).
  constructor; cbn [set_dk_free set_dk_desc dk_free dk_desc]; try done.
  - by rewrite len_zset.
  - by rewrite len_zset.
  - intros j Hj. apply H4. by right.
  - intros j Hj. rewrite znth_zset by lia. destruct (decide (i = j)) as [<-|Hne]; [done|].
    rewrite H5, elem_of_cons by done. split; [|by right]. intros [->|]; done.
  - intros f Hf. eapply linked_frame; [|by apply H6]. intros j Hj. unfold desc_at. cbn [set_dk_free set_dk_desc dk_desc].
    rewrite znth_zset_ne; [done|]. intros ->. apply Hn, elem_of_app. right. by eapply chain_taken.
Qed.

(** Fields the invariant does not mention. *)
Lemma dinv_ext xs fs d d' : dk_free d' = dk_free d → dk_desc d' = dk_desc d → dinv xs fs d → dinv xs fs d'.
Proof.
  intros E1 E2 [H1 H2 H3 H4 H5 H6]. constructor; rewrite ?E1, ?E2; try done.
  intros f Hf. eapply linked_frame; [|by apply H6]. intros j Hj. unfold desc_at. by rewrite E2.
Qed.

Lemma alloc3_ok fs d :
  dinv [] fs d →
  (∃ i0 i1 i2 d', alloc3_desc d = Ok (Some (i0, i1, i2)) d' ∧ dinv [i2; i1; i0] fs d' ∧ dk_lock d' = dk_lock d) ∨
  (∃ d', alloc3_desc d = Ok None d' ∧ dinv [] fs d' ∧ dk_lock d' = dk_lock d).
Proof.
  intros H0. unfold alloc3_desc.
  destruct (alloc_desc_ok d (di_len _ _ _ H0)) as [(i0 & R0 & F0 & E0)|[_ E0]]; rewrite (bind_ok _ _ _ _ _ E0); [|right; by exists d].
  destruct (i0 <? 0) eqn:?; [lia|]. pose proof (dinv_alloc _ _ _ _ H0 R0 F0) as H1. set (d1 := set_dk_free _ d) in *.
  destruct (alloc_desc_ok d1 (di_len _ _ _ H1)) as [(i1 & R1 & F1 & E1)|[_ E1]]; rewrite (bind_ok _ _ _ _ _ E1).
  2:{ right. cbn [Z.ltb Z.compare]. rewrite (bind_ok _ _ _ _ _ (free_desc_ok d1 i0 R0 (proj2 (di_free _ _ _ H1 i0 R0) ltac:(set_solver)))).
      eexists. split; [done|]. split; [by apply dinv_free|done]. }
  destruct (i1 <? 0) eqn:?; [lia|]. pose proof (dinv_alloc _ _ _ _ H1 R1 F1) as H2. set (d2 := set_dk_free _ d1) in *.
  destruct (alloc_desc_ok d2 (di_len _ _ _ H2)) as [(i2 & R2 & F2 & E2)|[_ E2]]; rewrite (bind_ok _ _ _ _ _ E2).
  - destruct (i2 <? 0) eqn:?; [lia|]. left. exists i0, i1, i2. eexists. split; [done|]. split; [by apply dinv_alloc|done].
  - right. cbn [Z.ltb Z.compare]. assert (Hp : dinv [i0; i1] fs d2).
    { destruct H2 as [A1 A2 A3 A4 A5 A6]. constructor; try done; cbn [app] in *.
      - by rewrite (Permutation_swap i1 i0).
      - intros j. rewrite (Permutation_swap i1 i0). apply A4.
      - intros j Hj. rewrite (Permutation_swap i1 i0). by apply A5. }
    rewrite (bind_ok _ _ _ _ _ (free_desc_ok d2 i0 R0 (proj2 (di_free _ _ _ Hp i0 R0) ltac:(set_solver)))).
    pose proof (dinv_free _ _ _ _ Hp) as H3. set (d3 := set_dk_free (zset (dk_free d2) i0 1) _) in *.
    rewrite (bind_ok _ _ _ _ _ (free_desc_ok d3 i1 R1 (proj2 (di_free _ _ _ H3 i1 R1) ltac:(set_solver)))).
    eexists. split; [done|]. split; [by apply dinv_free|done].
Qed.

Lemma rw_format_ok b blockno write i0 i1 i2 fs d :
  dinv [i2; i1; i0] fs d →
  ∃ d', rw_format b blockno write i0 i1 i2 d = Ok tt d' ∧ dinv [] (mkflight b i0 i1 i2 :: fs) d' ∧ dk_lock d' = dk_lock d ∧
    d_next (desc_at d' i0) = i1 ∧ d_next (desc_at d' i1) = i2.
Proof.
  intros [H1 H2 H3 H4 H5 H6]. eexists. split; [reflexivity|]. cbn [dk_lock].
  set (x0 := mkdesc _ _ _ i1). set (x1 := mkdesc _ _ _ i2). set (x2 := mkdesc _ _ _ 0). set (d' := set_dk_writes _ _).
  assert (Ed : dk_desc d' = zset (zset (zset (dk_desc d) i0 x0) i1 x1) i2 x2) by done.
  assert (Ef : dk_free d' = dk_free d) by done. assert (El : dk_lock d' = dk_lock d) by done. clearbody d'.
  assert (R : ∀ i, i ∈ [i2; i1; i0] → 0 ≤ i < 8) by (intros i Hi; apply H4, elem_of_app; by left).
  pose proof (R i0 ltac:(set_solver)). pose proof (R i1 ltac:(set_solver)). pose proof (R i2 ltac:(set_solver)).
  cbn [app] in *. apply NoDup_cons in H3 as [N2 H3]. apply NoDup_cons in H3 as [N1 H3]. apply NoDup_cons in H3 as [N0 H3].
  assert (Hd : i0 ≠ i1 ∧ i0 ≠ i2 ∧ i1 ≠ i2) by set_solver. destruct Hd as (D1 & D2 & D3).
  assert (X0 : desc_at d' i0 = x0). { unfold desc_at. rewrite Ed, znth_zset_ne, znth_zset_ne, znth_zset_eq by (rewrite ?len_zset; done || lia). done. }
  assert (X1 : desc_at d' i1 = x1). { unfold desc_at. rewrite Ed, znth_zset_ne, znth_zset_eq by (rewrite ?len_zset; done || lia). done. }
  assert (X2 : desc_at d' i2 = x2). { unfold desc_at. rewrite Ed, znth_zset_eq by (rewrite ?len_zset; lia). done. }
  assert (Hperm : taken (mkflight b i0 i1 i2 :: fs) ≡ₚ i2 :: i1 :: i0 :: taken fs).
  { unfold taken, chain. cbn. rewrite (Permutation_swap i1 i0). rewrite (Permutation_swap i2 i0), (Permutation_swap i2 i1). done. }
  split_and!; [|done|by rewrite X0|by rewrite X1]. constructor; cbn [app]; rewrite ?Ef.
  - done.
  - rewrite Ed. by rewrite !len_zset.
  - rewrite Hperm. by repeat (constructor; [done|]).
  - intros i. rewrite Hperm. apply H4.
  - intros i Hi. rewrite Hperm. by apply H5.
  - intros f Hf. apply elem_of_cons in Hf as [->|Hf].
    + unfold linked. cbn [fl_0 fl_1 fl_2]. rewrite X0, X1, X2. split_and!; try done. unfold x1. cbn [d_flags]. by destruct (negb (write =? 0)).
    + eapply linked_frame; [|by apply H6]. intros j Hj. pose proof (chain_taken _ _ _ Hf Hj) as Ht.
      unfold desc_at. rewrite Ed. rewrite !znth_zset_ne by (intros ->; set_solver). done.
Qed.

Lemma taken_perm fs fs' : fs ≡ₚ fs' → taken fs ≡ₚ taken fs'.
Proof.
  unfold taken. induction 1 as [|f l l' Hp IH|f g l|l1 l2 l3 Hp1 IH1 Hp2 IH2]; cbn [fmap list_fmap concat].
  - reflexivity.
  - by rewrite IH.
  - rewrite !app_assoc. f_equiv. apply Permutation_app_comm.
  - by rewrite IH1.
Qed.

Lemma dinv_perm xs fs fs' d : fs ≡ₚ fs' → dinv xs fs d → dinv xs fs' d.
Proof.
  intros Hp [H1 H2 H3 H4 H5 H6]. pose proof (taken_perm _ _ Hp) as Ht.
  constructor; try done.
  - by rewrite <-Ht.
  - intros i. rewrite <-Ht. apply H4.
  - intros i Hi. rewrite <-Ht. by apply H5.
  - intros f Hf. apply H6. by rewrite Hp.
Qed.

(** The end of a request gives back its three descriptors. *)
Lemma free_chain_ok f fs d :
  dinv [] (f :: fs) d → ∃ d', free_chain (Z.to_nat NUM) (fl_0 f) d = Ok tt d' ∧ dinv [] fs d' ∧ dk_lock d' = dk_lock d.
Proof.
  intros H0. destruct (di_linked _ _ _ H0 f ltac:(by left)) as (L1 & L2 & L3 & L4 & L5).
  assert (Hx : dinv [fl_0 f; fl_1 f; fl_2 f] fs d).
  { destruct H0 as [A1 A2 A3 A4 A5 A6]. constructor; try done. intros g Hg. apply A6. by right. }
  assert (R : ∀ i, i ∈ [fl_0 f; fl_1 f; fl_2 f] → 0 ≤ i < 8) by (intros i Hi; apply (di_range _ _ _ Hx), elem_of_app; by left).
  pose proof (R (fl_0 f) ltac:(set_solver)) as R0. pose proof (R (fl_1 f) ltac:(set_solver)) as R1. pose proof (R (fl_2 f) ltac:(set_solver)) as R2.
  pose proof (di_nodup _ _ _ Hx) as Hnd. cbn [app] in Hnd. apply NoDup_cons in Hnd as [N0 Hnd]. apply NoDup_cons in Hnd as [N1 _].
  change (Z.to_nat NUM) with 8%nat.
  rewrite free_chain_step; [|done|apply (di_free _ _ _ Hx); [done|set_solver]]. rewrite L2, L1.
  pose proof (dinv_free _ _ _ _ Hx) as H1. set (d1 := set_dk_free _ _) in *.
  assert (D1 : desc_at d1 (fl_1 f) = desc_at d (fl_1 f)) by (unfold desc_at, d1; cbn; apply znth_zset_ne; set_solver).
  assert (D2 : desc_at d1 (fl_2 f) = desc_at d (fl_2 f)) by (unfold desc_at, d1; cbn; apply znth_zset_ne; set_solver).
  rewrite free_chain_step; [|done|apply (di_free _ _ _ H1); [done|set_solver]]. rewrite D1, L4, L3.
  pose proof (dinv_free _ _ _ _ H1) as H2. set (d2 := set_dk_free (zset (dk_free d1) (fl_1 f) 1) _) in *.
  assert (D3 : desc_at d2 (fl_2 f) = desc_at d (fl_2 f)) by (rewrite <-D2; unfold desc_at, d2; cbn; apply znth_zset_ne; set_solver).
  rewrite free_chain_step; [|done|apply (di_free _ _ _ H2); [done|set_solver]]. rewrite D3, L5.
  eexists. split; [done|]. split; [by apply dinv_free|done].
Qed.

(** ** Runs of the driver *)

(** The device writes the used ring, its index and status bytes. *)
Definition device_writes (d d' : disk) : Prop :=
  ∃ idx ring status, d' = set_dk_used_dev_idx idx (set_dk_used_ring ring (set_dk_info_status status d)).

Section runs.
  Context (me : Z).

Inductive vstep : list flight * disk → list flight * disk → Prop :=
| vs_start b blockno write i0 fs d d' :
    rw_start me b blockno write d = Ok i0 d' →
    vstep (fs, d) (mkflight b i0 (d_next (desc_at d' i0)) (d_next (desc_at d' (d_next (desc_at d' i0)))) :: fs, d')
| vs_wait b blockno write fs d d' :
    rw_start me b blockno write d = Sleep free_chan d' → vstep (fs, d) (fs, d')
| vs_device fs d d' : device_writes d d' → vstep (fs, d) (fs, d')
| vs_intr status fs d d' : virtio_disk_intr me status d = Ok tt d' → vstep (fs, d) (fs, d')
| vs_finish fs1 f fs2 d d' :
    rw_finish me (fl_b f) (fl_0 f) d = Ok tt d' → vstep (fs1 ++ f :: fs2, d) (fs1 ++ fs2, d').

Definition vinv (x : list flight * disk) : Prop := dinv [] x.1 x.2 ∧ unlocked (dk_lock x.2).

Lemma acquire_disk d : unlocked (dk_lock d) →
  zoom dlockL (acquire_lk me) d = Ok tt (set_dk_lock (mkspinlock 1 (lk_name (dk_lock d)) (Some me)) d).
Proof. intros [H1 H2]. unfold zoom, acquire_lk, holding. cbn. by rewrite H1. Qed.

Lemma release_disk d nm : dk_lock d = mkspinlock 1 nm (Some me) →
  zoom dlockL (release_lk me) d = Ok tt (set_dk_lock (mkspinlock 0 nm None) d).
Proof. intros E. unfold zoom, release_lk, holding. cbn. rewrite E. cbn. by rewrite bool_decide_true. Qed.

Lemma rw_start_ok b blockno write fs d :
  vinv (fs, d) →
  (∃ i0 d', rw_start me b blockno write d = Ok i0 d' ∧
     vinv (mkflight b i0 (d_next (desc_at d' i0)) (d_next (desc_at d' (d_next (desc_at d' i0)))) :: fs, d')) ∨
  (∃ d', rw_start me b blockno write d = Sleep free_chan d' ∧ vinv (fs, d')).
Proof.
  intros [Hi Hl]. cbn [fst snd] in *. unfold rw_start. rewrite (bind_ok _ _ _ _ _ (acquire_disk d Hl)).
  set (d1 := set_dk_lock _ d). assert (H1 : dinv [] fs d1) by (by apply (dinv_ext _ _ d)).
  destruct (alloc3_ok fs d1 H1) as [(i0 & i1 & i2 & d2 & E2 & H2 & L2)|(d2 & E2 & H2 & L2)]; rewrite (bind_ok _ _ _ _ _ E2).
  - left. destruct (rw_format_ok b blockno write i0 i1 i2 fs d2 H2) as (d3 & E3 & H3 & L3 & N0 & N1).
    rewrite (bind_ok _ _ _ _ _ E3). erewrite bind_ok; [|apply release_disk; rewrite L3, L2; reflexivity].
    eexists _, _. split; [reflexivity|]. unfold desc_at in *. cbn [dk_desc set_dk_lock]. rewrite N0, N1. split; [by apply (dinv_ext _ _ d3)|done].
  - right. unfold sleep_on. erewrite bind_ok; [|apply release_disk; rewrite L2; reflexivity].
    eexists. split; [reflexivity|]. split; [by apply (dinv_ext _ _ d2)|done].
Qed.

Lemma rw_finish_ok f fs d :
  vinv (f :: fs, d) →
  (∃ d', rw_finish me (fl_b f) (fl_0 f) d = Ok tt d' ∧ vinv (fs, d')) ∨
  (∃ d', rw_finish me (fl_b f) (fl_0 f) d = Sleep (fl_b f) d' ∧ vb_disk d (fl_b f) = 1).
Proof.
  intros [Hi Hl]. cbn [fst snd] in *. unfold rw_finish. rewrite (bind_ok _ _ _ _ _ (acquire_disk d Hl)), bind_get.
  set (d1 := set_dk_lock _ d). assert (H1 : dinv [] (f :: fs) d1) by (by apply (dinv_ext _ _ d)).
  change (vb_disk d1) with (vb_disk d). destruct (Z.eqb_spec (vb_disk d (fl_b f)) 1) as [Hb|Hb].
  - right. unfold sleep_on. erewrite bind_ok; [|by apply release_disk]. by eexists.
  - left. rewrite bind_modify. set (d2 := set_dk_info_b _ d1). assert (H2 : dinv [] (f :: fs) d2) by (by apply (dinv_ext _ _ d1)).
    destruct (free_chain_ok f fs d2 H2) as (d3 & E3 & H3 & L3). rewrite (bind_ok _ _ _ _ _ E3).
    erewrite release_disk by (rewrite L3; reflexivity). eexists. split; [reflexivity|]. split; [by apply (dinv_ext _ _ d3)|done].
Qed.

Lemma intr_loop_frame fuel d d' : intr_loop fuel d = Ok tt d' → dk_free d' = dk_free d ∧ dk_desc d' = dk_desc d ∧ dk_lock d' = dk_lock d.
Proof.
  revert d. induction fuel as [|fuel IH]; intros d; cbn [intr_loop]; [done|]. rewrite bind_get.
  destruct (_ =? _); [by intros [= <-]|]. destruct (negb _); [done|]. rewrite bind_modify. unfold wakeup. rewrite bind_ret, bind_modify.
  intros H. by apply IH in H.
Qed.

Lemma vinv_step x y : vinv x → vstep x y → vinv y.
Proof.
  intros Hi Hs. destruct Hs as [b blockno write i0 fs d d' E|b blockno write fs d d' E|fs d d' Hd|status fs d d' E|fs1 f fs2 d d' E].
  - destruct (rw_start_ok b blockno write fs d Hi) as [(j & d2 & E2 & H2)|(d2 & E2 & H2)]; rewrite E in E2; by simplify_eq.
  - destruct (rw_start_ok b blockno write fs d Hi) as [(j & d2 & E2 & H2)|(d2 & E2 & H2)]; rewrite E in E2; by simplify_eq.
  - destruct Hd as (idx & ring & status & ->). destruct Hi as [Hi Hl]. split; [by apply (dinv_ext _ _ d)|done].
  - destruct Hi as [Hi Hl]. cbn [fst snd] in *. unfold virtio_disk_intr in E. rewrite (bind_ok _ _ _ _ _ (acquire_disk d Hl)) in E.
    unfold wreg in E. rewrite bind_modify in E. apply bind_inv_ok in E as ([] & d2 & E2 & E). apply intr_loop_frame in E2 as (F1 & F2 & F3).
    erewrite release_disk in E by (rewrite F3; reflexivity). injection E as <-. split; [|done]. by apply (dinv_ext _ _ d).
  - destruct Hi as [Hi Hl]. cbn [fst snd] in *. destruct (rw_finish_ok f (fs1 ++ fs2) d) as [(d2 & E2 & H2)|(d2 & E2 & _)].
    + split; [|done]. eapply dinv_perm; [|done]. by rewrite Permutation_middle.
    + rewrite E in E2. by simplify_eq.
    + by rewrite E in E2.
Qed.

Lemma len_taken fs : len (taken fs) = 3 * len fs.
Proof. induction fs as [|f fs IH]; [done|]. unfold taken in *. cbn. rewrite len_cons in *. rewrite !len_cons, IH. lia. Qed.

(** The driver after [virtio_disk_init]. *)
Definition fresh (d : disk) : Prop :=
  unlocked (dk_lock d) ∧ dk_free d = replicate 8 1 ∧ len (dk_desc d) = 8.

Lemma fresh_vinv d : fresh d → vinv ([], d).
Proof.
  intros (H1 & H2 & H3). split; [|done].
  assert (Hz : ∀ i, 0 ≤ i < 8 → znth 0 (dk_free d) i = 1).
  { intros i Hi. rewrite H2. apply znth_lookup; [lia|]. apply lookup_replicate_2. lia. }
  constructor; cbn [fst snd app]; [by rewrite H2|done|constructor|..].
  - intros i Hi. by apply elem_of_nil in Hi.
  - intros i Hi. split; [|intros Hn; by apply elem_of_nil in Hn]. rewrite Hz by done. done.
  - intros f Hf. by apply elem_of_nil in Hf.
Qed.

(** C21: descriptors are conserved.  After any sequence of requests, device
    activity, interrupts and ends of requests, a descriptor is marked used
    exactly if it belongs to one of the requests in flight, each of which has
    three of its own; so at most two are in flight, and ending a request never
    panics: it gives back its three descriptors, or waits for the device. *)
Theorem virtio_descriptors d0 fs d :
  fresh d0 → rtc vstep ([], d0) (fs, d) →
  NoDup (taken fs) ∧ len fs ≤ 2 ∧
  (∀ i, 0 ≤ i < 8 → (znth 0 (dk_free d) i = 0 ↔ i ∈ taken fs)) ∧
  (∀ f, f ∈ fs → (∃ d', rw_finish me (fl_b f) (fl_0 f) d = Ok tt d') ∨
                 (vb_disk d (fl_b f) = 1 ∧ ∃ d', rw_finish me (fl_b f) (fl_0 f) d = Sleep (fl_b f) d')).
Proof.
  intros Hf Hr. assert (Hi : vinv (fs, d)).
  { assert (∀ x y, rtc vstep x y → vinv x → vinv y) as Hall by (induction 1; eauto using vinv_step). eapply Hall; [done|by apply fresh_vinv]. }
  pose proof Hi as [[H1 H2 H3 H4 H5 H6] Hl]. cbn [fst snd app] in *. split_and!; [done| |done|].
  - pose proof (pigeon_le (taken fs) 8 ltac:(lia) H3 H4) as Hp. rewrite len_taken in Hp. lia.
  - intros f Hin. apply list_elem_of_split in Hin as (fs1 & fs2 & ->).
    destruct (rw_finish_ok f (fs1 ++ fs2) d) as [(d2 & E2 & _)|(d2 & E2 & Hb)].
    + split; [|done]. cbn. eapply dinv_perm; [|exact (proj1 Hi)]. cbn. by rewrite Permutation_middle.
    + left. by exists d2.
    + right. split; [done|]. by exists d2.
Qed.
End runs.

(** ** An instance: one request has been started *)

Definition ddisk : disk :=
  mkdisk (replicate 8 desc0) 0 (replicate 8 0) 0 (replicate 8 0) (replicate 8 1) 0 (replicate 8 0) (replicate 8 0)
    (replicate 8 req0) (initlock "virtio_disk") (λ _, 0) [].
Definition ddisk1 : disk := match rw_start 0 100 5 1 ddisk with Ok _ d => d | _ => ddisk end.

Definition dflight : flight :=
  mkflight 100 0 (d_next (desc_at ddisk1 0)) (d_next (desc_at ddisk1 (d_next (desc_at ddisk1 0)))).

Lemma virtio_descriptors_witness :
  NoDup (taken [dflight]) ∧ len [dflight] ≤ 2 ∧
  (∀ i, 0 ≤ i < 8 → (znth 0 (dk_free ddisk1) i = 0 ↔ i ∈ taken [dflight])) ∧
  (∀ f, f ∈ [dflight] → (∃ d', rw_finish 0 (fl_b f) (fl_0 f) ddisk1 = Ok tt d') ∨
                 (vb_disk ddisk1 (fl_b f) = 1 ∧ ∃ d', rw_finish 0 (fl_b f) (fl_0 f) ddisk1 = Sleep (fl_b f) d')).
Proof.
  apply (virtio_descriptors 0 ddisk [dflight] ddisk1); [by repeat split|].
  eapply rtc_l; [|apply rtc_refl]. apply (vs_start 0 100 5 1 0 [] ddisk ddisk1). vm_compute. reflexivity.
Defined.
