(* ===== verification/Ulib.v ===== *)
(** user/ulib.c, user/printf.c: the library of the user programs.

    String and memory routines work on a byte memory, as in CString.v; the ones
    that scan for a NUL have fuel.  [UserSys] is what a program sees of the
    kernel: system calls that change the world [W].  [UserSysSpec] states what
    the programs rely on: a descriptor has input left to read, of which a read
    delivers some, and output written so far, which a write extends.

    The theorems: [memmove] copies as if through a buffer; [atoi] inverts the
    decimal output of [printint]; a 64-bit number loses its upper half. *)

From stdpp Require Import base tactics list numbers strings.
From S2P Require Import Prelude Bytes CString Printf.
From Stdlib Require Import ZArith Lia Ascii.

Open Scope kernel_scope.

(** * Strings and memory *)

Fixpoint strcpy (fuel : nat) (m : mem) (s t : Z) : option mem :=
  match fuel with
  | O => None
  | S fuel' =>
      let m := stb m s (ldb m t) in
      if ldb m s =? 0 then Some m else strcpy fuel' m (s + 1) (t + 1)
  end.

Fixpoint strcmp (fuel : nat) (m : mem) (p q : Z) : option Z :=
  match fuel with
  | O => None
  | S fuel' =>
      if negb (ldb m p =? 0) && (ldb m p =? ldb m q) then strcmp fuel' m (p + 1) (q + 1)
      else Some (ldb m p - ldb m q)
  end.

Definition strlen (fuel : nat) (m : mem) (s : Z) : option Z := CString.strlen fuel m s.

Definition memset (m : mem) (dst c n : Z) : mem := memset_loop (Z.to_nat (u32 n)) m dst 0 c.

(** 0 is the null pointer. *)
Fixpoint strchr (fuel : nat) (m : mem) (s c : Z) : option Z :=
  match fuel with
  | O => None
  | S fuel' =>
      if ldb m s =? 0 then Some 0
      else if ldb m s =? c then Some s
      else strchr fuel' m (s + 1) c
  end.

(** [n] is an [int]. *)
Fixpoint atoi_loop (fuel : nat) (m : mem) (s n : Z) : option Z :=
  match fuel with
  | O => None
  | S fuel' =>
      if (48 <=? ldb m s) && (ldb m s <=? 57)
      then atoi_loop fuel' m (s + 1) (s32 (n * 10 + ldb m s - 48))
      else Some n
  end.

Definition atoi (fuel : nat) (m : mem) (s : Z) : option Z := atoi_loop fuel m s 0.

Definition memmove (m : mem) (vdst vsrc n : Z) : mem :=
  if vdst <? vsrc then move_up (Z.to_nat n) m vdst vsrc
  else move_down (Z.to_nat n) m (vdst + n) (vsrc + n).

Definition memcmp (m : mem) (s1 s2 n : Z) : Z := memcmp_loop (Z.to_nat (u32 n)) m s1 s2.

Definition memcpy (m : mem) (dst src n : Z) : mem := memmove m dst src n.

(** * System calls *)

Class UserSys (W : Type) := {
  (** the result and the bytes read *)
  s_read : Z → Z → M W (Z * list Z);
  s_write : Z → list Z → M W Z;
  s_open : list Z → Z → M W Z;
  s_close : Z → M W Z;
  s_mkdir : list Z → M W Z;
  s_unlink : list Z → M W Z;
  s_link : list Z → list Z → M W Z;
  s_kill : Z → M W Z;
  s_pause : Z → M W Z;
}.

(** What is left to read from a descriptor, and what was written to it. *)
Class UserSysSpec (W : Type) `{!UserSys W} := {
  u_in : W → Z → list Z;
  u_out : W → Z → list Z;
  s_read_spec w fd n : 0 ≤ n → ∃ k w',
    s_read fd n w = Ok (k, take (Z.to_nat k) (u_in w fd)) w' ∧
    0 ≤ k ≤ n ∧ k ≤ len (u_in w fd) ∧ (k = 0 → n = 0 ∨ u_in w fd = []) ∧
    u_in w' fd = drop (Z.to_nat k) (u_in w fd) ∧ u_out w' = u_out w;
  s_write_spec w fd bs : ∃ w',
    s_write fd bs w = Ok (len bs) w' ∧ u_in w' = u_in w ∧
    u_out w' fd = u_out w fd ++ bs ∧ (∀ fd', fd' ≠ fd → u_out w' fd' = u_out w fd');
}.

(** * printf.c *)

Section printf.
  Context {W : Type} `{US : UserSys W}.

Definition putc (fd c : Z) : M W unit := s_write fd [u8 c] ;; ret tt.

Fixpoint puts (fd : Z) (cs : list Z) : M W unit :=
  match cs with
  | [] => ret tt
  | c :: cs' => putc fd c ;; puts fd cs'
  end.

(** The string constant [digits]: "0123456789ABCDEF". *)
Definition udigits (d : Z) : Z := if d <? 10 then 48 + d else 55 + d.

(** [do{ buf\[i++\] = digits\[x % base\]; }while((x /= base) != 0);] *)
Fixpoint udigits_loop (fuel : nat) (x base : Z) : list Z :=
  match fuel with
  | O => []
  | S fuel' => udigits (x mod base) :: (if x / base =? 0 then [] else udigits_loop fuel' (x / base) base)
  end.

(** [x] is a [uint]: it has at most 32 digits. *)
Definition uprintint_chars (xx base sgn : Z) : list Z :=
  let neg := negb (sgn =? 0) && (xx <? 0) in
  let x := u32 (if neg then - xx else xx) in
  rev (udigits_loop 32 x base ++ (if neg then [45] else [])).

Definition uprintint (fd xx base sgn : Z) : M W unit := puts fd (uprintint_chars xx base sgn).

Fixpoint uprintptr_loop (n : nat) (x : Z) : list Z :=
  match n with
  | O => []
  | S n' => udigits (Z.shiftr x 60) :: uprintptr_loop n' (u64 (Z.shiftl x 4))
  end.

Definition uprintptr_chars (x : Z) : list Z := [48; 120] ++ uprintptr_loop 16 x.
Definition uprintptr (fd x : Z) : M W unit := puts fd (uprintptr_chars x).

(** The characters one directive prints, and the arguments and further
    characters of the format it takes. *)
Definition udirective (c0 c1 c2 : Z) (ap : list varg) : list Z * nat * nat :=
  let w := va_word ap in
  if c0 =? 100 then (uprintint_chars (s32 w) 10 1, 1%nat, 0%nat)
  else if (c0 =? 108) && (c1 =? 100) then (uprintint_chars (s64 w) 10 1, 1%nat, 1%nat)
  else if (c0 =? 108) && (c1 =? 108) && (c2 =? 100) then (uprintint_chars (s64 w) 10 1, 1%nat, 2%nat)
  else if c0 =? 117 then (uprintint_chars (u32 w) 10 0, 1%nat, 0%nat)
  else if (c0 =? 108) && (c1 =? 117) then (uprintint_chars (s64 w) 10 0, 1%nat, 1%nat)
  else if (c0 =? 108) && (c1 =? 108) && (c2 =? 117) then (uprintint_chars (s64 w) 10 0, 1%nat, 2%nat)
  else if c0 =? 120 then (uprintint_chars (u32 w) 16 0, 1%nat, 0%nat)
  else if (c0 =? 108) && (c1 =? 120) then (uprintint_chars (s64 w) 16 0, 1%nat, 1%nat)
  else if (c0 =? 108) && (c1 =? 108) && (c2 =? 120) then (uprintint_chars (s64 w) 16 0, 1%nat, 2%nat)
  else if c0 =? 112 then (uprintptr_chars (u64 w), 1%nat, 0%nat)
  else if c0 =? 99 then ([u8 w], 1%nat, 0%nat)
  else if c0 =? 115 then (va_str ap, 1%nat, 0%nat)
  else if c0 =? 37 then ([37], 0%nat, 0%nat)
  else ([37; c0], 0%nat, 0%nat).

(** The characters passed to [putc], in order.  [state] is 0 or '%'; a turn takes
    at least one character of the format. *)
Fixpoint vprintf_loop (fuel : nat) (state : Z) (fmt : list Z) (ap : list varg) : list Z :=
  match fuel with
  | O => []
  | S fuel' =>
      match fmt with
      | [] => []
      | c0 :: fmt' =>
          if state =? 0 then
            if c0 =? 37 then vprintf_loop fuel' 37 fmt' ap
            else c0 :: vprintf_loop fuel' 0 fmt' ap
          else
            let c1 := chr fmt' in
            let c2 := if c1 =? 0 then 0 else chr (drop 1 fmt') in
            let ' (out, a, k) := udirective c0 c1 c2 ap in
            out ++ vprintf_loop fuel' 0 (drop k fmt') (drop a ap)
      end
  end.

Definition vprintf_chars (fmt : list Z) (ap : list varg) : list Z := vprintf_loop (S (length fmt)) 0 fmt ap.
Definition vprintf (fd : Z) (fmt : list Z) (ap : list varg) : M W unit := puts fd (vprintf_chars fmt ap).
Definition fprintf (fd : Z) (fmt : list Z) (ap : list varg) : M W unit := vprintf fd fmt ap.
Definition uprintf (fmt : list Z) (ap : list varg) : M W unit := vprintf 1 fmt ap.

(** [gets]: the characters of [buf], whose NUL follows; [n] more may come. *)
Fixpoint ugets_loop (n : nat) (acc : list Z) : M W (list Z) :=
  match n with
  | O => ret acc
  | S n' =>
      ' (cc, bs) <- s_read 0 1 ;;
      if cc <? 1 then ret acc
      else
        let c := znth 0 bs 0 in
        if (c =? 10) || (c =? 13) then ret (acc ++ [c]) else ugets_loop n' (acc ++ [c])
  end.

Definition ugets (max : Z) : M W (list Z) := ugets_loop (Z.to_nat (max - 1)) [].
End printf.

(** String constants. *)
Fixpoint str (s : string) : list Z :=
  match s with
  | EmptyString => []
  | String a s' => Z.of_N (N_of_ascii a) :: str s'
  end.

(** * Theorems *)

Lemma puts_ok {W} `{USS : UserSysSpec W} fd cs w :
  ∃ w', puts fd cs w = Ok tt w' ∧ u_in w' = u_in w ∧ u_out w' fd = u_out w fd ++ (u8 <$> cs) ∧ (∀ fd', fd' ≠ fd → u_out w' fd' = u_out w fd').
Proof.
  revert w. induction cs as [|c cs IH]; intros w; cbn [puts].
  - exists w. by rewrite app_nil_r.
  - destruct (s_write_spec w fd [u8 c]) as (w1 & E & Hi & Ho & Hf). unfold putc. rewrite bind_assoc, (bind_ok _ _ _ _ _ E), bind_ret.
    destruct (IH w1) as (w2 & E2 & Hi2 & Ho2 & Hf2). exists w2. split_and!; [done|by rewrite Hi2|by rewrite Ho2, Ho, <-app_assoc|].
    intros fd' Hne. by rewrite Hf2, Hf.
Qed.

(** The string of digits, at [s] in memory and followed by another character. *)
Definition digits_at (m : mem) (s : Z) (ds : list Z) : Prop :=
  mem_read m s (length ds) = ds ∧ Forall (λ c, 48 ≤ c ≤ 57) ds ∧ ¬ 48 ≤ ldb m (s + len ds) ≤ 57.

Lemma atoi_loop_ok fuel m s n ds :
  (length ds < fuel)%nat → digits_at m s ds → 0 ≤ n → read_num 10 n ds < 2147483648 →
  atoi_loop fuel m s n = Some (read_num 10 n ds).
Proof.
  revert fuel s n. induction ds as [|d ds IH]; intros [|fuel] s n Hf (Hr & Hd & He) Hn Hb; cbn in Hf; try lia; cbn [atoi_loop].
  - cbn in *. rewrite Z.add_0_r in He. destruct ((48 <=? ldb m s) && (ldb m s <=? 57)) eqn:E; [lia|done].
  - apply Forall_cons in Hd as [Hd0 Hd]. cbn in Hr. injection Hr as Hr0 Hr. rewrite Hr0.
    assert ((48 <=? d) && (d <=? 57) = true) as -> by lia.
    assert (Hdv : digit_val d = d - 48) by (unfold digit_val; destruct (d <? 58) eqn:?; lia).
    assert (Hmono : ∀ ds n, Forall (λ c, 48 ≤ c ≤ 57) ds → 0 ≤ n → n ≤ read_num 10 n ds).
    { clear. induction ds as [|c ds IH]; intros n Hd Hn; cbn; [lia|]. apply Forall_cons in Hd as [Hc Hd].
      assert (digit_val c = c - 48) as -> by (unfold digit_val; destruct (c <? 58) eqn:?; lia). specialize (IH (n * 10 + (c - 48)) Hd ltac:(lia)). lia. }
    cbn [read_num] in Hb. rewrite Hdv in Hb. pose proof (Hmono ds (n * 10 + (d - 48)) Hd ltac:(lia)).
    rewrite s32_id by lia. cbn [read_num]. rewrite Hdv. replace (n * 10 + d - 48) with (n * 10 + (d - 48)) by lia.
    apply IH; [lia| |lia|done]. split_and!; [done|done|]. rewrite len_cons in He. by replace (s + 1 + len ds) with (s + (1 + len ds)) by lia.
Qed.

Lemma udigits_loop_10 fuel x : 0 ≤ x → udigits_loop fuel x 10 = put_digits fuel x 10.
Proof.
  revert x. induction fuel as [|fuel IH]; intros x Hx; [done|]. cbn. pose proof (Z.mod_pos_bound x 10 ltac:(lia)). f_equal.
  - unfold udigits, digits. destruct (_ <? 10) eqn:?; lia.
  - destruct (_ =? 0); [done|]. apply IH. apply Z.div_pos; lia.
Qed.

Lemma put_digits_decimal fuel x : 0 ≤ x → Forall (λ c, 48 ≤ c ≤ 57) (put_digits fuel x 10).
Proof.
  revert x. induction fuel as [|fuel IH]; intros x Hx; cbn [put_digits]; [constructor|].
  pose proof (Z.mod_pos_bound x 10 ltac:(lia)). constructor.
  - unfold digits. destruct (_ <? 10) eqn:?; lia.
  - destruct (_ =? 0); [constructor|]. apply IH. apply Z.div_pos; lia.
Qed.

(** [atoi] reads back what [printf("%d")] prints: for a number of 31 bits the
    digits in memory, followed by anything but a digit, give the number. *)
Theorem atoi_printint m s n fuel :
  0 ≤ n < 2147483648 → (20 ≤ fuel)%nat →
  mem_read m s (length (uprintint_chars n 10 1)) = uprintint_chars n 10 1 →
  ¬ 48 ≤ ldb m (s + len (uprintint_chars n 10 1)) ≤ 57 →
  atoi fuel m s = Some n.
Proof.
  intros Hn Hf Hr He. assert (Hc : uprintint_chars n 10 1 = rev (put_digits 32 n 10)).
  { unfold uprintint_chars. cbn [negb andb Z.eqb]. assert ((n <? 0) = false) as -> by lia. cbn [app]. rewrite app_nil_r, u32_id, udigits_loop_10 by lia. done. }
  assert (Hv : read_num 10 0 (uprintint_chars n 10 1) = n).
  { rewrite Hc. apply read_put_digits; [lia|change (10 ^ Z.of_nat 32) with 100000000000000000000000000000000; lia|lia]. }
  unfold atoi. rewrite (atoi_loop_ok fuel m s 0 (uprintint_chars n 10 1)); [by rewrite Hv| |split_and!; [done| |done]|lia|lia].
  - rewrite Hc, length_rev. assert (length (put_digits 32 n 10) ≤ 10)%nat; [|lia]. apply length_put_digits; [lia|change (10 ^ Z.of_nat 10) with 10000000000; lia|lia].
  - rewrite Hc. apply List.Forall_rev, put_digits_decimal. lia.
Qed.

(** "1205" and a NUL. *)
Definition dtext : mem := λ a, znth 0 [49; 50; 48; 53; 0] a.

Lemma atoi_printint_witness : atoi 20 dtext 0 = Some 1205.
Proof. apply (atoi_printint dtext 0 1205); [lia|lia|reflexivity|]. intros [Hd _]. by apply Hd. Defined.

(** [printint] of user/printf.c keeps [x] in a [uint]: [%lu] of a 64-bit number
    prints its low 32 bits. *)
Lemma uprintint_low_half w : uprintint_chars (s64 w) 10 0 = uprintint_chars (u32 w) 10 0.
Proof.
  assert (Hs : u32 (s64 w) = u32 (u32 w)).
  { unfold s64, u32. rewrite (Z.mod_eq (w + _)) by lia. rewrite Zmod_mod.
    replace (w + 9223372036854775808 - 18446744073709551616 * ((w + 9223372036854775808) / 18446744073709551616) - 9223372036854775808)
      with (w + (- (4294967296 * ((w + 9223372036854775808) / 18446744073709551616))) * 4294967296) by lia.
    apply Z_mod_plus_full. }
  unfold uprintint_chars. cbn [negb andb Z.eqb]. by rewrite Hs.
Qed.

(** [memmove] copies as if through a buffer, overlap included. *)
Lemma memmove_ok m vdst vsrc n x :
  0 ≤ n → ldb (memmove m vdst vsrc n) x = if decide (vdst ≤ x < vdst + n) then ldb m (x - vdst + vsrc) else ldb m x.
Proof.
  intros Hn. unfold memmove. destruct (Z.ltb_spec vdst vsrc).
  - rewrite move_up_spec by lia. by rewrite Z2Nat.id.
  - rewrite move_down_spec by lia. rewrite Z2Nat.id by lia. replace (vdst + n - n) with vdst by lia.
    case_decide; [|done]. f_equal. lia.
Qed.

(** [strcmp] decides equality of the strings its arguments point to. *)
Lemma strcmp_ok fuel m p q r :
  strcmp fuel m p q = Some r → (r = 0 ↔ cstrn fuel m p = cstrn fuel m q).
Proof.
  revert p q. induction fuel as [|fuel IH]; intros p q; cbn [strcmp cstrn]; [done|].
  pose proof (ldb_range m p). pose proof (ldb_range m q).
  destruct (Z.eqb_spec (ldb m p) 0) as [Ep|Ep]; cbn [negb andb].
  - intros [= <-]. destruct (Z.eqb_spec (ldb m q) 0); [split; [done|lia]|split; [lia|done]].
  - destruct (Z.eqb_spec (ldb m p) (ldb m q)) as [Eq|Eq].
    + intros Hr. rewrite (IH _ _ Hr). rewrite <-Eq. destruct (Z.eqb_spec (ldb m p) 0); [lia|]. split; [by intros ->|by intros [= ->]].
    + intros [= <-]. split; [lia|]. destruct (Z.eqb_spec (ldb m q) 0); [done|]. intros [= ?]. done.
Qed.
