(* ===== verification/Umalloc.v ===== *)
(** user/umalloc.c: the allocator of the user programs, after Kernighan and
    Ritchie.

    Blocks are sequences of 16-byte units, the first of which is the header:
    the address of the next free block and the number of units.  The free
    blocks form a ring in order of address that starts at [base], below the
    memory [sbrk] provides.

    The theorems: no two live blocks ever overlap, all lie in memory that came
    from [sbrk] and none loses its contents, whatever sequence of [malloc] (for
    less than 2 GB), [free] and writes a program makes; [malloc] fails only when
    [sbrk] does; [free] merges neighbours, so that no two free blocks touch, and
    no unit is lost. *)

From stdpp Require Import base tactics list numbers strings relations.
From S2P Require Import Prelude Bytes.
From Stdlib Require Import ZArith Lia.

Open Scope kernel_scope.

(** What the allocator relies on: [sbrk] returns the old end of memory, or -1. *)
Class Sbrk (W : Type) := {
  sbrk : Z → M W Z;
  u_top : W → Z;
  sbrk_spec w n : 0 < n < 2147483648 → ∃ r w', sbrk n w = Ok r w' ∧
    (r = 18446744073709551615 ∧ u_top w' = u_top w ∨
     r = u_top w ∧ u_top w' = u_top w + n ∧ u_top w' ≤ 68719476736);
}.

Definition SBRK_ERROR : Z := 18446744073709551615.

(** sizeof(Header) *)
Definition HSIZE : Z := 16.

Record heap (W : Type) := mkheap {
  h_mem : mem;
  h_freep : Z;
  h_world : W;
}.
Arguments mkheap {W}. Arguments h_mem {W}. Arguments h_freep {W}. Arguments h_world {W}.

Section malloc.
  Context {W : Type} `{SB : Sbrk W}.
  (** The address of the variable [base]. *)
  Context (base : Z).

Definition set_mem (m : mem) (s : heap W) : heap W := mkheap m (h_freep s) (h_world s).
Definition set_freep (p : Z) (s : heap W) : heap W := mkheap (h_mem s) p (h_world s).

(** [p->s.ptr] and [p->s.size] *)
Definition hptr (p : Z) : M (heap W) Z := gets (λ s, load64 (h_mem s) p).
Definition hsize (p : Z) : M (heap W) Z := gets (λ s, load32 (h_mem s) (p + 8)).
Definition set_hptr (p v : Z) : M (heap W) unit := modify (λ s, set_mem (store64 (h_mem s) p v) s).
Definition set_hsize (p v : Z) : M (heap W) unit := modify (λ s, set_mem (store32 (h_mem s) (p + 8) v) s).

Definition world_lens : lens (heap W) W := {| view := h_world; upd w s := mkheap (h_mem s) (h_freep s) w |}.

(** The block after which [bp] belongs. *)
Fixpoint free_find (fuel : nat) (bp p : Z) : M (heap W) Z :=
  match fuel with
  | O => λ _, OutOfFuel
  | S fuel' =>
      next <- hptr p ;;
      if (p <? bp) && (bp <? next) then ret p
      else if (next <=? p) && ((p <? bp) || (bp <? next)) then ret p
      else free_find fuel' bp next
  end.

Definition free (fuel : nat) (ap : Z) : M (heap W) unit :=
  let bp := u64 (ap - HSIZE) in
  fp <- gets h_freep ;;
  p <- free_find fuel bp fp ;;
  bsz <- hsize bp ;;
  next <- hptr p ;;
  (if u64 (bp + HSIZE * bsz) =? next
   then
     nsz <- hsize next ;;
     set_hsize bp (u32 (bsz + nsz)) ;;
     nnext <- hptr next ;;
     set_hptr bp nnext
   else set_hptr bp next) ;;
  psz <- hsize p ;;
  (if u64 (p + HSIZE * psz) =? bp
   then
     bsz <- hsize bp ;;
     set_hsize p (u32 (psz + bsz)) ;;
     bnext <- hptr bp ;;
     set_hptr p bnext
   else set_hptr p bp) ;;
  modify (set_freep p).

(** [nu * sizeof(Header)] is 64 bits wide, the parameter of [sbrk] an [int]. *)
Definition morecore (fuel : nat) (nu : Z) : M (heap W) Z :=
  let nu := if nu <? 4096 then 4096 else nu in
  p <- zoom world_lens (sbrk (s32 (u64 (nu * HSIZE)))) ;;
  if p =? SBRK_ERROR then ret 0
  else
    set_hsize p nu ;;
    free fuel (u64 (p + HSIZE)) ;;
    gets h_freep.

Definition units (nbytes : Z) : Z := u32 (u64 (nbytes + HSIZE - 1) / HSIZE + 1).

(** The block [p] of [sz] units, or its last [nunits] ones. *)
Definition malloc_take (nunits prevp p sz : Z) : M (heap W) Z :=
  r <- (if sz =? nunits
        then next <- hptr p ;; set_hptr prevp next ;; ret p
        else
          set_hsize p (u32 (sz - nunits)) ;;
          sz <- hsize p ;;
          let q := u64 (p + HSIZE * sz) in
          set_hsize q nunits ;; ret q) ;;
  modify (set_freep prevp) ;;
  ret (u64 (r + HSIZE)).

Fixpoint malloc_loop (fuel : nat) (nunits prevp p : Z) : M (heap W) Z :=
  match fuel with
  | O => λ _, OutOfFuel
  | S fuel' =>
      sz <- hsize p ;;
      if nunits <=? sz then malloc_take nunits prevp p sz
      else
        fp <- gets h_freep ;;
        if p =? fp then
          p <- morecore fuel nunits ;;
          if p =? 0 then ret 0
          else
            next <- hptr p ;;
            malloc_loop fuel' nunits p next
        else
          next <- hptr p ;;
          malloc_loop fuel' nunits p next
  end.

Definition malloc (fuel : nat) (nbytes : Z) : M (heap W) Z :=
  let nunits := units nbytes in
  fp <- gets h_freep ;;
  (if fp =? 0
   then set_hptr base base ;; modify (set_freep base) ;; set_hsize base 0
   else ret tt) ;;
  prevp <- gets h_freep ;;
  p <- hptr prevp ;;
  malloc_loop fuel nunits prevp p.
End malloc.

(** * Blocks *)

(** A block: its address and its number of units.  [base] has no units, but its
    header takes up a unit's worth of memory. *)
Notation blk := (Z * Z)%type (only parsing).

Definition bend (b : blk) : Z := b.1 + 16 * Z.max 1 b.2.

Definition disj (b c : blk) : Prop := bend b ≤ c.1 ∨ bend c ≤ b.1.

(** Every block is related to those after it. *)
Fixpoint pairs (R : blk → blk → Prop) (l : list blk) : Prop :=
  match l with
  | [] => True
  | b :: l' => Forall (R b) l' ∧ pairs R l'
  end.

Lemma pairs_app R l1 l2 : pairs R (l1 ++ l2) ↔ pairs R l1 ∧ pairs R l2 ∧ Forall (λ b, Forall (R b) l2) l1.
Proof.
  induction l1 as [|b l1 IH]; cbn [pairs app]; [rewrite Forall_nil; tauto|].
  rewrite IH, Forall_app, Forall_cons. tauto.
Qed.

(** No two blocks overlap. *)
Definition apart : list blk → Prop := pairs disj.

(** In order of address, with a gap after each block. *)
Definition spaced : list blk → Prop := pairs (λ b c, b.1 + 16 * b.2 < c.1).

Lemma disj_sym b c : disj b c → disj c b.
Proof. unfold disj. tauto. Qed.

#[global] Instance apart_perm : Proper ((≡ₚ) ==> iff) apart.
Proof.
  unfold apart. assert (H : ∀ l1 l2, l1 ≡ₚ l2 → pairs disj l1 → pairs disj l2).
  { induction 1 as [|b l1 l2 Hp IH|b c l|l1 l2 l3 H1 IH1 H2 IH2]; cbn [pairs]; [done| | |naive_solver].
    - intros [Hf Ha]. split; [by rewrite <-Hp|auto].
    - rewrite !Forall_cons. intros ([H1 H2] & H3 & H4). auto using disj_sym. }
  intros l1 l2 Hp. split; by apply H.
Qed.

(** A block inside another is apart from what the other is apart from. *)
Lemma disj_inside b b' c : b.1 ≤ b'.1 → bend b' ≤ bend b → disj b c → disj b' c.
Proof. unfold disj, bend. lia. Qed.

Lemma apart_shrink b b' l : b.1 ≤ b'.1 → bend b' ≤ bend b → apart (b :: l) → apart (b' :: l).
Proof. intros H1 H2 [Hf Ha]. split; [|done]. eapply Forall_impl; [done|]. intros c. by apply disj_inside. Qed.

Lemma apart_split a s t l : 1 ≤ s → 1 ≤ t → apart ((a, s + t) :: l) → apart ((a, s) :: (a + 16 * s, t) :: l).
Proof.
  intros Hs Ht H. unfold apart. cbn [pairs]. rewrite Forall_cons. split_and!.
  - unfold disj, bend. cbn. lia.
  - apply (apart_shrink (a, s + t) (a, s)) in H; [apply H|cbn; lia|unfold bend; cbn; lia].
  - apply (apart_shrink (a, s + t) (a + 16 * s, t)) in H; [apply H|cbn; lia|unfold bend; cbn; lia].
  - apply H.
Qed.

Lemma apart_merge a s t l : 1 ≤ s → 1 ≤ t → apart ((a, s) :: (a + 16 * s, t) :: l) → apart ((a, s + t) :: l).
Proof.
  intros Hs Ht ([_ H1]%Forall_cons & H2 & H3). split; [|done]. rewrite Forall_forall in *. intros c Hc.
  specialize (H1 c Hc). specialize (H2 c Hc). unfold disj, bend in *. cbn in *. lia.
Qed.

(** The number of units in a list of blocks. *)
Definition total (l : list blk) : Z := foldr (λ b n, b.2 + n) 0 l.

Lemma total_app l1 l2 : total (l1 ++ l2) = total l1 + total l2.
Proof. induction l1 as [|b l1 IH]; cbn [total foldr app]; [done|]. unfold total in *. rewrite IH. lia. Qed.

Lemma total_cons b l : total (b :: l) = b.2 + total l.
Proof. done. Qed.

(** * The free list in memory *)

Definition hd_or (e : Z) (l : list blk) : Z := match l with [] => e | b :: _ => b.1 end.

(** The blocks [l], linked one to the next and the last one to [e]. *)
Fixpoint chain (m : mem) (l : list blk) (e : Z) : Prop :=
  match l with
  | [] => True
  | b :: l' => load64 m b.1 = hd_or e l' ∧ load32 m (b.1 + 8) = b.2 ∧ chain m l' e
  end.

Lemma hchain_app m l1 l2 e : chain m (l1 ++ l2) e ↔ chain m l1 (hd_or e l2) ∧ chain m l2 e.
Proof.
  induction l1 as [|b l1 IH]; cbn [chain app]; [tauto|]. rewrite IH.
  replace (hd_or e (l1 ++ l2)) with (hd_or (hd_or e l2) l1) by (by destruct l1). tauto.
Qed.

(** The header of [b] is the same in both memories. *)
Definition same_header (m m' : mem) (b : blk) : Prop := ∀ x, b.1 ≤ x < b.1 + 16 → ldb m' x = ldb m x.

Lemma header_loads m m' b : same_header m m' b → load64 m' b.1 = load64 m b.1 ∧ load32 m' (b.1 + 8) = load32 m (b.1 + 8).
Proof. intros H. split; [apply (load_ext 8)|apply (load_ext 4)]; intros x Hx; apply H; lia. Qed.

Lemma hchain_frame m m' l e : Forall (same_header m m') l → chain m l e → chain m' l e.
Proof.
  induction l as [|b l IH]; [done|]. intros [Hb Hl]%Forall_cons (H1 & H2 & H3). destruct (header_loads m m' b Hb) as [E1 E2].
  cbn [chain]. rewrite E1, E2. auto.
Qed.

Lemma chain_lookup m l e i b : chain m l e → l !! i = Some b → load64 m b.1 = hd_or e (drop (S i) l) ∧ load32 m (b.1 + 8) = b.2.
Proof.
  intros Hc Hi. rewrite <-(take_drop_middle _ _ _ Hi) in Hc. apply hchain_app in Hc as [_ (H1 & H2 & _)]. by split.
Qed.


Lemma load32_store32_eq m a v : 0 ≤ v < 4294967296 → load32 (store32 m a v) a = v.
Proof. intros Hv. unfold load32, store32. rewrite (load_store_eq 4). by apply Z.mod_small. Qed.

Section link.
  (** The heap lies between the break the program starts with, [lo], and [top]. *)
  Context (base lo top : Z) (Hbase : 0 < base) (Hlo : base + 16 ≤ lo) (Hbt : lo ≤ top) (Htop : top ≤ 68719476736).

(** A block of the heap, and one that may also be [base]. *)
Definition valid (b : blk) : Prop := 1 ≤ b.2 ∧ lo ≤ b.1 ∧ b.1 + 16 * b.2 ≤ top.
Definition valid0 (b : blk) : Prop := b = (base, 0) ∨ valid b.

(** What [free] does twice: make [x] the block before [nx], or one block of both. *)
Definition link (m : mem) (x nx : Z) : mem :=
  if u64 (x + 16 * load32 m (x + 8)) =? nx
  then let m1 := store32 m (x + 8) (u32 (load32 m (x + 8) + load32 m (nx + 8))) in store64 m1 x (load64 m1 nx)
  else store64 m x nx.

Lemma link_outside m x nx y : y < x ∨ x + 16 ≤ y → ldb (link m x nx) y = ldb m y.
Proof.
  intros Hy. unfold link, store64, store32. case_match; rewrite !(ldb_store 8), ?(ldb_store 4) by lia; done.
Qed.

Lemma link_headers m x nx l : Forall (λ c, x + 16 ≤ c.1 ∨ c.1 + 16 ≤ x) l → Forall (same_header m (link m x nx)) l.
Proof. intros H. eapply Forall_impl; [done|]. intros c Hc y Hy. apply link_outside. cbv beta in Hc. lia. Qed.

Lemma link_ok m x xs l R :
  load32 m (x + 8) = xs → chain m l base → Forall valid l → spaced l → Forall (λ c, x < c.1) l →
  apart ((x, xs) :: l ++ R) → valid0 (x, xs) → (x = base → l ≠ []) →
  ∃ xs' l', chain (link m x (hd_or base l)) ((x, xs') :: l') base ∧ spaced ((x, xs') :: l') ∧
    apart ((x, xs') :: l' ++ R) ∧ xs' + total l' = xs + total l ∧ Forall valid l' ∧ valid0 (x, xs') ∧ (length l' ≤ length l)%nat ∧
    (∀ c, c ∈ (x, xs) :: l → ∃ c', c' ∈ (x, xs') :: l' ∧ c.2 ≤ c'.2).
Proof.
  intros Hxs Hc Hv Hsp Hlt Hap Hx Hb. pose proof Hap as [Hd Ha]. apply Forall_app in Hd as [Hd HdR].
  assert (Hx' : 0 ≤ xs ∧ base ≤ x ∧ (xs = 0 → x = base) ∧ (x = base → xs = 0) ∧ (x ≠ base → lo ≤ x ∧ x + 16 * xs ≤ top)).
  { destruct Hx as [[= -> ->]|(H1 & H2 & H3)]; cbn in *; lia. }
  assert (Hfar : Forall (λ c, x + 16 ≤ c.1 ∨ c.1 + 16 ≤ x) l).
  { rewrite Forall_forall in *. intros c Hcl. specialize (Hd c Hcl). specialize (Hlt c Hcl). unfold disj, bend in Hd. cbn in *. lia. }
  pose proof (hchain_frame m _ l base (link_headers m x (hd_or base l) l Hfar) Hc) as Hc'.
  assert (Hu : x ≠ base → u64 (x + 16 * xs) = x + 16 * xs) by (intros ?; apply u64_id; lia).
  assert (Hkeep : u64 (x + 16 * xs) ≠ hd_or base l →
    chain (link m x (hd_or base l)) ((x, xs) :: l) base ∧ spaced ((x, xs) :: l)).
  { intros Hne. split.
    - cbn [chain fst snd]. unfold link in *. rewrite Hxs in *. rewrite (proj2 (Z.eqb_neq _ _) Hne) in *. split_and!; [| |done].
      + rewrite load64_store64_eq. apply u64_id. destruct l as [|c l]; cbn; [lia|]. inversion Hv as [|? ? (H1 & H2 & H3) _]; subst. lia.
      + unfold load32, store64. rewrite (load_store_ne 4 8) by (unfold disjoint_ranges; lia). done.
    - split; [|done]. cbn [fst snd]. destruct l as [|c l]; [done|]. inversion Hv as [|? ? (H1 & H2 & H3) _]; subst.
      inversion Hlt as [|? ? H4 _]; subst. inversion Hd as [|? ? H5 _]; subst. unfold disj, bend in H5. cbn [fst snd hd_or] in *.
      assert (x + 16 * load32 m (x + 8) < c.1) by (destruct (decide (x = base)); [lia|rewrite Hu in Hne by done; lia]).
      constructor; [done|]. destruct Hsp as [Hsp _]. eapply Forall_impl; [exact Hsp|]. intros d Hd'. cbn in Hd'. lia. }
  destruct (decide (u64 (x + 16 * xs) = hd_or base l)) as [He|Hne].
  2: { destruct (Hkeep Hne). exists xs, l. split_and!; try done. intros c Hcl. by exists c. }
  clear Hkeep. destruct l as [|c l]; cbn [hd_or] in *.
  { assert (x ≠ base) by (intros ->; by apply Hb). rewrite Hu in He by done. lia. }
  inversion Hv as [|? ? (H1 & H2 & H3) Hv']; subst. inversion Hfar as [|? ? H4 Hfar']; subst. inversion Hlt as [|? ? H5 _]; subst.
  assert (Hxb : x ≠ base). { intros ->. replace (load32 m (base + 8)) with 0 in He by lia. rewrite u64_id in He by lia. lia. }
  rewrite Hu in He by done. destruct Hc as (C1 & C2 & C3). destruct Hc' as (_ & _ & Hc'). destruct Hsp as [Hsp1 Hsp2].
  set (xs := load32 m (x + 8)) in *. exists (xs + c.2), l. split_and!.
  - cbn [chain fst snd]. split_and!; [| |done]; unfold link; rewrite (proj2 (Z.eqb_eq (u64 (x + 16 * load32 m (x + 8))) c.1)) by (fold xs; rewrite Hu; lia); cbv zeta.
    + rewrite load64_store64_eq. rewrite u64_id by apply load64_bound. rewrite <-C1. unfold load64, store32. apply (load_store_ne 8 4). unfold disjoint_ranges. lia.
    + unfold load32 at 1, store64. rewrite (load_store_ne 4 8) by (unfold disjoint_ranges; lia). fold load32. rewrite C2.
      unfold u32. rewrite Z.mod_small by lia. apply load32_store32_eq. fold xs. lia.
  - split; [|done]. eapply Forall_impl; [exact Hsp1|]. intros d Hd'. cbn in *. lia.
  - change ((c :: l) ++ R) with (c :: l ++ R) in Hap. destruct c as [c cs]. cbn in *. subst c. apply apart_merge; [lia|lia|done].
  - rewrite total_cons. lia.
  - done.
  - right. unfold valid. cbn. lia.
  - cbn. lia.
  - intros d [->|[->|Hd']%elem_of_cons]%elem_of_cons; [exists (x, xs + c.2)|exists (x, xs + c.2)|exists d]; (split; [by constructor|cbn; lia]).
Qed.

(** [bp] enters the free list after [p]. *)
Lemma insert_ok m rest al bp bs l1 p l2 (m' := link (link m bp (load64 m p.1)) p.1 bp) :
  (base, 0) :: rest = l1 ++ p :: l2 → Forall valid rest → valid (bp, bs) → load32 m (bp + 8) = bs →
  chain m (l1 ++ p :: l2) base → spaced (l1 ++ p :: l2) → apart ((l1 ++ p :: l2) ++ (bp, bs) :: al) →
  p.1 < bp → Forall (λ c, bp < c.1) l2 →
  ∃ ps l3, chain m' (l1 ++ (p.1, ps) :: l3) base ∧ spaced (l1 ++ (p.1, ps) :: l3) ∧ apart ((l1 ++ (p.1, ps) :: l3) ++ al) ∧
    ps + total l3 = p.2 + total l2 + bs ∧ Forall valid l3 ∧ valid0 (p.1, ps) ∧ (length l3 ≤ length l2 + 1)%nat ∧
    ∃ c, c ∈ (p.1, ps) :: l3 ∧ bs ≤ c.2.
Proof.
  intros E Hr Hb Lb Hc Hsp Hap Hp Hl2. apply hchain_app in Hc as (C1 & C2 & C3 & C4). apply pairs_app in Hsp as (S1 & [S2 S3] & S4).
  assert (Hvl : Forall valid0 (l1 ++ p :: l2)).
  { rewrite <-E. constructor; [by left|]. eapply Forall_impl; [exact Hr|]. by right. }
  apply Forall_app in Hvl as [V1 [V2 _]%Forall_cons].
  assert (Hv2 : Forall valid l2).
  { destruct l1 as [|b l1]; cbn in E; injection E as E1 E2; subst; [done|]. apply Forall_app in Hr as [_ [_ ?]%Forall_cons]. done. }
  assert (Hpm : (l1 ++ p :: l2) ++ (bp, bs) :: al ≡ₚ (bp, bs) :: l2 ++ p :: l1 ++ al) by solve_Permutation.
  rewrite Hpm in Hap. destruct Hap as [D Hap]. pose proof D as [_ [Dp [D1 _]%Forall_app]%Forall_cons]%Forall_app.
  unfold m'. rewrite C2.
  destruct (link_ok m bp bs l2 (p :: l1 ++ al)) as (bs' & l2' & K1 & K2 & K3 & K4 & K5 & K6 & K7 & K8); try done; [by right|unfold valid in Hb; cbn in Hb; lia|].
  assert (Dp' : p.1 + 16 ≤ bp) by (unfold disj, bend in Dp; cbn in Dp; lia).
  set (m1 := link m bp (hd_or base l2)) in *.
  assert (Hpm1 : (bp, bs') :: l2' ++ p :: l1 ++ al ≡ₚ p :: ((bp, bs') :: l2') ++ l1 ++ al) by solve_Permutation.
  rewrite Hpm1 in K3. destruct p as [p ps]. cbn [fst snd] in *.
  assert (Hl : load32 m1 (p + 8) = ps).
  { rewrite <-C3. apply (load_ext 4). intros x Hx. apply link_outside. lia. }
  assert (Hbv : valid (bp, bs')). { destruct K6 as [[= -> ->]|?]; [|done]. unfold valid in Hb. cbn in Hb. lia. }
  destruct (link_ok m1 p ps ((bp, bs') :: l2') (l1 ++ al)) as (ps' & l3 & J1 & J2 & J3 & J4 & J5 & J6 & J7 & J8); try done; [by constructor| |].
  { constructor; [done|]. destruct K2 as [K2 _]. eapply Forall_impl; [exact K2|]. intros c Hcc. unfold valid in Hbv. cbn in *. lia. }
  exists ps', l3. rewrite total_cons in J4. cbn [snd] in J4. split_and!; try done.
  - apply hchain_app. split; [|done]. cbn [hd_or fst]. eapply hchain_frame; [|exact C1]. destruct K3 as [[_ [K3 _]%Forall_app]%Forall_app _].
    rewrite Forall_forall in *. intros b Hb1 x Hx. specialize (D1 b Hb1). specialize (K3 b Hb1). pose proof (S4 b Hb1) as [S4' _]%Forall_cons.
    destruct (V1 b Hb1) as [->|(? & _)]; unfold disj, bend in *; cbn [fst snd] in *; (rewrite link_outside by lia; apply link_outside; lia).
  - apply pairs_app. split_and!; [done|done|]. eapply Forall_impl; [exact S4|]. intros b [Hbp _]%Forall_cons. cbn in Hbp. constructor; [done|].
    destruct J2 as [J2 _]. eapply Forall_impl; [exact J2|]. intros c Hcc. cbn in *. destruct J6 as [[= -> ->]|(? & _)]; cbn in *; lia.
  - eapply apart_perm; [|exact J3]. solve_Permutation.
  - lia.
  - cbn in J7. lia.
  - destruct (K8 (bp, bs)) as (c & Hc & Hcs); [by left|]. destruct (J8 c) as (c' & Hc' & Hcs'); [by right|]. exists c'. split; [done|]. cbn in *. lia.
Qed.
End link.

Lemma pairs_lookup R l i j b c : pairs R l → (i < j)%nat → l !! i = Some b → l !! j = Some c → R b c.
Proof.
  revert i j. induction l as [|d l IH]; intros i j Hp Hij Hi Hj; [done|]. destruct Hp as [Hd Hp].
  destruct i as [|i], j as [|j]; cbn in *; try lia; [|eapply IH; [done| |done|done]; lia].
  injection Hi as <-. rewrite Forall_forall in Hd. apply Hd. by eapply list_elem_of_lookup_2.
Qed.

Lemma hd_or_drop e l i : hd_or e (drop i l) = match l !! i with Some b => b.1 | None => e end.
Proof. revert i. induction l as [|b l IH]; intros [|i]; cbn; auto. Qed.

(** The blocks of a list in order on both sides of an address. *)
Lemma split_at bp l b :
  spaced (b :: l) → Forall (λ c, 0 ≤ c.2) (b :: l) → b.1 < bp → Forall (λ c, c.1 ≠ bp) l →
  ∃ l1 p l2, b :: l = l1 ++ p :: l2 ∧ p.1 < bp ∧ Forall (λ c, bp < c.1) l2.
Proof.
  revert b. induction l as [|c l IH]; intros b Hs Hp Hb Hne; [by exists [], b, []|].
  destruct Hs as [_ Hs]. apply Forall_cons in Hp as [_ Hp]. apply Forall_cons in Hne as [Hc Hne].
  destruct (decide (c.1 < bp)) as [Hlt|Hge].
  - destruct (IH c Hs Hp Hlt Hne) as (l1 & p & l2 & -> & H1 & H2). by exists (b :: l1), p, l2.
  - exists [], b, (c :: l). split_and!; [done|done|]. constructor; [lia|]. apply Forall_cons in Hp as [Hp _].
    destruct Hs as [Hs _]. eapply Forall_impl; [exact Hs|]. intros d Hd. cbn in *. lia.
Qed.

(** How far it is from position [i] of a ring of [n] blocks to position [j]. *)
Definition dist (n j i : nat) : nat := if decide (i ≤ j)%nat then j - i else n - i + j.

Section heap.
  Context {W : Type} `{SB : Sbrk W}.
  Context (base lo : Z) (Hbase : 0 < base) (Hlo : base + 16 ≤ lo).

(** The free blocks are [fs], the blocks in use [al]. *)
Record heap_inv (fs al : list blk) (s : heap W) : Prop := {
  hi_top : lo ≤ u_top (h_world s) ≤ 68719476736;
  hi_head : ∃ rest, fs = (base, 0) :: rest ∧ Forall (valid lo (u_top (h_world s))) rest;
  hi_valid : Forall (valid lo (u_top (h_world s))) al;
  hi_chain : chain (h_mem s) fs base;
  hi_spaced : spaced fs;
  hi_apart : apart (fs ++ al);
  hi_live : Forall (λ b, load32 (h_mem s) (b.1 + 8) = b.2) al;
  hi_freep : h_freep s ∈ fs.*1;
}.

Lemma sizes_nonneg fs al s : heap_inv fs al s → Forall (λ c, 0 ≤ c.2) fs.
Proof.
  intros [_ (rest & -> & Hr) _ _ _ _ _ _]. constructor; [done|]. eapply Forall_impl; [exact Hr|]. intros c (H & _). lia.
Qed.

(** * free *)

Section find.
  Context (fs al : list blk) (s : heap W) (bp : Z).
  Context (HI : heap_inv fs al s) (l1 l2 : list blk) (p : blk) (Hfs : fs = l1 ++ p :: l2).
  Context (Hp : p.1 < bp) (Hl2 : Forall (λ c, bp < c.1) l2).

Lemma position i b :
  fs !! i = Some b →
  ((i ≤ length l1)%nat → b.1 ≤ p.1) ∧ ((length l1 < i)%nat → bp < b.1) ∧ base ≤ b.1 ∧ (i = length l1 → b = p) ∧
  match fs !! S i with Some c => b.1 < c.1 | None => i = (length fs - 1)%nat end.
Proof.
  intros Hi. pose proof HI as [_ (rest & Hr & Hv) _ _ Hsp _ _ _]. pose proof (sizes_nonneg _ _ _ HI) as Hnn. rewrite Forall_forall in Hnn.
  assert (Hk : fs !! length l1 = Some p) by (rewrite Hfs; by apply list_lookup_middle).
  pose proof (Hnn b ltac:(by eapply list_elem_of_lookup_2)). cbv beta in *. split_and!.
  - intros Hle. destruct (decide (i = length l1)) as [->|]; [simplify_eq; lia|].
    pose proof (pairs_lookup _ _ i (length l1) b p Hsp ltac:(lia) Hi Hk). cbn in *. lia.
  - intros Hlt. rewrite Hfs, lookup_app_r in Hi by lia. destruct (i - length l1)%nat as [|j] eqn:Hj; [lia|]. cbn in Hi.
    rewrite Forall_forall in Hl2. apply Hl2. by eapply list_elem_of_lookup_2.
  - subst fs. rewrite Hr in Hi. destruct i as [|i]; cbn in Hi; [injection Hi as <-; done|]. apply list_elem_of_lookup_2 in Hi.
    rewrite Forall_forall in Hv. destruct (Hv b Hi) as (_ & ? & _). lia.
  - intros ->. congruence.
  - destruct (fs !! S i) as [c|] eqn:Hc; [|apply lookup_ge_None in Hc; apply lookup_lt_Some in Hi; lia].
    pose proof (pairs_lookup _ _ i (S i) b c Hsp ltac:(lia) Hi Hc). cbn in *. lia.
Qed.

Lemma find_ok d fuel i b : dist (length fs) (length l1) i = d → (d < fuel)%nat → fs !! i = Some b → free_find fuel bp b.1 s = Ok p.1 s.
Proof.
  revert fuel i b. induction d as [|d IH]; intros fuel i b Hd Hf Hi; (destruct fuel as [|fuel]; [lia|]); cbn [free_find]; unfold hptr; run.
  all: destruct (chain_lookup _ _ _ _ _ (hi_chain _ _ _ HI) Hi) as [-> _]; rewrite hd_or_drop.
  all: pose proof (lookup_lt_Some _ _ _ Hi) as Hil; unfold dist in *; assert (Hlen : (length l1 < length fs)%nat) by (rewrite Hfs, length_app; cbn; lia).
  all: destruct (position i b Hi) as (P1 & P2 & P3 & P4 & P5).
  - assert (i = length l1) by (case_decide; lia). assert (b = p) as -> by auto.
    destruct (fs !! S i) as [c|] eqn:Hc.
    + destruct (position (S i) c Hc) as (_ & Q2 & _). specialize (Q2 ltac:(lia)).
      rewrite (proj2 (Z.ltb_lt p.1 bp)), (proj2 (Z.ltb_lt bp c.1)) by lia. done.
    + rewrite (proj2 (Z.ltb_lt p.1 bp)), (proj2 (Z.leb_le base p.1)) by lia. by destruct (bp <? base).
  - assert (Hns : ∀ nx, ((i < length l1)%nat → b.1 < nx ≤ p.1) → ((length l1 < i)%nat → bp < b.1 ∧ (b.1 < nx ∨ nx = base)) → base < bp →
      (b.1 <? bp) && (bp <? nx) = false ∧ (nx <=? b.1) && ((b.1 <? bp) || (bp <? nx)) = false).
    { intros nx N1 N2 N3. destruct (decide (i < length l1)%nat) as [Hl|Hl].
      - specialize (N1 Hl). destruct (b.1 <? bp) eqn:?, (bp <? nx) eqn:?, (nx <=? b.1) eqn:?; cbn; done || lia.
      - specialize (N2 ltac:(case_decide; lia)). destruct (b.1 <? bp) eqn:?, (bp <? nx) eqn:?, (nx <=? b.1) eqn:?; cbn; done || lia. }
    assert (Hbb : base < bp). { destruct (position (length l1) p ltac:(rewrite Hfs; by apply list_lookup_middle)) as (_ & _ & ? & _). lia. }
    destruct (fs !! S i) as [c|] eqn:Hc.
    + destruct (position (S i) c Hc) as (Q1 & _). destruct (Hns c.1) as [-> ->]; [intros; split; [done|apply Q1; lia]|intros; split; [auto|by left]|done|].
      apply (IH fuel (S i) c); [repeat case_decide; lia|lia|done].
    + destruct (Hns base) as [-> ->]; [case_decide; lia|intros; split; [auto|by right]|done|].
      destruct (hi_head _ _ _ HI) as (rest & Hr & _). apply (IH fuel O (base, 0)); [|lia|by rewrite Hr].
      rewrite decide_True by lia. case_decide; lia.
Qed.
End find.

Lemma link_run (s : heap W) x nx :
  (if u64 (x + HSIZE * load32 (h_mem s) (x + 8)) =? nx
   then
     nsz <- hsize nx ;;
     set_hsize x (u32 (load32 (h_mem s) (x + 8) + nsz)) ;;
     next <- hptr nx ;;
     set_hptr x next
   else set_hptr x nx) s = Ok tt (set_mem (link (h_mem s) x nx) s).
Proof. unfold link, HSIZE. by destruct (_ =? nx). Qed.

(** The memory of a block in use. *)
Definition same_block (m m' : mem) (b : blk) : Prop := ∀ x, b.1 ≤ x < b.1 + 16 * b.2 → ldb m' x = ldb m x.

Lemma live_kept m m' al top :
  Forall (valid lo top) al → Forall (same_block m m') al → Forall (λ b, load32 m (b.1 + 8) = b.2) al →
  Forall (λ b, load32 m' (b.1 + 8) = b.2) al.
Proof.
  rewrite !Forall_forall. intros Hv Hs Hl b Hb. cbv beta in *. rewrite <-(Hl b Hb). apply (load_ext 4). intros x Hx. apply (Hs b Hb).
  destruct (Hv b Hb) as (? & _). lia.
Qed.

Lemma head_kept top rest l1 p l2 ps l3 :
  (base, 0) :: rest = l1 ++ p :: l2 → Forall (valid lo top) rest → Forall (valid lo top) l3 → valid0 base lo top (p.1, ps) →
  ∃ rest', l1 ++ (p.1, ps) :: l3 = (base, 0) :: rest' ∧ Forall (valid lo top) rest'.
Proof.
  intros E Hr H3 Hp. destruct l1 as [|b l1]; cbn in E; injection E as E1 E2; subst; cbn [app fst] in *.
  - exists l3. split; [|done]. destruct Hp as [[= ->]|(_ & H & _)]; [done|]. cbn in H. lia.
  - exists (l1 ++ (p.1, ps) :: l3). split; [done|]. apply Forall_app in Hr as [H1 [(_ & H2 & _) _]%Forall_cons].
    apply Forall_app. split; [done|]. constructor; [|done]. destruct Hp as [[= E1 _]|?]; [|done]. lia.
Qed.

Lemma free_ok fs al s bp bs fuel :
  heap_inv fs ((bp, bs) :: al) s → (length fs < fuel)%nat →
  ∃ fs' s', free fuel (bp + 16) s = Ok tt s' ∧ heap_inv fs' al s' ∧ h_world s' = h_world s ∧
    total fs' = total fs + bs ∧ (length fs' ≤ length fs + 1)%nat ∧ (∃ c, c ∈ fs' ∧ bs ≤ c.2) ∧
    Forall (same_block (h_mem s) (h_mem s')) al.
Proof.
  intros HI Hf. pose proof HI as [[T1 T2] (rest & Hfs & Hr) Hv Hc Hsp Hap Hlive Hfp].
  apply Forall_cons in Hv as [(B1 & B2 & B3) Hv]. apply Forall_cons in Hlive as [Lb Hlive]. cbn [fst snd] in *.
  assert (Hdj : ∀ c, c ∈ fs → disj (bp, bs) c).
  { rewrite <-Permutation_middle in Hap. destruct Hap as [Hap _]. apply Forall_app in Hap as [Hap _]. by rewrite Forall_forall in Hap. }
  destruct (split_at bp rest (base, 0)) as (l1 & p & l2 & E & Hp & Hl2).
  { by rewrite <-Hfs. }
  { rewrite <-Hfs. by eapply sizes_nonneg. }
  { cbn. lia. }
  { apply Forall_forall. intros c Hcr. specialize (Hdj c ltac:(rewrite Hfs; by right)). unfold disj, bend in Hdj. cbn in Hdj. lia. }
  rewrite <-Hfs in E. apply list_elem_of_fmap in Hfp as (b0 & Hb0 & Hin). apply list_elem_of_lookup in Hin as [i Hi].
  assert (Hd : (dist (length fs) (length l1) i < fuel)%nat).
  { unfold dist. apply lookup_lt_Some in Hi. assert (length fs = length l1 + S (length l2))%nat by (rewrite E, length_app; done). case_decide; lia. }
  pose proof (find_ok fs _ s bp HI l1 l2 p E Hp Hl2 _ fuel i b0 eq_refl Hd Hi) as Efind. rewrite <-Hb0 in Efind.
  unfold free. rewrite (u64_id (bp + 16 - HSIZE)) by (unfold HSIZE; lia). replace (bp + 16 - HSIZE) with bp by (unfold HSIZE; lia). run.
  rewrite (bind_ok _ _ _ _ _ Efind). unfold hsize at 1, hptr at 1. run. rewrite (bind_ok _ _ _ _ _ (link_run s bp _)).
  unfold hsize at 1. run. rewrite (bind_ok _ _ _ _ _ (link_run _ p.1 bp)). cbn [h_mem set_mem].
  destruct (insert_ok base lo (u_top (h_world s)) Hbase Hlo T1 T2 (h_mem s) rest al bp bs l1 p l2) as (ps & l3 & I1 & I2 & I3 & I4 & I5 & I6 & I7 & I8);
    try (done || by rewrite <-Hfs || by rewrite <-E).
  set (m' := link _ p.1 bp) in *. exists (l1 ++ (p.1, ps) :: l3). eexists. split; [reflexivity|].
  assert (Hsb : Forall (same_block (h_mem s) m') al).
  { rewrite E, <-Permutation_middle in Hap. destruct Hap as [[_ Db]%Forall_app Hap]. apply pairs_app in Hap as (_ & _ & Hap).
    apply Forall_app in Hap as [_ [Dp _]%Forall_cons]. rewrite Forall_forall in *. intros b Hb x Hx. specialize (Db b Hb). specialize (Dp b Hb).
    unfold disj, bend in *. cbn [fst snd] in *. unfold m'. rewrite link_outside by lia. apply link_outside. lia. }
  split_and!; cbn [h_mem h_world set_mem set_freep].
  - constructor; cbn [h_mem h_world h_freep set_mem set_freep]; try done.
    + eapply head_kept; [|exact Hr|done|done]. by rewrite <-Hfs.
    + by eapply live_kept.
    + rewrite fmap_app. apply elem_of_app. right. by left.
  - done.
  - rewrite E, !total_app, !total_cons. cbn [snd]. lia.
  - rewrite E, !length_app. cbn. lia.
  - destruct I8 as (c & Hc8 & ?). exists c. split; [|done]. apply elem_of_app. by right.
  - done.
Qed.

(** * malloc *)

Definition same_ext (m m' : mem) (b : blk) : Prop := ∀ x, b.1 ≤ x < bend b → ldb m' x = ldb m x.

Lemma ext_header m m' l : Forall (same_ext m m') l → Forall (same_header m m') l.
Proof. intros H. eapply Forall_impl; [exact H|]. intros b Hb x Hx. apply Hb. unfold bend. lia. Qed.

Lemma ext_block m m' l : Forall (same_ext m m') l → Forall (same_block m m') l.
Proof. intros H. eapply Forall_impl; [exact H|]. intros b Hb x Hx. apply Hb. unfold bend. lia. Qed.

(** Writing to a block leaves the blocks apart from it as they are. *)
Lemma store_ext n m x v b l :
  b.1 ≤ x → x + Z.of_nat n ≤ bend b → Forall (disj b) l → Forall (same_ext m (store n m x v)) l.
Proof. intros H1 H2 H. eapply Forall_impl; [exact H|]. intros c Hc y Hy. apply ldb_store. unfold disj in Hc. lia. Qed.

Lemma take_exact fs al s l1 pv p l2 (m' := store64 (h_mem s) pv.1 (load64 (h_mem s) p.1)) :
  heap_inv fs al s → fs = l1 ++ pv :: p :: l2 → valid lo (u_top (h_world s)) p →
  heap_inv (l1 ++ pv :: l2) (p :: al) (set_freep pv.1 (set_mem m' s)) ∧ Forall (same_block (h_mem s) m') al.
Proof.
  intros HI E Hp. pose proof HI as [HT (rest & Hfs & Hr) Hv Hc Hsp Hap Hlive Hfp]. rewrite E in Hc, Hsp, Hap. 
  apply hchain_app in Hc as (C1 & C2 & C3 & C4 & C5 & C6). apply pairs_app in Hsp as (S1 & [S2 [S3 S4]] & S5).
  assert (Hpm : (l1 ++ pv :: p :: l2) ++ al ≡ₚ pv :: (l1 ++ p :: l2 ++ al)) by solve_Permutation. pose proof Hap as Hap'.
  rewrite Hpm in Hap'. destruct Hap' as [D _]. apply Forall_app in D as [D1 [Dp [D2 Da]%Forall_app]%Forall_cons].
  assert (Hst : ∀ l, Forall (disj pv) l → Forall (same_ext (h_mem s) m') l).
  { intros l Hl. apply (store_ext 8 _ _ _ pv); [lia|unfold bend; lia|done]. }
  split; [|by apply ext_block, Hst]. constructor; cbn [h_mem h_world h_freep set_mem set_freep]; try done.
  - destruct (head_kept (u_top (h_world s)) rest l1 pv (p :: l2) pv.2 l2) as (rest' & E' & Hr'); [congruence|done| | |].
    + rewrite Hfs in E. destruct l1 as [|b l1]; cbn in E; injection E as E1 E2; subst rest; [by apply Forall_cons in Hr as [_ ?]|].
      apply Forall_app in Hr as [_ [_ [_ ?]%Forall_cons]%Forall_cons]. done.
    + rewrite Hfs in E. destruct l1 as [|b l1]; cbn in E; injection E as E1 E2; subst rest; [left; by rewrite <-E1|right]. rewrite <-surjective_pairing.
      by apply Forall_app in Hr as [_ [? _]%Forall_cons].
    + exists rest'. by rewrite <-E', <-surjective_pairing.
  - by constructor.
  - apply hchain_app. split; [|split_and!].
    + eapply hchain_frame; [|exact C1]. by apply ext_header, Hst.
    + unfold m'. rewrite load64_store64_eq, u64_id by apply load64_bound. done.
    + unfold m', load32, store64. rewrite (load_store_ne 4 8) by (unfold disjoint_ranges; lia). done.
    + eapply hchain_frame; [|exact C6]. by apply ext_header, Hst.
  - apply pairs_app. split_and!; [done| |].
    + split; [|done]. by apply Forall_cons in S2 as [_ ?].
    + eapply Forall_impl; [exact S5|]. intros b [H1 [_ H2]%Forall_cons]%Forall_cons. by constructor.
  - eapply apart_perm; [|exact Hap]. solve_Permutation.
  - constructor.
    + rewrite <-C5. apply (header_loads (h_mem s) m' p). apply (Forall_inv (ext_header _ _ [p] (Hst [p] (Forall_cons_2 _ _ _ Dp (Forall_nil_2 _))))).
    + eapply live_kept; [exact Hv|by apply ext_block, Hst|done].
  - rewrite fmap_app. apply elem_of_app. right. by left.
Qed.

Lemma take_split fs al s l1 p sz l2 n pv (q := p + 16 * (sz - n)) (m' := store32 (store32 (h_mem s) (p + 8) (sz - n)) (q + 8) n) :
  heap_inv fs al s → fs = l1 ++ (p, sz) :: l2 → valid lo (u_top (h_world s)) (p, sz) → 1 ≤ n < sz → pv ∈ (l1 ++ l2).*1 →
  heap_inv (l1 ++ (p, sz - n) :: l2) ((q, n) :: al) (set_freep pv (set_mem m' s)) ∧ Forall (same_block (h_mem s) m') al.
Proof.
  intros HI E Hp Hn Hpv. pose proof HI as [HT (rest & Hfs & Hr) Hv Hc Hsp Hap Hlive Hfp]. rewrite E in Hc, Hsp, Hap.
  apply hchain_app in Hc as (C1 & C2 & C3 & C4). apply pairs_app in Hsp as (S1 & [S2 S3] & S4). cbn [fst snd] in *.
  assert (Hpm : (l1 ++ (p, sz) :: l2) ++ al ≡ₚ (p, sz) :: (l1 ++ l2 ++ al)) by solve_Permutation. pose proof Hap as Hap'.
  rewrite Hpm in Hap'. pose proof Hap' as [D _]. apply Forall_app in D as [D1 [D2 Da]%Forall_app]. destruct Hp as (_ & P2 & P3). cbn [fst snd] in *.
  assert (Hst : ∀ l, Forall (disj (p, sz)) l → Forall (same_ext (h_mem s) m') l).
  { intros l Hl. pose proof (store_ext 4 (h_mem s) (p + 8) (sz - n) (p, sz) l) as X1.
    pose proof (store_ext 4 (store32 (h_mem s) (p + 8) (sz - n)) (q + 8) n (p, sz) l) as X2. unfold bend, q in *. cbn [fst snd] in *.
    specialize (X1 ltac:(lia) ltac:(lia) Hl). specialize (X2 ltac:(lia) ltac:(lia) Hl). rewrite Forall_forall in *.
    intros c Hcl x Hx. etrans; [exact (X2 c Hcl x Hx)|exact (X1 c Hcl x Hx)]. }
  assert (Hsz : 0 ≤ sz - n < 4294967296 ∧ 0 ≤ n < 4294967296) by lia.
  split; [|by apply ext_block, Hst]. constructor; cbn [h_mem h_world h_freep set_mem set_freep]; try done.
  - eapply (head_kept _ rest l1 (p, sz) l2); [congruence|done| |right; unfold valid; cbn; lia].
    rewrite Hfs in E. destruct l1 as [|b l1]; cbn in E; injection E as E1 E2; subst rest; [done|]. by apply Forall_app in Hr as [_ [_ ?]%Forall_cons].
  - constructor; [|done]. unfold valid, q. cbn. lia.
  - apply hchain_app. split; [|split_and!; cbn [fst snd]].
    + eapply hchain_frame; [|exact C1]. by apply ext_header, Hst.
    + rewrite <-C2. unfold m', load64, store32. rewrite !(load_store_ne 8 4) by (unfold disjoint_ranges, q; lia). done.
    + unfold m'. unfold load32, store32 at 1. rewrite (load_store_ne 4 4) by (unfold disjoint_ranges, q; lia). apply load32_store32_eq. lia.
    + eapply hchain_frame; [|exact C4]. by apply ext_header, Hst.
  - apply pairs_app. split_and!; [done| |].
    + split; [|done]. eapply Forall_impl; [exact S2|]. intros c Hcc. cbn in *. lia.
    + eapply Forall_impl; [exact S4|]. intros b [H1 H2]%Forall_cons. by constructor.
  - replace sz with ((sz - n) + n) in Hap' by lia. apply apart_split in Hap'; [|lia|lia]. fold q in Hap'.
    eapply apart_perm; [|exact Hap']. solve_Permutation.
  - constructor.
    + cbn [fst snd]. unfold m'. apply load32_store32_eq. lia.
    + eapply live_kept; [exact Hv|by apply ext_block, Hst|done].
  - rewrite fmap_app in *. rewrite fmap_cons. apply elem_of_app in Hpv. apply elem_of_app. rewrite elem_of_cons. tauto.
Qed.

Lemma take_ok fs al s l1 pv p l2 n :
  heap_inv fs al s → fs = l1 ++ pv :: p :: l2 → 1 ≤ n ≤ p.2 →
  ∃ a fs' s', malloc_take n pv.1 p.1 p.2 s = Ok (a + 16) s' ∧ heap_inv fs' ((a, n) :: al) s' ∧ h_world s' = h_world s ∧
    total fs' + n = total fs ∧ Forall (same_block (h_mem s) (h_mem s')) al.
Proof.
  intros HI E Hn. pose proof HI as [[T1 T2] (rest & Hfs & Hr) _ Hc _ _ _ _]. destruct p as [p sz]. cbn [fst snd] in *.
  assert (Hp : valid lo (u_top (h_world s)) (p, sz)).
  { rewrite Hfs in E. destruct l1 as [|b l1]; cbn in E; injection E as E1 E2; subst rest; [by apply Forall_cons in Hr as [? _]|].
    by apply Forall_app in Hr as [_ [_ [? _]%Forall_cons]%Forall_cons]. }
  pose proof Hp as (P1 & P2 & P3). cbn in P1, P2, P3. unfold malloc_take. destruct (Z.eqb_spec sz n) as [->|Hne]; unfold hptr, hsize, set_hptr, set_hsize; run.
  - destruct (take_exact fs al s l1 pv (p, n) l2 HI E Hp) as [HI' Hb]. exists p, (l1 ++ pv :: l2). eexists.
    rewrite u64_id by (unfold HSIZE; lia). split_and!; [reflexivity|exact HI'|done| |exact Hb]. rewrite E, !total_app, !total_cons. cbn [snd]. lia.
  - cbn [h_mem set_mem]. unfold u32. rewrite Z.mod_small by lia. rewrite load32_store32_eq by lia. unfold HSIZE.
    rewrite (u64_id (p + 16 * (sz - n))) by lia. rewrite u64_id by lia.
    destruct (take_split fs al s (l1 ++ [pv]) p sz l2 n pv.1 HI) as [HI' Hb]; [by rewrite <-app_assoc|done|lia| |].
    { rewrite !fmap_app. apply elem_of_app. left. apply elem_of_app. right. by left. }
    exists (p + 16 * (sz - n)), ((l1 ++ [pv]) ++ (p, sz - n) :: l2). eexists. split_and!; [reflexivity|exact HI'|done| |exact Hb].
    rewrite E, !total_app, !total_cons. change (total []) with 0. cbn [snd]. lia.
Qed.

(** More memory never hurts. *)
Lemma heap_grow fs al s w' :
  heap_inv fs al s → u_top (h_world s) ≤ u_top w' ≤ 68719476736 → heap_inv fs al (mkheap (h_mem s) (h_freep s) w').
Proof.
  intros [H1 (rest & -> & Hr) H3 H4 H5 H6 H7 H8] Hw. constructor; cbn [h_mem h_freep h_world]; try done; [lia| |].
  - exists rest. split; [done|]. eapply Forall_impl; [exact Hr|]. intros b (? & ? & ?). unfold valid. lia.
  - eapply Forall_impl; [exact H3|]. intros b (? & ? & ?). unfold valid. lia.
Qed.

(** The memory between two ends becomes a block in use. *)
Lemma heap_extend fs al s w' nu (p := u_top (h_world s)) :
  heap_inv fs al s → 1 ≤ nu → u_top w' = p + 16 * nu → u_top w' ≤ 68719476736 →
  heap_inv fs ((p, nu) :: al) (mkheap (store32 (h_mem s) (p + 8) nu) (h_freep s) w') ∧
  Forall (same_block (h_mem s) (store32 (h_mem s) (p + 8) nu)) al.
Proof.
  intros HI Hnu Hw Hlim. pose proof HI as [H1 (rest & -> & Hr) H3 H4 H5 H6 H7 H8].
  assert (Hfar : ∀ b, valid0 base lo p b → disj (p, nu) b).
  { intros b [->|(? & ? & ?)]; unfold disj, bend; cbn; unfold p in *; lia. }
  assert (Hst : ∀ l, Forall (valid0 base lo p) l → Forall (same_ext (h_mem s) (store32 (h_mem s) (p + 8) nu)) l).
  { intros l Hl. apply (store_ext 4 _ _ _ (p, nu)); [cbn; lia|unfold bend; cbn; lia|]. eapply Forall_impl; [exact Hl|]. apply Hfar. }
  assert (Hr0 : Forall (valid0 base lo p) ((base, 0) :: rest)). { constructor; [by left|]. eapply Forall_impl; [exact Hr|]. by right. }
  assert (Ha0 : Forall (valid0 base lo p) al) by (eapply Forall_impl; [exact H3|]; by right).
  split; [|by apply ext_block, Hst]. constructor; cbn [h_mem h_freep h_world]; try done; try lia.
  - exists rest. split; [done|]. eapply Forall_impl; [exact Hr|]. intros b (? & ? & ?). unfold valid. unfold p in *. lia.
  - constructor; [unfold valid; cbn [fst snd]; unfold p in *; lia|]. eapply Forall_impl; [exact H3|]. intros b (? & ? & ?). unfold valid. unfold p in *. lia.
  - eapply hchain_frame; [|exact H4]. by apply ext_header, Hst.
  - rewrite <-Permutation_middle. split; [|done]. apply Forall_app. split; (eapply Forall_impl; [eassumption|apply Hfar]).
  - constructor; [apply load32_store32_eq; cbn [snd]; unfold p in *; lia|]. eapply live_kept; [exact H3|by apply ext_block, Hst|done].
Qed.

Definition core_units (nu : Z) : Z := if nu <? 4096 then 4096 else nu.

(** [sbrk] has refused to extend the memory by what [nunits] units take. *)
Definition refused (nunits : Z) (w : W) : Prop := ∃ w', sbrk (16 * core_units nunits) w = Ok SBRK_ERROR w'.

Lemma morecore_ok fs al s nu fuel :
  heap_inv fs al s → (length fs < fuel)%nat → 1 ≤ nu < 134217728 →
  ∃ r s' fs', morecore fuel nu s = Ok r s' ∧ heap_inv fs' al s' ∧ Forall (same_block (h_mem s) (h_mem s')) al ∧
    (r = 0 ∧ fs' = fs ∧ refused nu (h_world s) ∨
     r ≠ 0 ∧ r = h_freep s' ∧ total fs' = total fs + core_units nu ∧ (length fs' ≤ length fs + 1)%nat ∧ ∃ c, c ∈ fs' ∧ nu ≤ c.2).
Proof.
  intros HI Hf Hnu. pose proof HI as [[T1 T2] _ _ _ _ _ _ _]. unfold morecore. cbv zeta. fold (core_units nu).
  assert (Hcu : nu ≤ core_units nu < 134217728 ∧ 4096 ≤ core_units nu) by (unfold core_units; destruct (nu <? 4096) eqn:?; lia).
  replace (s32 (u64 (core_units nu * HSIZE))) with (16 * core_units nu) by (unfold HSIZE; rewrite u64_id, s32_id; lia).
  destruct (sbrk_spec (h_world s) (16 * core_units nu) ltac:(lia)) as (r & w' & E & Hr).
  assert (Ez : zoom world_lens (sbrk (16 * core_units nu)) s = Ok r (mkheap (h_mem s) (h_freep s) w')) by (unfold zoom; cbn; by rewrite E).
  rewrite (bind_ok _ _ _ _ _ Ez). unfold SBRK_ERROR. destruct Hr as [(-> & Ht)|(-> & Ht & Hl)].
  - rewrite Z.eqb_refl. exists 0. eexists. exists fs. split_and!; [reflexivity|apply heap_grow; [done|lia]| |].
    + apply Forall_forall. by intros b _ x _.
    + left. split_and!; [done|done|]. by exists w'.
  - rewrite (proj2 (Z.eqb_neq _ _)) by lia. unfold set_hsize, set_mem. run. cbn [h_mem h_freep h_world].
    destruct (heap_extend fs al s w' (core_units nu) HI ltac:(lia) ltac:(lia) Hl) as [HI1 Hb1].
    rewrite u64_id by (unfold HSIZE; lia).
    destruct (free_ok fs al _ _ _ fuel HI1 Hf) as (fs' & s' & E' & HI' & Hw & Htot & Hlen & (c & Hc & Hcs) & Hb2).
    rewrite (bind_ok _ _ _ _ _ E'). exists (h_freep s'), s', fs'. split_and!; [done|done| |right; split_and!; try done].
    + rewrite Forall_forall in *. intros b Hb x Hx. rewrite (Hb2 b Hb x Hx). by apply (Hb1 b Hb).
    + pose proof HI' as [_ (rest & -> & Hr') _ _ _ _ _ Hfp]. apply list_elem_of_fmap in Hfp as (b & -> & [->|Hb]%elem_of_cons); [cbn; lia|].
      rewrite Forall_forall in Hr'. destruct (Hr' b Hb) as (_ & ? & _). lia.
    + exists c. split; [done|lia].
Qed.

(** A block of [n] units has been taken from the free list. *)
Definition taken (fs al : list blk) (s : heap W) (n r : Z) (s' : heap W) : Prop :=
  ∃ a fs', r = a + 16 ∧ heap_inv fs' ((a, n) :: al) s' ∧ h_world s' = h_world s ∧ total fs' + n = total fs ∧
    Forall (same_block (h_mem s) (h_mem s')) al.

Definition more (fuel : nat) (n : Z) : M (heap W) Z :=
  p <- morecore (S fuel) n ;;
  if p =? 0 then ret 0 else next <- hptr p ;; malloc_loop fuel n p next.

Lemma dist_inj len j i k : (i < len)%nat → (j < len)%nat → (k < len)%nat → dist len j i = dist len j k → i = k.
Proof. unfold dist. intros. repeat case_decide; lia. Qed.

Lemma addr_inj fs al s i j b c : heap_inv fs al s → fs !! i = Some b → fs !! j = Some c → b.1 = c.1 → i = j.
Proof.
  intros HI Hi Hj E. pose proof (sizes_nonneg _ _ _ HI) as Hn. rewrite Forall_forall in Hn. pose proof (hi_spaced _ _ _ HI) as Hs.
  pose proof (Hn b ltac:(by eapply list_elem_of_lookup_2)). pose proof (Hn c ltac:(by eapply list_elem_of_lookup_2)). cbv beta in *.
  destruct (Nat.lt_trichotomy i j) as [Hl|[Hl|Hl]]; [|done|].
  - pose proof (pairs_lookup _ _ _ _ _ _ Hs Hl Hi Hj). cbn in *. lia.
  - pose proof (pairs_lookup _ _ _ _ _ _ Hs Hl Hj Hi). cbn in *. lia.
Qed.

Lemma scan_ok fs al s n j fb d f i prev cur :
  heap_inv fs al s → 1 ≤ n → fs !! j = Some fb → fb.1 = h_freep s →
  dist (length fs) j i = d → fs !! i = Some cur → (∀ i', i = S i' → ∃ pv, fs !! i' = Some pv ∧ pv.1 = prev) →
  (∀ k b, fs !! k = Some b → (d < dist (length fs) j k)%nat → b.2 < n) →
  (∃ r s', malloc_loop (S d + f) n prev cur.1 s = Ok r s' ∧ taken fs al s n r s') ∨
  (malloc_loop (S d + f) n prev cur.1 s = more f n s ∧ ∀ b, b ∈ fs → b.2 < n).
Proof.
  intros HI Hn Hj Hfb. revert i prev cur. induction d as [|d IH]; intros i prev cur Hd Hi Hprev Hsmall; cbn [Nat.add malloc_loop]; unfold hsize; run.
  all: pose proof (lookup_lt_Some _ _ _ Hi) as Hil; pose proof (lookup_lt_Some _ _ _ Hj) as Hjl.
  all: destruct (chain_lookup _ _ _ _ _ (hi_chain _ _ _ HI) Hi) as [Hnx ->]; rewrite hd_or_drop in Hnx.
  all: destruct (Z.leb_spec n cur.2) as [Hle|Hlt].
  1, 3: left; destruct i as [|i];
    [destruct (hi_head _ _ _ HI) as (rest & Hr & _); rewrite Hr in Hi; cbn in Hi; injection Hi as <-; cbn in Hle; lia|];
    destruct (Hprev i eq_refl) as (pv & Hpv & <-);
    assert (E : fs = take i fs ++ pv :: cur :: drop (S (S i)) fs)
      by (rewrite <-(take_drop_middle _ _ _ Hpv) at 1; by rewrite <-(drop_S _ _ _ Hi));
    destruct (take_ok fs al s _ pv cur _ n HI E ltac:(lia)) as (a & fs' & s' & E' & H1 & H2 & H3 & H4);
    exists (a + 16), s'; split; [exact E'|exists a, fs'; auto].
  all: assert (Hsm : ∀ k b, fs !! k = Some b → (dist (length fs) j i ≤ dist (length fs) j k)%nat → b.2 < n)
    by (intros k b Hk Hle; destruct (decide (k = i)) as [->|Hne];
        [simplify_eq; lia|apply (Hsmall k b Hk); pose proof (lookup_lt_Some _ _ _ Hk);
          destruct (decide (dist (length fs) j i = dist (length fs) j k)); [exfalso; by apply Hne, eq_sym, (dist_inj (length fs) j)|lia]]).
  - right. assert (i = j) as -> by (unfold dist in Hd; case_decide; lia). assert (cur = fb) as -> by congruence.
    run. rewrite Hfb, Z.eqb_refl. split; [done|]. intros b [k Hk]%list_elem_of_lookup. apply (Hsm k b Hk). lia.
  - assert (Hne : cur.1 ≠ h_freep s). { rewrite <-Hfb. intros E. apply (addr_inj fs al s i j) in E; [|done..]. subst. unfold dist in Hd. case_decide; lia. }
    run. rewrite (proj2 (Z.eqb_neq _ _) Hne). unfold hptr. run. rewrite Hnx. destruct (fs !! S i) as [c|] eqn:Hc.
    + apply (IH (S i) cur.1 c); [|done|intros i' [= <-]; by exists cur|].
      * apply lookup_lt_Some in Hc. unfold dist in *. repeat case_decide; lia.
      * intros k b Hk Hlt'. apply (Hsm k b Hk). lia.
    + destruct (hi_head _ _ _ HI) as (rest & Hr & _). apply lookup_ge_None in Hc.
      apply (IH O cur.1 (base, 0)); [|by rewrite Hr|done|].
      * unfold dist in *. repeat case_decide; lia.
      * intros k b Hk Hlt'. apply (Hsm k b Hk). lia.
Qed.

Lemma full_scan fs al s n f (p := load64 (h_mem s) (h_freep s)) :
  heap_inv fs al s → 1 ≤ n →
  (∃ r s', malloc_loop (length fs + f) n (h_freep s) p s = Ok r s' ∧ taken fs al s n r s') ∨
  (malloc_loop (length fs + f) n (h_freep s) p s = more f n s ∧ ∀ b, b ∈ fs → b.2 < n).
Proof.
  intros HI Hn. destruct (hi_head _ _ _ HI) as (rest & Hr & _).
  pose proof (hi_freep _ _ _ HI) as (fb & Hfb & [j Hj]%list_elem_of_lookup)%list_elem_of_fmap.
  pose proof (lookup_lt_Some _ _ _ Hj) as Hjl. destruct (chain_lookup _ _ _ _ _ (hi_chain _ _ _ HI) Hj) as [Hnx _].
  rewrite hd_or_drop, <-Hfb in Hnx. unfold p. rewrite Hnx. replace (length fs + f)%nat with (S (length fs - 1) + f)%nat by lia.
  destruct (fs !! S j) as [c|] eqn:Hc.
  - apply (scan_ok fs al s n j fb _ _ (S j)); try done.
    + apply lookup_lt_Some in Hc. unfold dist. case_decide; lia.
    + intros i' [= <-]. by exists fb.
    + intros k b Hk Hlt. apply lookup_lt_Some in Hk. unfold dist in Hlt. case_decide; lia.
  - apply lookup_ge_None in Hc. change base with ((base, 0).1). apply (scan_ok fs al s n j fb _ _ O); try done.
    + unfold dist. case_decide; lia.
    + by rewrite Hr.
    + intros k b Hk Hlt. apply lookup_lt_Some in Hk. unfold dist in Hlt. case_decide; lia.
Qed.

Lemma malloc_loop_ok fs al s n fuel :
  heap_inv fs al s → 1 ≤ n < 134217728 → (2 * length fs + 2 ≤ fuel)%nat →
  ∃ r s' fs', malloc_loop fuel n (h_freep s) (load64 (h_mem s) (h_freep s)) s = Ok r s' ∧ Forall (same_block (h_mem s) (h_mem s')) al ∧
    (r = 0 ∧ heap_inv fs' al s' ∧ fs' = fs ∧ refused n (h_world s) ∨
     ∃ a, r = a + 16 ∧ heap_inv fs' ((a, n) :: al) s' ∧ (total fs' + n = total fs ∨ total fs' + n = total fs + core_units n)).
Proof.
  intros HI Hn Hf. replace fuel with (length fs + (fuel - length fs))%nat by lia. set (f := (fuel - length fs)%nat).
  destruct (full_scan fs al s n f HI ltac:(lia)) as [(r & s' & E & a & fs' & -> & HI' & Hw & Ht & Hb)|[E _]].
  { exists (a + 16), s', fs'. split_and!; [done|done|]. right. exists a. auto. }
  rewrite E. unfold more. destruct (morecore_ok fs al s n (S f) HI ltac:(lia) Hn) as (r & s1 & fs1 & E1 & HI1 & Hb1 & Hr).
  rewrite (bind_ok _ _ _ _ _ E1). destruct Hr as [(-> & -> & Href)|(Hr0 & -> & Ht & Hlen & c & Hc & Hcn)].
  { exists 0, s1, fs. split_and!; [done|done|]. left. auto. }
  rewrite (proj2 (Z.eqb_neq _ _) Hr0). unfold hptr. run. replace f with (length fs1 + (f - length fs1))%nat by lia.
  destruct (full_scan fs1 al s1 n (f - length fs1) HI1 ltac:(lia)) as [(r & s' & E' & a & fs' & -> & HI' & Hw' & Ht' & Hb')|[_ Hno]].
  - exists (a + 16), s', fs'. split_and!; [exact E'| |right; exists a; split_and!; [done|done|right; lia]].
    rewrite Forall_forall in *. intros b Hbl x Hx. rewrite (Hb' b Hbl x Hx). by apply (Hb1 b Hbl).
  - specialize (Hno c Hc). lia.
Qed.

(** * The allocator *)

(** [al] are the blocks in use and [tot] the units obtained from the kernel. *)
Definition heap_rep (al : list blk) (tot : Z) (s : heap W) : Prop :=
  (h_freep s = 0 ∧ al = [] ∧ tot = 0 ∧ lo ≤ u_top (h_world s) ≤ 68719476736) ∨
  ∃ fs, heap_inv fs al s ∧ total fs + total al = tot.

Lemma units_range nbytes : 0 ≤ nbytes < 2147483600 → 1 ≤ units nbytes < 134217728 ∧ nbytes ≤ 16 * (units nbytes - 1).
Proof. intros H. unfold units, HSIZE. rewrite u64_id, u32_id by dlia. dlia. Qed.

(** The result of a call for [n] units. *)
Definition allocated (al : list blk) (tot n : Z) (s : heap W) (r : Z) (s' : heap W) : Prop :=
  Forall (same_block (h_mem s) (h_mem s')) al ∧
  ((r = 0 ∧ heap_rep al tot s' ∧ refused n (h_world s)) ∨
   ∃ a tot', r = a + 16 ∧ lo ≤ a ∧ heap_rep ((a, n) :: al) tot' s' ∧ (tot' = tot ∨ tot' = tot + core_units n)).

Lemma loop_allocated fs al tot s s1 n fuel :
  heap_inv fs al s1 → total fs + total al = tot → h_world s1 = h_world s → Forall (same_block (h_mem s) (h_mem s1)) al →
  1 ≤ n < 134217728 → (2 * length fs + 2 ≤ fuel)%nat →
  ∃ r s', malloc_loop fuel n (h_freep s1) (load64 (h_mem s1) (h_freep s1)) s1 = Ok r s' ∧ allocated al tot n s r s'.
Proof.
  intros HI Ht Hw Hb Hn Hf. destruct (malloc_loop_ok fs al s1 n fuel HI Hn Hf) as (r & s' & fs' & E & Hb' & Hr).
  exists r, s'. split; [done|]. split.
  - rewrite Forall_forall in *. intros b Hbl x Hx. rewrite (Hb' b Hbl x Hx). by apply (Hb b Hbl).
  - destruct Hr as [(-> & HI' & -> & Href)|(a & -> & HI' & Ht')].
    + left. rewrite Hw in Href. split_and!; [done|right; by exists fs|done].
    + right. exists a, (total fs' + total ((a, n) :: al)). pose proof (hi_valid _ _ _ HI') as [(_ & Ha & _) _]%Forall_cons.
      split_and!; [done|done|right; by exists fs'|]. rewrite total_cons. cbn [snd]. lia.
Qed.

Lemma fresh_heap s :
  lo ≤ u_top (h_world s) ≤ 68719476736 →
  heap_inv [(base, 0)] [] (mkheap (store32 (store64 (h_mem s) base base) (base + 8) 0) base (h_world s)).
Proof.
  intros Ht. constructor; cbn [h_mem h_freep h_world]; try done.
  - by exists [].
  - split_and!; cbn [fst snd hd_or]; [| |done].
    + unfold load64, store32. rewrite (load_store_ne 8 4) by (unfold disjoint_ranges; lia). fold load64. rewrite load64_store64_eq. apply u64_id. lia.
    + by apply load32_store32_eq.
  - by apply list_elem_of_singleton.
Qed.

Lemma freep_nonzero fs al s : heap_inv fs al s → h_freep s ≠ 0.
Proof.
  intros [_ (rest & -> & Hr') _ _ _ _ _ Hfp]. apply list_elem_of_fmap in Hfp as (b & -> & [->|Hb]%elem_of_cons); [cbn; lia|].
  rewrite Forall_forall in Hr'. destruct (Hr' b Hb) as (_ & ? & _). lia.
Qed.

Lemma malloc_ok al tot s nbytes :
  heap_rep al tot s → 0 ≤ nbytes < 2147483600 →
  ∃ N, ∀ fuel, (N ≤ fuel)%nat → ∃ r s', malloc base fuel nbytes s = Ok r s' ∧ allocated al tot (units nbytes) s r s'.
Proof.
  intros Hrep Hnb. destruct (units_range nbytes Hnb) as [Hn _]. destruct Hrep as [(Hfp & -> & -> & Ht)|(fs & HI & Ht)].
  - exists 4%nat. intros fuel Hf. unfold malloc. run. rewrite Hfp, Z.eqb_refl. unfold set_hptr, set_hsize, hptr. run.
    apply (loop_allocated _ [] 0 s _ _ _ (fresh_heap s Ht)); try done.
  - exists (2 * length fs + 2)%nat. intros fuel Hf. unfold malloc. run.
    rewrite (proj2 (Z.eqb_neq _ _) (freep_nonzero _ _ _ HI)). unfold hptr. run. apply (loop_allocated fs); try done.
    apply Forall_forall. by intros b _ x _.
Qed.

Lemma free_rep al a n tot s :
  heap_rep ((a, n) :: al) tot s →
  ∃ N, ∀ fuel, (N ≤ fuel)%nat → ∃ s', free fuel (a + 16) s = Ok tt s' ∧ heap_rep al tot s' ∧ Forall (same_block (h_mem s) (h_mem s')) al.
Proof.
  intros [(_ & [=] & _)|(fs & HI & Ht)]. exists (S (length fs)). intros fuel Hf.
  destruct (free_ok fs al s a n fuel HI ltac:(lia)) as (fs' & s' & E & HI' & _ & Ht' & _ & _ & Hb). exists s'. split_and!; [done| |done].
  right. exists fs'. split; [done|]. rewrite total_cons in Ht. cbn [snd] in Ht. lia.
Qed.

(** A program writes to the memory it was given. *)
Lemma write_rep al tot s a n x v :
  heap_rep al tot s → (a, n) ∈ al → a + 16 ≤ x < a + 16 * n → heap_rep al tot (set_mem (stb (h_mem s) x v) s).
Proof.
  intros [(_ & -> & _)|(fs & HI & Ht)] Hin Hx; [by apply not_elem_of_nil in Hin|]. right. exists fs. split; [|done].
  pose proof HI as [H1 H2 H3 H4 H5 H6 H7 H8]. assert (Hh : ∀ b, b ∈ fs ++ al → same_header (h_mem s) (stb (h_mem s) x v) b).
  { intros b Hb y Hy. rewrite ldb_stb. destruct (decide (y = x)) as [->|]; [|done]. exfalso.
    destruct (decide (b = (a, n))) as [->|Hne]; [cbn in Hy; lia|].
    assert (Hd : disj (a, n) b).
    { assert (Hin' : (a, n) ∈ fs ++ al) by (apply elem_of_app; by right). apply list_elem_of_split in Hin' as (k1 & k2 & E).
      rewrite E in H6, Hb. rewrite <-Permutation_middle in H6, Hb. destruct H6 as [H6 _]. apply elem_of_cons in Hb as [Hb|Hb]; [done|].
      rewrite Forall_forall in H6. by apply H6. }
    unfold disj, bend in Hd. cbn in Hd. lia. }
  constructor; cbn [h_mem h_freep h_world set_mem]; try done.
  - eapply hchain_frame; [|exact H4]. apply Forall_forall. intros b Hb. apply Hh, elem_of_app. by left.
  - rewrite Forall_forall in *. intros b Hb. rewrite <-(H7 b Hb). apply header_loads, Hh, elem_of_app. by right.
Qed.

(** * More fuel gives the same result *)

Lemma free_find_mono fuel fuel' bp p (s : heap W) r s' :
  free_find fuel bp p s = Ok r s' → (fuel ≤ fuel')%nat → free_find fuel' bp p s = Ok r s'.
Proof.
  revert fuel' p. induction fuel as [|fuel IH]; intros fuel' p H Hle; [done|]. destruct fuel' as [|fuel']; [lia|].
  cbn [free_find] in *. apply bind_inv_ok in H as (next & s1 & E & H). rewrite (bind_ok _ _ _ _ _ E). unfold hptr, gets in E. injection E as _ <-.
  destruct (_ && _); [done|]. destruct (_ && _); [done|]. apply IH; [done|lia].
Qed.

Lemma free_mono fuel fuel' ap (s : heap W) r s' : free fuel ap s = Ok r s' → (fuel ≤ fuel')%nat → free fuel' ap s = Ok r s'.
Proof.
  unfold free. rewrite !bind_gets. intros H Hle. apply bind_inv_ok in H as (p & s1 & E & H).
  by rewrite (bind_ok _ _ _ _ _ (free_find_mono _ _ _ _ _ _ _ E Hle)).
Qed.

Lemma morecore_mono fuel fuel' nu (s : heap W) r s' : morecore fuel nu s = Ok r s' → (fuel ≤ fuel')%nat → morecore fuel' nu s = Ok r s'.
Proof.
  unfold morecore. intros H Hle. apply bind_inv_ok in H as (p & s1 & E & H). rewrite (bind_ok _ _ _ _ _ E).
  destruct (p =? SBRK_ERROR); [done|]. unfold set_hsize in *. rewrite bind_modify in *. apply bind_inv_ok in H as (u & s2 & E2 & H).
  by rewrite (bind_ok _ _ _ _ _ (free_mono _ _ _ _ _ _ E2 Hle)).
Qed.

Lemma malloc_loop_mono fuel fuel' n prev p (s : heap W) r s' :
  malloc_loop fuel n prev p s = Ok r s' → (fuel ≤ fuel')%nat → malloc_loop fuel' n prev p s = Ok r s'.
Proof.
  revert fuel' prev p s. induction fuel as [|fuel IH]; intros fuel' prev p s H Hle; [done|]. destruct fuel' as [|fuel']; [lia|].
  cbn [malloc_loop] in *. unfold hsize in *. rewrite bind_gets in *. destruct (n <=? _); [done|]. rewrite bind_gets in *. destruct (p =? _).
  - apply bind_inv_ok in H as (q & s1 & E & H). rewrite (bind_ok _ _ _ _ _ (morecore_mono _ _ _ _ _ _ E Hle)).
    destruct (q =? 0); [done|]. unfold hptr in *. rewrite bind_gets in *. apply IH; [done|lia].
  - unfold hptr in *. rewrite bind_gets in *. apply IH; [done|lia].
Qed.

Lemma malloc_mono fuel fuel' nbytes (s : heap W) r s' :
  malloc base fuel nbytes s = Ok r s' → (fuel ≤ fuel')%nat → malloc base fuel' nbytes s = Ok r s'.
Proof.
  unfold malloc. intros H Hle. rewrite bind_gets in *. apply bind_inv_ok in H as (u & s1 & E & H). rewrite (bind_ok _ _ _ _ _ E).
  unfold hptr in *. rewrite !bind_gets in *. by eapply malloc_loop_mono.
Qed.

(** * A program and its heap *)

Inductive mstep : list blk * heap W → list blk * heap W → Prop :=
  | ms_malloc al s fuel nbytes r s' :
      0 ≤ nbytes < 2147483600 → malloc base fuel nbytes s = Ok r s' →
      mstep (al, s) (if decide (r = 0) then al else (r - 16, units nbytes) :: al, s')
  | ms_free al1 a n al2 s fuel s' :
      free fuel (a + 16) s = Ok tt s' → mstep (al1 ++ (a, n) :: al2, s) (al1 ++ al2, s')
  | ms_write al s a n x v :
      (a, n) ∈ al → a + 16 ≤ x < a + 16 * n → mstep (al, s) (al, set_mem (stb (h_mem s) x v) s).

Lemma rep_perm al al' tot s : al ≡ₚ al' → heap_rep al tot s → heap_rep al' tot s.
Proof.
  intros Hp [(H1 & -> & H3)|(fs & [H1 H2 H3 H4 H5 H6 H7 H8] & Ht)].
  - left. apply Permutation_nil_l in Hp as ->. auto.
  - right. exists fs. split; [constructor; try done|].
    + by rewrite <-Hp.
    + by rewrite <-Hp.
    + by rewrite <-Hp.
    + rewrite <-Ht. f_equal. clear -Hp. induction Hp; cbn in *; unfold total in *; lia.
Qed.

Lemma mstep_rep al s al' s' tot : heap_rep al tot s → mstep (al, s) (al', s') → ∃ tot', heap_rep al' tot' s'.
Proof.
  intros Hr. inversion 1 as [? ? fuel nbytes r ? Hnb E|al1 a n al2 ? fuel ? E|? ? a n x v Hin Hx]; subst.
  - destruct (malloc_ok al tot s nbytes Hr Hnb) as (N & HN). destruct (HN (N `max` fuel)%nat ltac:(lia)) as (r' & s1 & E' & _ & Hal).
    apply (malloc_mono _ (N `max` fuel)%nat) in E; [|lia]. rewrite E in E'. injection E' as <- <-.
    destruct Hal as [(-> & Hrep & _)|(a & tot' & -> & Ha & Hrep & _)]; [by exists tot|]. rewrite decide_False by lia. exists tot'.
    by replace (a + 16 - 16) with a by lia.
  - apply (rep_perm _ ((a, n) :: al1 ++ al2)) in Hr; [|by rewrite Permutation_middle].
    destruct (free_rep _ a n tot s Hr) as (N & HN). destruct (HN (N `max` fuel)%nat ltac:(lia)) as (s1 & E' & Hrep & _).
    apply (free_mono _ (N `max` fuel)%nat) in E; [|lia]. rewrite E in E'. injection E' as <-. by exists tot.
  - exists tot. by eapply write_rep.
Qed.

Lemma reachable_rep x y : rtc mstep x y → (∃ tot, heap_rep x.1 tot x.2) → ∃ tot, heap_rep y.1 tot y.2.
Proof.
  induction 1 as [|[al s] [al' s'] z Hs Hr IH]; [done|]. intros [tot Hx]. apply IH. by eapply mstep_rep.
Qed.

Lemma rep_apart al tot s : heap_rep al tot s → apart al ∧ Forall (valid lo (u_top (h_world s))) al.
Proof.
  intros [(_ & -> & _)|(fs & HI & _)]; [done|]. split; [|apply HI]. pose proof (hi_apart _ _ _ HI) as H. by apply pairs_app in H as (_ & ? & _).
Qed.
End heap.

(** C14: the blocks [malloc] hands out never overlap.  After any sequence of
    calls of [malloc] for less than 2 GB, of [free] for blocks in use and of
    writes to the memory of such blocks, the blocks in use lie apart from each
    other in the memory the program got from [sbrk]: from the break it started
    with to the present one.  The next call of [malloc] for less than 2 GB
    returns, changes nothing in them, and gives either a block of at least
    [nbytes] bytes in that memory, apart from them all, or, when [sbrk] refuses
    more memory, 0. *)
Theorem malloc_safe {W} `{!Sbrk W} base (s0 : heap W) al s nbytes :
  0 < base → h_freep s0 = 0 → base + 16 ≤ u_top (h_world s0) ≤ 68719476736 →
  rtc (mstep base) ([], s0) (al, s) → 0 ≤ nbytes < 2147483600 →
  apart al ∧ Forall (λ b, u_top (h_world s0) ≤ b.1 ∧ bend b ≤ u_top (h_world s)) al ∧
  ∃ N, ∀ fuel, (N ≤ fuel)%nat → ∃ r s', malloc base fuel nbytes s = Ok r s' ∧ Forall (same_block (h_mem s) (h_mem s')) al ∧
    (r = 0 ∧ refused (units nbytes) (h_world s) ∨
     r ≠ 0 ∧ u_top (h_world s0) ≤ r ∧ r + nbytes ≤ u_top (h_world s') ∧ Forall (λ b, bend b ≤ r ∨ r + nbytes ≤ b.1) al).
Proof.
  intros Hb H0 Ht Hr Hnb. set (lo := u_top (h_world s0)) in *. assert (Hlo : base + 16 ≤ lo) by lia.
  assert (∃ tot, heap_rep base lo al tot s) as [tot Hrep].
  { apply (reachable_rep base lo Hb Hlo _ _ Hr). exists 0. left. cbn [fst snd]. fold lo. split_and!; done || lia. }
  destruct (rep_apart base lo al tot s Hrep) as [Ha Hv]. split_and!; [done| |].
  - eapply Forall_impl; [exact Hv|]. intros b (? & ? & ?). unfold bend. lia.
  - destruct (malloc_ok base lo Hb Hlo al tot s nbytes Hrep Hnb) as (N & HN). exists N. intros fuel Hf.
    destruct (HN fuel Hf) as (r & s' & E & Hsb & Hal). exists r, s'. split_and!; [done|done|].
    destruct Hal as [(-> & _ & Href)|(a & tot' & -> & Hab & Hrep' & _)]; [by left|right].
    destruct (rep_apart base lo _ tot' s' Hrep') as [[Hd _] Hv']. destruct (units_range nbytes Hnb) as [Hu1 Hu2].
    apply Forall_cons in Hv' as [(_ & _ & Hend) _]. cbn [fst snd] in Hend. split_and!; [lia|lia|lia|].
    eapply Forall_impl; [exact Hd|]. intros b [Hd'|Hd']; unfold bend in *; cbn [fst snd] in *; lia.
Qed.

(** [free] gives back a whole block.  It returns; the units of the block are
    all on the free list afterwards, which stays a ring in order of address
    linked through the headers in memory; no two blocks of the list touch,
    since neighbours are merged; blocks in use keep their contents. *)
Theorem free_spec {W} `{!Sbrk W} base lo fs al (s : heap W) a n :
  0 < base → base + 16 ≤ lo → heap_inv base lo fs ((a, n) :: al) s →
  ∃ N, ∀ fuel, (N ≤ fuel)%nat → ∃ fs' s', free fuel (a + 16) s = Ok tt s' ∧
    chain (h_mem s') fs' base ∧ apart (fs' ++ al) ∧ total fs' = total fs + n ∧
    (∀ i j b c, (i < j)%nat → fs' !! i = Some b → fs' !! j = Some c → b.1 + 16 * b.2 < c.1) ∧
    Forall (same_block (h_mem s) (h_mem s')) al.
Proof.
  intros Hb Hlo HI. exists (S (length fs)). intros fuel Hf. destruct (free_ok base lo Hb Hlo fs al s a n fuel HI ltac:(lia)) as (fs' & s' & E & HI' & _ & Ht & _ & _ & Hs).
  exists fs', s'. split_and!; [done|apply HI'|apply HI'|done| |done]. intros i j b c Hij Hi Hj.
  exact (pairs_lookup _ _ _ _ _ _ (hi_spaced _ _ _ _ _ HI') Hij Hi Hj).
Qed.

(** * Example *)

(** 128 megabytes of memory. *)
#[export] Program Instance demo_sbrk : Sbrk Z := {
  sbrk n := λ w, if w + n <=? 134217728 then Ok w (w + n) else Ok 18446744073709551615 w;
  u_top w := w;
}.
Next Obligation. intros w n Hn. cbn. destruct (Z.leb_spec (w + n) 134217728); do 2 eexists; (split; [reflexivity|]); [right|left]; lia. Qed.

Definition demo_heap : heap Z := mkheap (λ _, 0) 0 8192.

Definition result {S A} (o : outcome S A) : option A := match o with Ok a _ => Some a | _ => None end.

Lemma result_ok {S A} (o : outcome S A) a : result o = Some a → ∃ s, o = Ok a s.
Proof. destruct o as [a' s| | | |]; cbn; try done. intros [= <-]. by exists s. Qed.

(** The first block is at the end of the first 64 KB. *)
Lemma malloc_safe_witness :
  ∃ s, malloc 4096 10 100 demo_heap = Ok 73616 s ∧
    ∃ N, ∀ fuel, (N ≤ fuel)%nat → ∃ r s', malloc 4096 fuel 50 s = Ok r s' ∧ Forall (same_block (h_mem s) (h_mem s')) [(73600, 8)] ∧
      (r = 0 ∧ refused (units 50) (h_world s) ∨
       r ≠ 0 ∧ 8192 ≤ r ∧ r + 50 ≤ h_world s' ∧ Forall (λ b, bend b ≤ r ∨ r + 50 ≤ b.1) [(73600, 8)]).
Proof.
  destruct (result_ok (malloc 4096 10 100 demo_heap) 73616) as [s E]; [vm_compute; reflexivity|].
  exists s. split; [exact E|].
  destruct (malloc_safe 4096 demo_heap [(73600, 8)] s 50) as (_ & _ & H); [lia|reflexivity|cbn; lia| |lia|exact H].
  apply rtc_once. exact (ms_malloc 4096 [] demo_heap 10 100 73616 s ltac:(lia) E).
Defined.

Definition demo_block : heap Z :=
  let s := mkheap (store32 (store64 (h_mem demo_heap) 4096 4096) 4104 0) 4096 8192 in
  mkheap (store32 (h_mem s) 8200 4096) 4096 73728.

Lemma free_spec_witness :
  heap_inv 4096 8192 [(4096, 0)] [(8192, 4096)] demo_block ∧
  ∃ fuel fs' s', free fuel 8208 demo_block = Ok tt s' ∧ total fs' = 4096.
Proof.
  assert (HI : heap_inv 4096 8192 [(4096, 0)] [(8192, 4096)] demo_block).
  { destruct (heap_extend 4096 8192 ltac:(lia) ltac:(lia) [(4096, 0)] [] (mkheap (store32 (store64 (h_mem demo_heap) 4096 4096) 4104 0) 4096 8192) 73728 4096) as [H _];
      [|lia|reflexivity|cbn; lia|exact H].
    apply (fresh_heap 4096 8192 ltac:(lia) ltac:(lia) demo_heap). cbn. lia. }
  split; [exact HI|]. destruct (free_spec 4096 8192 [(4096, 0)] [] demo_block 8192 4096 ltac:(lia) ltac:(lia) HI) as [N H].
  destruct (H N (Nat.le_refl N)) as (fs' & s' & E & _ & _ & Ht & _). exists N, fs', s'. split; [exact E|]. rewrite Ht. reflexivity.
Defined.

(** The size of a request is cut to an [int] on its way to [sbrk]: a request for
    almost 4 gigabytes asks the kernel for no memory at all. *)
Lemma huge_request : 0 ≤ 4294967280 < 4294967296 ∧ s32 (u64 (core_units (units 4294967280) * HSIZE)) = 0.
Proof. split; [lia|reflexivity]. Qed.

Lemma huge_malloc : result (malloc 4096 10 4294967280 demo_heap) = Some 8208 ∧
  match malloc 4096 10 4294967280 demo_heap with Ok _ s => h_world s = h_world demo_heap | _ => False end.
Proof. split; vm_compute; reflexivity. Qed.
