(* ===== verification/Grep.v ===== *)
(** user/grep.c: the regular expression matcher and the loop over lines.

    Patterns and text are the characters of the strings the code points into; a
    pointer that advances is the tail of the list.  The buffer of [grep] is
    memory.

    The theorems: the recursive matcher decides the language of its pattern
    ([match_spec]); and [grep] prints the lines that match, whatever pieces
    [read] delivers its input in ([grep_spec]). *)

From stdpp Require Import base tactics functions list numbers strings.
From S2P Require Import Prelude Bytes CString Printf Ulib.
From Stdlib Require Import ZArith Lia.

Open Scope kernel_scope.

(** * The matcher *)

(** [matchstar(c, re, text)], with [matchhere(re, _)] as [here]. *)
Fixpoint matchstar (here : list Z → bool) (c : Z) (text : list Z) : bool :=
  if here text then true
  else match text with
       | [] => false
       | t :: text' => if (t =? c) || (c =? 46) then matchstar here c text' else false
       end.

(** 42 is '*', 36 is '$', 46 is '.'; the end of a list is the NUL. *)
Fixpoint matchhere (re text : list Z) : bool :=
  match re with
  | [] => true
  | r0 :: re1 =>
      match re1 with
      | r1 :: re2 =>
          if r1 =? 42 then matchstar (matchhere re2) r0 text
          else match text with
               | t :: text' => if (r0 =? 46) || (r0 =? t) then matchhere re1 text' else false
               | [] => false
               end
      | [] =>
          if r0 =? 36 then match text with [] => true | _ => false end
          else match text with
               | t :: text' => if (r0 =? 46) || (r0 =? t) then matchhere re1 text' else false
               | [] => false
               end
      end
  end.

Fixpoint match_loop (re text : list Z) : bool :=
  if matchhere re text then true
  else match text with
       | [] => false
       | _ :: text' => match_loop re text'
       end.

Definition match_ (re text : list Z) : bool :=
  match re with
  | 94 :: re' => matchhere re' text
  | _ => match_loop re text
  end.

(** ** What a pattern means *)

Inductive item := One (c : Z) | Many (c : Z).

(** The items of a pattern, and whether it ends in an anchor. *)
Fixpoint parse (re : list Z) : list item * bool :=
  match re with
  | [] => ([], false)
  | r0 :: re1 =>
      match re1 with
      | r1 :: re2 =>
          if r1 =? 42 then let ' (l, e) := parse re2 in (Many r0 :: l, e)
          else let ' (l, e) := parse re1 in (One r0 :: l, e)
      | [] => if r0 =? 36 then ([], true) else ([One r0], false)
      end
  end.

Definition accepts (c t : Z) : Prop := c = 46 ∨ c = t.

(** The words of a list of items. *)
Inductive lang : list item → list Z → Prop :=
| lang_nil : lang [] []
| lang_one c t l w : accepts c t → lang l w → lang (One c :: l) (t :: w)
| lang_many c v l w : Forall (accepts c) v → lang l w → lang (Many c :: l) (v ++ w).

(** A prefix of the text is in the language; all of it, with an anchor. *)
Definition prefix_in (re text : list Z) : Prop :=
  ∃ w v, text = w ++ v ∧ lang (parse re).1 w ∧ ((parse re).2 = true → v = []).

Lemma matchstar_ok here c text :
  matchstar here c text = true ↔ ∃ v w, text = v ++ w ∧ Forall (accepts c) v ∧ here w = true.
Proof.
  induction text as [|t text IH]; cbn [matchstar].
  - destruct (here []) eqn:E; split; try done.
    + intros _. by exists [], [].
    + intros (v & w & Hv & _ & Hw). symmetry in Hv. apply app_eq_nil in Hv as [-> ->]. congruence.
  - destruct (here (t :: text)) eqn:E; [split; [|done]; intros _; by exists [], (t :: text)|].
    destruct ((t =? c) || (c =? 46)) eqn:Ea.
    + rewrite IH. split.
      * intros (v & w & -> & Hv & Hw). exists (t :: v), w. split_and!; [done| |done]. constructor; [unfold accepts; lia|done].
      * intros ([|t' v] & w & Hv & Ha & Hw); cbn in Hv; [by subst; congruence|]. injection Hv as -> ->.
        apply Forall_cons in Ha as [_ Ha]. by exists v, w.
    + split; [done|]. intros ([|t' v] & w & Hv & Ha & Hw); cbn in Hv; [by subst; congruence|]. injection Hv as -> ->.
      apply Forall_cons in Ha as [Ha _]. unfold accepts in Ha. lia.
Qed.

Lemma prefix_one r0 re1 text :
  (parse (r0 :: re1)).1 = One r0 :: (parse re1).1 → (parse (r0 :: re1)).2 = (parse re1).2 →
  prefix_in (r0 :: re1) text ↔ ∃ t text', text = t :: text' ∧ accepts r0 t ∧ prefix_in re1 text'.
Proof.
  intros H1 H2. unfold prefix_in. rewrite H1, H2. split.
  - intros (w & v & -> & Hl & Hv). inversion Hl; subst. exists t, (w0 ++ v). split_and!; [done|done|]. by exists w0, v.
  - intros (t & text' & -> & Ha & w & v & -> & Hl & Hv). exists (t :: w), v. split_and!; [done| |done]. by constructor.
Qed.

Lemma one_step r0 (b : list Z → bool) (Q : list Z → Prop) text :
  (∀ text, b text = true ↔ Q text) →
  match text with t :: text' => if (r0 =? 46) || (r0 =? t) then b text' else false | [] => false end = true ↔
  ∃ t text', text = t :: text' ∧ accepts r0 t ∧ Q text'.
Proof.
  intros IH. destruct text as [|t text]; [split; [done|]; by intros (? & ? & ? & _)|].
  destruct ((r0 =? 46) || (r0 =? t)) eqn:E.
  - rewrite IH. split; [intros; exists t, text; split_and!; [done|unfold accepts; lia|done]|]. by intros (? & ? & [= <- <-] & _ & ?).
  - split; [done|]. intros (? & ? & [= <- <-] & Ha & _). unfold accepts in Ha. lia.
Qed.

Lemma matchhere_ok re text : matchhere re text = true ↔ prefix_in re text.
Proof.
  revert text. induction re as [re IH] using (well_founded_induction (well_founded_ltof _ (@length Z))). unfold ltof in IH. intros text.
  destruct re as [|r0 re1].
  - cbn. split; [|done]. intros _. exists [], text. split_and!; [done|constructor|done].
  - destruct re1 as [|r1 re2].
    + cbn [matchhere]. destruct (Z.eqb_spec r0 36) as [->|Hd].
      * unfold prefix_in. cbn. split.
        -- destruct text; [|done]. intros _. exists [], []. split_and!; [done|constructor|done].
        -- intros (w & v & -> & Hl & Hv). inversion Hl; subst. by rewrite Hv.
      * rewrite (one_step r0 (λ _, true) (prefix_in [])).
        -- symmetry. apply prefix_one; cbn; by destruct (Z.eqb_spec r0 36).
        -- intros t. specialize (IH [] ltac:(cbn; lia) t). cbn in IH. exact IH.
    + cbn [matchhere]. destruct (Z.eqb_spec r1 42) as [->|Hs].
      * rewrite matchstar_ok. unfold prefix_in at 1. cbn [parse]. rewrite Z.eqb_refl. destruct (parse re2) as [l e] eqn:Ep. cbn [fst snd]. split.
        -- intros (v & w & -> & Hv & Hw). apply IH in Hw; [|cbn; lia]. destruct Hw as (w1 & v1 & -> & Hl & He). rewrite Ep in Hl, He. cbn in Hl, He.
           exists (v ++ w1), v1. split_and!; [by rewrite app_assoc| |done]. by constructor.
        -- intros (w & v & -> & Hl & He). inversion Hl; subst. exists v0, (w0 ++ v). split_and!; [by rewrite app_assoc|done|].
           apply IH; [cbn; lia|]. exists w0, v. rewrite Ep. by split_and!.
      * rewrite (one_step r0 (matchhere (r1 :: re2)) (prefix_in (r1 :: re2))); [|intros t; apply IH; cbn; lia].
        symmetry. apply prefix_one; cbn [parse]; destruct (Z.eqb_spec r1 42); try done; by destruct (match re2 with [] => _ | _ => _ end).
Qed.

Lemma match_loop_ok re text :
  match_loop re text = true ↔ ∃ u t, text = u ++ t ∧ prefix_in re t.
Proof.
  induction text as [|c text IH]; cbn [match_loop].
  - destruct (matchhere re []) eqn:E.
    + split; [|done]. intros _. exists [], []. split; [done|]. by apply matchhere_ok.
    + split; [done|]. intros (u & t & Hu & Hp). symmetry in Hu. apply app_eq_nil in Hu as [-> ->]. apply matchhere_ok in Hp. congruence.
  - destruct (matchhere re (c :: text)) eqn:E.
    + split; [|done]. intros _. exists [], (c :: text). split; [done|]. by apply matchhere_ok.
    + rewrite IH. split.
      * intros (u & t & -> & Hp). by exists (c :: u), t.
      * intros ([|c' u] & t & Hu & Hp); cbn in Hu; [subst; apply matchhere_ok in Hp; congruence|]. injection Hu as -> ->. by exists u, t.
Qed.

(** C38: the matcher decides the language of its pattern.  A text matches exactly
    if it has a part that is a word of the pattern's items: characters, dots
    that stand for any character, and either of them starred.  A caret in front
    ties the part to the start of the text, a dollar at the end to its end. *)
Theorem match_spec re text :
  let caret := bool_decide (head re = Some 94) in
  let ' (items, dollar) := parse (if caret then tail re else re) in
  match_ re text = true ↔
  ∃ u w v, text = u ++ w ++ v ∧ lang items w ∧ (caret = true → u = []) ∧ (dollar = true → v = []).
Proof.
  destruct (bool_decide_reflect (head re = Some 94)) as [E|E]; cbn zeta.
  - destruct re as [|c re]; [done|]. injection E as ->. cbn [tail match_]. destruct (parse re) as [l e] eqn:Ep.
    rewrite matchhere_ok. unfold prefix_in. rewrite Ep. cbn [fst snd]. split.
    + intros (w & v & -> & H). exists [], w, v. by intuition.
    + intros (u & w & v & -> & Hl & Hu & Hv). exists w, v. rewrite Hu by done. by split_and!.
  - destruct (parse re) as [l e] eqn:Ep. assert (match_ re text = match_loop re text) as ->.
    { destruct re as [|c re]; [done|]. cbn [match_]. destruct (decide (c = 94)) as [->|Hc]; [done|]. repeat case_match; done. }
    rewrite match_loop_ok. unfold prefix_in. rewrite Ep. cbn [fst snd]. split.
    + intros (u & t & -> & w & v & -> & Hl & Hv). by exists u, w, v.
    + intros (u & w & v & -> & Hl & _ & Hv). exists u, (w ++ v). split; [done|]. by exists w, v.
Qed.

(** * The loop over lines *)

Lemma bind_nested {S A B C} (m : M S A) (f : A → M S B) (g : B → M S C) s b s' :
  bind m f s = Ok b s' → bind m (λ a, bind (f a) g) s = g b s'.
Proof. intros E. unfold bind in *. destruct (m s); try done. by rewrite E. Qed.

Record gst (W : Type) := mkgst { g_mem : mem; g_w : W }.
Arguments mkgst {W} _ _.
Arguments g_mem {W} _.
Arguments g_w {W} _.

Section grep.
  Context {W : Type} `{US : UserSys W}.
  (** the address of the global [buf] *)
  Context (buf : Z) (pattern : list Z).

Abbreviation GM := (M (gst W)).
Definition BUFSIZE : Z := 1024.

Definition worldL : lens (gst W) W := Lens g_w (λ w s, mkgst (g_mem s) w).
Definition world {A} (m : M W A) : GM A := zoom worldL m.
Definition set_gmem (m : mem) : GM unit := modify (λ s, mkgst m (g_w s)).

(** The inner loop; the result is [p].  A turn ends one line of the buffer. *)
Fixpoint lines_loop (fuel : nat) (p : Z) : GM Z :=
  match fuel with
  | O => λ _, OutOfFuel
  | S fuel' =>
      m <- gets g_mem ;;
      match strchr (Z.to_nat BUFSIZE) m p 10 with
      | None => λ _, OutOfFuel
      | Some q =>
          if q =? 0 then ret p
          else
            set_gmem (stb m q 0) ;;
            (if match_ pattern (cstrn (Z.to_nat BUFSIZE) (stb m q 0) p) then
               set_gmem (stb (stb m q 0) q 10) ;;
               world (s_write 1 (mem_read (stb (stb m q 0) q 10) p (Z.to_nat (q + 1 - p)))) ;;
               ret tt
             else ret tt) ;;
            lines_loop fuel' (q + 1)
      end
  end.

(** [m] is the number of bytes in the buffer.  A turn reads at least one byte. *)
Fixpoint grep_loop (fuel : nat) (fd m : Z) : GM unit :=
  match fuel with
  | O => λ _, OutOfFuel
  | S fuel' =>
      ' (n, bs) <- world (s_read fd (BUFSIZE - m - 1)) ;;
      if negb (0 <? n) then ret tt
      else
        s <- get ;;
        let m := m + n in
        set_gmem (stb (mem_write (g_mem s) (buf + (m - n)) bs) (buf + m) 0) ;;
        p <- lines_loop (Z.to_nat BUFSIZE) buf ;;
        m <- (if 0 <? m then
                let m := m - (p - buf) in
                s <- get ;;
                set_gmem (memmove (g_mem s) buf p m) ;;
                ret m
              else ret m) ;;
        grep_loop fuel' fd m
  end.

Definition grep (fuel : nat) (fd : Z) : GM unit := grep_loop fuel fd 0.

(** ** Lines *)

(** The lines of [cur ++ s], [cur] being the start of one, and what is left after
    the last newline. *)
Fixpoint lines (cur s : list Z) : list (list Z) :=
  match s with
  | [] => []
  | c :: s' => if c =? 10 then cur :: lines [] s' else lines (cur ++ [c]) s'
  end.

Fixpoint left_over (cur s : list Z) : list Z :=
  match s with
  | [] => cur
  | c :: s' => if c =? 10 then left_over [] s' else left_over (cur ++ [c]) s'
  end.

(** What is printed for some lines. *)
Definition printed (ls : list (list Z)) : list Z :=
  concat ((λ l, l ++ [10]) <$> filter (λ l, match_ pattern l = true) ls).

Lemma lines_app cur a b : lines cur (a ++ b) = lines cur a ++ lines (left_over cur a) b.
Proof.
  revert cur. induction a as [|c a IH]; intros cur; cbn; [done|]. destruct (c =? 10); cbn; [f_equal; apply IH|apply IH].
Qed.

Lemma lines_line cur l s : 10 ∉ l → lines cur (l ++ 10 :: s) = (cur ++ l) :: lines [] s.
Proof.
  revert cur. induction l as [|c l IH]; intros cur Hl; cbn; [by rewrite app_nil_r|].
  apply not_elem_of_cons in Hl as [Hc Hl]. destruct (Z.eqb_spec c 10); [congruence|]. by rewrite IH, <-app_assoc.
Qed.

Lemma left_line cur l s : 10 ∉ l → left_over cur (l ++ 10 :: s) = left_over [] s.
Proof.
  revert cur. induction l as [|c l IH]; intros cur Hl; cbn; [done|].
  apply not_elem_of_cons in Hl as [Hc Hl]. destruct (Z.eqb_spec c 10); [congruence|]. by rewrite IH.
Qed.

Lemma lines_none cur l : 10 ∉ l → lines cur l = [] ∧ left_over cur l = cur ++ l.
Proof.
  revert cur. induction l as [|c l IH]; intros cur Hl; cbn; [by rewrite app_nil_r|].
  apply not_elem_of_cons in Hl as [Hc Hl]. destruct (Z.eqb_spec c 10); [congruence|]. destruct (IH (cur ++ [c]) Hl) as [-> ->]. by rewrite <-app_assoc.
Qed.

Lemma printed_app a b : printed (a ++ b) = printed a ++ printed b.
Proof. unfold printed. by rewrite filter_app, fmap_app, concat_app. Qed.

(** The first newline of a text. *)
Lemma split_line (t : list Z) : (10 ∉ t) ∨ ∃ l s, t = l ++ 10 :: s ∧ 10 ∉ l.
Proof.
  destruct (decide (10 ∈ t)) as [H|H]; [right|by left]. by apply list_elem_of_split_l in H as (l & s & -> & Hl); eauto.
Qed.

(** ** Strings in memory *)

Lemma strchr_line fuel m p l :
  0 < p → (length l < fuel)%nat → mem_read m p (length l) = l → 0 ∉ l → 10 ∉ l →
  strchr fuel m p 10 = Some (if ldb m (p + len l) =? 10 then p + len l else 0) ∨ (ldb m (p + len l) ≠ 0 ∧ ldb m (p + len l) ≠ 10).
Proof.
  revert fuel p. induction l as [|c l IH]; intros [|fuel] p Hp Hf Hr H0 Hn; cbn in Hf; try lia; cbn [strchr].
  - rewrite Z.add_0_r. destruct (Z.eqb_spec (ldb m p) 0) as [->|]; [by left|]. destruct (Z.eqb_spec (ldb m p) 10); [by left|by right].
  - cbn in Hr. injection Hr as Hc Hr. apply not_elem_of_cons in H0 as [H0 H0']. apply not_elem_of_cons in Hn as [Hn Hn'].
    rewrite Hc. destruct (Z.eqb_spec c 0); [congruence|]. destruct (Z.eqb_spec c 10); [congruence|].
    rewrite len_cons. replace (p + (1 + len l)) with (p + 1 + len l) by lia. apply IH; [lia|lia|done|done|done].
Qed.

Lemma cstrn_text fuel m p l :
  (length l < fuel)%nat → mem_read m p (length l) = l → 0 ∉ l → ldb m (p + len l) = 0 → cstrn fuel m p = l.
Proof.
  revert fuel p. induction l as [|c l IH]; intros [|fuel] p Hf Hr H0 Hz; cbn in Hf; try lia; cbn [cstrn].
  - rewrite Z.add_0_r in Hz. by rewrite Hz.
  - cbn in Hr. injection Hr as Hc Hr. apply not_elem_of_cons in H0 as [H0 H0']. rewrite Hc. destruct (Z.eqb_spec c 0); [congruence|].
    f_equal. apply IH; [lia|done|done|]. rewrite len_cons in Hz. by replace (p + 1 + len l) with (p + (1 + len l)) by lia.
Qed.

Lemma mem_read_stb m p n q v : q < p ∨ p + Z.of_nat n ≤ q → mem_read (stb m q v) p n = mem_read m p n.
Proof. intros H. apply mem_read_ext. intros i Hi. rewrite ldb_stb, decide_False by lia. done. Qed.

Context `{USS : !UserSysSpec W}.

(** One line of the buffer. *)
Lemma one_line m p l s w :
  0 < p → len l < 1024 → mem_read m p (length l) = l → ldb m (p + len l) = 10 → mem_read m (p + len l + 1) (length s) = s → 0 ∉ l →
  let m0 := stb m (p + len l) 0 in
  ∃ m' w',
    (set_gmem m0 ;;
     if match_ pattern (cstrn (Z.to_nat BUFSIZE) m0 p) then
       set_gmem (stb m0 (p + len l) 10) ;;
       world (s_write 1 (mem_read (stb m0 (p + len l) 10) p (Z.to_nat (p + len l + 1 - p)))) ;;
       ret tt
     else ret tt) (mkgst m w) = Ok tt (mkgst m' w') ∧
    mem_read m' (p + len l + 1) (length s) = s ∧ (∀ x, p + len l < x → ldb m' x = ldb m x) ∧
    u_in w' = u_in w ∧ u_out w' 1 = u_out w 1 ++ printed [l].
Proof.
  intros Hp Hl Hr Hn Hs H0 m0. pose proof (len_nonneg l).
  assert (Hc : cstrn (Z.to_nat BUFSIZE) m0 p = l).
  { apply cstrn_text; [unfold BUFSIZE, len in *; lia| |done|unfold m0; by rewrite ldb_stb, decide_True].
    unfold m0. rewrite mem_read_stb by (unfold len in *; lia). done. }
  rewrite Hc. unfold set_gmem. rewrite bind_modify. unfold printed. cbn [filter list_filter]. destruct (decide (match_ pattern l = true)) as [E|E].
  - rewrite E, bind_modify. cbn [g_w g_mem].
    assert (Hrd : mem_read (stb m0 (p + len l) 10) p (Z.to_nat (p + len l + 1 - p)) = l ++ [10]).
    { replace (Z.to_nat (p + len l + 1 - p)) with (length l + 1)%nat by (unfold len; lia). rewrite mem_read_app.
      unfold m0. rewrite !mem_read_stb by (unfold len in *; lia). rewrite Hr. f_equal. cbn. rewrite ldb_stb, decide_True by (unfold len; lia). done. }
    rewrite Hrd. destruct (s_write_spec w 1 (l ++ [10])) as (w' & Ew & Hi & Ho & _).
    unfold world. rewrite (bind_ok _ _ _ (len (l ++ [10])) (mkgst (stb m0 (p + len l) 10) w')); [|unfold zoom; cbn; by rewrite Ew].
    exists (stb m0 (p + len l) 10), w'. split_and!; [done| | |done|].
    + unfold m0. rewrite !mem_read_stb by lia. done.
    + intros x Hx. unfold m0. rewrite !ldb_stb, !decide_False by lia. done.
    + rewrite Ho. cbn. by rewrite app_nil_r.
  - apply not_true_is_false in E. rewrite E. exists m0, w. split_and!; [done| | |done|by rewrite app_nil_r].
    + unfold m0. rewrite !mem_read_stb by lia. done.
    + intros x Hx. unfold m0. rewrite !ldb_stb, !decide_False by lia. done.
Qed.

Lemma lines_loop_ok fuel p t m w :
  0 < p → len t < 1024 → (length t < fuel)%nat → mem_read m p (length t) = t → ldb m (p + len t) = 0 → 0 ∉ t →
  let r := left_over [] t in
  ∃ m' w', lines_loop fuel p (mkgst m w) = Ok (p + (len t - len r)) (mkgst m' w') ∧
    mem_read m' (p + (len t - len r)) (length r) = r ∧
    u_in w' = u_in w ∧ u_out w' 1 = u_out w 1 ++ printed (lines [] t).
Proof.
  revert p t m w. induction fuel as [|fuel IH]; intros p t m w Hp Hl Hf Hr Hz H0 r; [lia|]. cbn [lines_loop]. rewrite bind_gets. cbn [g_mem].
  destruct (split_line t) as [Ht|(l & s & -> & Hnl)].
  - destruct (strchr_line (Z.to_nat BUFSIZE) m p t) as [E|[E _]]; [done|unfold BUFSIZE, len in *; lia|done|done|done| |done].
    rewrite E, Hz. cbn. destruct (lines_none [] t Ht) as [E1 E2]. unfold r. rewrite E1, E2. cbn. exists m, w.
    rewrite Z.sub_diag, Z.add_0_r. split_and!; [done|done|done|by rewrite app_nil_r].
  - rewrite len_app, len_cons in *. rewrite length_app in Hr, Hf. cbn [length] in Hr, Hf. rewrite mem_read_app in Hr.
    apply app_inj_1 in Hr as [Hr1 Hr2]; [|apply length_mem_read]. cbn in Hr2. injection Hr2 as Hr2 Hr3.
    change (Z.of_nat (length l)) with (len l) in *. pose proof (len_nonneg l). pose proof (len_nonneg s).
    apply not_elem_of_app in H0 as [H0l H0s]. apply not_elem_of_cons in H0s as [_ H0s].
    destruct (strchr_line (Z.to_nat BUFSIZE) m p l) as [E|[_ E]]; [done|unfold BUFSIZE, len in *; lia|done|done|done| |congruence].
    rewrite E, Hr2, Z.eqb_refl. destruct (Z.eqb_spec (p + len l) 0); [lia|].
    destruct (one_line m p l s w) as (m' & w' & R & Hr' & Hsame & Hi & Ho); [done|lia|done|done|done|done|].
    rewrite (bind_nested _ _ _ _ _ _ R). clear R.
    destruct (IH (p + len l + 1) s m' w') as (m2 & w2 & R2 & Hr2' & Hi2 & Ho2); [lia|lia|unfold len in *; lia|done| |done|].
    { rewrite Hsame by lia. rewrite <-Hz. f_equal. lia. }
    unfold r. rewrite left_line by done. exists m2, w2. rewrite R2.
    replace (p + (len l + (1 + len s) - len (left_over [] s))) with (p + len l + 1 + (len s - len (left_over [] s))) by lia.
    split_and!; [done|done|by rewrite Hi2|]. rewrite Ho2, Ho, lines_line by done. cbn [app]. rewrite <-app_assoc. f_equal.
    change (l :: lines [] s) with ([l] ++ lines [] s). by rewrite printed_app.
Qed.

Lemma left_app cur a b : left_over cur (a ++ b) = left_over (left_over cur a) b.
Proof. revert cur. induction a as [|c a IH]; intros cur; cbn; [done|]. destruct (c =? 10); apply IH. Qed.

Lemma left_clean cur s : 10 ∉ cur → 10 ∉ left_over cur s.
Proof.
  revert cur. induction s as [|c s IH]; intros cur Hc; cbn; [done|]. destruct (Z.eqb_spec c 10); apply IH; [apply not_elem_of_nil|].
  rewrite not_elem_of_app, list_elem_of_singleton. split; [done|congruence].
Qed.

Lemma left_sub cur s : ∃ x, cur ++ s = x ++ left_over cur s.
Proof.
  revert cur. induction s as [|c s IH]; intros cur; cbn; [exists []; by rewrite app_nil_r|]. destruct (Z.eqb_spec c 10) as [->|].
  - destruct (IH []) as (x & Hx). exists (cur ++ [10] ++ x). cbn in Hx. rewrite Hx at 1. by rewrite <-!app_assoc.
  - destruct (IH (cur ++ [c])) as (x & Hx). exists x. rewrite <-Hx. by rewrite <-app_assoc.
Qed.

Lemma lines_first cur s : lines cur s = [] ∨ ∃ x ls, lines cur s = x :: ls ∧ len cur ≤ len x.
Proof.
  revert cur. induction s as [|c s IH]; intros cur; cbn; [by left|]. destruct (c =? 10); [right; by exists cur, (lines [] s)|].
  destruct (IH (cur ++ [c])) as [->|(x & ls & -> & Hx)]; [by left|right]. exists x, ls. rewrite len_app in Hx. pose proof (len_nonneg [c]). split; [done|lia].
Qed.

(** The buffer after a read. *)
Lemma filled m pend bs :
  mem_read m buf (length pend) = pend → is_bytes bs →
  let m1 := stb (mem_write m (buf + len pend) bs) (buf + len (pend ++ bs)) 0 in
  mem_read m1 buf (length (pend ++ bs)) = pend ++ bs ∧ ldb m1 (buf + len (pend ++ bs)) = 0.
Proof.
  intros Hr Hb m1. split; [|unfold m1; by rewrite ldb_stb, decide_True]. rewrite length_app, mem_read_app.
  unfold m1. rewrite !mem_read_stb by (rewrite len_app; unfold len; lia). f_equal.
  - rewrite mem_read_write_ne; [done|]. unfold disjoint_ranges, len. lia.
  - by apply mem_read_write_eq.
Qed.

Lemma grep_loop_ok fuel fd pend m w :
  0 < buf → mem_read m buf (length pend) = pend → 0 ∉ pend → 10 ∉ pend → len pend ≤ 1023 →
  is_bytes (u_in w fd) → 0 ∉ u_in w fd → (length (u_in w fd) < fuel)%nat →
  Forall (λ l, len l ≤ 1022) (lines pend (u_in w fd)) →
  ∃ m' w', grep_loop fuel fd (len pend) (mkgst m w) = Ok tt (mkgst m' w') ∧ u_out w' 1 = u_out w 1 ++ printed (lines pend (u_in w fd)).
Proof.
  intros Hbuf. revert pend m w. induction fuel as [|fuel IH]; intros pend m w Hr H0 Hn Hl Hb H0i Hf Hls; [lia|]. cbn [grep_loop].
  pose proof (len_nonneg pend). unfold BUFSIZE. destruct (s_read_spec w fd (1024 - len pend - 1)) as (k & w1 & E & Hk & Hk2 & Hk0 & Hi & Ho); [lia|].
  set (inp := u_in w fd) in *. set (bs := take (Z.to_nat k) inp) in *.
  unfold world at 1. rewrite (bind_ok _ _ _ (k, bs) (mkgst m w1)) by (unfold zoom; cbn; by rewrite E). cbn beta iota.
  destruct (Z.ltb_spec 0 k) as [Hpos|Hz]; cbn [negb].
  2: { assert (lines pend inp = []) as ->; [|exists m, w1; by rewrite Ho, app_nil_r].
       destruct (Hk0 ltac:(lia)) as [Hfull| ->]; [|done]. destruct (lines_first pend inp) as [E1|(x & ls & E1 & Hx)]; [done|].
       rewrite E1 in Hls. apply Forall_cons in Hls as [Hls _]. lia. }
  assert (Hsplit : inp = bs ++ drop (Z.to_nat k) inp) by (unfold bs; by rewrite take_drop).
  assert (Hlb : len bs = k) by (unfold bs, len in *; rewrite length_take; lia).
  assert (Hbb : is_bytes bs) by (by apply Forall_take). assert (H0b : (0 ∉ bs) ∧ (0 ∉ drop (Z.to_nat k) inp)) by (rewrite Hsplit in H0i; by apply not_elem_of_app in H0i).
  rewrite bind_get. unfold set_gmem. rewrite bind_modify. cbn [g_mem g_w]. destruct (filled m pend bs Hr Hbb) as [F1 F2].
  replace (len pend + k - k) with (len pend) by lia. rewrite len_app, Hlb in *. set (m1 := stb _ _ 0) in *.
  destruct (lines_loop_ok 1024 buf (pend ++ bs) m1 w1) as (m2 & w2 & R & Hr2 & Hi2 & Ho2);
    [done|rewrite len_app; lia|rewrite length_app; unfold len in *; lia|done|by rewrite len_app, Hlb|rewrite not_elem_of_app; tauto|].
  change (Z.to_nat 1024) with 1024%nat. rewrite (bind_ok _ _ _ _ _ R). clear R. set (r := left_over [] (pend ++ bs)) in *.
  destruct (Z.ltb_spec 0 (len pend + k)); [|lia]. rewrite len_app, Hlb in *.
  replace (len pend + k - (buf + (len pend + k - len r) - buf)) with (len r) by lia. rewrite bind_assoc, bind_get, bind_assoc, bind_modify, bind_ret. cbn [g_mem g_w].
  destruct (lines_none [] pend Hn) as [L1 L2]. cbn [app] in L2. assert (Hrr : r = left_over pend bs) by (unfold r; by rewrite left_app, L2).
  assert (Hll : lines [] (pend ++ bs) = lines pend bs) by (by rewrite lines_app, L1, L2).
  destruct (left_sub pend bs) as (x & Hx). rewrite <-Hrr in Hx. pose proof (f_equal len Hx) as Hxl. rewrite !len_app, Hlb in Hxl. pose proof (len_nonneg x). pose proof (len_nonneg r).
  destruct (IH r (memmove m2 buf (buf + (len pend + k - len r)) (len r)) w2) as (m' & w' & R & Ho').
  - etransitivity; [|exact Hr2]. apply mem_read_ext. intros i Hi'. rewrite memmove_ok by lia. rewrite decide_True by (unfold len; lia). f_equal. lia.
  - assert (0 ∉ pend ++ bs) as H0p by (rewrite not_elem_of_app; tauto). rewrite Hx in H0p. apply not_elem_of_app in H0p. tauto.
  - rewrite Hrr. by apply left_clean.
  - lia.
  - rewrite Hi2, Hi. by apply Forall_drop.
  - rewrite Hi2, Hi. tauto.
  - rewrite Hi2, Hi, length_drop. unfold len in *. lia.
  - rewrite Hi2, Hi. rewrite Hsplit, lines_app, <-Hrr in Hls. apply Forall_app in Hls. tauto.
  - exists m', w'. split; [done|]. rewrite Ho', Ho2, Ho, Hi2, Hi, Hll, <-app_assoc. f_equal. rewrite <-printed_app. f_equal. by rewrite Hsplit at 2; rewrite lines_app, <-Hrr.
Qed.

(** C39: [grep] prints the lines that match.  For an input of lines of up to 1022
    characters, without NUL characters, it prints exactly the finished lines
    that match the pattern, in order, however [read] cuts the input into pieces;
    and it ends. *)
Theorem grep_spec fuel fd m w :
  0 < buf → is_bytes (u_in w fd) → 0 ∉ u_in w fd → (length (u_in w fd) < fuel)%nat →
  Forall (λ l, len l ≤ 1022) (lines [] (u_in w fd)) →
  ∃ m' w', grep fuel fd (mkgst m w) = Ok tt (mkgst m' w') ∧
    u_out w' 1 = u_out w 1 ++ printed (lines [] (u_in w fd)).
Proof. intros. apply (grep_loop_ok fuel fd [] m w); try done; apply not_elem_of_nil. Qed.
End grep.

(** ** An instance: one input, delivered at most five bytes at a time *)

Record dworld := mkdworld { dw_in : Z → list Z; dw_out : Z → list Z }.

#[export] Instance dsys : UserSys dworld := {|
  s_read fd n w := let k := Z.min 5 (Z.min n (len (dw_in w fd))) in
    Ok (k, take (Z.to_nat k) (dw_in w fd)) (mkdworld (<[fd := drop (Z.to_nat k) (dw_in w fd)]> (dw_in w)) (dw_out w));
  s_write fd bs w := Ok (len bs) (mkdworld (dw_in w) (<[fd := dw_out w fd ++ bs]> (dw_out w)));
  s_open _ _ := ret 3; s_close _ := ret 0; s_mkdir _ := ret 0; s_unlink _ := ret 0; s_link _ _ := ret 0; s_kill _ := ret 0; s_pause _ := ret 0;
|}.

#[export] Program Instance dsys_spec : UserSysSpec dworld := {| u_in := dw_in; u_out := dw_out |}.
Next Obligation.
  intros w fd n Hn. pose proof (len_nonneg (dw_in w fd)). eexists _, _. split; [reflexivity|]. split_and!; [lia|lia|lia| |cbn [dw_in]; by rewrite fn_lookup_insert|done].
  intros Hk. destruct (dw_in w fd) as [|c l]; [by right|left]. rewrite len_cons in *. pose proof (len_nonneg l). lia.
Qed.
Next Obligation.
  intros w fd bs. eexists. split; [reflexivity|]. split_and!; [done|cbn [dw_out]; by rewrite fn_lookup_insert|]. intros fd' Hne. cbn [dw_out]. by rewrite fn_lookup_insert_ne.
Qed.

(** "one\ntwo\nthree\n" and the pattern "o". *)
Definition dinput : dworld := mkdworld (λ fd, if fd =? 0 then str "one" ++ [10] ++ str "two" ++ [10] ++ str "three" ++ [10] else []) (λ _, []).

Lemma grep_spec_witness :
  ∃ m' w', grep 4096 [111] 20 0 (mkgst (λ _, 0) dinput) = Ok tt (mkgst m' w') ∧
    u_out w' 1 = u_out dinput 1 ++ printed [111] (lines [] (u_in dinput 0)).
Proof.
  apply (grep_spec 4096 [111] 20 0 (λ _, 0) dinput); [lia| | | |].
  - apply (bool_decide_unpack _). vm_compute. exact I.
  - apply (bool_decide_unpack _). vm_compute. exact I.
  - vm_compute. lia.
  - repeat constructor; done.
Defined.
