(* ===== verification/Progs.v ===== *)
(** user/cat.c, echo.c, wc.c, mkdir.c, rm.c, ln.c, kill.c, sleep.c, grep.c
    ([main]): small programs over the system calls of Ulib.v.

    [argv] is a list of strings.  [exit(n)] ends a program: [main] returns the
    status, and a function that may exit returns it as [Some].  A buffer that is
    filled and used up in one turn of a loop is the list of bytes read.

    The theorems: [cat] copies its input, and [wc] counts lines, words and
    characters, whatever pieces [read] delivers. *)

From stdpp Require Import base tactics list numbers strings.
From S2P Require Import Prelude Bytes CString Printf Ulib Grep.
From Stdlib Require Import ZArith Lia.

Open Scope kernel_scope.

Section programs.
  Context {W : Type} `{US : UserSys W}.

Abbreviation UP := (M W).

(** A string constant with its newline. *)
Definition line (s : string) : list Z := str s ++ [10].

(** * cat.c *)

Fixpoint cat (fuel : nat) (fd : Z) : UP (option Z) :=
  match fuel with
  | O => λ _, OutOfFuel
  | S fuel' =>
      ' (n, buf) <- s_read fd 512 ;;
      if 0 <? n then
        r <- s_write 1 buf ;;
        if negb (r =? n) then fprintf 2 (line "cat: write error") [] ;; ret (Some 1)
        else cat fuel' fd
      else if n <? 0 then fprintf 2 (line "cat: read error") [] ;; ret (Some 1)
      else ret None
  end.

Fixpoint cat_files (fuel : nat) (args : list (list Z)) : UP Z :=
  match args with
  | [] => ret 0
  | a :: args' =>
      fd <- s_open a 0 ;;
      if fd <? 0 then fprintf 2 (line "cat: cannot open %s") [Str a] ;; ret 1
      else
        r <- cat fuel fd ;;
        match r with
        | Some status => ret status
        | None => s_close fd ;; cat_files fuel args'
        end
  end.

Definition cat_main (fuel : nat) (argv : list (list Z)) : UP Z :=
  if len argv <=? 1 then
    r <- cat fuel 0 ;;
    ret (default 0 r)
  else cat_files fuel (tail argv).

(** * echo.c *)

Fixpoint echo_args (args : list (list Z)) : UP unit :=
  match args with
  | [] => ret tt
  | a :: args' =>
      uprintf (str "%s") [Str a] ;;
      (match args' with [] => ret tt | _ => uprintf (str " ") [] end) ;;
      echo_args args'
  end.

Definition echo_main (argv : list (list Z)) : UP Z :=
  echo_args (tail argv) ;;
  uprintf [10] [] ;;
  ret 0.

(** * wc.c *)

(** [strchr(" \r\t\n\v", c)] is not null; the NUL is not found. *)
Definition is_space (c : Z) : bool := (c =? 32) || (c =? 13) || (c =? 9) || (c =? 10) || (c =? 11).

Record counts := mkcounts { wc_l : Z; wc_w : Z; wc_c : Z; wc_inword : bool }.

Definition wc_char (s : counts) (ch : Z) : counts :=
  let c := s32 (wc_c s + 1) in
  let l := if ch =? 10 then s32 (wc_l s + 1) else wc_l s in
  if is_space ch then mkcounts l (wc_w s) c false
  else if negb (wc_inword s) then mkcounts l (s32 (wc_w s + 1)) c true
  else mkcounts l (wc_w s) c (wc_inword s).

Fixpoint wc_loop (fuel : nat) (fd : Z) (s : counts) : UP (Z * counts) :=
  match fuel with
  | O => λ _, OutOfFuel
  | S fuel' =>
      ' (n, buf) <- s_read fd 512 ;;
      if 0 <? n then wc_loop fuel' fd (fold_left wc_char buf s)
      else ret (n, s)
  end.

Definition wc (fuel : nat) (fd : Z) (name : list Z) : UP (option Z) :=
  ' (n, s) <- wc_loop fuel fd (mkcounts 0 0 0 false) ;;
  if n <? 0 then uprintf (line "wc: read error") [] ;; ret (Some 1)
  else uprintf (line "%d %d %d %s") [Word (wc_l s); Word (wc_w s); Word (wc_c s); Str name] ;; ret None.

Fixpoint wc_files (fuel : nat) (args : list (list Z)) : UP Z :=
  match args with
  | [] => ret 0
  | a :: args' =>
      fd <- s_open a 0 ;;
      if fd <? 0 then uprintf (line "wc: cannot open %s") [Str a] ;; ret 1
      else
        r <- wc fuel fd a ;;
        match r with
        | Some status => ret status
        | None => s_close fd ;; wc_files fuel args'
        end
  end.

Definition wc_main (fuel : nat) (argv : list (list Z)) : UP Z :=
  if len argv <=? 1 then
    r <- wc fuel 0 [] ;;
    ret (default 0 r)
  else wc_files fuel (tail argv).

(** * mkdir.c, rm.c, ln.c, kill.c, sleep.c *)

Fixpoint mkdir_args (args : list (list Z)) : UP unit :=
  match args with
  | [] => ret tt
  | a :: args' =>
      r <- s_mkdir a ;;
      if r <? 0 then fprintf 2 (line "mkdir: %s failed to create") [Str a]
      else mkdir_args args'
  end.

Definition mkdir_main (argv : list (list Z)) : UP Z :=
  if len argv <? 2 then fprintf 2 (line "Usage: mkdir files...") [] ;; ret 1
  else mkdir_args (tail argv) ;; ret 0.

Fixpoint rm_args (args : list (list Z)) : UP unit :=
  match args with
  | [] => ret tt
  | a :: args' =>
      r <- s_unlink a ;;
      if r <? 0 then fprintf 2 (line "rm: %s failed to delete") [Str a]
      else rm_args args'
  end.

Definition rm_main (argv : list (list Z)) : UP Z :=
  if len argv <? 2 then fprintf 2 (line "Usage: rm files...") [] ;; ret 1
  else rm_args (tail argv) ;; ret 0.

Definition ln_main (argv : list (list Z)) : UP Z :=
  if negb (len argv =? 3) then fprintf 2 (line "Usage: ln old new") [] ;; ret 1
  else
    let a1 := znth [] argv 1 in
    let a2 := znth [] argv 2 in
    r <- s_link a1 a2 ;;
    (if r <? 0 then fprintf 2 (line "link %s %s: failed") [Str a1; Str a2] else ret tt) ;;
    ret 0.

(** [atoi] of an argument: the string in memory, with its NUL. *)
Definition atoi_arg (a : list Z) : UP Z :=
  match atoi (S (length a)) (λ x, znth 0 a x) 0 with
  | Some n => ret n
  | None => λ _, OutOfFuel
  end.

Fixpoint kill_args (args : list (list Z)) : UP unit :=
  match args with
  | [] => ret tt
  | a :: args' => pid <- atoi_arg a ;; s_kill pid ;; kill_args args'
  end.

Definition kill_main (argv : list (list Z)) : UP Z :=
  if len argv <? 2 then fprintf 2 (line "usage: kill pid...") [] ;; ret 1
  else kill_args (tail argv) ;; ret 0.

Definition sleep_main (argv : list (list Z)) : UP Z :=
  if len argv <? 2 then fprintf 2 (line "Usage: sleep <ticks>") [] ;; ret 1
  else
    ticks <- atoi_arg (znth [] argv 1) ;;
    if ticks <? 0 then fprintf 2 (line "sleep: invalid number of ticks") [] ;; ret 1
    else s_pause ticks ;; ret 0.

(** * grep.c: [main] *)

Fixpoint grep_files (buf : Z) (fuel : nat) (pattern : list Z) (args : list (list Z)) : M (gst W) Z :=
  match args with
  | [] => ret 0
  | a :: args' =>
      fd <- world (s_open a 0) ;;
      if fd <? 0 then world (uprintf (line "grep: cannot open %s") [Str a]) ;; ret 1
      else
        grep buf pattern fuel fd ;;
        world (s_close fd) ;;
        grep_files buf fuel pattern args'
  end.

Definition grep_main (buf : Z) (fuel : nat) (argv : list (list Z)) : M (gst W) Z :=
  if len argv <=? 1 then world (fprintf 2 (line "usage: grep pattern [file ...]") []) ;; ret 1
  else
    let pattern := znth [] argv 1 in
    if len argv <=? 2 then grep buf pattern fuel 0 ;; ret 0
    else grep_files buf fuel pattern (drop 2 argv).

(** * Theorems *)

Context `{USS : !UserSysSpec W}.

Lemma cat_ok fuel fd w :
  fd ≠ 1 → (length (u_in w fd) < fuel)%nat →
  ∃ w', cat fuel fd w = Ok None w' ∧ u_out w' 1 = u_out w 1 ++ u_in w fd ∧ u_in w' fd = [].
Proof.
  intros Hfd. revert w. induction fuel as [|fuel IH]; intros w Hf; [lia|]. cbn [cat].
  destruct (s_read_spec w fd 512) as (k & w1 & E & Hk & Hk2 & Hk0 & Hi & Ho); [lia|]. rewrite (bind_ok _ _ _ _ _ E). cbn beta iota.
  destruct (Z.ltb_spec 0 k) as [Hpos|Hz].
  - destruct (s_write_spec w1 1 (take (Z.to_nat k) (u_in w fd))) as (w2 & E2 & Hi2 & Ho2 & _). rewrite (bind_ok _ _ _ _ _ E2).
    assert (len (take (Z.to_nat k) (u_in w fd)) = k) as -> by (unfold len in *; rewrite length_take; lia). rewrite Z.eqb_refl. cbn [negb].
    destruct (IH w2) as (w3 & E3 & Ho3 & Hi3). { rewrite Hi2, Hi, length_drop. unfold len in *. lia. }
    exists w3. split_and!; [done| |done]. by rewrite Ho3, Ho2, Hi2, Hi, Ho, <-app_assoc, take_drop.
  - assert (k = 0) as -> by lia. cbn. exists w1. destruct (Hk0 eq_refl) as [?| Hn]; [lia|]. split_and!; [done|by rewrite Ho, Hn, app_nil_r|]. by rewrite Hi, Hn.
Qed.

(** What [wc] counts: newlines, and the maximal runs of other than white space. *)
Fixpoint words (cur : list Z) (s : list Z) : list (list Z) :=
  match s with
  | [] => if decide (cur = []) then [] else [cur]
  | c :: s' => if is_space c then (if decide (cur = []) then [] else [cur]) ++ words [] s' else words (cur ++ [c]) s'
  end.

Definition newlines (s : list Z) : Z := len (filter (λ c, c = 10) s).

Lemma words_length cur s : len (words cur s) ≤ b2z (negb (bool_decide (cur = []))) + len s.
Proof.
  revert cur. induction s as [|c s IH]; intros cur; cbn [words].
  - case_decide; case_bool_decide; try done; unfold len; cbn; lia.
  - rewrite len_cons. destruct (is_space c).
    + rewrite len_app. specialize (IH []). rewrite bool_decide_true in IH by done. cbn in IH. case_decide; case_bool_decide; try done; unfold len in *; cbn; lia.
    + specialize (IH (cur ++ [c])). destruct (bool_decide (cur = [])); case_bool_decide; cbn in *; lia.
Qed.

Lemma wc_char_ok st ch :
  0 ≤ wc_l st < 2147483647 → 0 ≤ wc_w st < 2147483647 → 0 ≤ wc_c st < 2147483647 →
  let st1 := wc_char st ch in
  wc_l st1 = wc_l st + b2z (ch =? 10) ∧ wc_c st1 = wc_c st + 1 ∧
  wc_w st1 = wc_w st + b2z (negb (is_space ch) && negb (wc_inword st)) ∧ wc_inword st1 = negb (is_space ch).
Proof.
  intros Hl Hw Hc. unfold wc_char. rewrite !s32_id by lia. destruct (ch =? 10), (is_space ch), (wc_inword st) eqn:E; cbn; rewrite ?E; split_and!; lia || done.
Qed.

Lemma wc_fold s cur st :
  wc_inword st = negb (bool_decide (cur = [])) → 0 ≤ wc_l st → 0 ≤ wc_w st → 0 ≤ wc_c st →
  wc_l st + len s < 2147483648 → wc_w st + len s < 2147483648 → wc_c st + len s < 2147483648 →
  let st' := fold_left wc_char s st in
  wc_l st' = wc_l st + newlines s ∧ wc_c st' = wc_c st + len s ∧
  wc_w st' = wc_w st + len (words cur s) - b2z (wc_inword st).
Proof.
  revert cur st. induction s as [|ch s IH]; intros cur st Hin Hl Hw Hc Hl2 Hw2 Hc2; cbn [fold_left words].
  - rewrite Hin. unfold newlines, len. cbn. split_and!; [lia|lia|]. case_decide; case_bool_decide; try done; cbn; lia.
  - rewrite len_cons in *. pose proof (len_nonneg s). assert (Hnl : newlines (ch :: s) = b2z (ch =? 10) + newlines s).
    { unfold newlines. rewrite filter_cons. destruct (Z.eqb_spec ch 10); case_decide; try done; rewrite ?len_cons; cbn; lia. }
    destruct (wc_char_ok st ch) as (C1 & C2 & C3 & C4); [lia..|]. set (st1 := wc_char st ch) in *.
    destruct (IH (if is_space ch then [] else cur ++ [ch]) st1) as (I1 & I2 & I3).
    + rewrite C4. destruct (is_space ch); [done|]. by destruct cur.
    + destruct (ch =? 10); cbn in *; lia.
    + destruct (_ && _) in C3; cbn in *; lia.
    + lia.
    + destruct (ch =? 10); cbn in *; lia.
    + destruct (_ && _) in C3; cbn in *; lia.
    + lia.
    + rewrite I1, I2, I3, Hnl, C1, C2, C3, C4, Hin. split_and!; [lia|lia|]. destruct (is_space ch); cbn [negb andb b2z].
      * rewrite len_app. case_decide; case_bool_decide; try done; unfold len; cbn; lia.
      * case_bool_decide; cbn; lia.
Qed.

Lemma wc_loop_ok fuel fd w s0 :
  (length (u_in w fd) < fuel)%nat →
  ∃ w', wc_loop fuel fd (fold_left wc_char s0 (mkcounts 0 0 0 false)) w = Ok (0, fold_left wc_char (s0 ++ u_in w fd) (mkcounts 0 0 0 false)) w' ∧ u_out w' = u_out w.
Proof.
  revert w s0. induction fuel as [|fuel IH]; intros w s0 Hf; [lia|]. cbn [wc_loop].
  destruct (s_read_spec w fd 512) as (k & w1 & E & Hk & Hk2 & Hk0 & Hi & Ho); [lia|]. rewrite (bind_ok _ _ _ _ _ E). cbn beta iota.
  destruct (Z.ltb_spec 0 k) as [Hpos|Hz].
  - rewrite <-fold_left_app. destruct (IH w1 (s0 ++ take (Z.to_nat k) (u_in w fd))) as (w2 & E2 & Ho2).
    { rewrite Hi, length_drop. unfold len in *. lia. }
    exists w2. rewrite E2, Hi, <-app_assoc, take_drop, Ho2, Ho. done.
  - assert (k = 0) as -> by lia. destruct (Hk0 eq_refl) as [?| ->]; [lia|]. exists w1. by rewrite app_nil_r, Ho.
Qed.

(** [wc] counts.  For an input of less than 2^31 bytes it prints the number of
    newlines, of words (maximal runs of characters other than white space) and
    of bytes, whatever pieces [read] delivers, and ends. *)
Theorem wc_spec fuel fd name w :
  fd ≠ 1 → (length (u_in w fd) < fuel)%nat → len (u_in w fd) < 2147483648 →
  ∃ w', wc fuel fd name w = Ok None w' ∧
    u_out w' 1 = u_out w 1 ++ (u8 <$> vprintf_chars (line "%d %d %d %s")
      [Word (newlines (u_in w fd)); Word (len (words [] (u_in w fd))); Word (len (u_in w fd)); Str name]).
Proof.
  intros Hfd Hf Hn. unfold wc. destruct (wc_loop_ok fuel fd w [] Hf) as (w1 & E & Ho).
  cbn [fold_left] in E. rewrite (bind_ok _ _ _ _ _ E). cbn [app Z.ltb Z.compare]. pose proof (len_nonneg (u_in w fd)).
  destruct (wc_fold (u_in w fd) [] (mkcounts 0 0 0 false)) as (C1 & C2 & C3); [done|cbn; lia..|].
  rewrite C1, C2, C3. cbn [wc_l wc_w wc_c wc_inword b2z]. rewrite Z.add_0_l, Z.add_0_l, Z.sub_0_r, Z.add_0_l.
  unfold uprintf, vprintf. match goal with |- context [puts 1 ?cs] => destruct (puts_ok 1 cs w1) as (w2 & E2 & _ & Ho2 & _) end.
  rewrite (bind_ok _ _ _ _ _ E2). exists w2. split; [done|]. by rewrite Ho2, Ho.
Qed.

(** [cat] copies its input to its output, in order and completely, whatever
    pieces [read] delivers, and ends. *)
Theorem cat_spec fuel fd w :
  fd ≠ 1 → (length (u_in w fd) < fuel)%nat →
  ∃ w', cat fuel fd w = Ok None w' ∧ u_out w' 1 = u_out w 1 ++ u_in w fd ∧ u_in w' fd = [].
Proof. apply cat_ok. Qed.
End programs.

Lemma cat_spec_witness : ∃ w', cat 20 0 dinput = Ok None w' ∧ u_out w' 1 = u_out dinput 1 ++ u_in dinput 0 ∧ u_in w' 0 = [].
Proof. apply (cat_spec 20 0 dinput); [done|vm_compute; lia]. Defined.

Lemma wc_spec_witness :
  ∃ w', wc 20 0 (str "f") dinput = Ok None w' ∧
    u_out w' 1 = u_out dinput 1 ++ (u8 <$> vprintf_chars (line "%d %d %d %s")
      [Word (newlines (u_in dinput 0)); Word (len (words [] (u_in dinput 0))); Word (len (u_in dinput 0)); Str (str "f")]).
Proof. apply (wc_spec 20 0 (str "f") dinput); [done|vm_compute; lia|vm_compute; done]. Defined.

(** It prints "3 3 14 f". *)
Lemma wc_prints : (u8 <$> vprintf_chars (line "%d %d %d %s")
  [Word (newlines (u_in dinput 0)); Word (len (words [] (u_in dinput 0))); Word (len (u_in dinput 0)); Str (str "f")]) = line "3 3 14 f".
Proof. vm_compute. reflexivity. Qed.
