(* ===== verification/Ls.v ===== *)
(** user/ls.c, and [stat] of user/ulib.c.

    The state is the memory of the program and the world (as in Grep.v).  [sbuf]
    is the address of the static buffer of [fmtname] and [buf] that of the local
    buffer of [ls]; the directory entry [de] is the list of bytes that was read.
    A scan for a NUL sees at most [sf] bytes.

    The theorem: [ls] prints one line for a file, and for a directory one line
    for each entry in use, in order, with the name padded to 14 characters, the
    type, inode number and size that [stat] gives for it. *)

From stdpp Require Import base tactics list numbers strings gmap.
From S2P Require Import Prelude Param Bytes CString Printf Ulib Grep Progs.
From Stdlib Require Import ZArith Lia.

Open Scope kernel_scope.

(** [struct stat] *)
Record ustat := mkustat { st_dev : Z; st_ino : Z; st_type : Z; st_nlink : Z; st_size : Z }.

(** The result and the structure. *)
Class UserStat (W : Type) := { s_fstat : Z → M W (Z * ustat) }.

Definition ustat0 : ustat := mkustat 0 0 0 0 0.

Section ls.
  Context {W : Type} `{US : UserSys W} `{ST : UserStat W}.
  Context (sf : nat) (sbuf buf : Z).

Abbreviation GM := (M (gst W)).

(** ulib.c *)
Definition stat (n : list Z) : M W (Z * ustat) :=
  fd <- s_open n 0 ;;
  if fd <? 0 then ret (-1, ustat0)
  else
    ' (r, st) <- s_fstat fd ;;
    s_close fd ;;
    ret (r, st).

(** [strlen] and the string at an address. *)
Definition slen (a : Z) : GM Z := λ s,
  match Ulib.strlen sf (g_mem s) a with
  | Some n => Ok n s
  | None => OutOfFuel
  end.
Definition text (a : Z) : GM (list Z) := gets (λ s, cstrn sf (g_mem s) a).
Definition upd_mem (f : mem → mem) : GM unit := modify (λ s, mkgst (f (g_mem s)) (g_w s)).

(** [for(p=path+strlen(path); p >= path && *p != '/'; p--)], of which [n] is a
    bound. *)
Fixpoint back (n : nat) (m : mem) (path p : Z) : option Z :=
  match n with
  | O => None
  | S n' => if (path <=? p) && negb (ldb m p =? 47) then back n' m path (p - 1) else Some p
  end.

Definition fmtname (path : Z) : GM Z :=
  n <- slen path ;;
  m <- gets g_mem ;;
  match back (Z.to_nat (n + 2)) m path (path + n) with
  | None => λ _, OutOfFuel
  | Some p =>
      let p := p + 1 in
      n <- slen p ;;
      if DIRSIZ <=? n then ret p
      else
        upd_mem (λ m, Ulib.memmove m sbuf p n) ;;
        n <- slen p ;;
        upd_mem (λ m, Ulib.memset m (sbuf + n) 32 (DIRSIZ - n)) ;;
        upd_mem (λ m, stb m (sbuf + DIRSIZ) 0) ;;
        ret sbuf
  end.

(** [printf("%s %d %d %d\n", fmtname(path), st.type, st.ino, (int) st.size)] *)
Definition ls_line : list Z := line "%s %d %d %d".
Definition print_stat (path : Z) (st : ustat) : GM unit :=
  q <- fmtname path ;;
  t <- text q ;;
  world (uprintf ls_line [Str t; Word (st_type st); Word (st_ino st); Word (s32 (st_size st))]).

(** The loop over the entries; [p] is where the name goes. *)
Fixpoint ls_dir (fuel : nat) (fd p : Z) : GM unit :=
  match fuel with
  | O => λ _, OutOfFuel
  | S fuel' =>
      ' (n, de) <- world (s_read fd 16) ;;
      if negb (n =? 16) then ret tt
      else if blk_load 2 de 0 =? 0 then ls_dir fuel' fd p
      else
        upd_mem (λ m, mem_write m p (blk_read de 2 14)) ;;
        upd_mem (λ m, stb m (p + DIRSIZ) 0) ;;
        t <- text buf ;;
        ' (r, st) <- world (stat t) ;;
        (if r <? 0 then world (uprintf (line "ls: cannot stat %s") [Str t]) else print_stat buf st) ;;
        ls_dir fuel' fd p
  end.

Definition ls (fuel : nat) (path : Z) : GM unit :=
  t <- text path ;;
  fd <- world (s_open t 0) ;;
  if fd <? 0 then world (fprintf 2 (line "ls: cannot open %s") [Str t])
  else
    ' (r, st) <- world (s_fstat fd) ;;
    if r <? 0 then
      world (fprintf 2 (line "ls: cannot stat %s") [Str t]) ;;
      world (s_close fd) ;; ret tt
    else
      (if (st_type st =? T_DEVICE) || (st_type st =? T_FILE) then print_stat path st
       else if st_type st =? T_DIR then
         n <- slen path ;;
         if 512 <? n + 1 + DIRSIZ + 1 then world (uprintf (line "ls: path too long") [])
         else
           s <- get ;;
           match Ulib.strcpy sf (g_mem s) buf path with
           | None => λ _, OutOfFuel
           | Some m =>
               upd_mem (λ _, m) ;;
               n <- slen buf ;;
               upd_mem (λ m, stb m (buf + n) 47) ;;
               ls_dir fuel fd (buf + n + 1)
           end
       else ret tt) ;;
      world (s_close fd) ;; ret tt.

(** [dot] is the address of the constant "."; [argv] are addresses. *)
Fixpoint ls_args (fuel : nat) (args : list Z) : GM unit :=
  match args with
  | [] => ret tt
  | a :: args' => ls fuel a ;; ls_args fuel args'
  end.
Definition ls_main (fuel : nat) (dot : Z) (argv : list Z) : GM Z :=
  (if len argv <? 2 then ls fuel dot else ls_args fuel (tail argv)) ;;
  ret 0.
End ls.

(** * Strings in memory *)

Fixpoint bytes_in (m : mem) (a : Z) (s : list Z) : Prop :=
  match s with
  | [] => True
  | c :: s' => ldb m a = c ∧ 0 < c < 256 ∧ bytes_in m (a + 1) s'
  end.
Definition str_in (m : mem) (a : Z) (s : list Z) : Prop := bytes_in m a s ∧ ldb m (a + len s) = 0.

Lemma bytes_in_app m a s t : bytes_in m a (s ++ t) ↔ bytes_in m a s ∧ bytes_in m (a + len s) t.
Proof.
  revert a. induction s as [|c s IH]; intros a; cbn [bytes_in app].
  - rewrite Z.add_0_r. naive_solver.
  - rewrite IH, len_cons. replace (a + 1 + len s) with (a + (1 + len s)) by lia. naive_solver.
Qed.

Lemma str_in_app m a s t : str_in m a (s ++ t) ↔ bytes_in m a s ∧ str_in m (a + len s) t.
Proof. unfold str_in. rewrite bytes_in_app, len_app, Z.add_assoc. naive_solver. Qed.

Lemma bytes_in_ext m m' a s : (∀ x, a ≤ x < a + len s → ldb m' x = ldb m x) → bytes_in m a s → bytes_in m' a s.
Proof.
  revert a. induction s as [|c s IH]; intros a He; cbn [bytes_in]; [done|]. rewrite len_cons in He. pose proof (len_nonneg s). intros (H1 & H2 & H3). split_and!; [by rewrite He by lia|lia|lia|].
  apply IH; [|done]. intros x Hx. apply He. lia.
Qed.

Lemma str_in_ext m m' a s : (∀ x, a ≤ x ≤ a + len s → ldb m' x = ldb m x) → str_in m a s → str_in m' a s.
Proof. intros He [H1 H2]. pose proof (len_nonneg s). split; [eapply bytes_in_ext; [|done]; intros; apply He; lia|]. by rewrite He by lia. Qed.

Lemma str_in_strlen sf m a s : str_in m a s → (length s < sf)%nat → Ulib.strlen sf m a = Some (len s).
Proof.
  intros [H1 H2] Hl. unfold Ulib.strlen, CString.strlen. rewrite (strlen_loop_spec sf m a 0 (length s)); [done|done| |by rewrite Z.add_0_r].
  clear Hl H2. rewrite Z.add_0_r. revert a H1. induction s as [|c s IH]; intros a H1 j Hj; cbn in Hj; [lia|]. destruct H1 as (H1 & H2 & H3).
  destruct (decide (j = 0)) as [-> |]; [rewrite Z.add_0_r; lia|]. replace (a + j) with (a + 1 + (j - 1)) by lia. apply IH; [done|lia].
Qed.

Lemma str_in_cstrn sf m a s : str_in m a s → (length s < sf)%nat → cstrn sf m a = s.
Proof.
  revert sf a. induction s as [|c s IH]; intros [|sf] a [H1 H2] Hl; cbn in Hl; try lia; cbn [cstrn].
  - rewrite Z.add_0_r in H2. by rewrite H2.
  - destruct H1 as (H1 & H3 & H4). rewrite H1, (proj2 (Z.eqb_neq c 0)) by lia. f_equal. apply IH; [|lia]. split; [done|]. rewrite len_cons in H2. by replace (a + 1 + len s) with (a + (1 + len s)) by lia.
Qed.

(** [strcpy] into memory that does not overlap. *)
Lemma strcpy_ok sf m dst src s : str_in m src s → (length s < sf)%nat → disjoint_ranges dst (len s + 1) src (len s + 1) →
  ∃ m', Ulib.strcpy sf m dst src = Some m' ∧ str_in m' dst s ∧ ∀ x, x < dst ∨ dst + len s < x → ldb m' x = ldb m x.
Proof.
  revert sf m dst src. induction s as [|c s IH]; intros [|sf] m dst src [H1 H2] Hl Hd; cbn in Hl; try lia; cbn [Ulib.strcpy].
  - change (len []) with 0 in *. rewrite Z.add_0_r in H2. rewrite ldb_stb, decide_True, H2 by done. cbn. eexists. split; [done|]. split.
    + split; [done|]. change (len []) with 0. by rewrite Z.add_0_r, ldb_stb, decide_True by done.
    + intros x Hx. rewrite ldb_stb, decide_False by lia. done.
  - destruct H1 as (H1 & H3 & H4). rewrite len_cons in *. pose proof (len_nonneg s). unfold disjoint_ranges in Hd. rewrite ldb_stb, decide_True, H1, u8_byte, (proj2 (Z.eqb_neq c 0)) by (done || lia).
    destruct (IH sf (stb m dst c) (dst + 1) (src + 1)) as (m' & E & [S1 S2] & Ho).
    + split; [eapply bytes_in_ext; [|done]; intros x Hx; rewrite ldb_stb, decide_False by lia; done|]. rewrite ldb_stb, decide_False by lia. by replace (src + 1 + len s) with (src + (1 + len s)) by lia.
    + lia.
    + unfold disjoint_ranges. lia.
    + exists m'. split; [exact E|]. split; [|intros x Hx; rewrite Ho, ldb_stb, decide_False by lia; done]. split; [|rewrite len_cons; by replace (dst + (1 + len s)) with (dst + 1 + len s) by lia].
      cbn. split_and!; [|lia|lia|done]. rewrite Ho, ldb_stb, decide_True by (done || lia). by rewrite u8_byte by lia.
Qed.

(** * fmtname *)

(** What follows the last slash. *)
Fixpoint base (s : list Z) : list Z :=
  match s with
  | [] => []
  | c :: s' => if existsb (λ c, c =? 47) s' then base s' else if c =? 47 then s' else c :: s'
  end.

Definition padded (s : list Z) : list Z := s ++ replicate (Z.to_nat DIRSIZ - length s) 32.

Lemma base_snoc s c : base (s ++ [c]) = if c =? 47 then [] else base s ++ [c].
Proof.
  induction s as [|x s IH]; cbn [base app existsb]; [by destruct (c =? 47)|]. rewrite existsb_app. cbn [existsb]. rewrite orb_false_r.
  destruct (c =? 47); [by rewrite orb_true_r|]. rewrite orb_false_r. destruct (existsb _ s); [done|]. by destruct (x =? 47).
Qed.

Lemma base_suffix s : ∃ pre, s = pre ++ base s.
Proof.
  induction s as [|x s [pre IH]]; [by exists []|]. cbn [base]. destruct (existsb _ s); [exists (x :: pre); cbn; by f_equal|]. destruct (x =? 47); [by exists [x]|by exists []].
Qed.

Lemma back_ok m path s : bytes_in m path s → back (S (length s)) m path (path + len s - 1) = Some (path + len s - len (base s) - 1).
Proof.
  induction s as [|c s IH] using rev_ind; intros H.
  - cbn [back]. change (len []) with 0. change (len (base [])) with 0. rewrite (proj2 (Z.leb_gt _ _)) by lia. cbn. f_equal. lia.
  - apply bytes_in_app in H as [H1 (H2 & H3 & _)]. rewrite length_app, len_app, base_snoc. change (len [c]) with 1. cbn [length]. rewrite Nat.add_1_r. set (n := S (length s)) in *. cbn [back].
    pose proof (len_nonneg s). rewrite (proj2 (Z.leb_le _ _)) by lia. replace (path + (len s + 1) - 1) with (path + len s) by lia. rewrite H2. cbn [andb].
    destruct (c =? 47); cbn [negb]; [change (len []) with 0; f_equal; lia|]. rewrite IH by done. rewrite len_app. change (len [c]) with 1. f_equal. lia.
Qed.

Section names.
  Context {W : Type} `{US : UserSys W} `{ST : UserStat W}.
  Context (sf : nat) (sbuf buf : Z).
  Implicit Types w : W.

Lemma slen_ok m w a s : str_in m a s → (length s < sf)%nat → slen sf a (mkgst m w) = Ok (len s) (mkgst m w).
Proof. intros H Hl. unfold slen. cbn [g_mem]. by rewrite (str_in_strlen sf m a s). Qed.

(** The static buffer with a short name in it. *)
Lemma pad_ok m q b : str_in m q b → len b < 14 → disjoint_ranges sbuf 15 q (len b + 1) →
  let m1 := Ulib.memmove m sbuf q (len b) in
  let m3 := stb (Ulib.memset m1 (sbuf + len b) 32 (DIRSIZ - len b)) (sbuf + DIRSIZ) 0 in
  str_in m1 q b ∧ str_in m3 sbuf (padded b) ∧ ∀ x, x < sbuf ∨ sbuf + 15 ≤ x → ldb m3 x = ldb m x.
Proof.
  intros Hs Hb Hd m1 m3. pose proof (len_nonneg b) as Hn. unfold disjoint_ranges, DIRSIZ in *.
  assert (E1 : ∀ x, ldb m1 x = if decide (sbuf ≤ x < sbuf + len b) then ldb m (x - sbuf + q) else ldb m x) by (intros x; apply Ulib.memmove_ok; lia).
  assert (E3 : ∀ x, ldb m3 x = if decide (x = sbuf + 14) then 0 else if decide (sbuf + len b ≤ x < sbuf + 14) then 32 else ldb m1 x).
  { intros x. unfold m3. rewrite ldb_stb. case_decide; [done|]. unfold Ulib.memset. rewrite u32_id by (unfold DIRSIZ; lia).
    rewrite memset_loop_spec. unfold DIRSIZ. repeat case_decide; try lia; done. }
  split_and!.
  - eapply str_in_ext; [|exact Hs]. intros x Hx. rewrite E1, decide_False by lia. done.
  - unfold padded. change (Z.to_nat DIRSIZ) with 14%nat. rewrite str_in_app. split.
    + assert (Hc : ∀ k s, bytes_in m (q + k) s → 0 ≤ k → k + len s ≤ len b → bytes_in m3 (sbuf + k) s).
      { intros k s. revert k. induction s as [|c s IH]; intros k; cbn [bytes_in]; [done|]. rewrite len_cons. pose proof (len_nonneg s). intros (H1 & H2 & H3) Hk Hks. split_and!; [|lia|lia|].
        - rewrite E3, !decide_False, E1, decide_True by lia. rewrite <-H1. f_equal. lia.
        - rewrite <-Z.add_assoc. apply IH; [by rewrite Z.add_assoc|lia|lia]. }
      rewrite <-(Z.add_0_r sbuf). apply Hc; [rewrite Z.add_0_r; apply Hs|lia|lia].
    + assert (Hr : ∀ k a, sbuf + len b ≤ a → a + Z.of_nat k ≤ sbuf + 14 → bytes_in m3 a (replicate k 32)).
      { induction k as [|k IH]; intros a Ha Hk; [done|]. cbn [replicate bytes_in]. split_and!; [rewrite E3, decide_False, decide_True by lia; done|lia|lia|apply IH; lia]. }
      assert (Hp : Z.of_nat (14 - length b) = 14 - len b) by (clear - Hb; unfold len in *; lia).
      split; [apply Hr; lia|]. unfold len at 2. rewrite length_replicate, E3, decide_True by lia. done.
  - intros x Hx. rewrite E3, !decide_False, E1, decide_False by lia. done.
Qed.

Lemma fmtname_ok m w path s : str_in m path s → (length s < sf)%nat → (14 < sf)%nat → disjoint_ranges sbuf 15 path (len s + 1) →
  ∃ q m', fmtname sf sbuf path (mkgst m w) = Ok q (mkgst m' w) ∧ cstrn sf m' q = padded (base s) ∧ ∀ x, x < sbuf ∨ sbuf + 15 ≤ x → ldb m' x = ldb m x.
Proof.
  intros Hs Hl Hsf Hd. pose proof (len_nonneg s) as Hn. unfold fmtname. rewrite (bind_ok _ _ _ _ _ (slen_ok m w path s Hs Hl)), bind_gets. cbn [g_mem].
  destruct (base_suffix s) as (pre & Hpre). set (b := base s) in *. assert (Hlb : len s = len pre + len b) by (rewrite Hpre at 1; apply len_app). pose proof (len_nonneg pre). pose proof (len_nonneg b).
  assert (Hb : back (Z.to_nat (len s + 2)) m path (path + len s) = Some (path + len pre - 1)).
  { replace (Z.to_nat (len s + 2)) with (S (S (length s))) by (unfold len; lia). destruct Hs as [Hs1 Hs2]. pose proof (back_ok m path s Hs1) as E. set (n := S (length s)) in *. cbn [back]. rewrite Hs2, (proj2 (Z.leb_le _ _)) by lia. cbn [Z.eqb negb andb]. rewrite E. fold b. f_equal. lia. }
  rewrite Hb. replace (path + len pre - 1 + 1) with (path + len pre) by lia. set (q := path + len pre).
  assert (Hq : str_in m q b) by (rewrite Hpre in Hs; by apply str_in_app in Hs as [_ Hs]). assert (Hlq : (length b < sf)%nat) by (unfold len in *; lia).
  rewrite (bind_ok _ _ _ _ _ (slen_ok m w q b Hq Hlq)). destruct (Z.leb_spec DIRSIZ (len b)) as [Hge|Hlt].
  - exists q, m. split_and!; [done| |done]. rewrite (str_in_cstrn sf m q b Hq Hlq). unfold padded. replace (Z.to_nat DIRSIZ - length b)%nat with O by (unfold len in *; lia). by rewrite app_nil_r.
  - destruct (pad_ok m q b Hq Hlt) as (P1 & P2 & P3); [unfold disjoint_ranges in *; lia|]. unfold upd_mem. rewrite bind_modify. cbn [g_mem g_w].
    rewrite (bind_ok _ _ _ _ _ (slen_ok _ w q b P1 Hlq)), !bind_modify. cbn [g_mem g_w]. eexists _, _. split; [reflexivity|]. split; [|exact P3].
    apply str_in_cstrn; [exact P2|]. unfold padded. rewrite length_app, length_replicate. unfold DIRSIZ, len in *. lia.
Qed.
End names.

(** * The world *)

(** The files by path, with their contents; what is open, with the bytes that are
    left to read; what was written to descriptors 1 and 2. *)
Record aw := mkaw { a_files : list Z → option (ustat * list Z); a_fds : gmap nat (ustat * list Z); a_out : list Z; a_err : list Z }.
Definition set_fds (f : gmap nat (ustat * list Z)) (a : aw) : aw := mkaw (a_files a) f (a_out a) (a_err a).
Definition add_out (bs : list Z) (a : aw) : aw := mkaw (a_files a) (a_fds a) (a_out a ++ bs) (a_err a).
Definition add_err (bs : list Z) (a : aw) : aw := mkaw (a_files a) (a_fds a) (a_out a) (a_err a ++ bs).

(** What [ls] relies on, with descriptors left: a file that exists can be opened
    and read to its end; a read of a file gives as much as was asked for if it
    is there. *)
Class DirWorld (W : Type) `{US : UserSys W} `{ST : UserStat W} := {
  dw : W → aw;
  dw_open w p : ∃ fd w', s_open p 0 w = Ok fd w' ∧
    match a_files (dw w) p with
    | None => fd = -1 ∧ dw w' = dw w
    | Some x => ∃ k, fd = Z.of_nat k ∧ a_fds (dw w) !! k = None ∧ dw w' = set_fds (<[k := x]> (a_fds (dw w))) (dw w)
    end;
  dw_fstat w k st b : a_fds (dw w) !! k = Some (st, b) → ∃ w', s_fstat (Z.of_nat k) w = Ok (0, st) w' ∧ dw w' = dw w;
  dw_read w k st b n : a_fds (dw w) !! k = Some (st, b) → 0 ≤ n → ∃ w', s_read (Z.of_nat k) n w = Ok (Z.min n (len b), take (Z.to_nat n) b) w' ∧
    dw w' = set_fds (<[k := (st, drop (Z.to_nat n) b)]> (a_fds (dw w))) (dw w);
  dw_close w k : ∃ r w', s_close (Z.of_nat k) w = Ok r w' ∧ dw w' = set_fds (delete k (a_fds (dw w))) (dw w);
  dw_write w bs : (∃ r w', s_write 1 bs w = Ok r w' ∧ dw w' = add_out bs (dw w)) ∧ (∃ r w', s_write 2 bs w = Ok r w' ∧ dw w' = add_err bs (dw w));
}.

(** * What is printed *)

Definition stat_chars (s : list Z) (st : ustat) : list Z :=
  vprintf_chars ls_line [Str (padded (base s)); Word (st_type st); Word (st_ino st); Word (s32 (st_size st))].

Fixpoint name_of (bs : list Z) : list Z :=
  match bs with
  | [] => []
  | c :: bs' => if c =? 0 then [] else c :: name_of bs'
  end.

Definition entry_chars (files : list Z → option (ustat * list Z)) (s de : list Z) : list Z :=
  if blk_load 2 de 0 =? 0 then []
  else
    let p := s ++ [47] ++ name_of (blk_read de 2 14) in
    match files p with
    | Some (st, _) => stat_chars p st
    | None => vprintf_chars (line "ls: cannot stat %s") [Str p]
    end.

(** The directory entries, of 16 bytes each. *)
Definition entries (b : list Z) : list (list Z) := (λ i, take 16 (drop (16 * i) b)) <$> seq 0 (length b / 16).

Definition ls_chars (files : list Z → option (ustat * list Z)) (s : list Z) : list Z :=
  match files s with
  | None => []
  | Some (st, b) =>
      if (st_type st =? T_DEVICE) || (st_type st =? T_FILE) then stat_chars s st
      else if st_type st =? T_DIR then
        if 512 <? len s + 16 then vprintf_chars (line "ls: path too long") []
        else concat (entry_chars files s <$> entries b)
      else []
  end.

Definition ls_errors (files : list Z → option (ustat * list Z)) (s : list Z) : list Z :=
  match files s with
  | None => vprintf_chars (line "ls: cannot open %s") [Str s]
  | Some _ => []
  end.

Lemma entries_short b : (length b < 16)%nat → entries b = [].
Proof. intros H. unfold entries. by rewrite Nat.div_small. Qed.

Lemma entries_cons b : (16 ≤ length b)%nat → entries b = take 16 b :: entries (drop 16 b).
Proof.
  intros H. unfold entries. rewrite length_drop. assert (Hd : (length b / 16 = S ((length b - 16) / 16))%nat).
  { replace (length b) with (length b - 16 + 1 * 16)%nat at 1 by lia. rewrite Nat.div_add by lia. lia. }
  rewrite Hd. cbn [seq fmap list_fmap]. rewrite drop_0. f_equal. rewrite <-fmap_S_seq, <-list_fmap_compose. apply list_fmap_ext. intros i x _. cbn [compose]. rewrite drop_drop. do 2 f_equal. lia.
Qed.

Lemma name_in m a bs : is_bytes bs → mem_read m a (length bs) = bs → ldb m (a + len bs) = 0 → str_in m a (name_of bs).
Proof.
  revert a. induction bs as [|c bs IH]; intros a Hb Hr Hz.
  - by split.
  - apply Forall_cons in Hb as [Hc Hb]. cbn in Hr. injection Hr as Hr0 Hr. rewrite len_cons in Hz. cbn [name_of]. destruct (Z.eqb_spec c 0) as [-> |Hne].
    + split; [done|]. change (len []) with 0. by rewrite Z.add_0_r.
    + destruct (IH (a + 1) Hb Hr) as [H1 H2]; [by replace (a + 1 + len bs) with (a + (1 + len bs)) by lia|]. split; [by split_and!; [|lia|lia|]|].
      rewrite len_cons. by replace (a + (1 + len (name_of bs))) with (a + 1 + len (name_of bs)) by lia.
Qed.

Lemma length_name_of bs : (length (name_of bs) ≤ length bs)%nat.
Proof. induction bs as [|c bs IH]; cbn; [lia|]. destruct (c =? 0); cbn; lia. Qed.

Section listing.
  Context {W : Type} `{DW : DirWorld W}.
  Context (sf : nat) (sbuf buf : Z) (Hsf : (512 < sf)%nat) (Hsb : disjoint_ranges sbuf 15 buf 512).
  Implicit Types w : W.

Lemma puts_out cs w : ∃ w', puts 1 cs w = Ok tt w' ∧ dw w' = add_out (u8 <$> cs) (dw w).
Proof.
  revert w. induction cs as [|c cs IH]; intros w; cbn [puts].
  - exists w. split; [done|]. unfold add_out. rewrite app_nil_r. by destruct (dw w).
  - destruct (dw_write w [u8 c]) as [(r & w1 & E & H1) _]. unfold putc. rewrite bind_assoc, (bind_ok _ _ _ _ _ E), bind_ret.
    destruct (IH w1) as (w2 & E2 & H2). exists w2. split; [done|]. rewrite H2, H1. unfold add_out. cbn. by rewrite <-app_assoc.
Qed.

Lemma puts_err cs w : ∃ w', puts 2 cs w = Ok tt w' ∧ dw w' = add_err (u8 <$> cs) (dw w).
Proof.
  revert w. induction cs as [|c cs IH]; intros w; cbn [puts].
  - exists w. split; [done|]. unfold add_err. rewrite app_nil_r. by destruct (dw w).
  - destruct (dw_write w [u8 c]) as [_ (r & w1 & E & H1)]. unfold putc. rewrite bind_assoc, (bind_ok _ _ _ _ _ E), bind_ret.
    destruct (IH w1) as (w2 & E2 & H2). exists w2. split; [done|]. rewrite H2, H1. unfold add_err. cbn. by rewrite <-app_assoc.
Qed.

Lemma world_ok {A} (p : M W A) m w a w' : p w = Ok a w' → world p (mkgst m w) = Ok a (mkgst m w').
Proof. intros E. unfold world. by apply (zoom_ok worldL _ (mkgst m w)). Qed.

Lemma printf_out fmt ap m w : ∃ w', world (uprintf fmt ap) (mkgst m w) = Ok tt (mkgst m w') ∧ dw w' = add_out (u8 <$> vprintf_chars fmt ap) (dw w).
Proof. destruct (puts_out (vprintf_chars fmt ap) w) as (w' & E & H). exists w'. split; [by apply world_ok|done]. Qed.

Lemma print_stat_ok m w path s st : str_in m path s → (length s < sf)%nat → disjoint_ranges sbuf 15 path (len s + 1) →
  ∃ m' w', print_stat sf sbuf path st (mkgst m w) = Ok tt (mkgst m' w') ∧ dw w' = add_out (u8 <$> stat_chars s st) (dw w) ∧ ∀ x, x < sbuf ∨ sbuf + 15 ≤ x → ldb m' x = ldb m x.
Proof.
  intros Hs Hl Hd. destruct (fmtname_ok sf sbuf m w path s Hs Hl ltac:(lia) Hd) as (q & m' & E & Ht & Ho).
  destruct (printf_out ls_line [Str (padded (base s)); Word (st_type st); Word (st_ino st); Word (s32 (st_size st))] m' w) as (w' & E' & Hw).
  exists m', w'. split_and!; [|exact Hw|exact Ho]. unfold print_stat. rewrite (bind_ok _ _ _ _ _ E). unfold text. rewrite bind_gets. cbn [g_mem]. by rewrite Ht.
Qed.

Lemma stat_ok t w : ∃ r w', stat t w = Ok r w' ∧ dw w' = dw w ∧ match a_files (dw w) t with None => r.1 < 0 | Some (st, _) => r = (0, st) end.
Proof.
  unfold stat. destruct (dw_open w t) as (fd & w1 & E1 & H1). rewrite (bind_ok _ _ _ _ _ E1). destruct (a_files (dw w) t) as [[st b]|].
  - destruct H1 as (k & -> & Hk & H1). rewrite (proj2 (Z.ltb_ge _ _)) by lia.
    destruct (dw_fstat w1 k st b) as (w2 & E2 & H2); [rewrite H1; apply lookup_insert_eq|]. rewrite (bind_ok _ _ _ _ _ E2).
    destruct (dw_close w2 k) as (r & w3 & E3 & H3). rewrite (bind_ok _ _ _ _ _ E3). eexists _, w3. split; [done|]. split; [|done].
    rewrite H3, H2, H1. unfold set_fds. cbn. rewrite delete_insert_id by done. by destruct (dw w).
  - destruct H1 as [-> H1]. by eexists _, w1.
Qed.

(** One directory entry in use: [m1] is the memory with the path of its file. *)
Lemma ls_entry_ok m w s de : bytes_in m buf (s ++ [47]) → len s + 16 ≤ 512 → is_bytes de → length de = 16%nat → (blk_load 2 de 0 =? 0) = false →
  let m1 := stb (mem_write m (buf + len s + 1) (blk_read de 2 14)) (buf + len s + 1 + DIRSIZ) 0 in
  ∃ m' w', (t <- text sf buf ;; ' (r, st) <- world (stat t) ;; (if r <? 0 then world (uprintf (line "ls: cannot stat %s") [Str t]) else print_stat sf sbuf buf st)) (mkgst m1 w) =
      Ok tt (mkgst m' w') ∧ dw w' = add_out (u8 <$> entry_chars (a_files (dw w)) s de) (dw w) ∧ bytes_in m' buf (s ++ [47]).
Proof.
  intros Hb Hl Hde Hlen Hin m1. pose proof (len_nonneg s) as Hn. set (nm := blk_read de 2 14) in m1. assert (Hnm : length nm = 14%nat) by (apply length_blk_read; lia).
  assert (Hlnm : len nm = 14) by (unfold len; lia). assert (Hbn : is_bytes nm) by (apply Forall_take, Forall_drop, Hde). unfold DIRSIZ in m1. set (p := s ++ [47] ++ name_of nm).
  assert (Ho : ∀ x, x < buf + len s + 1 ∨ buf + len s + 16 ≤ x → ldb m1 x = ldb m x) by (intros x Hx; unfold m1; rewrite ldb_stb, decide_False by lia; apply ldb_write_out; lia).
  assert (Hb1 : bytes_in m1 buf (s ++ [47])) by (eapply bytes_in_ext; [|exact Hb]; rewrite len_app; change (len [47]) with 1; intros x Hx; apply Ho; lia).
  assert (Hs : str_in m1 buf p).
  { unfold p. rewrite app_assoc, str_in_app. split; [done|]. rewrite len_app. change (len [47]) with 1. rewrite Z.add_assoc. apply name_in; [done| |].
    - rewrite <-(mem_read_write_eq m (buf + len s + 1) nm) at 2 by done. apply mem_read_ext. intros j Hj. unfold m1. rewrite ldb_stb, decide_False by lia. done.
    - rewrite Hlnm. unfold m1. rewrite ldb_stb, decide_True by done. done. }
  assert (Hlp : len p ≤ len s + 15) by (unfold p, len; rewrite !length_app; pose proof (length_name_of nm); cbn [length]; lia).
  assert (Hlp' : (length p < sf)%nat) by (unfold len in *; lia).
  unfold text. rewrite bind_gets. cbn [g_mem]. rewrite (str_in_cstrn sf m1 buf p Hs Hlp'). destruct (stat_ok p w) as ([r st] & w1 & E & Hw & Hr). rewrite (bind_ok _ _ _ _ _ (world_ok _ m1 w _ w1 E)).
  unfold entry_chars. rewrite Hin. fold nm. fold p. destruct (a_files (dw w) p) as [[st' b']|].
  - injection Hr as -> ->. cbn [Z.ltb Z.compare]. destruct (print_stat_ok m1 w1 buf p st' Hs Hlp') as (m' & w' & E' & Hw' & Ho'); [unfold disjoint_ranges in *; lia|].
    exists m', w'. split_and!; [exact E'|by rewrite Hw', Hw|]. eapply bytes_in_ext; [|exact Hb1]. rewrite len_app. change (len [47]) with 1. intros x Hx. apply Ho'. unfold disjoint_ranges in Hsb. lia.
  - rewrite (proj2 (Z.ltb_lt r 0)) by exact Hr. destruct (printf_out (line "ls: cannot stat %s") [Str p] m1 w1) as (w' & E' & Hw'). exists m1, w'. split_and!; [exact E'|by rewrite Hw', Hw|done].
Qed.

Lemma ls_dir_ok fuel m w k st b s : bytes_in m buf (s ++ [47]) → len s + 16 ≤ 512 → a_fds (dw w) !! k = Some (st, b) → is_bytes b → (length b / 16 < fuel)%nat →
  ∃ m' w' b', ls_dir sf sbuf buf fuel (Z.of_nat k) (buf + len s + 1) (mkgst m w) = Ok tt (mkgst m' w') ∧
    dw w' = set_fds (<[k := (st, b')]> (a_fds (dw w))) (add_out (u8 <$> concat (entry_chars (a_files (dw w)) s <$> entries b)) (dw w)).
Proof.
  revert m w b. induction fuel as [|fuel IH]; intros m w b Hb Hl Hk Hby Hf; [lia|]. cbn [ls_dir].
  destruct (dw_read w k st b 16 Hk ltac:(lia)) as (w1 & E1 & H1). rewrite (bind_ok _ _ _ _ _ (world_ok _ m w _ w1 E1)). change (Z.to_nat 16) with 16%nat in *.
  destruct (decide (length b < 16)%nat) as [Hs|Hs].
  { rewrite (proj2 (Z.eqb_neq (Z.min 16 (len b)) 16)) by (unfold len; lia). cbn [negb]. exists m, w1, (drop 16 b). split; [done|]. rewrite H1, entries_short by done. unfold add_out. cbn. by rewrite app_nil_r. }
  replace (Z.min 16 (len b)) with 16 by (unfold len; lia). cbn [Z.eqb Pos.eqb negb]. rewrite entries_cons by lia. set (de := take 16 b). set (b1 := drop 16 b) in *.
  assert (Hk1 : a_fds (dw w1) !! k = Some (st, b1)) by (rewrite H1; apply lookup_insert_eq). assert (Hf1 : (length b1 / 16 < fuel)%nat).
  { unfold b1. rewrite length_drop. replace (length b) with (length b - 16 + 1 * 16)%nat in Hf by lia. rewrite Nat.div_add in Hf by lia. lia. }
  assert (Hb1 : is_bytes b1) by (by apply Forall_drop). cbn [fmap list_fmap concat]. rewrite fmap_app.
  destruct (blk_load 2 de 0 =? 0) eqn:Hin.
  { destruct (IH m w1 b1 Hb Hl Hk1 Hb1 Hf1) as (m' & w' & b' & E & H2). exists m', w', b'. split; [exact E|]. rewrite H2, H1. unfold entry_chars at 2. rewrite Hin. cbn. unfold set_fds, add_out. cbn.
    by rewrite insert_insert_eq. }
  unfold upd_mem. rewrite !bind_modify. cbn [g_mem g_w].
  destruct (ls_entry_ok m w1 s de Hb Hl) as (m2 & w2 & E2 & H2 & Hb2); [by apply Forall_take|unfold de; rewrite length_take; lia|done|]. cbv zeta in E2.
  destruct (IH m2 w2 b1 Hb2 Hl ltac:(by rewrite H2) Hb1 Hf1) as (m' & w' & b' & E & H3). exists m', w', b'. split.
  - unfold text in *. rewrite bind_gets in E2 |- *. unfold bind at 1 in E2. unfold bind at 1. destruct (world (stat _) _) as [[r st'] s'| | | |]; try done.
    by rewrite (bind_ok _ _ _ _ _ E2).
  - rewrite H3, H2, H1. unfold set_fds, add_out. cbn. by rewrite insert_insert_eq, <-app_assoc.
Qed.

(** [printf(...)] or the loop, with the file open as [k]. *)
Lemma ls_body fuel m w k path s st b : str_in m path s → (length s < sf)%nat → disjoint_ranges sbuf 15 path (len s + 1) → disjoint_ranges buf 512 path (len s + 1) →
  a_files (dw w) s = Some (st, b) → a_fds (dw w) !! k = Some (st, b) → is_bytes b → (length b / 16 < fuel)%nat →
  ∃ m' w' b', (if (st_type st =? T_DEVICE) || (st_type st =? T_FILE) then print_stat sf sbuf path st
       else if st_type st =? T_DIR then
         n <- slen sf path ;;
         if 512 <? n + 1 + DIRSIZ + 1 then world (uprintf (line "ls: path too long") [])
         else
           s <- get ;;
           match Ulib.strcpy sf (g_mem s) buf path with
           | None => λ _, OutOfFuel
           | Some m => upd_mem (λ _, m) ;; n <- slen sf buf ;; upd_mem (λ m, stb m (buf + n) 47) ;; ls_dir sf sbuf buf fuel (Z.of_nat k) (buf + n + 1)
           end
       else ret tt) (mkgst m w) = Ok tt (mkgst m' w') ∧
    dw w' = set_fds (<[k := (st, b')]> (a_fds (dw w))) (add_out (u8 <$> ls_chars (a_files (dw w)) s) (dw w)).
Proof.
  intros Hs Hl Hd1 Hd2 Hf Hk Hb Hfu. assert (Hsame : ∀ a, a_fds a !! k = Some (st, b) → set_fds (<[k := (st, b)]> (a_fds a)) a = a).
  { intros a Ha. unfold set_fds. rewrite insert_id by done. by destruct a. }
  unfold ls_chars. rewrite Hf. destruct ((st_type st =? T_DEVICE) || (st_type st =? T_FILE)).
  { destruct (print_stat_ok m w path s st Hs Hl Hd1) as (m' & w' & E & Hw & _). exists m', w', b. split; [exact E|]. rewrite Hw. symmetry. exact (Hsame (add_out _ (dw w)) Hk). }
  destruct (st_type st =? T_DIR).
  2:{ exists m, w, b. split; [done|]. unfold set_fds, add_out. cbn. rewrite insert_id, app_nil_r by done. by destruct (dw w). }
  rewrite (bind_ok _ _ _ _ _ (slen_ok sf m w path s Hs Hl)). replace (len s + 1 + DIRSIZ + 1) with (len s + 16) by (unfold DIRSIZ; lia). destruct (Z.ltb_spec 512 (len s + 16)) as [Hlong|Hfit].
  { destruct (printf_out (line "ls: path too long") [] m w) as (w' & E & Hw). exists m, w', b. split; [exact E|]. rewrite Hw. symmetry. exact (Hsame (add_out _ (dw w)) Hk). }
  rewrite bind_get. cbn [g_mem]. destruct (strcpy_ok sf m buf path s Hs Hl) as (m1 & E1 & Hs1 & _); [unfold disjoint_ranges in *; lia|]. rewrite E1. unfold upd_mem. rewrite bind_modify. cbn [g_w g_mem].
  rewrite (bind_ok _ _ _ _ _ (slen_ok sf m1 w buf s Hs1 Hl)), bind_modify. cbn [g_w g_mem]. apply ls_dir_ok; [|done|done|done|done].
  apply bytes_in_app. split; [|by cbn; rewrite ldb_stb, decide_True by done].
  eapply bytes_in_ext; [|apply Hs1]. intros x Hx. by rewrite ldb_stb, decide_False by lia.
Qed.
End listing.

(** C30: [ls] prints what is there.  For a path that does not exist it writes one
    message to descriptor 2; for a file or device, one line with the last
    component of the path padded to 14 characters, its type, inode number and
    size; for a directory, such a line for each entry in use, in order, with
    what [stat] finds under the directory's path and the entry's name.  What
    was open before is what is open after. *)
Theorem ls_spec {W} `{DW : DirWorld W} sf sbuf buf fuel path s m (w : W) : str_in m path s → (512 < sf)%nat → (length s < sf)%nat →
  disjoint_ranges sbuf 15 buf 512 → disjoint_ranges sbuf 15 path (len s + 1) → disjoint_ranges buf 512 path (len s + 1) →
  (∀ st b, a_files (dw w) s = Some (st, b) → is_bytes b ∧ (length b / 16 < fuel)%nat) →
  ∃ m' w', ls sf sbuf buf fuel path (mkgst m w) = Ok tt (mkgst m' w') ∧
    dw w' = add_err (u8 <$> ls_errors (a_files (dw w)) s) (add_out (u8 <$> ls_chars (a_files (dw w)) s) (dw w)).
Proof.
  intros Hs Hsf Hl Hd Hd1 Hd2 Hfu. unfold ls, text. rewrite bind_gets. cbn [g_mem]. rewrite (str_in_cstrn sf m path s Hs Hl).
  destruct (dw_open w s) as (fd & w1 & E1 & H1). rewrite (bind_ok _ _ _ _ _ (world_ok _ m w _ w1 E1)). unfold ls_errors. destruct (a_files (dw w) s) as [[st b]|] eqn:Hf.
  - destruct H1 as (k & -> & Hk & H1). destruct (Hfu st b eq_refl) as [Hby Hfuel]. rewrite (proj2 (Z.ltb_ge _ _)) by lia.
    assert (Hk1 : a_fds (dw w1) !! k = Some (st, b)) by (rewrite H1; apply lookup_insert_eq).
    destruct (dw_fstat w1 k st b Hk1) as (w2 & E2 & H2). rewrite (bind_ok _ _ _ _ _ (world_ok _ m w1 _ w2 E2)). cbn [Z.ltb Z.compare]. rewrite <-H2 in Hk1.
    destruct (ls_body sf sbuf buf Hsf Hd fuel m w2 k path s st b Hs Hl Hd1 Hd2) as (m' & w3 & b' & E3 & H3); [by rewrite H2, H1|done|done|done|]. rewrite (bind_ok _ _ _ _ _ E3).
    destruct (dw_close w3 k) as (r & w4 & E4 & H4). rewrite (bind_ok _ _ _ _ _ (world_ok _ m' w3 _ w4 E4)). exists m', w4. split; [done|].
    rewrite H4, H3, H2, H1. unfold set_fds, add_out, add_err. cbn. rewrite insert_insert_eq, delete_insert_id by done. by rewrite app_nil_r.
  - destruct H1 as [-> H1]. cbn [Z.ltb Z.compare]. destruct (puts_err (vprintf_chars (line "ls: cannot open %s") [Str s]) w1) as (w' & E & H). exists m, w'. split; [by apply world_ok|].
    rewrite H, H1. unfold ls_chars. rewrite Hf. generalize (u8 <$> vprintf_chars (line "ls: cannot open %s") [Str s]). intros e. unfold add_err, add_out. cbn. by rewrite app_nil_r.
Qed.

(** ** An instance: files in a list, descriptors in a table *)

#[local] Instance aw_sys : UserSys aw := {|
  s_read fd n := λ a,
    match a_fds a !! Z.to_nat fd with
    | Some (st, b) => Ok (Z.min n (len b), take (Z.to_nat n) b) (set_fds (<[Z.to_nat fd := (st, drop (Z.to_nat n) b)]> (a_fds a)) a)
    | None => Ok (-1, []) a
    end;
  s_write fd bs := λ a, Ok (len bs) (if fd =? 1 then add_out bs a else add_err bs a);
  s_open p mode := λ a,
    match a_files a p with
    | Some x => let k := fresh (dom (a_fds a)) in Ok (Z.of_nat k) (set_fds (<[k := x]> (a_fds a)) a)
    | None => Ok (-1) a
    end;
  s_close fd := λ a, Ok 0 (set_fds (delete (Z.to_nat fd) (a_fds a)) a);
  s_mkdir _ := ret (-1); s_unlink _ := ret (-1); s_link _ _ := ret (-1); s_kill _ := ret (-1); s_pause _ := ret 0;
|}.

#[local] Instance aw_stat : UserStat aw := {|
  s_fstat fd := λ a, Ok (match a_fds a !! Z.to_nat fd with Some (st, _) => (0, st) | None => (-1, ustat0) end) a;
|}.

#[local] Program Instance aw_dir : DirWorld aw := {| dw a := a |}.
Next Obligation.
  intros w p. cbn. destruct (a_files w p) as [x|]; [|by eexists _, _]. eexists _, _. split; [done|]. eexists. split_and!; [done| |done].
  apply not_elem_of_dom, is_fresh.
Qed.
Next Obligation. intros w k st b H. cbn. rewrite Nat2Z.id, H. by eexists. Qed.
Next Obligation. intros w k st b n H Hn. cbn. rewrite Nat2Z.id, H. by eexists. Qed.
Next Obligation. intros w k. cbn. rewrite Nat2Z.id. by eexists _, _. Qed.
Next Obligation. intros w bs. split; by eexists _, _. Qed.

(** A directory with the file "a" in it, and a free entry. *)
Definition ls_files (p : list Z) : option (ustat * list Z) :=
  if decide (p = str "d") then Some (mkustat 1 1 T_DIR 1 32, [0; 0] ++ replicate 14 0 ++ [5; 0; 97] ++ replicate 13 0)
  else if decide (p = str "d/a") then Some (mkustat 1 5 T_FILE 1 12, [])
  else None.

Lemma ls_spec_witness : ∃ m' w', ls 600 1000 2000 3 3000 (mkgst (mem_write (λ _, 0) 3000 (str "d")) (mkaw ls_files ∅ [] [])) = Ok tt (mkgst m' w') ∧
  a_out w' = str "a              2 5 12" ++ [10] ∧ a_err w' = [] ∧ a_fds w' = ∅.
Proof.
  destruct (ls_spec 600 1000 2000 3 3000 (str "d") (mem_write (λ _, 0) 3000 (str "d")) (mkaw ls_files ∅ [] [])) as (m' & w' & E & Hw).
  - split; [split; [reflexivity|split; [split; reflexivity|exact I]]|reflexivity].
  - lia.
  - cbn. lia.
  - left. lia.
  - left. cbn. lia.
  - left. cbn. lia.
  - intros st b Hb. change (dw (mkaw ls_files ∅ [] [])) with (mkaw ls_files ∅ [] []) in Hb. cbn [a_files] in Hb. injection Hb as <- <-.
    split; [repeat constructor; lia|cbn; lia].
  - exists m', w'. split; [exact E|]. change (dw w') with w' in Hw. rewrite Hw. split_and!; vm_compute; reflexivity.
Defined.
