(* ===== verification/UProg.v ===== *)
(** Programs of several processes.

    A program is a tree of system calls: a node is a call and the subtrees are
    what the process does for each result.  After [fork] both the parent and the
    child go on, each with its own result.  A table of descriptors says what the
    numbers a process uses refer to. *)

From stdpp Require Import base tactics list numbers strings.
From S2P Require Import Prelude Param Bytes CString Ulib.
From Stdlib Require Import ZArith Lia.

Open Scope kernel_scope.

(** * Programs as trees of system calls *)

Inductive prog : Type :=
  | PExit (status : Z)
  | PFork (k : Z → prog)
  | PWait (k : Z → prog)
  | PGetpid (k : Z → prog)
  | PPause (ticks : Z) (k : prog)
  | PExec (path : list Z) (argv : list (list Z)) (k : prog)
  | PClose (fd : Z) (k : prog)
  | POpen (path : list Z) (mode : Z) (k : Z → prog)
  | PDup (fd : Z) (k : prog)
  | PPipe (k : Z → Z → Z → prog)
  | PWrite (fd : Z) (bs : list Z) (k : prog)
  | PRead (fd n : Z) (k : list Z → prog)
  | PChdir (path : list Z) (k : Z → prog)
  | PMknod (path : list Z) (major minor : Z) (k : Z → prog)
  (** the loop was cut off *)
  | PFuel.

(** [fprintf]: one [write] for each character. *)
Definition fprint (fd : Z) (cs : list Z) (k : prog) : prog := foldr (λ c k, PWrite fd [c] k) k cs.

(** * Descriptors *)

(** What a descriptor refers to: something the process was started with, a file
    that was opened, an end of the [n]th pipe. *)
Inductive obj : Type :=
  | Given (n : Z)
  | File (path : list Z) (mode : Z)
  | PipeR (n : nat)
  | PipeW (n : nat).

Notation fdtable := (list (option obj)).

Global Instance free_dec (o : option obj) : Decision (o = None).
Proof. destruct o; [by right|by left]. Defined.

Definition lowest (ft : fdtable) : option nat := fst <$> list_find (λ o, o = None) ft.

(** The lowest free descriptor. *)
Definition fd_new (o : obj) (ft : fdtable) : Z * fdtable :=
  match lowest ft with
  | Some i => (Z.of_nat i, <[i := Some o]> ft)
  | None => (-1, ft)
  end.

Definition fd_close (fd : Z) (ft : fdtable) : fdtable := if fd <? 0 then ft else <[Z.to_nat fd := None]> ft.

Definition fd_get (fd : Z) (ft : fdtable) : option obj := if fd <? 0 then None else mjoin (ft !! Z.to_nat fd).

Definition used (ft : fdtable) (i : nat) : Prop := ∃ o, ft !! i = Some (Some o).
Definition free (ft : fdtable) (i : nat) : Prop := ft !! i = Some None.

(** * Lemmas on tables *)

Lemma lowest_eq ft a : free ft a → (∀ i, (i < a)%nat → used ft i) → lowest ft = Some a.
Proof.
  intros Ha Hl. unfold lowest. assert (list_find (λ o, o = None) ft = Some (a, None)) as ->; [|done].
  apply list_find_Some. split_and!; [done|done|]. intros j y Hj Hlt. destruct (Hl j Hlt) as [o Ho]. rewrite Ho in Hj. by injection Hj as <-.
Qed.

Lemma fd_new_eq o ft a : free ft a → (∀ i, (i < a)%nat → used ft i) → fd_new o ft = (Z.of_nat a, <[a := Some o]> ft).
Proof. intros Ha Hl. unfold fd_new. by rewrite (lowest_eq ft a). Qed.

Lemma fd_close_eq a ft : fd_close (Z.of_nat a) ft = <[a := None]> ft.
Proof. unfold fd_close. rewrite (proj2 (Z.ltb_ge _ _)) by lia. by rewrite Nat2Z.id. Qed.

Lemma used_insert ft a i o : (i < length ft)%nat → i = a ∨ used ft i → used (<[a := Some o]> ft) i.
Proof.
  intros Hi [-> | [o' H]]; [exists o; by apply list_lookup_insert_eq|].
  destruct (decide (a = i)) as [-> |]; [exists o; by apply list_lookup_insert_eq|]. exists o'. by rewrite list_lookup_insert_ne.
Qed.

Lemma used_lt ft i : used ft i → (i < length ft)%nat.
Proof. intros [o H]. by apply lookup_lt_Some in H. Qed.
