(* ===== verification/ShGram.v ===== *)
(** user/sh.c: the parser accepts the shell's grammar.

    [derives] of Sh.v is the grammar.  Here: the parser returns on every line,
    with a command that the line's tokens spell or with an error; and if the
    tokens spell a command, the parser returns it. *)

From stdpp Require Import base tactics list numbers strings sets.
From S2P Require Import Prelude Param Bytes CString Ulib Sh.
From Stdlib Require Import ZArith Lia.

Open Scope kernel_scope.

Notation tok := (Z * Z * Z)%type (only parsing).

(** The redirections after a command. *)
Inductive redirs : list etok → cmd → cmd → Prop :=
  | rd_nil c : redirs [] c c
  | rd_snoc ts c c' k mode fd q e : redirs ts c c' → redir_of k = Some (mode, fd) → redirs (ts ++ [Sym k; Word q e]) c (REDIR c' q e mode fd).

Lemma redirs_cons ts c c' k mode fd q e :
  redir_of k = Some (mode, fd) → redirs ts (REDIR c q e mode fd) c' → redirs (Sym k :: Word q e :: ts) c c'.
Proof.
  intros Hk H. remember (REDIR c q e mode fd) as c0 eqn:E. induction H as [|ts c1 c' k' mode' fd' q' e' H IH Hk']; subst.
  - apply (rd_snoc [] c c k); [constructor|done].
  - apply (rd_snoc (Sym k :: Word q e :: ts)); auto.
Qed.

Lemma derives_redirs x ts ts' c c' :
  match x with Block => True | Simple _ => True | _ => False end → derives x ts c → redirs ts' c c' → derives x (ts ++ ts') c'.
Proof.
  intros Hx Hd H. induction H as [|ts' c c' k mode fd q e H IH Hk]; [by rewrite app_nil_r|]. rewrite app_assoc.
  destruct x; try done; [apply (d_paren_redir _ _ k)|apply (d_redir _ _ _ k)]; auto.
Qed.

Section gram.
  Context (m : mem) (es s0 : Z) (Hend : ldb m es = 0) (Hstr : ∀ x, s0 ≤ x < es → ldb m x ≠ 0).

Notation at_ := (at_tokens m es s0).

(** A result, with the tokens that are left. *)
Definition yields {A} (o : outcome Z A) (ts : list tok) (Q : list etok → A → Prop) : Prop :=
  match o with
  | Ok r p' => ∃ ts1 ts2, ts = ts1 ++ ts2 ∧ at_ p' ts2 ∧ Q (erase <$> ts1) r
  | Panic _ => True
  | _ => False
  end.

Lemma symbols_ok l : forallb (mem_str symbols) l = true → Forall (λ c, mem_str symbols c = true) l.
Proof. intros H. apply Forall_forall. intros c Hc. rewrite forallb_forall in H. apply H. by apply list_elem_of_In. Qed.

Lemma peek_ok' p ts toks :
  at_ p ts → forallb (mem_str symbols) toks = true →
  ∃ p', peek m es toks p = Ok (mem_str toks (first_char (head_kind ts))) p' ∧ at_ p' ts.
Proof. intros H1 H2. apply (peek_ok m es s0 Hend Hstr); [done|by apply symbols_ok]. Qed.

(** The kinds of tokens there are. *)
Definition kind_ok (k : Z) : Prop := k = 97 ∨ k = 43 ∨ mem_str symbols k = true.

Lemma kinds p ts : at_ p ts → Forall (λ t, kind_ok t.1.1) ts.
Proof.
  intros [_ H]. induction H as [|p q k e ts _ _ Et _ IH]; constructor; [|done]. cbn. unfold token_at in Et.
  destruct (ldb m q =? 62); [destruct (ldb m (q + 1) =? 62); injection Et as <- <-; unfold kind_ok; auto|].
  destruct (mem_str symbols (ldb m q)) eqn:E; injection Et as <- <-; unfold kind_ok; auto.
Qed.

(** What a successful [peek] says about the next token. *)
Lemma peek_head p ts toks :
  at_ p ts → mem_str toks (first_char (head_kind ts)) = true → forallb (mem_str symbols) toks = true →
  ∃ k q e ts', ts = (k, q, e) :: ts' ∧ mem_str toks (first_char k) = true ∧ k ≠ 97.
Proof.
  intros Hp H Hs. assert (Hin : ∀ c, mem_str toks c = true → mem_str symbols c = true).
  { intros c Hc. unfold mem_str in Hc. apply existsb_exists in Hc as (x & Hx & ->%Z.eqb_eq). rewrite forallb_forall in Hs. by apply Hs. }
  destruct ts as [|[[k q] e] ts]; cbn [head_kind] in H; [by apply Hin in H|]. exists k, q, e, ts. split_and!; [done|done|]. intros ->. by apply Hin in H.
Qed.

(** * The parser returns, with something the tokens spell *)

Lemma redir_first k : mem_str [60; 62] (first_char k) = true → is_Some (redir_of k).
Proof.
  unfold first_char, redir_of. cbn. destruct (Z.eqb_spec k 43); [subst; done|]. destruct (Z.eqb_spec k 60); [done|]. destruct (Z.eqb_spec k 62); done.
Qed.

Lemma redir_kind k x : redir_of k = Some x → k = 60 ∨ k = 62 ∨ k = 43.
Proof. unfold redir_of. destruct (Z.eqb_spec k 60), (Z.eqb_spec k 62), (Z.eqb_spec k 43); auto. done. Qed.

Lemma redir_cmd k mode fd (c : cmd) q e :
  redir_of k = Some (mode, fd) →
  (if k =? 60 then redircmd c q e O_RDONLY 0
   else if k =? 62 then redircmd c q e (Z.lor (Z.lor O_WRONLY O_CREATE) O_TRUNC) 1
   else if k =? 43 then redircmd c q e (Z.lor O_WRONLY O_CREATE) 1 else c) = REDIR c q e mode fd.
Proof. unfold redir_of, redircmd. repeat case_match; intros [= <- <-]; done. Qed.

Lemma parseredirs_yields fuel c p ts :
  at_ p ts → (length ts < fuel)%nat → yields (parseredirs m es fuel c p) ts (λ ts1 r, redirs ts1 c r).
Proof.
  revert c p ts. induction fuel as [|fuel IH]; intros c p ts Hp Hf; [lia|]. cbn [parseredirs].
  destruct (peek_ok' p ts [60; 62] Hp eq_refl) as (p1 & E1 & Hp1). rewrite (bind_ok _ _ _ _ _ E1).
  destruct (mem_str _ _) eqn:Eh; cbn [negb]; [|exists [], ts; by split_and!; [..|constructor]].
  destruct (peek_head _ _ _ Hp1 Eh eq_refl) as (k & q & e & ts' & -> & Hk & Hne).
  destruct (gettoken_cons m es s0 Hend Hstr _ _ _ _ _ Hp1) as (p2 & E2 & Hp2). rewrite (bind_ok _ _ _ _ _ E2).
  destruct ts' as [|[[k2 q2] e2] ts'].
  { destruct (gettoken_nil m es s0 Hend _ Hp2) as [E3 _]. by rewrite (bind_ok _ _ _ _ _ E3). }
  destruct (gettoken_cons m es s0 Hend Hstr _ _ _ _ _ Hp2) as (p3 & E3 & Hp3). rewrite (bind_ok _ _ _ _ _ E3).
  destruct (Z.eqb_spec k2 97) as [->|]; cbn [negb]; [|done]. destruct (redir_first k Hk) as [[mode fd] Hr]. rewrite (redir_cmd k mode fd) by done.
  specialize (IH (REDIR c q2 e2 mode fd) p3 ts' Hp3 ltac:(cbn in Hf; lia)). unfold yields in *. destruct (parseredirs _ _ _ _ _) as [r p'| | | |]; try done.
  destruct IH as (ts1 & ts2 & -> & Hp' & H). exists ((k, q, e) :: (97, q2, e2) :: ts1), ts2. split_and!; [done|done|]. cbn. rewrite (proj2 (Z.eqb_neq k 97) Hne).
  by eapply redirs_cons.
Qed.

Lemma backs_yields fuel c p ts ts0 :
  at_ p ts → (length ts < fuel)%nat → derives Backs ts0 c → yields (backs m es fuel c p) ts (λ ts1 r, derives Backs (ts0 ++ ts1) r).
Proof.
  revert c p ts ts0. induction fuel as [|fuel IH]; intros c p ts ts0 Hp Hf Hd; [lia|]. cbn [backs].
  destruct (peek_ok' p ts [38] Hp eq_refl) as (p1 & E1 & Hp1). rewrite (bind_ok _ _ _ _ _ E1).
  destruct (mem_str _ _) eqn:Eh; cbn [negb]; [|exists [], ts; split_and!; [done|done|by rewrite app_nil_r]].
  destruct (peek_head _ _ _ Hp1 Eh eq_refl) as (k & q & e & ts' & -> & Hk & Hne).
  assert (k = 38) as ->. { unfold first_char in Hk. destruct (k =? 43); [done|]. cbn in Hk. lia. }
  destruct (gettoken_cons m es s0 Hend Hstr _ _ _ _ _ Hp1) as (p2 & E2 & Hp2). rewrite (bind_ok _ _ _ _ _ E2).
  specialize (IH (BACK c) p2 ts' (ts0 ++ [Sym 38]) Hp2 ltac:(cbn in Hf; lia) (d_back _ _ Hd)). unfold yields, backcmd in *. destruct (backs _ _ _ _ _) as [r p'| | | |]; try done.
  destruct IH as (ts1 & ts2 & -> & Hp' & H). exists ((38, q, e) :: ts1), ts2. split_and!; [done|done|]. cbn. by rewrite <-app_assoc in H.
Qed.

Lemma exec_args_yields fuel n c p ts ts0 :
  at_ p ts → (length ts + 1 < fuel)%nat → derives (Simple n) ts0 c →
  yields (exec_args m es fuel n c p) ts (λ ts1 r, ∃ n', derives (Simple n') (ts0 ++ ts1) r).
Proof.
  revert n c p ts ts0. induction fuel as [|fuel IH]; intros n c p ts ts0 Hp Hf Hd; [lia|]. cbn [exec_args].
  destruct (peek_ok' p ts [124; 41; 38; 59] Hp eq_refl) as (p1 & E1 & Hp1). rewrite (bind_ok _ _ _ _ _ E1).
  assert (Hstop : ∀ p', at_ p' ts → yields (Ok c p') ts (λ ts1 r, ∃ n', derives (Simple n') (ts0 ++ ts1) r)).
  { intros p' Hp'. exists [], ts. split_and!; [done|done|]. exists n. by rewrite app_nil_r. }
  destruct (mem_str _ _) eqn:Eh; [by apply Hstop|]. destruct ts as [|[[k q] e] ts].
  { destruct (gettoken_nil m es s0 Hend _ Hp1) as [E2 Hp2]. rewrite (bind_ok _ _ _ _ _ E2). cbn [Z.eqb]. by apply Hstop. }
  destruct (gettoken_cons m es s0 Hend Hstr _ _ _ _ _ Hp1) as (p2 & E2 & Hp2). rewrite (bind_ok _ _ _ _ _ E2).
  pose proof (kinds _ _ Hp1) as [Hk _]%Forall_cons. cbn in Hk. destruct (Z.eqb_spec k 0) as [->|]; [destruct Hk as [|[|]]; done|].
  destruct (Z.eqb_spec k 97) as [->|]; cbn [negb]; [|done]. destruct (Z.leb_spec MAXARGS (n + 1)) as [|Hargs]; [done|].
  pose proof (parseredirs_yields fuel (push_arg q e c) p2 ts Hp2 ltac:(cbn in Hf; lia)) as Hy. unfold yields in Hy |- *. unfold bind.
  destruct (parseredirs _ _ _ _ _) as [r p'| | | |]; try done. destruct Hy as (ts1 & ts2 & -> & Hp' & Hrd).
  assert (Hd' : derives (Simple (n + 1)) ((ts0 ++ [Word q e]) ++ (erase <$> ts1)) r).
  { eapply derives_redirs; [done| |exact Hrd]. apply d_word; [done|lia]. }
  specialize (IH (n + 1) r p' ts2 _ Hp' ltac:(cbn in Hf; rewrite length_app in Hf; lia) Hd'). unfold yields in IH.
  destruct (exec_args _ _ _ _ _ _) as [r' p''| | | |]; try done. destruct IH as (ts3 & ts4 & -> & Hp'' & n' & H).
  exists ((97, q, e) :: ts1 ++ ts3), ts4. split_and!; [by rewrite <-app_comm_cons, app_assoc|done|]. exists n'. rewrite fmap_cons, fmap_app. cbn [erase Z.eqb Pos.eqb].
  rewrite <-!app_assoc in H. exact H.
Qed.

Lemma yields_bind {A B} (x : M Z A) (k : A → M Z B) p ts Q Q' :
  yields (x p) ts Q →
  (∀ ts1 ts2 r p', ts = ts1 ++ ts2 → at_ p' ts2 → Q (erase <$> ts1) r → yields (k r p') ts2 (λ t, Q' ((erase <$> ts1) ++ t))) →
  yields (bind x k p) ts Q'.
Proof.
  intros H Hk. unfold yields, bind in *. destruct (x p) as [r p'| | | |]; try done. destruct H as (ts1 & ts2 & E & Hp' & HQ).
  specialize (Hk ts1 ts2 r p' E Hp' HQ). destruct (k r p') as [r' p''| | | |]; try done. destruct Hk as (ts3 & ts4 & -> & Hp'' & HQ').
  exists (ts1 ++ ts3), ts4. rewrite E, app_assoc, fmap_app. auto.
Qed.

Lemma yields_cons {A} (o : outcome Z A) t ts Q : yields o ts (λ ts1, Q (erase t :: ts1)) → yields o (t :: ts) Q.
Proof.
  unfold yields. destruct o as [r p'| | | |]; try done. intros (ts1 & ts2 & -> & Hp' & H). by exists (t :: ts1), ts2.
Qed.

Lemma yields_ret {A} (r : A) p ts (Q : list etok → A → Prop) : at_ p ts → Q [] r → yields (ret r p) ts Q.
Proof. intros Hp HQ. by exists [], ts. Qed.

(** A separator [k0] after which [x] is parsed. *)
Lemma yields_sep {A B} k0 (c : B) (x : M Z A) (k : A → B) p ts (Q : list etok → A → Prop) (Q' : list etok → B → Prop) :
  at_ p ts → mem_str symbols k0 = true → k0 ≠ 62 → Q' [] c →
  (∀ q e ts' p', ts = (k0, q, e) :: ts' → at_ p' ts' → yields (x p') ts' Q) →
  (∀ t r, Q t r → Q' (Sym k0 :: t) (k r)) →
  yields ((b <- peek m es [k0] ;; if negb b then ret c else gettoken m es ;; r <- x ;; ret (k r)) p) ts Q'.
Proof.
  intros Hp Hs H62 Hc Hx HQ. assert (Hf : forallb (mem_str symbols) [k0] = true) by (cbn [forallb]; by rewrite Hs).
  destruct (peek_ok' p ts [k0] Hp Hf) as (p1 & E1 & Hp1). rewrite (bind_ok _ _ _ _ _ E1).
  destruct (mem_str [k0] (first_char (head_kind ts))) eqn:Eh; cbn [negb]; [|by apply yields_ret].
  destruct (peek_head _ _ _ Hp1 Eh Hf) as (k1 & q & e & ts' & -> & Hk & Hne).
  assert (k1 = k0) as ->. { cbn in Hk. unfold first_char in Hk. destruct (k1 =? 43); lia. }
  destruct (gettoken_cons m es s0 Hend Hstr _ _ _ _ _ Hp1) as (p2 & E2 & Hp2). rewrite (bind_ok _ _ _ _ _ E2).
  specialize (Hx q e ts' p2 eq_refl Hp2). unfold yields, bind in *. destruct (x p2) as [r p'| | | |]; try done.
  destruct Hx as (ts1 & ts2 & -> & Hp' & H). exists ((k0, q, e) :: ts1), ts2. cbn. rewrite (proj2 (Z.eqb_neq k0 97)); [auto|]. by intros ->.
Qed.

(** The parser, one level at a time. *)
Lemma parseline_S fuel : parseline m es (S fuel) =
  (c <- parsepipe m es fuel ;; c <- backs m es fuel c ;; b <- peek m es [59] ;;
   if negb b then ret c else gettoken m es ;; r <- parseline m es fuel ;; ret (listcmd c r)).
Proof. done. Qed.

Lemma parsepipe_S fuel : parsepipe m es (S fuel) =
  (c <- parseexec m es fuel ;; b <- peek m es [124] ;;
   if negb b then ret c else gettoken m es ;; r <- parsepipe m es fuel ;; ret (pipecmd c r)).
Proof. done. Qed.

Lemma parseblock_S fuel : parseblock m es (S fuel) =
  (b <- peek m es [40] ;;
   if negb b then panic "parseblock"
   else gettoken m es ;; c <- parseline m es fuel ;; b <- peek m es [41] ;;
     if negb b then panic "syntax - missing )" else gettoken m es ;; parseredirs m es fuel c).
Proof. done. Qed.

Lemma parseexec_S fuel : parseexec m es (S fuel) =
  (b <- peek m es [40] ;;
   if b then parseblock m es fuel else c <- parseredirs m es fuel execcmd ;; exec_args m es fuel 0 c).
Proof. done. Qed.

Definition exec_derives (ts : list etok) (c : cmd) : Prop := derives Block ts c ∨ ∃ n, derives (Simple n) ts c.

Definition line_ok (n : nat) : Prop :=
  ∀ ts p fuel, (length ts ≤ n)%nat → at_ p ts → (8 * n + 8 ≤ fuel)%nat → yields (parseline m es fuel p) ts (derives Line).
Definition pipe_ok (n : nat) : Prop :=
  ∀ ts p fuel, (length ts ≤ n)%nat → at_ p ts → (8 * n + 7 ≤ fuel)%nat → yields (parsepipe m es fuel p) ts (derives Pipe).
Definition exec_ok (n : nat) : Prop :=
  ∀ ts p fuel, (length ts ≤ n)%nat → at_ p ts → (8 * n + 6 ≤ fuel)%nat → yields (parseexec m es fuel p) ts exec_derives.
Definition block_ok (n : nat) : Prop :=
  ∀ ts p fuel, (length ts ≤ n)%nat → at_ p ts → (8 * n + 5 ≤ fuel)%nat → yields (parseblock m es fuel p) ts (derives Block).

Lemma block_yields n : (∀ n', (n' < n)%nat → line_ok n') → block_ok n.
Proof.
  intros IH ts p fuel Hl Hp Hf. destruct fuel as [|fuel]; [lia|]. rewrite parseblock_S.
  destruct (peek_ok' p ts [40] Hp eq_refl) as (p1 & E1 & Hp1). rewrite (bind_ok _ _ _ _ _ E1).
  destruct (mem_str _ _) eqn:Eh; cbn [negb]; [|done]. destruct (peek_head _ _ _ Hp1 Eh eq_refl) as (k & q & e & ts' & -> & Hk & Hne).
  assert (k = 40) as ->. { cbn in Hk. unfold first_char in Hk. destruct (k =? 43); lia. }
  destruct (gettoken_cons m es s0 Hend Hstr _ _ _ _ _ Hp1) as (p2 & E2 & Hp2). rewrite (bind_ok _ _ _ _ _ E2). cbn [length] in Hl.
  pose proof (IH (n - 1)%nat ltac:(lia) ts' p2 fuel ltac:(lia) Hp2 ltac:(lia)) as Hy.
  assert (Hrest : yields ((c <- parseline m es fuel ;; b <- peek m es [41] ;;
      if negb b then panic "syntax - missing )" else gettoken m es ;; parseredirs m es fuel c) p2) ts' (λ t, derives Block (Sym 40 :: t))).
  { eapply yields_bind; [exact Hy|]. intros ts1 ts2 c p3 -> Hp3 Hd. destruct (peek_ok' p3 ts2 [41] Hp3 eq_refl) as (p4 & E4 & Hp4).
    rewrite (bind_ok _ _ _ _ _ E4). destruct (mem_str [41] (first_char (head_kind ts2))) eqn:Eh4; cbn [negb]; [|done].
    destruct (peek_head _ _ _ Hp4 Eh4 eq_refl) as (k4 & q4 & e4 & ts4 & -> & Hk4 & _).
    assert (k4 = 41) as ->. { cbn in Hk4. unfold first_char in Hk4. destruct (k4 =? 43); lia. }
    destruct (gettoken_cons m es s0 Hend Hstr _ _ _ _ _ Hp4) as (p5 & E5 & Hp5). rewrite (bind_ok _ _ _ _ _ E5). rewrite length_app in Hl. cbn [length] in Hl.
    pose proof (parseredirs_yields fuel c p5 ts4 Hp5 ltac:(lia)) as Hr. unfold yields in *. destruct (parseredirs _ _ _ _ _) as [r p6| | | |]; try done.
    destruct Hr as (ts5 & ts6 & -> & Hp6 & Hrd). exists ((41, q4, e4) :: ts5), ts6. split_and!; [done|done|]. rewrite fmap_cons. cbn [erase Z.eqb Pos.eqb].
    pose proof (derives_redirs Block (Sym 40 :: (erase <$> ts1) ++ [Sym 41]) (erase <$> ts5) c r I (d_paren _ _ Hd) Hrd) as H.
    by rewrite <-app_comm_cons, <-app_assoc in H. }
  exact (yields_cons _ (40, q, e) _ _ Hrest).
Qed.

Lemma exec_yields n : block_ok n → exec_ok n.
Proof.
  intros Hb ts p fuel Hl Hp Hf. destruct fuel as [|fuel]; [lia|]. rewrite parseexec_S.
  destruct (peek_ok' p ts [40] Hp eq_refl) as (p1 & E1 & Hp1). rewrite (bind_ok _ _ _ _ _ E1). destruct (mem_str _ _) eqn:Eh.
  - pose proof (Hb ts p1 fuel Hl Hp1 ltac:(lia)) as Hy. unfold yields in *. destruct (parseblock _ _ _ _) as [r p'| | | |]; try done.
    destruct Hy as (ts1 & ts2 & E & Hp' & Hd). exists ts1, ts2. split_and!; [done|done|by left].
  - eapply yields_bind; [apply parseredirs_yields; [done|lia]|]. intros ts1 ts2 c p' -> Hp' Hrd. rewrite length_app in Hl.
    pose proof (derives_redirs (Simple 0) [] (erase <$> ts1) _ _ I d_empty Hrd) as Hd.
    pose proof (exec_args_yields fuel 0 c p' ts2 _ Hp' ltac:(lia) Hd) as Hy. unfold yields in *. destruct (exec_args _ _ _ _ _ _) as [r p''| | | |]; try done.
    destruct Hy as (ts3 & ts4 & E & Hp'' & Hd'). exists ts3, ts4. split_and!; [done|done|by right].
Qed.

Lemma pipe_yields n : exec_ok n → (∀ n', (n' < n)%nat → pipe_ok n') → pipe_ok n.
Proof.
  intros He IH ts p fuel Hl Hp Hf. destruct fuel as [|fuel]; [lia|]. rewrite parsepipe_S.
  eapply yields_bind; [apply He; [done|done|lia]|]. intros ts1 ts2 c p' -> Hp' Hd. rewrite length_app in Hl.
  apply (yields_sep 124 c (parsepipe m es fuel) (λ r, pipecmd c r) p' ts2 (derives Pipe)); try done.
  - rewrite app_nil_r. destruct Hd as [Hd|[k Hd]]; [by apply d_block|by eapply d_simple].
  - intros q e ts' p3 -> Hp3. cbn [length] in Hl. apply (IH (n - 1)%nat); [lia|lia|done|lia].
  - intros t r Hr. destruct Hd as [Hd|[k Hd]]; [by apply d_block_pipe|by eapply d_simple_pipe].
Qed.

Lemma line_yields n : pipe_ok n → (∀ n', (n' < n)%nat → line_ok n') → line_ok n.
Proof.
  intros He IH ts p fuel Hl Hp Hf. destruct fuel as [|fuel]; [lia|]. rewrite parseline_S.
  eapply yields_bind; [apply He; [done|done|lia]|]. intros ts1 ts2 c p' -> Hp' Hd. rewrite length_app in Hl.
  eapply yields_bind; [apply (backs_yields fuel c p' ts2 _ Hp' ltac:(lia) (d_pipe _ _ Hd))|]. intros ts3 ts4 c' p'' -> Hp'' Hd'. rewrite length_app in Hl.
  apply (yields_sep 59 c' (parseline m es fuel) (λ r, listcmd c' r) p'' ts4 (derives Line)); try done.
  - rewrite app_nil_r. by apply d_line.
  - intros q e ts' p3 -> Hp3. cbn [length] in Hl. apply (IH (n - 1)%nat); [lia|lia|done|lia].
  - intros t r Hr. rewrite app_assoc. by apply d_list.
Qed.

Lemma parse_yields n : line_ok n ∧ pipe_ok n.
Proof.
  induction n as [n IH] using lt_wf_ind.
  assert (Hp : pipe_ok n). { apply pipe_yields; [apply exec_yields, block_yields|]; intros n' Hn'; by apply IH. }
  split; [|done]. apply line_yields; [done|]. intros n' Hn'. by apply IH.
Qed.

(** * What the tokens spell is what the parser returns *)

(** With enough fuel the result is [r], with the tokens [ts] left. *)
Definition goes {A} (X : nat → nat → M Z A) (p : Z) (r : A) (ts : list tok) : Prop :=
  ∃ N p', (∀ f g, (N ≤ f)%nat → (N ≤ g)%nat → X f g p = Ok r p') ∧ at_ p' ts.

Lemma goes_bind {A B} (X : nat → nat → M Z A) (k : nat → nat → A → M Z B) p a ts1 r ts :
  goes X p a ts1 → (∀ p1, at_ p1 ts1 → goes (λ f g, k f g a) p1 r ts) → goes (λ f g, bind (X f g) (k f g)) p r ts.
Proof.
  intros (N1 & p1 & E1 & Hp1) Hk. destruct (Hk p1 Hp1) as (N2 & p2 & E2 & Hp2). exists (N1 `max` N2)%nat, p2. split; [|done].
  intros f g Hf Hg. rewrite (bind_ok _ _ _ _ _ (E1 f g ltac:(lia) ltac:(lia))). apply E2; lia.
Qed.

Lemma goes_peek {A} toks (k : nat → nat → bool → M Z A) p ts r ts' :
  at_ p ts → forallb (mem_str symbols) toks = true →
  (∀ p1, at_ p1 ts → goes (λ f g, k f g (mem_str toks (first_char (head_kind ts)))) p1 r ts') → goes (λ f g, bind (peek m es toks) (k f g)) p r ts'.
Proof.
  intros Hp Hs. destruct (peek_ok' p ts toks Hp Hs) as (p1 & E & Hp1). apply (goes_bind (λ _ _, peek m es toks)). by exists O, p1.
Qed.

Lemma goes_token {A} (k : nat → nat → tok → M Z A) p t ts r ts' :
  at_ p (t :: ts) → (∀ p1, at_ p1 ts → goes (λ f g, k f g t) p1 r ts') → goes (λ f g, bind (gettoken m es) (k f g)) p r ts'.
Proof.
  intros Hp. destruct t as [[k0 q] e]. destruct (gettoken_cons m es s0 Hend Hstr _ _ _ _ _ Hp) as (p1 & E & Hp1).
  apply (goes_bind (λ _ _, gettoken m es)). by exists O, p1.
Qed.

Lemma goes_ret {A} (r : A) p ts : at_ p ts → goes (λ _ _, ret r) p r ts.
Proof. intros Hp. by exists O, p. Qed.

Lemma goes_SS {A} (X : nat → nat → M Z A) p r ts : goes (λ f g, X (S f) (S g)) p r ts → goes X p r ts.
Proof.
  intros (N & p' & E & Hp). exists (S N), p'. split; [|done]. intros f g Hf Hg. destruct f as [|f], g as [|g]; try lia. apply E; lia.
Qed.

(** One fuel for both. *)
Lemma goes_diag {A} (X : nat → nat → M Z A) p r ts : goes X p r ts → goes (λ f _, X f f) p r ts.
Proof. intros (N & p' & E & Hp). exists N, p'. auto. Qed.

Lemma goes_diag_r {A} (X : nat → nat → M Z A) p r ts : goes X p r ts → goes (λ _ g, X g g) p r ts.
Proof. intros (N & p' & E & Hp). exists N, p'. auto. Qed.

(** A redirection, then the rest of what follows. *)
Lemma goes_redir {A} c k mode fd t q e rest (Y : nat → cmd → M Z A) p r ts :
  redir_of k = Some (mode, fd) → erase t = Sym k → at_ p (t :: (97, q, e) :: rest) →
  (∀ p1, at_ p1 rest → goes (λ f g, bind (parseredirs m es f (REDIR c q e mode fd)) (Y g)) p1 r ts) →
  goes (λ f g, bind (parseredirs m es f c) (Y g)) p r ts.
Proof.
  intros Hk Ht Hp H. destruct t as [[k1 q1] e1]. cbn in Ht. destruct (Z.eqb_spec k1 97); [done|]. injection Ht as ->.
  assert (Hh : mem_str [60; 62] (first_char k) = true).
  { by destruct (redir_kind _ _ Hk) as [-> | [-> | ->]]. }
  destruct (peek_ok' p _ [60; 62] Hp eq_refl) as (p1 & E1 & Hp1). cbn [head_kind] in E1. rewrite Hh in E1.
  destruct (gettoken_cons m es s0 Hend Hstr _ _ _ _ _ Hp1) as (p2 & E2 & Hp2). destruct (gettoken_cons m es s0 Hend Hstr _ _ _ _ _ Hp2) as (p3 & E3 & Hp3).
  destruct (H p3 Hp3) as (N & p' & E & Hp'). exists (S N), p'. split; [|done]. intros f g Hf Hg. destruct f as [|f]; [lia|]. rewrite <-(E f g) by lia.
  unfold bind at 1. cbn [parseredirs]. rewrite (bind_ok _ _ _ _ _ E1). cbn [negb]. rewrite (bind_ok _ _ _ _ _ E2), (bind_ok _ _ _ _ _ E3). cbn [Z.eqb Pos.eqb negb].
  by rewrite (redir_cmd k mode fd).
Qed.

Lemma goes_no_redir c p ts : at_ p ts → mem_str [60; 62] (first_char (head_kind ts)) = false → goes (λ f _, parseredirs m es f c) p c ts.
Proof.
  intros Hp Hh. apply goes_SS. cbn [parseredirs]. apply (goes_peek _ _ _ ts); [done|done|]. intros p1 Hp1. rewrite Hh. by apply goes_ret.
Qed.

(** The state of [parseexec] after [n] words. *)
Definition args_from (n : Z) (c : cmd) (f g : nat) : M Z cmd := c <- parseredirs m es f c ;; exec_args m es g n c.

Lemma goes_word n c q e rest p r ts :
  n + 1 < MAXARGS → at_ p ((97, q, e) :: rest) → (∀ p1, at_ p1 rest → goes (args_from (n + 1) (push_arg q e c)) p1 r ts) →
  goes (args_from n c) p r ts.
Proof.
  intros Hn Hp H. apply (goes_bind (λ f _, parseredirs m es f c) (λ _ g, exec_args m es g n) _ c ((97, q, e) :: rest)); [by apply goes_no_redir|].
  intros p1 Hp1. apply goes_SS. cbn [exec_args]. apply (goes_peek _ _ _ _ _ _ Hp1); [done|]. intros p2 Hp2. cbn [head_kind]. change (mem_str _ (first_char 97)) with false. cbv iota.
  apply (goes_token _ _ _ _ _ _ Hp2). intros p3 Hp3. cbn [Z.eqb Pos.eqb negb]. rewrite (proj2 (Z.leb_gt MAXARGS (n + 1))) by lia. apply (goes_diag_r (args_from (n + 1) (push_arg q e c))). by apply H.
Qed.

Lemma goes_args_end n c rest p :
  mem_str [0; 124; 41; 38; 59] (head_kind rest) = true → at_ p rest → goes (args_from n c) p c rest.
Proof.
  intros Hh Hp. assert (Hf : mem_str [60; 62] (first_char (head_kind rest)) = false ∧ (head_kind rest = 0 ∨ mem_str [124; 41; 38; 59] (first_char (head_kind rest)) = true)).
  { cbn in Hh. repeat (apply orb_true_iff in Hh as [->%Z.eqb_eq|Hh]; [split; [done|auto]|]). done. }
  destruct Hf as [Hf1 Hf2]. apply (goes_bind (λ f _, parseredirs m es f c) (λ _ g, exec_args m es g n) _ c rest); [by apply goes_no_redir|].
  intros p1 Hp1. apply goes_SS. cbn [exec_args]. apply (goes_peek _ _ _ _ _ _ Hp1); [done|]. intros p2 Hp2. destruct Hf2 as [Hf2 | ->]; [|by apply goes_ret].
  destruct rest as [|[[k q] e] rest]; cbn [head_kind] in *.
  - change (mem_str _ (first_char 0)) with false. cbv iota. destruct (gettoken_nil m es s0 Hend _ Hp2) as [E3 Hp3].
    apply (goes_bind (λ _ _, gettoken m es) _ _ (0, es, es) []); [by exists O, es|]. intros p3 Hp3'. cbn [Z.eqb]. by apply goes_ret.
  - pose proof (kinds _ _ Hp2) as [Hk _]%Forall_cons. cbn in Hk. subst k. destruct Hk as [|[|]]; done.
Qed.

Lemma goes_ext {A} (X Y : nat → nat → M Z A) p r ts : (∀ f g, X f g p = Y f g p) → goes X p r ts → goes Y p r ts.
Proof. intros H (N & p' & E & Hp). exists N, p'. split; [|done]. intros f g Hf Hg. rewrite <-H. by apply E. Qed.

Lemma block_head ts c : derives Block ts c → ∃ ts', ts = Sym 40 :: ts'.
Proof.
  intros H. remember Block as x eqn:Ex. induction H as [| | | | | | | |ts c H IH|ts c k mode fd q e H IH Hk| | |]; try done; [by eexists|].
  destruct (IH Ex) as [ts' ->]. by eexists.
Qed.

Lemma simple_head n ts c : derives (Simple n) ts c → ts = [] ∨ ∃ t ts', ts = t :: ts' ∧ t ≠ Sym 40.
Proof.
  intros H. remember (Simple n) as x eqn:Ex. revert n Ex.
  induction H as [| | | | | | | | | | |n ts c q e H IH Hn|n ts c k mode fd q e H IH Hk]; intros n' [= <-]; try done; [by left| |]; right.
  - destruct (IH n eq_refl) as [->|(t & ts' & -> & Ht)]; [by exists (Word q e), []|by exists t, (ts' ++ [Word q e])].
  - destruct (IH n eq_refl) as [->|(t & ts' & -> & Ht)]; [|by exists t, (ts' ++ [Sym k; Word q e])].
    exists (Sym k), [Word q e]. split; [done|]. intros [= ->]. by apply redir_kind in Hk as [|[|]].
Qed.

(** The tokens that may follow. *)
Definition follow (x : nt) (rest : list tok) : Prop :=
  mem_str (match x with Line => [0; 41] | _ => [0; 41; 59; 38] end) (head_kind rest) = true.

(** What [derives x ts c] means for the parser. *)
Definition parses (x : nt) (ts : list etok) (c : cmd) : Prop :=
  ∀ tks rest p, erase <$> tks = ts → at_ p (tks ++ rest) →
    match x with
    | Line => follow Line rest → goes (λ f _, parseline m es f) p c rest
    | Backs => follow Backs rest → ∀ r tse, (∀ p', at_ p' rest → goes (λ f _, backs m es f c) p' r tse) →
        goes (λ f g, c0 <- parsepipe m es f ;; backs m es g c0) p r tse
    | Pipe => follow Pipe rest → goes (λ f _, parsepipe m es f) p c rest
    | Block => ∀ r tse, (∀ p', at_ p' rest → goes (λ f _, parseredirs m es f c) p' r tse) → goes (λ f _, parseblock m es f) p r tse
    | Simple n => ∀ r tse, (∀ p', at_ p' rest → goes (args_from n c) p' r tse) → goes (args_from 0 execcmd) p r tse
    end.

(** The first character of the next token is not one of [toks]. *)
Lemma follow_not l toks rest :
  mem_str l (head_kind rest) = true → forallb (λ c, negb (mem_str toks (first_char c))) l = true → mem_str toks (first_char (head_kind rest)) = false.
Proof.
  intros H Hl. unfold mem_str in H. apply existsb_exists in H as (c & Hc & ->%Z.eqb_eq). rewrite forallb_forall in Hl. by apply negb_true_iff, Hl.
Qed.

Lemma goes_exec p ts c ts' :
  at_ p ts →
  (∀ p1, at_ p1 ts → goes (λ f _, if mem_str [40] (first_char (head_kind ts)) then parseblock m es f
                                   else c <- parseredirs m es f execcmd ;; exec_args m es f 0 c) p1 c ts') →
  goes (λ f _, parseexec m es f) p c ts'.
Proof.
  intros Hp H. apply (goes_SS (λ f _, parseexec m es f)).
  apply (goes_ext (λ f _, b <- peek m es [40] ;; if b then parseblock m es f else c <- parseredirs m es f execcmd ;; exec_args m es f 0 c)); [by intros f _; rewrite parseexec_S|].
  by apply (goes_peek _ _ _ _ _ _ Hp).
Qed.

Lemma exec_block ts c tks rest p :
  derives Block ts c → parses Block ts c → erase <$> tks = ts → at_ p (tks ++ rest) → mem_str [0; 124; 41; 59; 38] (head_kind rest) = true →
  goes (λ f _, parseexec m es f) p c rest.
Proof.
  intros Hd HP E Hp Hf. destruct (block_head _ _ Hd) as [ts' ->]. destruct tks as [|[[k q] e] tks]; [done|]. pose proof E as E'. cbn in E'.
  destruct (Z.eqb_spec k 97); [done|]. injection E' as -> _.
  apply (goes_exec _ _ _ _ Hp). intros p1 Hp1. cbn [head_kind app]. change (mem_str [40] (first_char 40)) with true. cbv iota.
  apply (HP _ rest p1 E Hp1). intros p2 Hp2. apply goes_no_redir; [done|]. by eapply follow_not.
Qed.

Lemma exec_simple n ts c tks rest p :
  derives (Simple n) ts c → parses (Simple n) ts c → erase <$> tks = ts → at_ p (tks ++ rest) → mem_str [0; 124; 41; 59; 38] (head_kind rest) = true →
  goes (λ f _, parseexec m es f) p c rest.
Proof.
  intros Hd HP E Hp Hf.
  assert (Hh : mem_str [40] (first_char (head_kind (tks ++ rest))) = false).
  { destruct (simple_head _ _ _ Hd) as [->|(t & ts' & -> & Ht)].
    - apply fmap_nil_inv in E as ->. by eapply follow_not.
    - destruct tks as [|[[k q] e] tks]; [done|]. cbn in E. injection E as E _. cbn [head_kind app]. destruct (Z.eqb_spec k 97) as [->|]; [done|].
      subst t. cbn. unfold first_char. destruct (Z.eqb_spec k 43); [done|]. destruct (Z.eqb_spec k 40); [congruence|done]. }
  apply (goes_exec _ _ _ _ Hp). intros p1 Hp1. rewrite Hh. cbv iota. apply (goes_diag (args_from 0 execcmd)).
  apply (HP _ rest p1 E Hp1). intros p2 Hp2. apply goes_args_end; [|done]. clear -Hf. cbn in *. destruct (head_kind rest =? 0), (head_kind rest =? 124), (head_kind rest =? 41), (head_kind rest =? 59), (head_kind rest =? 38); done.
Qed.

Lemma erase_sym t k : erase t = Sym k → ∃ q e, t = (k, q, e).
Proof. destruct t as [[k' q] e]. cbn. destruct (k' =? 97); [done|]. intros [= ->]. eauto. Qed.

Lemma erase_word t q e : erase t = Word q e → t = (97, q, e).
Proof. destruct t as [[k' q'] e']. cbn. destruct (Z.eqb_spec k' 97); [|done]. intros [= -> ->]. by subst. Qed.

(** A separator after the command [c], and what follows it. *)
Lemma goes_sep {A} k0 (c : A) (x : nat → M Z A) (k : A → A → A) p ts rest r ts' :
  at_ p ts → mem_str symbols k0 = true →
  (mem_str [k0] (first_char (head_kind ts)) = false ∧ r = c ∧ ts' = ts ∨
   (∃ q e c2, ts = (k0, q, e) :: rest ∧ first_char k0 = k0 ∧ r = k c c2 ∧ ∀ p', at_ p' rest → goes (λ f _, x f) p' c2 ts')) →
  goes (λ f _, b <- peek m es [k0] ;; if negb b then ret c else gettoken m es ;; r <- x f ;; ret (k c r)) p r ts'.
Proof.
  intros Hp Hs H. apply (goes_peek _ _ _ ts); [done|cbn [forallb]; by rewrite Hs|]. intros p1 Hp1.
  destruct H as [(-> & -> & ->)|(q & e & c2 & -> & Hf & -> & Hx)]; [by apply goes_ret|]. cbn [head_kind]. rewrite Hf.
  replace (mem_str [k0] k0) with true by (cbn; by rewrite Z.eqb_refl). cbn [negb].
  apply (goes_token _ _ _ _ _ _ Hp1). intros p2 Hp2. apply (goes_bind (λ f _, x f) _ _ c2 ts'); [by apply Hx|]. intros p3 Hp3. by apply goes_ret.
Qed.

Lemma goes_pipe p c ts1 rest r ts' :
  goes (λ f _, parseexec m es f) p c ts1 →
  (mem_str [124] (first_char (head_kind ts1)) = false ∧ r = c ∧ ts' = ts1 ∨
   (∃ q e c2, ts1 = (124, q, e) :: rest ∧ r = PIPE c c2 ∧ ∀ p', at_ p' rest → goes (λ f _, parsepipe m es f) p' c2 ts')) →
  goes (λ f _, parsepipe m es f) p r ts'.
Proof.
  intros He H. apply (goes_SS (λ f _, parsepipe m es f)).
  apply (goes_ext (λ f _, c <- parseexec m es f ;; b <- peek m es [124] ;; if negb b then ret c else gettoken m es ;; r <- parsepipe m es f ;; ret (pipecmd c r)));
    [by intros f _; rewrite parsepipe_S|].
  apply (goes_bind (λ f _, parseexec m es f) _ _ c ts1 _ _ He). intros p1 Hp1.
  apply (goes_sep 124 c (parsepipe m es) pipecmd p1 ts1 rest); [done|done|]. destruct H as [H|(q & e & c2 & H1 & H2 & H3)]; [by left|right; by exists q, e, c2].
Qed.

Lemma goes_line p c ts1 rest r ts' :
  goes (λ f g, c0 <- parsepipe m es f ;; backs m es g c0) p c ts1 →
  (mem_str [59] (first_char (head_kind ts1)) = false ∧ r = c ∧ ts' = ts1 ∨
   (∃ q e c2, ts1 = (59, q, e) :: rest ∧ r = LIST c c2 ∧ ∀ p', at_ p' rest → goes (λ f _, parseline m es f) p' c2 ts')) →
  goes (λ f _, parseline m es f) p r ts'.
Proof.
  intros He H. apply (goes_SS (λ f _, parseline m es f)).
  apply (goes_ext (λ f _, c <- (c0 <- parsepipe m es f ;; backs m es f c0) ;; b <- peek m es [59] ;; if negb b then ret c else gettoken m es ;; r <- parseline m es f ;; ret (listcmd c r)));
    [by intros f _; rewrite parseline_S, bind_assoc|].
  apply (goes_bind (λ f _, c0 <- parsepipe m es f ;; backs m es f c0) _ _ c ts1); [by apply (goes_diag (λ f g, c0 <- parsepipe m es f ;; backs m es g c0))|]. intros p1 Hp1.
  apply (goes_sep 59 c (parseline m es) listcmd p1 ts1 rest); [done|done|]. destruct H as [H|(q & e & c2 & H1 & H2 & H3)]; [by left|right; by exists q, e, c2].
Qed.

Lemma backs_end c p ts : at_ p ts → mem_str [38] (first_char (head_kind ts)) = false → goes (λ f _, backs m es f c) p c ts.
Proof.
  intros Hp Hh. apply goes_SS. cbn [backs]. apply (goes_peek _ _ _ ts); [done|done|]. intros p1 Hp1. rewrite Hh. by apply goes_ret.
Qed.

Lemma backs_more c q e p rest r tse :
  at_ p ((38, q, e) :: rest) → (∀ p', at_ p' rest → goes (λ f _, backs m es f (BACK c)) p' r tse) → goes (λ f _, backs m es f c) p r tse.
Proof.
  intros Hp H. apply goes_SS. cbn [backs]. apply (goes_peek _ _ _ _ _ _ Hp); [done|]. intros p1 Hp1. cbn [head_kind].
  change (mem_str [38] (first_char 38)) with true. cbn [negb]. by apply (goes_token _ _ _ _ _ _ Hp1).
Qed.

Lemma goes_redir' c k mode fd t q e rest p r ts :
  redir_of k = Some (mode, fd) → erase t = Sym k → at_ p (t :: (97, q, e) :: rest) →
  (∀ p1, at_ p1 rest → goes (λ f _, parseredirs m es f (REDIR c q e mode fd)) p1 r ts) →
  goes (λ f _, parseredirs m es f c) p r ts.
Proof.
  intros Hk Ht Hp H. assert (Hr : ∀ c' f p', bind (parseredirs m es f c') (λ c, ret c) p' = parseredirs m es f c' p').
  { intros c' f p'. unfold bind. by destruct (parseredirs _ _ _ _ _). }
  apply (goes_ext (λ f _, bind (parseredirs m es f c) (λ c, ret c))); [intros f _; apply Hr|].
  apply (goes_redir c k mode fd t q e rest (λ _ c, ret c)); [done..|]. intros p1 Hp1.
  apply (goes_ext (λ f _, parseredirs m es f (REDIR c q e mode fd))); [intros f _; by rewrite Hr|by apply H].
Qed.

Lemma follow_exec rest : follow Pipe rest → mem_str [0; 124; 41; 59; 38] (head_kind rest) = true.
Proof. unfold follow. cbn. destruct (head_kind rest =? 0), (head_kind rest =? 124), (head_kind rest =? 41), (head_kind rest =? 59), (head_kind rest =? 38); done. Qed.

Lemma follow_line rest : follow Line rest → follow Backs rest.
Proof. unfold follow. cbn. destruct (head_kind rest =? 0), (head_kind rest =? 41), (head_kind rest =? 59), (head_kind rest =? 38); done. Qed.

(** The tokens of a command, a separator and the rest. *)
Lemma split_sep tks ts1 k ts2 :
  erase <$> tks = ts1 ++ Sym k :: ts2 → ∃ k1 q e k2, tks = k1 ++ (k, q, e) :: k2 ∧ erase <$> k1 = ts1 ∧ erase <$> k2 = ts2 ∧ erase (k, q, e) = Sym k.
Proof.
  intros E. apply fmap_app_inv in E as (k1 & k2 & -> & E2 & ->). symmetry in E2. apply fmap_cons_inv in E2 as (t & k2' & Et & -> & ->).
  symmetry in Et. pose proof (erase_sym _ _ Et) as (q & e & ->). by exists k1, q, e, k2'.
Qed.

Lemma parses_line ts c : parses Backs ts c → parses Line ts c.
Proof.
  intros IH tks rest p E Hp Hf. apply (goes_line p c rest []); [|left; split_and!; [by eapply follow_not|done|done]].
  apply (IH tks rest p E Hp (follow_line _ Hf)). intros p' Hp'. apply backs_end; [done|by eapply follow_not].
Qed.

Lemma parses_list ts1 c1 ts2 c2 : parses Backs ts1 c1 → parses Line ts2 c2 → parses Line (ts1 ++ Sym 59 :: ts2) (LIST c1 c2).
Proof.
  intros IH1 IH2 tks rest p E Hp Hf. destruct (split_sep _ _ _ _ E) as (k1 & q & e & k2 & -> & E1 & E2 & _). rewrite <-app_assoc, <-app_comm_cons in Hp.
  apply (goes_line p c1 ((59, q, e) :: k2 ++ rest) (k2 ++ rest)); [|right; exists q, e, c2; split_and!; [done|done|intros p' Hp'; by apply (IH2 k2)]].
  apply (IH1 k1 _ p E1 Hp); [done|]. intros p' Hp'. by apply backs_end.
Qed.

Lemma parses_back ts c : parses Backs ts c → parses Backs (ts ++ [Sym 38]) (BACK c).
Proof.
  intros IH tks rest p E Hp Hf r tse H. destruct (split_sep _ _ _ [] E) as (k1 & q & e & k2 & -> & E1 & ->%fmap_nil_inv & _). rewrite <-app_assoc in Hp.
  apply (IH k1 _ p E1 Hp); [done|]. intros p' Hp'. by apply (backs_more c q e p' rest).
Qed.

Lemma parses_pipe ts1 c1 ts2 c2 :
  (∀ tks rest p, erase <$> tks = ts1 → at_ p (tks ++ rest) → mem_str [0; 124; 41; 59; 38] (head_kind rest) = true → goes (λ f _, parseexec m es f) p c1 rest) →
  parses Pipe ts2 c2 → parses Pipe (ts1 ++ Sym 124 :: ts2) (PIPE c1 c2).
Proof.
  intros He IH tks rest p E Hp Hf. destruct (split_sep _ _ _ _ E) as (k1 & q & e & k2 & -> & E1 & E2 & _). rewrite <-app_assoc, <-app_comm_cons in Hp.
  apply (goes_pipe p c1 ((124, q, e) :: k2 ++ rest) (k2 ++ rest)); [by apply (He k1)|].
  right. exists q, e, c2. split_and!; [done|done|]. intros p' Hp'. by apply (IH k2).
Qed.

Lemma parses_paren ts c : parses Line ts c → parses Block (Sym 40 :: ts ++ [Sym 41]) c.
Proof.
  intros IH tks rest p E Hp r tse H. destruct (split_sep tks [] _ _ E) as (k0 & q & e & k1 & -> & ->%fmap_nil_inv & E1 & _).
  destruct (split_sep _ _ _ [] E1) as (k2 & q2 & e2 & k3 & -> & E2 & ->%fmap_nil_inv & _). cbn [app] in Hp. rewrite <-app_assoc in Hp. cbn [app] in Hp.
  apply (goes_SS (λ f _, parseblock m es f)).
  apply (goes_ext (λ f _, b <- peek m es [40] ;; if negb b then panic "parseblock" else gettoken m es ;; c <- parseline m es f ;; b <- peek m es [41] ;;
    if negb b then panic "syntax - missing )" else gettoken m es ;; parseredirs m es f c)); [by intros f _; rewrite parseblock_S|].
  apply (goes_peek _ _ _ _ _ _ Hp); [done|]. intros p1 Hp1. cbn [head_kind]. change (mem_str [40] (first_char 40)) with true. cbn [negb].
  apply (goes_token _ _ _ _ _ _ Hp1). intros p2 Hp2. apply (goes_bind (λ f _, parseline m es f) _ _ c ((41, q2, e2) :: rest)); [by apply (IH k2)|]. intros p3 Hp3.
  apply (goes_peek _ _ _ _ _ _ Hp3); [done|]. intros p4 Hp4. cbn [head_kind]. change (mem_str [41] (first_char 41)) with true. cbn [negb].
  apply (goes_token _ _ _ _ _ _ Hp4). intros p5 Hp5. by apply H.
Qed.

Lemma split_redir tks ts k q e :
  erase <$> tks = ts ++ [Sym k; Word q e] → ∃ k1 t, tks = k1 ++ [t; (97, q, e)] ∧ erase <$> k1 = ts ∧ erase t = Sym k.
Proof.
  intros E. destruct (split_sep _ _ _ _ E) as (k1 & q1 & e1 & k2 & -> & E1 & E2 & E3). apply fmap_cons_inv in E2 as (t & k3 & Et & E4 & ->).
  symmetry in E4. apply fmap_nil_inv in E4 as ->. symmetry in Et. apply erase_word in Et as ->. by exists k1, (k, q1, e1).
Qed.

Lemma derives_parses x ts c : derives x ts c → parses x ts c.
Proof.
  induction 1 as [ts c H IH|ts1 c1 ts2 c2 H1 IH1 H2 IH2|ts c H IH|ts c H IH|ts c H IH|n ts c H IH|ts1 c1 ts2 c2 H1 IH1 H2 IH2|n ts1 c1 ts2 c2 H1 IH1 H2 IH2
    |ts c H IH|ts c k mode fd q e H IH Hk| |n ts c q e H IH Hn|n ts c k mode fd q e H IH Hk].
  - by apply parses_line.
  - by apply parses_list.
  - intros tks rest p E Hp Hf r tse Hr. apply (goes_bind (λ f _, parsepipe m es f) (λ _ g, backs m es g) _ c rest); [by apply (IH tks)|].
    intros p1 Hp1. by apply (goes_diag_r (λ f _, backs m es f c)), Hr.
  - by apply parses_back.
  - intros tks rest p E Hp Hf. apply (goes_pipe p c rest []); [by eapply exec_block, follow_exec|left; split_and!; [by eapply follow_not|done|done]].
  - intros tks rest p E Hp Hf. apply (goes_pipe p c rest []); [by eapply exec_simple, follow_exec|left; split_and!; [by eapply follow_not|done|done]].
  - apply parses_pipe; [|done]. intros tks rest p E Hp Hf. by eapply exec_block.
  - apply parses_pipe; [|done]. intros tks rest p E Hp Hf. by eapply exec_simple.
  - by apply parses_paren.
  - intros tks rest p E Hp r tse Hr. destruct (split_redir _ _ _ _ _ E) as (k1 & t & -> & E1 & Et). rewrite <-app_assoc in Hp.
    apply (IH k1 _ p E1 Hp). intros p' Hp'. by apply (goes_redir' c k mode fd t q e rest).
  - intros tks rest p E Hp r tse Hr. apply fmap_nil_inv in E as ->. by apply Hr.
  - intros tks rest p E Hp r tse Hr. apply fmap_app_inv in E as (k1 & k2 & -> & E2 & ->). symmetry in E2. apply fmap_cons_inv in E2 as (t & k3 & Et & E3 & ->).
    symmetry in E3. apply fmap_nil_inv in E3 as ->. symmetry in Et. apply erase_word in Et as ->. rewrite <-app_assoc in Hp.
    apply (IH k1 _ p eq_refl Hp). intros p' Hp'. by apply (goes_word n c q e rest).
  - intros tks rest p E Hp r tse Hr. destruct (split_redir _ _ _ _ _ E) as (k1 & t & -> & E1 & Et). rewrite <-app_assoc in Hp.
    apply (IH k1 _ p E1 Hp). intros p' Hp'. by apply (goes_redir c k mode fd t q e rest (λ g c, exec_args m es g n c)).
Qed.
End gram.

(** * The words *)

(** A string of [n] characters at [s]. *)
Definition is_string (m : mem) (s n : Z) : Prop := 0 ≤ n ∧ ldb m (s + n) = 0 ∧ ∀ x, s ≤ x < s + n → ldb m x ≠ 0.

Fixpoint words (c : cmd) : list (Z * Z) :=
  match c with
  | EXEC argv => argv
  | REDIR c q e _ _ => words c ++ [(q, e)]
  | PIPE l r => words l ++ words r
  | LIST l r => words l ++ words r
  | BACK c => words c
  end.

Lemma words_push q e c w : w ∈ words (push_arg q e c) → w ∈ words c ∨ w = (q, e).
Proof.
  induction c as [argv|c IH q' e' mode fd| | |]; cbn; try tauto.
  - rewrite elem_of_app, list_elem_of_singleton. tauto.
  - rewrite !elem_of_app. tauto.
Qed.

(** The words of a command are words of the line. *)
Lemma derives_words x ts c q e : derives x ts c → (q, e) ∈ words c → Word q e ∈ ts.
Proof.
  induction 1 as [ts c H IH|ts1 c1 ts2 c2 H1 IH1 H2 IH2|ts c H IH|ts c H IH|ts c H IH|n ts c H IH|ts1 c1 ts2 c2 H1 IH1 H2 IH2|n ts1 c1 ts2 c2 H1 IH1 H2 IH2
    |ts c H IH|ts c k mode fd q' e' H IH Hk| |n ts c q' e' H IH Hn|n ts c k mode fd q' e' H IH Hk]; cbn [words]; auto.
  - rewrite !elem_of_app, elem_of_cons. tauto.
  - rewrite elem_of_app. tauto.
  - rewrite !elem_of_app, elem_of_cons. tauto.
  - rewrite !elem_of_app, elem_of_cons. tauto.
  - rewrite elem_of_cons, elem_of_app. tauto.
  - rewrite !elem_of_app, list_elem_of_singleton, !elem_of_cons. intros [Hw|[= -> ->]]; tauto.
  - intros Hw. by apply not_elem_of_nil in Hw.
  - intros Hw. rewrite elem_of_app, list_elem_of_singleton. destruct (words_push _ _ _ _ Hw) as [Hw'|[= -> ->]]; tauto.
  - rewrite !elem_of_app, list_elem_of_singleton, !elem_of_cons. intros [Hw|[= -> ->]]; tauto.
Qed.

Lemma foldl_nul l m x : ldb (foldl (λ m (a : Z * Z), stb m a.2 0) m l) x = if decide (x ∈ l.*2) then 0 else ldb m x.
Proof.
  revert m. induction l as [|[q e] l IH]; intros m; cbn [foldl fmap list_fmap snd]; [done|]. rewrite IH, ldb_stb.
  change ((q, e) :: l).*2 with (e :: l.*2). repeat case_decide; try done; set_unfold; naive_solver.
Qed.

(** [nulterminate] writes a NUL after every word, and nothing else. *)
Lemma nulterminate_ldb c m x : ldb (nulterminate m c) x = if decide (x ∈ (words c).*2) then 0 else ldb m x.
Proof.
  revert m. induction c as [argv|c IH q e mode fd|l IHl r IHr|l IHl r IHr|c IH]; intros m; cbn [nulterminate words]; rewrite ?fmap_app.
  - apply foldl_nul.
  - rewrite ldb_stb, IH. cbn. repeat case_decide; try done; set_unfold; naive_solver.
  - rewrite IHr, IHl. repeat case_decide; try done; set_unfold; naive_solver.
  - rewrite IHr, IHl. repeat case_decide; try done; set_unfold; naive_solver.
  - apply IH.
Qed.

Lemma lexed_words m s n p ts q e (es := s + n) :
  is_string m s n → s ≤ p ≤ es → lexed m es p ts → Word q e ∈ (erase <$> ts) →
  s ≤ q < e ∧ e ≤ es ∧ (∀ x, q ≤ x < e → word_char (ldb m x) = true) ∧ (e = es ∨ word_char (ldb m e) = false).
Proof.
  intros (_ & Hend & Hstr) Hp H. fold es in Hend, Hstr. revert Hp. induction H as [p E|p q' k e' ts E Hq Et H IH]; intros Hp Hw; [by apply not_elem_of_nil in Hw|].
  pose proof (skip_space_range m es p ltac:(lia)) as Hr. pose proof (skip_stop m es s Hend p Hp) as Hs. rewrite E in Hr, Hs.
  pose proof (token_range m es s Hend Hstr q' ltac:(lia) Hs) as Ht. rewrite Et in Ht. cbn [snd] in Ht.
  rewrite fmap_cons in Hw. apply elem_of_cons in Hw as [Hw|Hw]; [|apply IH; [lia|done]].
  symmetry in Hw. apply erase_word in Hw as [= -> -> ->]. unfold token_at in Et. destruct (ldb m q =? 62); [destruct (ldb m (q + 1) =? 62); done|].
  destruct (mem_str symbols (ldb m q)) eqn:Es; [injection Et as Ec _; by rewrite Ec in Es|]. injection Et as <-.
  split_and!; [lia|lia|lia|intros x Hx; by eapply word_loop_chars|apply word_loop_stop; lia].
Qed.

Lemma lexed_length m s n p ts (es := s + n) : is_string m s n → s ≤ p ≤ es → lexed m es p ts → Z.of_nat (length ts) ≤ es - p.
Proof.
  intros (_ & Hend & Hstr) Hp H. fold es in Hend, Hstr. revert Hp. induction H as [p E|p q k e ts E Hq Et H IH]; intros Hp; cbn [length]; [lia|].
  pose proof (skip_space_range m es p ltac:(lia)) as Hr. pose proof (skip_stop m es s Hend p Hp) as Hs. rewrite E in Hr, Hs.
  pose proof (token_range m es s Hend Hstr q ltac:(lia) Hs) as Ht. rewrite Et in Ht. cbn [snd] in Ht. specialize (IH ltac:(lia)). lia.
Qed.

(** * Lines *)

Lemma strlen_string m s n fuel : is_string m s n → (Z.to_nat n < fuel)%nat → Ulib.strlen fuel m s = Some n.
Proof.
  intros (Hn & Hend & Hstr) Hf. unfold Ulib.strlen, CString.strlen. rewrite (strlen_loop_spec fuel m s 0 (Z.to_nat n) Hf).
  - f_equal. lia.
  - intros j Hj. apply Hstr. lia.
  - rewrite <-Hend. f_equal. lia.
Qed.

(** At the end of the line no token is left. *)
Lemma at_end m es s0 p ts : at_tokens m es s0 p ts → (skip_space m es p = es ↔ ts = []).
Proof. intros [Hp H]. split; [intros E|intros ->]; inversion H; subst; done || lia. Qed.

Lemma parsecmd_eq fuel m s n :
  is_string m s n → (Z.to_nat n < fuel)%nat →
  parsecmd fuel s m =
    match parseline m (s + n) fuel s with
    | Ok c p => if negb (skip_space m (s + n) p =? s + n) then Panic "syntax" else Ok c (nulterminate m c)
    | Panic msg => Panic msg
    | Sleep ch _ => Sleep ch m
    | Spin _ => Spin m
    | OutOfFuel => OutOfFuel
    end.
Proof.
  intros Hs Hf. unfold parsecmd. rewrite (strlen_string m s n fuel Hs Hf). cbv zeta. unfold bind at 1.
  destruct (parseline _ _ _ _) as [c p| | | |]; try done.
Qed.

Lemma grammar_parses m s n ts c :
  is_string m s n → lexed m (s + n) s ts → derives Line (erase <$> ts) c →
  ∃ N, ∀ fuel, (N ≤ fuel)%nat → parsecmd fuel s m = Ok c (nulterminate m c).
Proof.
  intros Hs Hl Hd. pose proof Hs as (Hn & Hend & Hstr). assert (Hat : at_tokens m (s + n) s s ts) by (split; [lia|done]).
  destruct (derives_parses m (s + n) s Hend Hstr _ _ _ Hd ts [] s eq_refl) as (N & p & E & Hp); [by rewrite app_nil_r|done|].
  exists (N + Z.to_nat n + 1)%nat. intros fuel Hf. rewrite (parsecmd_eq _ _ _ n), (E fuel fuel) by (done || lia).
  by rewrite (proj2 (at_end _ _ _ _ _ Hp) eq_refl), Z.eqb_refl.
Qed.

(** C13: The shell's parser implements the shell's grammar.  For a line whose
    tokens are [ts], however they are spaced, [parsecmd] returns the command
    [c] exactly if the grammar derives [c] from [ts]; it returns no other. *)
Theorem parse_iff_grammar m s n ts c :
  is_string m s n → lexed m (s + n) s ts →
  ((∃ N, ∀ fuel, (N ≤ fuel)%nat → parsecmd fuel s m = Ok c (nulterminate m c)) ↔ derives Line (erase <$> ts) c).
Proof.
  intros Hs Hl. pose proof Hs as (Hn & Hend & Hstr). assert (Hat : at_tokens m (s + n) s s ts) by (split; [lia|done]). split.
  - intros [N HN]. set (fuel := (N + Z.to_nat n + 8 * length ts + 9)%nat). specialize (HN fuel ltac:(lia)).
    rewrite (parsecmd_eq _ _ _ n) in HN by (done || lia).
    destruct (parse_yields m (s + n) s Hend Hstr (length ts)) as [Hy _]. specialize (Hy ts s fuel ltac:(lia) Hat ltac:(lia)). unfold yields in Hy.
    destruct (parseline _ _ _ _) as [c' p| | | |]; try done. destruct Hy as (ts1 & ts2 & -> & Hp & Hd).
    destruct (Z.eqb_spec (skip_space m (s + n) p) (s + n)) as [E|]; [|done]. injection HN as -> _. apply (at_end _ _ _ _ _ Hp) in E as ->. by rewrite app_nil_r.
  - by apply (grammar_parses m s n ts c).
Qed.

(** C37: The parser returns on every line: with enough fuel, which is linear in
    the length of the line, [parsecmd] ends with a command or with one of the
    shell's error messages. *)
Theorem parse_terminates m s n fuel :
  is_string m s n → (9 * Z.to_nat n + 9 ≤ fuel)%nat →
  match parsecmd fuel s m with Ok _ _ | Panic _ => True | _ => False end.
Proof.
  intros Hs Hf. pose proof Hs as (Hn & Hend & Hstr). destruct (lexed_total m (s + n) s Hend Hstr s ltac:(lia)) as [ts Hl].
  rewrite (parsecmd_eq _ _ _ n) by (done || lia). destruct (parse_yields m (s + n) s Hend Hstr (length ts)) as [Hy _].
  pose proof (lexed_length m s n s ts Hs ltac:(lia) Hl) as Hlen. assert (Hat : at_tokens m (s + n) s s ts) by (split; [lia|done]).
  specialize (Hy ts s fuel ltac:(lia) Hat ltac:(lia)). unfold yields in Hy.
  destruct (parseline _ _ _ _) as [c p| | | |]; try done. by destruct (negb _).
Qed.

(** The words of a command become strings.  After [parsecmd] has returned
    [c], every word of [c] (arguments and files) is followed by a NUL, and the
    characters of the word are those of the line, none of them a NUL: no word
    is cut short by the NUL of another. *)
Theorem words_are_strings m s n ts c q e (m' := nulterminate m c) :
  is_string m s n → lexed m (s + n) s ts → derives Line (erase <$> ts) c → (q, e) ∈ words c →
  s ≤ q < e ∧ e ≤ s + n ∧ ldb m' e = 0 ∧ (∀ x, q ≤ x < e → ldb m' x = ldb m x ∧ ldb m' x ≠ 0) ∧ (∀ x, x < s ∨ s + n < x → ldb m' x = ldb m x).
Proof.
  intros Hs Hl Hd Hw. pose proof Hs as (Hn & Hend & Hstr).
  assert (Hall : ∀ q e, (q, e) ∈ words c → s ≤ q < e ∧ e ≤ s + n ∧ (∀ x, q ≤ x < e → word_char (ldb m x) = true) ∧ (e = s + n ∨ word_char (ldb m e) = false)).
  { intros q' e' Hw'. apply (lexed_words m s n s ts q' e'); [done|lia|done|]. by eapply derives_words. }
  destruct (Hall q e Hw) as (H1 & H2 & H3 & H4). unfold m'. split_and!; try lia.
  - rewrite nulterminate_ldb, decide_True; [done|]. apply list_elem_of_fmap. by exists (q, e).
  - intros x Hx. rewrite nulterminate_ldb, decide_False; [split; [done|apply Hstr; lia]|]. intros ((q' & e') & -> & Hw')%list_elem_of_fmap. cbn [snd] in Hx.
    destruct (Hall q' e' Hw') as (_ & _ & _ & [->|H4']); [lia|]. rewrite (H3 e' Hx) in H4'. done.
  - intros x Hx. rewrite nulterminate_ldb, decide_False; [done|]. intros ((q' & e') & -> & Hw')%list_elem_of_fmap. cbn [snd] in Hx.
    destruct (Hall q' e' Hw') as (? & ? & _). lia.
Qed.

(** * Example *)

(** The tokens of a line, computed. *)
Fixpoint lex (fuel : nat) (m : mem) (es p : Z) : option (list tok) :=
  match fuel with
  | O => None
  | S fuel' =>
      let q := skip_space m es p in
      if q =? es then Some []
      else if q <? es then
        let '(k, e) := token_at m es q in
        (λ ts, (k, q, e) :: ts) <$> lex fuel' m es e
      else None
  end.

Lemma lex_ok fuel m es p ts : lex fuel m es p = Some ts → lexed m es p ts.
Proof.
  revert p ts. induction fuel as [|fuel IH]; intros p ts; cbn [lex]; [done|]. destruct (Z.eqb_spec (skip_space m es p) es) as [E|]; [intros [= <-]; by constructor|].
  destruct (Z.ltb_spec (skip_space m es p) es); [|done]. destruct (token_at m es (skip_space m es p)) as [k e] eqn:Et.
  intros (ts' & Hts & ->)%fmap_Some. econstructor; [done|done|done|by apply IH].
Qed.

(** ls <f& *)
Definition demo_line : mem := mem_write (λ _, 0) 1000 [108; 115; 32; 60; 102; 38].
Definition demo_toks : list tok := [(97, 1000, 1002); (60, 1003, 1004); (97, 1004, 1005); (38, 1005, 1006)].
Definition demo_cmd : cmd := BACK (REDIR (EXEC [(1000, 1002)]) 1004 1005 0 0).

Lemma demo_string : is_string demo_line 1000 6.
Proof.
  split_and!; [lia|done|]. intros x Hx. assert (x = 1000 ∨ x = 1001 ∨ x = 1002 ∨ x = 1003 ∨ x = 1004 ∨ x = 1005) as Hc by lia.
  repeat destruct Hc as [->|Hc]; [..|subst x]; by vm_compute.
Qed.

Lemma demo_lexed : lexed demo_line (1000 + 6) 1000 demo_toks.
Proof. apply (lex_ok 10). by vm_compute. Qed.

Lemma demo_derives : derives Line (erase <$> demo_toks) demo_cmd.
Proof.
  apply d_line, (d_back [Word 1000 1002; Sym 60; Word 1004 1005]), d_pipe, (d_simple 1), (d_redir 1 [Word 1000 1002] _ 60); [|done].
  exact (d_word 0 [] (EXEC []) 1000 1002 d_empty eq_refl).
Qed.

Lemma parse_iff_grammar_witness : ∃ N, ∀ fuel, (N ≤ fuel)%nat → parsecmd fuel 1000 demo_line = Ok demo_cmd (nulterminate demo_line demo_cmd).
Proof. exact (proj2 (parse_iff_grammar demo_line 1000 6 demo_toks demo_cmd demo_string demo_lexed) demo_derives). Defined.

Lemma parse_terminates_witness : match parsecmd 63 1000 demo_line with Ok _ _ | Panic _ => True | _ => False end.
Proof. apply (parse_terminates demo_line 1000 6); [exact demo_string|cbn; lia]. Defined.

Lemma words_are_strings_witness : ldb (nulterminate demo_line demo_cmd) 1005 = 0.
Proof.
  destruct (words_are_strings demo_line 1000 6 demo_toks demo_cmd 1004 1005) as (_ & _ & H & _); [exact demo_string|exact demo_lexed|exact demo_derives| |exact H].
  cbn. right. left.
Defined.
