(* ===== verification/ShRun.v ===== *)
(** user/sh.c: running commands.

    The shell is a tree of system calls: a node is a call and the subtrees are
    what the process does for each result.  After [fork] both the parent and
    the child go on, each with its own result.

    [run] follows all processes of such a tree with a table of descriptors
    each, in a world where the calls succeed, and collects the programs that
    are started and their descriptors.  The theorems: [runcmd] starts exactly
    the programs of the command, connected by its pipes and redirections, and
    leaves none of them a descriptor too many; the shell's [main] makes sure
    that descriptors 0, 1 and 2 are in use. *)

From stdpp Require Import base tactics list numbers strings.
From S2P Require Import Prelude Param Bytes CString Ulib UProg Sh ShGram.
From Stdlib Require Import ZArith Lia.

Open Scope kernel_scope.

(** * Running commands *)

Definition sh_panic (s : list Z) : prog := fprint 2 (s ++ [10]) (PExit 1).

Definition fork1 (k : Z → prog) : prog :=
  PFork (λ pid, if pid =? -1 then sh_panic (str "fork") else k pid).

(** The string at [q]; a line has at most 100 characters. *)
Definition word_at (m : mem) (q : Z) : list Z := cstrn 100 m q.

(** [m] is the memory with the words of the command. *)
Fixpoint runcmd (m : mem) (c : cmd) : prog :=
  match c with
  | EXEC argv =>
      match argv with
      | [] => PExit 1
      | (q, _) :: _ =>
          PExec (word_at m q) ((λ a, word_at m a.1) <$> argv)
            (fprint 2 (str "exec " ++ word_at m q ++ str " failed" ++ [10]) (PExit 0))
      end
  | REDIR c file _ mode fd =>
      PClose fd
        (POpen (word_at m file) mode (λ r,
          if r <? 0 then fprint 2 (str "open " ++ word_at m file ++ str " failed" ++ [10]) (PExit 1)
          else runcmd m c))
  | LIST l r => fork1 (λ pid, if pid =? 0 then runcmd m l else PWait (λ _, runcmd m r))
  | PIPE l r =>
      PPipe (λ e p0 p1,
        if e <? 0 then sh_panic (str "pipe")
        else
          fork1 (λ pid,
            if pid =? 0 then PClose 1 (PDup p1 (PClose p0 (PClose p1 (runcmd m l))))
            else
              fork1 (λ pid,
                if pid =? 0 then PClose 0 (PDup p0 (PClose p0 (PClose p1 (runcmd m r))))
                else PClose p0 (PClose p1 (PWait (λ _, PWait (λ _, PExit 0)))))))
  | BACK c => fork1 (λ pid, if pid =? 0 then runcmd m c else PExit 0)
  end.

(** [n] more characters may come; [acc] are those in [buf].  A read of no
    character is the end of the input. *)
Fixpoint gets_loop (n : nat) (acc : list Z) (k : list Z → prog) : prog :=
  match n with
  | O => k acc
  | S n' =>
      PRead 0 1 (λ bs,
        match bs with
        | [] => k acc
        | c :: _ => if (c =? 10) || (c =? 13) then k (acc ++ [c]) else gets_loop n' (acc ++ [c]) k
        end)
  end.

Definition gets (m : mem) (buf max : Z) (k : mem → prog) : prog :=
  gets_loop (Z.to_nat (max - 1)) [] (λ cs, k (mem_write m buf (cs ++ [0]))).

Definition getcmd (m : mem) (buf nbuf : Z) (k : Z → mem → prog) : prog :=
  PWrite 2 (str "$ ")
    (gets (Ulib.memset m buf 0 nbuf) buf nbuf (λ m, k (if ldb m buf =? 0 then -1 else 0) m)).

(** The start of a line: blanks and tabs are skipped. *)
Fixpoint skip_blanks (n : nat) (m : mem) (p : Z) : Z :=
  match n with
  | O => p
  | S n' => if (ldb m p =? 32) || (ldb m p =? 9) then skip_blanks n' m (p + 1) else p
  end.

(** "Ensure that three file descriptors are open." *)
Fixpoint open_console (fuel : nat) (k : prog) : prog :=
  match fuel with
  | O => PFuel
  | S fuel' =>
      POpen (str "console") O_RDWR (λ fd,
        if fd <? 0 then k else if 3 <=? fd then PClose fd k else open_console fuel' k)
  end.

(** What the child of the shell does with a line; the report of leftovers before
    the panic of [parsecmd] is left out. *)
Definition run_line (pf : nat) (m : mem) (s : Z) : prog :=
  match parsecmd pf s m with
  | Ok c m' => runcmd m' c
  | Panic msg => sh_panic (str msg)
  | _ => PFuel
  end.

Definition is_cd (m : mem) (p : Z) : bool := (ldb m p =? 99) && (ldb m (p + 1) =? 100) && (ldb m (p + 2) =? 32).

(** [pf] is the fuel of the parser, [fuel] the number of lines. *)
Fixpoint command_loop (pf fuel : nat) (m : mem) (buf : Z) : prog :=
  match fuel with
  | O => PFuel
  | S fuel' =>
      getcmd m buf 100 (λ r m,
        if r <? 0 then PExit 0
        else
          let p := skip_blanks 100 m buf in
          if ldb m p =? 10 then command_loop pf fuel' m buf
          else if is_cd m p then
            match Ulib.strlen 101 m p with
            | None => PFuel
            | Some n =>
                let m := stb m (p + n - 1) 0 in
                PChdir (word_at m (p + 3)) (λ r,
                  if r <? 0 then fprint 2 (str "cannot cd " ++ word_at m (p + 3) ++ [10]) (command_loop pf fuel' m buf)
                  else command_loop pf fuel' m buf)
            end
          else fork1 (λ pid, if pid =? 0 then run_line pf m p else PWait (λ _, command_loop pf fuel' m buf)))
  end.

Definition sh_main (pf fuel : nat) (m : mem) (buf : Z) : prog := open_console 4 (command_loop pf fuel m buf).

(** * A world for the shell *)

(** A program that is started: path, arguments, descriptors. *)
Definition started : Type := list Z * list (list Z) * fdtable.

(** The programs started by a process and its children.  [inp] is what is left
    of the input, which the programs that are started leave alone, [np] the
    number of pipes so far.  [None]: a loop was cut off. *)
Fixpoint run (pr : prog) (ft : fdtable) (inp : list Z) (np : nat) : option (list started * nat) :=
  match pr with
  | PExit _ => Some ([], np)
  | PFork k =>
      ' (l1, np) ← run (k 0) ft inp np;
      ' (l2, np) ← run (k 1) ft inp np;
      Some (l1 ++ l2, np)
  | PWait k | PGetpid k => run (k 1) ft inp np
  | PPause _ k => run k ft inp np
  | PMknod _ _ _ k => run (k 0) ft inp np
  | PExec path argv _ => Some ([(path, argv, ft)], np)
  | PClose fd k => run k (fd_close fd ft) inp np
  | POpen path mode k => let '(fd, ft) := fd_new (File path mode) ft in run (k fd) ft inp np
  | PDup fd k =>
      match fd_get fd ft with
      | Some o => run k (fd_new o ft).2 inp np
      | None => run k ft inp np
      end
  | PPipe k =>
      let '(p0, ft1) := fd_new (PipeR np) ft in
      if p0 <? 0 then run (k (-1) 0 0) ft inp np
      else
        let '(p1, ft2) := fd_new (PipeW np) ft1 in
        if p1 <? 0 then run (k (-1) 0 0) ft inp np else run (k 0 p0 p1) ft2 inp (S np)
  | PWrite _ _ k => run k ft inp np
  | PRead _ n k => run (k (take (Z.to_nat n) inp)) ft (drop (Z.to_nat n) inp) np
  | PChdir _ k => run (k 0) ft inp np
  | PFuel => None
  end.

(** What a command means: which programs, with which descriptors. *)
Fixpoint meaning (m : mem) (c : cmd) (ft : fdtable) (np : nat) : list started * nat :=
  match c with
  | EXEC [] => ([], np)
  | EXEC (((q, _) :: _) as argv) => ([(word_at m q, (λ a, word_at m a.1) <$> argv, ft)], np)
  | REDIR c file _ mode fd => meaning m c (<[Z.to_nat fd := Some (File (word_at m file) mode)]> ft) np
  | PIPE l r =>
      let '(l1, np1) := meaning m l (<[1%nat := Some (PipeW np)]> ft) (S np) in
      let '(l2, np2) := meaning m r (<[0%nat := Some (PipeR np)]> ft) np1 in
      (l1 ++ l2, np2)
  | LIST l r =>
      let '(l1, np1) := meaning m l ft np in
      let '(l2, np2) := meaning m r ft np1 in
      (l1 ++ l2, np2)
  | BACK c => meaning m c ft np
  end.

(** Redirections are of descriptors 0 and 1. *)
Fixpoint redirs_ok (c : cmd) : Prop :=
  match c with
  | EXEC _ => True
  | REDIR c _ _ _ fd => (fd = 0 ∨ fd = 1) ∧ redirs_ok c
  | PIPE l r | LIST l r => redirs_ok l ∧ redirs_ok r
  | BACK c => redirs_ok c
  end.

(** Descriptors 0, 1 and 2 are in use, and two more can be had. *)
Definition ready (ft : fdtable) : Prop :=
  ∃ a b, (3 ≤ a < b)%nat ∧ free ft a ∧ free ft b ∧ ∀ i, (i < b)%nat → i ≠ a → used ft i.

(** * Theorems *)

Lemma ready_insert ft i o : ready ft → (i < 3)%nat → ready (<[i := Some o]> ft).
Proof.
  intros (a & b & Hab & Ha & Hb & Hu) Hi. exists a, b. unfold free. rewrite !list_lookup_insert_ne by lia. split_and!; try done; try lia.
  intros j Hj Hne. apply used_insert; [apply used_lt, Hu; lia|right; by apply Hu].
Qed.

(** Closing a standard descriptor and opening another takes its place. *)
Lemma replace_eq ft i o : ready ft → (i < 3)%nat → fd_new o (<[i := None]> ft) = (Z.of_nat i, <[i := Some o]> ft).
Proof.
  intros (a & b & Hab & Ha & Hb & Hu) Hi. pose proof (used_lt _ _ (Hu i ltac:(lia) ltac:(lia))) as Hl.
  rewrite (fd_new_eq o _ i); [by rewrite list_insert_insert_eq|by apply list_lookup_insert_eq|].
  intros j Hj. destruct (Hu j ltac:(lia) ltac:(lia)) as [o' H]. exists o'. by rewrite list_lookup_insert_ne by lia.
Qed.

(** The table of the shell after [pipe]. *)
Definition piped (a b np : nat) (ft : fdtable) : fdtable := <[b := Some (PipeW np)]> (<[a := Some (PipeR np)]> ft).

Lemma piped_ready ft a b np i :
  (3 ≤ a < b)%nat → free ft a → free ft b → (∀ j, (j < b)%nat → j ≠ a → used ft j) → (i < 3)%nat → ∀ o,
  <[b := None]> (<[a := None]> (fd_new o (<[i := None]> (piped a b np ft))).2) = <[i := Some o]> ft.
Proof.
  intros Hab Ha Hb Hu Hi o. unfold free in *. apply lookup_lt_Some in Ha as Hla, Hb as Hlb. unfold piped. rewrite (fd_new_eq o _ i).
  - cbn [snd]. rewrite list_insert_insert_eq. apply list_eq. intros j. rewrite !list_lookup_insert, !length_insert. repeat case_decide; naive_solver lia.
  - unfold free. apply list_lookup_insert_eq. rewrite !length_insert. lia.
  - intros j Hj. destruct (Hu j ltac:(lia) ltac:(lia)) as [o' H]. exists o'. by rewrite !list_lookup_insert_ne by lia.
Qed.

Lemma pipe_eq ft a b np :
  (3 ≤ a < b)%nat → free ft a → free ft b → (∀ j, (j < b)%nat → j ≠ a → used ft j) →
  fd_new (PipeR np) ft = (Z.of_nat a, <[a := Some (PipeR np)]> ft) ∧
  fd_new (PipeW np) (<[a := Some (PipeR np)]> ft) = (Z.of_nat b, piped a b np ft).
Proof.
  intros Hab Ha Hb Hu. unfold free in *. apply lookup_lt_Some in Ha as Hla, Hb as Hlb. split; apply fd_new_eq.
  - done.
  - intros i Hi. apply Hu; lia.
  - unfold free. by rewrite list_lookup_insert_ne by lia.
  - intros i Hi. apply used_insert; [lia|]. destruct (decide (i = a)) as [-> |]; [by left|right; by apply Hu].
Qed.

Lemma run_pipe ft inp np : ready ft → ∃ a b, (3 ≤ a < b)%nat ∧
  (∀ k, run (PPipe k) ft inp np = run (k 0 (Z.of_nat a) (Z.of_nat b)) (piped a b np ft) inp (S np)) ∧
  ∀ i p o k', (i < 3)%nat → (p = a ∧ o = PipeR np ∨ p = b ∧ o = PipeW np) → ∀ np',
  run (PClose (Z.of_nat i) (PDup (Z.of_nat p) (PClose (Z.of_nat a) (PClose (Z.of_nat b) k')))) (piped a b np ft) inp np' =
  run k' (<[i := Some o]> ft) inp np'.
Proof.
  intros (a & b & Hab & Ha & Hb & Hu). exists a, b. split; [done|]. destruct (pipe_eq ft a b np Hab Ha Hb Hu) as [E0 E1]. split.
  - intros k. cbn [run]. rewrite E0. rewrite (proj2 (Z.ltb_ge _ 0)) by lia. rewrite E1. by rewrite (proj2 (Z.ltb_ge _ 0)) by lia.
  - intros i p o k' Hi Hp np'. cbn [run]. rewrite !fd_close_eq. assert (fd_get (Z.of_nat p) (<[i := None]> (piped a b np ft)) = Some o) as ->.
    { unfold fd_get. rewrite (proj2 (Z.ltb_ge _ 0)), Nat2Z.id by lia. unfold free, piped in *. apply lookup_lt_Some in Ha, Hb.
      rewrite list_lookup_insert_ne by lia. destruct Hp as [[-> ->] | [-> ->]].
      - rewrite list_lookup_insert_ne by lia. by rewrite list_lookup_insert_eq.
      - rewrite list_lookup_insert_eq; [done|]. by rewrite length_insert. }
    by rewrite !fd_close_eq, (piped_ready ft a b np i Hab Ha Hb Hu Hi).
Qed.

Lemma run_fork1 k ft inp np :
  run (fork1 k) ft inp np = ' (l1, np1) ← run (k 0) ft inp np; ' (l2, np2) ← run (k 1) ft inp np1; Some (l1 ++ l2, np2).
Proof. done. Qed.

Lemma runcmd_ok m c ft inp np : ready ft → redirs_ok c → run (runcmd m c) ft inp np = Some (meaning m c ft np).
Proof.
  revert ft np. induction c as [argv|c IH file e mode fd|l IHl r IHr|l IHl r IHr|c IH]; intros ft np Hr Hok; cbn [runcmd meaning].
  - destruct argv as [|[q e] argv]; reflexivity.
  - destruct Hok as [Hfd Hok]. assert (∃ i, fd = Z.of_nat i ∧ (i < 3)%nat) as (i & -> & Hi) by (exists (Z.to_nat fd); lia).
    cbn [run]. rewrite fd_close_eq, replace_eq, (proj2 (Z.ltb_ge _ 0)), Nat2Z.id by (done || lia). apply IH; [by apply ready_insert|done].
  - destruct Hok as [Hl Hrr]. destruct (run_pipe ft inp np Hr) as (a & b & Hab & E & Hc). rewrite E. change (0 <? 0) with false. cbv iota.
    rewrite run_fork1. cbn [Z.eqb]. change 1 with (Z.of_nat 1) at 1. rewrite (Hc 1%nat b (PipeW np)) by (lia || by right).
    rewrite IHl by (done || apply ready_insert; done || lia). destruct (meaning m l _ _) as [l1 np1]. cbn [mbind option_bind].
    rewrite run_fork1. cbn [Z.eqb]. change 0 with (Z.of_nat 0) at 1. rewrite (Hc 0%nat a (PipeR np)) by (lia || by left).
    rewrite IHr by (done || apply ready_insert; done || lia). destruct (meaning m r _ _) as [l2 np2]. cbn [mbind option_bind run].
    by rewrite app_nil_r.
  - destruct Hok as [Hl Hrr]. rewrite run_fork1. cbn [Z.eqb]. rewrite IHl by done. destruct (meaning m l _ _) as [l1 np1]. cbn [mbind option_bind run].
    rewrite IHr by done. by destruct (meaning m r _ _) as [l2 np2].
  - rewrite run_fork1. cbn [Z.eqb]. rewrite IH by done. destruct (meaning m c _ _) as [l1 np1]. cbn [mbind option_bind run]. by rewrite app_nil_r.
Qed.

(** [runcmd] starts exactly the programs of the command, each with the
    descriptors the command gives it: those of the shell, with 0 or 1 replaced
    by the redirections around the program and the pipe on its side.  No
    process keeps another end of a pipe, so a reader sees the end of its input
    when the writers are done. *)
Theorem runcmd_spec m c ft inp np : ready ft → redirs_ok c → run (runcmd m c) ft inp np = Some (meaning m c ft np).
Proof. apply runcmd_ok. Qed.

Lemma redirs_push q e c : redirs_ok c → redirs_ok (push_arg q e c).
Proof. induction c; cbn; naive_solver. Qed.

Lemma derives_redirs_ok x ts c : derives x ts c → redirs_ok c.
Proof.
  assert (Hr : ∀ k mode fd, redir_of k = Some (mode, fd) → fd = 0 ∨ fd = 1).
  { intros k mode fd. unfold redir_of. repeat case_match; intros E; try done; injection E as _ <-; auto. }
  induction 1; cbn [redirs_ok]; eauto using redirs_push.
Qed.

(** * The shell's main *)

(** The shell opens the console for those of 0, 1 and 2 that are free. *)
Definition fill (ft : fdtable) : fdtable := imap (λ i o, if decide (o = None ∧ (i < 3)%nat) then Some (File (str "console") O_RDWR) else o) ft.

(** The rest of a table that [fill] makes [ready]. *)
Definition startable (ft : fdtable) : Prop :=
  ∃ a b, (3 ≤ a < b)%nat ∧ free ft a ∧ free ft b ∧ ∀ i, (3 ≤ i < b)%nat → i ≠ a → used ft i.

Lemma fill_ready ft : startable ft → ready (fill ft).
Proof.
  intros (a & b & Hab & Ha & Hb & Hu). exists a, b. split; [done|]. unfold free, used in *. apply lookup_lt_Some in Hb as Hlb.
  unfold fill. split_and!.
  - rewrite list_lookup_imap, Ha. cbn. rewrite decide_False by lia. done.
  - rewrite list_lookup_imap, Hb. cbn. rewrite decide_False by lia. done.
  - intros i Hi Hne. rewrite list_lookup_imap. destruct (decide (i < 3)%nat) as [H3|H3].
    + destruct (lookup_lt_is_Some_2 ft i) as [o Ho]; [lia|]. rewrite Ho. cbn. case_decide; [by eexists|]. destruct o; [by eexists|]. tauto.
    + destruct (Hu i ltac:(lia) Hne) as [o Ho]. rewrite Ho. exists o. cbn. by rewrite decide_False by naive_solver.
Qed.

Lemma fill_id ft : ready ft → fill ft = ft.
Proof.
  intros (a & b & Hab & Ha & Hb & Hu). apply list_eq. intros i. unfold fill. rewrite list_lookup_imap.
  destruct (ft !! i) as [o|] eqn:E; [|done]. cbn. rewrite decide_False; [done|]. intros [-> Hi]. destruct (Hu i ltac:(lia) ltac:(lia)). congruence.
Qed.

Lemma open_last fuel k ft inp np : ready ft → run (open_console (S fuel) k) ft inp np = run k ft inp np.
Proof.
  intros (a & b & Hab & Ha & Hb & Hu). cbn [open_console run]. rewrite (fd_new_eq _ ft a) by (done || intros i Hi; apply Hu; lia).
  rewrite (proj2 (Z.ltb_ge _ 0)), (proj2 (Z.leb_le 3 _)) by lia. cbn [run]. rewrite fd_close_eq, list_insert_insert_eq. by rewrite list_insert_id.
Qed.

Lemma open_next fuel k ft inp np i : (i < 3)%nat → free ft i → (∀ j, (j < i)%nat → used ft j) →
  run (open_console (S fuel) k) ft inp np = run (open_console fuel k) (<[i := Some (File (str "console") O_RDWR)]> ft) inp np.
Proof.
  intros Hi Hf Hu. cbn [open_console run]. rewrite (fd_new_eq _ ft i) by done. rewrite (proj2 (Z.ltb_ge _ 0)) by lia.
  by rewrite (proj2 (Z.leb_gt 3 _)) by lia.
Qed.

Lemma startable_insert ft i o : startable ft → (i < 3)%nat → startable (<[i := Some o]> ft).
Proof.
  intros (a & b & Hab & Ha & Hb & Hu) Hi. exists a, b. unfold free. rewrite !list_lookup_insert_ne by lia. split_and!; try done; try lia.
  intros j Hj Hne. apply used_insert; [apply used_lt, Hu; lia|right; by apply Hu].
Qed.

Lemma fill_insert ft i : free ft i → (i < 3)%nat → fill (<[i := Some (File (str "console") O_RDWR)]> ft) = fill ft.
Proof.
  intros Hf Hi. apply list_eq. intros j. unfold fill. rewrite !list_lookup_imap. unfold free in Hf. apply lookup_lt_Some in Hf as Hl.
  destruct (decide (i = j)) as [<- |].
  - rewrite list_lookup_insert_eq, Hf by done. cbn. rewrite decide_False by naive_solver. by rewrite decide_True.
  - by rewrite list_lookup_insert_ne.
Qed.

(** [i] descriptors are known to be in use, so [3 - i] may have to be opened. *)
Lemma open_console_ok d i fuel k ft inp np :
  i = (3 - d)%nat → (d ≤ 3)%nat → (d < fuel)%nat → startable ft → (∀ j, (j < i)%nat → used ft j) →
  run (open_console fuel k) ft inp np = run k (fill ft) inp np.
Proof.
  revert i fuel ft. induction d as [|d IH]; intros i fuel ft -> Hd Hf Hs Hu; destruct fuel as [|fuel]; try lia.
  - assert (ready ft) as Hr; [|by rewrite open_last, fill_id]. destruct Hs as (a & b & Hab & Ha & Hb & Hu'). exists a, b. split_and!; try done; try lia.
    intros j Hj Hne. destruct (decide (j < 3)%nat); [by apply Hu; lia|apply Hu'; lia].
  - assert (3 - S d < length ft)%nat as Hl. { destruct Hs as (a & b & Hab & Ha & _). unfold free in Ha. apply lookup_lt_Some in Ha. lia. }
    destruct (lookup_lt_is_Some_2 ft _ Hl) as [[o|] Ho].
    + apply (IH (3 - d)%nat); [done|lia|lia|done|]. intros j Hj. destruct (decide (j = 3 - S d)%nat) as [-> |]; [by exists o|apply Hu; lia].
    + rewrite (open_next _ _ _ _ _ (3 - S d)) by (done || lia). rewrite <-(fill_insert ft (3 - S d)) by (done || lia).
      apply (IH (3 - d)%nat); [done|lia|lia|apply startable_insert; [done|lia]|].
      intros j Hj. apply used_insert; [lia|]. destruct (decide (j = 3 - S d)%nat) as [-> |]; [by left|right; apply Hu; lia].
Qed.

(** The characters of a line before its end. *)
Definition line_ok (line : list Z) : Prop := Forall (λ c, 0 < c < 256 ∧ c ≠ 10 ∧ c ≠ 13) line ∧ len line ≤ 98.

(** The memory after [getcmd] has read [line]. *)
Definition line_mem (m : mem) (buf : Z) (line : list Z) : mem := mem_write (Ulib.memset m buf 0 100) buf ((line ++ [10]) ++ [0]).

Lemma gets_line n acc k ft line rest np :
  Forall (λ c, 0 < c < 256 ∧ c ≠ 10 ∧ c ≠ 13) line → (length line < n)%nat →
  run (gets_loop n acc k) ft (line ++ 10 :: rest) np = run (k (acc ++ line ++ [10])) ft rest np.
Proof.
  intros Hl. revert n acc. induction Hl as [|c line [Hc [H10 H13]] Hl IH]; intros n acc Hn; destruct n as [|n]; cbn [length] in Hn; try lia.
  - done.
  - cbn [gets_loop run app]. change (Z.to_nat 1) with 1%nat. cbn [take drop]. rewrite (proj2 (Z.eqb_neq c 10)), (proj2 (Z.eqb_neq c 13)) by done. cbn [orb].
    rewrite IH by lia. by rewrite <-app_assoc.
Qed.

Lemma line_mem_at m buf line i : (i < length line)%nat → line_ok line → ldb (line_mem m buf line) (buf + Z.of_nat i) = default 0 (line !! i).
Proof.
  intros Hi [Hl _]. unfold line_mem. rewrite (ldb_write_in _ _ _ _ i) by (rewrite ?length_app; lia). rewrite !lookup_app_l by (rewrite ?length_app; lia).
  destruct (lookup_lt_is_Some_2 line i Hi) as [c E]. rewrite E. cbn [default].
  eapply Forall_lookup_1 in Hl; [|exact E]. apply u8_byte. cbn. lia.
Qed.

Lemma line_mem_end m buf line : ldb (line_mem m buf line) (buf + len line) = 10 ∧ ldb (line_mem m buf line) (buf + (len line + 1)) = 0.
Proof.
  unfold line_mem, len. split.
  - rewrite (ldb_write_in _ _ _ _ (length line)) by (rewrite ?length_app; cbn; lia). rewrite lookup_app_l by (rewrite length_app; cbn; lia).
    by rewrite lookup_app_r, Nat.sub_diag by lia.
  - rewrite (ldb_write_in _ _ _ _ (S (length line))) by (rewrite ?length_app; cbn; lia). rewrite lookup_app_r by (rewrite length_app; cbn; lia).
    rewrite length_app, Nat.add_comm. by rewrite Nat.sub_diag.
Qed.

Lemma line_string m buf line : line_ok line → is_string (line_mem m buf line) buf (len line + 1).
Proof.
  intros Hl. destruct (line_mem_end m buf line) as [E10 E0]. unfold len in *. split_and!; [lia|done|]. intros x Hx.
  destruct (decide (x = buf + Z.of_nat (length line))) as [-> | Hne]; [rewrite E10; lia|].
  replace x with (buf + Z.of_nat (Z.to_nat (x - buf))) by lia. rewrite line_mem_at by (done || lia). destruct Hl as [Hl _].
  destruct (lookup_lt_is_Some_2 line (Z.to_nat (x - buf))) as [c E]; [lia|]. rewrite E. eapply Forall_lookup_1 in Hl; [|exact E]. cbn. lia.
Qed.

Lemma getcmd_line m buf k ft line rest np : line_ok line →
  run (getcmd m buf 100 k) ft (line ++ 10 :: rest) np = run (k 0 (line_mem m buf line)) ft rest np.
Proof.
  intros Hl. pose proof (line_string m buf line Hl) as (Hn & _ & Hs). specialize (Hs buf ltac:(unfold len in *; lia)). destruct Hl as [Hl Hlen].
  unfold getcmd, gets. cbn [run]. rewrite gets_line by (done || unfold len in *; lia). cbn [app]. fold (line_mem m buf line).
  by rewrite (proj2 (Z.eqb_neq _ 0) Hs).
Qed.

Lemma skip_blanks_range n m p e : p ≤ e → ldb m e = 10 → p ≤ skip_blanks n m p ≤ e.
Proof.
  intros Hp He. revert p Hp. induction n as [|n IH]; intros p Hp; cbn [skip_blanks]; [lia|].
  destruct (_ || _) eqn:E; [|lia]. assert (p ≠ e) by (intros ->; rewrite He in E; done). specialize (IH (p + 1) ltac:(lia)). lia.
Qed.

(** C12: The shell runs a line: with the line [line] next in its input, that
    is neither blank nor a [cd], and whose tokens spell the command [c], it
    reads the line, starts exactly the programs of [c], with descriptors 0, 1
    and 2 in use whatever it was started with, and goes on with the rest of
    the input and its own descriptors as before. *)
Theorem shell_line m buf line rest ft np ts c
    (m1 := line_mem m buf line) (p := skip_blanks 100 m1 buf) :
  line_ok line → startable ft → ldb m1 p ≠ 10 → is_cd m1 p = false →
  lexed m1 (buf + (len line + 1)) p ts → derives Line (erase <$> ts) c →
  ∃ N, ∀ pf fuel, (N ≤ pf)%nat →
  run (sh_main pf (S fuel) m buf) ft (line ++ 10 :: rest) np =
  let '(l1, np1) := meaning (nulterminate m1 c) c (fill ft) np in
  ' (l2, np2) ← run (command_loop pf fuel m1 buf) (fill ft) rest np1; Some (l1 ++ l2, np2).
Proof.
  intros Hl Hst H10 Hcd Hlex Hd. destruct (line_mem_end m buf line) as [E10 _]. pose proof (line_string m buf line Hl) as (Hn & Hend & Hs).
  pose proof (skip_blanks_range 100 m1 buf (buf + len line) ltac:(unfold len in *; lia) E10) as Hp. fold p in Hp.
  assert (Hsp : is_string m1 p (buf + (len line + 1) - p)).
  { split_and!; [lia|by replace (p + _) with (buf + (len line + 1)) by lia|]. intros x Hx. apply Hs. lia. }
  destruct (grammar_parses m1 p (buf + (len line + 1) - p) ts c Hsp) as [N HN]; [by replace (p + _) with (buf + (len line + 1)) by lia|done|].
  exists N. intros pf fuel Hpf. unfold sh_main. rewrite (open_console_ok 3 0) by (done || lia). cbn [command_loop].
  rewrite getcmd_line by done. fold m1. cbv zeta. fold p. change (0 <? 0) with false. cbv iota. rewrite (proj2 (Z.eqb_neq _ 10) H10), Hcd, run_fork1.
  cbn [Z.eqb]. unfold run_line. rewrite HN by done. rewrite runcmd_ok by (by apply fill_ready || by eapply derives_redirs_ok).
  by destruct (meaning _ _ _ _).
Qed.

(** * The statements at work *)

(** ls|wc *)
Definition demo_input : list Z := [108; 115; 124; 119; 99].
Definition demo_pipe : cmd := PIPE (EXEC [(1000, 1002)]) (EXEC [(1003, 1005)]).
Definition demo_fds : fdtable := [Some (Given 0); Some (Given 1); Some (Given 2); None; None].

Lemma runcmd_spec_witness :
  run (runcmd (nulterminate (line_mem (λ _, 0) 1000 demo_input) demo_pipe) demo_pipe) demo_fds [] 0 =
  Some ([([108; 115], [[108; 115]], [Some (Given 0); Some (PipeW 0); Some (Given 2); None; None]);
         ([119; 99], [[119; 99]], [Some (PipeR 0); Some (Given 1); Some (Given 2); None; None])], 1%nat).
Proof.
  rewrite runcmd_spec; [by vm_compute| |done]. exists 3%nat, 4%nat. split_and!; try done; try lia.
  intros i Hi Hne. assert (i = 0 ∨ i = 1 ∨ i = 2)%nat as [-> | [-> | ->]] by lia; by eexists.
Defined.

Lemma demo_input_lexed : lexed (line_mem (λ _, 0) 1000 demo_input) (1000 + (len demo_input + 1)) 1000 [(97, 1000, 1002); (124, 1002, 1003); (97, 1003, 1005)].
Proof. apply (lex_ok 10). by vm_compute. Qed.

Lemma demo_input_derives : derives Line [Word 1000 1002; Sym 124; Word 1003 1005] demo_pipe.
Proof.
  apply d_line, d_pipe, (d_simple_pipe 1 [Word 1000 1002] _ [Word 1003 1005] _); [|apply (d_simple 1)].
  - exact (d_word 0 [] (EXEC []) 1000 1002 d_empty eq_refl).
  - exact (d_word 0 [] (EXEC []) 1003 1005 d_empty eq_refl).
Qed.

(** Started with descriptor 0 closed. *)
Lemma shell_line_witness : ∃ N, ∀ pf fuel, (N ≤ pf)%nat →
  run (sh_main pf (S fuel) (λ _, 0) 1000) (None :: drop 1 demo_fds) (demo_input ++ 10 :: []) 0 =
  let '(l1, np1) := meaning (nulterminate (line_mem (λ _, 0) 1000 demo_input) demo_pipe) demo_pipe (fill (None :: drop 1 demo_fds)) 0 in
  ' (l2, np2) ← run (command_loop pf fuel (line_mem (λ _, 0) 1000 demo_input) 1000) (fill (None :: drop 1 demo_fds)) [] np1; Some (l1 ++ l2, np2).
Proof.
  apply (shell_line (λ _, 0) 1000 demo_input [] _ 0 [(97, 1000, 1002); (124, 1002, 1003); (97, 1003, 1005)] demo_pipe).
  - split; [unfold demo_input; rewrite !Forall_cons, Forall_nil; split_and!; try done|vm_compute; discriminate].
  - exists 3%nat, 4%nat. split_and!; try done; try lia; intros; lia.
  - by vm_compute.
  - by vm_compute.
  - exact demo_input_lexed.
  - exact demo_input_derives.
Defined.
