(* ===== verification/PingPong.v ===== *)
(** user/pingpong.c, and processes that run side by side.

    A world has processes, each a program with its descriptors, the queues of
    the pipes, and what was written to the console.  A step is a system call of
    one of the processes, whichever; a call that has to wait is no step.

    The theorem: in every interleaving, [pingpong] prints its two lines in
    order, is never stuck, and ends. *)

From stdpp Require Import base tactics list numbers strings relations.
From S2P Require Import Prelude Param Bytes CString Printf Ulib UProg.
From Stdlib Require Import ZArith Lia.

Open Scope kernel_scope.

(** * The program *)

(** [buf\[n\] = 0]: the string that was read ([n] is less than [sizeof(buf)]:
    the messages have four bytes). *)
Fixpoint until_nul (bs : list Z) : list Z :=
  match bs with
  | [] => []
  | b :: bs' => if b =? 0 then [] else b :: until_nul bs'
  end.

Definition received (pid : Z) (buf : list Z) : list Z :=
  vprintf_chars (str "%d: received %s" ++ [10]) [Word pid; Str buf].

(** [if (n > 0) { buf\[n\] = 0; printf(...); }] *)
Definition show (bs : list Z) (k : prog) : prog :=
  if 0 <? len bs then PGetpid (λ pid, fprint 1 (received pid (until_nul bs)) k) else k.

(** [a0], [a1] are the ends of [p2c], [b0], [b1] those of [c2p]. *)
Definition pp_child (a0 a1 b0 b1 : Z) : prog :=
  PClose a1 (PClose b0 (PRead a0 16 (λ bs, show bs (PWrite b1 (str "pong") (PClose a0 (PClose b1 (PExit 0))))))).

Definition pp_parent (a0 a1 b0 b1 : Z) : prog :=
  PClose a0 (PClose b1 (PWrite a1 (str "ping") (PRead b0 16 (λ bs, show bs (PClose a1 (PClose b0 (PWait (λ _, PExit 0)))))))).

Definition pp_fork (a0 a1 b0 b1 : Z) : prog :=
  PFork (λ pid,
    if pid <? 0 then fprint 2 (str "fork failed" ++ [10]) (PExit 1)
    else if pid =? 0 then pp_child a0 a1 b0 b1
    else pp_parent a0 a1 b0 b1).

Definition pp_pipe (k : Z → Z → prog) : prog :=
  PPipe (λ r p0 p1, if r <? 0 then fprint 2 (str "pipe failed" ++ [10]) (PExit 1) else k p0 p1).

Definition pingpong : prog := pp_pipe (λ a0 a1, pp_pipe (λ b0 b1, pp_fork a0 a1 b0 b1)).

(** * Worlds *)

Inductive ustate : Type := Running (p : prog) | Zombie | Gone.

Record uproc := mkuproc { u_pid : Z; u_parent : Z; u_state : ustate; u_fds : fdtable }.

Record world := mkworld { w_procs : list uproc; w_pipes : list (list Z); w_out : list Z; w_next : Z }.

(** Process [i] goes on with [st] and the descriptors [ft]. *)
Definition goes (i : nat) (st : ustate) (ft : fdtable) (w : world) : world :=
  mkworld (alter (λ x, mkuproc (u_pid x) (u_parent x) st ft) i (w_procs w)) (w_pipes w) (w_out w) (w_next w).

Definition set_pipe (n : nat) (q : list Z) (w : world) : world := mkworld (w_procs w) (<[n := q]> (w_pipes w)) (w_out w) (w_next w).
Definition print (bs : list Z) (w : world) : world := mkworld (w_procs w) (w_pipes w) (w_out w ++ bs) (w_next w).

Definition is_writer (n : nat) (o : option obj) : bool := match o with Some (PipeW m) => m =? n | _ => false end%nat.
Definition has_writer (n : nat) (w : world) : bool := existsb (λ x, existsb (is_writer n) (u_fds x)) (w_procs w).

Definition zombie_child (pid : Z) (x : uproc) : bool := (u_parent x =? pid) && match u_state x with Zombie => true | _ => false end.
Definition live_child (pid : Z) (x : uproc) : bool := (u_parent x =? pid) && match u_state x with Running _ => true | _ => false end.

(** The index of the first zombie child. *)
Fixpoint find_zombie (pid : Z) (i : nat) (l : list uproc) : option (nat * Z) :=
  match l with
  | [] => None
  | x :: l' => if zombie_child pid x then Some (i, u_pid x) else find_zombie pid (S i) l'
  end.

(** The next system call of process [i]; [None]: it has to wait, or is done,
    or the call is not one of those this program makes (a read of something
    else than a pipe, a write of more bytes than the pipe has room for, and
    the calls not listed), for which there is no meaning here. *)
Definition step (w : world) (i : nat) : option world :=
  x ← w_procs w !! i;
  let go st := goes i (Running st) (u_fds x) w in
  match u_state x with
  | Zombie | Gone => None
  | Running p =>
      match p with
      | PExit _ => Some (goes i Zombie [] w)
      | PFork k =>
          let w' := goes i (Running (k (w_next w))) (u_fds x) w in
          Some (mkworld (w_procs w' ++ [mkuproc (w_next w) (u_pid x) (Running (k 0)) (u_fds x)]) (w_pipes w) (w_out w) (w_next w + 1))
      | PWait k =>
          match find_zombie (u_pid x) 0 (w_procs w) with
          | Some (j, pid) => Some (goes i (Running (k pid)) (u_fds x) (goes j Gone [] w))
          | None => if existsb (live_child (u_pid x)) (w_procs w) then None else Some (go (k (-1)))
          end
      | PGetpid k => Some (go (k (u_pid x)))
      | PClose fd k => Some (goes i (Running k) (fd_close fd (u_fds x)) w)
      | PPipe k =>
          let n := length (w_pipes w) in
          let '(p0, ft1) := fd_new (PipeR n) (u_fds x) in
          let '(p1, ft2) := fd_new (PipeW n) ft1 in
          if (p0 <? 0) || (p1 <? 0) then Some (go (k (-1) 0 0))
          else Some (goes i (Running (k 0 p0 p1)) ft2 (mkworld (w_procs w) (w_pipes w ++ [[]]) (w_out w) (w_next w)))
      | PWrite fd bs k =>
          match fd_get fd (u_fds x) with
          | Some (PipeW n) =>
              let q := default [] (w_pipes w !! n) in
              if len q + len bs <=? 512 then Some (goes i (Running k) (u_fds x) (set_pipe n (q ++ bs) w)) else None
          | Some (Given _) => Some (goes i (Running k) (u_fds x) (print bs w))
          | _ => None
          end
      | PRead fd n k =>
          match fd_get fd (u_fds x) with
          | Some (PipeR m) =>
              let q := default [] (w_pipes w !! m) in
              if len q =? 0 then (if has_writer m w then None else Some (go (k [])))
              else Some (goes i (Running (k (take (Z.to_nat n) q))) (u_fds x) (set_pipe m (drop (Z.to_nat n) q) w))
          | _ => None
          end
      | _ => None
      end
  end.

Definition steps_to (w w' : world) : Prop := ∃ i, step w i = Some w'.

(** The program alone, as process [pid]; the next process will be [next]. *)
Definition pp_start (pid next : Z) : world :=
  mkworld [mkuproc pid 1 (Running pingpong) ([Some (Given 0); Some (Given 1); Some (Given 2)] ++ replicate 13 None)] [] [] next.

(** * The stages *)

Section pingpong.
  Context (P C : Z) (HC : 0 < C).

(** What the two print. *)
Definition child_line : list Z := received C (str "ping").
Definition parent_line : list Z := received P (str "pong").

Definition T0 : fdtable := [Some (Given 0); Some (Given 1); Some (Given 2); Some (PipeR 0); Some (PipeW 0); Some (PipeR 1); Some (PipeW 1)] ++ replicate 9 None.
(** The tables when the ends of the other side are closed. *)
Definition TC : fdtable := fd_close 5 (fd_close 4 T0).
Definition TP : fdtable := fd_close 6 (fd_close 3 T0).

Definition c_end : prog := PClose 3 (PClose 6 (PExit 0)).
Definition c_pong : prog := PWrite 6 (str "pong") c_end.
Definition c_read : prog := PRead 3 16 (λ bs, show bs c_pong).
Definition p_end : prog := PClose 4 (PClose 5 (PWait (λ _, PExit 0))).
Definition p_read : prog := PRead 5 16 (λ bs, show bs p_end).

(** Parent and child, the queues, the console. *)
Definition W (sp : ustate) (fp : fdtable) (sc : ustate) (fc : fdtable) (q1 q2 out : list Z) : world :=
  mkworld [mkuproc P 1 sp fp; mkuproc C P sc fc] [q1; q2] out (C + 1).

(** The stages of a process, with its descriptors and the number of steps it
    still has to make. *)
Inductive c_early : prog → fdtable → nat → Prop :=
  | ce1 : c_early (pp_child 3 4 5 6) T0 (8 + length child_line)
  | ce2 : c_early (PClose 5 c_read) (fd_close 4 T0) (7 + length child_line)
  | ce3 : c_early c_read TC (6 + length child_line).

Inductive c_show : prog → nat → list Z → Prop :=
  | cs_get : c_show (PGetpid (λ pid, fprint 1 (received pid (str "ping")) c_pong)) (5 + length child_line) []
  | cs_print done rest : child_line = done ++ rest → c_show (fprint 1 rest c_pong) (4 + length rest) done.

Inductive c_late : ustate → fdtable → nat → Prop :=
  | cl1 : c_late (Running c_end) TC 3
  | cl2 : c_late (Running (PClose 6 (PExit 0))) (fd_close 3 TC) 2
  | cl3 : c_late (Running (PExit 0)) (fd_close 6 (fd_close 3 TC)) 1
  | cl4 : c_late Zombie [] 0.

Inductive p_early : prog → fdtable → nat → Prop :=
  | pe1 : p_early (pp_parent 3 4 5 6) T0 (9 + length parent_line)
  | pe2 : p_early (PClose 6 (PWrite 4 (str "ping") p_read)) (fd_close 3 T0) (8 + length parent_line)
  | pe3 : p_early (PWrite 4 (str "ping") p_read) TP (7 + length parent_line).

Inductive p_show : prog → nat → list Z → Prop :=
  | ps_get : p_show (PGetpid (λ pid, fprint 1 (received pid (str "pong")) p_end)) (5 + length parent_line) []
  | ps_print done rest : parent_line = done ++ rest → p_show (fprint 1 rest p_end) (4 + length rest) done.

Inductive p_tail : prog → fdtable → nat → Prop :=
  | pt1 : p_tail (PClose 5 (PWait (λ _, PExit 0))) (fd_close 4 TP) 3
  | pt2 : p_tail (PWait (λ _, PExit 0)) (fd_close 5 (fd_close 4 TP)) 2.

(** The worlds of the first steps. *)
Definition w_pipe : world :=
  mkworld [mkuproc P 1 (Running (pp_pipe (λ b0 b1, pp_fork 3 4 b0 b1))) ([Some (Given 0); Some (Given 1); Some (Given 2); Some (PipeR 0); Some (PipeW 0)] ++ replicate 11 None)] [[]] [] C.
Definition w_fork : world := mkworld [mkuproc P 1 (Running (pp_fork 3 4 5 6)) T0] [[]; []] [] C.

(** The worlds that can come about; the number bounds the steps to come. *)
Inductive inv : nat → world → Prop :=
  | i_start : inv (20 + length child_line + length parent_line) (pp_start P C)
  | i_pipe : inv (19 + length child_line + length parent_line) w_pipe
  | i_pipes : inv (18 + length child_line + length parent_line) w_fork
  | i_early p fp rp c fc rc : p_early p fp rp → c_early c fc rc → inv (rp + rc) (W (Running p) fp (Running c) fc [] [] [])
  | i_sent c fc rc : c_early c fc rc → inv (6 + length parent_line + rc) (W (Running p_read) TP (Running c) fc (str "ping") [] [])
  | i_show c rc out : c_show c rc out → inv (6 + length parent_line + rc) (W (Running p_read) TP (Running c) TC [] [] out)
  | i_back sc fc rc : c_late sc fc rc → inv (6 + length parent_line + rc) (W (Running p_read) TP sc fc [] (str "pong") child_line)
  | i_reply p rp out sc fc rc : p_show p rp out → c_late sc fc rc → inv (rp + rc) (W (Running p) TP sc fc [] [] (child_line ++ out))
  | i_tail p fp rp sc fc rc : p_tail p fp rp → c_late sc fc rc → inv (rp + rc) (W (Running p) fp sc fc [] [] (child_line ++ parent_line))
  | i_reaped fp : inv 1 (W (Running (PExit 0)) fp Gone [] [] [] (child_line ++ parent_line))
  | i_done : inv 0 (W Zombie [] Gone [] [] [] (child_line ++ parent_line)).

(** * Steps of the two *)

Section steps.
  Context (sp sc : ustate) (fp fc : fdtable) (q1 q2 out : list Z).

Lemma st_close0 fd k : step (W (Running (PClose fd k)) fp sc fc q1 q2 out) 0 = Some (W (Running k) (fd_close fd fp) sc fc q1 q2 out).
Proof. done. Qed.

Lemma st_close1 fd k : step (W sp fp (Running (PClose fd k)) fc q1 q2 out) 1 = Some (W sp fp (Running k) (fd_close fd fc) q1 q2 out).
Proof. done. Qed.

Lemma st_exit0 n : step (W (Running (PExit n)) fp sc fc q1 q2 out) 0 = Some (W Zombie [] sc fc q1 q2 out).
Proof. done. Qed.

Lemma st_exit1 n : step (W sp fp (Running (PExit n)) fc q1 q2 out) 1 = Some (W sp fp Zombie [] q1 q2 out).
Proof. done. Qed.

Lemma st_get0 k : step (W (Running (PGetpid k)) fp sc fc q1 q2 out) 0 = Some (W (Running (k P)) fp sc fc q1 q2 out).
Proof. done. Qed.

Lemma st_get1 k : step (W sp fp (Running (PGetpid k)) fc q1 q2 out) 1 = Some (W sp fp (Running (k C)) fc q1 q2 out).
Proof. done. Qed.

Lemma st_print0 bs k : step (W (Running (PWrite 1 bs k)) TP sc fc q1 q2 out) 0 = Some (W (Running k) TP sc fc q1 q2 (out ++ bs)).
Proof. done. Qed.

Lemma st_print1 bs k : step (W sp fp (Running (PWrite 1 bs k)) TC q1 q2 out) 1 = Some (W sp fp (Running k) TC q1 q2 (out ++ bs)).
Proof. done. Qed.

Lemma st_ping : step (W (Running (PWrite 4 (str "ping") p_read)) TP sc fc [] q2 out) 0 = Some (W (Running p_read) TP sc fc (str "ping") q2 out).
Proof. done. Qed.

Lemma st_pong : step (W sp fp (Running c_pong) TC q1 [] out) 1 = Some (W sp fp (Running c_end) TC q1 (str "pong") out).
Proof. done. Qed.

Lemma st_read1 : step (W sp fp (Running c_read) TC (str "ping") q2 out) 1 =
  Some (W sp fp (Running (PGetpid (λ pid, fprint 1 (received pid (str "ping")) c_pong))) TC [] q2 out).
Proof. done. Qed.

Lemma st_read0 : step (W (Running p_read) TP sc fc q1 (str "pong") out) 0 =
  Some (W (Running (PGetpid (λ pid, fprint 1 (received pid (str "pong")) p_end))) TP sc fc q1 [] out).
Proof. done. Qed.

Lemma st_other i : (2 ≤ i)%nat → step (W sp fp sc fc q1 q2 out) i = None.
Proof. intros Hi. destruct i as [|[|i]]; [lia|lia|done]. Qed.

Lemma st_wait_zombie k : step (W (Running (PWait k)) fp Zombie fc q1 q2 out) 0 = Some (W (Running (k C)) fp Gone [] q1 q2 out).
Proof. unfold step, W. cbn -[Z.eqb]. unfold zombie_child. cbn -[Z.eqb]. by rewrite andb_false_r, Z.eqb_refl. Qed.

Lemma st_wait_running k c : step (W (Running (PWait k)) fp (Running c) fc q1 q2 out) 0 = None.
Proof. unfold step, W. cbn -[Z.eqb]. unfold zombie_child, live_child. cbn -[Z.eqb]. by rewrite !andb_false_r, Z.eqb_refl, orb_true_r. Qed.

Lemma st_wait1 p rp : p_early p fp rp → step (W sp fp (Running c_read) TC [] q2 out) 1 = None.
Proof. by destruct 1. Qed.

Lemma st_wait0 c rc : c_early c fc rc → step (W (Running p_read) TP sc fc q1 [] out) 0 = None.
Proof. by destruct 1. Qed.

Lemma st_wait0_show : step (W (Running p_read) TP sc TC q1 [] out) 0 = None.
Proof. done. Qed.
End steps.

Lemma st_alone x q out nx i : (1 ≤ i)%nat → step (mkworld [x] q out nx) i = None.
Proof. intros Hi. destruct i as [|i]; [lia|]. reflexivity. Qed.

Lemma st_start : step (pp_start P C) 0 = Some w_pipe.
Proof. reflexivity. Qed.

Lemma st_pipe : step w_pipe 0 = Some w_fork.
Proof. reflexivity. Qed.

Lemma st_fork : step w_fork 0 = Some (W (Running (pp_parent 3 4 5 6)) T0 (Running (pp_child 3 4 5 6)) T0 [] [] []).
Proof. unfold step, w_fork, pp_fork. cbn -[Z.ltb Z.eqb Z.add]. rewrite (proj2 (Z.ltb_ge C 0)), (proj2 (Z.eqb_neq C 0)) by lia. reflexivity. Qed.

Lemma c_early_step sp fp q2 out c fc rc w : c_early c fc rc → step (W sp fp (Running c) fc [] q2 out) 1 = Some w → (∃ p rp, p_early p fp rp) →
  ∃ c' fc' rc', w = W sp fp (Running c') fc' [] q2 out ∧ c_early c' fc' rc' ∧ (rc' < rc)%nat.
Proof.
  intros Hc E (p & rp & Hp). destruct Hc.
  - unfold pp_child in E. rewrite st_close1 in E. injection E as <-. eexists _, _, _. split_and!; [done|constructor|lia].
  - rewrite st_close1 in E. injection E as <-. eexists _, _, _. split_and!; [done|constructor|lia].
  - by rewrite (st_wait1 _ _ _ _ p rp) in E.
Qed.

Lemma c_late_step sp fp q1 q2 out sc fc rc w : c_late sc fc rc → step (W sp fp sc fc q1 q2 out) 1 = Some w →
  ∃ sc' fc' rc', w = W sp fp sc' fc' q1 q2 out ∧ c_late sc' fc' rc' ∧ (rc' < rc)%nat.
Proof.
  intros Hc E. destruct Hc; [unfold c_end in E; rewrite st_close1 in E|rewrite st_close1 in E|rewrite st_exit1 in E|discriminate]; injection E as <-;
    eexists _, _, _; (split_and!; [done|constructor|lia]).
Qed.

Lemma p_early_step p fp rp c fc rc w : p_early p fp rp → c_early c fc rc → step (W (Running p) fp (Running c) fc [] [] []) 0 = Some w →
  ∃ n, (n < rp + rc)%nat ∧ inv n w.
Proof.
  intros Hp Hc E. destruct Hp.
  - unfold pp_parent in E. rewrite st_close0 in E. injection E as <-. eexists. split; [|by apply i_early; [constructor|]]. lia.
  - rewrite st_close0 in E. injection E as <-. eexists. split; [|by apply i_early; [constructor|]]. lia.
  - rewrite st_ping in E. injection E as <-. eexists. split; [|by apply i_sent]. lia.
Qed.

Lemma sent_step c fc rc w : c_early c fc rc → step (W (Running p_read) TP (Running c) fc (str "ping") [] []) 1 = Some w →
  ∃ n, (n < 6 + length parent_line + rc)%nat ∧ inv n w.
Proof.
  intros Hc E. destruct Hc.
  - unfold pp_child in E. rewrite st_close1 in E. injection E as <-. eexists. split; [|apply i_sent; constructor]. lia.
  - rewrite st_close1 in E. injection E as <-. eexists. split; [|apply i_sent; constructor]. lia.
  - rewrite st_read1 in E. injection E as <-. eexists. split; [|apply i_show; constructor]. lia.
Qed.

Lemma st_line1 sp fp fc q1 q2 out : step (W sp fp (Running (PGetpid (λ pid, fprint 1 (received pid (str "ping")) c_pong))) fc q1 q2 out) 1 =
  Some (W sp fp (Running (fprint 1 child_line c_pong)) fc q1 q2 out).
Proof. exact (st_get1 sp fp fc q1 q2 out (λ pid, fprint 1 (received pid (str "ping")) c_pong)). Qed.

Lemma st_line0 sc fp fc q1 q2 out : step (W (Running (PGetpid (λ pid, fprint 1 (received pid (str "pong")) p_end))) fp sc fc q1 q2 out) 0 =
  Some (W (Running (fprint 1 parent_line p_end)) fp sc fc q1 q2 out).
Proof. exact (st_get0 sc fp fc q1 q2 out (λ pid, fprint 1 (received pid (str "pong")) p_end)). Qed.

Lemma show_step c rc out w : c_show c rc out → step (W (Running p_read) TP (Running c) TC [] [] out) 1 = Some w →
  ∃ n, (n < 6 + length parent_line + rc)%nat ∧ inv n w.
Proof.
  intros Hc E. destruct Hc as [|dn rest Hm].
  - rewrite st_line1 in E. injection E as <-. eexists. split; [|exact (i_show _ _ _ (cs_print [] child_line eq_refl))]. lia.
  - destruct rest as [|b rest].
    + change (fprint 1 [] c_pong) with c_pong in E. rewrite st_pong in E. injection E as <-. rewrite app_nil_r in Hm. subst dn.
      eexists. split; [|exact (i_back _ _ _ cl1)]. cbn [length]. lia.
    + change (fprint 1 (b :: rest) c_pong) with (PWrite 1 [b] (fprint 1 rest c_pong)) in E. rewrite st_print1 in E. injection E as <-.
      rewrite cons_middle, app_assoc in Hm. eexists. split; [|exact (i_show _ _ _ (cs_print (dn ++ [b]) rest Hm))]. cbn [length]. lia.
Qed.

Lemma reply_step p rp out sc fc rc w : p_show p rp out → c_late sc fc rc → step (W (Running p) TP sc fc [] [] (child_line ++ out)) 0 = Some w →
  ∃ n, (n < rp + rc)%nat ∧ inv n w.
Proof.
  intros Hp Hc E. destruct Hp as [|dn rest Hm].
  - rewrite st_line0 in E. injection E as <-. eexists. split; [|exact (i_reply _ _ _ _ _ _ (ps_print [] parent_line eq_refl) Hc)]. lia.
  - destruct rest as [|b rest].
    + change (fprint 1 [] p_end) with p_end in E. unfold p_end in E. rewrite st_close0 in E. injection E as <-. rewrite app_nil_r in Hm. subst dn.
      eexists. split; [|exact (i_tail _ _ _ _ _ _ pt1 Hc)]. cbn [length]. lia.
    + change (fprint 1 (b :: rest) p_end) with (PWrite 1 [b] (fprint 1 rest p_end)) in E. rewrite st_print0 in E. injection E as <-.
      rewrite cons_middle, app_assoc in Hm. rewrite <-app_assoc. eexists. split; [|exact (i_reply _ _ _ _ _ _ (ps_print (dn ++ [b]) rest Hm) Hc)]. cbn [length]. lia.
Qed.

Lemma tail_step p fp rp sc fc rc w : p_tail p fp rp → c_late sc fc rc → step (W (Running p) fp sc fc [] [] (child_line ++ parent_line)) 0 = Some w →
  ∃ n, (n < rp + rc)%nat ∧ inv n w.
Proof.
  intros Hp Hc E. destruct Hp.
  - rewrite st_close0 in E. injection E as <-. eexists. split; [|by apply i_tail; [constructor|]]. lia.
  - destruct Hc; try (by rewrite st_wait_running in E). rewrite st_wait_zombie in E. injection E as <-. eexists. split; [|apply i_reaped]. lia.
Qed.

Lemma pp_inv_step n w i w' : inv n w → step w i = Some w' → ∃ n', (n' < n)%nat ∧ inv n' w'.
Proof.
  intros Hi E. destruct Hi as [| | |p fp rp c fc rc Hp Hc|c fc rc Hc|c rc out Hc|sc fc rc Hc|p rp out sc fc rc Hp Hc|p fp rp sc fc rc Hp Hc|fp|].
  1-3: destruct i as [|i]; [|unfold pp_start, w_pipe, w_fork in E; by rewrite st_alone in E by lia].
  - rewrite st_start in E. injection E as <-. eexists. split; [|apply i_pipe]. lia.
  - rewrite st_pipe in E. injection E as <-. eexists. split; [|apply i_pipes]. lia.
  - rewrite st_fork in E. injection E as <-. eexists. split; [|apply i_early; constructor]. lia.
  - destruct i as [|[|i]]; [by eapply p_early_step| |by rewrite st_other in E by lia].
    destruct (c_early_step _ _ _ _ _ _ _ _ Hc E) as (c' & fc' & rc' & -> & Hc' & Hlt); [by eexists _, _|]. eexists. split; [|by apply i_early]. lia.
  - destruct i as [|[|i]]; [by rewrite (st_wait0 _ _ _ _ c rc) in E|by eapply sent_step|by rewrite st_other in E by lia].
  - destruct i as [|[|i]]; [by rewrite st_wait0_show in E|by eapply show_step|by rewrite st_other in E by lia].
  - destruct i as [|[|i]]; [| |by rewrite st_other in E by lia].
    + rewrite st_read0 in E. injection E as <-. rewrite <-(app_nil_r child_line). eexists. split; [|by apply i_reply; [constructor|]]. lia.
    + destruct (c_late_step _ _ _ _ _ _ _ _ _ Hc E) as (sc' & fc' & rc' & -> & Hc' & Hlt). eexists. split; [|by apply i_back]. lia.
  - destruct i as [|[|i]]; [by eapply reply_step| |by rewrite st_other in E by lia].
    destruct (c_late_step _ _ _ _ _ _ _ _ _ Hc E) as (sc' & fc' & rc' & -> & Hc' & Hlt). eexists. split; [|by apply i_reply]. lia.
  - destruct i as [|[|i]]; [by eapply tail_step| |by rewrite st_other in E by lia].
    destruct (c_late_step _ _ _ _ _ _ _ _ _ Hc E) as (sc' & fc' & rc' & -> & Hc' & Hlt). eexists. split; [|by apply i_tail]. lia.
  - destruct i as [|[|i]]; [|discriminate|by rewrite st_other in E by lia]. rewrite st_exit0 in E. injection E as <-. eexists. split; [|apply i_done]. lia.
  - destruct i as [|[|i]]; [discriminate|discriminate|by rewrite st_other in E by lia].
Qed.

(** Until both have ended, one of the two can go on. *)
Lemma p_early_goes p fp rp c fc : p_early p fp rp → ∃ w, step (W (Running p) fp (Running c) fc [] [] []) 0 = Some w.
Proof.
  intros Hp. destruct Hp; eexists; [unfold pp_parent|..]; [apply st_close0|apply st_close0|apply st_ping].
Qed.

Lemma c_late_goes sp fp q1 q2 out sc fc rc : c_late sc fc rc → (∃ w, step (W sp fp sc fc q1 q2 out) 1 = Some w) ∨ sc = Zombie ∧ fc = [].
Proof.
  intros Hc. destruct Hc; [left|left|left|by right]; eexists; [unfold c_end|..]; [apply st_close1|apply st_close1|apply st_exit1].
Qed.

Lemma c_early_goes c fc rc : c_early c fc rc → ∃ w, step (W (Running p_read) TP (Running c) fc (str "ping") [] []) 1 = Some w.
Proof.
  intros Hc. destruct Hc; eexists; [unfold pp_child|..]; [apply st_close1|apply st_close1|apply st_read1].
Qed.

Lemma c_show_goes c rc out : c_show c rc out → ∃ w, step (W (Running p_read) TP (Running c) TC [] [] out) 1 = Some w.
Proof.
  intros Hc. destruct Hc as [|dn [|b rest] Hm]; eexists; [apply st_line1|apply st_pong|].
  change (fprint 1 (b :: rest) c_pong) with (PWrite 1 [b] (fprint 1 rest c_pong)). apply st_print1.
Qed.

Lemma p_show_goes p rp out sc fc o : p_show p rp out → ∃ w, step (W (Running p) TP sc fc [] [] o) 0 = Some w.
Proof.
  intros Hp. destruct Hp as [|dn [|b rest] Hm]; eexists; [apply st_line0| |].
  - change (fprint 1 [] p_end) with p_end. unfold p_end. apply st_close0.
  - change (fprint 1 (b :: rest) p_end) with (PWrite 1 [b] (fprint 1 rest p_end)). apply st_print0.
Qed.

Lemma p_tail_goes p fp rp sc fc rc o : p_tail p fp rp → c_late sc fc rc → ∃ i w, step (W (Running p) fp sc fc [] [] o) i = Some w.
Proof.
  intros Hp Hc. destruct Hp; [eexists 0%nat, _; apply st_close0|].
  destruct (c_late_goes (Running (PWait (λ _, PExit 0))) (fd_close 5 (fd_close 4 TP)) [] [] o _ _ _ Hc) as [(w & E) | [-> ->]].
  - by exists 1%nat, w.
  - eexists 0%nat, _. apply st_wait_zombie.
Qed.

Lemma inv_goes n w : inv n w → (∃ i w', step w i = Some w') ∨ w = W Zombie [] Gone [] [] [] (child_line ++ parent_line).
Proof.
  intros Hi. destruct Hi as [| | |p fp rp c fc rc Hp Hc|c fc rc Hc|c rc out Hc|sc fc rc Hc|p rp out sc fc rc Hp Hc|p fp rp sc fc rc Hp Hc|fp|]; [left..|by right].
  - exists 0%nat, w_pipe. apply st_start.
  - exists 0%nat, w_fork. apply st_pipe.
  - eexists 0%nat, _. apply st_fork.
  - destruct (p_early_goes _ _ _ c fc Hp) as (w & E). by exists 0%nat, w.
  - destruct (c_early_goes _ _ _ Hc) as (w & E). by exists 1%nat, w.
  - destruct (c_show_goes _ _ _ Hc) as (w & E). by exists 1%nat, w.
  - eexists 0%nat, _. apply st_read0.
  - destruct (p_show_goes _ _ _ sc fc (child_line ++ out) Hp) as (w & E). by exists 0%nat, w.
  - by eapply p_tail_goes.
  - eexists 0%nat, _. apply st_exit0.
Qed.

(** The console shows the start of the two lines. *)
Lemma inv_out n w : inv n w → w_out w `prefix_of` child_line ++ parent_line.
Proof.
  intros Hi. destruct Hi as [| | | | |c rc out Hc| |p rp out sc fc rc Hp Hc| | |]; cbn [w_out W pp_start w_pipe w_fork]; try apply prefix_nil; try reflexivity.
  - destruct Hc as [|dn rest Hm]; [apply prefix_nil|]. exists (rest ++ parent_line). by rewrite Hm, app_assoc.
  - by apply prefix_app_r.
  - apply prefix_app. destruct Hp as [|dn rest Hm]; [apply prefix_nil|]. by exists rest.
Qed.

Lemma pp_inv_steps k n w w' : nsteps steps_to k w w' → inv n w → ∃ n', (n' + k ≤ n)%nat ∧ inv n' w'.
Proof.
  intros Hs. revert n. induction Hs as [|k w w1 w2 [i E] _ IH]; intros n Hi; [exists n; split; [lia|done]|].
  destruct (pp_inv_step _ _ _ _ Hi E) as (n1 & Hlt & Hi1). destruct (IH _ Hi1) as (n2 & Hle & Hi2). exists n2. split; [lia|done].
Qed.
End pingpong.

(** The run in which the processes are scheduled in the order given. *)
Fixpoint follow (sched : list nat) (w : world) : option world :=
  match sched with
  | [] => Some w
  | i :: sched => match step w i with Some w' => follow sched w' | None => None end
  end.

Lemma follow_steps sched w w' : follow sched w = Some w' → nsteps steps_to (length sched) w w'.
Proof.
  revert w. induction sched as [|i sched IH]; intros w E; cbn [follow length] in *; [injection E as ->; constructor|].
  destruct (step w i) as [w1|] eqn:Ei; [|discriminate]. econstructor; [by exists i|by apply IH].
Qed.

(** C19: pingpong, run as process [P] with an empty file table but for the
    console, forks process [C]; whatever order the scheduler runs the two in,
    they make no more than [20] steps plus one for each character printed, so
    every run ends; at every moment the console shows a prefix of
    "C: received ping", newline, "P: received pong", newline, so the lines are
    never mixed or swapped; and the two can only come to a stop when both
    lines are out, the child has been reaped and both pipes are empty: no
    schedule leaves one of them waiting for the other. *)
Theorem pingpong_spec P C k w : 0 < C → nsteps steps_to k (pp_start P C) w →
  let text := received C (str "ping") ++ received P (str "pong") in
  (k ≤ 20 + length text)%nat ∧ w_out w `prefix_of` text ∧
  ((∃ w', steps_to w w') ∨
   w_out w = text ∧ w_pipes w = [[]; []] ∧ u_state <$> w_procs w = [Zombie; Gone]).
Proof.
  intros HC Hs text. destruct (pp_inv_steps P C HC _ _ _ _ Hs (i_start P C)) as (n & Hle & Hi).
  assert (Ht : child_line C ++ parent_line P = text) by reflexivity. clearbody text. rewrite <-Ht. split_and!.
  - rewrite length_app. lia.
  - by eapply inv_out.
  - destruct (inv_goes P C HC _ _ Hi) as [(i & w' & E) | ->]; [left; by exists w', i|right; by split_and!].
Qed.

Lemma pingpong_spec_witness : ∃ w, nsteps steps_to 54 (pp_start 3 4) w ∧ w_out w = received 4 (str "ping") ++ received 3 (str "pong").
Proof.
  destruct (follow (replicate 6 0 ++ replicate 25 1 ++ replicate 23 0)%nat (pp_start 3 4)) as [w|] eqn:E; [|vm_compute in E; discriminate].
  exists w. apply follow_steps in E. split; [exact E|].
  destruct (pingpong_spec 3 4 54 w ltac:(lia) E) as (_ & _ & [(w' & Hs) | (Ho & _)]); [exfalso|exact Ho].
  destruct (pingpong_spec 3 4 55 w' ltac:(lia) (nsteps_r 54 _ w w' E Hs)) as (Hk & _). vm_compute in Hk. lia.
Defined.
