(* ===== verification/Init.v ===== *)
(** user/init.c: the first program.

    The program is a tree of system calls (UProg.v).  [irun] follows it, in a
    world where [open], [mknod], [dup] and [exec] work: the results of [fork] and
    [wait] are lists given from outside, so the processes that end are the
    shell or any other in any order.  The theorem: there is always exactly one
    shell, a new one for each that has ended, with the console as its
    descriptors 0, 1 and 2. *)

From stdpp Require Import base tactics list numbers strings.
From S2P Require Import Prelude Param Bytes CString Ulib UProg ShRun.
From Stdlib Require Import ZArith Lia.

Open Scope kernel_scope.

(** * The program *)

Definition CONSOLE : Z := 1.

Definition iprintf (s : string) (k : prog) : prog := fprint 1 (str s ++ [10]) k.

(** The inner loop: [wait] until it reports [pid]. *)
Fixpoint reap (fuel : nat) (pid : Z) (k : prog) : prog :=
  match fuel with
  | O => PFuel
  | S fuel' =>
      PWait (λ wpid,
        if wpid =? pid then k
        else if wpid <? 0 then iprintf "init: wait returned an error" (PExit 1)
        else reap fuel' pid k)
  end.

(** The outer loop; [wf] bounds the number of waits for one shell. *)
Fixpoint shells (wf fuel : nat) : prog :=
  match fuel with
  | O => PFuel
  | S fuel' =>
      iprintf "init: starting sh"
        (PFork (λ pid,
          if pid <? 0 then iprintf "init: fork failed" (PExit 1)
          else if pid =? 0 then PExec (str "sh") [str "sh"] (iprintf "init: exec sh failed" (PExit 1))
          else reap wf pid (shells wf fuel')))
  end.

Definition init_main (wf fuel : nat) : prog :=
  let dups := PDup 0 (PDup 0 (shells wf fuel)) in
  POpen (str "console") O_RDWR (λ fd,
    if fd <? 0 then PMknod (str "console") CONSOLE 0 (λ _, POpen (str "console") O_RDWR (λ _, dups))
    else dups).

(** * A world *)

(** How a run ends: in [exec], in [exit], in a [wait] (or before a [fork]) that
    has no answer yet, in a call without a meaning here. *)
Inductive fin : Type := Replaced | Exited (status : Z) | Waiting | Other.

(** The programs that are started, with their descriptors, and the end of the
    process.  [dev]: the device file exists. *)
Fixpoint irun (pr : prog) (ft : fdtable) (dev : bool) (forks waits : list Z) : list started * fin :=
  match pr with
  | PExit n => ([], Exited n)
  | PFork k =>
      match forks with
      | [] => ([], Waiting)
      | pid :: forks' =>
          if pid <? 0 then irun (k pid) ft dev forks' waits
          else
            let r := irun (k pid) ft dev forks' waits in
            ((irun (k 0) ft dev forks' waits).1 ++ r.1, r.2)
      end
  | PWait k => match waits with [] => ([], Waiting) | w :: waits' => irun (k w) ft dev forks waits' end
  | PExec path argv _ => ([(path, argv, ft)], Replaced)
  | POpen path mode k =>
      if dev then let r := fd_new (File path mode) ft in irun (k r.1) r.2 dev forks waits
      else irun (k (-1)) ft dev forks waits
  | PMknod _ _ _ k => irun (k 0) ft true forks waits
  | PDup fd k =>
      match fd_get fd ft with
      | Some o => irun k (fd_new o ft).2 dev forks waits
      | None => irun k ft dev forks waits
      end
  | PWrite _ _ k => irun k ft dev forks waits
  | _ => ([], Other)
  end.

(** * The loops *)

Definition console : option obj := Some (File (str "console") O_RDWR).
Definition sh_start : started := (str "sh", [str "sh"], [console; console; console] ++ replicate 13 None).

Lemma irun_fprint fd cs k ft dev forks waits : irun (fprint fd cs k) ft dev forks waits = irun k ft dev forks waits.
Proof. induction cs as [|c cs IH]; [done|exact IH]. Qed.

(** Processes other than the shell are reaped and forgotten. *)
Lemma reap_orphans wf pid k ft dev forks orphans waits : Forall (λ w, 0 ≤ w ∧ w ≠ pid) orphans →
  irun (reap (length orphans + wf) pid k) ft dev forks (orphans ++ waits) = irun (reap wf pid k) ft dev forks waits.
Proof.
  induction 1 as [|w os [Hw Hne] _ IH]; [done|]. cbn [length Nat.add reap irun app].
  by rewrite (proj2 (Z.eqb_neq _ _) Hne), (proj2 (Z.ltb_ge _ _) Hw).
Qed.

(** The life of a shell: its number, and the other processes that ended before
    it did. *)
Definition round : Type := Z * list Z.
Definition round_ok (wf : nat) (r : round) : Prop := 0 < r.1 ∧ Forall (λ w, 0 ≤ w ∧ w ≠ r.1) r.2 ∧ (length r.2 < wf)%nat.
(** What [wait] reports. *)
Definition reports (h : list round) : list Z := concat ((λ r : round, r.2 ++ [r.1]) <$> h).

Definition sh_table : fdtable := [console; console; console] ++ replicate 13 None.

(** A shell is started and [init] waits. *)
Lemma shell_starts wf fuel pid os forks waits : round_ok wf (pid, os) → ∃ wf',
  let r := irun (reap (S wf') pid (shells wf fuel)) sh_table true forks waits in
  irun (shells wf (S fuel)) sh_table true (pid :: forks) (os ++ waits) = (sh_start :: r.1, r.2).
Proof.
  intros (Hp & Ho & Hl). cbn [fst snd] in *. exists (wf - length os - 1)%nat. cbn [shells]. unfold iprintf at 1. rewrite irun_fprint. cbn [irun].
  rewrite (proj2 (Z.ltb_ge pid 0)), (proj2 (Z.eqb_neq pid 0)) by lia. pose proof (reap_orphans (S (wf - length os - 1)) pid (shells wf fuel) sh_table true forks os waits Ho) as E.
  replace (length os + S (wf - length os - 1))%nat with wf in E by lia. by rewrite E.
Qed.

Lemma rounds wf fuel h forks waits : Forall (round_ok wf) h →
  let r := irun (shells wf fuel) sh_table true forks waits in
  irun (shells wf (length h + fuel)) sh_table true (h.*1 ++ forks) (reports h ++ waits) = (replicate (length h) sh_start ++ r.1, r.2).
Proof.
  induction 1 as [|[pid os] h Hr _ IH]; [cbn; by destruct (irun _ _ _ _ _)|]. cbv zeta in *.
  destruct (shell_starts wf (length h + fuel) pid os (h.*1 ++ forks) (pid :: reports h ++ waits) Hr) as (wf' & E). cbn [reap irun] in E. rewrite Z.eqb_refl in E.
  cbn [length Nat.add fmap list_fmap fst app]. unfold reports. cbn [fmap list_fmap concat fst snd]. rewrite <-!app_assoc. cbn [app].
  etransitivity; [exact E|]. rewrite IH. done.
Qed.

(** Opening the console, which may have to be made first. *)
Lemma init_opens wf fuel dev forks waits : irun (init_main wf fuel) (replicate 16 None) dev forks waits = irun (shells wf fuel) sh_table true forks waits.
Proof. by destruct dev. Qed.

(** C20: init keeps one shell running.  Whether or not the console's device file
    exists, and whatever processes end in between: after the shells of [h], each
    reported by [wait] among other processes, exactly one more has been
    started, and [init] waits; every shell has the console as its descriptors
    0, 1 and 2, and no other descriptor.  If [fork] fails, or if [wait] reports
    that there is no child, [init] exits with status 1. *)
Theorem init_spec wf fuel dev h : Forall (round_ok wf) h → (length h < fuel)%nat →
  let go forks waits := irun (init_main wf fuel) (replicate 16 None) dev (h.*1 ++ forks) (reports h ++ waits) in
  (∀ r, round_ok wf r → go [r.1] r.2 = (replicate (S (length h)) sh_start, Waiting)) ∧
  (∀ r w, round_ok wf r → w < 0 → go [r.1] (r.2 ++ [w]) = (replicate (S (length h)) sh_start, Exited 1)) ∧
  (∀ w, w < 0 → go [w] [] = (replicate (length h) sh_start, Exited 1)).
Proof.
  intros Hh Hf go. unfold go. clear go. replace fuel with (length h + S (fuel - length h - 1))%nat by lia. generalize (fuel - length h - 1)%nat as f. intros f.
  replace (S (length h)) with (length h + 1)%nat by lia. split_and!.
  - intros [pid os] Hr. destruct (shell_starts wf f pid os [] [] Hr) as (wf' & E). rewrite app_nil_r in E. rewrite init_opens, rounds by done. cbn [fst snd]. rewrite E.
    by rewrite replicate_add.
  - intros [pid os] w Hr Hw. destruct (shell_starts wf f pid os [] [w] Hr) as (wf' & E). rewrite init_opens, rounds by done. cbn [fst snd]. rewrite E. cbn [reap irun].
    rewrite (proj2 (Z.eqb_neq w pid)), (proj2 (Z.ltb_lt w 0)) by (destruct Hr; cbn in *; lia). unfold iprintf. rewrite irun_fprint. by rewrite replicate_add.
  - intros w Hw. assert (E : irun (shells wf (S f)) sh_table true [w] [] = ([], Exited 1)).
    { cbn [shells]. unfold iprintf at 1. rewrite irun_fprint. cbn [irun]. rewrite (proj2 (Z.ltb_lt w 0)) by lia. unfold iprintf. by rewrite irun_fprint. }
    rewrite init_opens, rounds, E by done. cbn [fst snd]. by rewrite app_nil_r.
Qed.

(** The second shell runs after the first, process 2, has ended, and an orphan
    before it. *)
Lemma init_spec_witness : irun (init_main 3 2) (replicate 16 None) false [2; 5] [4; 2; 3] = ([sh_start; sh_start], Waiting).
Proof.
  destruct (init_spec 3 2 false [(2, [4])]) as (H & _); [repeat constructor; cbn; lia|cbn; lia|].
  apply (H (5, [3])). repeat constructor; cbn; lia.
Defined.
