(* ===== verification/Asm.v ===== *)
(** kernel/entry.S, swtch.S, kernelvec.S, trampoline.S: the assembly code.

    The instructions these files use, on a hart with its registers, the
    control registers they touch, the privilege mode, and the physical memory.
    Loads and stores go through the page table that [satp] names, which is the
    parameter [xlate]; an access that does not translate, is not aligned, or
    comes after a change of [satp] that was not followed by [sfence.vma] has no
    result.  The page table may only be changed under code that is mapped at the
    same place by both, with no memory operation outstanding.

    Shown: the trap path saves and restores all the registers of a user
    program, [swtch] those that a C function has to keep, and [kernelvec] those
    of the kernel code that was interrupted. *)

From stdpp Require Import base tactics functions list numbers.
From S2P Require Import Prelude Param Bytes Syscall.
From Stdlib Require Import ZArith Lia.

Open Scope kernel_scope.

(** * Registers *)

Module Reg.
Inductive reg : Type :=
  | ra | sp | gp | tp | t0 | t1 | t2 | s0 | s1 | a0 | a1 | a2 | a3 | a4 | a5 | a6 | a7
  | s2 | s3 | s4 | s5 | s6 | s7 | s8 | s9 | s10 | s11 | t3 | t4 | t5 | t6.

#[export] Instance reg_eq_dec : EqDecision reg.
Proof. solve_decision. Defined.

Inductive csr : Type := sscratch | satp | sepc | sstatus | stvec | mhartid.

#[export] Instance csr_eq_dec : EqDecision csr.
Proof. solve_decision. Defined.
End Reg.
Import Reg.

(** * The hart *)

Record hart := mkhart {
  h_reg : reg → Z;
  h_csr : csr → Z;
  h_mem : mem;
  h_pc : Z;
  h_super : bool;    (* supervisor mode *)
  h_pending : bool;  (* memory operations outstanding *)
  h_stale : bool;    (* translations of another page table may be in use *)
}.

Definition set_reg (r : reg) (v : Z) (m : hart) : hart :=
  mkhart (<[r := v]> (h_reg m)) (h_csr m) (h_mem m) (h_pc m) (h_super m) (h_pending m) (h_stale m).
Definition set_csr (c : csr) (v : Z) (m : hart) : hart :=
  mkhart (h_reg m) (<[c := v]> (h_csr m)) (h_mem m) (h_pc m) (h_super m) (h_pending m) (h_stale m).
Definition set_mem (mm : mem) (m : hart) : hart :=
  mkhart (h_reg m) (h_csr m) mm (h_pc m) (h_super m) true (h_stale m).
Definition set_pc (v : Z) (m : hart) : hart :=
  mkhart (h_reg m) (h_csr m) (h_mem m) v (h_super m) (h_pending m) (h_stale m).
Definition set_super (b : bool) (m : hart) : hart :=
  mkhart (h_reg m) (h_csr m) (h_mem m) (h_pc m) b (h_pending m) (h_stale m).
Definition fence (pending stale : bool) (m : hart) : hart :=
  mkhart (h_reg m) (h_csr m) (h_mem m) (h_pc m) (h_super m) pending stale.

(** A register of the hart is a 64-bit word. *)
Definition regs_ok (R : reg → Z) : Prop := ∀ r, 0 ≤ R r < 18446744073709551616.

(** * Instructions *)

(** [Jalr] and [Call] name the address that they leave in [ra], that of the code
    after them. *)
Inductive instr : Type :=
  | Li (rd : reg) (v : Z)
  | Addi (rd rs : reg) (v : Z)
  | Add (rd rs1 rs2 : reg)
  | Mul (rd rs1 rs2 : reg)
  | Ld (rd : reg) (off : Z) (base : reg)
  | Sd (rs : reg) (off : Z) (base : reg)
  | Csrr (rd : reg) (c : csr)
  | Csrw (c : csr) (rs : reg)
  | Sfence
  | Jalr (rs : reg) (link : Z)
  | Call (target link : Z)
  | Ret
  | Sret.

(** Bits of [sstatus]. *)
Definition SIE_bit : Z := 1.
Definition SPIE_bit : Z := 5.
Definition SPP_bit : Z := 8.

Definition put_bit (x i : Z) (b : bool) : Z := if b then Z.setbit x i else Z.clearbit x i.

Lemma put_bit_eq x i b : 0 ≤ i → Z.testbit (put_bit x i b) i = b.
Proof. intros Hi. unfold put_bit. destruct b; [by apply Z.setbit_eq|by apply Z.clearbit_eq]. Qed.

Lemma put_bit_ne x i j b : 0 ≤ i → i ≠ j → Z.testbit (put_bit x i b) j = Z.testbit x j.
Proof. intros Hi Hj. unfold put_bit. destruct b; [by apply Z.setbit_neq|by apply Z.clearbit_neq]. Qed.

(** A trap: to [stvec] in supervisor mode with interrupts off; [sstatus] has the
    mode and the interrupt bit of before, [sepc] the program counter. *)
Definition take_trap (m : hart) : hart :=
  let x := h_csr m sstatus in
  let x := put_bit (put_bit (put_bit x SPP_bit (h_super m)) SPIE_bit (Z.testbit x SIE_bit)) SIE_bit false in
  set_super true (set_pc (h_csr m stvec) (set_csr sepc (h_pc m) (set_csr sstatus x m))).

(** [sret]: back. *)
Definition sret (m : hart) : hart :=
  let x := h_csr m sstatus in
  let x' := put_bit (put_bit (put_bit x SIE_bit (Z.testbit x SPIE_bit)) SPIE_bit true) SPP_bit false in
  set_super (Z.testbit x SPP_bit) (set_pc (h_csr m sepc) (set_csr sstatus x' m)).

Lemma take_trap_ok m (t := take_trap m) : h_csr t sepc = h_pc m ∧ Z.testbit (h_csr t sstatus) SPP_bit = h_super m ∧
  Z.testbit (h_csr t sstatus) SPIE_bit = Z.testbit (h_csr m sstatus) SIE_bit ∧ h_csr t satp = h_csr m satp.
Proof.
  subst t. unfold take_trap. cbn [h_csr set_super set_pc set_csr]. rewrite !fn_lookup_insert, !fn_lookup_insert_ne, fn_lookup_insert by done.
  split_and!; [done|by rewrite !put_bit_ne, put_bit_eq by done| |done]. by rewrite put_bit_ne, put_bit_eq by done.
Qed.

Lemma sret_ok m : h_super (sret m) = Z.testbit (h_csr m sstatus) SPP_bit ∧
  Z.testbit (h_csr (sret m) sstatus) SIE_bit = Z.testbit (h_csr m sstatus) SPIE_bit.
Proof.
  unfold sret. cbn [h_csr h_super set_super set_pc set_csr]. rewrite fn_lookup_insert. split; [done|]. by rewrite !put_bit_ne, put_bit_eq by done.
Qed.

Section exec.
  Context (xlate : Z → Z → option Z).

(** The physical address of a load or store. *)
Definition access (m : hart) (va : Z) : option Z :=
  if h_stale m then None else if va mod 8 =? 0 then xlate (h_csr m satp) va else None.

(** One instruction of code at the (page) address [here]. *)
Definition exec1 (here : Z) (i : instr) (m : hart) : option hart :=
  let R := h_reg m in
  match i with
  | Li rd v => Some (set_reg rd (u64 v) m)
  | Addi rd rs v => Some (set_reg rd (u64 (R rs + v)) m)
  | Add rd r1 r2 => Some (set_reg rd (u64 (R r1 + R r2)) m)
  | Mul rd r1 r2 => Some (set_reg rd (u64 (R r1 * R r2)) m)
  | Ld rd off b => pa ← access m (u64 (R b + off)); Some (set_mem (h_mem m) (set_reg rd (load64 (h_mem m) pa) m))
  | Sd rs off b => pa ← access m (u64 (R b + off)); Some (set_mem (store64 (h_mem m) pa (R rs)) m)
  | Csrr rd c => Some (set_reg rd (h_csr m c) m)
  | Csrw satp rs =>
      if h_pending m then None
      else if bool_decide (xlate (R rs) here = xlate (h_csr m satp) here) then Some (fence false true (set_csr satp (R rs) m)) else None
  | Csrw c rs => Some (set_csr c (R rs) m)
  | Sfence => Some (fence false false m)
  | Jalr rs link => Some (set_pc (R rs) (set_reg ra link m))
  | Call target link => Some (set_pc target (set_reg ra link m))
  | Ret => Some (set_pc (R ra) m)
  | Sret => Some (sret m)
  end.

Fixpoint exec (here : Z) (l : list instr) (m : hart) : option hart :=
  match l with
  | [] => Some m
  | i :: l => m' ← exec1 here i m; exec here l m'
  end.
End exec.

(** * The code *)

(** entry.S: [stack0] and [start] are addresses; [spin] is what follows. *)
Definition _entry (stack0 start spin : Z) : list instr :=
  [ Li sp stack0; Li a0 (1024 * 4); Csrr a1 mhartid; Addi a1 a1 1; Mul a0 a0 a1; Add sp sp a0; Call start spin ].

Definition swtch : list instr :=
  [ Sd ra 0 a0; Sd sp 8 a0; Sd s0 16 a0; Sd s1 24 a0; Sd s2 32 a0; Sd s3 40 a0; Sd s4 48 a0;
    Sd s5 56 a0; Sd s6 64 a0; Sd s7 72 a0; Sd s8 80 a0; Sd s9 88 a0; Sd s10 96 a0; Sd s11 104 a0;
    Ld ra 0 a1; Ld sp 8 a1; Ld s0 16 a1; Ld s1 24 a1; Ld s2 32 a1; Ld s3 40 a1; Ld s4 48 a1;
    Ld s5 56 a1; Ld s6 64 a1; Ld s7 72 a1; Ld s8 80 a1; Ld s9 88 a1; Ld s10 96 a1; Ld s11 104 a1;
    Ret ].

(** usys.pl: the stub of a system call, up to its [ecall] and after it. *)
Definition usys (num : Z) : list instr := [ Li a7 num ].
Definition usys_back : list instr := [ Ret ].

(** Up to the call of [kerneltrap], and from [back], where it returns. *)
Definition kernelvec (kerneltrap back : Z) : list instr :=
  [ Addi sp sp (-256);
    Sd ra 0 sp; Sd gp 16 sp; Sd tp 24 sp; Sd t0 32 sp; Sd t1 40 sp; Sd t2 48 sp;
    Sd a0 72 sp; Sd a1 80 sp; Sd a2 88 sp; Sd a3 96 sp; Sd a4 104 sp; Sd a5 112 sp; Sd a6 120 sp; Sd a7 128 sp;
    Sd t3 216 sp; Sd t4 224 sp; Sd t5 232 sp; Sd t6 240 sp;
    Call kerneltrap back ].

Definition kernelvec_back : list instr :=
  [ Ld ra 0 sp; Ld gp 16 sp; Ld t0 32 sp; Ld t1 40 sp; Ld t2 48 sp;
    Ld a0 72 sp; Ld a1 80 sp; Ld a2 88 sp; Ld a3 96 sp; Ld a4 104 sp; Ld a5 112 sp; Ld a6 120 sp; Ld a7 128 sp;
    Ld t3 216 sp; Ld t4 224 sp; Ld t5 232 sp; Ld t6 240 sp;
    Addi sp sp 256;
    Sret ].

(** [usertrap] returns to [userret], the code that follows. *)
Definition uservec (userret : Z) : list instr :=
  [ Csrw sscratch a0;
    Li a0 TRAPFRAME;
    Sd ra 40 a0; Sd sp 48 a0; Sd gp 56 a0; Sd tp 64 a0; Sd t0 72 a0; Sd t1 80 a0; Sd t2 88 a0; Sd s0 96 a0; Sd s1 104 a0;
    Sd a1 120 a0; Sd a2 128 a0; Sd a3 136 a0; Sd a4 144 a0; Sd a5 152 a0; Sd a6 160 a0; Sd a7 168 a0;
    Sd s2 176 a0; Sd s3 184 a0; Sd s4 192 a0; Sd s5 200 a0; Sd s6 208 a0; Sd s7 216 a0; Sd s8 224 a0; Sd s9 232 a0;
    Sd s10 240 a0; Sd s11 248 a0; Sd t3 256 a0; Sd t4 264 a0; Sd t5 272 a0; Sd t6 280 a0;
    Csrr t0 sscratch;
    Sd t0 112 a0;
    Ld sp 8 a0;
    Ld tp 32 a0;
    Ld t0 16 a0;
    Ld t1 0 a0;
    Sfence;
    Csrw satp t1;
    Sfence;
    Jalr t0 userret ].

Definition userret : list instr :=
  [ Sfence;
    Csrw satp a0;
    Sfence;
    Li a0 TRAPFRAME;
    Ld ra 40 a0; Ld sp 48 a0; Ld gp 56 a0; Ld tp 64 a0; Ld t0 72 a0; Ld t1 80 a0; Ld t2 88 a0; Ld s0 96 a0; Ld s1 104 a0;
    Ld a1 120 a0; Ld a2 128 a0; Ld a3 136 a0; Ld a4 144 a0; Ld a5 152 a0; Ld a6 160 a0; Ld a7 168 a0;
    Ld s2 176 a0; Ld s3 184 a0; Ld s4 192 a0; Ld s5 200 a0; Ld s6 208 a0; Ld s7 216 a0; Ld s8 224 a0; Ld s9 232 a0;
    Ld s10 240 a0; Ld s11 248 a0; Ld t3 256 a0; Ld t4 264 a0; Ld t5 272 a0; Ld t6 280 a0;
    Ld a0 112 a0;
    Sret ].

(** * Layouts *)

(** Offsets in [struct trapframe] and [struct context]. *)
Definition tf_off (r : reg) : Z :=
  match r with
  | ra => 40 | sp => 48 | gp => 56 | tp => 64 | t0 => 72 | t1 => 80 | t2 => 88 | s0 => 96 | s1 => 104
  | a0 => 112 | a1 => 120 | a2 => 128 | a3 => 136 | a4 => 144 | a5 => 152 | a6 => 160 | a7 => 168
  | s2 => 176 | s3 => 184 | s4 => 192 | s5 => 200 | s6 => 208 | s7 => 216 | s8 => 224 | s9 => 232
  | s10 => 240 | s11 => 248 | t3 => 256 | t4 => 264 | t5 => 272 | t6 => 280
  end.

Definition context_off (r : reg) : option Z :=
  match r with
  | ra => Some 0 | sp => Some 8 | s0 => Some 16 | s1 => Some 24 | s2 => Some 32 | s3 => Some 40 | s4 => Some 48
  | s5 => Some 56 | s6 => Some 64 | s7 => Some 72 | s8 => Some 80 | s9 => Some 88 | s10 => Some 96 | s11 => Some 104
  | _ => None
  end.

(** The registers saved, in the order of the code, with their places. *)
Definition tf_saved : list (reg * Z) :=
  (λ r, (r, tf_off r)) <$> [ra; sp; gp; tp; t0; t1; t2; s0; s1; a1; a2; a3; a4; a5; a6; a7; s2; s3; s4; s5; s6; s7; s8; s9; s10; s11; t3; t4; t5; t6].

Definition callee_saved : list reg := [s0; s1; s2; s3; s4; s5; s6; s7; s8; s9; s10; s11].

Definition context_saved : list (reg * Z) :=
  (λ r, (r, default 0 (context_off r))) <$> ra :: sp :: callee_saved.

Definition kv_saved : list (reg * Z) :=
  [(ra, 0); (gp, 16); (tp, 24); (t0, 32); (t1, 40); (t2, 48); (a0, 72); (a1, 80); (a2, 88); (a3, 96); (a4, 104);
   (a5, 112); (a6, 120); (a7, 128); (t3, 216); (t4, 224); (t5, 232); (t6, 240)].
Definition kv_restored : list (reg * Z) := filter (λ e, e.1 ≠ tp) kv_saved.

(** * Tables of registers in memory *)

Definition saves (R : reg → Z) (pa : Z) (tbl : list (reg * Z)) (mm : mem) : mem :=
  foldl (λ mm e, store64 mm (pa + e.2) (R e.1)) mm tbl.
Definition restores (mm : mem) (pa : Z) (tbl : list (reg * Z)) (R : reg → Z) : reg → Z :=
  foldl (λ R e, <[e.1 := load64 mm (pa + e.2)]> R) R tbl.

(** The entry has its place in the bytes from [lo] to [n]. *)
Definition fits (lo n : Z) (e : reg * Z) : Prop := lo ≤ e.2 ∧ e.2 + 8 ≤ n ∧ e.2 mod 8 = 0.

#[export] Instance fits_dec lo n e : Decision (fits lo n e).
Proof. unfold fits. apply _. Defined.

Lemma saves_frame R pa lo n tbl mm x : Forall (fits lo n) tbl → x < pa + lo ∨ pa + n ≤ x → ldb (saves R pa tbl mm) x = ldb mm x.
Proof.
  intros Hf Hx. revert mm. induction Hf as [|[r o] tbl (H1 & H2 & _) _ IH]; intros mm; [done|]. cbn [saves foldl fst snd] in *.
  unfold saves in IH. rewrite IH. apply ldb_store. lia.
Qed.

Lemma load64_frame mm mm' a : (∀ x, a ≤ x < a + 8 → ldb mm x = ldb mm' x) → load64 mm a = load64 mm' a.
Proof. apply (load_ext 8). Qed.

Lemma aligned_disjoint a o o' : o mod 8 = 0 → o' mod 8 = 0 → o ≠ o' → disjoint_ranges (a + o) 8 (a + o') 8.
Proof. intros H1 H2 H3. unfold disjoint_ranges. dlia. Qed.

Lemma saves_other R pa lo n tbl mm o : Forall (fits lo n) tbl → o mod 8 = 0 → o ∉ tbl.*2 → load64 (saves R pa tbl mm) (pa + o) = load64 mm (pa + o).
Proof.
  intros Hf Ho. revert mm. induction Hf as [|[r o1] tbl (_ & _ & H3) _ IH]; intros mm Hn; [done|]. cbn [fmap list_fmap fst snd saves foldl] in *.
  apply not_elem_of_cons in Hn as [Hn1 Hn2]. unfold saves in IH. rewrite IH by done. apply load64_store64_ne, aligned_disjoint; congruence.
Qed.

Lemma saves_at R pa lo n tbl mm r o : Forall (fits lo n) tbl → NoDup tbl.*2 → (r, o) ∈ tbl → load64 (saves R pa tbl mm) (pa + o) = u64 (R r).
Proof.
  intros Hf. revert mm. induction Hf as [|[r1 o1] tbl (H1 & H2 & H3) Hf IH]; intros mm Hd Hin; [by apply not_elem_of_nil in Hin|].
  cbn [fmap list_fmap fst snd] in *. pose proof (NoDup_cons_1_1 _ _ Hd) as Hd1; pose proof (NoDup_cons_1_2 _ _ Hd) as Hd2. apply elem_of_cons in Hin as [E|Hin].
  - injection E as -> ->. change (saves R pa ((r1, o1) :: tbl) mm) with (saves R pa tbl (store64 mm (pa + o1) (R r1))).
    rewrite (saves_other _ _ lo n) by done. apply load64_store64_eq.
  - by apply IH.
Qed.

Lemma restores_other mm pa tbl R r : r ∉ tbl.*1 → restores mm pa tbl R r = R r.
Proof.
  revert R. induction tbl as [|[r1 o1] tbl IH]; intros R Hn; [done|]. cbn [fmap list_fmap fst snd restores foldl] in *.
  apply not_elem_of_cons in Hn as [Hn1 Hn2]. unfold restores in IH. rewrite IH by done. by rewrite fn_lookup_insert_ne.
Qed.

Lemma restores_at mm pa tbl R r o : NoDup tbl.*1 → (r, o) ∈ tbl → restores mm pa tbl R r = load64 mm (pa + o).
Proof.
  revert R. induction tbl as [|[r1 o1] tbl IH]; intros R Hd Hin; [by apply not_elem_of_nil in Hin|].
  cbn [fmap list_fmap fst snd] in *. pose proof (NoDup_cons_1_1 _ _ Hd) as Hd1; pose proof (NoDup_cons_1_2 _ _ Hd) as Hd2. apply elem_of_cons in Hin as [E|Hin]; [|by apply IH].
  injection E as -> ->. change (restores mm pa ((r1, o1) :: tbl) R) with (restores mm pa tbl (<[r1 := load64 mm (pa + o1)]> R)).
  rewrite restores_other by done. apply fn_lookup_insert.
Qed.

(** * Runs of stores and loads *)

Definition Sd' (b : reg) (e : reg * Z) : instr := Sd e.1 e.2 b.
Definition Ld' (b : reg) (e : reg * Z) : instr := Ld e.1 e.2 b.

Section runs.
  Context (xlate : Z → Z → option Z).

(** The page table maps the [n] bytes at [va] to those at [pa]. *)
Definition window (table va pa n : Z) : Prop :=
  va mod 8 = 0 ∧ 0 ≤ va ∧ va + n ≤ 18446744073709551616 ∧ ∀ o, 0 ≤ o < n → xlate table (va + o) = Some (pa + o).

Lemma window_access m va pa n o :
  window (h_csr m satp) va pa n → h_stale m = false → 0 ≤ o → o + 8 ≤ n → o mod 8 = 0 → access xlate m (u64 (va + o)) = Some (pa + o).
Proof.
  intros (H1 & H2 & H3 & HX) Hs Ho Hn Hm. unfold access. rewrite Hs, u64_id by lia.
  assert ((va + o) mod 8 =? 0 = true) as -> by (apply Z.eqb_eq; dlia). apply HX. lia.
Qed.

Lemma exec_saves here b tbl l m pa lo n : 0 ≤ lo → window (h_csr m satp) (h_reg m b) pa n → h_stale m = false → Forall (fits lo n) tbl →
  ∃ p, exec xlate here ((Sd' b <$> tbl) ++ l) m =
       exec xlate here l (mkhart (h_reg m) (h_csr m) (saves (h_reg m) pa tbl (h_mem m)) (h_pc m) (h_super m) p false).
Proof.
  intros Hlo HW Hs Hf. revert m HW Hs. induction Hf as [|[r o] tbl (H1 & H2 & H3) _ IH]; intros m HW Hs; cbn [fst snd] in *.
  - exists (h_pending m). destruct m; cbn in *; by subst.
  - cbn [fmap list_fmap app exec exec1 Sd' Ld' fst snd]. rewrite (window_access m _ pa n) by (done || lia). cbn [mbind option_bind].
    destruct (IH (set_mem (store64 (h_mem m) (pa + o) (h_reg m r)) m) HW Hs) as [p ->]. by exists p.
Qed.

Lemma exec_restores here b tbl l m pa lo n : 0 ≤ lo → window (h_csr m satp) (h_reg m b) pa n → h_stale m = false → Forall (fits lo n) tbl → b ∉ tbl.*1 →
  ∃ p, exec xlate here ((Ld' b <$> tbl) ++ l) m =
       exec xlate here l (mkhart (restores (h_mem m) pa tbl (h_reg m)) (h_csr m) (h_mem m) (h_pc m) (h_super m) p false).
Proof.
  intros Hlo HW Hs Hf. revert m HW Hs. induction Hf as [|[r o] tbl (H1 & H2 & H3) _ IH]; intros m HW Hs Hb; cbn [fst snd] in *.
  - exists (h_pending m). destruct m; cbn in *; by subst.
  - cbn [fmap list_fmap app exec exec1 Sd' Ld' fst snd] in *. apply not_elem_of_cons in Hb as [Hb1 Hb2].
    rewrite (window_access m _ pa n) by (done || lia). cbn [mbind option_bind].
    destruct (IH (set_mem (h_mem m) (set_reg r (load64 (h_mem m) (pa + o)) m))) as [p ->]; [|done|done|by exists p].
    cbn [h_csr h_reg set_mem set_reg]. by rewrite fn_lookup_insert_ne.
Qed.
End runs.

Lemma tf_saved_ok : Forall (fits 40 288) tf_saved ∧ NoDup tf_saved.*1 ∧ NoDup tf_saved.*2 ∧ a0 ∉ tf_saved.*1 ∧ tf_off a0 ∉ tf_saved.*2.
Proof. apply (bool_decide_unpack _). vm_compute. exact I. Qed.

Lemma in_tf_saved r : r ≠ a0 → (r, tf_off r) ∈ tf_saved.
Proof. intros Hr. by destruct r; try done; apply (bool_decide_unpack _); vm_compute. Qed.

Lemma tf_off_aligned r : tf_off r mod 8 = 0.
Proof. by destruct r. Qed.

(** * Traps from user space *)

Section user_trap.
  Context (xlate : Z → Z → option Z) (tf : Z).

Lemma uservec_eq back : uservec back = Csrw sscratch a0 :: Li a0 TRAPFRAME :: (Sd' a0 <$> tf_saved) ++ Csrr t0 sscratch :: (Sd' a0 <$> [(t0, 112)])
  ++ (Ld' a0 <$> [(sp, 8); (tp, 32); (t0, 16); (t1, 0)]) ++ [Sfence; Csrw satp t1; Sfence; Jalr t0 back].
Proof. reflexivity. Qed.

Lemma userret_eq : userret = Sfence :: Csrw satp a0 :: Sfence :: Li a0 TRAPFRAME :: (Ld' a0 <$> tf_saved) ++ [Ld a0 112 a0; Sret].
Proof. reflexivity. Qed.

(** The memory after the registers [R] have been saved. *)
Definition trapped (R : reg → Z) (mm : mem) : mem := store64 (saves R tf tf_saved mm) (tf + 112) (R a0).

Lemma trapped_reg R mm r : regs_ok R → load64 (trapped R mm) (tf + tf_off r) = R r.
Proof.
  intros HR. unfold trapped. destruct tf_saved_ok as (Hf & _ & Hd & _). destruct (decide (r = a0)) as [-> | Hr].
  - rewrite load64_store64_eq. apply u64_id, HR.
  - rewrite load64_store64_ne by (apply aligned_disjoint; [done|apply tf_off_aligned|by destruct r]).
    rewrite (saves_at _ _ 40 288 _ _ r) by (done || by apply in_tf_saved). apply u64_id, HR.
Qed.

Lemma trapped_frame R mm x : x < tf + 40 ∨ tf + 288 ≤ x → ldb (trapped R mm) x = ldb mm x.
Proof.
  intros Hx. unfold trapped. rewrite (ldb_store 8) by lia. apply (saves_frame _ _ 40 288); [apply tf_saved_ok|done].
Qed.

Lemma trapped_word R mm o : 0 ≤ o → o + 8 ≤ 40 → load64 (trapped R mm) (tf + o) = load64 mm (tf + o).
Proof. intros H1 H2. apply load64_frame. intros x Hx. apply trapped_frame. lia. Qed.

(** The registers with which [usertrap] is entered. *)
Definition kernel_regs (back : Z) (mm : mem) (R : reg → Z) : reg → Z :=
  <[ra := back]> (restores mm tf [(sp, 8); (tp, 32); (t0, 16); (t1, 0)] (<[t0 := R a0]> (<[a0 := u64 TRAPFRAME]> R))).

Lemma kernel_regs_values back mm R : let K := kernel_regs back mm R in
  K ra = back ∧ K sp = load64 mm (tf + 8) ∧ K tp = load64 mm (tf + 32) ∧ K t0 = load64 mm (tf + 16) ∧ K t1 = load64 mm (tf + 0).
Proof. by split_and!. Qed.

Lemma uservec_ok back m (ksatp := load64 (h_mem m) (tf + 0)) :
  window xlate (h_csr m satp) TRAPFRAME tf 288 → h_stale m = false → xlate ksatp TRAMPOLINE = xlate (h_csr m satp) TRAMPOLINE →
  exec xlate TRAMPOLINE (uservec back) m =
    Some (mkhart (kernel_regs back (h_mem m) (h_reg m)) (<[satp := ksatp]> (<[sscratch := h_reg m a0]> (h_csr m))) (trapped (h_reg m) (h_mem m))
      (load64 (h_mem m) (tf + 16)) (h_super m) false false).
Proof.
  intros HW Hs HT. destruct tf_saved_ok as (Hf & _). rewrite uservec_eq. cbn [exec exec1 mbind option_bind].
  set (m1 := set_reg a0 _ _). destruct (exec_saves xlate TRAMPOLINE a0 tf_saved (Csrr t0 sscratch :: (Sd' a0 <$> [(t0, 112)])
    ++ (Ld' a0 <$> [(sp, 8); (tp, 32); (t0, 16); (t1, 0)]) ++ [Sfence; Csrw satp t1; Sfence; Jalr t0 back]) m1 tf 40 288) as [p1 ->]; [done..|].
  cbn [exec exec1 mbind option_bind]. set (m2 := set_reg t0 _ _).
  destruct (exec_saves xlate TRAMPOLINE a0 [(t0, 112)] ((Ld' a0 <$> [(sp, 8); (tp, 32); (t0, 16); (t1, 0)]) ++ [Sfence; Csrw satp t1; Sfence; Jalr t0 back])
    m2 tf 0 288) as [p2 ->]; [done..|by repeat constructor|].
  destruct (exec_restores xlate TRAMPOLINE a0 [(sp, 8); (tp, 32); (t0, 16); (t1, 0)] [Sfence; Csrw satp t1; Sfence; Jalr t0 back]
    (mkhart (h_reg m2) (h_csr m2) (saves (h_reg m2) tf [(t0, 112)] (h_mem m2)) (h_pc m2) (h_super m2) p2 false) tf 0 288) as [p3 ->]; [done..|by repeat constructor| |].
  { apply (bool_decide_unpack _). vm_compute. exact I. }
  assert (saves (h_reg m2) tf [(t0, 112)] (h_mem m2) = trapped (h_reg m) (h_mem m)) as -> by reflexivity.
  cbn [h_reg h_csr h_mem h_pc h_super].
  assert (restores (trapped (h_reg m) (h_mem m)) tf [(sp, 8); (tp, 32); (t0, 16); (t1, 0)] (h_reg m2) =
          restores (h_mem m) tf [(sp, 8); (tp, 32); (t0, 16); (t1, 0)] (h_reg m2)) as ->.
  { unfold restores. cbn [foldl fst snd]. by rewrite !trapped_word by lia. }
  cbn [exec exec1 mbind option_bind fence h_reg h_csr h_pending].
  rewrite bool_decide_eq_true_2; [reflexivity|]. exact HT.
Qed.

(** What [userret] needs of the kernel; [R] are the registers to be restored. *)
Lemma userret_ok m : window xlate (h_reg m a0) TRAPFRAME tf 288 → xlate (h_reg m a0) TRAMPOLINE = xlate (h_csr m satp) TRAMPOLINE →
  ∃ m', exec xlate TRAMPOLINE userret m = Some m' ∧ (∀ r, h_reg m' r = load64 (h_mem m) (tf + tf_off r)) ∧
    h_csr m' satp = h_reg m a0 ∧ h_mem m' = h_mem m ∧ h_pc m' = h_csr m sepc ∧ h_stale m' = false ∧
    h_super m' = Z.testbit (h_csr m sstatus) SPP_bit ∧ Z.testbit (h_csr m' sstatus) SIE_bit = Z.testbit (h_csr m sstatus) SPIE_bit ∧
    h_csr m' stvec = h_csr m stvec.
Proof.
  intros HW HT. destruct tf_saved_ok as (Hf & Hd & _ & Ha & _). rewrite userret_eq. cbn [exec exec1 mbind option_bind fence h_reg h_csr h_pending].
  rewrite bool_decide_eq_true_2 by exact HT. cbn [mbind option_bind]. set (m1 := set_reg a0 _ _).
  destruct (exec_restores xlate TRAMPOLINE a0 tf_saved [Ld a0 112 a0; Sret] m1 tf 40 288) as [p1 ->]; [done..|].
  cbn [exec exec1 mbind option_bind h_reg]. rewrite restores_other by done. set (m2 := mkhart _ _ _ _ _ _ _).
  rewrite (window_access xlate m2 (h_reg m1 a0) tf 288) by done. cbn [option_bind mbind]. eexists. split; [done|].
  split_and!; try done.
  - intros r. cbn [h_reg sret set_super set_pc set_csr set_mem set_reg]. destruct (decide (r = a0)) as [-> | Hr]; [by rewrite fn_lookup_insert|].
    rewrite fn_lookup_insert_ne by done. cbn [m2 h_reg]. by apply restores_at, in_tf_saved.
  - by rewrite (proj2 (sret_ok _)).
Qed.
End user_trap.

(** * Switching between kernel threads *)

Lemma context_saved_ok : Forall (fits 0 112) context_saved ∧ NoDup context_saved.*1 ∧ NoDup context_saved.*2 ∧ a0 ∉ context_saved.*1 ∧ a1 ∉ context_saved.*1.
Proof. apply (bool_decide_unpack _). vm_compute. exact I. Qed.

Lemma in_context_saved r o : context_off r = Some o → (r, o) ∈ context_saved.
Proof. intros E. destruct r; try done; injection E as <-; by apply (bool_decide_unpack _); vm_compute. Qed.

Lemma context_off_range r o : context_off r = Some o → 0 ≤ o ∧ o + 8 ≤ 112.
Proof. intros E. destruct r; try done; injection E as <-; lia. Qed.

Lemma not_context_saved r : context_off r = None → r ∉ context_saved.*1.
Proof. intros E. destruct r; try done; by apply (bool_decide_unpack _); vm_compute. Qed.

Lemma swtch_eq : swtch = (Sd' a0 <$> context_saved) ++ (Ld' a1 <$> context_saved) ++ [Ret].
Proof. reflexivity. Qed.

Section switch.
  Context (xlate : Z → Z → option Z).

(** [swtch(old, new)], with the two contexts at [old] and [new] in memory: the
    registers go to [old], those of [new] are loaded, and the code returns to
    the [ra] of [new]. *)
Lemma swtch_ok here m old new (mm := saves (h_reg m) old context_saved (h_mem m)) :
  window xlate (h_csr m satp) (h_reg m a0) old 112 → window xlate (h_csr m satp) (h_reg m a1) new 112 → h_stale m = false →
  ∃ m', exec xlate here swtch m = Some m' ∧ h_mem m' = mm ∧ h_csr m' = h_csr m ∧ h_stale m' = false ∧
    (∀ r o, context_off r = Some o → h_reg m' r = load64 mm (new + o)) ∧ (∀ r, context_off r = None → h_reg m' r = h_reg m r) ∧ h_pc m' = h_reg m' ra.
Proof.
  intros HO HN Hs. destruct context_saved_ok as (Hf & Hd & _ & _ & Ha). rewrite swtch_eq.
  destruct (exec_saves xlate here a0 context_saved ((Ld' a1 <$> context_saved) ++ [Ret]) m old 0 112) as [p1 ->]; [done..|]. fold mm.
  destruct (exec_restores xlate here a1 context_saved [Ret]
    (mkhart (h_reg m) (h_csr m) mm (h_pc m) (h_super m) p1 false) new 0 112) as [p2 ->]; [done..|].
  cbn [exec exec1 mbind option_bind]. eexists. split; [done|]. split_and!; try done.
  - intros r o Ho. by apply restores_at, in_context_saved.
  - intros r Hr. by apply restores_other, not_context_saved.
Qed.

(** What a call of a C function keeps: the stack pointer and the registers
    [s0] to [s11]. *)
Definition kept (R R' : reg → Z) : Prop := R' sp = R sp ∧ ∀ r, r ∈ callee_saved → R' r = R r.

Lemma kept_context R R' : (∀ r o, context_off r = Some o → R' r = R r) → kept R R'.
Proof.
  intros HR. split; [by eapply HR|]. intros r Hr. destruct (context_off r) as [o|] eqn:Eo; [by eapply HR|].
  exfalso. revert Hr. change (r ∉ callee_saved). destruct r; try done; by apply (bool_decide_unpack _); vm_compute.
Qed.
End switch.

(** C23: a thread that leaves the CPU by [swtch(mine, other)] goes on, when some
    hart (the same or another, in any state) later runs [swtch(theirs, mine)],
    as if its own call of [swtch] had returned: at the return address of that
    call, with its stack pointer and its callee-saved registers, provided that
    the 112 bytes of its context are as [swtch] left them and do not overlap
    with [theirs]; and nothing but [mine] was written on leaving and nothing
    but [theirs] on coming back. *)
Theorem swtch_resumes xlate here m mine other :
  window xlate (h_csr m satp) (h_reg m a0) mine 112 → window xlate (h_csr m satp) (h_reg m a1) other 112 → h_stale m = false → regs_ok (h_reg m) →
  ∃ m', exec xlate here swtch m = Some m' ∧ (∀ x, x < mine ∨ mine + 112 ≤ x → ldb (h_mem m') x = ldb (h_mem m) x) ∧
    ∀ n theirs, window xlate (h_csr n satp) (h_reg n a0) theirs 112 → window xlate (h_csr n satp) (h_reg n a1) mine 112 → h_stale n = false →
      disjoint_ranges mine 112 theirs 112 → (∀ x, mine ≤ x < mine + 112 → ldb (h_mem n) x = ldb (h_mem m') x) →
      ∃ n', exec xlate here swtch n = Some n' ∧ h_pc n' = h_reg m ra ∧ kept (h_reg m) (h_reg n') ∧
        (∀ x, x < theirs ∨ theirs + 112 ≤ x → ldb (h_mem n') x = ldb (h_mem n) x).
Proof.
  intros HO HN Hs HR. destruct context_saved_ok as (Hf & _ & Hd & _).
  destruct (swtch_ok xlate here m mine other HO HN Hs) as (m' & E & Hm & _). exists m'. split; [done|].
  split; [intros x Hx; rewrite Hm; by apply (saves_frame _ _ 0 112); [|lia..]|]. intros n theirs HO' HN' Hs' HD Hk.
  destruct (swtch_ok xlate here n theirs mine HO' HN' Hs') as (n' & E' & Hn & _ & _ & Hr & _ & Hpc). exists n'.
  assert (Hregs : ∀ r o, context_off r = Some o → h_reg n' r = h_reg m r).
  { intros r o Ho. rewrite (Hr r o Ho). pose proof (in_context_saved r o Ho) as Hin. destruct (context_off_range r o Ho) as [H1 H2].
    transitivity (load64 (h_mem m') (mine + o)).
    - apply load64_frame. intros x Hx. rewrite <-Hk by lia. apply (saves_frame _ _ 0 112); [done|]. unfold disjoint_ranges in HD. lia.
    - rewrite Hm, (saves_at _ _ 0 112 _ _ r) by done. apply u64_id, HR. }
  split_and!; [done|by rewrite Hpc; eapply Hregs|by apply kept_context|]. intros x Hx. rewrite Hn. apply (saves_frame _ _ 0 112); [done|lia].
Qed.

(** A thread and the scheduler, their contexts in one page. *)
Definition demo_xlate (table va : Z) : option Z := if (4096 <=? va) && (va <? 8192) then Some va else None.

Lemma demo_window a n : 4096 ≤ a → a + n ≤ 8192 → a mod 8 = 0 → window demo_xlate 0 a a n.
Proof.
  intros H1 H2 H3. split_and!; [done|lia|lia|]. intros o Ho. unfold demo_xlate. by rewrite (proj2 (Z.leb_le 4096 _)), (proj2 (Z.ltb_lt _ 8192)) by lia.
Qed.

Definition demo_thread : reg → Z := λ r, match r with a0 => 4096 | a1 => 4224 | ra => 77 | sp => 8000 | s3 => 33 | _ => 5 end.
Definition demo_sched : reg → Z := λ r, match r with a0 => 4224 | a1 => 4096 | _ => 0 end.
Definition demo_hart (R : reg → Z) (mm : mem) : hart := mkhart R (λ _, 0) mm 0 true false false.

Lemma demo_thread_ok : regs_ok demo_thread.
Proof. intros r. destruct r; cbn; lia. Qed.

Lemma swtch_resumes_witness : ∃ m' n', exec demo_xlate 0 swtch (demo_hart demo_thread (λ _, 0)) = Some m' ∧
    exec demo_xlate 0 swtch (demo_hart demo_sched (h_mem m')) = Some n' ∧ h_pc n' = 77 ∧ h_reg n' s3 = 33.
Proof.
  destruct (swtch_resumes demo_xlate 0 (demo_hart demo_thread (λ _, 0)) 4096 4224 (demo_window 4096 112 ltac:(lia) ltac:(lia) eq_refl)
    (demo_window 4224 112 ltac:(lia) ltac:(lia) eq_refl) eq_refl demo_thread_ok) as (m' & E & _ & Hk).
  destruct (Hk (demo_hart demo_sched (h_mem m')) 4224 (demo_window 4224 112 ltac:(lia) ltac:(lia) eq_refl)
    (demo_window 4096 112 ltac:(lia) ltac:(lia) eq_refl) eq_refl ltac:(left; lia) ltac:(done)) as (n' & E' & Hpc & (_ & Hkept) & _).
  exists m', n'. split_and!; [exact E|exact E'|exact Hpc|]. apply Hkept. apply (bool_decide_unpack _). vm_compute. exact I.
Defined.

(** * Traps in the kernel *)

Lemma kv_saved_ok : Forall (fits 0 256) kv_saved ∧ Forall (fits 0 256) kv_restored ∧ NoDup kv_restored.*1 ∧ NoDup kv_saved.*2 ∧ sp ∉ kv_restored.*1.
Proof. apply (bool_decide_unpack _). vm_compute. exact I. Qed.

Lemma kernelvec_eq kt back : kernelvec kt back = Addi sp sp (-256) :: (Sd' sp <$> kv_saved) ++ [Call kt back].
Proof. reflexivity. Qed.

Lemma kernelvec_back_eq : kernelvec_back = (Ld' sp <$> kv_restored) ++ [Addi sp sp 256; Sret].
Proof. reflexivity. Qed.

Lemma kv_range r o : (r, o) ∈ kv_saved → 0 ≤ o ∧ o + 8 ≤ 256.
Proof. intros [i Hi]%list_elem_of_lookup_1. destruct (Forall_lookup_1 _ _ _ _ (proj1 kv_saved_ok) Hi) as (H1 & H2 & _). done. Qed.

Lemma kept_ra v R R' : kept (<[ra := v]> R) R' → kept R R'.
Proof.
  intros [H1 H2]. split; [done|]. intros r Hr. rewrite H2 by done. apply fn_lookup_insert_ne. intros <-. revert Hr.
  change (ra ∉ callee_saved). apply (bool_decide_unpack _). vm_compute. exact I.
Qed.

(** A register is restored from the stack, or is one that C keeps, or is [tp]. *)
Lemma kv_cases r : r ≠ tp → (∃ o, (r, o) ∈ kv_saved ∧ (r, o) ∈ kv_restored) ∨ r ∉ kv_restored.*1 ∧ (r = sp ∨ r ∈ callee_saved).
Proof.
  intros Hr. destruct (decide (r ∈ kv_restored.*1)) as [Hin|Hn].
  - left. apply list_elem_of_fmap in Hin as ([r' o] & -> & Hin). exists o. split; [|done]. unfold kv_restored in Hin. by apply list_elem_of_filter in Hin as [_ Hin].
  - right. split; [done|]. destruct r; try done; try (by left); try (right; by apply (bool_decide_unpack _); vm_compute);
      exfalso; apply Hn; by apply (bool_decide_unpack _); vm_compute.
Qed.

Lemma kernelvec_ok xlate here kt back m pa (R := <[sp := u64 (h_reg m sp + -256)]> (h_reg m)) :
  window xlate (h_csr m satp) (R sp) pa 256 → h_stale m = false →
  ∃ p, exec xlate here (kernelvec kt back) m = Some (mkhart (<[ra := back]> R) (h_csr m) (saves R pa kv_saved (h_mem m)) kt (h_super m) p false).
Proof.
  intros HW Hs. destruct kv_saved_ok as (Hf & _). rewrite kernelvec_eq. cbn [exec exec1 mbind option_bind].
  destruct (exec_saves xlate here sp kv_saved [Call kt back] (set_reg sp (u64 (h_reg m sp + -256)) m) pa 0 256) as [p ->]; [done..|]. by exists p.
Qed.

Lemma kernelvec_back_ok xlate here m pa (R := restores (h_mem m) pa kv_restored (h_reg m)) :
  window xlate (h_csr m satp) (h_reg m sp) pa 256 → h_stale m = false →
  ∃ p, exec xlate here kernelvec_back m = Some (sret (mkhart (<[sp := u64 (h_reg m sp + 256)]> R) (h_csr m) (h_mem m) (h_pc m) (h_super m) p false)).
Proof.
  intros HW Hs. destruct kv_saved_ok as (_ & Hf & _ & _ & Hsp). rewrite kernelvec_back_eq.
  destruct (exec_restores xlate here sp kv_restored [Addi sp sp 256; Sret] m pa 0 256) as [p ->]; [done..|]. exists p.
  cbn [exec exec1 mbind option_bind set_reg h_reg h_csr h_mem h_pc h_super h_pending h_stale]. by rewrite (restores_other _ _ _ _ sp) by done.
Qed.

(** The registers after the trap, when [kerneltrap] kept those it has to. *)
Lemma kernelvec_regs R R' pa mm mm' r (stack := R sp - 256) (K := <[sp := stack]> R) : regs_ok R → 256 ≤ R sp → r ≠ tp →
  kept K R' → (∀ x, pa ≤ x < pa + 256 → ldb mm' x = ldb (saves K pa kv_saved mm) x) →
  <[sp := u64 (R' sp + 256)]> (restores mm' pa kv_restored R') r = R r.
Proof.
  intros HR Hsp Hr [Hk1 Hk2] Hm. destruct kv_saved_ok as (Hf & _ & Hd & Hd2 & _). pose proof (HR sp) as Hspr.
  destruct (decide (r = sp)) as [-> | Hns].
  { rewrite fn_lookup_insert, Hk1. unfold K. rewrite fn_lookup_insert. unfold stack. rewrite u64_id; lia. }
  rewrite fn_lookup_insert_ne by done. destruct (kv_cases r Hr) as [(o & H1 & H2) | [Hn [-> | Hc]]]; [|done|].
  - rewrite (restores_at _ _ _ _ _ _ Hd H2). destruct (kv_range r o H1) as [Ho1 Ho2].
    transitivity (load64 (saves K pa kv_saved mm) (pa + o)); [apply load64_frame; intros x Hx; apply Hm; lia|].
    rewrite (saves_at _ _ 0 256 _ _ r) by done. unfold K. rewrite fn_lookup_insert_ne by done. apply u64_id, HR.
  - rewrite restores_other, Hk2 by done. unfold K. by rewrite fn_lookup_insert_ne.
Qed.

(** C24: an interrupt in the kernel is invisible to the code it interrupts.  With
    256 bytes of stack below the stack pointer, [kernelvec] reaches
    [kerneltrap] with its own return address in [ra] and nothing written but
    those bytes; and when [kerneltrap] returns as the calling convention says
    (stack pointer and [s0] to [s11] kept, the bytes above its stack
    untouched, the same page table) having put back [sepc] and [sstatus], the
    code goes on where it was, in supervisor mode, with the same interrupt
    enable bit and the same value in every register but [tp], which is that of
    the hart it is on now. *)
Theorem kernelvec_transparent xlate here kt back m pa (stack := h_reg m sp - 256) :
  h_super m = true → h_stale m = false → regs_ok (h_reg m) → 256 ≤ h_reg m sp → window xlate (h_csr m satp) stack pa 256 →
  ∃ m1, exec xlate here (kernelvec kt back) (take_trap m) = Some m1 ∧ h_pc m1 = kt ∧ h_reg m1 ra = back ∧ h_reg m1 sp = stack ∧ h_csr m1 satp = h_csr m satp ∧ h_stale m1 = false ∧
    (∀ x, x < pa ∨ pa + 256 ≤ x → ldb (h_mem m1) x = ldb (h_mem m) x) ∧
    ∀ m2, kept (h_reg m1) (h_reg m2) → (∀ x, pa ≤ x < pa + 256 → ldb (h_mem m2) x = ldb (h_mem m1) x) → h_csr m2 satp = h_csr m satp → h_stale m2 = false →
      h_csr m2 sepc = h_csr m1 sepc → h_csr m2 sstatus = h_csr m1 sstatus →
      ∃ m3, exec xlate here kernelvec_back m2 = Some m3 ∧ h_pc m3 = h_pc m ∧ h_super m3 = true ∧ h_mem m3 = h_mem m2 ∧
        Z.testbit (h_csr m3 sstatus) SIE_bit = Z.testbit (h_csr m sstatus) SIE_bit ∧ h_reg m3 tp = h_reg m2 tp ∧ ∀ r, r ≠ tp → h_reg m3 r = h_reg m r.
Proof.
  intros Hsup Hs HR Hsp HW. destruct kv_saved_ok as (Hf & _). pose proof (HR sp) as Hspr. destruct (take_trap_ok m) as (T1 & T2 & T3 & T4).
  assert (Hst : u64 (h_reg m sp + -256) = stack) by (rewrite u64_id; unfold stack; lia).
  destruct (kernelvec_ok xlate here kt back (take_trap m) pa) as [p E]; [change (h_reg (take_trap m)) with (h_reg m); by rewrite fn_lookup_insert, Hst, T4|done|].
  change (h_reg (take_trap m)) with (h_reg m) in E. change (h_mem (take_trap m)) with (h_mem m) in E. rewrite Hst in E.
  eexists. split; [exact E|]. cbn [h_pc h_reg h_csr h_mem]. clear E.
  split_and!; [done|done|done|done|done|intros x Hx; apply (saves_frame _ _ 0 256); [done|lia]|]. intros m2 Hk Hm2 Hsatp Hs2 Hepc Hss.
  assert (Hk' : kept (<[sp := stack]> (h_reg m)) (h_reg m2)) by (by apply kept_ra in Hk).
  destruct (kernelvec_back_ok xlate here m2 pa) as [p2 E]; [rewrite Hsatp, (proj1 Hk'); exact HW|done|]. eexists. split; [exact E|]. clear E.
  match goal with |- context [sret ?x] => destruct (sret_ok x) as [S1 S2] end. rewrite S1, S2. cbn [h_csr]. rewrite Hss, T2, T3.
  split_and!; [by rewrite <-T1, <-Hepc|done|done|done| |].
  - cbn [sret set_super set_pc set_csr h_reg]. rewrite fn_lookup_insert_ne by done. apply restores_other. apply (bool_decide_unpack _). vm_compute. exact I.
  - intros r Hr. by apply (kernelvec_regs (h_reg m) (h_reg m2) pa (h_mem m)).
Qed.

(** A [kerneltrap] that returns at once. *)
Lemma kernelvec_transparent_witness : ∃ m1 m3, exec demo_xlate 0 (kernelvec 100 200) (take_trap (demo_hart demo_thread (λ _, 0))) = Some m1 ∧
  exec demo_xlate 0 kernelvec_back m1 = Some m3 ∧ h_pc m3 = 0 ∧ h_super m3 = true ∧ h_reg m3 sp = 8000 ∧ h_reg m3 ra = 77.
Proof.
  destruct (kernelvec_transparent demo_xlate 0 100 200 (demo_hart demo_thread (λ _, 0)) 7744 eq_refl eq_refl demo_thread_ok ltac:(done)
    (demo_window 7744 256 ltac:(lia) ltac:(lia) eq_refl)) as (m1 & E & _ & _ & _ & Hsatp & Hs & _ & Hk).
  destruct (Hk m1 (conj eq_refl (λ _ _, eq_refl)) (λ _ _, eq_refl) Hsatp Hs eq_refl eq_refl) as (m3 & E3 & Hpc & Hsup & _ & _ & _ & Hr).
  exists m1, m3. split_and!; [exact E|exact E3|exact Hpc|exact Hsup|exact (Hr sp ltac:(discriminate))|exact (Hr ra ltac:(discriminate))].
Defined.

(** * The first instructions *)

(** Every hart has its own 4096 bytes of [stack0], and starts at their end. *)
Lemma boot_entry_ok xlate here stack0 start spin m :
  0 ≤ h_csr m mhartid < NCPU → 0 ≤ stack0 → stack0 + 4096 * NCPU < 18446744073709551616 →
  ∃ m', exec xlate here (_entry stack0 start spin) m = Some m' ∧ h_pc m' = start ∧ h_mem m' = h_mem m ∧
    h_reg m' sp = stack0 + 4096 * (h_csr m mhartid + 1).
Proof.
  intros Hh H0 H1. unfold NCPU in *. eexists. split; [done|]. split_and!; [done|done|].
  transitivity (u64 (u64 stack0 + u64 (u64 (1024 * 4) * u64 (h_csr m mhartid + 1)))); [reflexivity|].
  rewrite (u64_id stack0), (u64_id (1024 * 4)), (u64_id (h_csr m mhartid + 1)) by lia. rewrite (u64_id (1024 * 4 * _)) by lia. rewrite u64_id; lia.
Qed.
