(* ===== verification/TrapSpec.v ===== *)
(** A system call from the user program's [ecall] to the instruction after it:
    the assembly of trampoline.S (Asm.v) put together with [usertrap], [syscall]
    and [prepare_return] (Trap.v, Syscall.v).

    The theorems: the program finds the result of the call in [a0] and every
    other register as it was, and is again in the state in which a trap can be
    taken; a stub of usys.pl reaches the handler of its number, with the
    caller's arguments, and returns to the caller. *)

From stdpp Require Import base tactics functions list numbers strings gmap.
From S2P Require Import Prelude Param Bytes CString Spinlock Csr TxSpec UserSpec Vm VmUser Fs File Kalloc Proc Syscall ProcMem Sysproc Trap Asm FdSpec.
From Stdlib Require Import ZArith Lia.
Import Reg.

Open Scope kernel_scope.

(** * The C part *)

Section usertrap.
  Context {F H : Type} `{TX : Txn F H}.
  Context (me kend trampoline uservec usertrap_ kernelvec : Z) (handlers : Z → option (M (sys F) Z)).
  Context (plic_claim : M (tst F) Z) (plic_complete : Z → M (tst F) unit) (uartintr virtio_disk_intr : M (tst F) unit).

(** Physical memory, the process table, the hart's counter. *)
Definition ms (y : sys F) : mem := pmem (view kmL y).
Definition with_ms (mm : mem) (y : sys F) : sys F := upd kmL (set_pmem mm (view kmL y)) y.
Definition with_pt (t : ptable) (y : sys F) : sys F := upd ptL t y.
Definition with_cpu (c : cpu) (y : sys F) : sys F := with_pt (set_pcpu c (y_pt y)) y.
Definition tfa (y : sys F) : Z := p_trapframe (cur y).

Lemma ptm_ok {A} (m : M ptable A) s a t : m (y_pt (t_sys s)) = Ok a t → ptm m s = Ok a (mktst (with_pt t (t_sys s)) (t_csr s)).
Proof. intros E. unfold ptm, pt_. erewrite zoom_ok; [done|]. cbn [view sysL]. by apply zoom_ok. Qed.

Lemma y_ok {A} (m : M (sys F) A) s a y : m (t_sys s) = Ok a y → y_ m s = Ok a (mktst y (t_csr s)).
Proof. intros E. unfold y_. by erewrite zoom_ok. Qed.

Lemma tf_set_ok o v s : y_ (tf_set o v) s = Ok tt (mktst (with_ms (store64 (ms (t_sys s)) (tfa (t_sys s) + o) v) (t_sys s)) (t_csr s)).
Proof. reflexivity. Qed.

Lemma killed_ok p t : tok t → pvalid t p → killed me p t = Ok (p_killed (getp t p)) (unlocked_by t).
Proof.
  intros Ht Hp. unfold killed. rewrite (bind_ok _ _ _ _ _ (crit_acq me _ _ Ht Hp)), bind_gets, (crit_get me) by done.
  by rewrite (bind_ok _ _ _ _ _ (crit_rel_id me _ _ Ht Hp)).
Qed.

(** The process that makes the call is alive, and holds no lock. *)
Record callable (y : sys F) : Prop := {
  ca_tok : tok (y_pt y);
  ca_noff : noff (pcpu (y_pt y)) = 0;
  ca_proc : pvalid (y_pt y) (cpu_proc (y_pt y));
  ca_alive : p_killed (cur y) = 0;
}.

Lemma callable_unlocked y : callable y → callable (with_pt (unlocked_by (y_pt y)) y).
Proof.
  intros [H1 H2 H3 H4]. constructor; [by apply tok_unlocked| |done|done].
  change (noff (popped (pushed (pcpu (y_pt y)))) = 0). destruct (popped_pushed _ (tok_cpu _ H1)) as (-> & _). done.
Qed.

Lemma callable_cpu y c : callable y → noff c = 0 → callable (with_cpu c y).
Proof.
  intros [H1 H2 H3 H4] Hc. constructor; [|done|done|done]. destruct H1 as [A B C]. constructor; [done| |done]. split; cbn; [rewrite Hc; lia|rewrite Hc; lia].
Qed.

Lemma callable_ms y mm : callable y → callable (with_ms mm y).
Proof. intros [H1 H2 H3 H4]. by constructor. Qed.

Lemma unlocked_by_cpu y : with_pt (unlocked_by (y_pt y)) y = with_cpu (popped (pushed (pcpu (y_pt y)))) y.
Proof. reflexivity. Qed.

Lemma alive_ok y : callable y → killed me (cpu_proc (y_pt y)) (y_pt y) = Ok 0 (unlocked_by (y_pt y)).
Proof. intros [H1 H2 H3 H4]. rewrite killed_ok by done. by rewrite <-H4. Qed.

(** The state in which the handler of a call at [pc] runs. *)
Definition calling (pc : Z) (y : sys F) : sys F :=
  let c := popped (pushed (popped (pushed (pcpu (y_pt y))))) in
  with_ms (store64 (store64 (ms y) (tfa y + TF_epc) pc) (tfa y + TF_epc) (u64 (u64 pc + 4))) (with_cpu (Spinlock.set_sie true c) y).

(** The array of handlers, and what [syscall] does with it. *)
Definition call (y : sys F) : outcome (sys F) Z :=
  let num := s32 (tf_get y TF_a7) in
  match (if (0 <? num) && (num <? 22) then handlers num else None) with
  | Some h => h y
  | None => Ok (-1) y
  end.

Lemma syscall_ok y r y' : call y = Ok r y' → syscall handlers y = Ok tt (with_ms (store64 (ms y') (tfa y' + TF_a0) (u64 r)) y').
Proof.
  unfold call, syscall. rewrite bind_get. cbv zeta.
  match goal with |- context [if ?b then handlers ?n else None] => destruct (if b then handlers n else None) as [h|] end; intros E.
  - by rewrite (bind_ok _ _ _ _ _ E).
  - injection E as <- <-. reflexivity.
Qed.

(** The trapframe and the registers that [prepare_return] sets up. *)
Definition prepared (c : csrs) (y : sys F) : mem :=
  let put o v mm := store64 mm (tfa y + o) v in
  put TF_kernel_hartid (c_tp c) (put TF_kernel_trap usertrap_ (put TF_kernel_sp (p_kstack (cur y) + PGSIZE) (put TF_kernel_satp (c_satp c) (ms y)))).

Definition prepared_csrs (c : csrs) (epc : Z) : csrs :=
  set_sepc (u64 epc) (set_sstatus (u64 (Z.lor (Z.land (c_sstatus c) (Z.lnot SSTATUS_SPP)) SSTATUS_SPIE)) (set_stvec (u64 (TRAMPOLINE + (uservec - trampoline))) c)).

Lemma prepare_return_ok y c (mm := prepared c y) :
  prepare_return trampoline uservec usertrap_ (mktst y c) =
    Ok tt (mktst (with_ms mm (with_cpu (Spinlock.set_sie false (pcpu (y_pt y))) y)) (prepared_csrs c (load64 mm (tfa y + TF_epc)))).
Proof. reflexivity. Qed.

(** [usertrap] on a system call. *)
Lemma usertrap_cause_ok y c r y2 : callable y → c_scause c = 8 → tf_get y TF_epc = u64 (c_sepc c) →
  let c1 := popped (pushed (pcpu (y_pt y))) in
  call (with_ms (store64 (ms y) (tfa y + TF_epc) (u64 (u64 (c_sepc c) + 4))) (with_cpu (Spinlock.set_sie true c1) y)) = Ok r y2 →
  usertrap_cause me kend handlers plic_claim plic_complete uartintr virtio_disk_intr (cpu_proc (y_pt y)) (mktst y c) =
    Ok 0 (mktst (with_ms (store64 (ms y2) (tfa y2 + TF_a0) (u64 r)) y2) c).
Proof.
  intros Hca Hc Hepc c1 E. unfold usertrap_cause. rewrite (bind_ok _ _ _ (c_scause c) (mktst y c)) by reflexivity. rewrite Hc. cbn [Z.eqb Pos.eqb].
  rewrite (bind_ok _ _ _ _ _ (ptm_ok _ (mktst y c) _ _ (alive_ok y Hca))). cbn [Z.eqb negb t_sys t_csr]. rewrite bind_ret, bind_get. cbn [t_sys].
  change (tf_get (with_pt (unlocked_by (y_pt y)) y) TF_epc) with (tf_get y TF_epc). rewrite Hepc.
  rewrite (bind_ok _ _ _ _ _ (tf_set_ok _ _ _)). cbn [t_sys t_csr]. set (yc := with_ms _ (with_cpu _ y)) in E.
  rewrite (bind_ok _ _ _ tt (mktst yc c)) by reflexivity. by rewrite (bind_ok _ _ _ _ _ (y_ok _ (mktst yc c) _ _ (syscall_ok _ _ _ E))).
Qed.

Lemma usertrap_syscall y c r y2 : callable y → c_scause c = 8 → Z.land (c_sstatus c) SSTATUS_SPP = 0 →
  call (calling (c_sepc c) y) = Ok r y2 → callable y2 → cpu_proc (y_pt y2) = cpu_proc (y_pt y) →
  let y3 := with_ms (store64 (ms y2) (tfa y2 + TF_a0) (u64 r)) (with_cpu (popped (pushed (pcpu (y_pt y2)))) y2) in
  let c' := set_stvec (u64 kernelvec) c in
  let mm := prepared c' y3 in
  usertrap me kend trampoline uservec usertrap_ kernelvec handlers plic_claim plic_complete uartintr virtio_disk_intr (mktst y c) =
    Ok (MAKE_SATP (p_pagetable (cur y2)))
       (mktst (with_ms mm (with_cpu (Spinlock.set_sie false (pcpu (y_pt y3))) y3)) (prepared_csrs c' (load64 mm (tfa y3 + TF_epc)))).
Proof.
  intros Hca Hc Hspp E Hca2 Hp y3 c' mm. unfold usertrap. rewrite (bind_ok _ _ _ (c_sstatus c) (mktst y c)) by reflexivity. rewrite Hspp. cbn [Z.eqb negb].
  rewrite (bind_ok _ _ _ tt (mktst y c')) by reflexivity.
  rewrite (bind_ok _ _ _ _ _ (ptm_ok _ (mktst y c') _ _ (myproc_ok _ (tok_cpu _ (ca_tok _ Hca))))). cbn [t_sys t_csr].
  set (y1 := with_pt _ y). rewrite (bind_ok _ _ _ (c_sepc c) (mktst y1 c')) by reflexivity.
  rewrite (bind_ok _ _ _ _ _ (tf_set_ok _ _ _)). cbn [t_sys t_csr]. set (y1' := with_ms _ y1).
  assert (Hca1 : callable y1') by (apply callable_ms; by apply callable_unlocked).
  rewrite (bind_ok _ _ _ _ _ (usertrap_cause_ok y1' c' r y2 Hca1 Hc (load64_store64_eq _ _ _) E)).
  set (y2' := with_ms _ y2). assert (Hca2' : callable y2') by by apply callable_ms.
  change (cpu_proc (y_pt (t_sys (mktst y c')))) with (cpu_proc (y_pt y)). rewrite <-Hp. change (cpu_proc (y_pt y2)) with (cpu_proc (y_pt y2')).
  rewrite (bind_ok _ _ _ _ _ (ptm_ok _ (mktst y2' c') _ _ (alive_ok y2' Hca2'))). cbn [Z.eqb negb t_sys t_csr]. rewrite !bind_ret.
  reflexivity.
Qed.
End usertrap.

(** * Assembly and C *)

Section syscall.
  Context {F H : Type} `{TX : Txn F H} (xlate : Z → Z → option Z).
  Context (me kend trampoline uservec usertrap_ kernelvec userret_ : Z) (handlers : Z → option (M (sys F) Z)).
  Context (plic_claim : M (tst F) Z) (plic_complete : Z → M (tst F) unit) (uartintr virtio_disk_intr : M (tst F) unit).

(** [scause], set by the trap. *)
Definition with_cause (v : Z) (c : csrs) : csrs :=
  mkcsrs (c_mhartid c) (c_mstatus c) (c_mepc c) (c_sstatus c) (c_sip c) (c_sie c) (c_mie c) (c_sepc c) (c_medeleg c) (c_mideleg c) (c_stvec c)
    (c_stimecmp c) (c_menvcfg c) (c_pmpcfg0 c) (c_pmpaddr0 c) (c_satp c) v (c_stval c) (c_mcounteren c) (c_time c) (c_tp c).

(** The kernel's state when [usertrap] is entered after an [ecall]: memory and
    control registers are those of the hart. *)
Definition entering (m : hart) (s : tst F) : tst F :=
  mktst (with_ms (h_mem m) (with_cpu (Spinlock.set_sie false (pcpu (y_pt (t_sys s)))) (t_sys s)))
    (with_cause 8 (set_sstatus (h_csr m sstatus) (set_sepc (h_csr m sepc) (set_satp (h_csr m satp) (set_stvec (h_csr m stvec) (set_tp (h_reg m tp) (t_csr s))))))).

(** The hart when [usertrap] has returned [v]; [R] is what it left in the
    registers. *)
Definition leaving (v : Z) (R : reg → Z) (m : hart) (s : tst F) : hart :=
  mkhart (<[a0 := v]> R)
    (λ c, match c with sstatus => c_sstatus (t_csr s) | sepc => c_sepc (t_csr s) | satp => c_satp (t_csr s) | stvec => c_stvec (t_csr s) | _ => h_csr m c end)
    (ms (t_sys s)) (h_reg m ra) true true false.

(** The hart runs the current process in user mode, and a trap would find its
    way into the kernel. *)
Record in_user (m : hart) (s : tst F) : Prop := {
  iu_mode : h_super m = false;
  iu_table : h_stale m = false;
  iu_regs : regs_ok (h_reg m);
  iu_mem : h_mem m = ms (t_sys s);
  iu_stvec : h_csr m stvec = u64 (TRAMPOLINE + (uservec - trampoline));
  iu_satp : h_csr m satp = MAKE_SATP (p_pagetable (cur (t_sys s)));
  iu_frame : window xlate (h_csr m satp) TRAPFRAME (tfa (t_sys s)) 288;
  iu_trampoline : xlate (tf_get (t_sys s) TF_kernel_satp) TRAMPOLINE = xlate (h_csr m satp) TRAMPOLINE;
  iu_sp : tf_get (t_sys s) TF_kernel_sp = u64 (p_kstack (cur (t_sys s)) + PGSIZE);
  iu_trap : tf_get (t_sys s) TF_kernel_trap = u64 usertrap_;
  iu_proc : callable (t_sys s);
}.

(** What a handler keeps for the process that called it: its page table, its
    kernel stack, and the saved registers. *)
Record keeps_frame (y y' : sys F) : Prop := {
  kf_callable : callable y';
  kf_proc : cpu_proc (y_pt y') = cpu_proc (y_pt y);
  kf_tf : tfa y' = tfa y;
  kf_pagetable : p_pagetable (cur y') = p_pagetable (cur y);
  kf_regs : ∀ x, tfa y + TF_epc ≤ x < tfa y + SIZEOF_TRAPFRAME → ldb (ms y') x = ldb (ms y) x;
}.

Lemma tf_get_ms (y : sys F) mm o : tf_get (with_ms mm y) o = load64 mm (tfa y + o).
Proof. reflexivity. Qed.

(** The words of the trapframe after [prepare_return]. *)
Lemma prepared_words c (y : sys F) : let w o := load64 (prepared usertrap_ c y) (tfa y + o) in
  w TF_kernel_satp = u64 (c_satp c) ∧ w TF_kernel_sp = u64 (p_kstack (cur y) + PGSIZE) ∧ w TF_kernel_trap = u64 usertrap_ ∧
  w TF_epc = load64 (ms y) (tfa y + TF_epc) ∧ ∀ r, w (tf_off r) = load64 (ms y) (tfa y + tf_off r).
Proof.
  unfold prepared. cbv zeta.
  split_and!; [..|intros r; assert (Hr : 40 ≤ tf_off r) by (destruct r; cbn; lia)];
    repeat first [rewrite load64_store64_eq; done
      |rewrite load64_store64_ne by (unfold disjoint_ranges, TF_kernel_satp, TF_kernel_sp, TF_kernel_trap, TF_epc, TF_kernel_hartid in *; lia)]; done.
Qed.

Lemma prepared_csrs_ok c epc : let c' := prepared_csrs trampoline uservec c epc in
  Z.testbit (c_sstatus c') SPP_bit = false ∧ Z.testbit (c_sstatus c') SPIE_bit = true ∧ c_sepc c' = u64 epc ∧
  c_stvec c' = u64 (TRAMPOLINE + (uservec - trampoline)) ∧ c_satp c' = c_satp c.
Proof.
  cbv zeta. unfold prepared_csrs. cbn [set_sepc set_sstatus set_stvec c_sstatus c_sepc c_stvec c_satp]. unfold u64 at 1 2. split_and!; try done.
  - rewrite (Z.mod_pow2_bits_low _ 64) by done. rewrite Z.lor_spec, Z.land_spec. by rewrite Z.lnot_spec, andb_false_r by done.
  - rewrite (Z.mod_pow2_bits_low _ 64) by done. rewrite Z.lor_spec. by rewrite orb_true_r.
Qed.

(** The registers in the state in which the handler runs, and after the call. *)
Lemma frame_after (y y2 : sys F) pc r reg : keeps_frame (calling pc y) y2 →
  load64 (store64 (ms y2) (tfa y2 + TF_a0) (u64 r)) (tfa y + tf_off reg) = if decide (reg = a0) then u64 r else load64 (ms y) (tfa y + tf_off reg).
Proof.
  intros Hk. rewrite (kf_tf _ _ Hk). change (tfa (calling pc y)) with (tfa y). destruct (decide (reg = a0)) as [-> | Hr].
  - change (tf_off a0) with TF_a0. rewrite load64_store64_eq. apply u64_id, u64_range.
  - rewrite load64_store64_ne by (apply aligned_disjoint; [done|apply tf_off_aligned|by destruct reg]).
    assert (Hb : 40 ≤ tf_off reg ∧ tf_off reg + 8 ≤ 288) by (destruct reg; cbn; lia).
    transitivity (load64 (ms (calling pc y)) (tfa y + tf_off reg)).
    + apply load64_frame. intros x Hx. apply (kf_regs _ _ Hk). change (tfa (calling pc y)) with (tfa y). unfold TF_epc, SIZEOF_TRAPFRAME. lia.
    + change (ms (calling pc y)) with (store64 (store64 (ms y) (tfa y + TF_epc) pc) (tfa y + TF_epc) (u64 (u64 pc + 4))).
      rewrite !load64_store64_ne by (unfold disjoint_ranges, TF_epc; lia). done.
Qed.

(** The state [usertrap] starts from is that of a callable process. *)
Lemma entering_callable m s : callable (t_sys s) → callable (t_sys (entering m s)).
Proof. intros Hca. apply callable_ms, callable_cpu; [done|]. apply Hca. Qed.

(** The kernel's state when the registers of [m] have been saved, which is the
    state with which [usertrap] starts. *)
Definition saved (m : hart) (y : sys F) : sys F :=
  with_ms (trapped (tfa y) (h_reg m) (h_mem m)) (with_cpu (Spinlock.set_sie false (pcpu (y_pt y))) y).

Lemma spp_clear x : Z.testbit x SPP_bit = false → Z.land x SSTATUS_SPP = 0.
Proof.
  intros Hx. apply Z.bits_inj'. intros n Hn. unfold SSTATUS_SPP. rewrite Z.land_spec, Z.bits_0.
  destruct (decide (n = 8)) as [-> |]; [unfold SPP_bit in Hx; by rewrite Hx|]. change (Z.shiftl 1 8) with (2 ^ 8). rewrite Z.pow2_bits_false by done. apply andb_false_r.
Qed.

(** From the user program into [usertrap]. *)
Lemma uservec_enters m s : in_user m s → ∃ m1, exec xlate TRAMPOLINE (Asm.uservec userret_) (take_trap m) = Some m1 ∧
  h_pc m1 = u64 usertrap_ ∧ h_reg m1 ra = userret_ ∧ h_reg m1 sp = u64 (p_kstack (cur (t_sys s)) + PGSIZE) ∧ h_csr m1 satp = tf_get (t_sys s) TF_kernel_satp ∧
  t_sys (entering m1 s) = saved m (t_sys s) ∧ c_sepc (t_csr (entering m1 s)) = h_pc m ∧ Z.land (c_sstatus (t_csr (entering m1 s))) SSTATUS_SPP = 0.
Proof.
  intros Hu. destruct (take_trap_ok m) as (T1 & T2 & T3 & T4). pose proof (iu_mem _ _ Hu) as Hm.
  assert (Hw : ∀ o, load64 (h_mem m) (tfa (t_sys s) + o) = tf_get (t_sys s) o) by (intros o; rewrite Hm; reflexivity).
  pose proof (uservec_ok xlate (tfa (t_sys s)) userret_ (take_trap m)) as E. cbv zeta in E. rewrite T4 in E.
  change (h_mem (take_trap m)) with (h_mem m) in E. change (h_reg (take_trap m)) with (h_reg m) in E. rewrite !Hw in E.
  specialize (E (iu_frame _ _ Hu) (iu_table _ _ Hu) (iu_trampoline _ _ Hu)). eexists. split; [exact E|]. clear E.
  destruct (kernel_regs_values (tfa (t_sys s)) userret_ (h_mem m) (h_reg m)) as (K1 & K2 & _). cbn [h_pc h_reg h_csr]. rewrite K1, K2, Hw.
  split_and!; [exact (iu_trap _ _ Hu)|done|exact (iu_sp _ _ Hu)|done|done|exact T1|]. apply spp_clear. rewrite <-(iu_mode _ _ Hu). exact T2.
Qed.

(** The program counter to return to. *)
Lemma epc_after (y y2 : sys F) pc r : keeps_frame (calling pc y) y2 →
  load64 (store64 (ms y2) (tfa y2 + TF_a0) (u64 r)) (tfa y + TF_epc) = u64 (pc + 4).
Proof.
  intros Hk. rewrite (kf_tf _ _ Hk). change (tfa (calling pc y)) with (tfa y).
  rewrite load64_store64_ne by (unfold disjoint_ranges, TF_a0, TF_epc; lia).
  transitivity (load64 (ms (calling pc y)) (tfa y + TF_epc)).
  - apply load64_frame. intros x Hx. apply (kf_regs _ _ Hk). change (tfa (calling pc y)) with (tfa y). unfold TF_epc, SIZEOF_TRAPFRAME in *. lia.
  - change (ms (calling pc y)) with (store64 (store64 (ms y) (tfa y + TF_epc) pc) (tfa y + TF_epc) (u64 (u64 pc + 4))).
    rewrite load64_store64_eq, u64_id by apply u64_range. unfold u64. apply Zplus_mod_idemp_l.
Qed.

(** What [usertrap] leaves when the handler has returned [r] in [y2]. *)
Lemma usertrap_leaves m s m1 r y2 : in_user m s → t_sys (entering m1 s) = saved m (t_sys s) → c_sepc (t_csr (entering m1 s)) = h_pc m →
  Z.land (c_sstatus (t_csr (entering m1 s))) SSTATUS_SPP = 0 → call handlers (calling (h_pc m) (saved m (t_sys s))) = Ok r y2 →
  keeps_frame (calling (h_pc m) (saved m (t_sys s))) y2 →
  ∃ s', usertrap me kend trampoline uservec usertrap_ kernelvec handlers plic_claim plic_complete uartintr virtio_disk_intr (entering m1 s) = Ok (h_csr m satp) s' ∧
    callable (t_sys s') ∧ tfa (t_sys s') = tfa (t_sys s) ∧ h_csr m satp = MAKE_SATP (p_pagetable (cur (t_sys s'))) ∧
    (∀ q, tf_get (t_sys s') (tf_off q) = if decide (q = a0) then u64 r else h_reg m q) ∧
    tf_get (t_sys s') TF_kernel_satp = u64 (h_csr m1 satp) ∧ tf_get (t_sys s') TF_kernel_sp = u64 (p_kstack (cur (t_sys s')) + PGSIZE) ∧
    tf_get (t_sys s') TF_kernel_trap = u64 usertrap_ ∧ c_satp (t_csr s') = h_csr m1 satp ∧ c_sepc (t_csr s') = u64 (h_pc m + 4) ∧
    c_stvec (t_csr s') = u64 (TRAMPOLINE + (uservec - trampoline)) ∧ Z.testbit (c_sstatus (t_csr s')) SPP_bit = false ∧ Z.testbit (c_sstatus (t_csr s')) SPIE_bit = true.
Proof.
  intros Hu Hsys Hsepc Hspp E Hk. pose proof (entering_callable m1 s (iu_proc _ _ Hu)) as Hca. destruct (entering m1 s) as [ye c] eqn:Een.
  assert (Hcause : c_scause c = 8) by (change c with (t_csr (mktst ye c)); rewrite <-Een; reflexivity).
  assert (Hsatp : c_satp c = h_csr m1 satp) by (change c with (t_csr (mktst ye c)); rewrite <-Een; reflexivity).
  cbn [t_sys t_csr] in *. subst ye. rewrite <-Hsepc in E, Hk.
  pose proof (usertrap_syscall me kend trampoline uservec usertrap_ kernelvec handlers plic_claim plic_complete uartintr virtio_disk_intr
    (saved m (t_sys s)) c r y2 Hca Hcause Hspp E (kf_callable _ _ Hk) (kf_proc _ _ Hk)) as E'. cbv zeta in E'.
  set (y3 := with_ms _ (with_cpu _ y2)) in E'. set (c' := set_stvec (u64 kernelvec) c) in E'.
  destruct (prepared_words c' y3) as (P1 & P2 & P3 & P4 & P5). destruct (prepared_csrs_ok c' (load64 (prepared usertrap_ c' y3) (tfa y3 + TF_epc))) as (Q1 & Q2 & Q3 & Q4 & Q5).
  assert (Htf : tfa y3 = tfa (t_sys s)) by exact (kf_tf _ _ Hk).
  assert (Hpt : MAKE_SATP (p_pagetable (cur y2)) = h_csr m satp) by (rewrite (kf_pagetable _ _ Hk); symmetry; exact (iu_satp _ _ Hu)).
  rewrite Hpt in E'. eexists. split; [exact E'|]. clear E'. cbn [t_sys t_csr]. split_and!; try done.
  - apply callable_ms, callable_cpu; [apply callable_ms, callable_cpu; [apply Hk|]|].
    + destruct (callable_unlocked _ (kf_callable _ _ Hk)) as [_ Hn _ _]. exact Hn.
    + destruct (callable_unlocked _ (kf_callable _ _ Hk)) as [_ Hn _ _]. exact Hn.
  - intros q. etransitivity; [exact (P5 q)|]. rewrite Htf.
    etransitivity; [exact (frame_after (saved m (t_sys s)) y2 (c_sepc c) r q Hk)|]. case_decide; [done|]. exact (trapped_reg (tfa (t_sys s)) (h_reg m) (h_mem m) q (iu_regs _ _ Hu)).
  - rewrite <-Hsatp. exact P1.
  - rewrite Q3, P4, Htf. etransitivity; [|exact (u64_id _ (u64_range (h_pc m + 4)))]. f_equal. rewrite <-Hsepc. exact (epc_after (saved m (t_sys s)) y2 (c_sepc c) r Hk).
Qed.

(** The whole way, for any [ecall]. *)
Lemma roundtrip_ok m s r y2 : in_user m s → call handlers (calling (h_pc m) (saved m (t_sys s))) = Ok r y2 →
  keeps_frame (calling (h_pc m) (saved m (t_sys s))) y2 →
  ∃ m1 v s', exec xlate TRAMPOLINE (Asm.uservec userret_) (take_trap m) = Some m1 ∧
    h_pc m1 = u64 usertrap_ ∧ h_reg m1 sp = u64 (p_kstack (cur (t_sys s)) + PGSIZE) ∧ h_csr m1 satp = tf_get (t_sys s) TF_kernel_satp ∧
    usertrap me kend trampoline uservec usertrap_ kernelvec handlers plic_claim plic_complete uartintr virtio_disk_intr (entering m1 s) = Ok v s' ∧
    ∀ R, ∃ m3, exec xlate TRAMPOLINE userret (leaving v R m1 s') = Some m3 ∧ in_user m3 s' ∧ h_pc m3 = u64 (h_pc m + 4) ∧
      Z.testbit (h_csr m3 sstatus) SIE_bit = true ∧ ∀ q, h_reg m3 q = if decide (q = a0) then u64 r else h_reg m q.
Proof.
  intros Hu E Hk. destruct (uservec_enters m s Hu) as (m1 & E1 & Hpc & _ & Hsp & Hks & Hsys & Hsepc & Hspp).
  destruct (usertrap_leaves m s m1 r y2 Hu Hsys Hsepc Hspp E Hk) as (s' & E2 & Hca & Htf & Hpt & Hregs & L1 & L2 & L3 & L4 & L5 & L6 & L7 & L8).
  exists m1, (h_csr m satp), s'. split_and!; [exact E1|exact Hpc|exact Hsp|exact Hks|exact E2|]. clear E1 E2. intros R.
  destruct (userret_ok xlate (tfa (t_sys s)) (leaving (h_csr m satp) R m1 s')) as (m3 & E3 & U1 & U2 & U3 & U4 & U5 & U6 & U7 & U8).
  { exact (iu_frame _ _ Hu). }
  { cbn [leaving h_reg h_csr]. rewrite fn_lookup_insert, L4, Hks. symmetry. exact (iu_trampoline _ _ Hu). }
  assert (Hq : ∀ q, h_reg m3 q = if decide (q = a0) then u64 r else h_reg m q).
  { intros q. rewrite U1, <-Hregs, <-Htf. reflexivity. }
  cbn [leaving h_reg h_csr h_mem] in U2, U3, U4, U6, U7, U8. rewrite fn_lookup_insert in U2.
  exists m3. split_and!; [exact E3| |by rewrite U4|by rewrite U7|exact Hq].
  constructor; [by rewrite U6|exact U5| |exact U3|by rewrite U8|by rewrite U2| | |exact L2|exact L3|exact Hca].
  - intros q. rewrite U1. apply load64_bound.
  - rewrite U2, Htf. exact (iu_frame _ _ Hu).
  - rewrite L1, U2, Hks, u64_id by apply load64_bound. exact (iu_trampoline _ _ Hu).
Qed.

(** C6: a system call, from the [ecall] of the user program to the instruction
    after it, through the assembly of trampoline.S and the C of [usertrap],
    [syscall] and [prepare_return].  A process that runs in user mode, that is
    not killed and whose trapframe has the words of [prepare_return], calls; the
    handler (or the default, for an unknown number) returns [r] and keeps the
    process's page table and saved registers.  Then [uservec] reaches
    [usertrap] on the process's kernel stack with the kernel's page table;
    [usertrap] returns; and [userret], whatever C left in the registers, brings
    the process back to user mode with interrupts on, at [pc + 4], with [r] in
    [a0] and every other register as it was, in a state from which it can make
    the next call. *)
Theorem syscall_roundtrip m s r y2 : in_user m s → call handlers (calling (h_pc m) (saved m (t_sys s))) = Ok r y2 →
  keeps_frame (calling (h_pc m) (saved m (t_sys s))) y2 →
  ∃ m1 v s', exec xlate TRAMPOLINE (Asm.uservec userret_) (take_trap m) = Some m1 ∧
    h_pc m1 = u64 usertrap_ ∧ h_reg m1 sp = u64 (p_kstack (cur (t_sys s)) + PGSIZE) ∧ h_csr m1 satp = tf_get (t_sys s) TF_kernel_satp ∧
    usertrap me kend trampoline uservec usertrap_ kernelvec handlers plic_claim plic_complete uartintr virtio_disk_intr (entering m1 s) = Ok v s' ∧
    ∀ R, ∃ m3, exec xlate TRAMPOLINE userret (leaving v R m1 s') = Some m3 ∧ in_user m3 s' ∧ h_pc m3 = u64 (h_pc m + 4) ∧
      Z.testbit (h_csr m3 sstatus) SIE_bit = true ∧ ∀ q, h_reg m3 q = if decide (q = a0) then u64 r else h_reg m q.
Proof. exact (roundtrip_ok m s r y2). Qed.

(** The handler finds the caller's registers in the trapframe. *)
Lemma frame_reg m s pc q : in_user m s → tf_get (calling pc (saved m (t_sys s))) (tf_off q) = h_reg m q.
Proof.
  intros Hu. set (y := saved m (t_sys s)). assert (Hq : 40 ≤ tf_off q) by (destruct q; cbn; lia).
  change (load64 (store64 (store64 (ms y) (tfa y + TF_epc) pc) (tfa y + TF_epc) (u64 (u64 pc + 4))) (tfa y + tf_off q) = h_reg m q).
  rewrite !load64_store64_ne by (unfold disjoint_ranges, TF_epc; lia). exact (trapped_reg (tfa (t_sys s)) (h_reg m) (h_mem m) q (iu_regs _ _ Hu)).
Qed.

(** The stub leaves its number where [syscall] looks for it. *)
Lemma stub_calls m s pc num h : in_user m s → 0 < num < 22 → h_reg m a7 = num → handlers num = Some h →
  call handlers (calling pc (saved m (t_sys s))) = h (calling pc (saved m (t_sys s))).
Proof.
  intros Hu Hn Ha Hh. pose proof (frame_reg m s pc a7 Hu) as E. rewrite Ha in E. change (tf_off a7) with TF_a7 in E.
  unfold call. rewrite E, s32_id, Hh, (proj2 (Z.ltb_lt 0 num)), (proj2 (Z.ltb_lt num 22)) by lia. done.
Qed.

(** The stubs of usys.pl, by number: one for each entry of the kernel's table. *)
Definition usys_entries : list Z :=
  [SYS_fork; SYS_exit; SYS_wait; SYS_pipe; SYS_read; SYS_write; SYS_close; SYS_kill; SYS_exec; SYS_open; SYS_mknod; SYS_unlink; SYS_fstat; SYS_link; SYS_mkdir;
   SYS_chdir; SYS_dup; SYS_getpid; SYS_sbrk; SYS_pause; SYS_uptime].

Lemma usys_range num : num ∈ usys_entries → 0 < num < 22.
Proof. unfold usys_entries. intros Hin. repeat (apply elem_of_cons in Hin as [-> |Hin]; [done|]). by apply elem_of_nil in Hin. Qed.

(** Only the program counter and the register [a7] differ. *)
Lemma in_user_pc m s pc : in_user m s → in_user (set_pc pc m) s.
Proof. by intros []; constructor. Qed.

Lemma in_user_a7 m s v : in_user m s → 0 ≤ v < 22 → in_user (set_reg a7 v m) s.
Proof.
  intros [] Hv. constructor; try done. intros q. cbn [set_reg h_reg]. destruct (decide (q = a7)) as [-> |]; [rewrite fn_lookup_insert; lia|]. by rewrite fn_lookup_insert_ne.
Qed.

Lemma stub_ok m s a num h r y2 (m0 := set_pc (a + 4) (set_reg a7 num m)) : in_user m s → num ∈ usys_entries → handlers num = Some h →
  h (calling (a + 4) (saved m0 (t_sys s))) = Ok r y2 → keeps_frame (calling (a + 4) (saved m0 (t_sys s))) y2 →
  ∃ m1 v s', exec xlate TRAMPOLINE (Asm.uservec userret_) (take_trap m0) = Some m1 ∧
    usertrap me kend trampoline uservec usertrap_ kernelvec handlers plic_claim plic_complete uartintr virtio_disk_intr (entering m1 s) = Ok v s' ∧
    ∀ R, ∃ m3 m4, exec xlate TRAMPOLINE userret (leaving v R m1 s') = Some m3 ∧ h_pc m3 = u64 (a + 8) ∧
      exec xlate (a + 8) usys_back m3 = Some m4 ∧ in_user m4 s' ∧ h_pc m4 = h_reg m ra ∧
      ∀ q, h_reg m4 q = if decide (q = a0) then u64 r else if decide (q = a7) then num else h_reg m q.
Proof.
  intros Hu Hin Hh E Hk. pose proof (usys_range num Hin) as Hn. assert (Hu0 : in_user m0 s) by (apply in_user_pc, in_user_a7; [done|lia]).
  assert (Ha : h_reg m0 a7 = num) by apply fn_lookup_insert. rewrite <-(stub_calls m0 s (a + 4) num h Hu0 Hn Ha Hh) in E.
  destruct (roundtrip_ok m0 s r y2 Hu0 E Hk) as (m1 & v & s' & E1 & _ & _ & _ & E2 & HR). exists m1, v, s'. split_and!; [exact E1|exact E2|]. intros R.
  destruct (HR R) as (m3 & E3 & Hu3 & Hpc & _ & Hq). exists m3, (set_pc (h_reg m3 ra) m3). split_and!; [exact E3| |done|by apply in_user_pc| |].
  - rewrite Hpc. change (h_pc m0) with (a + 4). f_equal. lia.
  - exact (Hq ra).
  - intros q. etransitivity; [exact (Hq q)|]. case_decide; [done|]. case_decide as Hq7; [by rewrite Hq7, Ha|]. unfold m0. cbn. by rewrite fn_lookup_insert_ne.
Qed.

(** The arguments of a call are in [a0] to [a5]. *)
Definition arg_regs : list reg := [a0; a1; a2; a3; a4; a5].

Lemma stub_args m s a num (m0 := set_pc (a + 4) (set_reg a7 num m)) (y1 := calling (a + 4) (saved m0 (t_sys s))) i q :
  in_user m s → num ∈ usys_entries → arg_regs !! i = Some q → argraw (Z.of_nat i) y1 = Ok (h_reg m q) y1.
Proof.
  intros Hu Hin Hi. pose proof (usys_range num Hin) as Hn. assert (Hu0 : in_user m0 s) by (apply in_user_pc, in_user_a7; [done|lia]).
  assert (Hq : (i ≤ 5)%nat ∧ q ≠ a7 ∧ TF_a0 + 8 * Z.of_nat i = tf_off q).
  { do 6 (destruct i as [|i]; [by injection Hi as <-; split_and!; [lia|done|]|]). done. }
  destruct Hq as (Hi5 & H7 & Ho). unfold argraw. rewrite (proj2 (Z.leb_le 0 _)), (proj2 (Z.leb_le _ 5)) by lia. unfold gets. cbn [andb]. rewrite Ho.
  unfold y1. rewrite (frame_reg m0 s (a + 4) q Hu0). unfold m0. cbn [set_pc set_reg h_reg]. by rewrite fn_lookup_insert_ne.
Qed.
End syscall.

Section stubs.
  Context {F H : Type} `{TX : Txn F H} (xlate : Z → Z → option Z).
  Context (me kend trampoline uservec usertrap_ kernelvec userret_ : Z).
  Context (plic_claim : M (tst F) Z) (plic_complete : Z → M (tst F) unit) (uartintr virtio_disk_intr : M (tst F) unit).
  Context (forkret de namebuf elf ph path new name de2 dot dotdot pad : Z) (devsw : UserMem kmem → Z → devops (F := F) (U := kmem)).

(** The kernel's table of handlers. *)
Definition table : Z → option (M (sys F) Z) := syscalls me kend trampoline forkret de namebuf elf ph path new name de2 dot dotdot pad devsw.

(** It has a handler for each stub. *)
Lemma usys_handled num : num ∈ usys_entries → is_Some (table num).
Proof. unfold usys_entries. intros Hin. repeat (apply elem_of_cons in Hin as [-> |Hin]; [by eexists|]). by apply elem_of_nil in Hin. Qed.

(** C7: the calling convention of system calls, from the C program's call of a
    stub of usys.pl to its return.  The kernel's table has a handler [h] for
    the number of every stub.  Called from a process in user mode, the stub
    leads to that handler, which finds the caller's [a0] to [a5] as its
    arguments ([argraw]).  If [h] returns [r] and keeps the process's page
    table and saved registers, the stub returns to the caller, in user mode,
    with [r] in [a0], the number in [a7], and every other register as it was
    at the call. *)
Theorem stub_spec m s a num (m0 := set_pc (a + 4) (set_reg a7 num m)) (y1 := calling (a + 4) (saved m0 (t_sys s))) :
  in_user xlate trampoline uservec usertrap_ m s → num ∈ usys_entries →
  ∃ h, table num = Some h ∧
  exec xlate a (usys num) m = Some (set_reg a7 num m) ∧
  (∀ i q, arg_regs !! i = Some q → argraw (Z.of_nat i) y1 = Ok (h_reg m q) y1) ∧
  ∀ r y2, h y1 = Ok r y2 → keeps_frame y1 y2 →
  ∃ m1 v s', exec xlate TRAMPOLINE (Asm.uservec userret_) (take_trap m0) = Some m1 ∧
    usertrap me kend trampoline uservec usertrap_ kernelvec table plic_claim plic_complete uartintr virtio_disk_intr (entering m1 s) = Ok v s' ∧
    ∀ R, ∃ m3 m4, exec xlate TRAMPOLINE userret (leaving v R m1 s') = Some m3 ∧ h_pc m3 = u64 (a + 8) ∧
      exec xlate (a + 8) usys_back m3 = Some m4 ∧ in_user xlate trampoline uservec usertrap_ m4 s' ∧ h_pc m4 = h_reg m ra ∧
      ∀ q, h_reg m4 q = if decide (q = a0) then u64 r else if decide (q = a7) then num else h_reg m q.
Proof.
  intros Hu Hin. destruct (usys_handled num Hin) as [h Hh]. exists h. pose proof (usys_range num Hin) as Hn. split_and!.
  - exact Hh.
  - cbn. by rewrite u64_id by lia.
  - intros i q Hi. by eapply stub_args.
  - intros r y2 E Hk. by apply (stub_ok xlate me kend trampoline uservec usertrap_ kernelvec userret_ table plic_claim plic_complete uartintr virtio_disk_intr m s a num h r y2).
Qed.
End stubs.

(** * A call of [getpid] *)

Definition pid_sys : sys unit :=
  mksys (mkptable (set_p_pid 7 proc0 :: replicate 63 proc0) 8 (initlock "nextpid") (initlock "wait_lock") 1 (mkcpu 0 0 true) 1)
    (mkkst (mkfstate tt (mkfrest (mksb 0 0 0 0 0 0 0 0) (initlock "itable") [] (mkku (λ _, 0) (mkkmem (initlock "kmem") 0 (store64 (λ _, 0) 8 4096)))))
       (mkftable (initlock "ftable") []) ∅) (initlock "time") 0.

Definition pid_tst : tst unit := mktst pid_sys (mkcsrs 0 0 0 0 0 0 0 0 0 0 0 0 0 0 0 0 0 0 0 0 0).
Definition pid_handlers (num : Z) : option (M (sys unit) Z) := if num =? SYS_getpid then Some sys_getpid else None.
Definition pid_xlate (table va : Z) : option Z := Some (if TRAPFRAME <=? va then va - TRAPFRAME else va).
Definition pid_hart : hart :=
  mkhart (λ q, match q with a7 => 11 | a0 => 5 | s3 => 33 | _ => 0 end)
    (λ c, match c with stvec => TRAMPOLINE | satp => MAKE_SATP 0 | _ => 0 end) (ms pid_sys) 1000 false false false.

Lemma pid_callable : callable pid_sys.
Proof.
  constructor; [|done|split; done|done]. constructor; [done|split; cbn; lia|]. intros p Hp. unfold pvalid in Hp. cbn [y_pt pid_sys procs] in *. unfold getp. cbn [procs].
  change (len _) with 64 in Hp. destruct (decide (p = 1)) as [-> |]; [done|]. rewrite znth_cons_pos, (znth_replicate proc0 proc0 63) by lia. done.
Qed.

Lemma pid_in_user : in_user pid_xlate 0 0 0 pid_hart pid_tst.
Proof.
  constructor; try done.
  - intros q. destruct q; cbn; lia.
  - split_and!; [done|done|done|]. intros o Ho. unfold pid_xlate. by rewrite (proj2 (Z.leb_le _ _)), Z.add_comm, Z.add_simpl_r by lia.
  - apply pid_callable.
Qed.

Lemma pid_call (y1 := calling 1000 (saved pid_hart pid_sys)) : call pid_handlers y1 = Ok 7 y1.
Proof.
  assert (Hn : s32 (tf_get y1 TF_a7) = 11) by (vm_compute; reflexivity). unfold call. rewrite Hn. reflexivity.
Qed.

Lemma syscall_roundtrip_witness : ∃ m1 v (s' : tst unit) m3, exec pid_xlate TRAMPOLINE (Asm.uservec 50) (take_trap pid_hart) = Some m1 ∧
  exec pid_xlate TRAMPOLINE userret (leaving v (λ _, 99) m1 s') = Some m3 ∧ h_pc m3 = 1004 ∧ h_reg m3 a0 = 7 ∧ h_reg m3 s3 = 33 ∧ h_super m3 = false.
Proof.
  set (y1 := calling 1000 (saved pid_hart pid_sys)).
  assert (Hk : keeps_frame y1 y1).
  { constructor; try done. apply callable_ms, callable_cpu; [apply callable_ms, callable_cpu; [apply pid_callable|done]|done]. }
  destruct (syscall_roundtrip (F := unit) pid_xlate 0 0 0 0 0 0 50 pid_handlers (ret 0) (λ _, ret tt) (ret tt) (ret tt) pid_hart pid_tst 7 y1
    pid_in_user pid_call Hk) as (m1 & v & s' & E1 & _ & _ & _ & _ & HR).
  destruct (HR (λ _, 99)) as (m3 & E3 & Hu & Hpc & _ & Hq). exists m1, v, s', m3.
  split_and!; [exact E1|exact E3|exact Hpc|exact (Hq a0)|exact (Hq s3)|exact (iu_mode _ _ _ _ _ _ Hu)].
Defined.

Definition stub_hart : hart := set_pc 1000 (set_reg a7 11 pid_hart).

(** [getpid] does not use the disk or a device. *)
#[local] Instance no_disk : Txn unit unit := {|
  t_bread _ _ := ret tt; t_brelse _ := ret tt; t_log_write _ := ret tt; t_data _ _ := []; t_setdata _ _ := ret tt;
  t_begin_op := ret tt; t_end_op := ret tt; t_initlog _ _ := ret tt |}.
Definition no_devsw : UserMem kmem → Z → devops (F := unit) (U := kmem) := λ _ _, mkdevops None None.

Lemma stub_spec_witness : ∃ m1 v (s' : tst unit) m3 m4,
  argraw 0 (calling 1000 (saved stub_hart pid_sys)) = Ok 5 (calling 1000 (saved stub_hart pid_sys)) ∧
  exec pid_xlate TRAMPOLINE (Asm.uservec 50) (take_trap stub_hart) = Some m1 ∧
  exec pid_xlate TRAMPOLINE userret (leaving v (λ _, 99) m1 s') = Some m3 ∧ exec pid_xlate 1004 usys_back m3 = Some m4 ∧ h_pc m4 = 0 ∧ h_reg m4 a0 = 7 ∧ h_reg m4 s3 = 33.
Proof.
  set (y1 := calling 1000 (saved stub_hart pid_sys)).
  assert (Hk : keeps_frame y1 y1).
  { constructor; try done. apply callable_ms, callable_cpu; [apply callable_ms, callable_cpu; [apply pid_callable|done]|done]. }
  destruct (stub_spec (F := unit) pid_xlate 0 0 0 0 0 0 50 (ret 0) (λ _, ret tt) (ret tt) (ret tt) 0 0 0 0 0 0 0 0 0 0 0 0 no_devsw pid_hart pid_tst 996 11
    pid_in_user ltac:(apply (bool_decide_unpack _); vm_compute; exact I)) as (h & Hh & _ & Ha & Hrun).
  change (Some (sys_getpid (F := unit)) = Some h) in Hh. injection Hh as <-.
  destruct (Hrun 7 y1 eq_refl Hk) as (m1 & v & s' & E1 & _ & HR).
  destruct (HR (λ _, 99)) as (m3 & m4 & E3 & _ & E4 & _ & Hpc & Hq). exists m1, v, s', m3, m4.
  split_and!; [exact (Ha 0%nat a0 eq_refl)|exact E1|exact E3|exact E4|exact Hpc|exact (Hq a0)|exact (Hq s3)].
Defined.
