(* ===== verification/Boot.v ===== *)
(** kernel/main.c: from the start of a hart to its scheduler.

    The state is that of the whole kernel: the processes, memory, files and
    registers of Trap.v, over the log and the buffer cache, with the globals of
    the console, the disk driver, the devices, the kernel page table and the
    flag [started].  The components are views of it: the console and the
    process table share the hart's interrupt state, the disk driver and the
    page allocator the memory.

    The theorem: from the state the loader leaves, hart 0 gets to the
    scheduler, with every table initialised, the kernel page table in use, and
    one process ready to run; no page has two owners. *)

From stdpp Require Import base tactics list numbers strings gmap functions.
From S2P Require Import Prelude Param Bytes CString Spinlock Sleeplock Csr Vm VmTree UserSpec VmMap VmUser KvmSpec BufSpec TxSpec Bio Log Fs FsInode File Kalloc Proc Syscall ProcMem ProcSpec Trap Plic Printf Console Virtio Ulib.
From Stdlib Require Import ZArith Lia.

Open Scope kernel_scope.

Record boot (D : Type) := mkboot {
  bo_t : tst (lstate bstate);
  bo_dev : D;
  bo_cons : Console.cons;
  bo_txlock : spinlock;
  bo_txbusy : Z;
  bo_panicking : Z;
  bo_panicked : Z;
  bo_prlock : spinlock;
  bo_disk : Virtio.disk;
  kernel_pagetable : Z;
  started : Z;
}.
Arguments mkboot {D} _ _ _ _ _ _ _ _ _ _ _.
Arguments bo_t {D} _.
Arguments bo_dev {D} _.
Arguments bo_cons {D} _.
Arguments bo_txlock {D} _.
Arguments bo_txbusy {D} _.
Arguments bo_panicking {D} _.
Arguments bo_panicked {D} _.
Arguments bo_prlock {D} _.
Arguments bo_disk {D} _.
Arguments kernel_pagetable {D} _.
Arguments started {D} _.

(** The device beside the memory. *)
#[export] Instance mm_pair {D X} `{MM : Mmio D} : Mmio (D * X) :=
  let L := Lens fst (λ d s, (d, snd s)) in
  {| mm_read8 a := zoom L (mm_read8 a); mm_write8 a v := zoom L (mm_write8 a v);
     mm_read32 a := zoom L (mm_read32 a); mm_write32 a v := zoom L (mm_write32 a v) |}.

Section main.
  Context {D : Type} `{MM : Mmio D}.
  Context (me kend etext trampoline forkret kernelvec de namebuf rootpath : Z).

#[local] Instance boot_io : Txn (lstate bstate) Z := log_txn (BC := bio_cache me 0) me.

Abbreviation BM := (M (boot D)).
Abbreviation F := (lstate bstate).

(** * The components *)

Definition set_bo_t (v : tst F) (s : boot D) : boot D :=
  mkboot v (bo_dev s) (bo_cons s) (bo_txlock s) (bo_txbusy s) (bo_panicking s) (bo_panicked s) (bo_prlock s) (bo_disk s) (kernel_pagetable s) (started s).
Definition set_bo_dev (v : D) (s : boot D) : boot D :=
  mkboot (bo_t s) v (bo_cons s) (bo_txlock s) (bo_txbusy s) (bo_panicking s) (bo_panicked s) (bo_prlock s) (bo_disk s) (kernel_pagetable s) (started s).
Definition set_bo_disk (v : Virtio.disk) (s : boot D) : boot D :=
  mkboot (bo_t s) (bo_dev s) (bo_cons s) (bo_txlock s) (bo_txbusy s) (bo_panicking s) (bo_panicked s) (bo_prlock s) v (kernel_pagetable s) (started s).
Definition set_kernel_pagetable (v : Z) (s : boot D) : boot D :=
  mkboot (bo_t s) (bo_dev s) (bo_cons s) (bo_txlock s) (bo_txbusy s) (bo_panicking s) (bo_panicked s) (bo_prlock s) (bo_disk s) v (started s).
Definition set_started (v : Z) (s : boot D) : boot D :=
  mkboot (bo_t s) (bo_dev s) (bo_cons s) (bo_txlock s) (bo_txbusy s) (bo_panicking s) (bo_panicked s) (bo_prlock s) (bo_disk s) (kernel_pagetable s) v.

Definition tL : lens (boot D) (tst F) := Lens bo_t set_bo_t.
Definition bdevL : lens (boot D) D := Lens bo_dev set_bo_dev.
Definition bsysL : lens (boot D) (sys F) := Lens (λ s, t_sys (bo_t s)) (λ y s, set_bo_t (mktst y (t_csr (bo_t s))) s).

(** The console works with the interrupt state of the hart and kernel memory. *)
Definition conL : lens (boot D) (con D kmem) := Lens
  (λ s, mkcon (bo_dev s) (bo_cons s) (bo_txlock s) (bo_txbusy s) (bo_panicking s) (bo_panicked s) (pcpu (y_pt (t_sys (bo_t s)))) (ku (t_sys (bo_t s))) (bo_prlock s))
  (λ c s, let y := t_sys (bo_t s) in
    mkboot (mktst (set_ku (cs_ku c) (upd ptL (set_pcpu (cs_cpu c) (y_pt y)) y)) (t_csr (bo_t s)))
      (cs_dev c) (cs_cons c) (cs_txlock c) (cs_txbusy c) (cs_panicking c) (cs_panicked c) (cs_prlock c) (bo_disk s) (kernel_pagetable s) (started s)).

(** The disk driver works with the device and takes pages from the allocator. *)
Definition vinitL : lens (boot D) (vinit (D := D * kmem)) := Lens
  (λ s, mkvinit (bo_disk s) (bo_dev s, view kmL (t_sys (bo_t s))))
  (λ v s, set_bo_disk (vi_disk v) (set_bo_dev (fst (vi_dev v)) (upd bsysL (upd kmL (snd (vi_dev v)) (t_sys (bo_t s))) s))).
Definition vmemL : lens (vinit (D := D * kmem)) kmem := Lens (λ v, snd (vi_dev v)) (λ m v, mkvinit (vi_disk v) (fst (vi_dev v), m)).

Definition sys_ {A} (m : M (sys F) A) : BM A := zoom bsysL m.
Definition bioL : lens F bstate := Lens ls_cache (λ c l, mklstate c (ls_log l)).

(** * main.c *)

Definition say (fmt : list Z) (ap : list varg) : BM unit := zoom conL (printf me fmt ap) ;; ret tt.

(** What the first hart does; the other harts see [started] after that. *)
Definition main_first : BM unit :=
  zoom conL consoleinit ;;
  zoom conL printfinit ;;
  say [10] [] ;;
  say (str "xv6 kernel is booting" ++ [10]) [] ;;
  say [10] [] ;;
  sys_ (vm_ (kinit me kend)) ;;
  kpt <- sys_ (vm_ (kvminit me etext trampoline)) ;;
  modify (set_kernel_pagetable kpt) ;;
  s <- get ;;
  zoom tL (c_ (kvminithart (kernel_pagetable s))) ;;
  sys_ (pt_ procinit) ;;
  zoom tL trapinit ;;
  zoom tL (trapinithart kernelvec) ;;
  zoom bdevL plicinit ;;
  zoom bdevL (plicinithart me) ;;
  sys_ (zoom kL (zoom fsL (zoom ioL (zoom bioL binit)))) ;;
  sys_ (zoom kL (zoom fsL iinit)) ;;
  sys_ (zoom kL fileinit) ;;
  zoom vinitL (virtio_disk_init (zoom vmemL (kalloc me))) ;;
  sys_ (userinit me kend trampoline forkret de namebuf rootpath) ;;
  modify (set_started 1).

(** [while(started == 0)]: a hart that has to wait spins. *)
Definition main_other : BM unit :=
  s <- get ;;
  if started s =? 0 then (λ s, Spin s)
  else
    say (str "hart %d starting" ++ [10]) [Word me] ;;
    zoom tL (c_ (kvminithart (kernel_pagetable s))) ;;
    zoom tL (trapinithart kernelvec) ;;
    zoom bdevL (plicinithart me).

(** [run] is the switch to a process; [scheduler] is one round of the endless
    loop (Proc.v). *)
Definition main (run : Z → M ptable unit) : BM Z :=
  (if me =? 0 then main_first else main_other) ;;
  sys_ (pt_ (scheduler me run)).
End main.

(** * Tables *)

Section tables.

(** An entry of the process table after [procinit]. *)
Definition blank_proc (p : Z) (x : proc) : proc := set_p_kstack (KSTACK (p - 1)) (set_p_state UNUSED (set_p_lock (initlock "proc") x)).

Lemma procinit_ok t : len (procs t) = NPROC → ∃ ps,
  procinit t = Ok tt (mkptable ps (nextpid t) (initlock "nextpid") (initlock "wait_lock") (initproc t) (pcpu t) (cpu_proc t)) ∧
  len ps = NPROC ∧ ∀ q, 1 ≤ q ≤ NPROC → znth proc0 ps (q - 1) = blank_proc q (getp t q).
Proof.
  intros Hl. set (T ps := mkptable ps (nextpid t) (initlock "nextpid") (initlock "wait_lock") (initproc t) (pcpu t) (cpu_proc t)).
  set (I := λ i t', ∃ ps, t' = T ps ∧ len ps = NPROC ∧ ∀ q, 1 ≤ q ≤ NPROC → znth proc0 ps (q - 1) = if decide (q < i) then blank_proc q (getp t q) else getp t q).
  assert (HR : returns procinit t (λ _ t', I (NPROC + 1) t')).
  { unfold procinit. do 2 (eapply returns_step; [reflexivity|]). apply returns_bind. unfold for_proc. apply (for_up_inv I).
    - exists (procs t). split_and!; [done|done|]. intros q Hq. rewrite decide_False by lia. done.
    - intros i t' Hi (ps & -> & Hps & Hq). eapply returns_step; [reflexivity|]. apply returns_ret. eexists. split; [reflexivity|]. split; [by rewrite len_zset|].
      intros q Hq1. rewrite znth_zset by (unfold NPROC in *; cbn [T procs]; lia). destruct (decide (i - 1 = q - 1)) as [He|He].
      + replace i with q in * by lia. rewrite decide_True by lia. unfold getp at 1. cbn [T procs]. rewrite Hq, decide_False by lia. done.
      + cbn [T procs]. rewrite Hq by done. repeat case_decide; try done; lia.
    - intros t' H. exact H. }
  apply returns_ok in HR as ([] & t' & E & ps & -> & Hps & Hq). exists ps. split_and!; [exact E|done|]. intros q Hq1. rewrite Hq by done. by rewrite decide_True by lia.
Qed.

Lemma iinit_ok {F U} (s : fstate F U) (r := fs_rest s) : len (fr_inode r) = NINODE → (∀ ip, iptr ip → i_ref (r_geti r ip) = 0) →
  ∃ l, let r' := mkfrest (fr_sb r) (initlock "itable") l (fr_ku r) in
    iinit s = Ok tt (mkfstate (fs_io s) r') ∧ it_ok r' ∧ ∀ ip, iptr ip → i_ref (r_geti r' ip) = 0.
Proof.
  intros Hl Hz. set (T l := mkfrest (fr_sb r) (initlock "itable") l (fr_ku r)).
  set (I := λ i s', ∃ l, s' = mkfstate (fs_io s) (T l) ∧ len l = NINODE ∧
    ∀ ip, iptr ip → i_ref (r_geti (T l) ip) = 0 ∧ (ip ≤ i → unlocked (sl_lk (i_lock (r_geti (T l) ip))))).
  assert (HR : returns iinit s (λ _ s', I NINODE s')).
  { unfold iinit. eapply returns_step; [reflexivity|]. apply returns_bind. apply (for_up_inv I).
    - exists (fr_inode r). split_and!; [done|done|]. intros ip Hip. split; [by apply Hz|]. unfold iptr in Hip. lia.
    - intros i s' Hi (l & -> & Hlen & Hq). eapply returns_step; [reflexivity|]. apply returns_ret. set (x := set_i_lock (initsleeplock "inode") (r_geti (T l) (i + 1))).
      exists (zset l (i + 1 - 1) x). split; [reflexivity|]. split; [by rewrite len_zset|]. assert (Hi' : iptr (i + 1)) by (unfold iptr, NINODE in *; lia).
      intros ip Hip. change (T (zset l (i + 1 - 1) x)) with (r_seti (i + 1) x (T l)). rewrite (geti_seti (T l) (i + 1) ip x Hlen Hi').
      case_decide; [subst; split; [by apply Hq|done]|]. split; [by apply Hq|]. intros. apply Hq; [done|lia].
    - intros s' H. exact H. }
  apply returns_ok in HR as ([] & s' & E & l & -> & Hlen & Hq). exists l. split_and!; [exact E| |intros ip Hip; by apply Hq].
  constructor; [done|done|..].
  - intros ip Hip. fold (T l). by rewrite (proj1 (Hq ip Hip)).
  - intros ip Hip. apply Hq; [done|apply Hip].
  - intros ip jp Hip _ Hr. destruct (Hq ip Hip) as [Hr0 _]. unfold T in Hr0. lia.
Qed.
End tables.

(** * Devices *)

(** What the register [r] of the disk reads as: its identification, the size of
    the queue, and the two registers the driver writes and reads again. *)
Definition vreads (st rd r v : Z) : Prop :=
  if r =? VIRTIO_MMIO_MAGIC_VALUE then v = 1953655158
  else if r =? VIRTIO_MMIO_VERSION then v = 2
  else if r =? VIRTIO_MMIO_DEVICE_ID then v = 2
  else if r =? VIRTIO_MMIO_VENDOR_ID then v = 1431127377
  else if r =? VIRTIO_MMIO_QUEUE_NUM_MAX then NUM ≤ v
  else if r =? VIRTIO_MMIO_STATUS then v = st
  else if r =? VIRTIO_MMIO_QUEUE_READY then v = rd
  else True.

(** The devices of the board: a serial line that becomes idle, an interrupt
    controller that takes what is written, and a disk that accepts the status
    it is given.  [bd_at d st rd]: the disk's STATUS is [st] and its QUEUE_READY
    is [rd]. *)
Class BootDev (D : Type) `{MM : Mmio D} := {
  bd_at : D → Z → Z → Prop;
  bd_uart_write d st rd r v : bd_at d st rd → 0 ≤ r < 8 → ∃ d', mm_write8 (UART0 + r) v d = Ok tt d' ∧ bd_at d' st rd;
  bd_uart_idle d st rd : bd_at d st rd → ∃ v d', mm_read8 (UART0 + LSR) d = Ok v d' ∧ bd_at d' st rd ∧ Z.land v LSR_TX_IDLE ≠ 0;
  bd_plic_write d st rd o v : bd_at d st rd → 0 ≤ o < 4194304 → ∃ d', mm_write32 (PLIC + o) v d = Ok tt d' ∧ bd_at d' st rd;
  bd_disk_write d st rd r v : bd_at d st rd → 0 ≤ r < 256 → ∃ d', mm_write32 (VIRTIO0 + r) v d = Ok tt d' ∧
    bd_at d' (if r =? VIRTIO_MMIO_STATUS then v else st) (if r =? VIRTIO_MMIO_QUEUE_READY then v else rd);
  bd_disk_read d st rd r : bd_at d st rd → 0 ≤ r < 256 → ∃ v d', mm_read32 (VIRTIO0 + r) d = Ok v d' ∧ bd_at d' st rd ∧ vreads st rd r v;
}.

Section devices.
  Context {D : Type} `{BD : BootDev D}.
  Context (me : Z) (Hme : 0 ≤ me < NCPU).

Lemma plicinit_ok d st rd : bd_at d st rd → ∃ d', plicinit d = Ok tt d' ∧ bd_at d' st rd.
Proof.
  intros H. unfold plicinit. destruct (bd_plic_write d st rd (UART0_IRQ * 4) 1 H) as (d1 & E1 & H1); [unfold UART0_IRQ; lia|].
  rewrite (bind_ok _ _ _ _ _ E1). apply bd_plic_write; [done|unfold VIRTIO0_IRQ; lia].
Qed.

Lemma plicinithart_ok d st rd : bd_at d st rd → ∃ d', plicinithart me d = Ok tt d' ∧ bd_at d' st rd.
Proof.
  intros H. unfold plicinithart, PLIC_SENABLE, PLIC_SPRIORITY. rewrite <-!Z.add_assoc. set (v := Z.lor _ _). unfold NCPU in Hme.
  destruct (bd_plic_write d st rd (8320 + me * 256) v H) as (d1 & E1 & H1); [lia|]. rewrite (bind_ok _ _ _ _ _ E1). apply bd_plic_write; [done|lia].
Qed.

Lemma wr_ok {X} r v d dev (m : X) st rd : bd_at dev st rd → 0 ≤ r < 256 → ∃ dev', wr r v (mkvinit d (dev, m)) = Ok tt (mkvinit d (dev', m)) ∧
  bd_at dev' (if r =? VIRTIO_MMIO_STATUS then u32 v else st) (if r =? VIRTIO_MMIO_QUEUE_READY then u32 v else rd).
Proof.
  intros H Hr. destruct (bd_disk_write dev st rd r (u32 v) H Hr) as (dev' & E & H'). exists dev'. split; [|done].
  unfold wr, zoom. cbn. unfold zoom. cbn. by rewrite E.
Qed.

Lemma rd_ok {X} r d dev (m : X) st q : bd_at dev st q → 0 ≤ r < 256 → ∃ v dev', rd r (mkvinit d (dev, m)) = Ok v (mkvinit d (dev', m)) ∧ bd_at dev' st q ∧ vreads st q r v.
Proof.
  intros H Hr. destruct (bd_disk_read dev st q r H Hr) as (v & dev' & E & H' & Hv). exists v, dev'. split_and!; [|done|done].
  unfold rd, zoom. cbn. unfold zoom. cbn. by rewrite E.
Qed.

Lemma vkalloc_ok d dev m p m' : kalloc me m = Ok p m' → zoom (vmemL (D := D)) (kalloc me) (mkvinit d (dev, m)) = Ok p (mkvinit d (dev, m')).
Proof. intros E. unfold zoom. cbn [view vmemL vi_dev snd]. by rewrite E. Qed.

Ltac vwr := lazymatch goal with
  | H : bd_at ?dev ?st ?q |- context [bind (wr ?r ?v) _ (mkvinit ?d (?dev, ?m))] =>
      let dev' := fresh "dev" in let E := fresh in let H' := fresh "Hd" in
      destruct (wr_ok r v d dev m st q H ltac:(done)) as (dev' & E & H'); rewrite (bind_ok _ _ _ _ _ E); clear E H;
      lazy [Z.eqb Pos.eqb VIRTIO_MMIO_STATUS VIRTIO_MMIO_QUEUE_READY VIRTIO_MMIO_DRIVER_FEATURES] in H'
  end.
Ltac vrd := lazymatch goal with
  | H : bd_at ?dev ?st ?q |- context [bind (rd ?r) _ (mkvinit ?d (?dev, ?m))] =>
      let dev' := fresh "dev" in let E := fresh in let H' := fresh "Hd" in let v := fresh "v" in let Hv := fresh "Hv" in
      destruct (rd_ok r d dev m st q H ltac:(done)) as (v & dev' & E & H' & Hv); rewrite (bind_ok _ _ _ _ _ E); clear E H;
      unfold vreads in Hv; cbn in Hv
  end.

Lemma disk_init_ok d dev st m p1 m1 p2 m2 p3 m3 : bd_at dev st 0 → kalloc me m = Ok p1 m1 → kalloc me m1 = Ok p2 m2 → kalloc me m2 = Ok p3 m3 →
  p1 ≠ 0 → p2 ≠ 0 → p3 ≠ 0 →
  ∃ d' dev', virtio_disk_init (zoom vmemL (kalloc me)) (mkvinit d (dev, m)) = Ok tt (mkvinit d' (dev', m3)) ∧ fresh d' ∧ bd_at dev' 15 1.
Proof.
  intros Hd K1 K2 K3 N1 N2 N3. unfold virtio_disk_init. rewrite bind_modify. cbn [upd vdiskL vi_dev]. set (d1 := empty_queue _).
  do 4 vrd. rewrite Hv, Hv0, Hv1, Hv2. cbn [Z.eqb Pos.eqb negb orb]. do 3 vwr. vrd. vwr. vwr. vrd.
  assert (v4 = 11) as -> by (rewrite Hv4; reflexivity). change (Z.land 11 VIRTIO_CONFIG_S_FEATURES_OK =? 0) with false. cbv iota.
  vwr. vrd. rewrite Hv5. cbn [Z.eqb negb]. vrd. rewrite (proj2 (Z.eqb_neq v5 0)), (proj2 (Z.ltb_ge v5 NUM)) by (unfold NUM in *; lia).
  rewrite (bind_ok _ _ _ _ _ (vkalloc_ok _ _ _ _ _ K1)), (bind_ok _ _ _ _ _ (vkalloc_ok _ _ _ _ _ K2)), (bind_ok _ _ _ _ _ (vkalloc_ok _ _ _ _ _ K3)).
  rewrite (proj2 (Z.eqb_neq _ _) N1), (proj2 (Z.eqb_neq _ _) N2), (proj2 (Z.eqb_neq _ _) N3). cbn [orb]. rewrite bind_modify. cbn [upd vdiskL vi_dev vi_disk].
  do 8 vwr. rewrite bind_modify. cbn [upd vdiskL vi_dev vi_disk]. set (d2 := set_dk_free _ _).
  destruct (wr_ok VIRTIO_MMIO_STATUS (Z.lor 11 VIRTIO_CONFIG_S_DRIVER_OK) d2 _ m3 _ _ Hd ltac:(done)) as (dev' & E & Hd').
  exists d2, dev'. split_and!; [exact E|done|exact Hd'].
Qed.
End devices.

(** * The console *)

Section consoles.
  Context {D : Type} `{BD : BootDev D}.
  Context (me st rd : Z).
  Implicit Types c : con D kmem.

Lemma WriteReg_ok r v c : bd_at (cs_dev c) st rd → 0 ≤ r < 8 → ∃ d', WriteReg r v c = Ok tt (upd devL d' c) ∧ bd_at d' st rd.
Proof. intros H Hr. destruct (bd_uart_write _ _ _ r (u8 v) H Hr) as (d' & E & H'). exists d'. split; [|done]. unfold WriteReg. by apply zoom_ok. Qed.

Ltac uwr c0 := lazymatch goal with
  | H : bd_at ?d st rd |- context [bind (WriteReg ?r ?v) _ ?c] =>
      let d' := fresh "d" in let E := fresh in let H' := fresh "Hd" in
      destruct (WriteReg_ok r v c H ltac:(done)) as (d' & E & H'); rewrite (bind_ok _ _ _ _ _ E); clear E H; change (upd devL d' c) with (upd devL d' c0)
  end.

Lemma consoleinit_ok c : bd_at (cs_dev c) st rd → ∃ d', bd_at d' st rd ∧
  consoleinit c = Ok tt (mkcon d' (set_cn_lock (initlock "cons") (cs_cons c)) (initlock "uart") (cs_txbusy c) (cs_panicking c) (cs_panicked c) (cs_cpu c) (cs_ku c) (cs_prlock c)).
Proof.
  intros H. unfold consoleinit. rewrite bind_modify. set (c0 := upd clockL _ c). change (cs_dev c) with (cs_dev c0) in H. unfold uartinit. do 7 uwr c0. eexists. split; [done|reflexivity].
Qed.

(** The console after its initialisation. *)
Definition con_ready c : Prop := env_ok (λ d, bd_at d st rd) c ∧ unlocked (cs_prlock c).

Lemma say_ok fmt ap (s : boot D) : con_ready (view conL s) → ∃ c', say me fmt ap s = Ok tt (upd conL c' s) ∧ con_ready c' ∧ echoes (view conL s) c'.
Proof.
  intros [He Hl]. assert (Hi : ∀ d, bd_at d st rd → ∃ v d', mm_read8 (UART0 + LSR) d = Ok v d' ∧ bd_at d' st rd ∧ Z.land v LSR_TX_IDLE ≠ 0) by (intros d; apply bd_uart_idle).
  assert (Hw : ∀ d v, bd_at d st rd → ∃ d', mm_write8 (UART0 + THR) v d = Ok tt d' ∧ bd_at d' st rd) by (intros d v Hd; by apply bd_uart_write).
  destruct (printf_ok me _ Hi Hw fmt ap (view conL s) He Hl) as (c' & E & He' & Hec).
  exists c'. split_and!; [|split; [done|by rewrite (ec_prlock _ _ Hec)]|done]. unfold say. by rewrite (bind_ok _ _ _ _ _ (zoom_ok conL _ s _ _ E)).
Qed.

Lemma conL_view c (s : boot D) : view conL (upd conL c s) = c.
Proof. by destruct c. Qed.

(** The greeting: nothing but the console and the interrupt state has changed. *)
Lemma hello_ok (s : boot D) : bd_at (bo_dev s) st rd → cpu_ok (pcpu (y_pt (t_sys (bo_t s)))) → bo_panicked s = 0 →
  ∃ c, (∀ A (k : M (boot D) A), (zoom conL consoleinit ;; zoom conL printfinit ;;
      say me [10] [] ;; say me (str "xv6 kernel is booting" ++ [10]) [] ;; say me [10] [] ;; k) s = k (upd conL c s)) ∧
    con_ready c ∧ cs_ku c = ku (t_sys (bo_t s)) ∧ cpu_same (pcpu (y_pt (t_sys (bo_t s)))) (cs_cpu c) ∧ cs_txlock c = initlock "uart" ∧ cn_lock (cs_cons c) = initlock "cons".
Proof.
  intros Hd Hc Hp. destruct (consoleinit_ok (view conL s) Hd) as (d' & Hd' & E). set (c0 := mkcon _ _ _ _ _ _ _ _ _) in E. set (c1 := upd prlockL (initlock "pr") c0).
  assert (Hr1 : con_ready c1) by (split; [by constructor|done]).
  destruct (say_ok [10] [] (upd conL c1 s)) as (c2 & E2 & Hr2 & H2); [by rewrite conL_view|]. change (upd conL c2 (upd conL c1 s)) with (upd conL c2 s) in E2.
  destruct (say_ok (str "xv6 kernel is booting" ++ [10]) [] (upd conL c2 s)) as (c3 & E3 & Hr3 & H3); [by rewrite conL_view|].
  change (upd conL c3 (upd conL c2 s)) with (upd conL c3 s) in E3. destruct (say_ok [10] [] (upd conL c3 s)) as (c4 & E4 & Hr4 & H4); [by rewrite conL_view|].
  change (upd conL c4 (upd conL c3 s)) with (upd conL c4 s) in E4. rewrite conL_view in H2, H3, H4.
  exists c4. destruct (echoes_trans _ _ _ H2 (echoes_trans _ _ _ H3 H4)) as [F1 F2 F3 F4 F5 F6 F7]. split_and!; [|done|done|done|done|by rewrite F1].
  intros A k. rewrite (bind_ok _ _ _ _ _ (zoom_ok conL _ s _ _ E)). rewrite (bind_ok _ _ _ tt (upd conL c1 s)) by reflexivity.
  by rewrite (bind_ok _ _ _ _ _ E2), (bind_ok _ _ _ _ _ E3), (bind_ok _ _ _ _ _ E4).
Qed.
End consoles.

(** * Memory *)

Section stays.
  Context (kend : Z).

(** A page of the kernel's tables is none of the free ones. *)
Lemma apart T l m p q : vm_inv kend T l m → p ∈ tpages T → q ∈ l → p ≠ q ∧ page_ok kend p ∧ page_ok kend q.
Proof.
  intros [_ [_ _ _ V2] V3 V4] Hp Hq. apply list_relations.list.NoDup_app in V3 as (_ & V3 & _). split_and!.
  - intros ->. by apply (V3 q).
  - by apply (proj1 (list_relations.list.Forall_forall _ _) V4).
  - by apply (proj1 (list_relations.list.Forall_forall _ _) V2).
Qed.

(** So the tables stay as they are while free pages are written. *)
Lemma tables_stay T l m m' : vm_inv kend T l m → (∀ x, (∀ q, q ∈ l → x < q ∨ q + 4096 ≤ x) → ldb (pmem m') x = ldb (pmem m) x) →
  pt_inv (pmem m') T ∧ ∀ w, entry (pmem m') T w = entry (pmem m) T w.
Proof.
  intros V Ho. assert (Hs : ∀ p, p ∈ tpages T → same_page p (pmem m) (pmem m')).
  { intros p Hp x Hx. apply Ho. intros q Hq. destruct (apart T l m p q V Hp Hq) as (Hne & [A1 _] & [A2 _]). unfold page_aligned, PGSIZE in *. dlia. }
  split; [by apply (pt_inv_frame (pmem m)), V|]. intros w. by apply entry_frame.
Qed.

End stays.

Section memory.
  Context (me kend etext trampoline : Z) (Hend : 0 < kend) (Hstop : kend ≤ PHYSTOP) (Hroom : 176 ≤ len (managed kend)).
  Context (He : page_aligned etext) (He' : KERNBASE < etext < PHYSTOP) (Ht : page_aligned trampoline) (Ht' : 0 ≤ trampoline < PHYSTOP).

(** [kinit], [kvminit], and the three pages of the disk driver. *)
Lemma boot_memory m : freelist m = 0 → ∃ m1 m2 T l st p1 p2 p3 m3 m4 m5 l5,
  kinit me kend m = Ok tt m1 ∧ kvminit me etext trampoline m1 = Ok (pt_root T) m2 ∧
  kalloc me m2 = Ok p1 m3 ∧ kalloc me m3 = Ok p2 m4 ∧ kalloc me m4 = Ok p3 m5 ∧ p1 ≠ 0 ∧ p2 ≠ 0 ∧ p3 ≠ 0 ∧
  vm_inv kend T l m2 ∧ (∀ w, entry (pmem m2) T w = kernel_map etext trampoline st w) ∧ len st = NPROC ∧
  l = p1 :: p2 :: p3 :: l5 ∧ kmem_inv kend l5 m5 ∧ 6 < len l5 ∧ st ++ tpages T ++ l ≡ₚ managed kend ∧
  (∀ x, (∀ q, q ∈ l → x < q ∨ q + 4096 ≤ x) → ldb (pmem m5) x = ldb (pmem m2) x).
Proof.
  intros Hf. destruct (kinit_ok me kend Hend Hstop m Hf) as (m1 & E1 & Hk1).
  destruct (kvmmake_ok me kend Hend (managed kend) ltac:(lia) etext trampoline m1 Hk1 He He' Ht Ht') as (m2 & T & l & st & E2 & Hst & B).
  pose proof (built_size _ _ _ _ _ _ _ B) as Hsz. destruct B as [V E Hp _ _].
  assert (Hl : 10 ≤ len l).
  { apply Permutation_length in Hp. rewrite !length_app in Hp. unfold len, NPROC in *. lia. }
  destruct l as [|p1 [|p2 [|p3 l5]]]; [unfold len in Hl; cbn in Hl; lia..|].
  destruct (kalloc_cons me kend Hend p1 _ _ (vi_free _ _ _ _ V)) as (m3 & K1 & Hk3 & O1 & _).
  destruct (kalloc_cons me kend Hend p2 _ _ Hk3) as (m4 & K2 & Hk4 & O2 & _). destruct (kalloc_cons me kend Hend p3 _ _ Hk4) as (m5 & K3 & Hk5 & O3 & _).
  assert (Hnz : ∀ q, q ∈ p1 :: p2 :: p3 :: l5 → q ≠ 0) by (intros q Hq; apply (proj1 (list_relations.list.Forall_forall _ _) (ki_pages _ _ _ (vi_free _ _ _ _ V))) in Hq as [_ Hq]; lia).
  exists m1, m2, T, (p1 :: p2 :: p3 :: l5), st, p1, p2, p3, m3, m4, m5, l5.
  split_and!; try done; [apply Hnz; set_solver..|unfold len in *; cbn [length] in Hl; lia|].
  intros x Hx. unfold same_outside, PGSIZE in *. rewrite O3, O2, O1 by (apply Hx; set_solver). done.
Qed.
End memory.

(** * Booting *)

Section boot.
  Context {D : Type} `{BD : BootDev D}.
  Context (me kend etext trampoline forkret kernelvec de namebuf rootpath : Z).
  Context (Hme : 0 ≤ me < NCPU) (Hend : 0 < kend) (Hstop : kend ≤ PHYSTOP) (Hroom : 176 ≤ len (managed kend)).
  Context (He : page_aligned etext) (He' : KERNBASE < etext < PHYSTOP) (Ht : page_aligned trampoline) (Ht' : 0 ≤ trampoline < PHYSTOP).

Abbreviation sys_of s := (t_sys (bo_t s)).
Abbreviation files_of s := (k_fs (y_k (sys_of s))).
Abbreviation mem_of s := (view kmL (sys_of s)).

(** The state the loader leaves: globals are zero, and interrupts are off in
    case a lock is held; the constant "/" is in place. *)
Record loaded (st : Z) (s : boot D) : Prop := {
  ld_freelist : freelist (mem_of s) = 0;
  ld_procs : len (procs (y_pt (sys_of s))) = NPROC;
  ld_cpu : cpu_ok (pcpu (y_pt (sys_of s)));
  ld_inodes : len (fr_inode (fs_rest (files_of s))) = NINODE ∧ ∀ ip, iptr ip → i_ref (r_geti (fs_rest (files_of s)) ip) = 0;
  ld_cache : blank (ls_cache (fs_io (files_of s)));
  ld_panicked : bo_panicked s = 0;
  ld_root : ldb (ku_kmem (ku (sys_of s))) rootpath = SLASH ∧ ldb (ku_kmem (ku (sys_of s))) (rootpath + 1) = 0;
  ld_dev : bd_at (bo_dev s) st 0;
}.

(** The process table: the first process is ready to run, the others are unused,
    and each has its kernel stack. *)
Record ready (t : ptable) (tf root ip : Z) (t' : ptable) : Prop := {
  rd_tok : tok t';
  rd_first : getp t' 1 = set_p_state RUNNABLE (set_p_cwd ip (born forkret tf root (nextpid t) (blank_proc 1 (getp t 1))));
  rd_others : ∀ p, 2 ≤ p ≤ NPROC → getp t' p = blank_proc p (getp t p);
  rd_init : initproc t' = 1;
  rd_cpu : cpu_same (pcpu t) (pcpu t');
  rd_locks : unlocked (pid_lock t') ∧ unlocked (wait_lock t');
}.

(** [T] is the kernel's page table, with the stacks [ks], and [U] that of the
    first process; [dp] are the pages of the disk driver, [l] the free ones. *)
Record booted (s s' : boot D) (T U : ptree) (ks dp l : list Z) (tf ip : Z) : Prop := {
  bo_kernel_table : pt_inv (pmem (mem_of s')) T ∧ ∀ w, entry (pmem (mem_of s')) T w = kernel_map etext trampoline ks w;
  bo_user_table : vm_inv kend U l (mem_of s') ∧ ∀ w, entry (pmem (mem_of s')) U w = proc_entry trampoline tf w;
  bo_pages : ks ++ tpages T ++ dp ++ tf :: tpages U ++ l ≡ₚ managed kend ∧ len ks = NPROC ∧ len dp = 3;
  bo_paging : kernel_pagetable s' = pt_root T ∧ c_satp (t_csr (bo_t s')) = u64 (MAKE_SATP (pt_root T)) ∧ c_stvec (t_csr (bo_t s')) = u64 kernelvec;
  bo_procs : ready (y_pt (sys_of s)) tf (pt_root U) ip (y_pt (sys_of s'));
  bo_inodes : it_ok (fs_rest (files_of s')) ∧ iptr ip ∧ (let i := r_geti (fs_rest (files_of s')) ip in i_dev i = ROOTDEV ∧ i_inum i = ROOTINO ∧ i_ref i = 1);
  bo_cache : let d := bs_disk (ls_cache (fs_io (files_of s))) in rep ROOTDEV (mkabuf ∅ (d_blocks d) (d_writes d)) (ls_cache (fs_io (files_of s')));
  bo_driver : fresh (bo_disk s') ∧ bd_at (bo_dev s') 15 1;
  bo_locks : unlocked (bo_prlock s') ∧ unlocked (bo_txlock s') ∧ unlocked (cn_lock (bo_cons s')) ∧ unlocked (ft_lock (k_ft (y_k (sys_of s')))) ∧ unlocked (y_tickslock (sys_of s'));
  bo_started : started s' = 1;
}.

(** A state with the console [c] and the rest of [s] as given. *)
Definition assemble (s : boot D) (c : con D kmem) t m io itl ino ftl tl csr dev dk kpt sta : boot D :=
  let y := sys_of s in let r := fs_rest (k_fs (y_k y)) in
  mkboot (mktst (mksys t (mkkst (mkfstate io (mkfrest (fr_sb r) itl ino (mkku (ku_kmem (fr_ku r)) m))) (mkftable ftl (ft_file (k_ft (y_k y)))) (k_pipes (y_k y))) tl (y_ticks y)) csr)
    dev (cs_cons c) (cs_txlock c) (cs_txbusy c) (cs_panicking c) (cs_panicked c) (cs_prlock c) dk kpt sta.

Lemma assemble_con s c (y := sys_of s) : cs_ku c = ku y → upd conL c s =
  assemble s c (set_pcpu (cs_cpu c) (y_pt y)) (view kmL y) (fs_io (k_fs (y_k y))) (fr_itlock (fs_rest (k_fs (y_k y)))) (fr_inode (fs_rest (k_fs (y_k y))))
    (ft_lock (k_ft (y_k y))) (y_tickslock y) (t_csr (bo_t s)) (cs_dev c) (bo_disk s) (kernel_pagetable s) (started s).
Proof.
  destruct c, s as [[[t [[io [sb itl ino [kk m]]] [ftl files] pipes] tl ticks] csr] dev cn txl txb pg pk prl dk kpt sta]. cbn. by intros ->.
Qed.

Section steps.
  Context (s : boot D) (c : con D kmem).

Lemma as_vm {A} (p : M kmem A) a t m m' io itl ino ftl tl csr dev dk kpt sta :
  p m = Ok a m' → sys_ (vm_ p) (assemble s c t m io itl ino ftl tl csr dev dk kpt sta) = Ok a (assemble s c t m' io itl ino ftl tl csr dev dk kpt sta).
Proof. intros E. unfold sys_, vm_, zoom. change (view kmL _) with m. by rewrite E. Qed.

Lemma as_pt {A} (p : M ptable A) a t t' m io itl ino ftl tl csr dev dk kpt sta :
  p t = Ok a t' → sys_ (pt_ p) (assemble s c t m io itl ino ftl tl csr dev dk kpt sta) = Ok a (assemble s c t' m io itl ino ftl tl csr dev dk kpt sta).
Proof. intros E. unfold sys_, pt_, zoom. change (view ptL _) with t. by rewrite E. Qed.

Lemma as_dev {A} (p : M D A) a t m io itl ino ftl tl csr dev dev' dk kpt sta :
  p dev = Ok a dev' → zoom bdevL p (assemble s c t m io itl ino ftl tl csr dev dk kpt sta) = Ok a (assemble s c t m io itl ino ftl tl csr dev' dk kpt sta).
Proof. intros E. unfold zoom. change (view bdevL _) with dev. by rewrite E. Qed.
End steps.

(** From the page allocator to the interrupt controller. *)
Lemma first_half s c st t io itl ino ftl tl csr dev dk kpt sta m m1 m2 root :
  kinit me kend m = Ok tt m1 → kvminit me etext trampoline m1 = Ok root m2 → len (procs t) = NPROC → bd_at dev st 0 →
  ∃ ps dev', (∀ A (k : M (boot D) A),
    (sys_ (vm_ (kinit me kend)) ;; kpt <- sys_ (vm_ (kvminit me etext trampoline)) ;; modify (set_kernel_pagetable kpt) ;; s <- get ;;
     zoom tL (c_ (kvminithart (kernel_pagetable s))) ;; sys_ (pt_ procinit) ;; zoom tL trapinit ;; zoom tL (trapinithart kernelvec) ;;
     zoom bdevL plicinit ;; zoom bdevL (plicinithart me) ;; k) (assemble s c t m io itl ino ftl tl csr dev dk kpt sta) =
    k (assemble s c (mkptable ps (nextpid t) (initlock "nextpid") (initlock "wait_lock") (initproc t) (pcpu t) (cpu_proc t)) m2 io itl ino ftl (initlock "time")
         (set_stvec (u64 kernelvec) (set_satp (u64 (MAKE_SATP root)) csr)) dev' dk root sta)) ∧
    len ps = NPROC ∧ (∀ q, 1 ≤ q ≤ NPROC → znth proc0 ps (q - 1) = blank_proc q (getp t q)) ∧ bd_at dev' st 0.
Proof.
  intros K1 K2 Hl Hd. destruct (procinit_ok t Hl) as (ps & P1 & P2 & P3). set (t2 := mkptable ps _ _ _ _ _ _) in P1 |- *.
  destruct (plicinit_ok dev st 0 Hd) as (dev2 & D2 & Hd2). destruct (plicinithart_ok me Hme dev2 st 0 Hd2) as (dev3 & D3 & Hd3). exists ps, dev3. split_and!; [|done..]. intros A k.
  set (csr1 := set_satp (u64 (MAKE_SATP root)) csr). set (csr2 := set_stvec (u64 kernelvec) csr1).
  rewrite (bind_ok _ _ _ tt (assemble s c t m1 io itl ino ftl tl csr dev dk kpt sta)) by (by apply as_vm).
  rewrite (bind_ok _ _ _ root (assemble s c t m2 io itl ino ftl tl csr dev dk kpt sta)) by (by apply as_vm).
  rewrite bind_modify, bind_get. rewrite (bind_ok _ _ _ tt (assemble s c t m2 io itl ino ftl tl csr1 dev dk root sta)) by reflexivity.
  rewrite (bind_ok _ _ _ tt (assemble s c t2 m2 io itl ino ftl tl csr1 dev dk root sta)) by (by apply as_pt).
  rewrite (bind_ok _ _ _ tt (assemble s c t2 m2 io itl ino ftl (initlock "time") csr1 dev dk root sta)) by reflexivity.
  rewrite (bind_ok _ _ _ tt (assemble s c t2 m2 io itl ino ftl (initlock "time") csr2 dev dk root sta)) by reflexivity.
  rewrite (bind_ok _ _ _ tt (assemble s c t2 m2 io itl ino ftl (initlock "time") csr2 dev2 dk root sta)) by (by apply as_dev).
  by rewrite (bind_ok _ _ _ tt (assemble s c t2 m2 io itl ino ftl (initlock "time") csr2 dev3 dk root sta)) by (by apply as_dev).
Qed.

(** From the buffer cache to the first process. *)
Lemma second_half s c st t io itl ino ftl tl csr dev dk kpt sta m p1 m3 p2 m4 p3 m5 l bc (r0 := fs_rest (k_fs (y_k (sys_of s)))) :
  bd_at dev st 0 → kalloc me m = Ok p1 m3 → kalloc me m3 = Ok p2 m4 → kalloc me m4 = Ok p3 m5 → p1 ≠ 0 → p2 ≠ 0 → p3 ≠ 0 →
  kmem_inv kend l m5 → 6 < len l → tok t → unlocked (pid_lock t) → p_state (getp t 1) = UNUSED →
  len ino = NINODE → (∀ ip, iptr ip → i_ref (znth inode0 ino (ip - 1)) = 0) → binit (ls_cache io) = Ok tt bc →
  ldb (ku_kmem (fr_ku r0)) rootpath = SLASH → ldb (ku_kmem (fr_ku r0)) (rootpath + 1) = 0 →
  ∃ t' m' tf U l' ip ino' dev' dk' itl', (sys_ (zoom kL (zoom fsL (zoom ioL (zoom bioL binit)))) ;; sys_ (zoom kL (zoom fsL iinit)) ;; sys_ (zoom kL fileinit) ;;
      zoom vinitL (virtio_disk_init (zoom vmemL (kalloc me))) ;; sys_ (userinit (TX := boot_io me) me kend trampoline forkret de namebuf rootpath) ;; modify (set_started 1))
      (assemble s c t m io itl ino ftl tl csr dev dk kpt sta) =
    Ok tt (assemble s c t' m' (mklstate bc (ls_log io)) itl' ino' (initlock "ftable") tl csr dev' dk' kpt 1) ∧
    first_proc forkret t tf (pt_root U) ip t' ∧ vm_inv kend U l' m' ∧ tf :: tpages U ++ l' ≡ₚ l ∧ (∀ w, entry (pmem m') U w = proc_entry trampoline tf w) ∧
    (∀ x, (∀ q, q ∈ l → x < q ∨ q + 4096 ≤ x) → ldb (pmem m') x = ldb (pmem m5) x) ∧ fresh dk' ∧ bd_at dev' 15 1 ∧
    it_ok (mkfrest (fr_sb r0) itl' ino' (mkku (ku_kmem (fr_ku r0)) m')) ∧ iptr ip ∧ (let i := znth inode0 ino' (ip - 1) in i_dev i = ROOTDEV ∧ i_inum i = ROOTINO ∧ i_ref i = 1).
Proof.
  intros Hd K1 K2 K3 N1 N2 N3 Hk Hl Htok Hpl Hu Hi Hi' EB HR HR'. set (io1 := mklstate bc (ls_log io)).
  rewrite (bind_ok _ _ _ tt (assemble s c t m io1 itl ino ftl tl csr dev dk kpt sta)).
  2:{ unfold sys_, zoom. change (view bioL _) with (ls_cache io). by rewrite EB. }
  destruct (iinit_ok (mkfstate io1 (mkfrest (fr_sb r0) itl ino (mkku (ku_kmem (fr_ku r0)) m))) Hi Hi') as (ino1 & EI & Hit & Hz). cbn [fs_rest fs_io fr_sb fr_ku] in EI, Hit, Hz.
  rewrite (bind_ok _ _ _ tt (assemble s c t m io1 (initlock "itable") ino1 ftl tl csr dev dk kpt sta)).
  2:{ unfold sys_, zoom. change (view fsL _) with (mkfstate io1 (mkfrest (fr_sb r0) itl ino (mkku (ku_kmem (fr_ku r0)) m))). by rewrite EI. }
  rewrite (bind_ok _ _ _ tt (assemble s c t m io1 (initlock "itable") ino1 (initlock "ftable") tl csr dev dk kpt sta)) by reflexivity.
  destruct (disk_init_ok me dk dev st m p1 m3 p2 m4 p3 m5 Hd K1 K2 K3 N1 N2 N3) as (dk' & dev' & ED & Hdk & Hdev).
  rewrite (bind_ok _ _ _ tt (assemble s c t m5 io1 (initlock "itable") ino1 (initlock "ftable") tl csr dev' dk' kpt sta)).
  2:{ unfold zoom at 1. change (view vinitL _) with (mkvinit dk (dev, m)). by rewrite ED. }
  set (s1 := assemble s c t m5 _ _ _ _ _ _ _ _ _ _).
  destruct (userinit_ok (TX := boot_io me) me kend trampoline forkret de namebuf rootpath Hend (sys_of s1) l Htok Hpl Hu Hk Hl Ht Ht') as (t' & m' & tf & U & l' & ip & EU & Hip & Hit' & Hf & HV & HP & HE & Ho);
    [by destruct Hit; constructor|exact Hz|exact HR|exact HR'|].
  exists t', m', tf, U, l', ip, (zset ino1 (ip - 1) (set_i_id ROOTDEV ROOTINO (znth inode0 ino1 (ip - 1)))), dev', dk', (initlock "itable").
  split_and!; try done.
  - rewrite (bind_ok _ _ _ _ _ (zoom_ok bsysL _ s1 _ _ EU)). reflexivity.
  - by destruct Hit'; constructor.
  - pose proof (geti_seti (fs_rest (k_fs (y_k (sys_of s1)))) ip ip (set_i_id ROOTDEV ROOTINO (znth inode0 ino1 (ip - 1))) (it_len _ Hit) Hip) as Hg.
    rewrite decide_True in Hg by done. unfold r_geti, r_seti in Hg. cbn [fr_inode] in Hg. change (fr_inode _) with ino1 in Hg. by rewrite Hg.
Qed.

(** The table after [procinit] satisfies the invariant. *)
Lemma blank_tok t ps (t' := mkptable ps (nextpid t) (initlock "nextpid") (initlock "wait_lock") (initproc t) (pcpu t) (cpu_proc t)) : cpu_ok (pcpu t) → len ps = NPROC →
  (∀ q, 1 ≤ q ≤ NPROC → znth proc0 ps (q - 1) = blank_proc q (getp t q)) → tok t' ∧ p_state (getp t' 1) = UNUSED.
Proof.
  intros Hc Hl Hq. split; [|unfold getp; cbn [procs t']; rewrite Hq by (unfold NPROC; lia); done].
  constructor; [done|done|]. intros p Hp. unfold pvalid in Hp. cbn [procs t'] in Hp. unfold getp. cbn [procs t']. rewrite Hq by lia. done.
Qed.

Lemma main_first_ok st s : loaded st s →
  ∃ s' T U ks dp l tf ip, main_first me kend etext trampoline forkret kernelvec de namebuf rootpath s = Ok tt s' ∧ booted s s' T U ks dp l tf ip.
Proof.
  intros [L1 L2 L3 [L4 L4'] L5 L6 [L7 L7'] L8]. destruct (hello_ok me st 0 s L8 L3 L6) as (c & EH & [HC1 HC2] & HC3 & HC4 & HC5 & HC6).
  destruct (boot_memory me kend etext trampoline Hend Hstop Hroom He He' Ht Ht' _ L1) as (m1 & m2 & T & l & ks & p1 & p2 & p3 & m3 & m4 & m5 & l5 & K1 & K2 & A1 & A2 & A3 & N1 & N2 & N3 & V & HT & Hks & -> & Hk5 & Hl5 & Hp & Ho).
  set (t1 := set_pcpu (cs_cpu c) (y_pt (sys_of s))). assert (Hc1 : cpu_ok (pcpu t1)) by exact (eo_cpu _ _ HC1).
  destruct (first_half s c st t1 (fs_io (files_of s)) (fr_itlock (fs_rest (files_of s))) (fr_inode (fs_rest (files_of s))) (ft_lock (k_ft (y_k (sys_of s)))) (y_tickslock (sys_of s))
    (t_csr (bo_t s)) (cs_dev c) (bo_disk s) (kernel_pagetable s) (started s) _ _ _ _ K1 K2 L2 (eo_dev _ _ HC1)) as (ps & dev2 & EF & P1 & P2 & Hd2).
  destruct (blank_tok t1 ps Hc1 P1 P2) as [Htok Hun]. pose proof (binit_run _ L5) as HB. apply returns_ok in HB as ([] & bc & EB & HB).
  destruct (second_half s c st _ _ (fr_itlock (fs_rest (files_of s))) _ (ft_lock (k_ft (y_k (sys_of s)))) (initlock "time") (set_stvec (u64 kernelvec) (set_satp (u64 (MAKE_SATP (pt_root T))) (t_csr (bo_t s)))) dev2 (bo_disk s) (pt_root T) (started s) m2 _ _ _ _ _ _ l5 bc
    Hd2 A1 A2 A3 N1 N2 N3 Hk5 Hl5 Htok ltac:(done) Hun L4 L4' EB L7 L7') as (t' & m' & tf & U & l' & ip & ino' & dev' & dk' & itl' & ES & HF & HV & HP & HE & Ho' & Hdk & Hdev & Hit & Hip & Hi).
  set (s' := assemble s c t' m' _ itl' ino' _ _ _ dev' dk' _ 1) in ES.
  exists s', T, U, ks, [p1; p2; p3], l', tf, ip. split.
  - unfold main_first. rewrite EH, (assemble_con s c HC3), EF. exact ES.
  - destruct (tables_stay kend T (p1 :: p2 :: p3 :: l5) m2 m' V) as [S1 S2]; [intros x Hx; rewrite Ho'; [by apply Ho|intros q Hq; apply Hx; by do 3 apply list_elem_of_further]|].
    destruct HF as [F1 F2 F3 F4 F5 F6 [F7 F8]]. constructor.
    + split; [exact S1|]. intros w. rewrite <-HT. apply S2.
    + by split.
    + split_and!; [rewrite <-Hp, <-HP; done|done|done].
    + done.
    + constructor; [exact F1| | |exact F7|by eapply cpu_same_trans|destruct F6 as [G1 G2]; split; [exact (eq_ind_r unlocked (unlocked_initlock _) G1)|exact (eq_ind_r unlocked (unlocked_initlock _) G2)]].
      * change (y_pt (sys_of s')) with t'. rewrite F2. unfold getp at 1. cbn [procs]. rewrite P2 by (unfold NPROC; lia). reflexivity.
      * intros p Hpr. change (y_pt (sys_of s')) with t'. rewrite F3 by lia. unfold getp at 1. cbn [procs]. rewrite P2 by lia. reflexivity.
    + by split_and!.
    + by destruct (binit_inv_rep ROOTDEV _ _ ltac:(done) HB).
    + by split.
    + split_and!; [exact HC2|change (unlocked (cs_txlock c)); by rewrite HC5|change (unlocked (cn_lock (cs_cons c))); by rewrite HC6|done|done].
    + done.
Qed.
End boot.

(** Another hart, once [started] is set. *)
Lemma main_other_ok {D} `{BD : BootDev D} h kernelvec st rd (s : boot D) : 0 ≤ h < NCPU → started s ≠ 0 → con_ready st rd (view conL s) →
  ∃ s', main_other h kernelvec s = Ok tt s' ∧ c_satp (t_csr (bo_t s')) = u64 (MAKE_SATP (kernel_pagetable s)) ∧ c_stvec (t_csr (bo_t s')) = u64 kernelvec.
Proof.
  intros Hh Hs Hc. unfold main_other. rewrite bind_get, (proj2 (Z.eqb_neq _ _) Hs). destruct (say_ok h st rd (str "hart %d starting" ++ [10]) [Word h] s Hc) as (c & E & [HC _] & _).
  rewrite (bind_ok _ _ _ _ _ E). set (s1 := upd conL c s). set (s2 := upd tL (upd csrL (set_stvec (u64 kernelvec) (set_satp (u64 (MAKE_SATP (kernel_pagetable s))) (t_csr (bo_t s1)))) (bo_t s1)) s1).
  rewrite (bind_ok _ _ _ tt (upd tL (upd csrL (set_satp (u64 (MAKE_SATP (kernel_pagetable s))) (t_csr (bo_t s1))) (bo_t s1)) s1)) by reflexivity.
  rewrite (bind_ok _ _ _ tt s2) by reflexivity. destruct (plicinithart_ok h Hh (bo_dev s2) st rd (eo_dev _ _ HC)) as (d' & E' & _).
  exists (upd bdevL d' s2). split; [exact (zoom_ok bdevL _ s2 _ _ E')|done].
Qed.

(** C5: booting.  From the state the loader leaves (zeroed globals, working
    devices, 176 pages of memory), hart 0 gets through [main] to the scheduler
    without a panic.  Then the kernel page table of [kvmmake] is in use and
    still intact; the first process is the one RUNNABLE entry of the process
    table, in the root directory, with a page table that maps the trampoline
    and its trapframe; the inode table has one reference, to the root inode; the
    buffer cache is empty and reads as the disk; the disk driver has all of its
    descriptors free; every lock is free.  Kernel stacks, both page tables, the
    driver's pages, the trapframe and the free list are all different pages,
    and together all the memory there is.  Another hart spins until then, and
    goes on to the same page table and trap vector. *)
Theorem boot_spec {D} `{BD : BootDev D} kend etext trampoline forkret kernelvec de namebuf rootpath st (s : boot D) :
  0 < kend ≤ PHYSTOP → 176 ≤ len (managed kend) → page_aligned etext → KERNBASE < etext < PHYSTOP → page_aligned trampoline → 0 ≤ trampoline < PHYSTOP →
  loaded rootpath st s →
  ∃ s' T U ks dp l tf ip, booted kend etext trampoline forkret kernelvec s s' T U ks dp l tf ip ∧
    (∀ run, main 0 kend etext trampoline forkret kernelvec de namebuf rootpath run s = sys_ (pt_ (scheduler 0 run)) s') ∧
    (∀ h run s1, h ≠ 0 → started s1 = 0 → main h kend etext trampoline forkret kernelvec de namebuf rootpath run s1 = Spin s1) ∧
    (∀ h run s1, 0 < h < NCPU → started s1 = started s' → kernel_pagetable s1 = kernel_pagetable s' → con_ready 15 1 (view conL s1) →
      ∃ s2, main h kend etext trampoline forkret kernelvec de namebuf rootpath run s1 = sys_ (pt_ (scheduler h run)) s2 ∧
        c_satp (t_csr (bo_t s2)) = c_satp (t_csr (bo_t s')) ∧ c_stvec (t_csr (bo_t s2)) = c_stvec (t_csr (bo_t s'))).
Proof.
  intros [Hend Hstop] Hroom He He' Ht Ht' Hl. destruct (main_first_ok 0 kend etext trampoline forkret kernelvec de namebuf rootpath ltac:(done) Hend Hstop Hroom He He' Ht Ht' st s Hl)
    as (s' & T & U & ks & dp & l & tf & ip & E & HB). exists s', T, U, ks, dp, l, tf, ip. split_and!; [done| | |].
  - intros run. unfold main. by rewrite (bind_ok _ _ _ _ _ E).
  - intros h run s1 Hh Hs. unfold main, main_other. rewrite (proj2 (Z.eqb_neq _ _) Hh). unfold bind at 1. rewrite bind_get, Hs. done.
  - intros h run s1 Hh Hs Hk Hc. destruct (bo_paging _ _ _ _ _ _ _ _ _ _ _ _ _ _ HB) as (B1 & B2 & B3). pose proof (bo_started _ _ _ _ _ _ _ _ _ _ _ _ _ _ HB) as B4.
    destruct (main_other_ok h kernelvec 15 1 s1) as (s2 & E2 & H1 & H2); [lia|by rewrite Hs, B4|done|]. exists s2. unfold main.
    rewrite (proj2 (Z.eqb_neq h 0)) by lia. rewrite (bind_ok _ _ _ _ _ E2). split_and!; [done|by rewrite H1, B2, Hk, B1|by rewrite H2, B3].
Qed.

(** ** An instance: a board whose disk remembers STATUS and QUEUE_READY *)

#[local] Instance board_mmio : Mmio (Z * Z) := {|
  mm_read8 a := ret (if a =? UART0 + LSR then 32 else 0);
  mm_write8 a v := ret tt;
  mm_read32 a := λ d,
    let r := a - VIRTIO0 in
    Ok (if r =? VIRTIO_MMIO_MAGIC_VALUE then 1953655158
        else if (r =? VIRTIO_MMIO_VERSION) || (r =? VIRTIO_MMIO_DEVICE_ID) then 2
        else if r =? VIRTIO_MMIO_VENDOR_ID then 1431127377
        else if r =? VIRTIO_MMIO_QUEUE_NUM_MAX then 1024
        else if r =? VIRTIO_MMIO_STATUS then fst d
        else if r =? VIRTIO_MMIO_QUEUE_READY then snd d
        else 0) d;
  mm_write32 a v := λ d,
    let r := a - VIRTIO0 in
    Ok tt (if r =? VIRTIO_MMIO_STATUS then (v, snd d) else if r =? VIRTIO_MMIO_QUEUE_READY then (fst d, v) else d);
|}.

#[local] Program Instance board_dev : BootDev (Z * Z) := {| bd_at d st rd := d = (st, rd) |}.
Next Obligation. by eexists. Qed.
Next Obligation. intros; subst. by eexists 32, _. Qed.
Next Obligation.
  intros d st rd o v -> Ho. eexists. split; [reflexivity|]. cbn. unfold PLIC, VIRTIO0, VIRTIO_MMIO_STATUS, VIRTIO_MMIO_QUEUE_READY.
  rewrite !(proj2 (Z.eqb_neq _ _)) by lia. done.
Qed.
Next Obligation.
  intros d st rd r v -> Hr. eexists. split; [reflexivity|]. cbn. replace (VIRTIO0 + r - VIRTIO0) with r by lia.
  destruct (Z.eqb_spec r VIRTIO_MMIO_STATUS) as [-> |]; [done|]. by destruct (r =? VIRTIO_MMIO_QUEUE_READY).
Qed.
Next Obligation.
  intros d st rd r -> Hr. eexists _, _. split; [reflexivity|]. split; [done|]. replace (VIRTIO0 + r - VIRTIO0) with r by lia. unfold vreads.
  destruct (r =? VIRTIO_MMIO_MAGIC_VALUE), (r =? VIRTIO_MMIO_VERSION), (r =? VIRTIO_MMIO_DEVICE_ID); cbn [orb]; try done.
  destruct (r =? VIRTIO_MMIO_VENDOR_ID); [done|]. destruct (r =? VIRTIO_MMIO_QUEUE_NUM_MAX); [by unfold NUM|].
  destruct (r =? VIRTIO_MMIO_STATUS); [done|]. by destruct (r =? VIRTIO_MMIO_QUEUE_READY).
Qed.

Definition board : boot (Z * Z) :=
  mkboot (mktst (mksys (mkptable (replicate 64 proc0) 1 (mkspinlock 0 "" None) (mkspinlock 0 "" None) 0 (mkcpu 0 0 false) 0)
      (mkkst (mkfstate (mklstate (boot_bufs zero_disk) (mklog (mkspinlock 0 "" None) 0 0 0 0 0 []))
         (mkfrest (mksb 0 0 0 0 0 0 0 0) (mkspinlock 0 "" None) (replicate 50 inode0) (mkku (λ x, if x =? 0 then SLASH else 0) demo_mem)))
         (mkftable (mkspinlock 0 "" None) (replicate 100 file0)) ∅) (mkspinlock 0 "" None) 0)
    (mkcsrs 0 0 0 0 0 0 0 0 0 0 0 0 0 0 0 0 0 0 0 0 0))
    (0, 0) (mkcons (mkspinlock 0 "" None) (replicate 128 0) 0 0 0) (mkspinlock 0 "" None) 0 0 0 (mkspinlock 0 "" None) ddisk 0 0.

Lemma board_loaded : loaded 0 0 board.
Proof.
  constructor; [done|done|split; cbn; lia| |by apply blank_boot; intros; apply wf_zero_block|done|done|done].
  split; [done|]. intros ip Hip. unfold r_geti, iptr, NINODE in *. cbn [t_sys bo_t board k_fs y_k fs_rest fr_inode]. by rewrite (znth_replicate inode0 inode0 50) by lia.
Qed.

Lemma boot_spec_witness : ∃ s', (∀ run, main 0 (PHYSTOP - 819200) 2147516416 2147512320 2147483648 2147483652 0 0 0 run board = sys_ (pt_ (scheduler 0 run)) s') ∧
  p_state (getp (y_pt (t_sys (bo_t s'))) 1) = RUNNABLE ∧ started s' = 1.
Proof.
  destruct (boot_spec (PHYSTOP - 819200) 2147516416 2147512320 2147483648 2147483652 0 0 0 0 board ltac:(unfold PHYSTOP, KERNBASE; lia) ltac:(apply Z.leb_le; vm_compute; reflexivity)
    eq_refl ltac:(unfold PHYSTOP, KERNBASE; lia) eq_refl ltac:(unfold PHYSTOP, KERNBASE; lia) board_loaded) as (s' & T & U & ks & dp & l & tf & ip & HB & Hm & _).
  exists s'. split_and!; [exact Hm| |exact (bo_started _ _ _ _ _ _ _ _ _ _ _ _ _ _ HB)].
  rewrite (rd_first _ _ _ _ _ _ (bo_procs _ _ _ _ _ _ _ _ _ _ _ _ _ _ HB)). reflexivity.
Defined.
